(* ===== verification/_CoqProject ===== *)
-Q . S2P
Prelude.v
Constants.v
Text.v
StrText.v
PfsLayout.v
PfsPath.v
PfsDir.v
PfsAlloc.v
Device.v
Hw.v
AtaDisk.v
Pfs.v
PfsIO.v
PfsData.v
PfsProps.v
PfsFile.v
Console.v
PfsCmd.v
BootFs.v
RamFs.v
Phys.v
Paging.v
PagingThm.v
Process.v
Sched.v
SchedThm.v
SchedRace.v
Env.v
Fd.v
Abi.v
AbiFs.v
AbiFsThm.v
AbiProc.v
MemWin.v
MapRun.v
UserMem.v
Elf.v
AddrSpace.v
Spawn.v
SpawnThm.v
UserAbi.v
Interrupt.v
UserIo.v
UserFs.v
UserEnv.v
UserCmd.v
KernelAbi.v
UserFiles.v
FileStore.v
UserCtx.v
EnvStore.v
UserHeap.v
HeapStore.v
UserScreen.v
Rysh.v
RyshThm.v
ScreenStore.v
FsWalk.v
Hello.v
EchoIn.v
BigOutput.v
Relay.v
Ticker.v
PreemptTest.v
CmdApi.v
StdShim.v
Machine.v
Heapstress.v
Faultcheck.v
Allocdemo.v
System.v
MachineStore.v
CommandStore.v
StdApi.v
StdReal.v
CargoLike.v
Shell.v
Boot.v
BootThm.v
BootDemo.v
