(* ===== verification/Prelude.v ===== *)
(** * RYMOS: a verification development

    RYMOS is a hobby operating system in Rust: a kernel in one file
    ([src/kernel/src/main.rs]), the runtime its programs link against
    ([src/runtime/rymos-user/src/lib.rs]), a script shell and small programs under
    [src/programs/], and a UEFI boot loader ([src/bootloader/src/main.rs]). This
    library is a shallow embedding of the kernel, the runtime, the script shell, the
    programs and the boot loader, with the theorems that make them correct.

    ** How the program is modelled

    A definition has the name of the function it translates. An integer is a [Z]
    with its wrap-around written out ([u8] to [u64], [i32], [i64], [checked64]);
    a slice is a list of bytes; a fixed array indexed by the code is a read
    function ([arr]) or a list of fixed length; a [static mut] is a field of the
    state record of its component. Stateful functions take the state and return
    it ([ST S A], notation [let*] / [do!]); calls of a program take the whole
    system and may not answer ([Call S A], notation [let&] / [do&]). [Option],
    [Result] and error codes stay what they are. Unbounded loops take fuel, and the
    theorem about them says how much is enough; loops whose bound is a number of
    the code use [loop_pos], whose totality lemmas ([loop_pos_total],
    [st_loop_total]) turn a measure into termination. Hardware and firmware are
    classes of operations ([SectorDev], [Ports], [Firmware]) with classes of laws
    beside them, which a concrete device satisfies.

    ** The parts, bottom up

    - This file: integers, byte strings, array updates, the search and loop
      combinators and their lemmas, the state monad, the hint database [rymos].
      Constants.v: the constants of the kernel. Text.v: its byte-string helpers.
      StrText.v: what the programs use of the text functions of [str].
    - The persistent file system RYMFS5. PfsLayout.v: the header bytes
      and every accessor of an entry; PfsPath.v: path resolution; PfsDir.v: lookup,
      create, unlink, rename on the header; PfsAlloc.v: extents and free runs;
      Device.v: the interface [SectorDev] of a sector device and its laws; Hw.v and
      AtaDisk.v: the ATA driver over ports and the proof that it keeps the laws;
      Pfs.v: header I/O and the data path; PfsIO.v, PfsData.v: what they do on a
      well-formed store; PfsProps.v: the contract; PfsFile.v: a file with content
      under a name; PfsCmd.v: the console commands and what they do.
    - Console.v: the text console and its keyboard; BootFs.v and RamFs.v: the other
      two file systems.
    - Memory. Phys.v: the page allocator; Paging.v: page tables; PagingThm.v: page
      tables as a map from pages to frames; MapRun.v: mapping a run of pages;
      UserMem.v: the memory calls of a process over the tables; AddrSpace.v: the
      address space of a process.
    - Processes. Process.v: the process table; Sched.v: the scheduler as a step
      relation on worlds (kernel state and where each saved context resumes);
      SchedThm.v: the invariant with masked critical sections; SchedRace.v: what
      interleavings the unmasked code has; Env.v: environments; Fd.v: descriptors
      and pipes; Elf.v: the program loader; Spawn.v, SpawnThm.v: starting
      programs.
    - The interface to programs. Abi.v, AbiFs.v, AbiProc.v: the [abi_*] handlers
      over the system state [Sys]; AbiFsThm.v: what the file calls report;
      MemWin.v: the memory windows; KernelAbi.v: the blocking waits and the
      function table.
    - Interrupts and the serial line. Interrupt.v: the serial port, the interrupt
      controller, the timer, the descriptor table and the report of a CPU
      exception, and the proof that every exception is reported.
    - The runtime. UserAbi.v: the function table as the class [RymosAbi]; UserIo.v,
      UserFs.v, UserEnv.v, UserCmd.v, UserHeap.v: the runtime, written against the
      class and so run on any table.
    - Across the interface: a class states what the runtime relies on
      ([FileLaws] in UserFiles.v, [EnvLaws] in UserCtx.v, [PageLaws] in UserHeap.v),
      the runtime's lemmas are proved from it, and FileStore.v, EnvStore.v and
      HeapStore.v prove it of the kernel's table. CommandStore.v: what running a
      command does to the process that runs it, on the kernel's table.
    - The script shell. Rysh.v: its text, its variables and its interpreter, written
      against the runtime; RyshThm.v: its commands; UserScreen.v, ScreenStore.v: what
      its output puts on the kernel's console.
    - The sample programs, written against the runtime: Hello.v, EchoIn.v,
      BigOutput.v, Relay.v, Ticker.v, PreemptTest.v, CmdApi.v, StdShim.v and
      FsWalk.v, with what a hole in a file reads as. Heapstress.v,
      Faultcheck.v and Allocdemo.v touch their own memory, fault on purpose and use
      the heap: Machine.v is the class of their loads, stores and faults, with what
      a program may rely on, and MachineStore.v proves that of the kernel.
      StdReal.v and CargoLike.v are written against the standard library, whose port
      to this system is not in the repository: StdApi.v is the class of its calls.
    - The kernel shell. System.v: the commands that look at memory and
      devices; Shell.v: the command line and [_start].
    - The boot loader. Boot.v: [efi_main] over the firmware as the class [Firmware],
      and what the kernel makes of the boot information; BootThm.v: the hand-over;
      BootDemo.v: a machine that boots.

    ** What the theorems show

    - Files: a write through the runtime is what a read returns, and an append adds
      at the end ([written_file_reads_back], [append_extends_file]); the same one
      level down for [pfs_write_at] / [pfs_read_at], where other files, gaps and
      free sectors are accounted for ([write_at_stores], [grow_takes_free_sectors]);
      the directory operations change one name ([create_adds_name],
      [unlink_removes_name], [rename_moves_name]); a write past the end leaves a gap
      that reads as zeros ([sparse_file_reads_back]); paths resolve to the stack
      meaning ([normalize_pfs_path_refines]).
    - Memory: the allocator is a set of pages ([allocator_refines_set]), built
      from usable memory ([init_allocator_sound]); mapping and unmapping change one
      page of the translation ([map_page_extends], [unmap_page_removes]); a memory
      call backs exactly the pages it records, all or none
      ([memory_calls_back_pages]), and guard pages stay unmapped
      ([guard_pages_stay_unmapped]); the windows of a process and of different
      processes never overlap ([memory_calls_keep_windows],
      [processes_share_no_mapping]); the address space of a process is its own over
      the program image and shows its windows ([new_space_is_private],
      [windows_stay_visible]); heap blocks are
      disjoint ([heap_blocks_disjoint]).
    - Processes: with masked sections no wake-up is lost and nothing exited is
      resumed ([masked_scheduling_safe]), which the code as written does not ensure
      ([lost_wakeup_blocks_forever], [stale_pick_resumes_exited]); spawning makes
      one child ([spawn_starts_one_child]), waiting collects it once
      ([wait_reaps_once]); a loaded image is what its segments say
      ([load_program_writes_image]).
    - Errors: each directory call of a program answers with the error of the first
      condition that fails and changes nothing then, and succeeds only when none does
      ([directory_calls_report]);
      every CPU exception reaches its report ([exceptions_are_reported]).
    - Commands: [pwrite] then [pread] shows the text ([pwrite_pread_round_trip]),
      [maptest] reads back what it stored in the page it mapped
      ([maptest_reads_back]), [heapstress] reads back its marks or says why it could
      not map ([heapstress_outcomes]), [faultcheck] does not survive touching a guard
      page ([guard_touch_faults]), [cat] of a script shows the file
      ([script_shows_written_file]), a [print] line shows its expansion
      ([print_line_shows_expansion]); shell variables are a map
      ([var_set_updates]).
    - Running a command from a program: its own variables are undone
      ([env_overrides_undone]); for a command with no directory of its own, taking its
      output leaves the caller's descriptors, pipes, directory and variables as they
      were, however it ends, answers with exactly what the child wrote, and fails only
      for a named reason ([command_output_captures]).
    - Boot: the kernel is entered at its entry point with its image, the screen,
      the memory map and the boot files in memory ([boot_hands_over]), and the pages
      its allocator then hands out hold none of them ([kernel_pages_are_free]).
    - Termination: the search for free sectors and the growth of a file leave
      their loops after as many rounds as there are sectors, whatever the bound
      ([allocation_loops_terminate]); a chain of [relay]s gets shorter
      ([relay_counts_down]).
    - Descriptors, pipes, environment, console and the other file systems refine
      a queue, a map, a scrolling text and a table of names.

    ** Bounds and fuel

    [loop_pos] runs at most as many rounds as its positive argument says; every
    such bound is the code's own or the number of bytes left, and the totality
    theorems prove that it is not reached. The reads of [UserFs.read_to_end] need
    one round per byte at worst ([written_file_reads_back] asks for more rounds
    than bytes). The fuel of the blocking waits is the number of times the waiter
    is resumed; running out of it is a wait that has not ended.

    ** What is not modelled

    The register switch and the interrupt stubs are assembly: of a stub the model
    has what it pushes, of a switch which saved context it resumes. Where the linker
    puts a stub is a parameter. What other processes do while one waits is a
    parameter ([others] of KernelAbi.v): programs are arbitrary. The firmware is a
    parameter of the boot loader ([FirmwareLaws] says what it relies on). The
    start-up code of the programs is left out. A program's own loads and stores are
    64-bit words at addresses behind 4 KB pages; an address under a huge page, such
    as the 0 of the [null] mode of [faultcheck], has no word in the model. Which
    blocks the standard library asks for while a [Vec] or a [String] grows is a
    parameter, and so is the port of the standard library that [stdreal] and
    [cargolike] are built on ([Std] of StdApi.v; [DirLaws] of CargoLike.v says what
    the walk of a directory tree relies on, [walk_visits] what it collects). The host
    scripts that build the disk images are not part of the system. A panic of the
    kernel is the absence of an answer. *)

From Stdlib Require Export ZArith Lia.
From stdpp Require Export base option list numbers strings.

#[global] Open Scope Z_scope.

(** ** Machine integers

    The release build of the kernel wraps on overflow, so every operation whose
    result may leave its type is written with one of these truncations. *)

Definition u8 (x : Z) : Z := x mod 256.
Definition u16 (x : Z) : Z := x mod 65536.
Definition u32 (x : Z) : Z := x mod 4294967296.
Definition u64 (x : Z) : Z := x mod 18446744073709551616.

(** Two's-complement reading of a truncated word ([as i32], [as isize]). *)
Definition i32 (x : Z) : Z := (x + 2147483648) mod 4294967296 - 2147483648.
Definition i64 (x : Z) : Z :=
  (x + 9223372036854775808) mod 18446744073709551616 - 9223372036854775808.

Definition saturating_sub (a b : Z) : Z := Z.max 0 (a - b).

(** [u64::checked_add] and [checked_mul]. *)
Definition checked64 (x : Z) : option Z :=
  if x <? 18446744073709551616 then Some x else None.

Definition is_u8 (x : Z) : Prop := 0 <= x < 256.
Definition is_u32 (x : Z) : Prop := 0 <= x < 4294967296.
Definition is_u64 (x : Z) : Prop := 0 <= x < 18446744073709551616.

(** ** Byte strings and fixed arrays *)

Abbreviation bytes := (list Z).

Definition blen (l : bytes) : Z := Z.of_nat (length l).

(** A fixed-size byte array ([[u8; N]]) is its read function; indices outside
    the array are never read by the code (each component proves its bounds). *)
Definition arr : Type := Z -> Z.

Definition zeroed : arr := fun _ => 0.

(** [a[off..off+len]] *)
Definition slice (a : arr) (off len : Z) : bytes :=
  map (fun k => a (off + Z.of_nat k)) (seq 0 (Z.to_nat len)).

(** [a[off..off+l.len()].copy_from_slice(l)] *)
Definition blit (a : arr) (off : Z) (l : bytes) : arr :=
  fun i => if (off <=? i) && (i <? off + blen l)
           then nth (Z.to_nat (i - off)) l 0 else a i.

(** [a[off..off+len].fill(v)] *)
Definition fill_range (a : arr) (off len v : Z) : arr :=
  fun i => if (off <=? i) && (i <? off + len) then v else a i.

(** [a[i] = v] *)
Definition aset (a : arr) (i v : Z) : arr :=
  fun j => if j =? i then v else a j.

(** [==] on byte slices. *)
Fixpoint bytes_eq (l r : bytes) : bool :=
  match l, r with
  | [], [] => true
  | x :: l', y :: r' => (x =? y) && bytes_eq l' r'
  | _, _ => false
  end.

(** ** Bounded search and bounded loops *)

(** [for index in 0..n { if p(index) { return Some(index) } } None] *)
Fixpoint find_from (p : nat -> bool) (start n : nat) : option nat :=
  match n with
  | O => None
  | S n' => if p start then Some start else find_from p (S start) n'
  end.

Definition find_first (p : nat -> bool) (n : nat) : option nat := find_from p 0 n.

(** A loop body either continues with a new state or leaves with a result. *)
Fixpoint loop_nat {S R : Type} (n : nat) (f : S -> S + R) (s : S) : S + R :=
  match n with
  | O => inl s
  | Datatypes.S n' =>
      match f s with
      | inl s' => loop_nat n' f s'
      | inr r => inr r
      end
  end.

(** The same loop with a binary bound, so that a bound of several million
    rounds costs nothing when the body leaves early. *)
Fixpoint loop_pos {S R : Type} (p : positive) (f : S -> S + R) (s : S) : S + R :=
  match p with
  | xH => f s
  | xO p' =>
      match loop_pos p' f s with
      | inl s' => loop_pos p' f s'
      | inr r => inr r
      end
  | xI p' =>
      match f s with
      | inl s' =>
          match loop_pos p' f s' with
          | inl s'' => loop_pos p' f s''
          | inr r => inr r
          end
      | inr r => inr r
      end
  end.

(** [for i in lo..hi { f(i) }] over a state. *)
Definition for_range {S} (lo hi : Z) (f : Z -> S -> S) (s : S) : S :=
  fold_left (fun s i => f (lo + Z.of_nat i) s) (seq 0 (Z.to_nat (hi - lo))) s.

(** ** A state monad

    [ST S A] is code that reads and changes a state of type [S] and returns an
    [A]; early returns are written as [match] and [if]. *)

Definition ST (S A : Type) : Type := S -> S * A.

Definition st_ret {S A} (a : A) : ST S A := fun s => (s, a).

Definition st_bind {S A B} (m : ST S A) (k : A -> ST S B) : ST S B :=
  fun s => let '(s', a) := m s in k a s'.

Declare Scope rymos_scope.
Delimit Scope rymos_scope with rymos.

Notation "'let*' x := m 'in' k" := (st_bind m (fun x => k))
  (at level 10, x name, m at level 100, k at level 200) : rymos_scope.

Notation "'do!' m 'in' k" := (st_bind m (fun _ => k))
  (at level 10, m at level 100, k at level 200) : rymos_scope.

(** [let Some(x) = o else { e }; k] *)
Notation "'let?' x := o 'else' e 'in' k" :=
  (match o with Some x => k | None => e end)
  (at level 10, x name, o at level 100, e at level 200, k at level 200)
  : rymos_scope.

#[global] Open Scope rymos_scope.

(** A bounded loop whose body uses the state; [dflt] is returned when the
    bound is reached, which each loop's theorem excludes. *)
Definition st_loop {D S R} (p : positive) (body : S -> ST D (S + R)) (dflt : R) (s : S)
  : ST D R :=
  fun d =>
    match loop_pos p (fun ds =>
            let '(d', r) := body ds.2 ds.1 in
            match r with
            | inl s' => inl (d', s')
            | inr r => inr (d', r)
            end) (d, s) with
    | inr x => x
    | inl ds => (ds.1, dflt)
    end.

(** ** Byte literals *)

(** [b"..."] *)
Fixpoint bs (s : string) : bytes :=
  match s with
  | EmptyString => []
  | String c s' => Z.of_N (Ascii.N_of_ascii c) :: bs s'
  end.

Definition ch (s : string) : Z := hd 0 (bs s).

#[global] Arguments bs s%_string : simpl never.
#[global] Arguments ch s%_string : simpl never.
#[global] Arguments u8 : simpl never.
#[global] Arguments u16 : simpl never.
#[global] Arguments u32 : simpl never.
#[global] Arguments u64 : simpl never.
#[global] Arguments i32 : simpl never.
#[global] Arguments i64 : simpl never.
#[global] Arguments blit : simpl never.
#[global] Arguments fill_range : simpl never.
#[global] Arguments aset : simpl never.
#[global] Arguments slice : simpl never.

(** ** Tactics *)

(** [lia] after turning division and remainder into equations. *)
Ltac zlia := Z.div_mod_to_equations; lia.

(** Splits the innermost [if]/[match] scrutinee of the goal. *)
Ltac case_goal :=
  match goal with
  | |- context [match ?x with _ => _ end] =>
      lazymatch x with
      | context [match _ with _ => _ end] => fail
      | _ => destruct x eqn:?
      end
  end.

(** Splits the innermost scrutinee of hypothesis [H]. *)
Ltac case_hyp H :=
  match type of H with
  | context [match ?x with _ => _ end] =>
      lazymatch x with
      | context [match _ with _ => _ end] => fail
      | _ => destruct x eqn:?
      end
  end.

(** ** Lemmas on words *)

Lemma lor_shiftl_add a b n :
  0 <= n -> 0 <= a < 2 ^ n -> Z.lor a (Z.shiftl b n) = a + b * 2 ^ n.
Proof.
  intros Hn Ha. rewrite <- Z.shiftl_mul_pow2 by done.
  symmetry. apply Z.add_nocarry_lor. apply Z.bits_inj'. intros i Hi.
  rewrite Z.land_spec, Z.bits_0, Z.shiftl_spec by lia.
  destruct (Z.ltb_spec i n).
  - rewrite (Z.testbit_neg_r b) by lia. apply andb_false_r.
  - rewrite <- (Z.mod_small a (2 ^ n)) by lia.
    by rewrite Z.mod_pow2_bits_high by lia.
Qed.

(** Masking the [w] bits above bit [lo]. *)
Lemma land_mask x lo w :
  0 <= lo -> 0 <= w ->
  Z.land x (Z.shiftl (Z.ones w) lo) = (x / 2 ^ lo) mod 2 ^ w * 2 ^ lo.
Proof.
  intros Hlo Hw. rewrite <- Z.shiftr_div_pow2, <- Z.land_ones, <- Z.shiftl_mul_pow2 by done.
  apply Z.bits_inj'. intros n Hn. rewrite Z.land_spec, !Z.shiftl_spec by done.
  destruct (Z.ltb_spec n lo).
  - rewrite (Z.testbit_neg_r (Z.ones w)), (Z.testbit_neg_r (Z.land _ _)) by lia.
    apply andb_false_r.
  - rewrite Z.land_spec, Z.shiftr_spec by lia. by replace (n - lo + lo) with n by lia.
Qed.

(** The low bits. *)
Lemma land_low x w : 0 <= w -> Z.land x (Z.ones w) = x mod 2 ^ w.
Proof. apply Z.land_ones. Qed.

Lemma u8_range x : is_u8 (u8 x).
Proof. apply Z.mod_pos_bound. lia. Qed.

Lemma u64_range x : is_u64 (u64 x).
Proof. apply Z.mod_pos_bound. lia. Qed.

Lemma u64_small x : is_u64 x -> u64 x = x.
Proof. apply Z.mod_small. Qed.

Lemma u32_small x : is_u32 x -> u32 x = x.
Proof. apply Z.mod_small. Qed.

Lemma word16_range a b : is_u8 a -> is_u8 b -> 0 <= Z.lor a (Z.shiftl b 8) < 65536.
Proof.
  unfold is_u8. intros Ha Hb. rewrite lor_shiftl_add by (change (2 ^ 8) with 256; lia).
  change (2 ^ 8) with 256. lia.
Qed.

(** ** Lemmas on arrays and slices *)

Lemma blen_nonneg l : 0 <= blen l.
Proof. unfold blen. lia. Qed.

Lemma blen_app l1 l2 : blen (l1 ++ l2) = blen l1 + blen l2.
Proof. unfold blen. rewrite length_app. lia. Qed.

Lemma blen_cons x l : blen (x :: l) = 1 + blen l.
Proof. unfold blen. simpl length. lia. Qed.

Lemma bytes_eq_spec l r : bytes_eq l r = true <-> l = r.
Proof.
  revert r. induction l as [|x l IH]; intros [|y r]; simpl; try naive_solver.
  rewrite andb_true_iff, Z.eqb_eq, IH. naive_solver.
Qed.

Lemma bytes_eq_refl l : bytes_eq l l = true.
Proof. by apply bytes_eq_spec. Qed.

Lemma bytes_eq_false l r : bytes_eq l r = false <-> l <> r.
Proof. rewrite <- not_true_iff_false, bytes_eq_spec. done. Qed.

Lemma length_slice a off len : length (slice a off len) = Z.to_nat len.
Proof. unfold slice. by rewrite length_map, length_seq. Qed.

Lemma blen_slice a off len : 0 <= len -> blen (slice a off len) = len.
Proof. intros. unfold blen. rewrite length_slice. lia. Qed.

Lemma slice_nth a off len k :
  (k < Z.to_nat len)%nat -> nth k (slice a off len) 0 = a (off + Z.of_nat k).
Proof.
  intros Hk. unfold slice.
  rewrite (nth_indep _ 0 (a (off + Z.of_nat 0))) by (rewrite length_map, length_seq; lia).
  rewrite (map_nth (fun k => a (off + Z.of_nat k))), seq_nth by lia. done.
Qed.

Lemma slice_ext a b off len :
  (forall i, off <= i < off + len -> a i = b i) -> slice a off len = slice b off len.
Proof.
  intros H. unfold slice. apply map_ext_in. intros k Hk.
  apply in_seq in Hk. apply H. lia.
Qed.

Lemma slice_inj a b off len :
  slice a off len = slice b off len -> forall i, off <= i < off + len -> a i = b i.
Proof.
  intros H i Hi.
  pose proof (slice_nth a off len (Z.to_nat (i - off))) as Ha.
  pose proof (slice_nth b off len (Z.to_nat (i - off))) as Hb.
  rewrite H, Hb in Ha by lia.
  replace (off + Z.of_nat (Z.to_nat (i - off))) with i in Ha by lia.
  symmetry. apply Ha. lia.
Qed.

Lemma slice_app a off l1 l2 :
  0 <= l1 -> 0 <= l2 ->
  slice a off (l1 + l2) = slice a off l1 ++ slice a (off + l1) l2.
Proof.
  intros. unfold slice. rewrite Z2Nat.inj_add, seq_app, map_app by lia. f_equal.
  apply list_eq. intros i. rewrite !list_lookup_fmap.
  destruct (decide (i < Z.to_nat l2)%nat).
  - rewrite !lookup_seq_lt by done. simpl. f_equal. f_equal. lia.
  - rewrite !lookup_seq_ge by lia. done.
Qed.

Lemma slice_blit_same a off l : slice (blit a off l) off (blen l) = l.
Proof.
  apply (nth_ext _ _ 0 0).
  - rewrite length_slice. unfold blen. lia.
  - intros k Hk. rewrite length_slice in Hk. rewrite slice_nth by done.
    unfold blit. unfold blen in *.
    rewrite (proj2 (andb_true_iff _ _)) by lia. f_equal. lia.
Qed.

Lemma slice_blit_other a off l off' len :
  off' + len <= off \/ off + blen l <= off' ->
  slice (blit a off l) off' len = slice a off' len.
Proof.
  intros. apply slice_ext. intros i Hi. unfold blit.
  destruct ((off <=? i) && (i <? off + blen l)) eqn:E; [lia|done].
Qed.

Lemma blit_out a off l i : i < off \/ off + blen l <= i -> blit a off l i = a i.
Proof.
  intros. unfold blit. destruct ((off <=? i) && (i <? off + blen l)) eqn:E; [lia|done].
Qed.

Lemma blit_in a off l i :
  off <= i < off + blen l -> blit a off l i = nth (Z.to_nat (i - off)) l 0.
Proof.
  intros. unfold blit. destruct ((off <=? i) && (i <? off + blen l)) eqn:E; [done|lia].
Qed.

Lemma fill_out a off len v i :
  i < off \/ off + len <= i -> fill_range a off len v i = a i.
Proof.
  intros. unfold fill_range. destruct ((off <=? i) && (i <? off + len)) eqn:E; [lia|done].
Qed.

Lemma fill_in a off len v i : off <= i < off + len -> fill_range a off len v i = v.
Proof.
  intros. unfold fill_range. destruct ((off <=? i) && (i <? off + len)) eqn:E; [done|lia].
Qed.

Lemma aset_same a i v : aset a i v i = v.
Proof. unfold aset. by rewrite Z.eqb_refl. Qed.

Lemma aset_other a i v j : i <> j -> aset a i v j = a j.
Proof. intros. unfold aset. destruct (Z.eqb_spec j i); [lia|done]. Qed.

Lemma nth_Forall (P : Z -> Prop) n l : P 0 -> Forall P l -> P (nth n l 0).
Proof. intros H0 Hl. revert n. induction Hl; intros [|n]; simpl; auto. Qed.

Lemma nth_take_lt_gen n k (l : bytes) d : (k < n)%nat -> nth k (take n l) d = nth k l d.
Proof. revert n l. induction k; intros [|n] [|x l] Hk; simpl; auto; try lia. apply IHk. lia. Qed.

Lemma nth_take_lt n k (l : bytes) : (k < n)%nat -> nth k (take n l) 0 = nth k l 0.
Proof. apply nth_take_lt_gen. Qed.

Lemma nth_drop n k (l : bytes) : nth k (drop n l) 0 = nth (n + k) l 0.
Proof. revert l. induction n; intros [|x l]; simpl; auto. by destruct k. Qed.

(** Stores of bytes keep an array of bytes. *)

Lemma blit_u8 a off l i : is_u8 (a i) -> Forall is_u8 l -> is_u8 (blit a off l i).
Proof.
  intros Ha Hl. unfold blit. case_goal; [|done]. apply nth_Forall; [unfold is_u8; lia|done].
Qed.

Lemma aset_u8 a j v i : is_u8 (a i) -> is_u8 v -> is_u8 (aset a j v i).
Proof. intros. unfold aset. by case_goal. Qed.

Lemma fill_u8 a off len v i : is_u8 (a i) -> is_u8 v -> is_u8 (fill_range a off len v i).
Proof. intros. unfold fill_range. by case_goal. Qed.

(** ** Storing into a byte string *)

(** [content] with [data] stored at [off]; a gap before it is zero, and storing
    nothing changes nothing. *)
Definition splice (content : bytes) (off : Z) (data : bytes) : bytes :=
  match data with
  | [] => content
  | _ =>
      take (Z.to_nat off) content ++ replicate (Z.to_nat off - length content) 0 ++ data ++
      drop (Z.to_nat off + length data) content
  end.

Lemma nth_zeros n k : nth k (replicate n (0 : Z)) 0 = 0.
Proof. revert k. induction n as [|n IH]; intros [|k]; simpl; auto. Qed.

Lemma splice_nil content off : splice content off [] = content.
Proof. done. Qed.

Lemma splice_some content off data :
  data <> [] ->
  splice content off data =
  take (Z.to_nat off) content ++ replicate (Z.to_nat off - length content) 0 ++ data ++
  drop (Z.to_nat off + length data) content.
Proof. by destruct data. Qed.

Lemma splice_end content data : splice content (blen content) data = content ++ data.
Proof.
  destruct data as [|b l]; [by rewrite app_nil_r|].
  rewrite splice_some by done. unfold blen. rewrite Nat2Z.id, take_ge, Nat.sub_diag by lia.
  by rewrite drop_ge, app_nil_r by lia.
Qed.

Lemma blen_splice content off data :
  0 <= off -> data <> [] -> blen (splice content off data) = Z.max (blen content) (off + blen data).
Proof.
  intros Ho Hd. rewrite splice_some by done. unfold blen.
  rewrite !length_app, length_replicate, length_take, length_drop. lia.
Qed.

Lemma blen_splice_bounds content off data :
  0 <= off -> blen content <= blen (splice content off data) <= Z.max (blen content) (off + blen data).
Proof.
  intros Ho. destruct data as [|b l]; [rewrite splice_nil; lia|]. rewrite blen_splice by done. lia.
Qed.

Lemma nth_splice content off data k :
  0 <= off ->
  nth k (splice content off data) 0 =
  if (off <=? Z.of_nat k) && (Z.of_nat k <? off + blen data)
  then nth (Z.to_nat (Z.of_nat k - off)) data 0 else nth k content 0.
Proof.
  intros Ho. destruct data as [|b l].
  { rewrite splice_nil. unfold blen. cbn [length]. destruct (_ && _) eqn:E; [|done].
    apply andb_true_iff in E as [E1%Z.leb_le E2%Z.ltb_lt]. lia. }
  rewrite splice_some by done. set (data := b :: l). rewrite app_assoc.
  set (x := take (Z.to_nat off) content ++ replicate (Z.to_nat off - length content) 0).
  assert (Hl : length x = Z.to_nat off)
    by (unfold x; rewrite length_app, length_take, length_replicate; lia).
  assert (Hx : (k < Z.to_nat off)%nat -> nth k x 0 = nth k content 0).
  { intros Hk. unfold x. destruct (decide (k < length content)%nat).
    - rewrite app_nth1 by (rewrite length_take; lia). apply nth_take_lt. lia.
    - rewrite (nth_overflow content) by lia. rewrite app_nth2 by (rewrite length_take; lia). apply nth_zeros. }
  clearbody x data. unfold blen. destruct (Z.leb_spec off (Z.of_nat k)); simpl andb.
  - rewrite app_nth2, Hl by lia. destruct (Z.ltb_spec (Z.of_nat k) (off + Z.of_nat (length data))).
    + rewrite app_nth1 by lia. f_equal. lia.
    + rewrite app_nth2, nth_drop by lia. f_equal. lia.
  - rewrite app_nth1 by lia. apply Hx. lia.
Qed.

(** Two stores in a row are one. *)
Lemma splice_splice content off a b :
  0 <= off -> splice (splice content off a) (off + blen a) b = splice content off (a ++ b).
Proof.
  intros Ho. destruct a as [|x a]; [by rewrite splice_nil, Z.add_0_r|].
  destruct b as [|y b]; [by rewrite app_nil_r|]. assert (Hu : x :: a <> []) by done. assert (Hv : y :: b <> []) by done.
  generalize dependent (y :: b). generalize dependent (x :: a). intros u Hu v Hv.
  assert (u ++ v <> []) by by destruct u.
  assert (Hb : blen (u ++ v) = blen u + blen v) by (unfold blen; rewrite length_app; lia).
  pose proof (blen_nonneg u). pose proof (blen_nonneg v).
  assert (Hlen : blen (splice (splice content off u) (off + blen u) v) = blen (splice content off (u ++ v)))
    by (rewrite !blen_splice by (done || lia); lia).
  apply (nth_ext _ _ 0 0); [apply Nat2Z.inj, Hlen|]. intros k _.
  rewrite !nth_splice by lia. rewrite Hb.
  destruct (Z.leb_spec off (Z.of_nat k)), (Z.leb_spec (off + blen u) (Z.of_nat k)); simpl andb; try lia.
  - destruct (Z.ltb_spec (Z.of_nat k) (off + blen u + blen v)), (Z.ltb_spec (Z.of_nat k) (off + (blen u + blen v)));
      try lia; unfold blen in *.
    + rewrite app_nth2 by lia. f_equal. lia.
    + destruct (Z.ltb_spec (Z.of_nat k) (off + Z.of_nat (length u))); [lia|done].
  - unfold blen in *. destruct (Z.ltb_spec (Z.of_nat k) (off + Z.of_nat (length u))); [|lia].
    destruct (Z.ltb_spec (Z.of_nat k) (off + (Z.of_nat (length u) + Z.of_nat (length v)))); [|lia].
    rewrite app_nth1 by lia. done.
  - done.
Qed.

(** ** Lemmas on searches and loops *)

Lemma find_from_some p start n i :
  find_from p start n = Some i <->
  (start <= i < start + n)%nat /\ p i = true /\
  forall j, (start <= j < i)%nat -> p j = false.
Proof.
  revert start. induction n as [|n IH]; intros start; simpl.
  - split; [done|intros [? _]; lia].
  - destruct (p start) eqn:E.
    + split.
      * intros [= <-]. split; [lia|]. split; [done|]. intros. lia.
      * intros (Hr & Hp & Hf). f_equal.
        destruct (decide (start = i)); [done|]. rewrite Hf in E by lia. done.
    + rewrite IH. split.
      * intros (Hr & Hp & Hf). split; [lia|]. split; [done|]. intros j Hj.
        destruct (decide (start = j)); [by subst|]. apply Hf. lia.
      * intros (Hr & Hp & Hf).
        assert (i <> start) by (intros ->; congruence).
        split; [lia|]. split; [done|]. intros. apply Hf. lia.
Qed.

Lemma find_from_none p start n :
  find_from p start n = None <-> forall j, (start <= j < start + n)%nat -> p j = false.
Proof.
  revert start. induction n as [|n IH]; intros start; simpl.
  - split; [intros; lia|done].
  - destruct (p start) eqn:E.
    + split; [done|]. intros H. rewrite H in E by lia. done.
    + rewrite IH. split; intros H j Hj.
      * destruct (decide (start = j)); [by subst|]. apply H. lia.
      * apply H. lia.
Qed.

Lemma find_first_some p n i :
  find_first p n = Some i <->
  (i < n)%nat /\ p i = true /\ forall j, (j < i)%nat -> p j = false.
Proof.
  unfold find_first. rewrite find_from_some.
  split; intros (H1 & H2 & H3); split_and!; try done; try lia; intros; apply H3; lia.
Qed.

Lemma find_first_none p n :
  find_first p n = None <-> forall j, (j < n)%nat -> p j = false.
Proof.
  unfold find_first. rewrite find_from_none.
  split; intros H j Hj; apply H; lia.
Qed.

Lemma find_first_ext p q n :
  (forall i, (i < n)%nat -> p i = q i) -> find_first p n = find_first q n.
Proof.
  intros H. destruct (find_first q n) as [i|] eqn:E.
  - apply find_first_some in E as (Hi & Hp & Hf). apply find_first_some.
    split; [done|]. rewrite H by done. split; [done|]. intros. rewrite H by lia. auto.
  - rewrite find_first_none in E |- *. intros j Hj. rewrite H by done. auto.
Qed.

Lemma loop_nat_add {S R} n m (f : S -> S + R) s :
  loop_nat (n + m) f s =
  match loop_nat n f s with inl s' => loop_nat m f s' | inr r => inr r end.
Proof.
  revert s. induction n as [|n IH]; intros s; simpl; [done|].
  destruct (f s); auto.
Qed.

Lemma loop_pos_nat {S R} p (f : S -> S + R) s :
  loop_pos p f s = loop_nat (Pos.to_nat p) f s.
Proof.
  revert s. induction p as [p IH|p IH|]; intros s; cbn [loop_pos].
  - rewrite Pos2Nat.inj_xI. simpl. destruct (f s) as [s'|r]; [|done].
    rewrite Nat.add_0_r, loop_nat_add, <- IH.
    destruct (loop_pos p f s') eqn:E; [|done]. by rewrite IH.
  - rewrite Pos2Nat.inj_xO. simpl. rewrite Nat.add_0_r, loop_nat_add, <- IH.
    destruct (loop_pos p f s) eqn:E; [|done]. by rewrite IH.
  - simpl. by destruct (f s).
Qed.

Lemma loop_nat_more {S R} n m (f : S -> S + R) s r :
  (n <= m)%nat -> loop_nat n f s = inr r -> loop_nat m f s = inr r.
Proof. intros Hn E. replace m with (n + (m - n))%nat by lia. by rewrite loop_nat_add, E. Qed.

(** What a loop answers does not depend on its bound. *)
Lemma loop_pos_agree {S R} p q (f : S -> S + R) s r r' :
  loop_pos p f s = inr r -> loop_pos q f s = inr r' -> r = r'.
Proof.
  rewrite !loop_pos_nat. intros E E'.
  apply (loop_nat_more _ (Pos.to_nat p + Pos.to_nat q)) in E; [|lia].
  apply (loop_nat_more _ (Pos.to_nat p + Pos.to_nat q)) in E'; [|lia]. congruence.
Qed.

(** Total correctness of a loop: an invariant, a measure that every
    continuing round decreases, and a bound above the first measure. *)
Lemma loop_nat_total {S R} (I : S -> Prop) (m : S -> Z) (Q : R -> Prop)
    (f : S -> S + R) n s :
  (forall s, I s -> 0 <= m s) ->
  (forall s, I s -> match f s with inl s' => I s' /\ m s' < m s | inr r => Q r end) ->
  I s -> m s < Z.of_nat n ->
  exists r, loop_nat n f s = inr r /\ Q r.
Proof.
  intros Hm Hstep. revert s. induction n as [|n IH]; intros s Hs Hn; simpl.
  - specialize (Hm s Hs). lia.
  - specialize (Hstep s Hs). destruct (f s) as [s'|r]; [|eauto].
    destruct Hstep. apply IH; [done|lia].
Qed.

Lemma loop_pos_total {S R} (I : S -> Prop) (m : S -> Z) (Q : R -> Prop)
    (f : S -> S + R) p s :
  (forall s, I s -> 0 <= m s) ->
  (forall s, I s -> match f s with inl s' => I s' /\ m s' < m s | inr r => Q r end) ->
  I s -> m s < Z.pos p ->
  exists r, loop_pos p f s = inr r /\ Q r.
Proof.
  intros. rewrite loop_pos_nat. eapply loop_nat_total; eauto. lia.
Qed.

Lemma st_loop_total {D S R} (I : D -> S -> Prop) (m : S -> Z) (Q : D -> R -> Prop)
    p (body : S -> ST D (S + R)) dflt s d :
  (forall d s, I d s -> 0 <= m s) ->
  (forall d s, I d s ->
     let '(d', r) := body s d in
     match r with inl s' => I d' s' /\ m s' < m s | inr r => Q d' r end) ->
  I d s -> m s < Z.pos p ->
  let '(d', r) := st_loop p body dflt s d in Q d' r.
Proof.
  intros Hm Hstep HI Hp. unfold st_loop.
  match goal with |- context [loop_pos p ?f _] =>
    destruct (loop_pos_total (fun ds => I ds.1 ds.2) (fun ds => m ds.2)
      (fun x : D * R => Q x.1 x.2) f p (d, s)) as ([d' r] & -> & Hr)
  end; [| | | |done].
  - intros [d1 s1] H1. by apply (Hm d1).
  - intros [d1 s1] H1. specialize (Hstep d1 s1 H1). simpl.
    destruct (body s1 d1) as [d2 [s2|r]]; done.
  - done.
  - done.
Qed.

(** Invariant rule of [for_range]. *)
Lemma for_range_ind {S} (P : Z -> S -> Prop) lo hi f (s : S) :
  P lo s -> (forall i s, lo <= i < hi -> P i s -> P (i + 1) (f i s)) ->
  P (Z.max lo hi) (for_range lo hi f s).
Proof.
  intros H0 Hstep. unfold for_range.
  assert (H : forall n k s, Z.of_nat k + Z.of_nat n = Z.max 0 (hi - lo) -> P (lo + Z.of_nat k) s ->
    P (Z.max lo hi) (fold_left (fun s i => f (lo + Z.of_nat i) s) (seq k n) s)).
  { induction n as [|n IH]; intros k s' Hk HP; simpl.
    - replace (Z.max lo hi) with (lo + Z.of_nat k) by lia. done.
    - apply IH; [lia|]. replace (lo + Z.of_nat (Datatypes.S k)) with (lo + Z.of_nat k + 1) by lia.
      apply Hstep; [lia|done]. }
  apply H; [lia|]. by rewrite Z.add_0_r.
Qed.

(** An invariant that does not mention the counter. *)
Lemma for_range_inv {S} (P : S -> Prop) lo hi f (s : S) :
  P s -> (forall i s, lo <= i < hi -> P s -> P (f i s)) -> P (for_range lo hi f s).
Proof. intros. by apply (for_range_ind (fun _ => P)). Qed.

(** ** Hints

    [auto with rymos] knows the ranges and the array updates; [autorewrite with
    rymos] computes lengths and reads of updated arrays. *)

Create HintDb rymos.

#[export] Hint Resolve blen_nonneg u8_range u64_range bytes_eq_refl blit_u8 aset_u8 fill_u8 : rymos.
#[export] Hint Rewrite blen_app blen_cons length_slice aset_same slice_blit_same splice_nil splice_end : rymos.
#[export] Hint Rewrite aset_other blen_slice u64_small u32_small using lia : rymos.
