(* ===== verification/Constants.v ===== *)
(** * Constants of [src/kernel/src/main.rs]

    The limits, error numbers, flag bits, on-disk offsets and address-space
    bases the kernel is compiled with, under their source names. *)

From S2P Require Import Prelude.

(** ** Console geometry *)
Definition VGA_WIDTH : nat := 80.
Definition VGA_HEIGHT : nat := 25.
Definition TEXT_COLS_MAX : nat := 128.
Definition TEXT_ROWS_MAX : nat := 48.

(** ** Ports and the timer *)
Definition PIT_INPUT_HZ : Z := 1193182.
Definition ATA_PRIMARY_IO : Z := 496.
Definition ATA_PRIMARY_CTRL : Z := 1014.
Definition ATA_DATA_DRIVE : Z := 1.

(** ** Shell, RAM file system, process table *)
Definition INPUT_MAX : Z := 128.
Definition FILE_COUNT : nat := 12.
Definition FILE_NAME_MAX : Z := 16.
Definition FILE_DATA_MAX : Z := 192.
Definition PROCESS_COUNT : nat := 16.
Definition PROCESS_NAME_MAX : Z := 24.
Definition PROCESS_ARGS_MAX : Z := 64.
Definition PROCESS_ARGV_COUNT_MAX : nat := 8.
Definition PROCESS_ARGV_VALUE_MAX : Z := 64.
Definition PROCESS_HEAP_PAGE_MAX : nat := 1024.
Definition PROCESS_MAPPING_MAX : nat := 64.
Definition APP_CWD_MAX : Z := 64.
Definition ENV_COUNT : nat := 6.
Definition APP_ENV_COUNT : nat := 64.
Definition APP_ENV_KEY_MAX : Z := 24.
Definition APP_ENV_VALUE_MAX : Z := 96.
Definition APP_FD_COUNT : nat := 32.
Definition APP_FD_BASE : Z := 3.
Definition APP_PIPE_COUNT : nat := 12.
Definition APP_PIPE_BUFFER_SIZE : Z := 8192.

(** ** Descriptors, open flags, stat kinds, error numbers *)
Definition STDIN_FD : Z := 0.
Definition STDOUT_FD : Z := 1.
Definition STDERR_FD : Z := 2.
Definition FD_READ : Z := 1.
Definition FD_WRITE : Z := 2.
Definition FD_CREATE : Z := 4.
Definition FD_TRUNCATE : Z := 8.
Definition FD_APPEND : Z := 16.
Definition FD_CREATE_NEW : Z := 32.
Definition STAT_KIND_FILE : Z := 1.
Definition STAT_KIND_DIR : Z := 2.
Definition STAT_FS_BOOTFS : Z := 1.
Definition STAT_FS_PFS : Z := 2.
Definition ERR_OK : Z := 0.
Definition ERR_INVAL : Z := 22.
Definition ERR_NOENT : Z := 2.
Definition ERR_NOSPC : Z := 28.
Definition ERR_NOTDIR : Z := 20.
Definition ERR_ISDIR : Z := 21.
Definition ERR_EXIST : Z := 17.
Definition ERR_IO : Z := 5.

(** ** The RYMFS5 on-disk layout *)
Definition PFS_KIND_FILE : Z := 1.
Definition PFS_KIND_DIR : Z := 2.
Definition PFS_MAX_EXTENTS : nat := 4.
Definition PFS_EXTENT_ENTRY_SIZE : Z := 8.
Definition PFS_EXTENT_COUNT_OFFSET : Z := 6.
Definition PFS_EXTENTS_OFFSET : Z := 7.
Definition PFS_EXTENTS_BYTES : Z := Z.of_nat PFS_MAX_EXTENTS * PFS_EXTENT_ENTRY_SIZE.
Definition PFS_CREATED_OFFSET : Z := PFS_EXTENTS_OFFSET + PFS_EXTENTS_BYTES.
Definition PFS_MODIFIED_OFFSET : Z := PFS_CREATED_OFFSET + 8.
Definition PFS_MODE_OFFSET : Z := PFS_MODIFIED_OFFSET + 8.
Definition PFS_NAME_OFFSET : Z := PFS_MODE_OFFSET + 1.
Definition PFS_NAME_MAX : Z := 96.
Definition PFS_ENTRY_SIZE : Z := PFS_NAME_OFFSET + PFS_NAME_MAX.
Definition PFS_ENTRY_COUNT : nat := 256.
Definition PFS_HEADER_SECTORS : Z :=
  let bytes := 16 + Z.of_nat PFS_ENTRY_COUNT * PFS_ENTRY_SIZE in u32 ((bytes + 511) / 512).
Definition PFS_HEADER_BYTES : Z := PFS_HEADER_SECTORS * 512.
Definition PFS_MODE_READ : Z := 1.
Definition PFS_MODE_WRITE : Z := 2.
Definition PFS_MODE_EXEC : Z := 4.
Definition PFS_MODE_DEFAULT_FILE : Z := Z.lor PFS_MODE_READ PFS_MODE_WRITE.
Definition PFS_MODE_DEFAULT_DIR : Z :=
  Z.lor (Z.lor PFS_MODE_READ PFS_MODE_WRITE) PFS_MODE_EXEC.
Definition BOOTFS_MODE : Z := Z.lor PFS_MODE_READ PFS_MODE_EXEC.
Definition PFS_SECTORS_PER_FILE : Z := 524288.
Definition PFS_FILE_MAX : Z := PFS_SECTORS_PER_FILE * 512.
Definition PFS_DATA_START : Z := PFS_HEADER_SECTORS.
Definition PFS_DISK_SECTORS : Z := 8388608.

(** ** Paging and address-space windows *)
Definition PAGE_SIZE : Z := 4096.
Definition PAGE_TABLE_ENTRIES : nat := 512.
Definition MAX_PHYS_RANGES : nat := 32.
Definition FREE_PAGE_STACK_MAX : nat := 4096.
Definition PAGE_PRESENT : Z := 1.
Definition PAGE_WRITABLE : Z := 2.
Definition PAGE_HUGE : Z := 128.
Definition PAGE_ADDR_MASK : Z := 0x000FFFFFFFFFF000.
Definition KERNEL_SCRATCH_BASE : Z := 0xFFFF800000000000.
Definition USER_HEAP_BASE : Z := 0xFFFF900000000000.
Definition USER_HEAP_STRIDE : Z := 256 * 1024 * 1024.
Definition USER_HEAP_MAX_PAGES_PER_CALL : Z := 4096.
Definition USER_MMAP_BASE : Z := 0xFFFFA00000000000.
Definition USER_MMAP_STRIDE : Z := 1024 * 1024 * 1024.
Definition USER_MMAP_SIZE : Z := 768 * 1024 * 1024.
Definition USER_MMAP_MAX_PAGES_PER_CALL : Z := 16384.
Definition KERNEL_STACK_BASE : Z := 0xFFFFB00000000000.
Definition KERNEL_STACK_STRIDE : Z := 2 * 1024 * 1024.
Definition KERNEL_STACK_PAGES : Z := 32.
Definition MEM_MAP_GUARD : Z := 1.
Definition APP_LOAD_MIN : Z := 0x200000.
Definition APP_LOAD_MAX : Z := 0x9000000.
Definition ELF_MAGIC : bytes := [127; 69; 76; 70].
Definition PT_LOAD : Z := 1.
Definition FONT_WIDTH : Z := 8.
Definition FONT_HEIGHT : Z := 16.
Definition FB_FOREGROUND : Z := 0x0000FF00.
Definition FB_BACKGROUND : Z := 0x00000000.
Definition VGA_COLOR : Z := 0x0A.

(** Numeric facts used across the development. *)

Lemma PFS_HEADER_SECTORS_eq : PFS_HEADER_SECTORS = 77.
Proof. reflexivity. Qed.

Lemma PFS_HEADER_BYTES_eq : PFS_HEADER_BYTES = 39424.
Proof. reflexivity. Qed.

Lemma PFS_DATA_START_eq : PFS_DATA_START = 77.
Proof. reflexivity. Qed.

Lemma PFS_FILE_MAX_eq : PFS_FILE_MAX = 268435456.
Proof. reflexivity. Qed.

#[global] Opaque PFS_ENTRY_COUNT.

Lemma PFS_ENTRY_COUNT_eq : Z.of_nat PFS_ENTRY_COUNT = 256.
Proof. with_strategy transparent [PFS_ENTRY_COUNT] reflexivity. Qed.
