(* ===== verification/Text.v ===== *)
(** * Byte-string helpers of the kernel

    [trim], [split_word], [starts_with], [ends_with], [contains],
    [find_last_byte], [parse_u32], the little-endian readers, the argument
    tokenizer and the decimal printer of [src/kernel/src/main.rs]. *)

From S2P Require Import Prelude Constants.

(** ** Character classes *)

Definition is_blank (c : Z) : bool := (c =? ch " ") || (c =? 9).

Definition is_arg_space (byte : Z) : bool :=
  (byte =? ch " ") || (byte =? 9) || (byte =? 10) || (byte =? 13).

Definition is_ascii_digit (c : Z) : bool := (48 <=? c) && (c <=? 57).

(** [byte.is_ascii_alphanumeric() || b'.' || b'_' || b'-'] *)
Definition is_name_byte (c : Z) : bool :=
  is_ascii_digit c || ((65 <=? c) && (c <=? 90)) || ((97 <=? c) && (c <=? 122))
  || (c =? ch ".") || (c =? ch "_") || (c =? ch "-").

(** ** Slices *)

Fixpoint drop_while (p : Z -> bool) (l : bytes) : bytes :=
  match l with
  | x :: r => if p x then drop_while p r else l
  | [] => []
  end.

Definition trim (l : bytes) : bytes :=
  rev (drop_while is_blank (rev (drop_while is_blank l))).

(** Number of leading bytes that satisfy [p]. *)
Fixpoint prefix_len (p : Z -> bool) (l : bytes) : nat :=
  match l with
  | x :: r => if p x then S (prefix_len p r) else O
  | [] => O
  end.

Definition split_word (l : bytes) : bytes * bytes :=
  let l := trim l in
  match find_first (fun i => is_blank (nth i l 0)) (length l) with
  | Some i => (take i l, trim (drop (S i) l))
  | None => (l, [])
  end.

Definition starts_with (value prefix : bytes) : bool :=
  (blen prefix <=? blen value) && bytes_eq (take (length prefix) value) prefix.

Definition ends_with (value suffix : bytes) : bool :=
  (blen suffix <=? blen value)
  && bytes_eq (drop (length value - length suffix) value) suffix.

Fixpoint contains (value : bytes) (needle : Z) : bool :=
  match value with
  | [] => false
  | x :: r => if x =? needle then true else contains r needle
  end.

(** [find_last_byte]: scans down from the last index. *)
Fixpoint find_last_from (l : bytes) (needle : Z) (index : nat) : option nat :=
  match index with
  | O => None
  | S i => if nth i l 0 =? needle then Some i else find_last_from l needle i
  end.

Definition find_last_byte (l : bytes) (needle : Z) : option nat :=
  find_last_from l needle (length l).

(** ** Numbers *)

Definition checked32 (x : Z) : option Z := if x <? 4294967296 then Some x else None.

Fixpoint parse_u32_from (value : Z) (l : bytes) : option Z :=
  match l with
  | [] => Some value
  | c :: r =>
      if negb (is_ascii_digit c) then None
      else
        let? v := checked32 (value * 10) else None in
        let? v' := checked32 (v + (c - 48)) else None in
        parse_u32_from v' r
  end.

Definition parse_u32 (l : bytes) : option Z :=
  if bytes_eq l [] then None else parse_u32_from 0 l.

Definition align_up_u64 (value align : Z) : Z :=
  Z.land (u64 (u64 (value + align) - 1)) (u64 (Z.lnot (u64 (align - 1)))).

Definition align_down_u64 (value align : Z) : Z :=
  Z.land value (u64 (Z.lnot (u64 (align - 1)))).

Definition read_le32_from_slice (l : bytes) : Z :=
  Z.lor (Z.lor (Z.lor (nth 0 l 0) (u32 (Z.shiftl (nth 1 l 0) 8)))
               (u32 (Z.shiftl (nth 2 l 0) 16)))
        (u32 (Z.shiftl (nth 3 l 0) 24)).

Definition read_le64_from_slice (l : bytes) : Z :=
  fold_left (fun value index =>
    Z.lor value (u64 (Z.shiftl (nth index l 0) (Z.of_nat index * 8)))) (seq 0 8) 0.

(** [u32::to_le_bytes] and [u64::to_le_bytes]. *)
Fixpoint to_le_bytes (n : nat) (x : Z) : bytes :=
  match n with
  | O => []
  | S n' => u8 x :: to_le_bytes n' (x / 256)
  end.

Definition valid_name (name : bytes) : bool :=
  if bytes_eq name [] || (FILE_NAME_MAX <? blen name) then false
  else forallb is_name_byte name.

(** [Console::write_usize]: the decimal digits, most significant first. The
    code fills [digits] from the least significant end and prints it backwards;
    20 digits are enough for any [usize]. *)
Fixpoint usize_digits (fuel : nat) (value : Z) (acc : bytes) : bytes :=
  match fuel with
  | O => acc
  | S f => if 0 <? value then usize_digits f (value / 10) (48 + u8 (value mod 10) :: acc)
           else acc
  end.

Definition write_usize (value : Z) : bytes :=
  if value =? 0 then [48] else usize_digits 20 value [].

(** [Console::write_i32]; [value.wrapping_neg() as usize] sign-extends. *)
Definition write_i32 (value : Z) : bytes :=
  if value <? 0 then ch "-" :: write_usize (u64 (i32 (- value)))
  else write_usize (u64 value).

Definition write_hex_digit (value : Z) : Z :=
  let v := Z.land value 15 in
  if v <=? 9 then 48 + v else 65 + (v - 10).

Definition write_hex_u8 (value : Z) : bytes :=
  [write_hex_digit (Z.shiftr value 4); write_hex_digit (Z.land value 15)].

Definition write_hex_u16 (value : Z) : bytes :=
  write_hex_u8 (u8 (Z.shiftr value 8)) ++ write_hex_u8 (u8 value).

Definition write_hex_u64 (value : Z) : bytes :=
  map (fun k => write_hex_digit (u8 (Z.land (Z.shiftr value (60 - 4 * Z.of_nat k)) 15)))
      (seq 0 16).

(** ** The argument tokenizer *)

(** Skips separators, then takes up to the next one: the scanner of
    [next_arg_token] and of [PfsComponents::next]. *)
Definition next_token (sep : Z -> bool) (args : bytes) (index : nat) : option (bytes * nat) :=
  let index := (index + prefix_len sep (drop index args))%nat in
  if Nat.leb (length args) index then None
  else
    let n := prefix_len (fun c => negb (sep c)) (drop index args) in
    Some (take n (drop index args), (index + n)%nat).

Definition next_arg_token (args : bytes) (index : nat) : option (bytes * nat) :=
  next_token is_arg_space args index.

(** [raw_args_to_argv]: at most [PROCESS_ARGV_COUNT_MAX] tokens. *)
Fixpoint raw_args_from (room : nat) (args : bytes) (index : nat) : list bytes :=
  match room with
  | O => []
  | S r =>
      match next_arg_token args index with
      | None => []
      | Some (token, next) => token :: raw_args_from r args next
      end
  end.

Definition raw_args_to_argv (args : bytes) : list bytes :=
  raw_args_from PROCESS_ARGV_COUNT_MAX args 0.

(** ** Reference definitions *)

(** Value of a digit string, with no bound. *)
Definition decimal (l : bytes) : Z := fold_left (fun v c => v * 10 + (c - 48)) l 0.

(** Maximal runs of bytes that are not separators, left to right. *)
Fixpoint tokens (sep : Z -> bool) (cur : bytes) (l : bytes) : list bytes :=
  match l with
  | [] => if bytes_eq cur [] then [] else [cur]
  | c :: r =>
      if sep c then
        if bytes_eq cur [] then tokens sep [] r else cur :: tokens sep [] r
      else tokens sep (cur ++ [c]) r
  end.

(** ** Lemmas *)

Lemma drop_while_suffix p l : exists k, drop_while p l = drop k l /\ forallb p (take k l) = true.
Proof.
  induction l as [|x l [k [IH1 IH2]]]; simpl.
  - by exists 0%nat.
  - destruct (p x) eqn:E.
    + exists (S k). simpl. rewrite E. done.
    + by exists 0%nat.
Qed.

Lemma drop_while_head p l x r : drop_while p l = x :: r -> p x = false.
Proof.
  induction l as [|y l IH]; simpl; [done|]. destruct (p y) eqn:E; [done|].
  by intros [= -> ->].
Qed.

Lemma drop_while_id p l : (forall x r, l = x :: r -> p x = false) -> drop_while p l = l.
Proof. destruct l as [|x l]; simpl; [done|]. intros H. by rewrite (H x l). Qed.

Lemma trim_head l x r : trim l = x :: r -> is_blank x = false.
Proof.
  unfold trim. intros H.
  destruct (drop_while_suffix is_blank (rev (drop_while is_blank l))) as (k & Hk & _).
  rewrite Hk in H.
  assert (Hp : exists t, drop_while is_blank l = (x :: r) ++ t).
  { exists (rev (take k (rev (drop_while is_blank l)))).
    rewrite <- H, <- rev_app_distr, take_drop, rev_involutive. done. }
  destruct Hp as [t Hp]. by eapply drop_while_head.
Qed.

Lemma trim_last l r x : trim l = r ++ [x] -> is_blank x = false.
Proof.
  unfold trim. intros H. apply (f_equal (@rev Z)) in H.
  rewrite rev_involutive, rev_app_distr in H. simpl in H. by eapply drop_while_head.
Qed.

Lemma trim_id l :
  (forall x r, l = x :: r -> is_blank x = false) ->
  (forall x r, l = r ++ [x] -> is_blank x = false) -> trim l = l.
Proof.
  intros H1 H2. unfold trim. rewrite (drop_while_id _ l) by done.
  rewrite drop_while_id, rev_involutive; [done|].
  intros x r Hr. apply (H2 x (rev r)). apply (f_equal (@rev Z)) in Hr.
  by rewrite rev_involutive in Hr.
Qed.

Lemma trim_idem l : trim (trim l) = trim l.
Proof. apply trim_id; eauto using trim_head, trim_last. Qed.

Lemma starts_with_spec v p : starts_with v p = true <-> exists t, v = p ++ t.
Proof.
  unfold starts_with. rewrite andb_true_iff, bytes_eq_spec. split.
  - intros [_ H]. exists (drop (length p) v). rewrite <- H at 1. by rewrite take_drop.
  - intros [t ->]. split; [rewrite blen_app; pose proof (blen_nonneg t); lia|].
    by rewrite take_app_length.
Qed.

Lemma contains_spec l c : contains l c = true <-> c ∈ l.
Proof.
  induction l as [|x l IH]; simpl.
  - split; [done|]. intros H. inv H.
  - rewrite elem_of_cons. destruct (Z.eqb_spec x c) as [->|]; [naive_solver|].
    rewrite IH. naive_solver.
Qed.

Lemma contains_false l c : contains l c = false <-> c ∉ l.
Proof. rewrite <- not_true_iff_false, contains_spec. done. Qed.

Lemma find_last_from_some l c n i :
  find_last_from l c n = Some i <->
  (i < n)%nat /\ nth i l 0 = c /\ forall j, (i < j < n)%nat -> nth j l 0 <> c.
Proof.
  induction n as [|n IH]; simpl.
  - split; [done|lia].
  - destruct (Z.eqb_spec (nth n l 0) c) as [E|E].
    + split.
      * intros [= <-]. split_and!; try done; lia.
      * intros (Hi & Hc & Hj). f_equal.
        destruct (decide (i = n)); [done|]. exfalso. apply (Hj n); [lia|done].
    + rewrite IH. split.
      * intros (Hi & Hc & Hj). split_and!; try done; [lia|].
        intros j Hlt. destruct (decide (j = n)); [by subst|]. apply Hj. lia.
      * intros (Hi & Hc & Hj).
        assert (i <> n) by (intros ->; done).
        split_and!; try done; [lia|]. intros j Hlt. apply Hj. lia.
Qed.

Lemma find_last_from_none l c n :
  find_last_from l c n = None <-> forall j, (j < n)%nat -> nth j l 0 <> c.
Proof.
  induction n as [|n IH]; simpl.
  - split; [lia|done].
  - destruct (Z.eqb_spec (nth n l 0) c) as [E|E].
    + split; [done|]. intros H. exfalso. apply (H n); [lia|done].
    + rewrite IH. split; intros H j Hj.
      * destruct (decide (j = n)); [by subst|]. apply H. lia.
      * apply H. lia.
Qed.

Lemma find_last_byte_none l c : find_last_byte l c = None <-> c ∉ l.
Proof.
  unfold find_last_byte. rewrite find_last_from_none. split.
  - intros H Hin. apply list_elem_of_lookup in Hin as [i Hi].
    apply (H i); [by eapply lookup_lt_Some|]. by apply nth_lookup_Some.
  - intros H j Hj E. apply H. subst. apply list_elem_of_lookup.
    exists j. apply lookup_lt_is_Some in Hj as [x Hx]. erewrite nth_lookup_Some by done. done.
Qed.

(** [find_last_byte] splits a slice at the last occurrence of the byte. *)
Lemma find_last_byte_some l c i :
  find_last_byte l c = Some i <->
  l = take i l ++ c :: drop (S i) l /\ (i < length l)%nat /\ c ∉ drop (S i) l.
Proof.
  unfold find_last_byte. rewrite find_last_from_some. split.
  - intros (Hi & Hc & Hj). split_and!; [|done|].
    + pose proof Hi as Hi'. apply lookup_lt_is_Some in Hi' as [x Hx].
      erewrite nth_lookup_Some in Hc by done. subst x.
      symmetry. by apply take_drop_middle.
    + intros Hin. apply list_elem_of_lookup in Hin as [k Hk].
      rewrite lookup_drop in Hk. apply (Hj (S i + k)%nat).
      * apply lookup_lt_Some in Hk. lia.
      * by apply nth_lookup_Some.
  - intros (Hl & Hi & Hn). split_and!; [done| |].
    + destruct (lookup_lt_is_Some_2 l i Hi) as [x Hx].
      pose proof (take_drop_middle l i x Hx) as Hm.
      assert (take i l ++ x :: drop (S i) l = take i l ++ c :: drop (S i) l) as E by congruence.
      apply app_inv_head in E. injection E as ->. by apply nth_lookup_Some.
    + intros j Hj E. apply Hn. apply list_elem_of_lookup. exists (j - S i)%nat.
      rewrite lookup_drop. replace (S i + (j - S i))%nat with j by lia.
      destruct Hj as [Hj1 Hj2]. apply lookup_lt_is_Some in Hj2 as [x Hx].
      erewrite nth_lookup_Some in E by done. by subst.
Qed.

(** Tokens. *)

Lemma prefix_len_le p l : (prefix_len p l <= length l)%nat.
Proof. induction l as [|x l IH]; simpl; [lia|]. destruct (p x); simpl; lia. Qed.

Lemma prefix_len_take p l : Forall (fun c => p c = true) (take (prefix_len p l) l).
Proof.
  induction l as [|x l IH]; simpl; [constructor|].
  destruct (p x) eqn:E; simpl; constructor; done.
Qed.

Lemma prefix_len_stop p l c r : drop (prefix_len p l) l = c :: r -> p c = false.
Proof.
  induction l as [|x l IH]; simpl; [done|].
  destruct (p x) eqn:E; simpl; [done|]. by intros [= -> ->].
Qed.

Lemma tokens_sep_prefix p l :
  tokens p [] l = tokens p [] (drop (prefix_len p l) l).
Proof. induction l as [|x l IH]; simpl; [done|]. destruct (p x) eqn:E; simpl; by rewrite ?E. Qed.

Lemma tokens_word p cur l :
  tokens p cur l =
  let n := prefix_len (fun c => negb (p c)) l in
  if bytes_eq (cur ++ take n l) [] then tokens p [] (drop n l)
  else (cur ++ take n l) :: tokens p [] (drop n l).
Proof.
  revert cur. induction l as [|x l IH]; intros cur; cbn zeta.
  - simpl. rewrite app_nil_r. by destruct cur.
  - simpl. destruct (p x) eqn:E; simpl.
    + rewrite app_nil_r. rewrite E. destruct cur; simpl; done.
    + rewrite IH. simpl. rewrite <- app_assoc. simpl.
      by rewrite (proj2 (bytes_eq_false (cur ++ x :: _) [])) by (destruct cur; done).
Qed.

(** One step of the tokenizer delivers the first token of the reference
    splitting and leaves the rest. *)
Lemma next_token_spec sep args index :
  match next_token sep args index with
  | None => tokens sep [] (drop index args) = []
  | Some (t, next) =>
      tokens sep [] (drop index args) = t :: tokens sep [] (drop next args) /\
      (index < next)%nat /\ t <> [] /\ Forall (fun c => sep c = false) t
  end.
Proof.
  unfold next_token.
  set (i := (index + _)%nat).
  assert (Hi : tokens sep [] (drop index args) = tokens sep [] (drop i args)).
  { rewrite tokens_sep_prefix, drop_drop. done. }
  rewrite Hi.
  destruct (Nat.leb_spec (length args) i) as [Hle|Hlt].
  - by rewrite drop_ge.
  - rewrite tokens_word. cbn zeta. rewrite app_nil_l.
    set (n := prefix_len _ _).
    assert (Hn : (0 < n)%nat).
    { subst n. destruct (drop i args) as [|c r] eqn:Ed.
      - apply (f_equal length) in Ed. rewrite length_drop in Ed. simpl in Ed. lia.
      - assert (sep c = false) as Hc.
        { apply (prefix_len_stop sep (drop index args) c r). by rewrite drop_drop. }
        simpl. rewrite Hc. simpl. lia. }
    assert (Hne : take n (drop i args) <> []).
    { intros E. apply (f_equal length) in E. rewrite length_take, length_drop in E.
      simpl in E. lia. }
    rewrite (proj2 (bytes_eq_false _ [])) by done. rewrite drop_drop.
    split_and!; [done|subst i; lia|done|].
    eapply Forall_impl; [apply prefix_len_take|]. intros c Hc. by apply negb_true_iff.
Qed.

Lemma raw_args_from_spec room args index :
  raw_args_from room args index = take room (tokens is_arg_space [] (drop index args)).
Proof.
  revert index. induction room as [|r IH]; intros index; simpl; [done|].
  unfold next_arg_token. pose proof (next_token_spec is_arg_space args index) as H.
  destruct (next_token is_arg_space args index) as [[t next]|].
  - destruct H as [-> _]. simpl. by rewrite IH.
  - by rewrite H.
Qed.

(** Decimal numbers. *)

Lemma decimal_app l c : decimal (l ++ [c]) = decimal l * 10 + (c - 48).
Proof. unfold decimal. by rewrite fold_left_app. Qed.

Lemma fold_decimal_mono l v :
  forallb is_ascii_digit l = true -> 0 <= v ->
  v <= fold_left (fun v c => v * 10 + (c - 48)) l v.
Proof.
  revert v. induction l as [|c l IH]; intros v Hd Hv; simpl; [lia|].
  simpl in Hd. apply andb_true_iff in Hd as [Hc Hd].
  unfold is_ascii_digit in Hc. etransitivity; [|apply IH; [done|]]; lia.
Qed.

Lemma parse_u32_from_spec l v :
  0 <= v < 4294967296 ->
  parse_u32_from v l =
  if forallb is_ascii_digit l then
    checked32 (fold_left (fun v c => v * 10 + (c - 48)) l v)
  else None.
Proof.
  revert v. induction l as [|c l IH]; intros v Hv; simpl.
  - unfold checked32. destruct (Z.ltb_spec v 4294967296); [done|lia].
  - destruct (is_ascii_digit c) eqn:Hc; simpl; [|done].
    pose proof Hc as Hc'. unfold is_ascii_digit in Hc'.
    assert (Hbig : forall x, 4294967296 <= x -> forallb is_ascii_digit l = true ->
      checked32 (fold_left (fun v c => v * 10 + (c - 48)) l x) = None).
    { intros x Hx Hd. pose proof (fold_decimal_mono l x Hd) as Hm. unfold checked32.
      destruct (Z.ltb_spec (fold_left (fun v c => v * 10 + (c - 48)) l x) 4294967296); [lia|done]. }
    unfold checked32 at 1 2.
    destruct (Z.ltb_spec (v * 10) 4294967296).
    + destruct (Z.ltb_spec (v * 10 + (c - 48)) 4294967296).
      * apply IH. lia.
      * destruct (forallb is_ascii_digit l) eqn:Hd; [|done]. by rewrite Hbig by lia.
    + destruct (forallb is_ascii_digit l) eqn:Hd; [|done]. by rewrite Hbig by lia.
Qed.

Lemma usize_digits_acc fuel v acc :
  usize_digits fuel v acc = usize_digits fuel v [] ++ acc.
Proof.
  revert v acc. induction fuel as [|f IH]; intros v acc; simpl; [done|].
  destruct (0 <? v); [|done]. rewrite IH, (IH _ [_]), <- app_assoc. done.
Qed.

Lemma length_usize_digits fuel v : (length (usize_digits fuel v []) <= fuel)%nat.
Proof.
  revert v. induction fuel as [|f IH]; intros v; [done|]. cbn [usize_digits].
  destruct (0 <? v); [|simpl; lia]. rewrite usize_digits_acc, length_app. pose proof (IH (v / 10)). simpl. lia.
Qed.

Lemma usize_digits_spec fuel v :
  0 <= v < 10 ^ Z.of_nat fuel ->
  forallb is_ascii_digit (usize_digits fuel v []) = true /\
  decimal (usize_digits fuel v []) = v /\
  (0 < v -> usize_digits fuel v [] <> []).
Proof.
  revert v. induction fuel as [|f IH]; intros v Hv.
  - simpl in *. change (decimal []) with 0. split_and!; lia.
  - cbn [usize_digits]. destruct (Z.ltb_spec 0 v).
    + rewrite usize_digits_acc, forallb_app, decimal_app. unfold u8.
      assert (Hm : 0 <= v mod 10 < 10) by (apply Z.mod_pos_bound; lia).
      rewrite (Z.mod_small (v mod 10) 256) by lia.
      rewrite Nat2Z.inj_succ, Z.pow_succ_r in Hv by lia.
      assert (Hd : 0 <= v / 10 < 10 ^ Z.of_nat f).
      { split; [apply Z.div_pos; lia|]. apply Z.div_lt_upper_bound; lia. }
      destruct (IH (v / 10) Hd) as (H1 & H2 & _). rewrite H1, H2.
      split_and!.
      * simpl. unfold is_ascii_digit. rewrite andb_true_r. apply andb_true_iff. lia.
      * zlia.
      * intros _ E. apply app_eq_nil in E as [_ E]. done.
    + change (decimal []) with 0. split_and!; try done; lia.
Qed.

(** ** Little-endian words *)

Lemma le32_value a b c d :
  is_u8 a -> is_u8 b -> is_u8 c -> is_u8 d ->
  read_le32_from_slice [a; b; c; d] = a + b * 256 + c * 65536 + d * 16777216.
Proof.
  unfold is_u8, read_le32_from_slice, u32. intros. simpl nth.
  rewrite (Z.shiftl_mul_pow2 b), (Z.shiftl_mul_pow2 c), (Z.shiftl_mul_pow2 d) by lia.
  change (2 ^ 8) with 256. change (2 ^ 16) with 65536. change (2 ^ 24) with 16777216.
  rewrite !Z.mod_small by lia.
  change 256 with (2 ^ 8). rewrite <- (Z.shiftl_mul_pow2 b), lor_shiftl_add by lia.
  change 65536 with (2 ^ 16). rewrite <- (Z.shiftl_mul_pow2 c), lor_shiftl_add by lia.
  change 16777216 with (2 ^ 24). rewrite <- (Z.shiftl_mul_pow2 d), lor_shiftl_add by lia.
  rewrite !Z.shiftl_mul_pow2 by lia. lia.
Qed.

Lemma length_to_le_bytes n x : length (to_le_bytes n x) = n.
Proof. revert x. induction n; intros; simpl; auto. Qed.

Lemma blen_to_le_bytes n x : blen (to_le_bytes n x) = Z.of_nat n.
Proof. unfold blen. by rewrite length_to_le_bytes. Qed.

Lemma read_to_le32 x : is_u32 x -> read_le32_from_slice (to_le_bytes 4 x) = x.
Proof.
  intros Hx. unfold is_u32 in Hx. cbn [to_le_bytes].
  rewrite le32_value by apply u8_range. unfold u8. zlia.
Qed.

Lemma u8_lt256 x : 0 <= u8 x < 2 ^ 8.
Proof. apply (u8_range x). Qed.

Lemma read_to_le64 x : is_u64 x -> read_le64_from_slice (to_le_bytes 8 x) = x.
Proof.
  intros Hx. unfold is_u64 in Hx. unfold read_le64_from_slice.
  cbn [seq fold_left to_le_bytes nth].
  change (Z.of_nat 0 * 8) with 0. change (Z.of_nat 1 * 8) with 8.
  change (Z.of_nat 2 * 8) with 16. change (Z.of_nat 3 * 8) with 24.
  change (Z.of_nat 4 * 8) with 32. change (Z.of_nat 5 * 8) with 40.
  change (Z.of_nat 6 * 8) with 48. change (Z.of_nat 7 * 8) with 56.
  rewrite !Z.div_div by lia.
  change (256 * 256 * 256 * 256 * 256 * 256 * 256) with 72057594037927936.
  change (256 * 256 * 256 * 256 * 256 * 256) with 281474976710656.
  change (256 * 256 * 256 * 256 * 256) with 1099511627776.
  change (256 * 256 * 256 * 256) with 4294967296.
  change (256 * 256 * 256) with 16777216. change (256 * 256) with 65536.
  pose proof (u8_range x) as B0. pose proof (u8_range (x / 256)) as B1.
  pose proof (u8_range (x / 65536)) as B2. pose proof (u8_range (x / 16777216)) as B3.
  pose proof (u8_range (x / 4294967296)) as B4.
  pose proof (u8_range (x / 1099511627776)) as B5.
  pose proof (u8_range (x / 281474976710656)) as B6.
  pose proof (u8_range (x / 72057594037927936)) as B7.
  unfold is_u8 in *.
  assert (Hs : forall v n, 0 <= n -> 0 <= v < 256 -> n <= 56 ->
    u64 (Z.shiftl v n) = Z.shiftl v n).
  { intros v n Hn Hv Hn'. unfold u64. rewrite Z.shiftl_mul_pow2 by lia.
    apply Z.mod_small. split; [apply Z.mul_nonneg_nonneg; lia|].
    assert (2 ^ n <= 2 ^ 56) by (apply Z.pow_le_mono_r; lia).
    change (2 ^ 56) with 72057594037927936 in *. nia. }
  do 7 (rewrite Hs by lia). rewrite Hs by lia. rewrite Z.lor_0_l, (Z.shiftl_0_r (u8 x)).
  rewrite (lor_shiftl_add _ _ 8) by lia. change (2 ^ 8) with 256.
  rewrite (lor_shiftl_add _ _ 16) by lia. change (2 ^ 16) with 65536.
  rewrite (lor_shiftl_add _ _ 24) by lia. change (2 ^ 24) with 16777216.
  rewrite (lor_shiftl_add _ _ 32) by lia. change (2 ^ 32) with 4294967296.
  rewrite (lor_shiftl_add _ _ 40) by lia. change (2 ^ 40) with 1099511627776.
  rewrite (lor_shiftl_add _ _ 48) by lia. change (2 ^ 48) with 281474976710656.
  rewrite (lor_shiftl_add _ _ 56) by lia. change (2 ^ 56) with 72057594037927936.
  unfold u8. clear -Hx. zlia.
Qed.

#[global] Arguments to_le_bytes : simpl never.

Lemma le_bytes_u8 n x : Forall is_u8 (to_le_bytes n x).
Proof. revert x. induction n; intros x; constructor; [apply u8_range|apply IHn]. Qed.

Lemma le32_slice_range h o :
  (forall i, o <= i < o + 4 -> is_u8 (h i)) -> is_u32 (read_le32_from_slice (slice h o 4)).
Proof.
  intros H. assert (E : slice h o 4 = [h o; h (o + 1); h (o + 2); h (o + 3)]).
  { unfold slice. simpl. by rewrite Z.add_0_r. }
  rewrite E, le32_value by (apply H; lia).
  pose proof (H o ltac:(lia)). pose proof (H (o + 1) ltac:(lia)).
  pose proof (H (o + 2) ltac:(lia)). pose proof (H (o + 3) ltac:(lia)).
  unfold is_u8, is_u32 in *. lia.
Qed.

Lemma lor_u64 a b : is_u64 a -> is_u64 b -> is_u64 (Z.lor a b).
Proof.
  unfold is_u64. intros Ha Hb. split; [apply Z.lor_nonneg; lia|].
  destruct (Z.eq_dec (Z.lor a b) 0) as [->|]; [lia|].
  change 18446744073709551616 with (2 ^ 64) in *.
  apply Z.log2_lt_pow2; [pose proof (proj2 (Z.lor_nonneg a b)); lia|].
  rewrite Z.log2_lor by lia.
  apply Z.max_lub_lt.
  - destruct (Z.eq_dec a 0) as [->|]; [done|]. apply Z.log2_lt_pow2; lia.
  - destruct (Z.eq_dec b 0) as [->|]; [done|]. apply Z.log2_lt_pow2; lia.
Qed.

Lemma le64_slice_range l : is_u64 (read_le64_from_slice l).
Proof.
  unfold read_le64_from_slice.
  assert (Hfold : forall ks v, is_u64 v -> is_u64 (fold_left (fun value index =>
    Z.lor value (u64 (Z.shiftl (nth index l 0) (Z.of_nat index * 8)))) ks v)).
  { intros ks. induction ks as [|k ks IH]; intros v Hv; simpl; [done|].
    apply IH, lor_u64; [done|]. apply Z.mod_pos_bound. lia. }
  apply Hfold. unfold is_u64. lia.
Qed.
