(* ===== verification/StrText.v ===== *)
(** * Text as the standard library reads it

    What the kernel and the programs use of [core::str]: [from_utf8], [trim],
    [split_whitespace] and [parse] of unsigned numbers, on the bytes of a string. *)

From S2P Require Import Prelude Text.

(** ** UTF-8 *)

(** [core::str::from_utf8]: [n] continuation bytes are due, the next one in
    [[lo, hi]]. *)
Fixpoint utf8_from (l : bytes) (n : nat) (lo hi : Z) : bool :=
  match l with
  | [] => Nat.eqb n 0
  | b :: rest =>
      match n with
      | S n => (lo <=? b) && (b <=? hi) && utf8_from rest n 0x80 0xBF
      | O =>
          if b <? 0x80 then utf8_from rest 0 0x80 0xBF
          else if (0xC2 <=? b) && (b <=? 0xDF) then utf8_from rest 1 0x80 0xBF
          else if b =? 0xE0 then utf8_from rest 2 0xA0 0xBF
          else if b =? 0xED then utf8_from rest 2 0x80 0x9F
          else if (0xE1 <=? b) && (b <=? 0xEF) then utf8_from rest 2 0x80 0xBF
          else if b =? 0xF0 then utf8_from rest 3 0x90 0xBF
          else if (0xF1 <=? b) && (b <=? 0xF3) then utf8_from rest 3 0x80 0xBF
          else if b =? 0xF4 then utf8_from rest 3 0x80 0x8F
          else false
      end
  end.

Definition from_utf8 (l : bytes) : option bytes := if utf8_from l 0 0x80 0xBF then Some l else None.

(** The characters of a string, each as its bytes. *)
Definition char_len (b : Z) : nat :=
  if b <? 0x80 then 1 else if b <? 0xE0 then 2 else if b <? 0xF0 then 3 else 4.

Fixpoint chars_from (n : nat) (l : bytes) : list bytes :=
  match n, l with
  | S n, b :: _ => take (char_len b) l :: chars_from n (drop (char_len b) l)
  | _, _ => []
  end.

Definition chars (l : bytes) : list bytes := chars_from (length l) l.

(** ** White space *)

(** The characters of the Unicode property White_Space. *)
Definition is_whitespace (c : bytes) : bool :=
  match c with
  | [b] => (b =? 32) || ((9 <=? b) && (b <=? 13))
  | [b1; b2] => (b1 =? 0xC2) && ((b2 =? 0x85) || (b2 =? 0xA0))
  | [b1; b2; b3] =>
      ((b1 =? 0xE1) && (b2 =? 0x9A) && (b3 =? 0x80)) ||
      ((b1 =? 0xE2) && (b2 =? 0x80) && ((0x80 <=? b3) && (b3 <=? 0x8A) || (b3 =? 0xA8) || (b3 =? 0xA9) || (b3 =? 0xAF))) ||
      ((b1 =? 0xE2) && (b2 =? 0x81) && (b3 =? 0x9F)) ||
      ((b1 =? 0xE3) && (b2 =? 0x80) && (b3 =? 0x80))
  | _ => false
  end.

Fixpoint skip_white (cs : list bytes) : list bytes :=
  match cs with
  | c :: rest => if is_whitespace c then skip_white rest else cs
  | [] => []
  end.

(** [str::trim] *)
Definition trim_str (l : bytes) : bytes := concat (rev (skip_white (rev (skip_white (chars l))))).

(** [str::split_whitespace]; [cur] is the word begun. *)
Fixpoint words_from (cs : list bytes) (cur : bytes) : list bytes :=
  match cs with
  | [] => if bytes_eq cur [] then [] else [cur]
  | c :: rest =>
      if is_whitespace c then (if bytes_eq cur [] then [] else [cur]) ++ words_from rest []
      else words_from rest (cur ++ c)
  end.

Definition split_whitespace (l : bytes) : list bytes := words_from (chars l) [].

(** ** Numbers *)

Fixpoint digits_value (max v : Z) (l : bytes) : option Z :=
  match l with
  | [] => Some v
  | b :: rest =>
      if negb (is_ascii_digit b) then None
      else
        let v := v * 10 + (b - 48) in
        if max <? v then None else digits_value max v rest
  end.

(** [parse] into an unsigned type whose greatest value is [max]: digits behind at
    most one plus sign. *)
Definition parse_unsigned (max : Z) (l : bytes) : option Z :=
  match l with
  | [] => None
  | b :: rest =>
      if b =? ch "+" then (if bytes_eq rest [] then None else digits_value max 0 rest)
      else digits_value max 0 l
  end.

Definition U32_MAX : Z := 4294967295.
Definition U64_MAX : Z := 18446744073709551615.

(** ** Decimal text reads back *)

Lemma digit_bounds b : is_ascii_digit b = true -> 48 <= b <= 57.
Proof. unfold is_ascii_digit. lia. Qed.

Lemma write_usize_digits v : is_u64 v -> forallb is_ascii_digit (write_usize v) = true /\
  write_usize v <> [] /\ decimal (write_usize v) = v.
Proof.
  intros Hv. unfold write_usize. destruct (Z.eqb_spec v 0) as [->|Hne]; [done|].
  destruct (usize_digits_spec 20 v) as (H1 & H2 & H3); [unfold is_u64 in Hv; lia|].
  split_and!; [done|apply H3; unfold is_u64 in Hv; lia|done].
Qed.

Lemma utf8_digits l : forallb is_ascii_digit l = true -> from_utf8 l = Some l.
Proof.
  intros Hd. unfold from_utf8. assert (E : utf8_from l 0 0x80 0xBF = true); [|by rewrite E].
  induction l as [|b l IH]; [done|]. cbn [forallb utf8_from] in *. apply andb_true_iff in Hd as [Hb Hd].
  apply digit_bounds in Hb. destruct (Z.ltb_spec b 0x80); [by apply IH|lia].
Qed.

Lemma chars_digits l : forallb is_ascii_digit l = true -> chars l = map (fun b => [b]) l.
Proof.
  intros Hd. unfold chars. induction l as [|b l IH]; [done|].
  cbn [forallb length chars_from map] in *. apply andb_true_iff in Hd as [Hb Hd]. apply digit_bounds in Hb.
  unfold char_len. destruct (Z.ltb_spec b 0x80); [|lia].
  change (drop 1 (b :: l)) with (drop 0 l). rewrite drop_0, IH by done. done.
Qed.

Lemma skip_white_digits l : forallb is_ascii_digit l = true ->
  skip_white (map (fun b => [b]) l) = map (fun b => [b]) l.
Proof.
  destruct l as [|b l]; [done|]. cbn [forallb map skip_white]. intros [Hb _]%andb_true_iff.
  apply digit_bounds in Hb. cbn [is_whitespace].
  destruct (Z.eqb_spec b 32), (Z.leb_spec 9 b), (Z.leb_spec b 13); simpl; done || lia.
Qed.

Lemma forallb_reversed {A} (p : A -> bool) l : forallb p (rev l) = forallb p l.
Proof. induction l as [|a l IH]; [done|]. simpl. rewrite forallb_app, IH. simpl. by destruct (p a), (forallb p l). Qed.

Lemma trim_digits l : forallb is_ascii_digit l = true -> trim_str l = l.
Proof.
  intros Hd. unfold trim_str. rewrite chars_digits, skip_white_digits, <- map_rev by done.
  rewrite skip_white_digits by (by rewrite forallb_reversed). rewrite map_rev, rev_involutive.
  clear Hd. induction l as [|b l IH]; [done|]. cbn [map concat]. by rewrite IH.
Qed.

Lemma digits_value_spec max v l :
  forallb is_ascii_digit l = true -> 0 <= v ->
  fold_left (fun v c => v * 10 + (c - 48)) l v <= max ->
  digits_value max v l = Some (fold_left (fun v c => v * 10 + (c - 48)) l v).
Proof.
  revert v. induction l as [|b l IH]; intros v Hd Hv Hm; [done|].
  cbn [digits_value forallb fold_left] in *. apply andb_true_iff in Hd as [Hb Hd]. rewrite Hb. cbn [negb].
  apply digit_bounds in Hb.
  pose proof (fold_decimal_mono l (v * 10 + (b - 48)) Hd ltac:(lia)).
  destruct (Z.ltb_spec max (v * 10 + (b - 48))); [lia|]. apply IH; [done|lia|done].
Qed.

(** A number that fits is read back from its decimal text, white space around it
    or not. *)
Lemma parse_written max v : is_u64 v -> v <= max -> parse_unsigned max (trim_str (write_usize v)) = Some v.
Proof.
  intros Hv Hm. destruct (write_usize_digits v Hv) as (Hd & Hne & Hval). rewrite trim_digits by done.
  unfold parse_unsigned. destruct (write_usize v) as [|b l] eqn:E; [done|]. pose proof Hd as Hd'.
  cbn [forallb] in Hd'. apply andb_true_iff in Hd' as [Hb _]. apply digit_bounds in Hb.
  change (ch "+") with 43. destruct (Z.eqb_spec b 43); [lia|]. unfold decimal in Hval.
  rewrite digits_value_spec; [by rewrite Hval|done|lia|by rewrite Hval].
Qed.
