(* ===== verification/PfsLayout.v ===== *)
(** * The RYMFS5 header: byte layout and entry accessors

    Models the [pfs_entry_*], [pfs_set_entry], [pfs_clear_entry] and
    [pfs_find_*] functions of [src/kernel/src/main.rs] on the raw header bytes,
    and the abstract directory entry ([PfsView]) those bytes stand for. *)

From S2P Require Import Prelude Constants Text.

Record PfsExtent : Type := mkExtent { start : Z; sectors : Z }.

Definition pfs_extent_empty : PfsExtent := mkExtent 0 0.

#[export] Instance PfsExtent_eq_dec : EqDecision PfsExtent.
Proof. solve_decision. Defined.

(** ** Accessors *)

Definition pfs_entry_offset (index : nat) : Z := 16 + Z.of_nat index * PFS_ENTRY_SIZE.

Definition pfs_entry_used (header : arr) (index : nat) : bool :=
  negb (header (pfs_entry_offset index) =? 0).

Definition pfs_entry_is_dir (header : arr) (index : nat) : bool :=
  header (pfs_entry_offset index) =? PFS_KIND_DIR.

Definition pfs_entry_kind (header : arr) (index : nat) : Z :=
  header (pfs_entry_offset index).

Definition pfs_entry_name (header : arr) (index : nat) : bytes :=
  let offset := pfs_entry_offset index in
  let len := header (offset + 1) in
  slice header (offset + PFS_NAME_OFFSET) len.

Definition pfs_entry_size (header : arr) (index : nat) : Z :=
  read_le32_from_slice (slice header (pfs_entry_offset index + 2) 4).

Definition pfs_entry_extent_count (header : arr) (index : nat) : nat :=
  Nat.min (Z.to_nat (header (pfs_entry_offset index + PFS_EXTENT_COUNT_OFFSET)))
          PFS_MAX_EXTENTS.

Definition pfs_entry_extent (header : arr) (index slot : nat) : PfsExtent :=
  let offset := pfs_entry_offset index + PFS_EXTENTS_OFFSET
                + Z.of_nat slot * PFS_EXTENT_ENTRY_SIZE in
  mkExtent (read_le32_from_slice (slice header offset 4))
           (read_le32_from_slice (slice header (offset + 4) 4)).

(** The extents an entry owns, in slot order: the loop
    [for slot in 0..extent_count]. *)
Definition pfs_entry_extents (header : arr) (index : nat) : list PfsExtent :=
  map (pfs_entry_extent header index) (seq 0 (pfs_entry_extent_count header index)).

Definition pfs_entry_total_sectors (header : arr) (index : nat) : Z :=
  fold_left (fun total e => u32 (total + sectors e)) (pfs_entry_extents header index) 0.

(** The walk over the extent list of [pfs_entry_lba_for_sector]. *)
Fixpoint lba_walk (extents : list PfsExtent) (remaining : Z) : option Z :=
  match extents with
  | [] => None
  | e :: rest =>
      if sectors e =? 0 then lba_walk rest remaining
      else if remaining <? sectors e then Some (u32 (start e + remaining))
      else lba_walk rest (remaining - sectors e)
  end.

Definition pfs_entry_lba_for_sector (header : arr) (index : nat) (logical_sector : Z)
  : option Z :=
  lba_walk (pfs_entry_extents header index) logical_sector.

Definition pfs_entry_created (header : arr) (index : nat) : Z :=
  read_le64_from_slice (slice header (pfs_entry_offset index + PFS_CREATED_OFFSET) 8).

Definition pfs_entry_modified (header : arr) (index : nat) : Z :=
  read_le64_from_slice (slice header (pfs_entry_offset index + PFS_MODIFIED_OFFSET) 8).

Definition pfs_entry_mode (header : arr) (index : nat) : Z :=
  header (pfs_entry_offset index + PFS_MODE_OFFSET).

(** [now] is the value [ns_since_boot()] returns at the call. *)
Definition pfs_touch_modified (header : arr) (index : nat) (now : Z) : arr :=
  blit header (pfs_entry_offset index + PFS_MODIFIED_OFFSET) (to_le_bytes 8 now).

Definition pfs_find_entry (header : arr) (name : bytes) : option nat :=
  find_first (fun index => pfs_entry_used header index
                           && bytes_eq (pfs_entry_name header index) name)
             PFS_ENTRY_COUNT.

Definition pfs_parent_exists (header : arr) (name : bytes) : bool :=
  match find_last_byte name (ch "/") with
  | None => true
  | Some slash =>
      if Nat.eqb slash 0 || Nat.leb (length name) (slash + 1) then false
      else
        let parent := take slash name in
        match pfs_find_entry header parent with
        | None => false
        | Some index => pfs_entry_is_dir header index
        end
  end.

(** [name] lies strictly below [dir]: the test inside [pfs_dir_empty]. *)
Definition pfs_below (dir name : bytes) : bool :=
  (blen dir <? blen name) && starts_with name dir
  && (nth (length dir) name 0 =? ch "/").

Definition pfs_dir_empty (header : arr) (dir : bytes) : bool :=
  match find_first (fun index => pfs_entry_used header index
                                 && pfs_below dir (pfs_entry_name header index))
                   PFS_ENTRY_COUNT with
  | Some _ => false
  | None => true
  end.

Definition pfs_free_entry (header : arr) : option nat :=
  find_first (fun index => negb (pfs_entry_used header index)) PFS_ENTRY_COUNT.

(** ** Writers *)

(** The loop that stores the extents of [pfs_set_entry]. *)
Fixpoint set_extents (header : arr) (offset : Z) (slot : nat) (extents : list PfsExtent)
  : arr :=
  match extents with
  | [] => header
  | e :: rest =>
      let extent_offset := offset + PFS_EXTENTS_OFFSET
                           + Z.of_nat slot * PFS_EXTENT_ENTRY_SIZE in
      let header := blit header extent_offset (to_le_bytes 4 (start e)) in
      let header := blit header (extent_offset + 4) (to_le_bytes 4 (sectors e)) in
      set_extents header offset (S slot) rest
  end.

Definition pfs_set_entry (header : arr) (index : nat) (name : bytes) (size kind : Z)
    (extents : list PfsExtent) (created_ticks mode now : Z) : arr :=
  let offset := pfs_entry_offset index in
  let header := fill_range header offset PFS_ENTRY_SIZE 0 in
  let header := aset header offset kind in
  let header := aset header (offset + 1) (u8 (blen name)) in
  let header := blit header (offset + 2) (to_le_bytes 4 (u32 size)) in
  let extent_count := Nat.min (length extents) PFS_MAX_EXTENTS in
  let header := aset header (offset + PFS_EXTENT_COUNT_OFFSET) (u8 (Z.of_nat extent_count)) in
  let header := set_extents header offset 0 (take PFS_MAX_EXTENTS extents) in
  let header := blit header (offset + PFS_CREATED_OFFSET) (to_le_bytes 8 created_ticks) in
  let header := blit header (offset + PFS_MODIFIED_OFFSET) (to_le_bytes 8 now) in
  let header := aset header (offset + PFS_MODE_OFFSET) mode in
  blit header (offset + PFS_NAME_OFFSET) name.

Definition pfs_clear_entry (header : arr) (index : nat) : arr :=
  fill_range header (pfs_entry_offset index) PFS_ENTRY_SIZE 0.

(** [pfs_unlink_header]: [inr] is [Ok], [inl] the error code. *)
Definition pfs_unlink_header (header : arr) (name : bytes) : Z + arr :=
  match pfs_find_entry header name with
  | None => inl (-1)
  | Some index =>
      if pfs_entry_is_dir header index && negb (pfs_dir_empty header name) then inl (-2)
      else inr (pfs_clear_entry header index)
  end.

Fixpoint valid_pfs_bytes (last_was_slash : bool) (name : bytes) : bool :=
  match name with
  | [] => negb last_was_slash
  | byte :: rest =>
      if byte =? ch "/" then
        if last_was_slash then false else valid_pfs_bytes true rest
      else if negb (is_name_byte byte) then false
      else valid_pfs_bytes false rest
  end.

Definition valid_pfs_path (name : bytes) : bool :=
  if bytes_eq name [] || (PFS_NAME_MAX <? blen name) then false
  else valid_pfs_bytes false name.

Definition pfs_rename_header (header : arr) (old_name new_name : bytes) (now : Z)
  : Z + arr :=
  if negb (valid_pfs_path old_name) || negb (valid_pfs_path new_name) then inl (-1)
  else match pfs_find_entry header old_name with
  | None => inl (-2)
  | Some index =>
      match pfs_find_entry header new_name with
      | Some _ => inl (-3)
      | None =>
          if negb (pfs_parent_exists header new_name) then inl (-4)
          else if pfs_entry_is_dir header index && negb (pfs_dir_empty header old_name)
          then inl (-5)
          else
            inr (pfs_set_entry header index new_name (pfs_entry_size header index)
                   (pfs_entry_kind header index) (pfs_entry_extents header index)
                   (pfs_entry_created header index) (pfs_entry_mode header index) now)
      end
  end.

Definition pfs_list_match (namespace name : bytes) : option bytes :=
  if bytes_eq namespace [] || bytes_eq namespace (bs "pfs:") then
    if contains name (ch "/") then None else Some name
  else
    let prefix := if starts_with namespace (bs "pfs:") then drop 4 namespace else namespace in
    if bytes_eq prefix [] then None
    else if negb (starts_with name prefix) || (blen name <=? blen prefix)
            || negb (nth (length prefix) name 0 =? ch "/") then None
    else
      let child := drop (length prefix + 1) name in
      if bytes_eq child [] || contains child (ch "/") then None else Some child.

(** ** The abstract entry *)

Record PfsView : Type := mkView {
  v_kind : Z;
  v_name : bytes;
  v_size : Z;
  v_extents : list PfsExtent;
  v_created : Z;
  v_modified : Z;
  v_mode : Z
}.

Definition pfs_view (header : arr) (index : nat) : PfsView :=
  mkView (pfs_entry_kind header index) (pfs_entry_name header index)
         (pfs_entry_size header index) (pfs_entry_extents header index)
         (pfs_entry_created header index) (pfs_entry_modified header index)
         (pfs_entry_mode header index).

(** Two headers that agree on the bytes of the array. *)
Definition header_eq (h1 h2 : arr) : Prop :=
  forall i, 0 <= i < PFS_HEADER_BYTES -> h1 i = h2 i.

Definition header_bytes (h : arr) : Prop :=
  forall i, 0 <= i < PFS_HEADER_BYTES -> is_u8 (h i).

Definition extent_fits (e : PfsExtent) : Prop := is_u32 (start e) /\ is_u32 (sectors e).

(** ** Reading back a written entry *)

(** Replaces the layout constants by their values. *)
Ltac pfs_const :=
  change PFS_EXTENT_COUNT_OFFSET with 6 in *; change PFS_EXTENTS_OFFSET with 7 in *;
  change PFS_EXTENT_ENTRY_SIZE with 8 in *; change PFS_CREATED_OFFSET with 39 in *;
  change PFS_MODIFIED_OFFSET with 47 in *; change PFS_MODE_OFFSET with 55 in *;
  change PFS_NAME_OFFSET with 56 in *; change PFS_NAME_MAX with 96 in *;
  change PFS_ENTRY_SIZE with 152 in *.

(** Resolves one read of an updated array by arithmetic on the offsets. *)
Ltac arr_read :=
  repeat first
    [ rewrite aset_other by lia | rewrite aset_same
    | rewrite blit_out by (rewrite ?blen_to_le_bytes; lia)
    | rewrite fill_out by lia | rewrite fill_in by lia ].

Lemma slice_aset_other a i v off len :
  i < off \/ off + len <= i -> slice (aset a i v) off len = slice a off len.
Proof. intros. apply slice_ext. intros j Hj. apply aset_other. lia. Qed.

Lemma set_extents_out h off slot exts i :
  i < off + 7 + 8 * Z.of_nat slot \/ off + 7 + 8 * Z.of_nat (slot + length exts) <= i ->
  set_extents h off slot exts i = h i.
Proof.
  revert h slot. induction exts as [|e exts IH]; intros h slot Hi; simpl; [done|].
  simpl in Hi. pfs_const. rewrite IH by lia. arr_read. done.
Qed.

Lemma slice_set_extents_other h off slot exts o len :
  o + len <= off + 7 + 8 * Z.of_nat slot \/ off + 7 + 8 * Z.of_nat (slot + length exts) <= o ->
  slice (set_extents h off slot exts) o len = slice h o len.
Proof. intros. apply slice_ext. intros i Hi. apply set_extents_out. lia. Qed.

Lemma slice_blit_le a off n x :
  slice (blit a off (to_le_bytes n x)) off (Z.of_nat n) = to_le_bytes n x.
Proof. rewrite <- (blen_to_le_bytes n x). apply slice_blit_same. Qed.

Lemma slice_blit_le4 a off x : slice (blit a off (to_le_bytes 4 x)) off 4 = to_le_bytes 4 x.
Proof. apply (slice_blit_le a off 4). Qed.

Lemma slice_blit_le8 a off x : slice (blit a off (to_le_bytes 8 x)) off 8 = to_le_bytes 8 x.
Proof. apply (slice_blit_le a off 8). Qed.

Lemma set_extents_read h off slot exts k e :
  Forall extent_fits exts -> exts !! k = Some e ->
  let o := off + 7 + 8 * Z.of_nat (slot + k) in
  mkExtent (read_le32_from_slice (slice (set_extents h off slot exts) o 4))
           (read_le32_from_slice (slice (set_extents h off slot exts) (o + 4) 4)) = e.
Proof.
  revert h slot k. induction exts as [|e' exts IH]; intros h slot k Hf Hk; [done|].
  apply Forall_cons in Hf as [[Hf1 Hf2] Hf]. cbn zeta. destruct k as [|k].
  - injection Hk as ->. simpl set_extents. pfs_const.
    rewrite !slice_set_extents_other by lia.
    replace (slot + 0)%nat with slot by lia.
    replace (off + 7 + 8 * Z.of_nat slot) with (off + 7 + Z.of_nat slot * 8) by lia.
    rewrite slice_blit_le4, slice_blit_other by (rewrite ?blen_to_le_bytes; lia).
    rewrite slice_blit_le4, !read_to_le32 by done. by destruct e.
  - replace (slot + S k)%nat with (S slot + k)%nat by lia.
    simpl set_extents. by apply IH.
Qed.

Lemma pfs_set_entry_out h index name size kind exts created mode now i :
  blen name <= PFS_NAME_MAX ->
  i < pfs_entry_offset index \/ pfs_entry_offset index + PFS_ENTRY_SIZE <= i ->
  pfs_set_entry h index name size kind exts created mode now i = h i.
Proof.
  intros Hn Hi. unfold pfs_set_entry. pfs_const. cbv zeta.
  assert (Hl : (length (take PFS_MAX_EXTENTS exts) <= 4)%nat)
    by (rewrite length_take; unfold PFS_MAX_EXTENTS; lia).
  arr_read. rewrite set_extents_out by lia. arr_read. done.
Qed.

Lemma pfs_clear_entry_out h index i :
  i < pfs_entry_offset index \/ pfs_entry_offset index + PFS_ENTRY_SIZE <= i ->
  pfs_clear_entry h index i = h i.
Proof. intros. unfold pfs_clear_entry. by apply fill_out. Qed.

(** The arguments [pfs_set_entry] is called with fit their fields. *)
Record entry_fits (name : bytes) (size kind : Z) (exts : list PfsExtent)
    (created mode now : Z) : Prop := {
  fits_name : blen name <= PFS_NAME_MAX;
  fits_size : is_u32 size;
  fits_exts : Forall extent_fits exts;
  fits_count : (length exts <= PFS_MAX_EXTENTS)%nat;
  fits_created : is_u64 created;
  fits_now : is_u64 now
}.

Lemma set_entry_extents h index name size kind exts created mode now :
  entry_fits name size kind exts created mode now ->
  pfs_entry_extents (pfs_set_entry h index name size kind exts created mode now) index = exts.
Proof.
  intros [Hn Hs Hf Hc _ _]. unfold pfs_entry_extents, pfs_entry_extent_count.
  assert (Hl : (length (take PFS_MAX_EXTENTS exts) <= 4)%nat)
    by (rewrite length_take; unfold PFS_MAX_EXTENTS; lia).
  assert (Hcount : pfs_set_entry h index name size kind exts created mode now
    (pfs_entry_offset index + PFS_EXTENT_COUNT_OFFSET) = Z.of_nat (length exts)).
  { unfold pfs_set_entry. pfs_const. cbv zeta. arr_read.
    rewrite set_extents_out by lia. arr_read.
    unfold PFS_MAX_EXTENTS in *. rewrite Nat.min_l by lia. unfold u8.
    apply Z.mod_small. lia. }
  rewrite Hcount, Nat2Z.id, Nat.min_l by done.
  apply list_eq. intros k. rewrite list_lookup_fmap.
  destruct (decide (k < length exts)%nat) as [Hk|Hk].
  2: { rewrite lookup_seq_ge by lia. rewrite lookup_ge_None_2 by lia. done. }
  rewrite lookup_seq_lt by lia. simpl.
  destruct (lookup_lt_is_Some_2 exts k Hk) as [e He]. rewrite He. f_equal.
  unfold pfs_entry_extent, pfs_set_entry. pfs_const. cbv zeta.
  rewrite !slice_blit_other by (rewrite ?blen_to_le_bytes; unfold PFS_MAX_EXTENTS in *; lia).
  rewrite !slice_aset_other by (unfold PFS_MAX_EXTENTS in *; lia).
  rewrite !slice_blit_other by (rewrite ?blen_to_le_bytes; unfold PFS_MAX_EXTENTS in *; lia).
  rewrite (firstn_all2 exts) by done.
  replace (pfs_entry_offset index + 7 + Z.of_nat k * 8)
    with (pfs_entry_offset index + 7 + 8 * Z.of_nat (0 + k)) by lia.
  apply set_extents_read; done.
Qed.

Lemma set_entry_view h index name size kind exts created mode now :
  entry_fits name size kind exts created mode now ->
  pfs_view (pfs_set_entry h index name size kind exts created mode now) index
  = mkView kind name size exts created now mode.
Proof.
  intros Hfit. unfold pfs_view. rewrite (set_entry_extents _ _ _ _ _ _ _ _ _ Hfit).
  destruct Hfit as [Hn Hs Hf Hc Hcr Hnow].
  assert (Hl : (length (take PFS_MAX_EXTENTS exts) <= 4)%nat)
    by (rewrite length_take; unfold PFS_MAX_EXTENTS; lia).
  pose proof (blen_nonneg name).
  assert (Hlen : pfs_set_entry h index name size kind exts created mode now
    (pfs_entry_offset index + 1) = blen name).
  { unfold pfs_set_entry. pfs_const. cbv zeta. arr_read.
    rewrite set_extents_out by lia. arr_read. unfold u8. apply Z.mod_small. lia. }
  f_equal.
  - unfold pfs_entry_kind, pfs_set_entry. pfs_const. cbv zeta. arr_read.
    rewrite set_extents_out by lia. arr_read. done.
  - unfold pfs_entry_name. rewrite Hlen. unfold pfs_set_entry. apply slice_blit_same.
  - unfold pfs_entry_size, pfs_set_entry. pfs_const. cbv zeta.
    repeat first [rewrite slice_blit_other by (rewrite ?blen_to_le_bytes; lia)
                 | rewrite slice_aset_other by lia | rewrite slice_set_extents_other by lia ].
    rewrite slice_blit_le4. unfold u32. rewrite (Z.mod_small size) by (unfold is_u32 in *; lia).
    by apply read_to_le32.
  - unfold pfs_entry_created, pfs_set_entry. pfs_const. cbv zeta.
    repeat first [rewrite slice_blit_other by (rewrite ?blen_to_le_bytes; lia)
                 | rewrite slice_aset_other by lia ].
    rewrite slice_blit_le8. by apply read_to_le64.
  - unfold pfs_entry_modified, pfs_set_entry. pfs_const. cbv zeta.
    repeat first [rewrite slice_blit_other by (rewrite ?blen_to_le_bytes; lia)
                 | rewrite slice_aset_other by lia ].
    rewrite slice_blit_le8. by apply read_to_le64.
  - unfold pfs_entry_mode, pfs_set_entry. pfs_const. cbv zeta. arr_read. done.
Qed.

(** ** Frame: an entry depends on its own bytes only *)

Lemma pfs_entry_offset_range index :
  (index < PFS_ENTRY_COUNT)%nat ->
  16 <= pfs_entry_offset index /\
  pfs_entry_offset index + PFS_ENTRY_SIZE <= PFS_HEADER_BYTES.
Proof.
  intros H. unfold pfs_entry_offset. rewrite PFS_HEADER_BYTES_eq. pfs_const.
  pose proof PFS_ENTRY_COUNT_eq. lia.
Qed.

Lemma pfs_entry_offset_disjoint i j :
  i <> j -> pfs_entry_offset i + PFS_ENTRY_SIZE <= pfs_entry_offset j \/
            pfs_entry_offset j + PFS_ENTRY_SIZE <= pfs_entry_offset i.
Proof. intros. unfold pfs_entry_offset. pfs_const. lia. Qed.

Definition entry_agree (h1 h2 : arr) (index : nat) : Prop :=
  forall i, pfs_entry_offset index <= i < pfs_entry_offset index + PFS_ENTRY_SIZE ->
            h1 i = h2 i.

Definition name_fits (h : arr) (index : nat) : Prop :=
  h (pfs_entry_offset index + 1) <= PFS_NAME_MAX.

Lemma used_agree h1 h2 index :
  entry_agree h1 h2 index -> pfs_entry_used h1 index = pfs_entry_used h2 index.
Proof. intros H. unfold pfs_entry_used. rewrite H by (pfs_const; lia). done. Qed.

Lemma is_dir_agree h1 h2 index :
  entry_agree h1 h2 index -> pfs_entry_is_dir h1 index = pfs_entry_is_dir h2 index.
Proof. intros H. unfold pfs_entry_is_dir. rewrite H by (pfs_const; lia). done. Qed.

Lemma name_agree h1 h2 index :
  entry_agree h1 h2 index -> name_fits h1 index ->
  pfs_entry_name h1 index = pfs_entry_name h2 index.
Proof.
  intros H Hn. unfold name_fits in Hn. unfold pfs_entry_name.
  rewrite <- (H (pfs_entry_offset index + 1)) by (pfs_const; lia).
  apply slice_ext. intros i Hi. apply H. pfs_const. lia.
Qed.

Lemma extents_agree h1 h2 index :
  entry_agree h1 h2 index -> pfs_entry_extents h1 index = pfs_entry_extents h2 index.
Proof.
  intros H. unfold pfs_entry_extents, pfs_entry_extent_count.
  rewrite <- (H (pfs_entry_offset index + PFS_EXTENT_COUNT_OFFSET)) by (pfs_const; lia).
  apply map_ext_in. intros k Hk. apply in_seq in Hk. unfold PFS_MAX_EXTENTS in Hk.
  unfold pfs_entry_extent. f_equal; f_equal; apply slice_ext; intros i Hi; apply H;
    pfs_const; lia.
Qed.

Lemma view_agree h1 h2 index :
  entry_agree h1 h2 index -> name_fits h1 index -> pfs_view h1 index = pfs_view h2 index.
Proof.
  intros H Hn. unfold pfs_view. rewrite (name_agree h1 h2), (extents_agree h1 h2) by done.
  f_equal; unfold pfs_entry_kind, pfs_entry_size, pfs_entry_created, pfs_entry_modified,
    pfs_entry_mode; first [apply H; pfs_const; lia
    | f_equal; apply slice_ext; intros i Hi; apply H; pfs_const; lia].
Qed.

Lemma name_fits_agree h1 h2 index :
  entry_agree h1 h2 index -> name_fits h1 index -> name_fits h2 index.
Proof. intros H Hn. unfold name_fits in *. rewrite <- H; [done|pfs_const; lia]. Qed.

Lemma entry_agree_sym h1 h2 index : entry_agree h1 h2 index -> entry_agree h2 h1 index.
Proof. intros H i Hi. symmetry. auto. Qed.

Lemma set_entry_agree h i j name size kind exts created mode now :
  i <> j -> blen name <= PFS_NAME_MAX ->
  entry_agree (pfs_set_entry h i name size kind exts created mode now) h j.
Proof.
  intros Hij Hn k Hk. apply pfs_set_entry_out; [done|].
  pose proof (pfs_entry_offset_disjoint i j Hij). lia.
Qed.

Lemma clear_entry_agree h i j : i <> j -> entry_agree (pfs_clear_entry h i) h j.
Proof.
  intros Hij k Hk. apply pfs_clear_entry_out.
  pose proof (pfs_entry_offset_disjoint i j Hij). lia.
Qed.

Lemma clear_entry_unused h i : pfs_entry_used (pfs_clear_entry h i) i = false.
Proof.
  unfold pfs_entry_used, pfs_clear_entry. rewrite fill_in; [done|]. pfs_const. lia.
Qed.

Lemma clear_entry_name_fits h i : name_fits (pfs_clear_entry h i) i.
Proof.
  unfold name_fits, pfs_clear_entry. rewrite fill_in; pfs_const; lia.
Qed.

Lemma set_entry_name_fits h i name size kind exts created mode now :
  blen name <= PFS_NAME_MAX ->
  name_fits (pfs_set_entry h i name size kind exts created mode now) i.
Proof.
  intros Hn. unfold name_fits, pfs_set_entry. pfs_const. cbv zeta. arr_read.
  rewrite set_extents_out by lia. arr_read. unfold u8. rewrite Z.mod_small; [done|].
  pose proof (blen_nonneg name). lia.
Qed.

Lemma view_used h i : pfs_entry_used h i = negb (v_kind (pfs_view h i) =? 0).
Proof. done. Qed.

Lemma view_is_dir h i : pfs_entry_is_dir h i = (v_kind (pfs_view h i) =? PFS_KIND_DIR).
Proof. done. Qed.

Lemma view_name h i : pfs_entry_name h i = v_name (pfs_view h i).
Proof. done. Qed.

(** ** Equality of headers is respected by every accessor *)

#[export] Instance header_eq_equiv : Equivalence header_eq.
Proof.
  split; [done|intros a b H i Hi; symmetry; auto|].
  intros a b c H1 H2 i Hi. rewrite H1; auto.
Qed.

Lemma header_eq_agree h1 h2 index :
  (index < PFS_ENTRY_COUNT)%nat -> header_eq h1 h2 -> entry_agree h1 h2 index.
Proof.
  intros Hi H i Hr. apply H. pose proof (pfs_entry_offset_range index Hi). lia.
Qed.

Definition names_fit (h : arr) : Prop :=
  forall index, (index < PFS_ENTRY_COUNT)%nat -> name_fits h index.

Lemma find_entry_agree h1 h2 name :
  (forall i, (i < PFS_ENTRY_COUNT)%nat -> entry_agree h1 h2 i) -> names_fit h1 ->
  pfs_find_entry h1 name = pfs_find_entry h2 name.
Proof.
  intros H Hn. unfold pfs_find_entry. apply find_first_ext. intros i Hi.
  rewrite (used_agree h1 h2), (name_agree h1 h2) by auto. done.
Qed.

#[global] Arguments pfs_set_entry : simpl never.
#[global] Arguments pfs_entry_offset : simpl never.

(** ** Ranges of the fields read from a header of bytes *)

Lemma entry_extents_count h i : (length (pfs_entry_extents h i) <= PFS_MAX_EXTENTS)%nat.
Proof.
  unfold pfs_entry_extents, pfs_entry_extent_count. rewrite length_map, length_seq. lia.
Qed.

Lemma header_bytes_entry h i k :
  header_bytes h -> (i < PFS_ENTRY_COUNT)%nat -> 0 <= k < PFS_ENTRY_SIZE ->
  is_u8 (h (pfs_entry_offset i + k)).
Proof.
  intros Hb Hi Hk. apply Hb. pose proof (pfs_entry_offset_range i Hi). lia.
Qed.

Lemma entry_extents_fit h i :
  header_bytes h -> (i < PFS_ENTRY_COUNT)%nat -> Forall extent_fits (pfs_entry_extents h i).
Proof.
  intros Hb Hi. apply Forall_forall. intros e He. unfold pfs_entry_extents in He.
  apply list_elem_of_In, in_map_iff in He as (k & <- & Hk). apply in_seq in Hk.
  unfold pfs_entry_extent_count, PFS_MAX_EXTENTS in Hk.
  unfold extent_fits, pfs_entry_extent. simpl. pfs_const.
  pose proof (pfs_entry_offset_range i Hi). pfs_const.
  split; apply le32_slice_range; intros j Hj; apply Hb; lia.
Qed.

Lemma entry_size_range h i :
  header_bytes h -> (i < PFS_ENTRY_COUNT)%nat -> is_u32 (pfs_entry_size h i).
Proof.
  intros Hb Hi. apply le32_slice_range. intros j Hj. apply Hb.
  pose proof (pfs_entry_offset_range i Hi). pfs_const. lia.
Qed.

(** The fields read from an entry fit when they are written back. *)
Lemma entry_fits_reread h i name now :
  header_bytes h -> (i < PFS_ENTRY_COUNT)%nat -> blen name <= PFS_NAME_MAX -> is_u64 now ->
  entry_fits name (pfs_entry_size h i) (pfs_entry_kind h i) (pfs_entry_extents h i)
    (pfs_entry_created h i) (pfs_entry_mode h i) now.
Proof.
  intros Hb Hi Hn Hnow. split; auto using entry_size_range, entry_extents_fit,
    entry_extents_count, le64_slice_range. apply le64_slice_range.
Qed.
