(* ===== verification/PfsPath.v ===== *)
(** * Path resolution in the file store

    [pfs_resolve_path], [normalize_pfs_path], [pfs_push_component],
    [pfs_pop_component], [PfsComponents] of [src/kernel/src/main.rs], and the
    component-stack semantics they refine.

    The output buffer is its first [len] bytes; the code never reads the rest. *)

From S2P Require Import Prelude Constants Text PfsLayout.

Definition is_slash (c : Z) : bool := c =? ch "/".

(** [PfsComponents::next] *)
Definition PfsComponents_next (bytes_ : bytes) (index : nat) : option (bytes * nat) :=
  next_token is_slash bytes_ index.

(** The components a [for] loop over [PfsComponents] visits; every step moves
    the index, so the length of the path is enough fuel. *)
Fixpoint components_from (fuel : nat) (l : bytes) (index : nat) : list bytes :=
  match fuel with
  | O => []
  | S f =>
      match PfsComponents_next l index with
      | None => []
      | Some (c, next) => c :: components_from f l next
      end
  end.

Definition PfsComponents (l : bytes) : list bytes := components_from (S (length l)) l 0.

Definition valid_pfs_component (component : bytes) : bool :=
  if bytes_eq component [] then false else forallb is_name_byte component.

Definition pfs_push_component (output component : bytes) : option bytes :=
  if bytes_eq component [] || negb (valid_pfs_component component) then None
  else
    let? output :=
      (if negb (blen output =? 0) then
         if PFS_NAME_MAX <=? blen output then None else Some (output ++ [ch "/"])
       else Some output) else None in
    if PFS_NAME_MAX <? blen output + blen component then None
    else Some (output ++ component).

Definition pfs_pop_component (output : bytes) : bytes :=
  match find_last_byte output (ch "/") with
  | Some index => take index output
  | None => []
  end.

(** The first loop of [normalize_pfs_path]: the base directory. *)
Fixpoint push_all (output : bytes) (components : list bytes) : option bytes :=
  match components with
  | [] => Some output
  | c :: rest => let? output := pfs_push_component output c else None in push_all output rest
  end.

(** The second loop: the path itself. *)
Fixpoint walk_all (output : bytes) (components : list bytes) : option bytes :=
  match components with
  | [] => Some output
  | c :: rest =>
      if bytes_eq c (bs ".") then walk_all output rest
      else if bytes_eq c (bs "..") then walk_all (pfs_pop_component output) rest
      else let? output := pfs_push_component output c else None in walk_all output rest
  end.

Definition normalize_pfs_path (base path : bytes) : option bytes :=
  let absolute := starts_with path (bs "/") in
  let? output := (if absolute then Some [] else push_all [] (PfsComponents base)) else None in
  let relative := if absolute then drop 1 path else path in
  let? output := walk_all output (PfsComponents relative) else None in
  if (blen output =? 0) || negb (valid_pfs_path output) then None else Some output.

(** [app_cwd_is_pfs] and [app_cwd_pfs_name] on the working directory [cwd]. *)
Definition app_cwd_is_pfs (cwd : bytes) : bool := starts_with cwd (bs "pfs:").

Definition app_cwd_pfs_name (cwd : bytes) : bytes :=
  if blen cwd <=? 4 then []
  else take (Z.to_nat (Z.min (blen cwd - 4) PFS_NAME_MAX)) (drop 4 cwd).

Definition pfs_resolve_path (cwd path : bytes) : option bytes :=
  if starts_with path (bs "pfs:") then normalize_pfs_path [] (drop 4 path)
  else if app_cwd_is_pfs cwd then normalize_pfs_path (app_cwd_pfs_name cwd) path
  else None.

(** ** The component-stack semantics *)

(** [.] stays, [..] leaves the directory, anything else enters it. *)
Fixpoint walk_stack (stack components : list bytes) : list bytes :=
  match components with
  | [] => stack
  | c :: rest =>
      if bytes_eq c (bs ".") then walk_stack stack rest
      else if bytes_eq c (bs "..") then walk_stack (take (length stack - 1) stack) rest
      else walk_stack (stack ++ [c]) rest
  end.

Fixpoint join (stack : list bytes) : bytes :=
  match stack with
  | [] => []
  | [c] => c
  | c :: rest => c ++ [ch "/"] ++ join rest
  end.

(** A component that a stored name may have. *)
Definition ok_component (c : bytes) : Prop := c <> [] /\ Forall (fun b => is_name_byte b = true) c.

Definition ok_stack (s : list bytes) : Prop := Forall ok_component s.

(** ** Lemmas *)

Lemma components_from_spec fuel l index :
  (length l < fuel + index)%nat ->
  components_from fuel l index = tokens is_slash [] (drop index l).
Proof.
  revert index. induction fuel as [|f IH]; intros index Hf; cbn [components_from].
  - rewrite drop_ge by lia. done.
  - unfold PfsComponents_next. pose proof (next_token_spec is_slash l index) as H.
    destruct (next_token is_slash l index) as [[c next]|]; [|done].
    destruct H as (-> & Hlt & _). rewrite IH by lia. done.
Qed.

Lemma PfsComponents_tokens l : PfsComponents l = tokens is_slash [] l.
Proof. unfold PfsComponents. rewrite components_from_spec by lia. by rewrite drop_0. Qed.

Lemma tokens_nonempty sep cur l :
  Forall (fun c => sep c = false) cur ->
  Forall (fun t => t <> [] /\ Forall (fun c => sep c = false) t) (tokens sep cur l).
Proof.
  revert cur. induction l as [|x l IH]; intros cur Hc; simpl.
  - destruct (bytes_eq cur []) eqn:E; [done|]. apply bytes_eq_false in E. by repeat constructor.
  - destruct (sep x) eqn:Ex.
    + destruct (bytes_eq cur []) eqn:E; [by apply IH|].
      apply bytes_eq_false in E. constructor; [done|]. by apply IH.
    + apply IH. apply Forall_app. by repeat constructor.
Qed.

Lemma ok_component_spec c : valid_pfs_component c = true <-> ok_component c.
Proof.
  unfold valid_pfs_component, ok_component. destruct (bytes_eq c []) eqn:E.
  - apply bytes_eq_spec in E. split; [done|]. by intros [? _].
  - apply bytes_eq_false in E. rewrite forallb_forall, List.Forall_forall. naive_solver.
Qed.

Lemma name_byte_not_slash b : is_name_byte b = true -> is_slash b = false.
Proof.
  unfold is_name_byte, is_slash. intros H. apply Z.eqb_neq. intros ->. vm_compute in H. done.
Qed.

Lemma join_snoc s c : s <> [] -> join (s ++ [c]) = join s ++ [ch "/"] ++ c.
Proof.
  induction s as [|x [|y s] IH]; [done|done|]. intros _.
  change (join ((x :: y :: s) ++ [c])) with (x ++ [ch "/"] ++ join ((y :: s) ++ [c])).
  rewrite IH by done. change (join (x :: y :: s)) with (x ++ [ch "/"] ++ join (y :: s)).
  by rewrite <- !app_assoc.
Qed.

Lemma join_nil s : ok_stack s -> join s = [] <-> s = [].
Proof.
  intros Hs. split; [|by intros ->]. destruct s as [|c s]; [done|].
  apply Forall_cons in Hs as [[Hne _] _]. destruct s; simpl; [done|]. by destruct c.
Qed.

Lemma ok_stack_app s c : ok_stack s -> ok_component c -> ok_stack (s ++ [c]).
Proof. intros Hs Hc. apply Forall_app. split; [done|]. by constructor. Qed.

(** Entering a directory. *)
Lemma push_spec s c :
  ok_stack s ->
  pfs_push_component (join s) c =
  if valid_pfs_component c && (blen (join (s ++ [c])) <=? PFS_NAME_MAX)
  then Some (join (s ++ [c])) else None.
Proof.
  intros Hs. unfold pfs_push_component.
  destruct (valid_pfs_component c) eqn:Hv; [|by rewrite orb_true_r].
  apply ok_component_spec in Hv as [Hne _]. apply bytes_eq_false in Hne as ->. cbn [orb negb andb].
  pose proof (blen_nonneg c). destruct (decide (s = [])) as [->|Hn].
  - change (join []) with (@nil Z). change (join ([] ++ [c])) with c. change (negb (blen [] =? 0)) with false.
    cbn iota. rewrite Z.ltb_antisym. rewrite app_nil_l. change (blen [] + blen c) with (blen c).
    by destruct (blen c <=? PFS_NAME_MAX).
  - assert (Hj : join s <> []) by by rewrite join_nil.
    assert (Hb : 0 < blen (join s)) by (unfold blen; destruct (join s); simpl; [done|lia]).
    destruct (Z.eqb_spec (blen (join s)) 0); [lia|]. cbn [negb].
    rewrite join_snoc, app_assoc, !blen_app by done. change (blen [ch "/"]) with 1.
    destruct (Z.leb_spec PFS_NAME_MAX (blen (join s))).
    + destruct (Z.leb_spec (blen (join s) + 1 + blen c) PFS_NAME_MAX); [lia|done].
    + rewrite blen_app, Z.ltb_antisym. change (blen [ch "/"]) with 1.
      by destruct (_ <=? PFS_NAME_MAX).
Qed.

Lemma ok_no_slash c : ok_component c -> ch "/" ∉ c.
Proof.
  intros [_ Hf] Hin. rewrite Forall_forall in Hf. specialize (Hf _ Hin).
  apply name_byte_not_slash in Hf. done.
Qed.

Lemma find_last_byte_snoc l c n :
  n ∉ c -> find_last_byte (l ++ [n] ++ c) n = Some (length l).
Proof.
  intros Hn. apply find_last_byte_some. rewrite take_app_length.
  replace (drop (S (length l)) (l ++ [n] ++ c)) with c.
  - split_and!; [done|rewrite !length_app; simpl; lia|done].
  - rewrite drop_app_ge by lia. by replace (S (length l) - length l)%nat with 1%nat by lia.
Qed.

(** Leaving it. *)
Lemma pop_spec s : ok_stack s -> pfs_pop_component (join s) = join (take (length s - 1) s).
Proof.
  intros Hs. destruct s as [|c s _] using rev_ind; [done|].
  apply Forall_app in Hs as [Hs [Hc _]%Forall_cons].
  rewrite length_app. simpl. rewrite Nat.add_sub, take_app_length.
  unfold pfs_pop_component. destruct (decide (s = [])) as [->|Hn].
  - change (join ([] ++ [c])) with c. rewrite (proj2 (find_last_byte_none c (ch "/"))); [done|]. by apply ok_no_slash.
  - rewrite join_snoc by done. rewrite find_last_byte_snoc by by apply ok_no_slash.
    by rewrite take_app_length.
Qed.

Lemma ok_stack_take n s : ok_stack s -> ok_stack (take n s).
Proof. apply Forall_take. Qed.

Lemma tokens_word_nil c l :
  ok_component c -> tokens is_slash [] (c ++ [ch "/"] ++ l) = c :: tokens is_slash [] l.
Proof.
  intros [Hne Hf]. assert (H : forall cur, cur ++ c <> [] ->
    tokens is_slash cur (c ++ [ch "/"] ++ l) = (cur ++ c) :: tokens is_slash [] l).
  { clear Hne. induction c as [|x c IH]; intros cur Hn; simpl.
    - rewrite app_nil_r in *. by apply bytes_eq_false in Hn as ->.
    - apply Forall_cons in Hf as [Hx Hf]. rewrite (name_byte_not_slash x Hx).
      change (ch "/" :: l) with ([ch "/"] ++ l). rewrite (IH Hf (cur ++ [x])).
      + by rewrite <- app_assoc.
      + by destruct cur. }
  by apply (H []).
Qed.

Lemma tokens_word_end c : ok_component c -> tokens is_slash [] c = [c].
Proof.
  intros [Hne Hf]. assert (H : forall cur, cur ++ c <> [] -> tokens is_slash cur c = [cur ++ c]).
  { clear Hne. induction c as [|x c IH]; intros cur Hn; simpl.
    - rewrite app_nil_r in *. by apply bytes_eq_false in Hn as ->.
    - apply Forall_cons in Hf as [Hx Hf]. rewrite (name_byte_not_slash x Hx), (IH Hf (cur ++ [x])).
      + by rewrite <- app_assoc.
      + by destruct cur. }
  by apply (H []).
Qed.

Lemma tokens_join s : ok_stack s -> tokens is_slash [] (join s) = s.
Proof.
  induction s as [|c [|d s] IH]; intros Hs; [done| |].
  - apply Forall_cons in Hs as [Hc _]. by apply tokens_word_end.
  - apply Forall_cons in Hs as [Hc Hs].
    change (join (c :: d :: s)) with (c ++ [ch "/"] ++ join (d :: s)).
    rewrite tokens_word_nil by done. by rewrite IH.
Qed.

(** ** Refinement *)

(** The checks of the walk: every component entered is valid, and the path to
    it fits the name field. *)
Fixpoint walk_ok (stack components : list bytes) : bool :=
  match components with
  | [] => true
  | c :: rest =>
      if bytes_eq c (bs ".") then walk_ok stack rest
      else if bytes_eq c (bs "..") then walk_ok (take (length stack - 1) stack) rest
      else valid_pfs_component c && (blen (join (stack ++ [c])) <=? PFS_NAME_MAX)
           && walk_ok (stack ++ [c]) rest
  end.

Fixpoint push_ok (stack components : list bytes) : bool :=
  match components with
  | [] => true
  | c :: rest =>
      valid_pfs_component c && (blen (join (stack ++ [c])) <=? PFS_NAME_MAX)
      && push_ok (stack ++ [c]) rest
  end.

Lemma walk_refines s cs :
  ok_stack s ->
  walk_all (join s) cs = if walk_ok s cs then Some (join (walk_stack s cs)) else None.
Proof.
  revert s. induction cs as [|c cs IH]; intros s Hs; simpl; [done|].
  destruct (bytes_eq c (bs ".")); [by apply IH|].
  destruct (bytes_eq c (bs "..")).
  { rewrite pop_spec by done. apply IH. by apply ok_stack_take. }
  rewrite push_spec by done. destruct (valid_pfs_component c) eqn:Hv; [|done].
  destruct (_ <=? _); [|done]. simpl. apply IH. apply ok_stack_app; [done|].
  by apply ok_component_spec.
Qed.

Lemma push_refines s cs :
  ok_stack s ->
  push_all (join s) cs = if push_ok s cs then Some (join (s ++ cs)) else None.
Proof.
  revert s. induction cs as [|c cs IH]; intros s Hs; simpl; [by rewrite app_nil_r|].
  rewrite push_spec by done. destruct (valid_pfs_component c) eqn:Hv; [|done].
  destruct (_ <=? _); [|done]. simpl. rewrite IH, <- app_assoc; [done|].
  apply ok_stack_app; [done|]. by apply ok_component_spec.
Qed.

Lemma push_ok_stack s cs : ok_stack s -> push_ok s cs = true -> ok_stack (s ++ cs).
Proof.
  revert s. induction cs as [|c cs IH]; intros s Hs; simpl; [by rewrite app_nil_r|].
  rewrite !andb_true_iff. intros [[Hc _] Hr]. rewrite cons_middle, app_assoc. apply IH; [|done].
  apply ok_stack_app; [done|]. by apply ok_component_spec.
Qed.

Lemma walk_ok_stack s cs : ok_stack s -> walk_ok s cs = true -> ok_stack (walk_stack s cs).
Proof.
  revert s. induction cs as [|c cs IH]; intros s Hs; simpl; [done|].
  destruct (bytes_eq c (bs ".")); [by apply IH|].
  destruct (bytes_eq c (bs "..")); [by apply IH, ok_stack_take|].
  rewrite !andb_true_iff. intros [[Hc _] Hr]. apply IH; [|done].
  apply ok_stack_app; [done|]. by apply ok_component_spec.
Qed.

(** A component that is a name, not a direction. *)
Definition is_name (c : bytes) : Prop := c <> bs "." /\ c <> bs "..".

Lemma walk_names s cs : Forall is_name s -> Forall is_name (walk_stack s cs).
Proof.
  revert s. induction cs as [|c cs IH]; intros s Hs; simpl; [done|].
  destruct (bytes_eq c (bs ".")) eqn:E1; [by apply IH|].
  destruct (bytes_eq c (bs "..")) eqn:E2; [by apply IH, Forall_take|].
  apply bytes_eq_false in E1, E2. apply IH, Forall_app. by repeat constructor.
Qed.

(** The starting stack of [normalize_pfs_path]. *)
Definition start_stack (base path : bytes) : list bytes :=
  if starts_with path (bs "/") then [] else tokens is_slash [] base.

Definition path_components (path : bytes) : list bytes := tokens is_slash [] path.

Lemma relative_components path :
  tokens is_slash [] (if starts_with path (bs "/") then drop 1 path else path)
  = path_components path.
Proof.
  unfold path_components. destruct (starts_with path (bs "/")) eqn:E; [|done].
  apply starts_with_spec in E as [t ->]. done.
Qed.

(** What [normalize_pfs_path] returns, on every input. *)
Lemma normalize_stack base path :
  normalize_pfs_path base path =
  let s := start_stack base path in
  let r := walk_stack s (path_components path) in
  if (starts_with path (bs "/") || push_ok [] (tokens is_slash [] base))
     && walk_ok s (path_components path) && negb (blen (join r) =? 0)
     && valid_pfs_path (join r)
  then Some (join r) else None.
Proof.
  unfold normalize_pfs_path, start_stack. rewrite !PfsComponents_tokens, relative_components.
  cbn zeta. destruct (starts_with path (bs "/")) eqn:E; cbn [orb andb].
  - change (@nil Z) with (join []) at 1. rewrite walk_refines by constructor.
    destruct (walk_ok [] _); [|done]. by destruct (blen _ =? 0), (valid_pfs_path _).
  - change (@nil Z) with (join []) at 1. rewrite push_refines by constructor.
    destruct (push_ok [] _) eqn:Hp; [|done]. rewrite app_nil_l.
    apply push_ok_stack in Hp; [|constructor]. rewrite app_nil_l in Hp.
    rewrite walk_refines by done. destruct (walk_ok _ _); [|done].
    by destruct (blen _ =? 0), (valid_pfs_path _).
Qed.

(** ** Canonical names *)

Lemma join_prefix s t : blen (join s) <= blen (join (s ++ t)).
Proof.
  revert s. induction t as [|c t IH]; intros s; [by rewrite app_nil_r|].
  rewrite cons_middle, app_assoc. etransitivity; [|apply IH].
  destruct (decide (s = [])) as [->|Hn]; [apply blen_nonneg|].
  rewrite join_snoc, !blen_app by done. pose proof (blen_nonneg c).
  pose proof (blen_nonneg [ch "/"]). lia.
Qed.

Lemma walk_names_id s r : Forall is_name r -> walk_stack s r = s ++ r.
Proof.
  revert s. induction r as [|c r IH]; intros s Hn; simpl; [by rewrite app_nil_r|].
  apply Forall_cons in Hn as [[H1 H2] Hn]. apply bytes_eq_false in H1 as ->, H2 as ->.
  by rewrite IH, <- app_assoc.
Qed.

Lemma walk_names_ok s r :
  ok_stack r -> Forall is_name r -> blen (join (s ++ r)) <= PFS_NAME_MAX -> walk_ok s r = true.
Proof.
  revert s. induction r as [|c r IH]; intros s Ho Hn Hl; simpl; [done|].
  apply Forall_cons in Hn as [[H1 H2] Hn]. apply Forall_cons in Ho as [Hc Ho].
  apply bytes_eq_false in H1 as ->, H2 as ->. apply ok_component_spec in Hc as ->.
  rewrite cons_middle, app_assoc in Hl. pose proof (join_prefix (s ++ [c]) r).
  rewrite (proj2 (Z.leb_le _ _)) by lia. by apply IH.
Qed.

Lemma join_not_absolute r : ok_stack r -> starts_with (join r) (bs "/") = false.
Proof.
  intros Ho. apply not_true_is_false. intros [t E]%starts_with_spec.
  destruct r as [|c r]; [done|]. apply Forall_cons in Ho as [[Hne Hf] _].
  destruct c as [|x c]; [done|]. apply Forall_cons in Hf as [Hx _].
  apply name_byte_not_slash, Z.eqb_neq in Hx. apply Hx. by destruct r; injection E.
Qed.

(** The base directory's components are names, as every directory [abi_chdir]
    stores is. *)
Definition cwd_wf (cwd : bytes) : Prop := Forall is_name (tokens is_slash [] (app_cwd_pfs_name cwd)).

Lemma normalize_canonical base path name :
  Forall is_name (tokens is_slash [] base) -> normalize_pfs_path base path = Some name ->
  exists r, name = join r /\ ok_stack r /\ Forall is_name r /\ valid_pfs_path name = true.
Proof.
  rewrite normalize_stack. cbn zeta. intros Hb.
  destruct (_ && valid_pfs_path _) eqn:E; [|done]. intros [= <-].
  rewrite !andb_true_iff in E. destruct E as [[[E1 E2] _] E4].
  assert (Hs : ok_stack (start_stack base path) /\ Forall is_name (start_stack base path)).
  { unfold start_stack in *. destruct (starts_with path (bs "/")); [split; constructor|].
    split; [|done]. apply (push_ok_stack [] _ ltac:(constructor)) in E1. done. }
  destruct Hs as [Hs1 Hs2]. eexists. split; [done|].
  split; [by apply walk_ok_stack|]. split; [by apply walk_names|done].
Qed.

Lemma valid_path_len name : valid_pfs_path name = true -> 0 < blen name <= PFS_NAME_MAX.
Proof.
  unfold valid_pfs_path. destruct (bytes_eq name []) eqn:E; [done|]. apply bytes_eq_false in E.
  destruct (Z.ltb_spec PFS_NAME_MAX (blen name)); [done|]. intros _.
  split; [|done]. unfold blen. destruct name; simpl; [done|lia].
Qed.

Lemma normalize_fixed r :
  ok_stack r -> Forall is_name r -> valid_pfs_path (join r) = true ->
  normalize_pfs_path [] (join r) = Some (join r).
Proof.
  intros Ho Hn Hv. rewrite normalize_stack. cbn zeta. unfold start_stack, path_components.
  rewrite join_not_absolute, tokens_join by done.
  replace (tokens is_slash [] []) with (@nil bytes) by done.
  rewrite walk_names_id, app_nil_l by done. pose proof (valid_path_len _ Hv) as Hl.
  rewrite walk_names_ok, Hv by (done || apply Hl). destruct (Z.eqb_spec (blen (join r)) 0); [lia|].
  done.
Qed.

Lemma resolve_normalize cwd path name :
  cwd_wf cwd -> pfs_resolve_path cwd path = Some name ->
  exists base p, Forall is_name (tokens is_slash [] base) /\ normalize_pfs_path base p = Some name.
Proof.
  unfold pfs_resolve_path. intros Hc. destruct (starts_with path (bs "pfs:")).
  - intros E. by exists [], (drop 4 path).
  - destruct (app_cwd_is_pfs cwd); [|done]. intros E. by exists (app_cwd_pfs_name cwd), path.
Qed.

(** ** Properties *)

(** C29: [normalize_pfs_path] computes the component-stack semantics of a path
    on every input: it splits at slashes, starts at the base directory (at the
    root when the path is absolute), treats [.] and [..] as the usual moves, and
    returns the joined stack exactly when every component entered is a valid
    name, no intermediate path is longer than the name field, and the result is
    a non-empty valid name. *)
Theorem normalize_pfs_path_refines base path :
  normalize_pfs_path base path =
  let s := start_stack base path in
  let r := walk_stack s (path_components path) in
  if (starts_with path (bs "/") || push_ok [] (tokens is_slash [] base))
     && walk_ok s (path_components path) && negb (blen (join r) =? 0)
     && valid_pfs_path (join r)
  then Some (join r) else None.
Proof. apply normalize_stack. Qed.

(** C30: A resolved path is canonical: it is a valid stored name with no [.] or
    [..] component, and resolving it again with the [pfs:] prefix, from any
    working directory, gives the same name. *)
Theorem resolved_path_canonical cwd path name cwd' :
  cwd_wf cwd -> pfs_resolve_path cwd path = Some name ->
  valid_pfs_path name = true /\ Forall is_name (path_components name) /\
  pfs_resolve_path cwd' (bs "pfs:" ++ name) = Some name.
Proof.
  intros Hc E. destruct (resolve_normalize _ _ _ Hc E) as (base & p & Hb & En).
  destruct (normalize_canonical _ _ _ Hb En) as (r & -> & Ho & Hn & Hv).
  split; [done|]. unfold path_components. rewrite tokens_join by done. split; [done|].
  unfold pfs_resolve_path. rewrite (proj2 (starts_with_spec _ (bs "pfs:"))) by by exists (join r).
  rewrite drop_app_ge by done. simpl drop. by apply normalize_fixed.
Qed.

Lemma resolved_path_canonical_witness :
  pfs_resolve_path (bs "pfs:a/b") (bs "../c//./d") = Some (bs "a/c/d") /\
  valid_pfs_path (bs "a/c/d") = true /\
  Forall is_name (path_components (bs "a/c/d")) /\
  pfs_resolve_path [] (bs "pfs:" ++ bs "a/c/d") = Some (bs "a/c/d").
Proof.
  split; [reflexivity|].
  apply (resolved_path_canonical (bs "pfs:a/b") (bs "../c//./d") (bs "a/c/d") []).
  - unfold cwd_wf. vm_compute. repeat constructor; discriminate.
  - reflexivity.
Defined.
