(* ===== verification/PfsDir.v ===== *)
(** * The RYMFS5 directory: lookup, unlink, rename, create

    The header of [PfsLayout] seen as a directory: which names it holds, and
    what [pfs_unlink_header], [pfs_rename_header] and the creation of an entry
    (the [pfs_free_entry] / [pfs_set_entry] pair of [abi_mkdir], [abi_open_pfs],
    [PersistentFs::write] and [PersistentFs::mkdir]) do to that directory. *)

From S2P Require Import Prelude Constants Text PfsLayout.

(** ** The directory of a header *)

(** What a name denotes: the abstract contents of the entry found for it. *)
Definition pfs_lookup (h : arr) (name : bytes) : option PfsView :=
  match pfs_find_entry h name with
  | Some i => Some (pfs_view h i)
  | None => None
  end.

Definition names_unique (h : arr) : Prop :=
  forall i j, (i < PFS_ENTRY_COUNT)%nat -> (j < PFS_ENTRY_COUNT)%nat ->
    pfs_entry_used h i = true -> pfs_entry_used h j = true ->
    pfs_entry_name h i = pfs_entry_name h j -> i = j.

(** Every entry sits in an existing directory. *)
Definition parents_ok (h : arr) : Prop :=
  forall i, (i < PFS_ENTRY_COUNT)%nat -> pfs_entry_used h i = true ->
    pfs_parent_exists h (pfs_entry_name h i) = true.

Definition paths_valid (h : arr) : Prop :=
  forall i, (i < PFS_ENTRY_COUNT)%nat -> pfs_entry_used h i = true ->
    valid_pfs_path (pfs_entry_name h i) = true.

(** The well-formedness invariant of the directory. *)
Record dir_wf (h : arr) : Prop := {
  wf_fit : names_fit h;
  wf_unique : names_unique h;
  wf_paths : paths_valid h;
  wf_parents : parents_ok h
}.

(** The creation step shared by the four callers: first free slot, new entry. *)
Definition pfs_create_header (h : arr) (name : bytes) (kind created mode now : Z)
  : option (nat * arr) :=
  match pfs_free_entry h with
  | None => None
  | Some index => Some (index, pfs_set_entry h index name 0 kind [] created mode now)
  end.

(** ** Finding entries *)

Lemma find_entry_spec h name i :
  pfs_find_entry h name = Some i ->
  (i < PFS_ENTRY_COUNT)%nat /\ pfs_entry_used h i = true /\ pfs_entry_name h i = name.
Proof.
  intros H. apply find_first_some in H as (Hi & Hp & _).
  apply andb_true_iff in Hp as [Hu Hn]. apply bytes_eq_spec in Hn. done.
Qed.

Lemma find_entry_none h name i :
  pfs_find_entry h name = None -> (i < PFS_ENTRY_COUNT)%nat ->
  pfs_entry_used h i = true -> pfs_entry_name h i <> name.
Proof.
  intros H Hi Hu E. apply find_first_none with (j := i) in H; [|done].
  rewrite Hu, E, bytes_eq_refl in H. done.
Qed.

Lemma find_entry_unique h name i :
  names_unique h -> (i < PFS_ENTRY_COUNT)%nat -> pfs_entry_used h i = true ->
  pfs_entry_name h i = name -> pfs_find_entry h name = Some i.
Proof.
  intros Hu Hi Hused Hn. destruct (pfs_find_entry h name) as [j|] eqn:E.
  - apply find_entry_spec in E as (Hj & Hused' & Hn'). f_equal. apply Hu; congruence.
  - exfalso. by eapply find_entry_none.
Qed.

Lemma free_entry_spec h i :
  pfs_free_entry h = Some i -> (i < PFS_ENTRY_COUNT)%nat /\ pfs_entry_used h i = false.
Proof.
  intros H. apply find_first_some in H as (Hi & Hp & _). split; [done|].
  by apply negb_true_iff.
Qed.

(** Two headers whose entries agree except at [i]. *)
Definition agree_except (h1 h2 : arr) (i : nat) : Prop :=
  forall j, (j < PFS_ENTRY_COUNT)%nat -> j <> i -> entry_agree h1 h2 j.

Section Except.

Context (h h' : arr) (i : nat).
Context (Hfit : names_fit h) (Hex : agree_except h' h i).

Lemma except_used j :
  (j < PFS_ENTRY_COUNT)%nat -> j <> i -> pfs_entry_used h' j = pfs_entry_used h j.
Proof. intros. by apply used_agree, Hex. Qed.

Lemma except_fits j : (j < PFS_ENTRY_COUNT)%nat -> j <> i -> name_fits h' j.
Proof. intros. apply (name_fits_agree h); [by apply entry_agree_sym, Hex|auto]. Qed.

Lemma except_view j :
  (j < PFS_ENTRY_COUNT)%nat -> j <> i -> pfs_view h' j = pfs_view h j.
Proof. intros. apply view_agree; [by apply Hex|by apply except_fits]. Qed.

Lemma except_name j :
  (j < PFS_ENTRY_COUNT)%nat -> j <> i -> pfs_entry_name h' j = pfs_entry_name h j.
Proof. intros. rewrite !view_name, except_view; done. Qed.

(** Clearing [i]. *)
Lemma except_unique_cleared :
  names_unique h -> pfs_entry_used h' i = false -> names_unique h'.
Proof.
  intros Hu Hi a b Ha Hb Hua Hub Hab.
  assert (a <> i) by congruence. assert (b <> i) by congruence.
  rewrite except_used in Hua, Hub by done. rewrite !except_name in Hab by done. auto.
Qed.

(** Entry [i] rewritten under a name no other entry has. *)
Lemma except_unique_named name :
  names_unique h -> pfs_entry_name h' i = name ->
  (forall j, (j < PFS_ENTRY_COUNT)%nat -> j <> i -> pfs_entry_used h j = true ->
             pfs_entry_name h j <> name) ->
  names_unique h'.
Proof.
  intros Hu Hi Hfresh a b Ha Hb Hua Hub Hab.
  destruct (decide (a = i)) as [->|Na], (decide (b = i)) as [->|Nb]; try done.
  - exfalso. rewrite except_used in Hub by done. apply (Hfresh b); try done.
    rewrite <- except_name by done. congruence.
  - exfalso. rewrite except_used in Hua by done. apply (Hfresh a); try done.
    rewrite <- except_name by done. congruence.
  - rewrite except_used in Hua, Hub by done. rewrite !except_name in Hab by done. auto.
Qed.

(** A name other than the old and new names of [i] denotes what it did. *)
Lemma except_lookup n :
  names_unique h -> names_unique h' ->
  (pfs_entry_used h i = true -> pfs_entry_name h i <> n) ->
  (pfs_entry_used h' i = true -> pfs_entry_name h' i <> n) ->
  pfs_lookup h' n = pfs_lookup h n.
Proof.
  intros Hu Hu' Ho Hn. unfold pfs_lookup.
  destruct (pfs_find_entry h n) as [j|] eqn:E.
  - apply find_entry_spec in E as (Hj & Hused & Hname).
    assert (j <> i) by (intros ->; by apply Ho).
    rewrite (find_entry_unique h' n j Hu' Hj).
    + by rewrite except_view.
    + by rewrite except_used.
    + by rewrite except_name.
  - destruct (pfs_find_entry h' n) as [j|] eqn:E'; [|done]. exfalso.
    apply find_entry_spec in E' as (Hj & Hused & Hname).
    assert (j <> i) by (intros ->; by apply Hn).
    rewrite except_used in Hused by done. rewrite except_name in Hname by done.
    by eapply find_entry_none.
Qed.

End Except.

Lemma clear_except h i : agree_except (pfs_clear_entry h i) h i.
Proof. intros j Hj Hn. by apply clear_entry_agree. Qed.

Lemma set_except h i name size kind exts created mode now :
  blen name <= PFS_NAME_MAX ->
  agree_except (pfs_set_entry h i name size kind exts created mode now) h i.
Proof. intros Hn j Hj Hne. by apply set_entry_agree. Qed.

Lemma agree_except_fit h h' i :
  names_fit h -> agree_except h' h i -> name_fits h' i -> names_fit h'.
Proof.
  intros Hf Hex Hi j Hj. destruct (decide (j = i)) as [->|Hn]; [done|].
  by apply (except_fits h h' i).
Qed.

(** ** Parents *)

Lemma valid_bytes_no_leading_parent name :
  valid_pfs_path name = true -> blen name <= PFS_NAME_MAX.
Proof. unfold valid_pfs_path. case_goal; [done|]. intros _. lia. Qed.

(** [pfs_parent_exists] asks whether the parent name denotes a directory. *)
Definition parent_of (name : bytes) : option bytes :=
  match find_last_byte name (ch "/") with
  | None => None
  | Some slash => Some (take slash name)
  end.

Lemma parent_exists_mono h h' name :
  pfs_parent_exists h name = true ->
  (forall p v, parent_of name = Some p -> pfs_lookup h p = Some v ->
     v_kind v = PFS_KIND_DIR ->
     exists v', pfs_lookup h' p = Some v' /\ v_kind v' = PFS_KIND_DIR) ->
  pfs_parent_exists h' name = true.
Proof.
  unfold pfs_parent_exists, parent_of, pfs_lookup. intros H Hm.
  destruct (find_last_byte name (ch "/")) as [s|]; [|done].
  destruct (_ || _); [done|].
  destruct (pfs_find_entry h (take s name)) as [j|] eqn:E; [|done].
  rewrite view_is_dir in H. apply Z.eqb_eq in H.
  destruct (Hm (take s name) (pfs_view h j)) as (v' & Hv & Hk); [done|by rewrite E|done|].
  destruct (pfs_find_entry h' (take s name)) as [j'|]; [|done].
  injection Hv as <-. rewrite view_is_dir, Hk. done.
Qed.

(** The parent of a name lies strictly above it. *)
Lemma parent_of_below name p :
  parent_of name = Some p -> pfs_below p name = true.
Proof.
  unfold parent_of. destruct (find_last_byte name (ch "/")) as [s|] eqn:E; [|done].
  intros [= <-]. apply find_last_byte_some in E as (Hl & Hs & _).
  destruct (lookup_lt_is_Some_2 name s Hs) as [x Hx].
  pose proof (take_drop_middle name s x Hx) as Hm.
  assert (x = ch "/") as ->.
  { assert (take s name ++ x :: drop (S s) name = take s name ++ ch "/" :: drop (S s) name)
      as E by congruence.
    apply app_inv_head in E. by injection E. }
  unfold pfs_below. rewrite !andb_true_iff. split_and!.
  - unfold blen. rewrite length_take. apply Z.ltb_lt. lia.
  - apply starts_with_spec. exists (ch "/" :: drop (S s) name). by rewrite Hm.
  - apply Z.eqb_eq. rewrite length_take, Nat.min_l by lia. by apply nth_lookup_Some.
Qed.

Lemma parent_of_neq name p : parent_of name = Some p -> p <> name.
Proof.
  intros H%parent_of_below ->. unfold pfs_below in H.
  rewrite !andb_true_iff in H. lia.
Qed.

Lemma dir_empty_spec h dir :
  pfs_dir_empty h dir = true <->
  forall i, (i < PFS_ENTRY_COUNT)%nat -> pfs_entry_used h i = true ->
            pfs_below dir (pfs_entry_name h i) = false.
Proof.
  unfold pfs_dir_empty.
  destruct (find_first _ PFS_ENTRY_COUNT) as [i|] eqn:E.
  - split; [done|]. intros H. apply find_first_some in E as (Hi & Hp & _).
    apply andb_true_iff in Hp as [Hu Hb]. rewrite H in Hb by done. done.
  - split; [|done]. intros _ i Hi Hu.
    apply find_first_none with (j := i) in E; [|done]. rewrite Hu in E. done.
Qed.

Lemma lookup_dir_of_find h name i :
  pfs_find_entry h name = Some i -> pfs_lookup h name = Some (pfs_view h i).
Proof. unfold pfs_lookup. by intros ->. Qed.

(** ** Operations *)

Lemma unlink_ok h name h' :
  names_unique h -> names_fit h -> pfs_unlink_header h name = inr h' ->
  exists i, pfs_find_entry h name = Some i /\ h' = pfs_clear_entry h i /\
    (pfs_entry_is_dir h i = true -> pfs_dir_empty h name = true).
Proof.
  unfold pfs_unlink_header. intros Hu Hf H.
  destruct (pfs_find_entry h name) as [i|] eqn:E; [|done].
  destruct (pfs_entry_is_dir h i) eqn:Ed; simpl in H.
  - destruct (pfs_dir_empty h name) eqn:Ee; simpl in H; [|done]. injection H as <-. eauto.
  - injection H as <-. exists i. split_and!; congruence.
Qed.

Lemma clear_unique h i : names_fit h -> names_unique h -> names_unique (pfs_clear_entry h i).
Proof.
  intros Hf Hu. apply (except_unique_cleared h _ i); try done; [apply clear_except|].
  apply clear_entry_unused.
Qed.

Lemma clear_fit h i : names_fit h -> names_fit (pfs_clear_entry h i).
Proof.
  intros Hf. apply (agree_except_fit h _ i); [done|apply clear_except|].
  apply clear_entry_name_fits.
Qed.

Lemma clear_lookup_same h name i :
  names_unique h -> names_fit h -> pfs_find_entry h name = Some i ->
  pfs_lookup (pfs_clear_entry h i) name = None.
Proof.
  intros Hu Hf E. apply find_entry_spec in E as (Hi & Hused & Hname).
  unfold pfs_lookup. destruct (pfs_find_entry (pfs_clear_entry h i) name) as [j|] eqn:E'; [|done].
  exfalso. apply find_entry_spec in E' as (Hj & Hused' & Hname').
  assert (j <> i) by (intros ->; by rewrite clear_entry_unused in Hused').
  rewrite (except_used h _ i (clear_except h i)) in Hused' by done.
  rewrite (except_name h _ i Hf (clear_except h i)) in Hname' by done.
  assert (j = i) by (apply Hu; congruence). done.
Qed.

Lemma clear_lookup_other h name i n :
  names_unique h -> names_fit h -> pfs_find_entry h name = Some i -> n <> name ->
  pfs_lookup (pfs_clear_entry h i) n = pfs_lookup h n.
Proof.
  intros Hu Hf E Hn. apply find_entry_spec in E as (Hi & Hused & Hname).
  apply (except_lookup h _ i); auto using clear_except, clear_unique.
  - congruence.
  - rewrite clear_entry_unused. done.
Qed.

(** Clearing an entry nothing lies below keeps the invariant. *)
Lemma clear_wf h name i :
  dir_wf h -> pfs_find_entry h name = Some i ->
  (forall j, (j < PFS_ENTRY_COUNT)%nat -> pfs_entry_used h j = true ->
     parent_of (pfs_entry_name h j) <> Some name) ->
  dir_wf (pfs_clear_entry h i).
Proof.
  intros [Hf Hu Hv Hp] E Hb. pose proof (clear_except h i) as Hex.
  assert (Hused : forall j, pfs_entry_used (pfs_clear_entry h i) j = true -> j <> i).
  { intros j Hj ->. by rewrite clear_entry_unused in Hj. }
  split.
  - by apply clear_fit.
  - by apply clear_unique.
  - intros j Hj Huj. pose proof (Hused j Huj) as Hne.
    rewrite (except_used h _ i Hex) in Huj by done.
    rewrite (except_name h _ i Hf Hex) by done. auto.
  - intros j Hj Huj. pose proof (Hused j Huj) as Hne.
    rewrite (except_used h _ i Hex) in Huj by done.
    rewrite (except_name h _ i Hf Hex) by done.
    apply (parent_exists_mono h); [auto|]. intros p v Hpar Hl Hk. exists v. split; [|done].
    rewrite (clear_lookup_other h name i); try done.
    intros ->. by apply (Hb j Hj Huj).
Qed.

(** In a well-formed directory a file is no entry's parent, and an empty
    directory is none either. *)
Lemma not_parent_of_entry h name i :
  dir_wf h -> pfs_find_entry h name = Some i ->
  (pfs_entry_is_dir h i = true -> pfs_dir_empty h name = true) ->
  forall j, (j < PFS_ENTRY_COUNT)%nat -> pfs_entry_used h j = true ->
    parent_of (pfs_entry_name h j) <> Some name.
Proof.
  intros [Hf Hu Hv Hp] E He j Hj Hused Hpar.
  destruct (pfs_entry_is_dir h i) eqn:Ed.
  - pose proof (proj1 (dir_empty_spec h name) (He eq_refl) j Hj Hused) as Hb.
    by rewrite (parent_of_below _ _ Hpar) in Hb.
  - specialize (Hp j Hj Hused). unfold pfs_parent_exists, parent_of in *.
    destruct (find_last_byte _ _) as [s|]; [|done].
    injection Hpar as Hpar. rewrite Hpar, E, Ed in Hp. by destruct (_ || _).
Qed.

Lemma unlink_wf h name h' :
  dir_wf h -> pfs_unlink_header h name = inr h' -> dir_wf h'.
Proof.
  intros Hwf H. pose proof Hwf as [Hf Hu Hv Hp].
  apply unlink_ok in H as (i & E & -> & He); [|done|done].
  eapply clear_wf; eauto using not_parent_of_entry.
Qed.

(** ** Writing an entry under a fresh name *)

Section SetFresh.

Context (h : arr) (i : nat) (name : bytes) (size kind : Z) (exts : list PfsExtent).
Context (created mode now : Z).
Context (Hwf : dir_wf h) (Hi : (i < PFS_ENTRY_COUNT)%nat).
Context (Hfits : entry_fits name size kind exts created mode now).
Context (Hkind : kind <> 0).
Context (Hfresh : pfs_find_entry h name = None).

Let h' := pfs_set_entry h i name size kind exts created mode now.

Lemma fresh_except : agree_except h' h i.
Proof using Hfits. apply set_except. apply Hfits. Qed.

Lemma fresh_view : pfs_view h' i = mkView kind name size exts created now mode.
Proof using Hfits. by apply set_entry_view. Qed.

Lemma fresh_used : pfs_entry_used h' i = true.
Proof using Hfits Hkind. rewrite view_used, fresh_view. simpl. by apply negb_true_iff, Z.eqb_neq. Qed.

Lemma fresh_unique : names_unique h'.
Proof using Hwf Hfits Hfresh.
  apply (except_unique_named h _ i (wf_fit _ Hwf) fresh_except name).
  - apply Hwf.
  - by rewrite view_name, fresh_view.
  - intros j Hj _ Hused. by eapply find_entry_none.
Qed.

Lemma fresh_lookup_new :
  pfs_lookup h' name = Some (mkView kind name size exts created now mode).
Proof using Hwf Hi Hfits Hkind Hfresh.
  unfold pfs_lookup. rewrite (find_entry_unique h' name i fresh_unique Hi fresh_used).
  - by rewrite fresh_view.
  - by rewrite view_name, fresh_view.
Qed.

Lemma fresh_lookup_other n :
  n <> name -> (pfs_entry_used h i = true -> pfs_entry_name h i <> n) ->
  pfs_lookup h' n = pfs_lookup h n.
Proof using Hwf Hfits Hfresh.
  intros Hn Ho. apply (except_lookup h h' i); auto using fresh_unique, fresh_except.
  - apply Hwf.
  - apply Hwf.
  - intros _. rewrite view_name, fresh_view. simpl. congruence.
Qed.

(** The invariant is kept when the new name is a valid path in an existing
    directory other than the entry's own old name, and the old name is no
    entry's parent. *)
Lemma fresh_wf :
  valid_pfs_path name = true -> pfs_parent_exists h name = true ->
  (pfs_entry_used h i = true -> parent_of name <> Some (pfs_entry_name h i)) ->
  (pfs_entry_used h i = true -> forall j, (j < PFS_ENTRY_COUNT)%nat ->
     pfs_entry_used h j = true -> parent_of (pfs_entry_name h j) <> Some (pfs_entry_name h i)) ->
  dir_wf h'.
Proof using Hwf Hi Hfits Hkind Hfresh.
  intros Hvalid Hpar Hself Hbelow.
  assert (Hmono : forall n, pfs_parent_exists h n = true ->
    (pfs_entry_used h i = true -> parent_of n <> Some (pfs_entry_name h i)) ->
    pfs_parent_exists h' n = true).
  { intros n Hn Hne. apply (parent_exists_mono h); [done|]. intros p v Hp Hl Hk.
    exists v. split; [|done]. rewrite fresh_lookup_other; [done| |].
    - intros ->. unfold pfs_lookup in Hl. by rewrite Hfresh in Hl.
    - intros Hused E. subst p. by apply Hne. }
  pose proof (wf_fit _ Hwf) as Hf. pose proof fresh_except as Hex.
  split.
  - apply (agree_except_fit h _ i); try done. apply set_entry_name_fits, Hfits.
  - apply fresh_unique.
  - intros j Hj Hused. destruct (decide (j = i)) as [->|Hne].
    + by rewrite view_name, fresh_view.
    + rewrite (except_used h _ i Hex) in Hused by done.
      rewrite (except_name h _ i Hf Hex) by done. by apply Hwf.
  - intros j Hj Hused. destruct (decide (j = i)) as [->|Hne].
    + rewrite view_name, fresh_view. by apply Hmono.
    + rewrite (except_used h _ i Hex) in Hused by done.
      rewrite (except_name h _ i Hf Hex) by done. apply Hmono; [by apply Hwf|].
      intros Hu'. by apply Hbelow.
Qed.

End SetFresh.

(** ** Rename and create *)

Lemma rename_ok h old new now h' :
  pfs_rename_header h old new now = inr h' ->
  exists i, valid_pfs_path old = true /\ valid_pfs_path new = true /\
    pfs_find_entry h old = Some i /\ pfs_find_entry h new = None /\
    pfs_parent_exists h new = true /\
    (pfs_entry_is_dir h i = true -> pfs_dir_empty h old = true) /\
    h' = pfs_set_entry h i new (pfs_entry_size h i) (pfs_entry_kind h i)
           (pfs_entry_extents h i) (pfs_entry_created h i) (pfs_entry_mode h i) now.
Proof.
  unfold pfs_rename_header. intros H.
  destruct (valid_pfs_path old); simpl in H; [|done].
  destruct (valid_pfs_path new); simpl in H; [|done].
  destruct (pfs_find_entry h old) as [i|]; [|done].
  destruct (pfs_find_entry h new); [done|].
  destruct (pfs_parent_exists h new); simpl in H; [|done].
  exists i. destruct (pfs_entry_is_dir h i); simpl in H.
  - destruct (pfs_dir_empty h old); simpl in H; [|done]. by injection H as <-.
  - by injection H as <-.
Qed.

Lemma used_kind h i : pfs_entry_used h i = true -> pfs_entry_kind h i <> 0.
Proof. unfold pfs_entry_used, pfs_entry_kind. intros H E. by rewrite E in H. Qed.

Lemma rename_lookups h old new now h' :
  dir_wf h -> header_bytes h -> is_u64 now -> pfs_rename_header h old new now = inr h' ->
  pfs_lookup h' old = None /\
  (exists v, pfs_lookup h old = Some v /\
     pfs_lookup h' new = Some (mkView (v_kind v) new (v_size v) (v_extents v)
                                 (v_created v) now (v_mode v))) /\
  (forall n, n <> old -> n <> new -> pfs_lookup h' n = pfs_lookup h n).
Proof.
  intros Hwf Hb Hnow H. apply rename_ok in H as (i & Vo & Vn & Eo & En & _ & _ & ->).
  pose proof (find_entry_spec _ _ _ Eo) as (Hi & Hused & Hname).
  pose proof (entry_fits_reread h i new now Hb Hi
                (valid_bytes_no_leading_parent new Vn) Hnow) as Hfits.
  pose proof (used_kind h i Hused) as Hk. split_and!.
  - unfold pfs_lookup. destruct (pfs_find_entry (pfs_set_entry _ _ _ _ _ _ _ _ _) old)
      as [j|] eqn:E; [|done]. exfalso.
    apply find_entry_spec in E as (Hj & Hused' & Hname').
    pose proof (fresh_except h i new _ _ _ _ _ now Hfits) as Hex.
    destruct (decide (j = i)) as [->|Hne].
    + rewrite view_name, (fresh_view h i new _ _ _ _ _ now Hfits) in Hname'. simpl in Hname'.
      subst new. by rewrite Eo in En.
    + rewrite (except_used h _ i Hex) in Hused' by done.
      rewrite (except_name h _ i (wf_fit _ Hwf) Hex) in Hname' by done.
      apply Hne. apply (wf_unique _ Hwf); congruence.
  - exists (pfs_view h i). split; [by apply lookup_dir_of_find|].
    by apply fresh_lookup_new.
  - intros n Ho Hn. apply fresh_lookup_other; try done. congruence.
Qed.

Lemma rename_keeps_wf h old new now h' :
  dir_wf h -> header_bytes h -> is_u64 now -> pfs_rename_header h old new now = inr h' ->
  (forall v, pfs_lookup h old = Some v -> v_kind v = PFS_KIND_DIR -> pfs_below old new = false) ->
  dir_wf h'.
Proof.
  intros Hwf Hb Hnow H Hself. apply rename_ok in H as (i & Vo & Vn & Eo & En & Hp & He & ->).
  pose proof (find_entry_spec _ _ _ Eo) as (Hi & Hused & Hname).
  apply fresh_wf; auto using used_kind, valid_bytes_no_leading_parent, entry_fits_reread.
  - intros _ Hpar. rewrite Hname in Hpar.
    assert (Hd : pfs_entry_is_dir h i = true).
    { unfold pfs_parent_exists, parent_of in *.
      destruct (find_last_byte new (ch "/")) as [s|]; [|done].
      injection Hpar as Hpar. rewrite Hpar, Eo in Hp. by destruct (_ || _). }
    pose proof (Hself _ (lookup_dir_of_find _ _ _ Eo)) as Hs.
    rewrite view_is_dir in Hd. apply Z.eqb_eq in Hd.
    by rewrite (parent_of_below _ _ Hpar) in Hs; specialize (Hs Hd).
  - intros _ j Hj Hu. rewrite Hname. by apply (not_parent_of_entry h old i Hwf Eo He).
Qed.

Lemma create_spec h name kind created mode now i h' :
  dir_wf h -> valid_pfs_path name = true -> pfs_parent_exists h name = true ->
  pfs_find_entry h name = None -> kind <> 0 -> is_u64 created -> is_u64 now ->
  pfs_create_header h name kind created mode now = Some (i, h') ->
  dir_wf h' /\ pfs_find_entry h' name = Some i /\
  pfs_lookup h' name = Some (mkView kind name 0 [] created now mode) /\
  (forall n, n <> name -> pfs_lookup h' n = pfs_lookup h n).
Proof.
  intros Hwf Hv Hp Hn Hk Hc Hnow H. unfold pfs_create_header in H.
  destruct (pfs_free_entry h) as [i'|] eqn:E; [|done]. injection H as -> <-.
  apply free_entry_spec in E as [Hi Hfree].
  assert (Hfits : entry_fits name 0 kind [] created mode now).
  { split; auto using valid_bytes_no_leading_parent; unfold is_u32, PFS_MAX_EXTENTS;
      simpl; lia. }
  split_and!.
  - apply fresh_wf; try done; intros Hu; congruence.
  - apply find_entry_unique; [by apply fresh_unique|done|by apply fresh_used|].
    by rewrite view_name, fresh_view.
  - by apply fresh_lookup_new.
  - intros n Hne. apply fresh_lookup_other; try done. congruence.
Qed.

(** The header [fsformat] writes. *)
Definition pfs_format_header : arr :=
  let header := blit zeroed 0 (bs "RYMFS5" ++ [0; 0]) in
  let header := aset header 8 5 in
  aset header 9 (u8 (Z.of_nat PFS_ENTRY_COUNT)).

Lemma format_out i : 16 <= i -> pfs_format_header i = 0.
Proof.
  intros H. unfold pfs_format_header. rewrite !aset_other by lia.
  assert (E : blen (bs "RYMFS5" ++ [0; 0]) = 8) by reflexivity.
  rewrite blit_out; [done|]. right. rewrite E. lia.
Qed.

Lemma entry_offset_ge16 i : 16 <= pfs_entry_offset i.
Proof. unfold pfs_entry_offset. pfs_const. lia. Qed.

Lemma format_unused i : pfs_entry_used pfs_format_header i = false.
Proof.
  unfold pfs_entry_used. apply negb_false_iff, Z.eqb_eq, format_out, entry_offset_ge16.
Qed.

Lemma format_wf : dir_wf pfs_format_header.
Proof.
  split.
  - intros i Hi. unfold name_fits. pose proof (entry_offset_ge16 i).
    rewrite format_out by lia. pfs_const. lia.
  - intros i j _ _ H. by rewrite format_unused in H.
  - intros i _ H. by rewrite format_unused in H.
  - intros i _ H. by rewrite format_unused in H.
Qed.
