(* ===== verification/PfsAlloc.v ===== *)
(** * The RYMFS5 sector allocator

    [pfs_find_free_run], [pfs_grow_extents], [sectors_for_len] of
    [src/kernel/src/main.rs]: free space is what no other entry's extents
    cover, found first-fit from the end of the file being grown. *)

From S2P Require Import Prelude Constants Text PfsLayout.

Definition sectors_for_len (len : Z) : Z :=
  if len =? 0 then 0 else u32 (u64 (len + 511) / 512).

(** The extents the scan visits, in order: those of every used file entry but
    [skip_index]. *)
Definition pfs_other_extents (header : arr) (skip_index : option nat) : list PfsExtent :=
  concat (map (fun index =>
    if bool_decide (Some index = skip_index) || negb (pfs_entry_used header index)
       || pfs_entry_is_dir header index
    then [] else pfs_entry_extents header index) (seq 0 PFS_ENTRY_COUNT)).

(** One pass over the extents: [inl c] when one covers the candidate ([c] is
    the sector after it), [inr o] with the nearest extent start above. *)
Fixpoint scan_extents (l : list PfsExtent) (candidate : Z) (next_obstacle : option Z)
  : Z + option Z :=
  match l with
  | [] => inr next_obstacle
  | e :: rest =>
      if sectors e =? 0 then scan_extents rest candidate next_obstacle
      else
        let used_end := u32 (start e + sectors e) in
        if (start e <=? candidate) && (candidate <? used_end) then inl used_end
        else
          let closer := match next_obstacle with
                        | None => true
                        | Some current => start e <? current
                        end in
          scan_extents rest candidate
            (if (candidate <? start e) && closer then Some (start e) else next_obstacle)
  end.

(** One round of the [loop] of [pfs_find_free_run]. *)
Definition free_run_round (others : list PfsExtent) (max_len candidate : Z)
  : Z + option (Z * Z) :=
  if PFS_DISK_SECTORS <=? candidate then inr None
  else match scan_extents others candidate None with
  | inl used_end => inl used_end
  | inr next_obstacle =>
      let end_bound := Z.min (default PFS_DISK_SECTORS next_obstacle) PFS_DISK_SECTORS in
      if end_bound <=? candidate then inr None
      else
        let take := Z.min (end_bound - candidate) max_len in
        if take =? 0 then inr None else inr (Some (candidate, take))
  end.

(** Every blocked round moves the candidate up, and a candidate past the disk
    leaves, so [PFS_DISK_SECTORS + 1] rounds are enough. *)
Definition free_run (others : list PfsExtent) (start_from max_len : Z) : option (Z * Z) :=
  match loop_pos (Z.to_pos (PFS_DISK_SECTORS + 1)) (free_run_round others max_len) start_from with
  | inr r => r
  | inl _ => None
  end.

Definition pfs_find_free_run (header : arr) (start_from max_len : Z)
    (skip_index : option nat) : option (Z * Z) :=
  free_run (pfs_other_extents header skip_index) start_from max_len.

(** [extents[count - 1].sectors += run_len] or a new slot. *)
Definition place_run (extents : list PfsExtent) (run_start run_len : Z)
  : option (list PfsExtent) :=
  match last extents with
  | Some e =>
      if run_start =? u32 (start e + sectors e)
      then Some (take (length extents - 1) extents
                 ++ [mkExtent (start e) (u32 (sectors e + run_len))])
      else if Nat.leb PFS_MAX_EXTENTS (length extents) then None
      else Some (extents ++ [mkExtent run_start run_len])
  | None => Some [mkExtent run_start run_len]
  end.

(** One round of the [while remaining > 0] of [pfs_grow_extents]. *)
Definition grow_round (others : list PfsExtent) (st : list PfsExtent * Z * Z)
  : (list PfsExtent * Z * Z) + option (list PfsExtent) :=
  let '(extents, remaining, search_from) := st in
  if 0 <? remaining then
    match free_run others search_from remaining with
    | None => inr None
    | Some (run_start, run_len) =>
        match place_run extents run_start run_len with
        | None => inr None
        | Some extents' =>
            inl (extents', remaining - run_len, u32 (run_start + run_len))
        end
    end
  else inr (Some extents).

Definition grow_search_from (extents : list PfsExtent) : Z :=
  match last extents with
  | Some e => u32 (start e + sectors e)
  | None => PFS_DATA_START
  end.

(** [pfs_grow_extents]: the extents after growth, or [None] for [false]. Each
    round takes at least one sector. *)
Definition grow_extents (others extents : list PfsExtent) (additional_sectors : Z)
  : option (list PfsExtent) :=
  match loop_pos (Z.to_pos (additional_sectors + 1)) (grow_round others)
          (extents, additional_sectors, grow_search_from extents) with
  | inr r => r
  | inl _ => None
  end.

Definition pfs_grow_extents (header : arr) (extents : list PfsExtent)
    (additional_sectors : Z) (skip_index : option nat) : option (list PfsExtent) :=
  grow_extents (pfs_other_extents header skip_index) extents additional_sectors.

(** ** Vocabulary of the specification *)

(** Sector [s] lies in one of the extents. *)
Definition covered (l : list PfsExtent) (s : Z) : Prop :=
  exists e, e ∈ l /\ start e <= s < start e + sectors e.

(** No extent's end wraps around. *)
Definition no_wrap (l : list PfsExtent) : Prop :=
  Forall (fun e => 0 <= start e /\ 0 <= sectors e /\ start e + sectors e < 4294967296) l.

(** Ascending, non-empty, gap-or-adjacent extents between [lo] and the end of
    the disk: the shape of one file's extent list. *)
Fixpoint chain (lo : Z) (l : list PfsExtent) : Prop :=
  match l with
  | [] => lo <= PFS_DISK_SECTORS
  | e :: r => lo <= start e /\ 0 < sectors e /\ chain (start e + sectors e) r
  end.

Definition total_sectors (l : list PfsExtent) : Z :=
  fold_right (fun e t => sectors e + t) 0 l.

Fixpoint chain_end (lo : Z) (l : list PfsExtent) : Z :=
  match l with
  | [] => lo
  | e :: r => chain_end (start e + sectors e) r
  end.

(** ** The scan *)

(** The result of a scan that starts with the obstacle [o]: an end of an extent that
    holds the candidate, or the nearest obstacle above it. *)
Definition scan_post (l : list PfsExtent) (candidate : Z) (o : option Z) (r : Z + option Z) : Prop :=
  match r with
  | inl c => candidate < c /\ (forall s, candidate <= s < c -> covered l s)
  | inr o' =>
      (forall s, candidate <= s -> (forall b, o = Some b -> s < b) ->
                 (forall b, o' = Some b -> s < b) -> ~ covered l s) /\
      (forall b, o' = Some b -> o = Some b \/ (candidate < b /\ covered l b)) /\
      (forall b b', o = Some b -> o' = Some b' -> b' <= b) /\
      (is_Some o -> is_Some o')
  end.

Lemma covered_tail e l s : covered l s -> covered (e :: l) s.
Proof. intros (e' & He & Hs). exists e'. split; [by right|done]. Qed.

(** An extent without sectors covers nothing. *)
Lemma scan_empty e l candidate o r : sectors e = 0 -> scan_post l candidate o r -> scan_post (e :: l) candidate o r.
Proof.
  intros Hz. destruct r as [c|o']; simpl.
  - intros [H1 H2]. auto using covered_tail.
  - intros (H1 & H2 & H3 & H4). split_and!; auto.
    + intros s Hs Ho Ho' (e' & He & Hr). apply elem_of_cons in He as [->|He]; [lia|].
      eapply H1; eauto. by exists e'.
    + intros b Hb. destruct (H2 b Hb) as [|[]]; auto using covered_tail.
Qed.

(** The obstacle after an extent that does not hold the candidate. *)
Definition nearer (e : PfsExtent) (candidate : Z) (o o1 : option Z) : Prop :=
  (o1 = o /\ (start e <= candidate \/ exists b, o = Some b /\ b <= start e)) \/
  (o1 = Some (start e) /\ candidate < start e /\ forall b, o = Some b -> start e <= b).

Lemma nearer_step e candidate o :
  nearer e candidate o
    (if (candidate <? start e) && match o with Some b => start e <? b | None => true end
     then Some (start e) else o).
Proof.
  unfold nearer. destruct o as [b|].
  - destruct ((candidate <? start e) && (start e <? b)) eqn:E1.
    + right. split_and!; [done|lia|]. intros ? [= <-]. lia.
    + left. split; [done|]. destruct (decide (start e <= candidate)); [by left|].
      right. exists b. split; [done|lia].
  - rewrite andb_true_r. destruct (candidate <? start e) eqn:E1.
    + right. split_and!; [done|lia|done].
    + left. split; [done|]. left. lia.
Qed.

(** The scan of the rest from the nearer obstacle is a scan of the whole. *)
Lemma scan_nearer e l candidate o o1 r :
  0 < sectors e -> ~ (start e <= candidate < start e + sectors e) -> nearer e candidate o o1 ->
  scan_post l candidate o1 r -> scan_post (e :: l) candidate o r.
Proof.
  intros Hz Hout Hn. destruct r as [c|o']; simpl; [intros [H1 H2]; auto using covered_tail|].
  intros (H1 & H2 & H3 & H4).
  assert (Hle : forall b, o1 = Some b -> exists b', o' = Some b' /\ b' <= b).
  { intros b Hb. destruct (H4 ltac:(eauto)) as [b' Hb']. exists b'. split; [done|]. by apply (H3 b b'). }
  split_and!.
  - intros s Hs Ho Ho' (e' & He & Hr).
    assert (Hb1 : forall b, o1 = Some b -> s < b).
    { intros b Hb. destruct (Hle b Hb) as (b' & Hb' & ?). specialize (Ho' _ Hb'). lia. }
    apply elem_of_cons in He as [->|He].
    + destruct Hn as [[-> [Hc|(b & -> & Hb)]]|(-> & Hc & Hb)]; [lia| |].
      * specialize (Ho b eq_refl). lia.
      * specialize (Hb1 _ eq_refl). lia.
    + apply (H1 s); [done|done|done|by exists e'].
  - intros b Hb. destruct (H2 b Hb) as [Hl|[Hl Hc]]; [|auto using covered_tail].
    destruct Hn as [[-> _]|(-> & Hlt & _)]; [by left|].
    injection Hl as <-. right. split; [done|]. exists e. split; [left|lia].
  - intros b b' -> Hb'. destruct Hn as [[E1 _]|(E1 & Hlt & Hle')]; [by apply (H3 b b')|].
    etransitivity; [by apply (H3 (start e) b')|by apply Hle'].
  - intros [b ->]. apply H4. destruct Hn as [[-> _]|(-> & _)]; eauto.
Qed.

Lemma scan_extents_spec l candidate o :
  no_wrap l -> scan_post l candidate o (scan_extents l candidate o).
Proof.
  revert o. induction l as [|e l IH]; intros o Hw; cbn [scan_extents].
  - split_and!; try done.
    + intros s _ _ _ (e & He & _). inv He.
    + intros b ->. by left.
    + intros b b' -> [= ->]. lia.
  - apply Forall_cons in Hw as [(H0 & H1 & H2) Hw].
    assert (Hend : u32 (start e + sectors e) = start e + sectors e).
    { unfold u32. apply Z.mod_small. lia. }
    destruct (Z.eqb_spec (sectors e) 0) as [Hz|Hz]; [by apply scan_empty, IH|].
    cbv zeta. rewrite Hend. destruct (_ && _) eqn:E.
    + split; [lia|]. intros s Hs. exists e. split; [left|lia].
    + eapply scan_nearer; [lia|lia|apply nearer_step|by apply IH].
Qed.

(** ** The first-fit search *)

(** What a search from [start_from] promises. *)
Definition free_run_post (others : list PfsExtent) (start_from max_len : Z)
    (r : option (Z * Z)) : Prop :=
  match r with
  | Some (s, n) =>
      start_from <= s /\ 0 < n <= max_len /\ s + n <= PFS_DISK_SECTORS /\
      (forall x, s <= x < s + n -> ~ covered others x) /\
      (forall x, start_from <= x < s -> covered others x) /\
      (n = max_len \/ s + n = PFS_DISK_SECTORS \/ covered others (s + n))
  | None => forall x, start_from <= x < PFS_DISK_SECTORS -> covered others x
  end.

Lemma free_run_round_spec others max_len start_from candidate :
  no_wrap others -> 0 < max_len -> start_from <= candidate ->
  (forall x, start_from <= x < candidate -> covered others x) ->
  match free_run_round others max_len candidate with
  | inl c => candidate < c /\ candidate < PFS_DISK_SECTORS /\
             (forall x, start_from <= x < c -> covered others x)
  | inr r => free_run_post others start_from max_len r
  end.
Proof.
  intros Hw Hm Hc Hcov. unfold free_run_round.
  destruct (Z.leb_spec PFS_DISK_SECTORS candidate) as [Hd|Hd].
  { simpl. intros x Hx. apply Hcov. lia. }
  pose proof (scan_extents_spec others candidate None Hw) as H.
  destruct (scan_extents others candidate None) as [c|o].
  { destruct H as [H1 H2]. split_and!; try lia. intros x Hx.
    destruct (decide (x < candidate)); [apply Hcov|apply H2]; lia. }
  destruct H as (H1 & H2 & _ & _).
  assert (Ho : forall b, o = Some b -> candidate < b /\ covered others b).
  { intros b Hb. destruct (H2 b Hb); [done|auto]. }
  assert (Hmin : candidate < Z.min (default PFS_DISK_SECTORS o) PFS_DISK_SECTORS).
  { destruct o as [b|]; simpl; [destruct (Ho b eq_refl)|]; lia. }
  destruct (Z.leb_spec (Z.min (default PFS_DISK_SECTORS o) PFS_DISK_SECTORS) candidate); [lia|].
  destruct (Z.eqb_spec (Z.min (Z.min (default PFS_DISK_SECTORS o) PFS_DISK_SECTORS - candidate)
    max_len) 0); [lia|]. simpl. split_and!; try lia.
  - intros x Hx. apply H1; [lia|done|]. intros b ->. simpl in Hx. lia.
  - done.
  - destruct o as [b|]; simpl.
    + destruct (Ho b eq_refl) as [Hb Hcb].
      destruct (Z.min_spec b PFS_DISK_SECTORS) as [[_ E]|[_ E]]; rewrite E;
        match goal with |- context [Z.min ?a max_len] =>
          destruct (Z.min_spec a max_len) as [[_ ->]|[_ ->]] end; auto.
      * right. right. by replace (candidate + (b - candidate)) with b by lia.
      * right. left. lia.
    + rewrite Z.min_id.
      destruct (Z.min_spec (PFS_DISK_SECTORS - candidate) max_len) as [[_ ->]|[_ ->]]; [|auto].
      right. left. lia.
Qed.

Lemma free_run_rounds others start_from max_len p :
  no_wrap others -> 0 < max_len -> 0 <= start_from -> PFS_DISK_SECTORS < Z.pos p ->
  exists r, loop_pos p (free_run_round others max_len) start_from = inr r /\
    free_run_post others start_from max_len r.
Proof.
  intros Hw Hm Hs Hp. apply (loop_pos_total
    (fun c => start_from <= c /\ forall x, start_from <= x < c -> covered others x)
    (fun c => Z.max 0 (PFS_DISK_SECTORS - c))).
  - intros. lia.
  - intros c [Hc Hcov]. pose proof (free_run_round_spec others max_len start_from c Hw Hm Hc Hcov)
      as H. destruct (free_run_round others max_len c) as [c'|r]; [|done].
    destruct H as (H1 & H2 & H3). split_and!; try lia. done.
  - split; [lia|]. intros. lia.
  - lia.
Qed.

Lemma free_run_spec others start_from max_len :
  no_wrap others -> 0 < max_len -> 0 <= start_from ->
  free_run_post others start_from max_len (free_run others start_from max_len).
Proof.
  intros Hw Hm Hs. unfold free_run.
  destruct (free_run_rounds others start_from max_len (Z.to_pos (PFS_DISK_SECTORS + 1)) Hw Hm Hs)
    as (r & -> & Hr); [unfold PFS_DISK_SECTORS; lia|done].
Qed.

(** The search leaves its loop, with the same answer for every bound. *)
Lemma free_run_leaves others start_from max_len p :
  no_wrap others -> 0 < max_len -> 0 <= start_from -> PFS_DISK_SECTORS < Z.pos p ->
  loop_pos p (free_run_round others max_len) start_from = inr (free_run others start_from max_len).
Proof.
  intros Hw Hm Hs Hp. unfold free_run.
  destruct (free_run_rounds others start_from max_len p Hw Hm Hs Hp) as (r & E & _).
  destruct (free_run_rounds others start_from max_len (Z.to_pos (PFS_DISK_SECTORS + 1)) Hw Hm Hs)
    as (r' & E' & _); [unfold PFS_DISK_SECTORS; lia|].
  rewrite E, E'. f_equal. exact (loop_pos_agree _ _ _ _ _ _ E E').
Qed.

(** ** Chains of extents *)

Lemma chain_bounds lo l :
  chain lo l -> lo <= chain_end lo l <= PFS_DISK_SECTORS /\
  chain_end lo l - lo >= total_sectors l /\ 0 <= total_sectors l.
Proof.
  revert lo. induction l as [|e l IH]; intros lo; simpl; [lia|].
  intros (H1 & H2 & H3). apply IH in H3. unfold total_sectors in *. lia.
Qed.

Lemma chain_app lo l1 l2 :
  chain lo (l1 ++ l2) <-> chain lo l1 /\ chain (chain_end lo l1) l2.
Proof.
  revert lo. induction l1 as [|e l1 IH]; intros lo; simpl.
  - split; [|naive_solver]. intros H. split; [|done]. apply chain_bounds in H. lia.
  - rewrite IH. naive_solver.
Qed.

Lemma chain_end_app lo l1 l2 : chain_end lo (l1 ++ l2) = chain_end (chain_end lo l1) l2.
Proof. revert lo. induction l1 as [|e l1 IH]; intros lo; simpl; auto. Qed.

Lemma chain_end_last lo l e : last l = Some e -> chain_end lo l = start e + sectors e.
Proof.
  intros H. apply last_Some in H as [l' ->]. by rewrite chain_end_app.
Qed.

Lemma total_sectors_app l1 l2 :
  total_sectors (l1 ++ l2) = total_sectors l1 + total_sectors l2.
Proof. unfold total_sectors. induction l1 as [|e l1 IH]; simpl; lia. Qed.

Lemma covered_app l1 l2 s : covered (l1 ++ l2) s <-> covered l1 s \/ covered l2 s.
Proof.
  unfold covered. setoid_rewrite elem_of_app. naive_solver.
Qed.

Lemma covered_cons e l s :
  covered (e :: l) s <-> start e <= s < start e + sectors e \/ covered l s.
Proof. unfold covered. setoid_rewrite elem_of_cons. naive_solver. Qed.

Lemma covered_nil s : ~ covered [] s.
Proof. intros (e & He & _). inv He. Qed.

Lemma chain_covered lo l s : chain lo l -> covered l s -> lo <= s < chain_end lo l.
Proof.
  revert lo. induction l as [|e l IH]; intros lo H Hc; [by apply covered_nil in Hc|].
  simpl in *. destruct H as (H1 & H2 & H3). apply covered_cons in Hc as [Hc|Hc].
  - apply chain_bounds in H3. lia.
  - pose proof (IH _ H3 Hc). lia.
Qed.

Lemma chain_no_wrap lo l : 0 <= lo -> chain lo l -> no_wrap l.
Proof.
  revert lo. induction l as [|e l IH]; intros lo Hlo H; [constructor|].
  simpl in H. destruct H as (H1 & H2 & H3). pose proof (chain_bounds _ _ H3).
  unfold PFS_DISK_SECTORS in *. constructor; [lia|]. apply (IH (start e + sectors e)); [lia|done].
Qed.

(** The logical-to-physical map of a chain: increasing, inside the extents,
    defined exactly below the number of allocated sectors. *)
Lemma lba_walk_spec lo l k :
  0 <= lo -> chain lo l -> 0 <= k ->
  match lba_walk l k with
  | Some x => k < total_sectors l /\ covered l x /\ lo + k <= x
  | None => total_sectors l <= k
  end.
Proof.
  revert lo k. induction l as [|e l IH]; intros lo k Hlo H Hk; simpl; [done|].
  simpl in H. destruct H as (H1 & H2 & H3).
  pose proof (chain_bounds _ _ H3) as Hb. unfold PFS_DISK_SECTORS in *.
  destruct (Z.eqb_spec (sectors e) 0); [lia|].
  destruct (Z.ltb_spec k (sectors e)).
  - unfold u32. rewrite Z.mod_small by lia. unfold total_sectors in *. simpl. split_and!; try lia.
    apply covered_cons. left. lia.
  - specialize (IH (start e + sectors e) (k - sectors e) ltac:(lia) H3 ltac:(lia)).
    destruct (lba_walk l (k - sectors e)) as [x|]; unfold total_sectors in *; simpl in *.
    + destruct IH as (I1 & I2 & I3). split_and!; try lia. apply covered_cons. by right.
    + lia.
Qed.

Lemma lba_walk_lt lo l k1 k2 x1 x2 :
  0 <= lo -> chain lo l -> 0 <= k1 < k2 ->
  lba_walk l k1 = Some x1 -> lba_walk l k2 = Some x2 -> x1 < x2.
Proof.
  revert lo k1 k2. induction l as [|e l IH]; intros lo k1 k2 Hlo H Hk; simpl; [done|].
  simpl in H. destruct H as (H1 & H2 & H3).
  pose proof (chain_bounds _ _ H3) as Hb. unfold PFS_DISK_SECTORS in *.
  destruct (Z.eqb_spec (sectors e) 0); [lia|].
  destruct (Z.ltb_spec k1 (sectors e)), (Z.ltb_spec k2 (sectors e)); intros E1 E2.
  - unfold u32 in *. rewrite Z.mod_small in E1, E2 by lia. injection E1 as <-.
    injection E2 as <-. lia.
  - unfold u32 in E1. rewrite Z.mod_small in E1 by lia. injection E1 as <-.
    pose proof (lba_walk_spec (start e + sectors e) l (k2 - sectors e) ltac:(lia) H3 ltac:(lia))
      as Hs. rewrite E2 in Hs. lia.
  - lia.
  - apply (IH (start e + sectors e) (k1 - sectors e) (k2 - sectors e)); try done; lia.
Qed.

Lemma lba_walk_inj lo l k1 k2 x :
  0 <= lo -> chain lo l -> 0 <= k1 -> 0 <= k2 ->
  lba_walk l k1 = Some x -> lba_walk l k2 = Some x -> k1 = k2.
Proof.
  intros Hlo H H1 H2 E1 E2. destruct (Z.lt_trichotomy k1 k2) as [Hlt|[->|Hlt]]; [|done|].
  - pose proof (lba_walk_lt lo l k1 k2 x x Hlo H ltac:(lia) E1 E2). lia.
  - pose proof (lba_walk_lt lo l k2 k1 x x Hlo H ltac:(lia) E2 E1). lia.
Qed.

(** Growing a list at its end keeps the map of the old sectors. *)
Lemma lba_walk_app l1 l2 k x :
  lba_walk l1 k = Some x -> lba_walk (l1 ++ l2) k = Some x.
Proof.
  revert k. induction l1 as [|e l1 IH]; intros k; simpl; [done|].
  destruct (sectors e =? 0); [auto|]. destruct (k <? sectors e); [done|]. auto.
Qed.

Lemma keeps_map_total l l' :
  chain PFS_DATA_START l -> chain PFS_DATA_START l' ->
  (forall k x, 0 <= k -> lba_walk l k = Some x -> lba_walk l' k = Some x) ->
  total_sectors l <= total_sectors l'.
Proof.
  intros Hc Hc' Hm. destruct (Z.le_gt_cases (total_sectors l) (total_sectors l')) as [|Hgt]; [done|].
  pose proof PFS_DATA_START_eq. destruct (Z.le_gt_cases 0 (total_sectors l - 1)) as [Hk|Hk].
  - pose proof (lba_walk_spec PFS_DATA_START l (total_sectors l - 1) ltac:(lia) Hc Hk) as H1.
    destruct (lba_walk l _) as [x|] eqn:E; [|lia]. apply Hm in E; [|done].
    pose proof (lba_walk_spec PFS_DATA_START l' (total_sectors l - 1) ltac:(lia) Hc' Hk) as H2.
    rewrite E in H2. lia.
  - assert (0 <= total_sectors l'); [|lia].
    pose proof (lba_walk_spec PFS_DATA_START l' 0 ltac:(lia) Hc' ltac:(lia)). pose proof (chain_bounds _ _ Hc').
    lia.
Qed.

Lemma lba_walk_extend l1 e n k x :
  0 <= sectors e -> 0 <= n -> lba_walk (l1 ++ [e]) k = Some x -> 0 <= k ->
  lba_walk (l1 ++ [mkExtent (start e) (sectors e + n)]) k = Some x.
Proof.
  revert k. induction l1 as [|e1 l1 IH]; intros k Hs Hn; simpl.
  - destruct (Z.eqb_spec (sectors e) 0); [done|].
    destruct (Z.ltb_spec k (sectors e)); [|done]. intros H0 Hk.
    destruct (Z.eqb_spec (sectors e + n) 0); [lia|].
    destruct (Z.ltb_spec k (sectors e + n)); [done|lia].
  - destruct (sectors e1 =? 0); [auto|].
    destruct (Z.ltb_spec k (sectors e1)); [done|]. intros H1 Hk. apply IH; try done. lia.
Qed.

(** ** Growing a file *)

(** [l'] extends [l]: every logical sector keeps its place. *)
Definition keeps_map (l l' : list PfsExtent) : Prop :=
  forall k x, 0 <= k -> lba_walk l k = Some x -> lba_walk l' k = Some x.

Definition run_covers (s n x : Z) : Prop := s <= x < s + n.

Lemma chain_last_end lo l e :
  0 <= lo -> chain lo l -> last l = Some e ->
  u32 (start e + sectors e) = chain_end lo l /\ l = take (length l - 1) l ++ [e].
Proof.
  intros Hlo Hc Hl. pose proof (chain_bounds _ _ Hc) as Hb.
  rewrite (chain_end_last lo l e Hl) in *. unfold PFS_DISK_SECTORS in Hb. split.
  - unfold u32. apply Z.mod_small. lia.
  - apply last_Some in Hl as [l' ->]. rewrite length_app. simpl.
    replace (length l' + 1 - 1)%nat with (length l') by lia. by rewrite take_app_length.
Qed.

Lemma grow_search_from_eq l :
  chain PFS_DATA_START l -> grow_search_from l = chain_end PFS_DATA_START l.
Proof.
  intros Hc. unfold grow_search_from. destruct (last l) as [e|] eqn:E.
  - apply (chain_last_end PFS_DATA_START l e); try done.
  - apply last_None in E. by subst.
Qed.

Lemma place_run_spec l s n :
  chain PFS_DATA_START l -> (length l <= PFS_MAX_EXTENTS)%nat ->
  chain_end PFS_DATA_START l <= s -> 0 < n -> s + n <= PFS_DISK_SECTORS ->
  match place_run l s n with
  | Some l' =>
      chain PFS_DATA_START l' /\ (length l' <= PFS_MAX_EXTENTS)%nat /\
      chain_end PFS_DATA_START l' = s + n /\ total_sectors l' = total_sectors l + n /\
      keeps_map l l' /\
      (forall x, covered l' x <-> covered l x \/ run_covers s n x)
  | None => length l = PFS_MAX_EXTENTS /\ chain_end PFS_DATA_START l < s
  end.
Proof.
  intros Hc Hlen Hs Hn Hd. unfold place_run.
  destruct (last l) as [e|] eqn:E.
  - destruct (chain_last_end PFS_DATA_START l e ltac:(done) Hc E) as [Hend Hl].
    rewrite Hend. set (l0 := take (length l - 1) l) in *.
    destruct (Z.eqb_spec s (chain_end PFS_DATA_START l)) as [Es|Es].
    + rewrite (chain_end_last PFS_DATA_START l e E) in Es.
      rewrite Hl in Hc. apply chain_app in Hc as [Hc1 Hc2]. simpl in Hc2.
      destruct Hc2 as (C1 & C2 & C3). unfold PFS_DISK_SECTORS in *.
      assert (Hw : u32 (sectors e + n) = sectors e + n).
      { unfold u32. apply Z.mod_small. pose proof (chain_bounds _ _ Hc1).
        pose proof PFS_DATA_START_eq. lia. }
      rewrite Hw. split_and!.
      * apply chain_app. split; [done|]. simpl. unfold PFS_DISK_SECTORS. split_and!; lia.
      * rewrite Hl in Hlen. rewrite length_app in *. simpl in *. done.
      * rewrite chain_end_app. simpl. lia.
      * rewrite Hl. rewrite !total_sectors_app. unfold total_sectors. simpl. lia.
      * intros k x Hk Hx. rewrite Hl in Hx. apply lba_walk_extend; try done; lia.
      * intros x. rewrite Hl. rewrite !covered_app, !covered_cons. simpl.
        unfold run_covers. pose proof (covered_nil x). intuition lia.
    + destruct (Nat.leb_spec PFS_MAX_EXTENTS (length l)) as [Hf|Hf]; [split; lia|].
      split_and!.
      * apply chain_app. split; [done|]. simpl. split_and!; lia.
      * rewrite length_app. simpl. lia.
      * rewrite chain_end_app. done.
      * rewrite total_sectors_app. unfold total_sectors. simpl. lia.
      * intros k x _. apply lba_walk_app.
      * intros x. rewrite covered_app, covered_cons. simpl. unfold run_covers.
        pose proof (covered_nil x). intuition lia.
  - apply last_None in E as ->. simpl in *. split_and!; try lia.
    + unfold PFS_MAX_EXTENTS. lia.
    + intros k x _ Hx. done.
    + intros x. rewrite covered_cons. simpl. unfold run_covers.
      pose proof (covered_nil x). intuition lia.
Qed.

(** What growing [l] by [extra] sectors next to [others] promises. *)
Record grown (others l : list PfsExtent) (extra : Z) (l' : list PfsExtent) : Prop := {
  gr_chain : chain PFS_DATA_START l';
  gr_len : (length l' <= PFS_MAX_EXTENTS)%nat;
  gr_total : total_sectors l' = total_sectors l + extra;
  gr_map : keeps_map l l';
  gr_old : forall x, covered l x -> covered l' x;
  gr_new : forall x, covered l' x -> covered l x \/ ~ covered others x
}.

(** Why growth stops short: the disk is full above the file, or the next free
    run is not adjacent and the four slots are taken. *)
Definition grow_stuck (others l' : list PfsExtent) : Prop :=
  (forall x, chain_end PFS_DATA_START l' <= x < PFS_DISK_SECTORS -> covered others x) \/
  (length l' = PFS_MAX_EXTENTS /\ covered others (chain_end PFS_DATA_START l')).

Definition grow_post (others l : list PfsExtent) (extra : Z)
    (r : option (list PfsExtent)) : Prop :=
  match r with
  | Some l' => grown others l extra l'
  | None => exists got l', got < extra /\ grown others l got l' /\ grow_stuck others l'
  end.

Definition grow_inv (others l : list PfsExtent) (extra : Z)
    (st : list PfsExtent * Z * Z) : Prop :=
  let '(l', remaining, from) := st in
  0 <= remaining /\ from = chain_end PFS_DATA_START l' /\ grown others l (extra - remaining) l'.

Lemma grow_round_spec others l extra st :
  no_wrap others -> grow_inv others l extra st ->
  match grow_round others st with
  | inl st' => grow_inv others l extra st' /\ st'.1.2 < st.1.2
  | inr r => grow_post others l extra r
  end.
Proof.
  intros Hw. destruct st as [[l' remaining] from]. intros (Hr & -> & Hg).
  unfold grow_round. destruct (Z.ltb_spec 0 remaining) as [Hpos|Hz].
  2: { simpl. by replace (extra - remaining) with extra in Hg by lia. }
  destruct Hg as [Gc Gl Gt Gm Go Gn].
  pose proof (chain_bounds _ _ Gc) as Hb. pose proof PFS_DATA_START_eq.
  pose proof (free_run_spec others (chain_end PFS_DATA_START l') remaining Hw Hpos
                ltac:(lia)) as Hf.
  destruct (free_run others (chain_end PFS_DATA_START l') remaining) as [[s n]|].
  2: { exists (extra - remaining), l'. split_and!; [lia|by split|by left]. }
  destruct Hf as (F1 & F2 & F3 & F4 & F5 & _).
  pose proof (place_run_spec l' s n Gc Gl F1 ltac:(lia) F3) as Hp.
  destruct (place_run l' s n) as [l''|].
  2: { destruct Hp as [P1 P2]. exists (extra - remaining), l'.
       split_and!; [lia|by split|]. right. split; [done|]. apply F5. lia. }
  destruct Hp as (P1 & P2 & P3 & P4 & P5 & P6). split; [|simpl; lia].
  split_and!; [lia| |].
  - unfold u32, PFS_DISK_SECTORS in *. rewrite Z.mod_small by lia. lia.
  - split; try done.
    + lia.
    + intros k x Hk Hx. apply P5; [done|]. by apply Gm.
    + intros x Hx. apply P6. left. auto.
    + intros x Hx. apply P6 in Hx as [Hx|Hx]; [auto|]. right. apply F4. done.
Qed.

Lemma grow_rounds others l extra p :
  no_wrap others -> chain PFS_DATA_START l -> (length l <= PFS_MAX_EXTENTS)%nat ->
  0 <= extra -> extra < Z.pos p ->
  exists r, loop_pos p (grow_round others) (l, extra, grow_search_from l) = inr r /\ grow_post others l extra r.
Proof.
  intros Hw Hc Hl He Hp. apply (loop_pos_total (grow_inv others l extra) (fun st => st.1.2)).
  - intros [[l' r] f] (H & _). done.
  - intros st Hst. by apply grow_round_spec.
  - split; [done|]. split; [by apply grow_search_from_eq|].
    split; [done|done|lia|by intros k x|by intros x|]. intros x Hx. by left.
  - done.
Qed.

Lemma grow_extents_spec others l extra :
  no_wrap others -> chain PFS_DATA_START l -> (length l <= PFS_MAX_EXTENTS)%nat ->
  0 <= extra -> grow_post others l extra (grow_extents others l extra).
Proof.
  intros Hw Hc Hl He. unfold grow_extents.
  destruct (grow_rounds others l extra (Z.to_pos (extra + 1)) Hw Hc Hl He) as (r & -> & Hr); [lia|done].
Qed.

(** Growth leaves its loop, with the same answer for every bound. *)
Lemma grow_leaves others l extra p :
  no_wrap others -> chain PFS_DATA_START l -> (length l <= PFS_MAX_EXTENTS)%nat ->
  0 <= extra -> extra < Z.pos p ->
  loop_pos p (grow_round others) (l, extra, grow_search_from l) = inr (grow_extents others l extra).
Proof.
  intros Hw Hc Hl He Hp. unfold grow_extents.
  destruct (grow_rounds others l extra p Hw Hc Hl He Hp) as (r & E & _).
  destruct (grow_rounds others l extra (Z.to_pos (extra + 1)) Hw Hc Hl He) as (r' & E' & _); [lia|].
  rewrite E, E'. f_equal. exact (loop_pos_agree _ _ _ _ _ _ E E').
Qed.

#[global] Arguments free_run : simpl never.
#[global] Arguments grow_extents : simpl never.
