(* ===== verification/Device.v ===== *)
(** * The hardware interface of the file system

    What the persistent file system needs from the machine: 512-byte sectors
    behind [ata_read_sector] and [ata_write_sector], the [rdtsc] counter, and
    the boot-time clock calibration. [SectorDev] is the interface, [SectorLaws]
    what it promises; the ATA driver model discharges both. *)

From S2P Require Import Prelude Constants.

(** A machine [D] with a data disk and a time-stamp counter. Operations may
    fail ([None] / [false]) and may change the state of the hardware;
    [sd_contents] is the content of a sector. *)
Class SectorDev (D : Type) : Type := {
  sd_read : Z -> ST D (option arr);
  sd_write : Z -> arr -> ST D bool;
  sd_present : ST D bool;
  sd_tsc : ST D Z;
  sd_contents : D -> Z -> arr;
  (** the disk answers every request *)
  sd_healthy : D -> Prop
}.

Definition sector_eq (a b : arr) : Prop := forall i, 0 <= i < 512 -> a i = b i.

Definition sector_bytes (a : arr) : Prop := forall i, 0 <= i < 512 -> is_u8 (a i).

Definition valid_lba (lba : Z) : Prop := 0 <= lba < PFS_DISK_SECTORS.

(** Same sector contents. *)
Definition same_disk {D} `{SectorDev D} (d d' : D) : Prop :=
  forall lba, sector_eq (sd_contents d lba) (sd_contents d' lba).

Class SectorLaws (D : Type) `{SectorDev D} : Prop := {
  sd_bytes : forall d lba, sector_bytes (sd_contents d lba);
  sd_read_same : forall d lba d' r, sd_read lba d = (d', r) -> same_disk d d';
  sd_read_data : forall d lba d' a, valid_lba lba ->
    sd_read lba d = (d', Some a) -> sector_eq a (sd_contents d lba);
  sd_write_other : forall d lba a d' r lba', valid_lba lba ->
    sd_write lba a d = (d', r) -> lba' <> lba ->
    sector_eq (sd_contents d' lba') (sd_contents d lba');
  sd_write_data : forall d lba a d', valid_lba lba -> sector_bytes a ->
    sd_write lba a d = (d', true) -> sector_eq (sd_contents d' lba) a;
  sd_present_same : forall d d' r, sd_present d = (d', r) -> same_disk d d';
  sd_tsc_same : forall d d' t, sd_tsc d = (d', t) -> same_disk d d';
  sd_tsc_range : forall d d' t, sd_tsc d = (d', t) -> is_u64 t;
  sd_read_ok : forall d lba, sd_healthy d -> valid_lba lba ->
    exists d' a, sd_read lba d = (d', Some a) /\ sd_healthy d';
  sd_write_ok : forall d lba a, sd_healthy d -> valid_lba lba ->
    exists d', sd_write lba a d = (d', true) /\ sd_healthy d';
  sd_tsc_ok : forall d d' t, sd_healthy d -> sd_tsc d = (d', t) -> sd_healthy d';
  sd_present_ok : forall d, sd_healthy d -> exists d', sd_present d = (d', true) /\ sd_healthy d'
}.

(** ** The clock *)

(** [TSC_HZ], [BOOT_TSC] and [BOOT_UNIX_NANOS], fixed once at boot. *)
Record Clock : Type := mkClock {
  TSC_HZ : Z;
  BOOT_TSC : Z;
  BOOT_UNIX_NANOS : Z
}.

(** The conversion inside [ns_since_boot]: a [u128] product, divided, truncated. *)
Definition ticks_to_ns (clk : Clock) (tsc : Z) : Z :=
  let elapsed_ticks := saturating_sub tsc (BOOT_TSC clk) in
  if TSC_HZ clk =? 0 then elapsed_ticks
  else u64 (elapsed_ticks * 1000000000 / TSC_HZ clk).

Definition ns_since_boot {D} `{SectorDev D} (clk : Clock) : ST D Z :=
  let* tsc := sd_tsc in st_ret (ticks_to_ns clk tsc).

Definition unix_nanos_now {D} `{SectorDev D} (clk : Clock) : ST D Z :=
  if BOOT_UNIX_NANOS clk =? 0 then st_ret 0
  else
    let* ns := ns_since_boot clk in
    st_ret (u64 (BOOT_UNIX_NANOS clk + ns)).

(** ** Lemmas *)

Section Lemmas.

Context {D : Type} `{SectorLaws D}.

#[export] Instance same_disk_equiv : Equivalence same_disk.
Proof.
  split; [done|intros a b Hab lba i Hi; symmetry; by apply Hab|].
  intros a b c H1 H2 lba i Hi. rewrite H1 by done. by apply H2.
Qed.

Lemma ticks_to_ns_range clk t : is_u64 t -> 0 <= BOOT_TSC clk -> is_u64 (ticks_to_ns clk t).
Proof.
  unfold is_u64, ticks_to_ns, saturating_sub. intros Ht Hb. case_goal; [lia|].
  unfold u64. apply Z.mod_pos_bound. lia.
Qed.

Lemma ns_since_boot_same clk d d' t : ns_since_boot clk d = (d', t) -> same_disk d d'.
Proof.
  unfold ns_since_boot, st_bind, st_ret. destruct (sd_tsc d) as [d1 t1] eqn:E.
  intros [= <- _]. by eapply sd_tsc_same.
Qed.

Lemma ns_since_boot_range clk d d' t :
  0 <= BOOT_TSC clk -> ns_since_boot clk d = (d', t) -> is_u64 t.
Proof.
  unfold ns_since_boot, st_bind, st_ret. destruct (sd_tsc d) as [d1 t1] eqn:E.
  intros Hb [= _ <-]. apply ticks_to_ns_range; [by eapply sd_tsc_range|done].
Qed.

Lemma ns_since_boot_healthy clk d d' t :
  sd_healthy d -> ns_since_boot clk d = (d', t) -> sd_healthy d'.
Proof.
  unfold ns_since_boot, st_bind, st_ret. destruct (sd_tsc d) as [d1 t1] eqn:E.
  intros Hb [= <- _]. by eapply sd_tsc_ok.
Qed.

End Lemmas.
