(* ===== verification/Hw.v ===== *)
(** * Ports: the ATA driver, the clock calibration and the real-time clock

    [ata_*], [calibrate_tsc], [read_cmos_register], [read_rtc_unix_seconds],
    [days_from_civil] of [src/kernel/src/main.rs], over an abstract port space.
    The port space is hardware; [Ports] is its interface. *)

From S2P Require Import Prelude Constants Device.

(** The instructions [in], [out] and [rdtsc] on a machine [M]. *)
Class Ports (M : Type) : Type := {
  outb : Z -> Z -> ST M unit;
  inb : Z -> ST M Z;
  outw : Z -> Z -> ST M unit;
  inw : Z -> ST M Z;
  outl : Z -> Z -> ST M unit;
  inl_port : Z -> ST M Z;
  rdtsc : ST M Z
}.

Definition NMI_STATUS_CONTROL : Z := 0x61.
Definition PIT_COMMAND : Z := 0x43.
Definition PIT_CHANNEL0_DATA : Z := 0x40.
Definition PIT_CHANNEL2_DATA : Z := 0x42.
Definition CMOS_INDEX : Z := 0x70.
Definition CMOS_DATA : Z := 0x71.
Definition PIC1_COMMAND : Z := 0x20.
Definition PIC1_DATA : Z := 0x21.
Definition PIC2_COMMAND : Z := 0xA0.
Definition PIC2_DATA : Z := 0xA1.
Definition PCI_CONFIG_ADDRESS : Z := 0xCF8.
Definition PCI_CONFIG_DATA : Z := 0xCFC.

(** ** Pure arithmetic of the clock *)

Definition bcd_to_binary (value : Z) : Z :=
  u8 (Z.land value 0x0F + Z.shiftr value 4 * 10).

(** Rust's [/] truncates towards zero: [Z.quot]. *)
Definition days_from_civil (year month day : Z) : Z :=
  let y := if month <=? 2 then year - 1 else year in
  let era := Z.quot (if 0 <=? y then y else y - 399) 400 in
  let year_of_era := y - era * 400 in
  let month_index := Z.rem (month + 9) 12 in
  let day_of_year := Z.quot (153 * month_index + 2) 5 + day - 1 in
  let day_of_era :=
    year_of_era * 365 + Z.quot year_of_era 4 - Z.quot year_of_era 100 + day_of_year in
  era * 146097 + day_of_era - 719468.

(** The six clock fields read from the CMOS. *)
Record RtcFields : Type := mkRtc {
  rtc_second : Z; rtc_minute : Z; rtc_hour : Z; rtc_day : Z; rtc_month : Z; rtc_year : Z
}.

#[export] Instance RtcFields_eq_dec : EqDecision RtcFields.
Proof. solve_decision. Defined.

(** The decoding of the fields, after the two reads agreed. *)
Definition rtc_decode (status_b : Z) (f : RtcFields) : RtcFields :=
  if Z.land status_b 0x04 =? 0 then
    let pm := negb (Z.land (rtc_hour f) 0x80 =? 0) in
    let hour := bcd_to_binary (Z.land (rtc_hour f) 0x7F) in
    let hour := if (Z.land status_b 0x02 =? 0) && pm then hour mod 12 + 12 else hour in
    mkRtc (bcd_to_binary (rtc_second f)) (bcd_to_binary (rtc_minute f)) hour
      (bcd_to_binary (rtc_day f)) (bcd_to_binary (rtc_month f)) (bcd_to_binary (rtc_year f))
  else f.

Definition rtc_to_unix (f : RtcFields) : Z :=
  if negb ((1 <=? rtc_month f) && (rtc_month f <=? 12))
     || negb ((1 <=? rtc_day f) && (rtc_day f <=? 31)) then 0
  else
    let days := days_from_civil (2000 + rtc_year f) (rtc_month f) (rtc_day f) in
    let seconds_of_day := rtc_hour f * 3600 + rtc_minute f * 60 + rtc_second f in
    Z.max (days * 86400 + seconds_of_day) 0.

(** The ratio at the end of [calibrate_tsc]: a [u128] product, divided. *)
Definition calibrate_ratio (total_ticks : Z) : Z :=
  u64 (total_ticks * PIT_INPUT_HZ / (59659 * 4)).

Section Drivers.

Context {M : Type} `{Ports M}.

(** ** ATA *)

Definition ata_select_drive (drive lba : Z) : ST M unit :=
  do! outb (ATA_PRIMARY_IO + 6)
        (Z.lor (Z.lor 0xE0 (Z.shiftl (Z.land drive 1) 4)) (Z.land (u8 (Z.shiftr lba 24)) 0x0F)) in
  do! inb ATA_PRIMARY_CTRL in
  do! inb ATA_PRIMARY_CTRL in
  do! inb ATA_PRIMARY_CTRL in
  do! inb ATA_PRIMARY_CTRL in
  st_ret tt.

Definition ata_present : ST M bool :=
  do! ata_select_drive ATA_DATA_DRIVE 0 in
  let* status := inb (ATA_PRIMARY_IO + 7) in
  st_ret (negb (status =? 0) && negb (status =? 0xFF)).

Definition ata_wait_not_busy : ST M bool :=
  st_loop 1000000 (fun _ : unit =>
    let* status := inb (ATA_PRIMARY_IO + 7) in
    if Z.land status 0x80 =? 0 then st_ret (inr (Z.land status 0x01 =? 0))
    else st_ret (inl tt)) false tt.

Definition ata_wait_drq : ST M bool :=
  st_loop 1000000 (fun _ : unit =>
    let* status := inb (ATA_PRIMARY_IO + 7) in
    if negb (Z.land status 0x01 =? 0) then st_ret (inr false)
    else if (Z.land status 0x80 =? 0) && negb (Z.land status 0x08 =? 0) then st_ret (inr true)
    else st_ret (inl tt)) false tt.

Fixpoint read_words (n : nat) (index : Z) (buffer : arr) : ST M arr :=
  match n with
  | O => st_ret buffer
  | S n' =>
      let* word := inw ATA_PRIMARY_IO in
      read_words n' (index + 1)
        (aset (aset buffer (index * 2) (u8 word)) (index * 2 + 1) (u8 (Z.shiftr word 8)))
  end.

Fixpoint write_words (n : nat) (index : Z) (buffer : arr) : ST M unit :=
  match n with
  | O => st_ret tt
  | S n' =>
      do! outw ATA_PRIMARY_IO
            (Z.lor (buffer (index * 2)) (u16 (Z.shiftl (buffer (index * 2 + 1)) 8))) in
      write_words n' (index + 1) buffer
  end.

(** The register set-up both commands share. *)
Definition ata_command (drive lba command : Z) : ST M unit :=
  do! ata_select_drive drive lba in
  do! outb (ATA_PRIMARY_IO + 2) 1 in
  do! outb (ATA_PRIMARY_IO + 3) (u8 lba) in
  do! outb (ATA_PRIMARY_IO + 4) (u8 (Z.shiftr lba 8)) in
  do! outb (ATA_PRIMARY_IO + 5) (u8 (Z.shiftr lba 16)) in
  outb (ATA_PRIMARY_IO + 7) command.

(** [Some buffer] is [true]; the buffer the code fills starts as zeros in every
    caller. *)
Definition ata_read_sector (drive lba : Z) : ST M (option arr) :=
  do! ata_command drive lba 0x20 in
  let* ready := ata_wait_drq in
  if negb ready then st_ret None
  else let* buffer := read_words 256 0 zeroed in st_ret (Some buffer).

Definition ata_write_sector (drive lba : Z) (buffer : arr) : ST M bool :=
  do! ata_command drive lba 0x30 in
  let* ready := ata_wait_drq in
  if negb ready then st_ret false
  else
    do! write_words 256 0 buffer in
    do! outb (ATA_PRIMARY_IO + 7) 0xE7 in
    ata_wait_not_busy.

(** ** Time-stamp counter against the PIT *)

(** One of the four rounds; [fuel] bounds the poll of the countdown, which the
    source does not bound. *)
Definition calibrate_round (fuel : positive) : ST M (option Z) :=
  let* nmi := inb NMI_STATUS_CONTROL in
  do! outb NMI_STATUS_CONTROL (Z.lor (Z.land nmi 0xFC) 0x01) in
  do! outb PIT_COMMAND 0xB0 in
  do! outb PIT_CHANNEL2_DATA (u8 (Z.land 59659 0xFF)) in
  do! outb PIT_CHANNEL2_DATA (u8 (Z.shiftr 59659 8)) in
  let* start := rdtsc in
  let* done_ := st_loop fuel (fun _ : unit =>
    let* status := inb NMI_STATUS_CONTROL in
    if Z.land status 0x20 =? 0 then st_ret (inl tt) else st_ret (inr true)) false tt in
  if negb done_ then st_ret None
  else let* end_ := rdtsc in st_ret (Some (saturating_sub end_ start)).

Fixpoint calibrate_rounds (fuel : positive) (n : nat) (total_ticks : Z) : ST M (option Z) :=
  match n with
  | O => st_ret (Some total_ticks)
  | S n' =>
      let* r := calibrate_round fuel in
      match r with
      | None => st_ret None
      | Some ticks => calibrate_rounds fuel n' (u64 (total_ticks + ticks))
      end
  end.

Definition calibrate_tsc (fuel : positive) : ST M (option Z) :=
  let* r := calibrate_rounds fuel 4 0 in
  st_ret (option_map calibrate_ratio r).

(** ** CMOS *)

Definition read_cmos_register (register : Z) : ST M Z :=
  do! outb CMOS_INDEX register in inb CMOS_DATA.

Definition rtc_read_fields : ST M RtcFields :=
  let* second := read_cmos_register 0x00 in
  let* minute := read_cmos_register 0x02 in
  let* hour := read_cmos_register 0x04 in
  let* day := read_cmos_register 0x07 in
  let* month := read_cmos_register 0x08 in
  let* year := read_cmos_register 0x09 in
  st_ret (mkRtc second minute hour day month year).

Fixpoint rtc_settle (n : nat) (fields : RtcFields) : ST M RtcFields :=
  match n with
  | O => st_ret fields
  | S n' =>
      let* again := rtc_read_fields in
      if bool_decide (again = fields) then st_ret fields else rtc_settle n' again
  end.

Definition read_rtc_unix_seconds : ST M Z :=
  do! st_loop 100000 (fun _ : unit =>
        let* a := read_cmos_register 0x0A in
        if Z.land a 0x80 =? 0 then st_ret (inr tt) else st_ret (inl tt)) tt tt in
  let* fields := rtc_read_fields in
  let* fields := rtc_settle 8 fields in
  let* status_b := read_cmos_register 0x0B in
  st_ret (rtc_to_unix (rtc_decode status_b fields)).

(** ** PCI configuration space *)

Definition pci_read_u32 (bus device function offset : Z) : ST M Z :=
  do! outl PCI_CONFIG_ADDRESS
        (Z.lor (Z.lor (Z.lor (Z.lor 0x80000000 (u32 (Z.shiftl bus 16)))
                             (u32 (Z.shiftl device 11)))
                      (u32 (Z.shiftl function 8)))
               (Z.land offset 0xFC)) in
  inl_port PCI_CONFIG_DATA.

Definition pci_read_u16 (bus device function offset : Z) : ST M Z :=
  let* value := pci_read_u32 bus device function (Z.land offset 0xFC) in
  st_ret (Z.land (Z.shiftr value (u8 (Z.land offset 2 * 8))) 0xFFFF).

Definition pci_read_u8 (bus device function offset : Z) : ST M Z :=
  let* value := pci_read_u32 bus device function (Z.land offset 0xFC) in
  st_ret (Z.land (Z.shiftr value (u8 (Z.land offset 3 * 8))) 0xFF).

End Drivers.

Definition pci_class_name (class subclass : Z) : bytes :=
  if (class =? 0x01) && (subclass =? 0x01) then bs "ide controller"
  else if (class =? 0x01) && (subclass =? 0x06) then bs "sata controller"
  else if (class =? 0x02) && (subclass =? 0x00) then bs "ethernet controller"
  else if (class =? 0x03) && (subclass =? 0x00) then bs "vga/display controller"
  else if (class =? 0x04) && (subclass =? 0x01) then bs "audio device"
  else if (class =? 0x06) && (subclass =? 0x00) then bs "host bridge"
  else if (class =? 0x06) && (subclass =? 0x01) then bs "isa bridge"
  else if (class =? 0x06) && (subclass =? 0x04) then bs "pci bridge"
  else if (class =? 0x0C) && (subclass =? 0x03) then bs "usb controller"
  else bs "device".
