(* ===== verification/AtaDisk.v ===== *)
(** * A PIO ATA disk behind the port interface

    A model of the hardware the ATA driver talks to (task-file registers, the
    data port, READ SECTORS, WRITE SECTORS, FLUSH CACHE), used to instantiate
    [Ports]; the driver functions of [Hw] then discharge [SectorLaws]: what
    [PfsData] assumes of a disk is what the driver delivers on this one. *)

From S2P Require Import Prelude Constants PfsLayout Device Hw.

Inductive AtaMode : Type := AtaIdle | AtaReading | AtaWriting.

(** One drive of the channel (the data drive): task file, transfer state and
    sectors; [ata_fault] is a drive that answers every poll with an error. *)
Record Ata : Type := mkAta {
  ata_lba0 : Z; ata_lba1 : Z; ata_lba2 : Z; ata_select : Z;
  ata_mode : AtaMode;
  ata_lba : Z;
  ata_pos : Z;
  ata_buffer : arr;
  ata_data : Z -> arr;
  ata_tsc : Z;
  ata_fault : bool
}.

(** The 28-bit sector number of the task file. *)
Definition task_file_lba (a : Ata) : Z :=
  ata_lba0 a + 256 * ata_lba1 a + 65536 * ata_lba2 a + 16777216 * (ata_select a mod 16).

Definition ata_status (a : Ata) : Z :=
  if ata_fault a then 0x51
  else match ata_mode a with AtaIdle => 0x50 | _ => 0x58 end.

Definition ata_command_port (cmd : Z) (a : Ata) : Ata :=
  if cmd =? 0x20 then
    {| a with ata_mode := AtaReading; ata_lba := task_file_lba a; ata_pos := 0;
              ata_buffer := fun i => u8 (ata_data a (task_file_lba a) i) |}
  else if cmd =? 0x30 then
    {| a with ata_mode := AtaWriting; ata_lba := task_file_lba a; ata_pos := 0;
              ata_buffer := zeroed |}
  else {| a with ata_mode := AtaIdle |}.

Definition ata_out (port value : Z) (a : Ata) : Ata :=
  if port =? 0x1F3 then {| a with ata_lba0 := value |}
  else if port =? 0x1F4 then {| a with ata_lba1 := value |}
  else if port =? 0x1F5 then {| a with ata_lba2 := value |}
  else if port =? 0x1F6 then {| a with ata_select := value; ata_mode := AtaIdle |}
  else if port =? 0x1F7 then ata_command_port value a
  else a.

(** A word leaves the buffer on each read of the data port. *)
Definition ata_data_in (a : Ata) : Z * Ata :=
  let word := ata_buffer a (2 * ata_pos a) + 256 * ata_buffer a (2 * ata_pos a + 1) in
  (word, {| a with ata_pos := ata_pos a + 1;
                   ata_mode := if ata_pos a =? 255 then AtaIdle else ata_mode a |}).

(** A word enters the buffer on each write; the last one commits the sector. *)
Definition ata_data_out (word : Z) (a : Ata) : Ata :=
  let buffer := aset (aset (ata_buffer a) (2 * ata_pos a) (word mod 256))
                     (2 * ata_pos a + 1) (word / 256 mod 256) in
  if ata_pos a =? 255 then
    {| a with ata_pos := ata_pos a + 1; ata_mode := AtaIdle; ata_buffer := buffer;
              ata_data := fun lba => if lba =? ata_lba a then buffer else ata_data a lba |}
  else {| a with ata_pos := ata_pos a + 1; ata_buffer := buffer |}.

#[export] Instance ata_ports : Ports Ata := {
  outb := fun port value a => (ata_out port value a, tt);
  inb := fun port a =>
    if port =? 0x1F7 then (a, ata_status a) else if port =? 0x3F6 then (a, ata_status a)
    else (a, 0xFF);
  outw := fun port value a =>
    if (port =? 0x1F0) && negb (ata_fault a) then
      (match ata_mode a with AtaWriting => ata_data_out value a | _ => a end, tt)
    else (a, tt);
  inw := fun port a =>
    if port =? 0x1F0 then
      match ata_mode a with
      | AtaReading => let '(w, a') := ata_data_in a in (a', w)
      | _ => (a, 0)
      end
    else (a, 0);
  outl := fun _ _ a => (a, tt);
  inl_port := fun _ a => (a, 0xFFFFFFFF);
  rdtsc := fun a => ({| a with ata_tsc := ata_tsc a + 1 |}, u64 (ata_tsc a))
}.

#[export] Instance ata_sectors : SectorDev Ata := {
  sd_read := ata_read_sector ATA_DATA_DRIVE;
  sd_write := ata_write_sector ATA_DATA_DRIVE;
  sd_present := ata_present;
  sd_tsc := rdtsc;
  sd_contents := fun a lba i => u8 (ata_data a lba i);
  sd_healthy := fun a => ata_fault a = false
}.

(** A blank, working disk. *)
Definition ata_blank : Ata :=
  mkAta 0 0 0 0 AtaIdle 0 0 zeroed (fun _ => zeroed) 0 false.

(** ** The driver on this disk *)

(** The task file after the set-up of a command for [lba]. *)
Definition ata_addressed (lba : Z) (a : Ata) : Ata :=
  {| a with ata_lba0 := u8 lba; ata_lba1 := u8 (Z.shiftr lba 8);
            ata_lba2 := u8 (Z.shiftr lba 16);
            ata_select := Z.lor 240 (Z.land (u8 (Z.shiftr lba 24)) 15);
            ata_mode := AtaIdle |}.

Lemma ata_command_eq lba cmd a :
  ata_command ATA_DATA_DRIVE lba cmd a = (ata_command_port cmd (ata_addressed lba a), tt).
Proof. destruct a. reflexivity. Qed.

Lemma task_file_valid lba a :
  valid_lba lba -> task_file_lba (ata_addressed lba a) = lba.
Proof.
  unfold valid_lba, PFS_DISK_SECTORS, task_file_lba, ata_addressed. intros Hl. cbn.
  unfold u8. rewrite !Z.shiftr_div_pow2 by lia.
  replace (lba / 2 ^ 24) with 0 by (symmetry; apply Z.div_small; lia).
  change (Z.lor 240 (Z.land (0 mod 256) 15) mod 16) with 0.
  change (2 ^ 8) with 256. change (2 ^ 16) with 65536. zlia.
Qed.

Lemma wait_drq_busy a :
  ata_mode a <> AtaIdle -> ata_wait_drq a = (a, negb (ata_fault a)).
Proof.
  destruct a as [l0 l1 l2 sel m lba pos buf data tsc fault]. simpl.
  destruct m; [done| |]; intros _; by destruct fault.
Qed.

Lemma wait_not_busy_eq a : ata_wait_not_busy a = (a, negb (ata_fault a)).
Proof.
  destruct a as [l0 l1 l2 sel m lba pos buf data tsc fault]. by destruct fault, m.
Qed.

(** What the transfer loops leave alone. *)
Definition ata_same (a a' : Ata) : Prop :=
  ata_data a' = ata_data a /\ ata_fault a' = ata_fault a.

Lemma word_lo b0 b1 : is_u8 b0 -> u8 (b0 + 256 * b1) = b0.
Proof. unfold is_u8, u8. intros. zlia. Qed.

Lemma word_hi b0 b1 : is_u8 b0 -> is_u8 b1 -> u8 (Z.shiftr (b0 + 256 * b1) 8) = b1.
Proof.
  unfold is_u8, u8. intros. rewrite Z.shiftr_div_pow2 by lia. change (2 ^ 8) with 256.
  replace ((b0 + 256 * b1) / 256) with b1 by zlia. by apply Z.mod_small.
Qed.

Lemma read_words_spec n p buf a :
  0 <= p -> p + Z.of_nat n = 256 -> (n <> O -> ata_mode a = AtaReading) -> ata_pos a = p ->
  (forall i, is_u8 (ata_buffer a i)) ->
  exists a' r, read_words n p buf a = (a', r) /\ ata_same a a' /\
    forall i, r i = if (2 * p <=? i) && (i <? 512) then ata_buffer a i else buf i.
Proof.
  revert p buf a. induction n as [|n IH]; intros p buf a Hp Hn Hm Hpos Hb; cbn [read_words].
  - eexists _, _. split; [done|]. split; [done|]. intros i. case_goal; [lia|done].
  - unfold st_bind. simpl inw. rewrite Hm by done. simpl. rewrite Hpos.
    rewrite word_lo, word_hi by done.
    edestruct IH as (a' & r & E & Hs & Hr); [| | | | |exists a', r; split; [exact E|]].
    + lia.
    + lia.
    + intros Hne. simpl. destruct (Z.eqb_spec p 255); [lia|done].
    + done.
    + done.
    + split; [done|]. intros i. rewrite Hr. simpl. unfold aset.
      destruct (Z.eqb_spec i (p * 2 + 1)) as [->|]; [|destruct (Z.eqb_spec i (p * 2)) as [->|]].
      * case_goal; case_goal; try lia. f_equal. lia.
      * case_goal; case_goal; try lia. f_equal. lia.
      * case_goal; case_goal; try done; lia.
Qed.

(** Sectors after words [p..256) of [b] went out: sector [l] is rewritten. *)
Lemma write_words_spec n p b a :
  0 <= p -> p + Z.of_nat n = 256 -> n <> O -> ata_mode a = AtaWriting -> ata_pos a = p ->
  ata_fault a = false ->
  exists a' r, write_words n p b a = (a', tt) /\ ata_fault a' = false /\
    (forall lba, ata_data a' lba = if lba =? ata_lba a then r else ata_data a lba) /\
    (sector_bytes b ->
     forall i, 0 <= i < 512 -> r i = if i <? 2 * p then ata_buffer a i else b i).
Proof.
  revert p a. induction n as [|n IH]; [done|]. intros p a Hp Hn _ Hm Hpos Hf.
  cbn [write_words]. unfold st_bind. simpl outw. rewrite Hf, Hm. simpl. unfold ata_data_out.
  rewrite Hpos. set (w := Z.lor _ _).
  assert (Hw : sector_bytes b -> w mod 256 = b (2 * p) /\ w / 256 mod 256 = b (2 * p + 1)).
  { intros Hb. pose proof (Hb (p * 2) ltac:(lia)). pose proof (Hb (p * 2 + 1) ltac:(lia)).
    unfold is_u8 in *. unfold w, u16. rewrite (Z.mod_small (Z.shiftl _ 8)).
    2: { rewrite Z.shiftl_mul_pow2 by lia. change (2 ^ 8) with 256. lia. }
    rewrite lor_shiftl_add by (change (2 ^ 8) with 256; lia). change (2 ^ 8) with 256.
    replace (2 * p) with (p * 2) by lia. split; zlia. }
  destruct n as [|n'].
  - assert (p = 255) as -> by lia. simpl. eexists _, _. split; [done|]. split; [done|].
    split; [done|]. intros Hb i Hi. unfold aset. destruct (Hw Hb) as [-> ->].
    repeat case_goal; try done; try lia; f_equal; lia.
  - destruct (Z.eqb_spec p 255); [lia|].
    match goal with |- context [write_words _ _ _ ?a1] =>
      destruct (IH (p + 1) a1) as (a' & r & E & Hf' & Hd & Hr); try done; [lia|lia|]
    end.
    exists a', r. split; [exact E|]. split; [done|].
    split; [done|]. intros Hb i Hi. rewrite Hr by done. simpl. unfold aset.
    destruct (Hw Hb) as [-> ->]. repeat case_goal; try done; try lia; f_equal; lia.
Qed.

#[local] Arguments read_words : simpl never.
#[local] Arguments write_words : simpl never.

(** ** The interface laws hold for the driver on this disk *)

Lemma ata_read_same_data drive lba a a' r :
  drive = ATA_DATA_DRIVE -> ata_read_sector drive lba a = (a', r) -> ata_same a a' /\
  (ata_fault a = false -> is_Some r) /\
  (forall b i, r = Some b -> valid_lba lba -> 0 <= i < 512 -> b i = u8 (ata_data a lba i)).
Proof.
  intros ->. unfold ata_read_sector, st_bind at 1. rewrite ata_command_eq.
  unfold st_bind at 1. rewrite wait_drq_busy by done. simpl.
  destruct (ata_fault a) eqn:Hf; simpl.
  { unfold st_ret. intros [= <- <-]. done. }
  unfold st_bind.
  match goal with |- context [read_words _ _ _ ?a1] =>
    destruct (read_words_spec 256 0 zeroed a1) as (a2 & b & E & Hs & Hb);
      [lia|reflexivity|intros _; reflexivity|reflexivity|intros i; apply u8_range|]
  end.
  rewrite E. unfold st_ret. intros [= <- <-]. split; [done|]. split; [eauto|].
  intros b' i [= <-] Hv Hi. rewrite Hb. simpl. case_goal; [|lia].
  by rewrite task_file_valid.
Qed.

Lemma ata_write_spec lba b a a' r :
  ata_write_sector ATA_DATA_DRIVE lba b a = (a', r) -> valid_lba lba ->
  r = negb (ata_fault a) /\ ata_fault a' = ata_fault a /\
  (forall lba', lba' <> lba -> ata_data a' lba' = ata_data a lba') /\
  (r = true -> sector_bytes b -> forall i, 0 <= i < 512 -> ata_data a' lba i = b i).
Proof.
  intros Hw Hv. revert Hw. unfold ata_write_sector, st_bind at 1. rewrite ata_command_eq.
  unfold st_bind at 1. rewrite wait_drq_busy by done. simpl.
  destruct (ata_fault a) eqn:Hf; simpl.
  { unfold st_ret. intros [= <- <-]. done. }
  unfold st_bind at 1.
  match goal with |- context [write_words _ _ _ ?a1] =>
    destruct (write_words_spec 256 0 b a1) as (a2 & s & E & Hf' & Hd & Hs);
      [lia|reflexivity|discriminate|reflexivity|reflexivity|exact Hf|]
  end.
  rewrite E. simpl in Hd. rewrite task_file_valid in Hd by done.
  unfold st_bind. simpl. rewrite wait_not_busy_eq. simpl. rewrite Hf'. simpl.
  intros [= <- <-]. simpl. split_and!; [done|done| |].
  - intros lba' Hne. rewrite Hd. destruct (Z.eqb_spec lba' lba); done.
  - intros _ Hb i Hi. rewrite Hd, Z.eqb_refl, (Hs Hb i Hi). case_goal; [lia|done].
Qed.

#[export] Instance ata_laws : SectorLaws Ata.
Proof.
  assert (Hsame : forall a a' : Ata, ata_data a' = ata_data a -> same_disk a a').
  { intros a a' Hd lba i Hi. simpl. by rewrite Hd. }
  split; simpl.
  - intros a lba i _. apply u8_range.
  - intros a lba a' r E. apply Hsame. by eapply ata_read_same_data.
  - intros a lba a' b Hv E i Hi. eapply ata_read_same_data; eauto.
  - intros a lba b a' r lba' Hv E Hne i Hi. simpl.
    apply ata_write_spec in E as (_ & _ & Ho & _); [|done]. by rewrite Ho.
  - intros a lba b a' Hv Hb E i Hi. simpl. apply ata_write_spec in E as (_ & _ & _ & Hd); [|done].
    rewrite Hd by done. unfold u8. apply Z.mod_small. apply Hb. done.
  - intros a a' r E. apply Hsame. destruct a. by inversion E.
  - intros a a' t E. apply Hsame. by inversion E.
  - intros a a' t E. inversion E. unfold is_u64, u64. apply Z.mod_pos_bound. lia.
  - intros a lba Hok Hv. destruct (ata_read_sector ATA_DATA_DRIVE lba a) as [a' r] eqn:E.
    apply ata_read_same_data in E as ([_ Hf] & Hs & _); [|done].
    destruct (Hs Hok) as [b ->]. exists a', b. split; [done|congruence].
  - intros a lba b Hok Hv. destruct (ata_write_sector ATA_DATA_DRIVE lba b a) as [a' r] eqn:E.
    apply ata_write_spec in E as (-> & Hf & _); [|done]. exists a'. rewrite Hok in *. done.
  - intros a a' t Hok E. by inversion E.
  - intros a Hok. destruct a. simpl in Hok. subst. by eexists.
Qed.
