(* ===== verification/Pfs.v ===== *)
(** * The RYMFS5 file store: header and file data on the disk

    [PersistentFs::read_header_silent] / [write_header] and the data path
    [pfs_read_at], [pfs_write_at], [pfs_zero_range], [pfs_update_size] and
    [pfs_ensure_file_capacity] of [src/kernel/src/main.rs]. *)

From S2P Require Import Prelude Constants Text PfsLayout PfsDir PfsAlloc Device.

Definition PFS_MAGIC : bytes := bs "RYMFS5" ++ [0; 0].

Definition pfs_magic_ok (h : arr) : bool := bytes_eq (slice h 0 8) PFS_MAGIC.

(** [header[start..start + 512] = sector] *)
Definition blit_sector (h : arr) (start : Z) (sector : arr) : arr :=
  fun i => if (start <=? i) && (i <? start + 512) then sector (i - start) else h i.

(** [&header[start..start + 512]] *)
Definition header_sector (h : arr) (start : Z) : arr := fun i => h (start + i).

Section Store.

Context {D : Type} `{SectorDev D} (clk : Clock).

(** The loop over the header sectors of [read_header_silent]. *)
Fixpoint read_header_from (n : nat) (sector_index : Z) (header : arr) : ST D (option arr) :=
  match n with
  | O => st_ret (Some header)
  | S n' =>
      let* r := sd_read sector_index in
      match r with
      | None => st_ret None
      | Some sector =>
          read_header_from n' (sector_index + 1)
            (blit_sector header (sector_index * 512) sector)
      end
  end.

Definition read_header_silent : ST D (option arr) :=
  let* r := read_header_from (Z.to_nat PFS_HEADER_SECTORS) 0 zeroed in
  match r with
  | None => st_ret None
  | Some header => st_ret (if pfs_magic_ok header then Some header else None)
  end.

Fixpoint write_header_from (n : nat) (sector_index : Z) (header : arr) : ST D bool :=
  match n with
  | O => st_ret true
  | S n' =>
      let* ok := sd_write sector_index (header_sector header (sector_index * 512)) in
      if negb ok then st_ret false
      else write_header_from n' (sector_index + 1) header
  end.

Definition write_header (header : arr) : ST D bool :=
  write_header_from (Z.to_nat PFS_HEADER_SECTORS) 0 header.

(** One round of the copy loop of [pfs_read_at]; [copied] is what has been
    written to the caller's buffer. *)
Definition read_round (header : arr) (index : nat) (offset len : Z) (copied : bytes)
  : ST D (bytes + (bool * bytes)) :=
  if blen copied <? len then
    let absolute := u64 (offset + blen copied) in
    let logical_sector := u32 (absolute / 512) in
    let sector_offset := absolute mod 512 in
    let count := Z.min (len - blen copied) (512 - sector_offset) in
    match pfs_entry_lba_for_sector header index logical_sector with
    | None => st_ret (inr (false, copied))
    | Some lba =>
        let* r := sd_read lba in
        match r with
        | None => st_ret (inr (false, copied))
        | Some sector => st_ret (inl (copied ++ slice sector sector_offset count))
        end
    end
  else st_ret (inr (true, copied)).

(** [pfs_read_at]: success, and the bytes stored through [dest]. A round copies
    at least one byte, so [len + 1] rounds are enough. *)
Definition pfs_read_at (index : nat) (offset len : Z) : ST D (bool * bytes) :=
  let* r := read_header_silent in
  match r with
  | None => st_ret (false, [])
  | Some header =>
      if (PFS_FILE_MAX <? u64 (offset + len)) || negb (pfs_entry_used header index)
      then st_ret (false, [])
      else st_loop (Z.to_pos (len + 1)) (read_round header index offset len) (false, []) []
  end.

Definition zero_round (header : arr) (index : nat) (start len written : Z)
  : ST D (Z + bool) :=
  if written <? len then
    let absolute := u64 (start + written) in
    let logical_sector := u32 (absolute / 512) in
    let sector_offset := absolute mod 512 in
    let count := Z.min (len - written) (512 - sector_offset) in
    match pfs_entry_lba_for_sector header index logical_sector with
    | None => st_ret (inr false)
    | Some lba =>
        if count =? 512 then
          let* ok := sd_write lba zeroed in
          if negb ok then st_ret (inr false) else st_ret (inl (written + count))
        else
          let* r := sd_read lba in
          match r with
          | None => st_ret (inr false)
          | Some sector =>
              let* ok := sd_write lba (fill_range sector sector_offset count 0) in
              if negb ok then st_ret (inr false) else st_ret (inl (written + count))
          end
    end
  else st_ret (inr true).

Definition pfs_zero_range (header : arr) (index : nat) (start len : Z) : ST D bool :=
  st_loop (Z.to_pos (len + 1)) (zero_round header index start len) false 0.

Definition pfs_update_size (index : nat) (size : Z) : ST D bool :=
  let* r := read_header_silent in
  match r with
  | None => st_ret false
  | Some header =>
      if negb (pfs_entry_used header index) then st_ret false
      else
        let offset := pfs_entry_offset index in
        let header := blit header (offset + 2) (to_le_bytes 4 (u32 size)) in
        let* now := ns_since_boot clk in
        write_header (pfs_touch_modified header index now)
  end.

Definition pfs_ensure_file_capacity (index : nat) (size : Z) : ST D bool :=
  let* r := read_header_silent in
  match r with
  | None => st_ret false
  | Some header =>
      if negb (pfs_entry_used header index) || pfs_entry_is_dir header index then st_ret false
      else
        let old_size := pfs_entry_size header index in
        let old_sectors := pfs_entry_total_sectors header index in
        let new_sectors := sectors_for_len size in
        if new_sectors <=? old_sectors then st_ret true
        else
          let additional := new_sectors - old_sectors in
          match pfs_grow_extents header (pfs_entry_extents header index) additional
                  (Some index) with
          | None => st_ret false
          | Some extents =>
              let* now := ns_since_boot clk in
              write_header
                (pfs_set_entry header index (pfs_entry_name header index) old_size
                   (pfs_entry_kind header index) extents (pfs_entry_created header index)
                   (pfs_entry_mode header index) now)
          end
  end.

Definition write_round (header : arr) (index : nat) (offset : Z) (data : bytes) (copied : Z)
  : ST D (Z + bool) :=
  if copied <? blen data then
    let absolute := u64 (offset + copied) in
    let logical_sector := u32 (absolute / 512) in
    let sector_offset := absolute mod 512 in
    let count := Z.min (blen data - copied) (512 - sector_offset) in
    match pfs_entry_lba_for_sector header index logical_sector with
    | None => st_ret (inr false)
    | Some lba =>
        let* r := sd_read lba in
        match r with
        | None => st_ret (inr false)
        | Some sector =>
            let* ok := sd_write lba (blit sector sector_offset
                         (take (Z.to_nat count) (drop (Z.to_nat copied) data))) in
            if negb ok then st_ret (inr false) else st_ret (inl (copied + count))
        end
    end
  else st_ret (inr true).

Definition pfs_write_at (index : nat) (offset : Z) (data : bytes) : ST D bool :=
  let new_size := u64 (offset + blen data) in
  if PFS_FILE_MAX <? new_size then st_ret false
  else
    let* r := read_header_silent in
    let old_size := match r with
                    | Some header => if pfs_entry_used header index
                                     then Some (pfs_entry_size header index) else None
                    | None => None
                    end in
    match old_size with
    | None => st_ret false
    | Some old_size =>
        let* ok := pfs_ensure_file_capacity index new_size in
        if negb ok then st_ret false
        else
          let* r := read_header_silent in
          match r with
          | None => st_ret false
          | Some header =>
              let* zok := (if old_size <? offset
                           then pfs_zero_range header index old_size (offset - old_size)
                           else st_ret true) in
              if negb zok then st_ret false
              else st_loop (Z.to_pos (blen data + 1)) (write_round header index offset data)
                     false 0
          end
    end.

(** ** What is on the disk *)

(** The header as the sectors hold it. *)
Definition disk_header (d : D) : arr := fun i => sd_contents d (i / 512) (i mod 512).

(** Where byte [k] of a file with these extents lives. *)
Definition file_loc (exts : list PfsExtent) (k : Z) : option (Z * Z) :=
  match lba_walk exts (k / 512) with
  | Some lba => Some (lba, k mod 512)
  | None => None
  end.

Definition file_byte (d : D) (exts : list PfsExtent) (k : Z) : Z :=
  match file_loc exts k with
  | Some (lba, i) => sd_contents d lba i
  | None => 0
  end.

End Store.

Definition is_file (h : arr) (i : nat) : Prop :=
  (i < PFS_ENTRY_COUNT)%nat /\ pfs_entry_used h i = true /\ pfs_entry_is_dir h i = false.

(** The allocation invariant: each file's extents form a chain in the data
    area, and no sector belongs to two files. *)
Record alloc_wf (h : arr) : Prop := {
  aw_chain : forall i, is_file h i -> chain PFS_DATA_START (pfs_entry_extents h i);
  aw_disjoint : forall i j x, is_file h i -> is_file h j -> i <> j ->
    covered (pfs_entry_extents h i) x -> ~ covered (pfs_entry_extents h j) x
}.
