(* ===== verification/PfsIO.v ===== *)
(** * Lemmas on the file store: header round trip and single transfers

    Reading the header returns the header sectors; a successful header write
    stores them and touches nothing else; storing one sector of a byte range
    advances the range by one chunk. *)

From S2P Require Import Prelude Constants Text PfsLayout PfsDir PfsAlloc Device Pfs.

(** The predicate of an invariant of ranges of file positions: positions
    [lo..hi) hold [val], and no other disk byte changed since [d0]. *)
Definition stored {D} `{SectorDev D} (d0 : D) (exts : list PfsExtent) (val : Z -> Z)
    (lo hi : Z) (d : D) : Prop :=
  (forall k, lo <= k < hi -> file_byte d exts k = val k) /\
  (forall lba i, 0 <= i < 512 ->
     (forall k, lo <= k < hi -> file_loc exts k <> Some (lba, i)) ->
     sd_contents d lba i = sd_contents d0 lba i).

Section IO.

Context {D : Type} `{SL : SectorLaws D}.

Lemma disk_header_bytes (d : D) : header_bytes (disk_header d).
Proof. intros i Hi. apply sd_bytes. apply Z.mod_pos_bound. lia. Qed.

Lemma same_disk_header (d d' : D) : same_disk d d' -> header_eq (disk_header d') (disk_header d).
Proof. intros Hs i Hi. symmetry. apply Hs. apply Z.mod_pos_bound. lia. Qed.

Lemma same_disk_byte (d d' : D) exts k :
  same_disk d d' -> file_byte d' exts k = file_byte d exts k.
Proof.
  intros Hs. unfold file_byte, file_loc. destruct (lba_walk exts (k / 512)); [|done].
  symmetry. apply Hs. apply Z.mod_pos_bound. lia.
Qed.

(** ** Header *)

Lemma read_header_from_spec n s h (d d' : D) r :
  0 <= s -> s + Z.of_nat n <= PFS_HEADER_SECTORS ->
  read_header_from n s h d = (d', r) ->
  same_disk d d' /\
  (forall h', r = Some h' ->
     (forall i, 0 <= i < s * 512 -> h i = disk_header d i) ->
     (forall i, 0 <= i < (s + Z.of_nat n) * 512 -> h' i = disk_header d i)) /\
  (sd_healthy d -> is_Some r /\ sd_healthy d').
Proof.
  revert s h d. induction n as [|n IH]; intros s h d Hs Hn; cbn [read_header_from].
  - intros [= <- <-]. split_and!; [done| |eauto]. intros h' [= <-] Hh i Hi. apply Hh. lia.
  - unfold st_bind. destruct (sd_read s d) as [d1 [a|]] eqn:E.
    + intros Hr. pose proof (sd_read_same _ _ _ _ E) as Hsame.
      assert (Hv : valid_lba s).
      { unfold valid_lba, PFS_DISK_SECTORS. rewrite PFS_HEADER_SECTORS_eq in Hn. lia. }
      pose proof (sd_read_data _ _ _ _ Hv E) as Hdata.
      destruct (IH (s + 1) _ d1 ltac:(lia) ltac:(lia) Hr) as (I1 & I2 & I3).
      split_and!.
      * by transitivity d1.
      * intros h' -> Hh i Hi. rewrite PFS_HEADER_SECTORS_eq in Hn.
        pose proof (same_disk_header d d1 Hsame) as Hd1. unfold header_eq in Hd1.
        rewrite PFS_HEADER_BYTES_eq in Hd1.
        rewrite <- Hd1 by lia. apply (I2 h' eq_refl); [|lia].
        intros j Hj. unfold blit_sector.
        destruct ((s * 512 <=? j) && (j <? s * 512 + 512)) eqn:Ej.
        -- rewrite Hdata by lia. unfold disk_header.
           replace (j / 512) with s by zlia. replace (j mod 512) with (j - s * 512) by zlia.
           apply Hsame. lia.
        -- rewrite Hd1 by lia. apply Hh. lia.
      * intros Hok. apply I3. destruct (sd_read_ok d s Hok Hv) as (d2 & a2 & E2 & Hok2).
        congruence.
    + intros [= <- <-]. split_and!; [by eapply sd_read_same|done|].
      intros Hok. assert (Hv : valid_lba s).
      { unfold valid_lba, PFS_DISK_SECTORS. rewrite PFS_HEADER_SECTORS_eq in Hn. lia. }
      destruct (sd_read_ok d s Hok Hv) as (d2 & a2 & E2 & Hok2). congruence.
Qed.

Lemma magic_header_eq h1 h2 : header_eq h1 h2 -> pfs_magic_ok h1 = pfs_magic_ok h2.
Proof.
  intros He. unfold pfs_magic_ok. f_equal. apply slice_ext. intros i Hi. apply He.
  rewrite PFS_HEADER_BYTES_eq. lia.
Qed.

Lemma read_header_spec (d d' : D) r :
  read_header_silent d = (d', r) ->
  same_disk d d' /\
  (forall h, r = Some h -> header_eq h (disk_header d) /\ pfs_magic_ok (disk_header d) = true) /\
  (sd_healthy d -> sd_healthy d' /\ (pfs_magic_ok (disk_header d) = true -> is_Some r)).
Proof.
  unfold read_header_silent, st_bind, st_ret.
  destruct (read_header_from (Z.to_nat PFS_HEADER_SECTORS) 0 zeroed d) as [d1 [h1|]] eqn:E.
  - intros [= <- <-].
    apply read_header_from_spec in E as (E1 & E2 & E3);
      [|done|rewrite PFS_HEADER_SECTORS_eq; lia].
    assert (He : header_eq h1 (disk_header d)).
    { intros i Hi. apply (E2 h1 eq_refl); [intros j Hj; lia|].
      rewrite PFS_HEADER_BYTES_eq, PFS_HEADER_SECTORS_eq in *. lia. }
    rewrite (magic_header_eq _ _ He). split_and!; [done| |].
    + intros h. destruct (pfs_magic_ok (disk_header d)); [|done]. intros [= <-]. done.
    + intros Hok. split; [by apply E3|]. intros ->. eauto.
  - intros [= <- <-].
    apply read_header_from_spec in E as (E1 & E2 & E3);
      [|done|rewrite PFS_HEADER_SECTORS_eq; lia].
    split_and!; [done|done|]. intros Hok. destruct (E3 Hok) as [[? ?] _]. done.
Qed.

Lemma write_header_from_spec n s h (d d' : D) ok :
  0 <= s -> s + Z.of_nat n <= PFS_HEADER_SECTORS -> header_bytes h ->
  write_header_from n s h d = (d', ok) ->
  (forall lba, lba < s \/ PFS_HEADER_SECTORS <= lba ->
     sector_eq (sd_contents d' lba) (sd_contents d lba)) /\
  (ok = true -> forall i, s * 512 <= i < (s + Z.of_nat n) * 512 -> disk_header d' i = h i) /\
  (sd_healthy d -> ok = true /\ sd_healthy d').
Proof.
  revert s d. induction n as [|n IH]; intros s d Hs Hn Hb; cbn [write_header_from].
  - intros [= <- <-]. split_and!; [done|lia|done].
  - unfold st_bind, st_ret. destruct (sd_write s _ d) as [d1 ok1] eqn:E.
    assert (Hv : valid_lba s).
    { unfold valid_lba, PFS_DISK_SECTORS. rewrite PFS_HEADER_SECTORS_eq in Hn. lia. }
    assert (Hsb : sector_bytes (header_sector h (s * 512))).
    { intros j Hj. apply Hb. rewrite PFS_HEADER_BYTES_eq, PFS_HEADER_SECTORS_eq in *. lia. }
    destruct ok1; simpl.
    + intros Hr. destruct (IH (s + 1) d1 ltac:(lia) ltac:(lia) Hb Hr) as (I1 & I2 & I3).
      split_and!.
      * intros lba Hl i Hi. rewrite I1 by (try done; lia).
        eapply sd_write_other; [done|done|lia|done].
      * intros -> i Hi. destruct (decide (i < (s + 1) * 512)) as [Hlt|Hge].
        -- unfold disk_header. replace (i / 512) with s by zlia.
           rewrite I1 by (try lia; apply Z.mod_pos_bound; lia).
           rewrite (sd_write_data _ _ _ _ Hv Hsb E) by (apply Z.mod_pos_bound; lia).
           unfold header_sector. f_equal. zlia.
        -- apply I2; [done|lia].
      * intros Hok. apply I3.
        destruct (sd_write_ok d s (header_sector h (s * 512)) Hok Hv) as (d2 & E2 & Hok2). congruence.
    + intros [= <- <-]. split_and!; [|done|].
      * intros lba Hl. eapply sd_write_other; [done|done|lia].
      * intros Hok.
        destruct (sd_write_ok d s (header_sector h (s * 512)) Hok Hv) as (d2 & E2 & Hok2). congruence.
Qed.

Lemma write_header_spec h (d d' : D) ok :
  header_bytes h -> write_header h d = (d', ok) ->
  (forall lba, PFS_DATA_START <= lba -> sector_eq (sd_contents d' lba) (sd_contents d lba)) /\
  (ok = true -> header_eq (disk_header d') h) /\
  (sd_healthy d -> ok = true /\ sd_healthy d').
Proof.
  intros Hb E. apply write_header_from_spec in E as (E1 & E2 & E3);
    [|done|rewrite PFS_HEADER_SECTORS_eq; lia|done].
  split_and!; [|intros -> i Hi|done].
  - intros lba Hl. apply E1. by right.
  - apply E2; [done|]. rewrite PFS_HEADER_BYTES_eq, PFS_HEADER_SECTORS_eq in *. lia.
Qed.

(** ** One sector of a transfer *)

Lemma file_loc_inj exts k1 k2 p :
  chain PFS_DATA_START exts -> 0 <= k1 -> 0 <= k2 ->
  file_loc exts k1 = Some p -> file_loc exts k2 = Some p -> k1 = k2.
Proof.
  unfold file_loc. intros Hc H1 H2 E1 E2.
  destruct (lba_walk exts (k1 / 512)) as [x1|] eqn:W1; [|done].
  destruct (lba_walk exts (k2 / 512)) as [x2|] eqn:W2; [|done].
  injection E1 as <-. injection E2 as -> Hm.
  assert (k1 / 512 = k2 / 512).
  { eapply (lba_walk_inj PFS_DATA_START exts); try done; apply Z.div_pos; lia. }
  zlia.
Qed.

Lemma chain_lba exts k x :
  chain PFS_DATA_START exts -> 0 <= k -> lba_walk exts k = Some x ->
  valid_lba x /\ PFS_DATA_START <= x /\ covered exts x.
Proof.
  intros Hc Hk E. pose proof (lba_walk_spec PFS_DATA_START exts k ltac:(done) Hc Hk) as H1.
  rewrite E in H1. destruct H1 as (_ & H2 & _).
  pose proof (chain_covered _ _ _ Hc H2) as H3. pose proof (chain_bounds _ _ Hc).
  pose proof PFS_DATA_START_eq. unfold valid_lba. split_and!; try done; lia.
Qed.

(** The chunk [hi..hi + count) of a range lies in one sector. *)
Lemma file_loc_chunk exts hi count lba k :
  0 <= hi -> 0 < count <= 512 - hi mod 512 -> lba_walk exts (hi / 512) = Some lba ->
  hi <= k < hi + count -> file_loc exts k = Some (lba, hi mod 512 + (k - hi)).
Proof.
  intros Hh Hc E Hk. unfold file_loc. replace (k / 512) with (hi / 512) by zlia.
  rewrite E. do 2 f_equal. zlia.
Qed.

Lemma stored_refl d0 exts val lo (d : D) : same_disk d0 d -> stored d0 exts val lo lo d.
Proof.
  intros Hs. split; [intros k Hk; lia|]. intros lba i Hi _. symmetry. by apply Hs.
Qed.

(** Writing the next chunk extends the stored range. *)
Lemma stored_step d0 exts val lo hi count lba b (d d' : D) :
  chain PFS_DATA_START exts -> 0 <= lo <= hi -> 0 < count <= 512 - hi mod 512 ->
  lba_walk exts (hi / 512) = Some lba -> sector_bytes b ->
  (forall i, 0 <= i < 512 ->
     b i = if (hi mod 512 <=? i) && (i <? hi mod 512 + count)
           then val (hi + (i - hi mod 512)) else sd_contents d lba i) ->
  stored d0 exts val lo hi d -> sd_write lba b d = (d', true) ->
  stored d0 exts val lo (hi + count) d'.
Proof.
  intros Hc Hlo Hcnt Hw Hb Hbv [S1 S2] E.
  destruct (chain_lba exts (hi / 512) lba Hc ltac:(apply Z.div_pos; lia) Hw) as (Hv & _ & _).
  pose proof (sd_write_data _ _ _ _ Hv Hb E) as Hd.
  assert (Hm : 0 <= hi mod 512 < 512) by (apply Z.mod_pos_bound; lia).
  split.
  - intros k Hk. destruct (decide (hi <= k)) as [Hge|Hlt].
    + unfold file_byte. rewrite (file_loc_chunk exts hi count lba k) by (try done; lia).
      rewrite Hd by lia. rewrite Hbv by lia.
      rewrite (proj2 (andb_true_iff _ _)) by (split; lia). f_equal. lia.
    + rewrite <- (S1 k) by lia. unfold file_byte.
      destruct (file_loc exts k) as [[l i]|] eqn:El; [|done].
      assert (Hi : 0 <= i < 512).
      { unfold file_loc in El. destruct (lba_walk exts (k / 512)); [|done].
        injection El as <- <-. apply Z.mod_pos_bound. lia. }
      destruct (decide (l = lba)) as [->|Hne]; [|by eapply sd_write_other].
      rewrite Hd, Hbv by done. destruct (_ && _) eqn:Er; [|done]. exfalso.
      assert (k = hi + (i - hi mod 512)); [|lia].
      apply (file_loc_inj exts _ _ (lba, i)); try done; [lia|lia|].
      rewrite (file_loc_chunk exts hi count lba) by (try done; lia). do 2 f_equal. lia.
  - intros l i Hi Hout. destruct (decide (l = lba)) as [->|Hne].
    + rewrite Hd, Hbv by done. destruct (_ && _) eqn:Er.
      * exfalso. apply (Hout (hi + (i - hi mod 512))); [lia|].
        rewrite (file_loc_chunk exts hi count lba) by (try done; lia). do 2 f_equal. lia.
      * apply S2; [done|]. intros k Hk. apply Hout. lia.
    + rewrite (sd_write_other _ _ _ _ _ _ Hv E Hne) by done.
      apply S2; [done|]. intros k Hk. apply Hout. lia.
Qed.

Lemma stored_same d0 exts val lo hi (d d' : D) :
  same_disk d d' -> stored d0 exts val lo hi d -> stored d0 exts val lo hi d'.
Proof.
  intros Hs [S1 S2]. split.
  - intros k Hk. rewrite (same_disk_byte d d') by done. auto.
  - intros lba i Hi Ho. rewrite <- (Hs lba i Hi). auto.
Qed.

(** Reading inside the allocation cannot miss. *)
Lemma lba_walk_some exts k :
  chain PFS_DATA_START exts -> 0 <= k < total_sectors exts -> is_Some (lba_walk exts k).
Proof.
  intros Hc Hk. pose proof (lba_walk_spec PFS_DATA_START exts k ltac:(done) Hc ltac:(lia)) as H1.
  destruct (lba_walk exts k); [eauto|lia].
Qed.

End IO.

(** ** The transfer loops *)

Section Loops.

Context {D : Type} `{SL : SectorLaws D}.
Context (header : arr) (index : nat).
Context (Hchain : chain PFS_DATA_START (pfs_entry_extents header index)).

Abbreviation exts := (pfs_entry_extents header index).

(** The arithmetic of one round: nothing wraps below [PFS_FILE_MAX]. *)
Lemma round_arith offset done len :
  0 <= offset -> 0 <= done < len -> offset + len <= PFS_FILE_MAX ->
  u64 (offset + done) = offset + done /\
  u32 ((offset + done) / 512) = (offset + done) / 512 /\
  0 < Z.min (len - done) (512 - (offset + done) mod 512) <= 512 - (offset + done) mod 512 /\
  Z.min (len - done) (512 - (offset + done) mod 512) <= len - done /\
  0 <= (offset + done) / 512.
Proof.
  rewrite PFS_FILE_MAX_eq. intros H1 H2 H3.
  assert (Hm : 0 <= (offset + done) mod 512 < 512) by (apply Z.mod_pos_bound; lia).
  assert (Hd : 0 <= (offset + done) / 512 < 4294967296).
  { split; [apply Z.div_pos; lia|apply Z.div_lt_upper_bound; lia]. }
  unfold u64, u32. split; [apply Z.mod_small; lia|].
  split; [by apply Z.mod_small|]. split; [lia|]. split; [lia|]. lia.
Qed.

(** What [copied] bytes of a read from [offset] are. *)
Definition file_bytes (d : D) (e : list PfsExtent) (offset : Z) (n : nat) : bytes :=
  map (fun k => file_byte d e (offset + Z.of_nat k)) (seq 0 n).

Lemma file_bytes_app d e offset n m :
  file_bytes d e offset (n + m) = file_bytes d e offset n ++ file_bytes d e (offset + Z.of_nat n) m.
Proof.
  unfold file_bytes. rewrite seq_app, map_app. f_equal. simpl.
  apply list_eq. intros i. rewrite !list_lookup_fmap.
  destruct (decide (i < m)%nat).
  - rewrite !lookup_seq_lt by done. simpl. do 2 f_equal. lia.
  - rewrite !lookup_seq_ge by lia. done.
Qed.

Lemma slice_file_bytes (d : D) a lba hi count :
  0 <= hi -> 0 < count <= 512 - hi mod 512 -> lba_walk exts (hi / 512) = Some lba ->
  sector_eq a (sd_contents d lba) ->
  slice a (hi mod 512) count = file_bytes d exts hi (Z.to_nat count).
Proof.
  intros Hh Hc E Ha. unfold slice, file_bytes. apply map_ext_in. intros k Hk.
  apply in_seq in Hk. assert (0 <= hi mod 512) by (apply Z.mod_pos_bound; lia).
  rewrite Ha by lia. unfold file_byte.
  rewrite (file_loc_chunk exts hi count lba) by (try done; lia). f_equal. lia.
Qed.

Definition read_inv (d0 : D) (offset len : Z) (d : D) (copied : bytes) : Prop :=
  same_disk d0 d /\ blen copied <= Z.max 0 len /\
  copied = file_bytes d0 exts offset (length copied) /\ (sd_healthy d0 -> sd_healthy d).

Lemma read_round_spec d0 offset len d copied :
  0 <= offset -> offset + len <= PFS_FILE_MAX -> read_inv d0 offset len d copied ->
  let '(d', r) := read_round header index offset len copied d in
  match r with
  | inl copied' => read_inv d0 offset len d' copied' /\ blen copied < blen copied'
  | inr (ok, got) =>
      read_inv d0 offset len d' got /\ (ok = true -> len <= blen got) /\
      (sd_healthy d0 -> offset + len <= total_sectors exts * 512 -> ok = true)
  end.
Proof.
  intros Ho Hl (I1 & I2 & I3 & I4). unfold read_round.
  destruct (Z.ltb_spec (blen copied) len) as [Hlt|Hge].
  2: { unfold st_ret. split_and!; done. }
  pose proof (blen_nonneg copied) as Hnn.
  destruct (round_arith offset (blen copied) len Ho ltac:(lia) Hl) as (A1 & A2 & A3 & A4 & A5).
  cbv zeta. rewrite A1, A2. unfold pfs_entry_lba_for_sector.
  destruct (lba_walk exts ((offset + blen copied) / 512)) as [lba|] eqn:Ew.
  2: { unfold st_ret. split_and!; try done. intros _ Ht. exfalso.
       destruct (lba_walk_some exts ((offset + blen copied) / 512) Hchain); [|congruence].
       split; [done|]. apply Z.div_lt_upper_bound; lia. }
  destruct (chain_lba exts _ lba Hchain A5 Ew) as (Hv & _ & _).
  unfold st_bind, st_ret. destruct (sd_read lba d) as [d1 [a|]] eqn:Er.
  - pose proof (sd_read_same _ _ _ _ Er) as Hs1. set (count := Z.min _ _) in *.
    assert (Hbl : blen (slice a ((offset + blen copied) mod 512) count) = count)
      by (apply blen_slice; lia).
    rewrite blen_app, Hbl. split; [|lia]. split_and!.
    + by transitivity d.
    + rewrite blen_app, Hbl. lia.
    + rewrite length_app, file_bytes_app, <- I3. f_equal. rewrite length_slice.
      rewrite (slice_file_bytes d a lba) by (try done; try lia; by eapply sd_read_data).
      unfold file_bytes, blen. apply map_ext. intros k. symmetry. apply same_disk_byte.
      by symmetry.
    + intros Hok. destruct (sd_read_ok d lba (I4 Hok) Hv) as (d2 & a2 & E2 & Hok2). congruence.
  - pose proof (sd_read_same _ _ _ _ Er) as Hs1. unfold read_inv. split_and!; try done.
    + by transitivity d.
    + intros Hok. destruct (sd_read_ok d lba (I4 Hok) Hv) as (d2 & a2 & E2 & Hok2). congruence.
    + intros Hok _. destruct (sd_read_ok d lba (I4 Hok) Hv) as (d2 & a2 & E2 & Hok2). congruence.
Qed.

Definition outside_same (e : list PfsExtent) (d0 d : D) : Prop :=
  forall lba, ~ covered e lba -> sector_eq (sd_contents d lba) (sd_contents d0 lba).

Lemma stored_outside val lo hi (d0 d : D) :
  0 <= lo -> stored d0 exts val lo hi d -> outside_same exts d0 d.
Proof.
  intros Hlo [_ S2] lba Hn i Hi. apply S2; [done|]. intros k Hk Hl. apply Hn.
  unfold file_loc in Hl. destruct (lba_walk exts (k / 512)) as [x|] eqn:E; [|done].
  injection Hl as <- <-. eapply chain_lba; [done| |done]. apply Z.div_pos; lia.
Qed.

(** Storing a byte range: the invariant of the write and the zero loop. *)
Definition store_inv (val : Z -> Z) (lo len : Z) (d0 d : D) (copied : Z) : Prop :=
  0 <= copied <= len /\ stored d0 exts val lo (lo + copied) d /\ (sd_healthy d0 -> sd_healthy d).

(** What the store loops end with; a failed transfer leaves every sector of
    other files alone. *)
Definition store_post (val : Z -> Z) (lo len : Z) (d0 d : D) (ok : bool) : Prop :=
  outside_same exts d0 d /\
  (ok = true -> stored d0 exts val lo (lo + len) d) /\
  (sd_healthy d0 -> sd_healthy d /\ (lo + len <= total_sectors exts * 512 -> ok = true)).

Definition store_step (val : Z -> Z) (lo len : Z) (d0 d : D) (copied : Z)
    (x : D * (Z + bool)) : Prop :=
  match x.2 with
  | inl copied' => store_inv val lo len d0 x.1 copied' /\ copied < copied'
  | inr ok => store_post val lo len d0 x.1 ok
  end.

Lemma store_done val lo len d0 d copied :
  0 <= lo -> store_inv val lo len d0 d copied -> len <= copied ->
  store_step val lo len d0 d copied (d, inr true).
Proof.
  intros Hlo (I1 & I2 & I3) Hc. assert (copied = len) as -> by lia.
  split_and!; try done; [|auto]. by eapply stored_outside.
Qed.

Lemma store_fail val lo len d0 d d' copied :
  0 <= lo -> store_inv val lo len d0 d copied -> same_disk d d' ->
  (sd_healthy d0 -> total_sectors exts * 512 < lo + len /\ sd_healthy d') ->
  store_step val lo len d0 d copied (d', inr false).
Proof.
  intros Hlo (I1 & I2 & I3) Hs Hh. split_and!; [|done|].
  - eapply (stored_outside val lo); [done|]. by eapply (stored_same d0).
  - intros Hok. destruct (Hh Hok). split; [done|]. simpl. lia.
Qed.

(** A write of the next chunk, whatever the driver answers. *)
Lemma store_chunk val lo len d0 d d1 copied lba b :
  store_inv val lo len d0 d copied -> 0 <= lo -> lo + len <= PFS_FILE_MAX -> copied < len ->
  let count := Z.min (len - copied) (512 - (lo + copied) mod 512) in
  lba_walk exts ((lo + copied) / 512) = Some lba -> sector_bytes b ->
  same_disk d d1 -> (sd_healthy d -> sd_healthy d1) ->
  (forall i, 0 <= i < 512 ->
     b i = if ((lo + copied) mod 512 <=? i) && (i <? (lo + copied) mod 512 + count)
           then val (lo + copied + (i - (lo + copied) mod 512)) else sd_contents d1 lba i) ->
  store_step val lo len d0 d copied
    ((let* ok := sd_write lba b in
      if negb ok then st_ret (inr false) else st_ret (inl (copied + count))) d1).
Proof.
  intros (I1 & I2 & I3) Ho Hl Hlt count Hw Hb Hs1 Hh1 Hbv.
  destruct (round_arith lo copied len Ho ltac:(lia) Hl) as (_ & _ & A3 & A4 & A5).
  fold count in A3, A4. pose proof (stored_same _ _ _ _ _ _ _ Hs1 I2) as I2'.
  destruct (chain_lba exts _ lba Hchain A5 Hw) as (Hv & _ & _).
  unfold st_bind, st_ret. destruct (sd_write lba b d1) as [d2 [|]] eqn:E; simpl.
  - pose proof (stored_step d0 exts val lo (lo + copied) count lba b d1 d2 Hchain
      ltac:(lia) A3 Hw Hb Hbv I2' E) as Hst.
    split; [|lia]. split_and!; [lia|lia| |].
    + by rewrite Z.add_assoc.
    + intros Hok. destruct (sd_write_ok d1 lba b) as (d3 & E3 & Hok3); [auto|done|].
      simpl. congruence.
  - split_and!; [|done|].
    + intros x Hx i Hi. rewrite (sd_write_other _ _ _ _ _ _ Hv E); [|intros ->|done].
      * by eapply (stored_outside val lo).
      * apply Hx. by eapply chain_lba.
    + intros Hok. destruct (sd_write_ok d1 lba b) as (d3 & E3 & Hok3); [auto|done|].
      congruence.
Qed.

Lemma walk_none_short lo copied len :
  0 <= lo + copied -> copied < len -> lba_walk exts ((lo + copied) / 512) = None ->
  total_sectors exts * 512 < lo + len.
Proof.
  intros H1 H2 E. destruct (Z.lt_ge_cases (total_sectors exts * 512) (lo + len)); [done|].
  destruct (lba_walk_some exts ((lo + copied) / 512) Hchain); [|congruence].
  split; [apply Z.div_pos; lia|]. apply Z.div_lt_upper_bound; lia.
Qed.

Lemma write_round_spec (data : bytes) offset d0 d copied :
  0 <= offset -> offset + blen data <= PFS_FILE_MAX -> Forall is_u8 data ->
  store_inv (fun k => nth (Z.to_nat (k - offset)) data 0) offset (blen data) d0 d copied ->
  store_step (fun k => nth (Z.to_nat (k - offset)) data 0) offset (blen data) d0 d copied
    (write_round header index offset data copied d).
Proof.
  intros Ho Hl Hdata Hinv. pose proof Hinv as (I1 & I2 & I3). unfold write_round.
  destruct (Z.ltb_spec copied (blen data)) as [Hlt|Hge]; [|by apply store_done].
  destruct (round_arith offset copied (blen data) Ho ltac:(lia) Hl) as (A1 & A2 & A3 & A4 & A5).
  cbv zeta. rewrite A1, A2. unfold pfs_entry_lba_for_sector.
  destruct (lba_walk exts ((offset + copied) / 512)) as [lba|] eqn:Ew.
  2: { apply store_fail; [done|done|done|]. intros Hok. split; [|auto].
       apply (walk_none_short offset copied); [lia|lia|done]. }
  destruct (chain_lba exts _ lba Hchain A5 Ew) as (Hv & _ & _).
  unfold st_bind at 1. destruct (sd_read lba d) as [d1 [a|]] eqn:Er.
  - pose proof (sd_read_data _ _ _ _ Hv Er) as Ha. pose proof (sd_read_same _ _ _ _ Er) as Hs.
    assert (Hm : 0 <= (offset + copied) mod 512 < 512) by (apply Z.mod_pos_bound; lia).
    set (count := Z.min _ _) in *.
    assert (Hbl : blen (take (Z.to_nat count) (drop (Z.to_nat copied) data)) = count).
    { unfold blen. rewrite length_take, length_drop. unfold blen in *. lia. }
    apply store_chunk; try done.
    + intros i Hi. unfold blit. case_goal; [|rewrite Ha by done; apply sd_bytes; done].
      apply nth_Forall; [unfold is_u8; lia|]. by apply Forall_take, Forall_drop.
    + intros Hok. destruct (sd_read_ok d lba Hok Hv) as (d2 & a2 & E2 & Hok2). congruence.
    + intros i Hi. fold count. unfold blit. rewrite Hbl. case_goal; [|rewrite Ha by done; by apply Hs].
      rewrite nth_take_lt, nth_drop by lia. f_equal. lia.
  - apply store_fail; [done|done|by eapply sd_read_same|]. intros Hok.
    destruct (sd_read_ok d lba (I3 Hok) Hv) as (d2 & a2 & E2 & Hok2). congruence.
Qed.

Lemma zero_round_spec start len d0 d written :
  0 <= start -> start + len <= PFS_FILE_MAX ->
  store_inv (fun _ => 0) start len d0 d written ->
  store_step (fun _ => 0) start len d0 d written (zero_round header index start len written d).
Proof.
  intros Ho Hl Hinv. pose proof Hinv as (I1 & I2 & I3). unfold zero_round.
  destruct (Z.ltb_spec written len) as [Hlt|Hge]; [|by apply store_done].
  destruct (round_arith start written len Ho ltac:(lia) Hl) as (A1 & A2 & A3 & A4 & A5).
  cbv zeta. rewrite A1, A2. unfold pfs_entry_lba_for_sector.
  destruct (lba_walk exts ((start + written) / 512)) as [lba|] eqn:Ew.
  2: { apply store_fail; [done|done|done|]. intros Hok. split; [|auto].
       apply (walk_none_short start written); [lia|lia|done]. }
  destruct (chain_lba exts _ lba Hchain A5 Ew) as (Hv & _ & _).
  assert (Hm : 0 <= (start + written) mod 512 < 512) by (apply Z.mod_pos_bound; lia).
  destruct (Z.eqb_spec (Z.min (len - written) (512 - (start + written) mod 512)) 512) as [Hc|Hc].
  - apply store_chunk; try done.
    intros i Hi. rewrite Hc. unfold zeroed. case_goal; [done|lia].
  - unfold st_bind at 1. destruct (sd_read lba d) as [d1 [a|]] eqn:Er.
    + pose proof (sd_read_data _ _ _ _ Hv Er) as Ha. pose proof (sd_read_same _ _ _ _ Er) as Hs.
      apply store_chunk; try done.
      * intros i Hi. unfold fill_range. case_goal; [unfold is_u8; lia|].
        rewrite Ha by done. by apply sd_bytes.
      * intros Hok. destruct (sd_read_ok d lba Hok Hv) as (d2 & a2 & E2 & Hok2). congruence.
      * intros i Hi. unfold fill_range. case_goal; [done|]. rewrite Ha by done. by apply Hs.
    + apply store_fail; [done|done|by eapply sd_read_same|]. intros Hok.
      destruct (sd_read_ok d lba (I3 Hok) Hv) as (d2 & a2 & E2 & Hok2). congruence.
Qed.

(** A store loop as a whole, from its round. *)
Lemma store_loop_spec val lo len (round : Z -> ST D (Z + bool)) d0 :
  0 <= lo -> 0 <= len ->
  (forall d copied, store_inv val lo len d0 d copied ->
     store_step val lo len d0 d copied (round copied d)) ->
  let '(d', ok) := st_loop (Z.to_pos (len + 1)) round false 0 d0 in
  store_post val lo len d0 d' ok.
Proof.
  intros Hlo Hlen Hround.
  apply (st_loop_total (store_inv val lo len d0) (fun copied => len - copied)
    (fun d ok => store_post val lo len d0 d ok)).
  - intros d copied (I1 & _). lia.
  - intros d copied Hi. specialize (Hround d copied Hi). unfold store_step in Hround.
    destruct (round copied d) as [d' [c|ok]]; simpl in *; [|done]. split; [apply Hround|].
    destruct Hround. lia.
  - split_and!; [lia|lia| |done]. rewrite Z.add_0_r. by apply stored_refl.
  - lia.
Qed.

End Loops.
