(* ===== verification/PfsData.v ===== *)
(** * The data path of the file store

    What [pfs_read_at], [pfs_ensure_file_capacity], [pfs_write_at] and
    [pfs_update_size] promise on a well-formed disk: reads return the bytes the
    extents hold; growing keeps the file's bytes and the other files; a write
    stores the data, zeroes the gap it leaves, and changes nothing else. *)

From S2P Require Import Prelude Constants Text PfsLayout PfsDir PfsAlloc Device Pfs PfsIO.

(** A disk that holds a well-formed store. *)
Record store_wf {D} `{SectorDev D} (d : D) : Prop := {
  st_magic : pfs_magic_ok (disk_header d) = true;
  st_names : names_fit (disk_header d);
  st_alloc : alloc_wf (disk_header d)
}.

(** Growing a file may only fail for want of free sectors or of extent slots. *)
Definition can_grow (h : arr) (index : nat) (size : Z) : bool :=
  let additional := sectors_for_len size - pfs_entry_total_sectors h index in
  if additional <=? 0 then true
  else match pfs_grow_extents h (pfs_entry_extents h index) additional (Some index) with
       | Some _ => true
       | None => false
       end.

(** ** The header *)

Lemma other_extents_covered h index x :
  covered (pfs_other_extents h (Some index)) x <->
  exists j, j <> index /\ is_file h j /\ covered (pfs_entry_extents h j) x.
Proof.
  unfold pfs_other_extents, covered. split.
  - intros (e & He & Hx). apply list_elem_of_In, in_concat in He as (l & Hl & He).
    apply in_map_iff in Hl as (j & <- & Hj). apply in_seq in Hj.
    case_hyp He; [done|]. apply list_elem_of_In in He.
    apply orb_false_iff in Heqb as [Hb Hdir]. apply orb_false_iff in Hb as [Hb Hu].
    apply bool_decide_eq_false in Hb. apply negb_false_iff in Hu.
    exists j. split; [congruence|]. split; [by split; [lia|]|eauto].
  - intros (j & Hj & (Hr & Hu & Hdir) & e & He & Hx). exists e. split; [|done].
    apply list_elem_of_In, in_concat. exists (pfs_entry_extents h j).
    split; [|by apply list_elem_of_In]. apply in_map_iff. exists j. split; [|apply in_seq; lia].
    rewrite bool_decide_false by congruence. by rewrite Hu, Hdir.
Qed.

Lemma other_extents_no_wrap h index :
  alloc_wf h -> no_wrap (pfs_other_extents h (Some index)).
Proof.
  intros Hw. apply Forall_forall. intros e He. unfold pfs_other_extents in He.
  apply list_elem_of_In, in_concat in He as (l & Hl & He).
  apply in_map_iff in Hl as (j & <- & Hj). apply in_seq in Hj.
  case_hyp He; [done|]. apply orb_false_iff in Heqb as [Hb Hdir].
  apply orb_false_iff in Hb as [Hb Hu]. apply negb_false_iff in Hu.
  assert (Hc : chain PFS_DATA_START (pfs_entry_extents h j)).
  { apply (aw_chain _ Hw). by split; [lia|]. }
  apply chain_no_wrap in Hc; [|rewrite PFS_DATA_START_eq; lia].
  unfold no_wrap in Hc. rewrite Forall_forall in Hc. apply Hc. by apply list_elem_of_In.
Qed.

Lemma is_file_agree h1 h2 i : entry_agree h1 h2 i -> is_file h1 i <-> is_file h2 i.
Proof.
  intros Ha. unfold is_file.
  by rewrite (used_agree h1 h2), (is_dir_agree h1 h2) by done.
Qed.

(** The entry after [pfs_set_entry] of a grown extent list. *)
Definition grow_entry (h : arr) (index : nat) (exts : list PfsExtent) (now : Z) : arr :=
  pfs_set_entry h index (pfs_entry_name h index) (pfs_entry_size h index)
    (pfs_entry_kind h index) exts (pfs_entry_created h index) (pfs_entry_mode h index) now.

Lemma entry_name_blen h i :
  (0 <= h (pfs_entry_offset i + 1)) -> name_fits h i -> blen (pfs_entry_name h i) <= PFS_NAME_MAX.
Proof. intros H0 Hn. unfold pfs_entry_name. rewrite blen_slice; done. Qed.

Lemma names_fit_blen h i :
  header_bytes h -> names_fit h -> (i < PFS_ENTRY_COUNT)%nat ->
  blen (pfs_entry_name h i) <= PFS_NAME_MAX.
Proof.
  intros Hb Hn Hi. apply entry_name_blen; [|by apply Hn].
  apply (header_bytes_entry h i 1 Hb Hi). pfs_const. lia.
Qed.

Lemma grow_entry_fits h index exts now :
  header_bytes h -> names_fit h -> (index < PFS_ENTRY_COUNT)%nat -> is_u64 now ->
  chain PFS_DATA_START exts -> (length exts <= PFS_MAX_EXTENTS)%nat ->
  entry_fits (pfs_entry_name h index) (pfs_entry_size h index) (pfs_entry_kind h index) exts
    (pfs_entry_created h index) (pfs_entry_mode h index) now.
Proof.
  intros Hb Hn Hi Hnow Hc Hl.
  destruct (entry_fits_reread h index (pfs_entry_name h index) now) as [F1 F2 _ _ F5 F6];
    auto using names_fit_blen.
  split; try done. apply chain_no_wrap in Hc; [|rewrite PFS_DATA_START_eq; lia].
  eapply Forall_impl; [done|]. intros e (H1 & H2 & H3). unfold extent_fits, is_u32. lia.
Qed.

Section Grow.

Context (h : arr) (index : nat) (exts : list PfsExtent) (now extra : Z).
Context (Hb : header_bytes h) (Hn : names_fit h) (Hw : alloc_wf h) (Hf : is_file h index).
Context (Hnow : is_u64 now).
Context (Hg : grown (pfs_other_extents h (Some index)) (pfs_entry_extents h index) extra exts).

Let h' := grow_entry h index exts now.

Lemma grow_fits :
  entry_fits (pfs_entry_name h index) (pfs_entry_size h index) (pfs_entry_kind h index) exts
    (pfs_entry_created h index) (pfs_entry_mode h index) now.
Proof. destruct Hg, Hf. by apply grow_entry_fits. Qed.

Lemma grow_view :
  pfs_view h' index = mkView (pfs_entry_kind h index) (pfs_entry_name h index)
    (pfs_entry_size h index) exts (pfs_entry_created h index) now (pfs_entry_mode h index).
Proof. apply set_entry_view, grow_fits. Qed.

Lemma grow_agree j : j <> index -> entry_agree h' h j.
Proof. intros. apply set_entry_agree; [congruence|]. apply fits_name with (1 := grow_fits). Qed.

Lemma grow_extents_same : pfs_entry_extents h' index = exts.
Proof. exact (f_equal v_extents grow_view). Qed.

Lemma grow_is_file j : is_file h' j <-> is_file h j.
Proof.
  destruct (decide (j = index)) as [->|Hj]; [|by apply is_file_agree, grow_agree].
  unfold is_file. rewrite !view_used, !view_is_dir. rewrite grow_view. done.
Qed.

Lemma grow_alloc_wf : alloc_wf h'.
Proof.
  assert (Hother : forall j, j <> index -> pfs_entry_extents h' j = pfs_entry_extents h j).
  { intros j Hj. by apply extents_agree, grow_agree. }
  assert (Hnew : forall j x, j <> index -> is_file h j ->
            covered exts x -> ~ covered (pfs_entry_extents h j) x).
  { intros j x Hj Hfj Hx Hc. destruct (gr_new _ _ _ _ Hg x Hx) as [Hold|Hfree].
    - by apply (aw_disjoint _ Hw index j x).
    - apply Hfree, other_extents_covered. eauto. }
  split.
  - intros i Hi. apply grow_is_file in Hi. destruct (decide (i = index)) as [->|Hne].
    + rewrite grow_extents_same. apply Hg.
    + rewrite Hother by done. by apply Hw.
  - intros i j x Hi Hj Hij. apply grow_is_file in Hi, Hj.
    destruct (decide (i = index)) as [->|Hi'], (decide (j = index)) as [->|Hj'];
      [done| | |]; rewrite ?grow_extents_same, ?Hother by done.
    + by apply Hnew.
    + intros H1 H2. by apply (Hnew i x).
    + by apply (aw_disjoint _ Hw).
Qed.

Lemma grow_names : names_fit h'.
Proof.
  intros j Hj. destruct (decide (j = index)) as [->|Hne].
  - apply set_entry_name_fits. apply fits_name with (1 := grow_fits).
  - apply (name_fits_agree h); [|by apply Hn]. by apply entry_agree_sym, grow_agree.
Qed.

Lemma grow_magic : pfs_magic_ok h' = pfs_magic_ok h.
Proof.
  unfold pfs_magic_ok. f_equal. apply slice_ext. intros i Hi. apply pfs_set_entry_out.
  - apply fits_name with (1 := grow_fits).
  - left. unfold pfs_entry_offset. pfs_const. lia.
Qed.

End Grow.

(** ** The written header is made of bytes *)

Lemma set_extents_u8 h off slot exts i : is_u8 (h i) -> is_u8 (set_extents h off slot exts i).
Proof.
  revert h slot. induction exts as [|e exts IH]; intros h slot Hh; simpl; [done|].
  apply IH. by apply blit_u8, le_bytes_u8; apply blit_u8, le_bytes_u8.
Qed.

Lemma set_entry_bytes h index name size kind exts created mode now :
  header_bytes h -> Forall is_u8 name -> is_u8 kind -> is_u8 mode ->
  header_bytes (pfs_set_entry h index name size kind exts created mode now).
Proof.
  intros Hb Hn Hk Hm i Hi. unfold pfs_set_entry. cbv zeta.
  apply blit_u8; [|done]. apply aset_u8; [|done].
  do 2 (apply blit_u8; [|apply le_bytes_u8]). apply set_extents_u8.
  apply aset_u8; [|apply u8_range]. apply blit_u8; [|apply le_bytes_u8].
  apply aset_u8; [|apply u8_range]. apply aset_u8; [|done].
  apply fill_u8; [by apply Hb|unfold is_u8; lia].
Qed.

Lemma entry_name_u8 h i :
  header_bytes h -> names_fit h -> (i < PFS_ENTRY_COUNT)%nat -> Forall is_u8 (pfs_entry_name h i).
Proof.
  intros Hb Hn Hi. apply Forall_forall. intros x Hx. unfold pfs_entry_name, slice in Hx.
  apply list_elem_of_In, in_map_iff in Hx as (k & <- & Hk). apply in_seq in Hk.
  pose proof (pfs_entry_offset_range i Hi). pose proof (Hn i Hi) as Hf. unfold name_fits in Hf.
  apply Hb. pfs_const. lia.
Qed.

Lemma grow_entry_bytes h index exts now :
  header_bytes h -> names_fit h -> (index < PFS_ENTRY_COUNT)%nat ->
  header_bytes (grow_entry h index exts now).
Proof.
  intros Hb Hn Hi. apply set_entry_bytes; [done|by apply entry_name_u8| |].
  - pose proof (header_bytes_entry h index 0 Hb Hi) as Hk. rewrite Z.add_0_r in Hk.
    apply Hk. pfs_const. lia.
  - apply (header_bytes_entry h index PFS_MODE_OFFSET Hb Hi). pfs_const. lia.
Qed.

(** ** Well-formedness only depends on the header bytes *)

Lemma header_eq_file h1 h2 i : header_eq h1 h2 -> is_file h1 i <-> is_file h2 i.
Proof.
  intros He. split; intros (Hi & Hrest).
  - apply (is_file_agree h1 h2); [by apply header_eq_agree|]. by split.
  - apply (is_file_agree h1 h2); [by apply header_eq_agree|]. by split.
Qed.

Lemma header_eq_extents h1 h2 i :
  header_eq h1 h2 -> (i < PFS_ENTRY_COUNT)%nat -> pfs_entry_extents h1 i = pfs_entry_extents h2 i.
Proof. intros He Hi. by apply extents_agree, header_eq_agree. Qed.

#[export] Instance alloc_wf_proper : Proper (header_eq ==> iff) alloc_wf.
Proof.
  assert (Himp : forall h1 h2, header_eq h1 h2 -> alloc_wf h1 -> alloc_wf h2).
  { intros h1 h2 He [Hc Hd]. split.
    - intros i Hi. rewrite <- (header_eq_extents h1 h2 i He) by apply Hi.
      apply Hc. by apply (header_eq_file h1 h2).
    - intros i j x Hi Hj Hij. rewrite <- (header_eq_extents h1 h2 i He) by apply Hi.
      rewrite <- (header_eq_extents h1 h2 j He) by apply Hj.
      apply Hd; [by apply (header_eq_file h1 h2)|by apply (header_eq_file h1 h2)|done]. }
  intros h1 h2 He. split; apply Himp; [done|by symmetry].
Qed.

#[export] Instance names_fit_proper : Proper (header_eq ==> iff) names_fit.
Proof.
  intros h1 h2 He. split; intros Hn i Hi.
  - apply (name_fits_agree h1); [by apply header_eq_agree|auto].
  - apply (name_fits_agree h2); [apply header_eq_agree; [done|by symmetry]|auto].
Qed.

Section Data.

Context {D : Type} `{SL : SectorLaws D} (clk : Clock).
Context (Hclk : 0 <= BOOT_TSC clk).

Abbreviation hdr := disk_header.

Lemma store_wf_header (d d' : D) :
  header_eq (hdr d') (hdr d) -> store_wf d -> store_wf d'.
Proof.
  intros He [H1 H2 H3]. split.
  - by rewrite (magic_header_eq _ _ He).
  - by rewrite He.
  - by rewrite He.
Qed.

Lemma store_wf_same (d d' : D) : same_disk d d' -> store_wf d -> store_wf d'.
Proof. intros Hs. apply store_wf_header. by apply same_disk_header. Qed.

(** Bytes of a file depend on its sectors only. *)
Lemma file_byte_ext (d d' : D) exts k :
  chain PFS_DATA_START exts -> 0 <= k ->
  (forall lba, covered exts lba -> sector_eq (sd_contents d' lba) (sd_contents d lba)) ->
  file_byte d' exts k = file_byte d exts k.
Proof.
  intros Hc Hk Hs. unfold file_byte, file_loc.
  destruct (lba_walk exts (k / 512)) as [lba|] eqn:E; [|done].
  apply Hs; [|apply Z.mod_pos_bound; lia]. eapply chain_lba; [done| |done].
  apply Z.div_pos; lia.
Qed.

Lemma file_byte_map (d : D) exts exts' k :
  keeps_map exts exts' -> 0 <= k -> is_Some (lba_walk exts (k / 512)) ->
  file_byte d exts' k = file_byte d exts k.
Proof.
  intros Hm Hk [x Hx]. unfold file_byte, file_loc.
  rewrite (Hm _ x), Hx; [done|apply Z.div_pos; lia|done].
Qed.

(** ** Reading *)

Lemma read_at_full (d d' : D) index offset len ok got :
  store_wf d -> is_file (hdr d) index ->
  0 <= offset -> 0 <= len -> offset + len <= PFS_FILE_MAX ->
  pfs_read_at index offset len d = (d', (ok, got)) ->
  let exts := pfs_entry_extents (hdr d) index in
  same_disk d d' /\ blen got <= len /\
  got = file_bytes d exts offset (length got) /\
  (ok = true -> blen got = len) /\
  (sd_healthy d -> offset + len <= total_sectors exts * 512 -> ok = true) /\
  (sd_healthy d -> sd_healthy d').
Proof.
  intros Hwf Hf Ho Hl Hm. unfold pfs_read_at, st_bind, st_ret.
  destruct (read_header_silent d) as [d1 [h|]] eqn:Er;
    apply read_header_spec in Er as (Hs & Hh & Hok).
  2: { intros [= <- <- <-]. split_and!; [done|done|done|done| |by intros Hhe; apply Hok].
       intros Hhe. destruct (Hok Hhe) as [_ Hsome]. destruct (Hsome (st_magic _ Hwf)). done. }
  destruct (Hh h eq_refl) as [He _]. destruct Hf as (Hi & Hu & Hd).
  pose proof (header_eq_agree _ _ index Hi He) as Ha.
  rewrite (used_agree _ _ _ Ha), Hu, orb_false_r.
  replace (u64 (offset + len)) with (offset + len)
    by (unfold u64; rewrite PFS_FILE_MAX_eq in Hm; rewrite Z.mod_small; lia).
  destruct (Z.ltb_spec PFS_FILE_MAX (offset + len)); [lia|].
  pose proof (extents_agree _ _ _ Ha) as Hexts.
  assert (Hchain : chain PFS_DATA_START (pfs_entry_extents h index))
    by (rewrite Hexts; by apply Hwf).
  intros Eloop. pose proof (st_loop_total (read_inv h index d offset len)
    (fun copied => len - blen copied)
    (fun d' r => read_inv h index d offset len d' r.2 /\ (r.1 = true -> len <= blen r.2) /\
      (sd_healthy d -> offset + len <= total_sectors (pfs_entry_extents h index) * 512 ->
       r.1 = true))
    (Z.to_pos (len + 1)) (read_round h index offset len) (false, []) [] d1) as Hloop.
  rewrite Eloop in Hloop. simpl in Hloop. rewrite <- Hexts.
  destruct Hloop as ((I1 & I2 & I3 & I4) & Q1 & Q2).
  - intros d2 s2 (_ & H2 & _). lia.
  - intros d2 s2 H2. pose proof (read_round_spec h index Hchain d offset len d2 s2 Ho Hm H2) as Hr.
    destruct (read_round h index offset len s2 d2) as [d3 [s3|[o3 g3]]]; [|done].
    split; [apply Hr|]. destruct Hr. lia.
  - split_and!; [done|unfold blen; simpl; lia|done|]. intros Hhe. by apply Hok.
  - unfold blen. simpl. lia.
  - split_and!; [done|lia|done| |done|done]. intros Hok1. specialize (Q1 Hok1). lia.
Qed.

Lemma read_at_spec (d d' : D) index offset len ok got :
  store_wf d -> is_file (hdr d) index ->
  0 <= offset -> 0 <= len -> offset + len <= PFS_FILE_MAX ->
  pfs_read_at index offset len d = (d', (ok, got)) ->
  let exts := pfs_entry_extents (hdr d) index in
  same_disk d d' /\ blen got <= len /\
  got = file_bytes d exts offset (length got) /\
  (ok = true -> blen got = len) /\
  (sd_healthy d -> offset + len <= total_sectors exts * 512 -> ok = true).
Proof.
  intros Hwf Hf Ho Hl Hm Hr. destruct (read_at_full d d' index offset len ok got) as (?&?&?&?&?&_); try done.
Qed.

(** ** Growing *)

(** The disk after the allocation of [index] has grown to hold [size] bytes. *)
Record grown_disk (d : D) (index : nat) (size : Z) (d' : D) : Prop := {
  gd_wf : store_wf d';
  gd_entry : exists exts' now,
    pfs_view (hdr d') index =
      mkView (pfs_entry_kind (hdr d) index) (pfs_entry_name (hdr d) index)
        (pfs_entry_size (hdr d) index) exts' (pfs_entry_created (hdr d) index) now
        (pfs_entry_mode (hdr d) index) /\
    keeps_map (pfs_entry_extents (hdr d) index) exts' /\
    sectors_for_len size <= total_sectors exts';
  gd_other : forall j, (j < PFS_ENTRY_COUNT)%nat -> j <> index ->
    entry_agree (hdr d') (hdr d) j;
  gd_data : forall lba, PFS_DATA_START <= lba ->
    sector_eq (sd_contents d' lba) (sd_contents d lba)
}.

Lemma fold_total lo l t :
  chain lo l -> 0 <= t <= lo ->
  fold_left (fun total e => u32 (total + sectors e)) l t = t + total_sectors l.
Proof.
  revert lo t. induction l as [|e l IH]; intros lo t Hc Ht; simpl;
    [unfold total_sectors; simpl; lia|].
  simpl in Hc. destruct Hc as (H1 & H2 & H3). pose proof (chain_bounds _ _ H3).
  unfold PFS_DISK_SECTORS in *.
  replace (u32 (t + sectors e)) with (t + sectors e) by (unfold u32; rewrite Z.mod_small; lia).
  rewrite (IH (start e + sectors e)); [unfold total_sectors; simpl; lia|done|lia].
Qed.

Lemma total_sectors_eq h i :
  chain PFS_DATA_START (pfs_entry_extents h i) ->
  pfs_entry_total_sectors h i = total_sectors (pfs_entry_extents h i).
Proof.
  intros Hc. unfold pfs_entry_total_sectors.
  rewrite (fold_total PFS_DATA_START) by (try done; rewrite PFS_DATA_START_eq; lia). lia.
Qed.

Lemma grown_disk_same (d d' : D) index size :
  store_wf d -> is_file (hdr d) index -> same_disk d d' ->
  sectors_for_len size <= pfs_entry_total_sectors (hdr d) index -> grown_disk d index size d'.
Proof.
  intros Hwf Hf Hs Hsz. pose proof (same_disk_header _ _ Hs) as He. destruct Hf as (Hi & Hu & Hd).
  pose proof (header_eq_agree _ _ _ Hi He) as Ha.
  split.
  - by eapply store_wf_same.
  - rewrite (view_agree _ _ _ Ha).
    2: { apply (name_fits_agree (hdr d)); [by apply entry_agree_sym|by apply Hwf]. }
    eexists _, _. split; [done|]. split; [by intros k x|]. by rewrite <- total_sectors_eq by
      (apply Hwf; by split).
  - intros j Hj _. by apply header_eq_agree.
  - intros lba _ i Hi'. symmetry. by apply Hs.
Qed.

(** The write of the grown header. *)
Lemma grown_disk_write (d d1 d' : D) index size h exts now :
  store_wf d -> is_file (hdr d) index -> same_disk d d1 -> header_eq h (hdr d) -> is_u64 now ->
  grown (pfs_other_extents h (Some index)) (pfs_entry_extents h index)
    (sectors_for_len size - pfs_entry_total_sectors h index) exts ->
  write_header (grow_entry h index exts now) d1 = (d', true) -> grown_disk d index size d'.
Proof.
  intros Hwf Hf Hs He Hnow Hg Hwr. destruct Hf as (Hi & Hu & Hd).
  assert (Hb : header_bytes h).
  { intros i Hr. rewrite He by done. by apply disk_header_bytes. }
  assert (Hn : names_fit h) by (rewrite He; apply Hwf).
  assert (Ha : alloc_wf h) by (rewrite He; apply Hwf).
  assert (Hfile : is_file h index) by (apply (header_eq_file _ _ _ He); by split).
  pose proof (header_eq_agree _ _ _ Hi He) as Hag.
  apply write_header_spec in Hwr as (W1 & W2 & _); [|by apply grow_entry_bytes].
  specialize (W2 eq_refl). pose proof (header_eq_agree _ _ _ Hi W2) as Hag'.
  assert (Hnf : names_fit (grow_entry h index exts now)) by (eapply grow_names; done).
  split.
  - split.
    + rewrite (magic_header_eq _ _ W2).
      rewrite (grow_magic h index exts now _ Hb Hn Hfile Hnow Hg).
      rewrite (magic_header_eq _ _ He). apply Hwf.
    + by rewrite W2.
    + rewrite W2. eapply grow_alloc_wf; done.
  - exists exts, now. rewrite (view_agree (hdr d') (grow_entry h index exts now)).
    + rewrite (grow_view h index exts now _ Hb Hn Hfile Hnow Hg).
      pose proof (view_agree _ _ _ Hag (Hn index Hi)) as Hv. injection Hv as -> -> -> V1 -> _ ->.
      rewrite <- V1. split; [done|]. split; [apply Hg|]. rewrite (gr_total _ _ _ _ Hg).
      rewrite total_sectors_eq by (apply Ha; done). lia.
    + done.
    + apply (name_fits_agree (grow_entry h index exts now)); [by apply entry_agree_sym|auto].
  - intros j Hj Hne k Hk. rewrite (header_eq_agree _ _ _ Hj W2) by done.
    rewrite (grow_agree h index exts now _ Hb Hn Hfile Hnow Hg j Hne) by done.
    by apply (header_eq_agree _ _ _ Hj He).
  - intros lba Hl i Hr. rewrite (W1 lba Hl i Hr). symmetry. by apply Hs.
Qed.

Lemma sectors_for_len_eq size :
  0 <= size <= PFS_FILE_MAX -> sectors_for_len size = (size + 511) / 512.
Proof.
  rewrite PFS_FILE_MAX_eq. intros Hs. unfold sectors_for_len, u32, u64.
  destruct (Z.eqb_spec size 0) as [->|]; [done|].
  rewrite (Z.mod_small (size + 511)) by lia. rewrite Z.mod_small; [done|].
  split; [apply Z.div_pos; lia|apply Z.div_lt_upper_bound; lia].
Qed.

Lemma other_extents_eq h1 h2 skip :
  header_eq h1 h2 -> pfs_other_extents h1 skip = pfs_other_extents h2 skip.
Proof.
  intros He. unfold pfs_other_extents. f_equal. apply map_ext_in. intros i Hi.
  apply in_seq in Hi. assert (Ha : entry_agree h1 h2 i) by (apply header_eq_agree; [lia|done]).
  rewrite (used_agree h1 h2), (is_dir_agree h1 h2), (extents_agree h1 h2) by done. done.
Qed.

Lemma can_grow_eq h1 h2 index size :
  (index < PFS_ENTRY_COUNT)%nat -> header_eq h1 h2 ->
  can_grow h1 index size = can_grow h2 index size.
Proof.
  intros Hi He. unfold can_grow, pfs_grow_extents, pfs_entry_total_sectors.
  by rewrite (header_eq_extents h1 h2), (other_extents_eq h1 h2) by done.
Qed.

Lemma grow_extents_file h index extra :
  alloc_wf h -> is_file h index -> 0 <= extra ->
  grow_post (pfs_other_extents h (Some index)) (pfs_entry_extents h index) extra
    (pfs_grow_extents h (pfs_entry_extents h index) extra (Some index)).
Proof.
  intros Hw Hf He. apply grow_extents_spec; [by apply other_extents_no_wrap|by apply Hw| |done].
  apply entry_extents_count.
Qed.

(** The data area is untouched, whatever the outcome. *)
Definition data_same (d d' : D) : Prop :=
  forall lba, PFS_DATA_START <= lba -> sector_eq (sd_contents d' lba) (sd_contents d lba).

Lemma same_data (d d' : D) : same_disk d d' -> data_same d d'.
Proof. intros Hs lba _ i Hi. symmetry. by apply Hs. Qed.

Lemma ensure_capacity_spec (d d' : D) index size ok :
  store_wf d -> is_file (hdr d) index -> 0 <= size <= PFS_FILE_MAX ->
  pfs_ensure_file_capacity clk index size d = (d', ok) ->
  (ok = true -> grown_disk d index size d') /\ data_same d d' /\
  (sd_healthy d -> sd_healthy d' /\ ok = can_grow (hdr d) index size /\
     (ok = false -> same_disk d d')).
Proof.
  intros Hwf Hf Hsz. unfold pfs_ensure_file_capacity, st_bind at 1.
  destruct (read_header_silent d) as [d1 [h|]] eqn:Er;
    apply read_header_spec in Er as (Hs & Hh & Hok).
  2: { intros [= <- <-]. split_and!; [done|by apply same_data|].
       intros Hhe. destruct (Hok Hhe) as [_ Hsome]. destruct (Hsome (st_magic _ Hwf)). done. }
  destruct (Hh h eq_refl) as [He _]. pose proof Hf as (Hi & Hu & Hd).
  pose proof (header_eq_agree _ _ index Hi He) as Ha.
  rewrite (used_agree _ _ _ Ha), (is_dir_agree _ _ _ Ha), Hu, Hd. cbn [negb orb].
  assert (Hc : chain PFS_DATA_START (pfs_entry_extents h index)).
  { rewrite (extents_agree _ _ _ Ha). by apply Hwf. }
  rewrite <- (can_grow_eq h (hdr d) index size Hi He). unfold can_grow.
  destruct (Z.leb_spec (sectors_for_len size) (pfs_entry_total_sectors h index)) as [Hle|Hgt].
  { unfold st_ret. intros [= <- <-]. split_and!; [intros _|by apply same_data|].
    - apply grown_disk_same; try done.
      unfold pfs_entry_total_sectors in *. by rewrite <- (extents_agree _ _ _ Ha).
    - intros Hhe. split; [by apply Hok|]. split; [case_goal; [done|lia]|done]. }
  destruct (Z.leb_spec (sectors_for_len size - pfs_entry_total_sectors h index) 0); [lia|].
  assert (Hw : alloc_wf h) by (rewrite He; apply Hwf).
  assert (Hfile : is_file h index) by by apply (header_eq_file _ _ _ He).
  assert (Hpos : 0 <= sectors_for_len size - pfs_entry_total_sectors h index) by lia.
  pose proof (grow_extents_file h index _ Hw Hfile Hpos) as Hg.
  destruct (pfs_grow_extents h (pfs_entry_extents h index) _ (Some index)) as [exts|].
  2: { unfold st_ret. intros [= <- <-]. split_and!; [done|by apply same_data|].
       intros Hhe. split_and!; [by apply Hok|done|done]. }
  simpl in Hg. unfold st_bind. destruct (ns_since_boot clk d1) as [d2 now] eqn:Et. intros Hwr.
  pose proof (ns_since_boot_same _ _ _ _ Et) as Hs2.
  pose proof (ns_since_boot_range _ _ _ _ Hclk Et) as Hnow.
  assert (Hs02 : same_disk d d2) by (by transitivity d1).
  assert (Hbytes : header_bytes (grow_entry h index exts now)).
  { apply grow_entry_bytes; [|rewrite He; apply Hwf|done].
    intros i Hr. rewrite He by done. by apply disk_header_bytes. }
  split_and!.
  - intros ->. by apply (grown_disk_write d d2 d' index size h exts now).
  - intros lba Hl i Hr. apply write_header_spec in Hwr as (W1 & _); [|done].
    rewrite (W1 lba Hl i Hr). symmetry. by apply Hs02.
  - intros Hhe. apply write_header_spec in Hwr as (_ & _ & W3); [|done].
    destruct W3 as [-> ?]; [eapply ns_since_boot_healthy; [|done]; by apply Hok|]. by split_and!.
Qed.

(** ** Writing *)

Definition byte_at (data : bytes) (offset k : Z) : Z := nth (Z.to_nat (k - offset)) data 0.

(** Header and other files after a transfer into the sectors of [exts]. *)
Lemma outside_header (d d' : D) exts :
  chain PFS_DATA_START exts -> outside_same exts d d' -> header_eq (hdr d') (hdr d).
Proof.
  intros Hc Ho i Hi. apply Ho; [|apply Z.mod_pos_bound; lia]. intros Hcov.
  pose proof (chain_covered _ _ _ Hc Hcov) as Hb. pose proof PFS_DATA_START_eq.
  rewrite PFS_HEADER_BYTES_eq in Hi. assert (i / 512 < 77) by (apply Z.div_lt_upper_bound; lia).
  lia.
Qed.

Lemma outside_trans exts (d1 d2 d3 : D) :
  outside_same exts d1 d2 -> outside_same exts d2 d3 -> outside_same exts d1 d3.
Proof. intros H1 H2 lba Hl i Hi. rewrite (H2 lba Hl i Hi). by apply H1. Qed.

Lemma same_outside exts (d1 d2 : D) : same_disk d1 d2 -> outside_same exts d1 d2.
Proof. intros Hs lba _ i Hi. symmetry. by apply Hs. Qed.

(** The bytes a file must hold after [data] was written at [offset]. *)
Definition write_result (d : D) (index : nat) (offset : Z) (data : bytes) (k : Z) : Z :=
  if (offset <=? k) && (k <? offset + blen data) then byte_at data offset k
  else if (pfs_entry_size (hdr d) index <=? k) && (k <? offset) then 0
  else file_byte d (pfs_entry_extents (hdr d) index) k.

Lemma stored_byte (d0 d : D) exts val lo hi k :
  chain PFS_DATA_START exts -> 0 <= lo -> stored d0 exts val lo hi d -> 0 <= k ->
  file_byte d exts k = if (lo <=? k) && (k <? hi) then val k else file_byte d0 exts k.
Proof.
  intros Hc Hlo [S1 S2] Hk. destruct ((lo <=? k) && (k <? hi)) eqn:E; [apply S1; lia|].
  unfold file_byte. destruct (file_loc exts k) as [[lba i]|] eqn:El; [|done].
  apply S2.
  - unfold file_loc in El. destruct (lba_walk exts (k / 512)); [|done]. injection El as <- <-.
    apply Z.mod_pos_bound. lia.
  - intros j Hj Ej. assert (k = j); [|lia].
    apply (file_loc_inj exts k j (lba, i)); try done; lia.
Qed.

(** The transfer part of [pfs_write_at], after the allocation has grown. *)
Definition write_tail (index : nat) (old_size offset : Z) (data : bytes) : ST D bool :=
  let* r := read_header_silent in
  match r with
  | None => st_ret false
  | Some header =>
      let* zok := (if old_size <? offset
                   then pfs_zero_range header index old_size (offset - old_size)
                   else st_ret true) in
      if negb zok then st_ret false
      else st_loop (Z.to_pos (blen data + 1)) (write_round header index offset data) false 0
  end.

Section Tail.

Context (d : D) (index : nat) (old_size offset : Z) (data : bytes).
Context (Hwf : store_wf d) (Hf : is_file (hdr d) index).
Context (Hold : 0 <= old_size) (Ho : 0 <= offset) (Hl : offset + blen data <= PFS_FILE_MAX).
Context (Hdata : Forall is_u8 data).

Abbreviation fexts := (pfs_entry_extents (hdr d) index).

Lemma tail_zero (d1 d2 : D) header zok :
  same_disk d d1 -> pfs_entry_extents header index = fexts ->
  (if old_size <? offset then pfs_zero_range header index old_size (offset - old_size)
   else st_ret true) d1 = (d2, zok) ->
  outside_same fexts d d2 /\
  (zok = true -> forall k, 0 <= k -> file_byte d2 fexts k =
     if (old_size <=? k) && (k <? offset) then 0 else file_byte d fexts k) /\
  (sd_healthy d1 -> sd_healthy d2 /\
     (offset <= total_sectors fexts * 512 -> zok = true)).
Proof.
  intros Hs He. assert (Hc : chain PFS_DATA_START fexts) by by apply Hwf.
  destruct (Z.ltb_spec old_size offset) as [Hlt|Hge].
  - intros Hz. rewrite <- He in Hc |- *. pose proof (blen_nonneg data).
    pose proof (store_loop_spec header index (fun _ => 0) old_size (offset - old_size)
      (zero_round header index old_size (offset - old_size)) d1 Hold ltac:(lia)) as HL.
    unfold pfs_zero_range in Hz. rewrite Hz in HL. destruct HL as (P1 & P2 & P3).
    { intros d3 c Hi. apply zero_round_spec; try done. lia. }
    split_and!.
    + by apply (outside_trans _ _ d1); [apply same_outside|].
    + intros -> k Hk. rewrite (stored_byte d1 d2 _ _ _ _ k Hc Hold (P2 eq_refl) Hk).
      replace (old_size + (offset - old_size)) with offset by lia.
      by rewrite (same_disk_byte d d1).
    + intros Hhe. split; [by apply P3|]. intros Ht. apply P3; [done|]. lia.
  - unfold st_ret. intros [= <- <-]. split_and!; [by apply same_outside| |done].
    intros _ k Hk. case_goal; [lia|]. by apply same_disk_byte.
Qed.

Lemma tail_spec (d' : D) ok :
  write_tail index old_size offset data d = (d', ok) ->
  outside_same fexts d d' /\
  (ok = true -> forall k, 0 <= k -> file_byte d' fexts k =
     if (offset <=? k) && (k <? offset + blen data) then byte_at data offset k
     else if (old_size <=? k) && (k <? offset) then 0 else file_byte d fexts k) /\
  (sd_healthy d -> sd_healthy d' /\
     (offset + blen data <= total_sectors fexts * 512 -> ok = true)).
Proof.
  pose proof (blen_nonneg data). unfold write_tail, st_bind at 1.
  destruct (read_header_silent d) as [d1 [h|]] eqn:Er;
    apply read_header_spec in Er as (Hs & Hh & Hok).
  2: { unfold st_ret. intros [= <- <-]. split_and!; [by apply same_outside|done|].
       intros Hhe. destruct (Hok Hhe) as [_ Hsome]. destruct (Hsome (st_magic _ Hwf)). done. }
  destruct (Hh h eq_refl) as [He _].
  assert (Hexts : pfs_entry_extents h index = fexts) by (apply header_eq_extents; [done|apply Hf]).
  unfold st_bind. destruct ((if old_size <? offset
    then pfs_zero_range h index old_size (offset - old_size) else st_ret true) d1)
    as [d2 zok] eqn:Ez.
  destruct (tail_zero d1 d2 h zok Hs Hexts Ez) as (Z1 & Z2 & Z3).
  destruct zok; cbn [negb].
  2: { unfold st_ret. intros [= <- <-]. split_and!; [done|done|]. intros Hhe.
       destruct Z3 as [Z3 Z4]; [by apply Hok|]. split; [done|]. intros Ht. apply Z4. lia. }
  intros Hw. assert (Hc : chain PFS_DATA_START (pfs_entry_extents h index))
    by (rewrite Hexts; by apply Hwf).
  pose proof (store_loop_spec h index (byte_at data offset) offset (blen data)
    (write_round h index offset data) d2 Ho ltac:(lia)) as HL.
  rewrite Hw in HL. destruct HL as (P1 & P2 & P3).
  { intros d3 c Hi. by apply write_round_spec. }
  rewrite <- Hexts in *. split_and!.
  - by apply (outside_trans _ _ d2).
  - intros -> k Hk. rewrite (stored_byte d2 d' _ _ _ _ k Hc Ho (P2 eq_refl) Hk).
    case_goal; [done|]. by apply Z2.
  - intros Hhe. destruct Z3 as [Z3 _]; [by apply Hok|]. destruct (P3 Z3). done.
Qed.

End Tail.

Lemma pfs_write_at_tail index offset data (d : D) :
  pfs_write_at clk index offset data d =
  if PFS_FILE_MAX <? u64 (offset + blen data) then (d, false)
  else
    let '(d1, r) := read_header_silent d in
    match r with
    | Some h =>
        if pfs_entry_used h index then
          (let* ok := pfs_ensure_file_capacity clk index (u64 (offset + blen data)) in
           if negb ok then st_ret false
           else write_tail index (pfs_entry_size h index) offset data) d1
        else (d1, false)
    | None => (d1, false)
    end.
Proof.
  unfold pfs_write_at, write_tail. case_goal; [done|]. unfold st_bind at 1.
  destruct (read_header_silent d) as [d1 [h|]]; [|done].
  by destruct (pfs_entry_used h index).
Qed.

(** The state after [pfs_write_at]: every file but [index] keeps its entry and
    its bytes; on success [index] holds what was written. *)
Record write_post (d : D) (index : nat) (offset : Z) (data : bytes) (d' : D) (ok : bool)
  : Prop := {
  wp_others : forall j k, is_file (hdr d) j -> j <> index -> 0 <= k ->
    file_byte d' (pfs_entry_extents (hdr d) j) k = file_byte d (pfs_entry_extents (hdr d) j) k;
  wp_wf : ok = true -> store_wf d';
  wp_entries : ok = true -> forall j, (j < PFS_ENTRY_COUNT)%nat -> j <> index ->
    pfs_view (hdr d') j = pfs_view (hdr d) j;
  wp_entry : ok = true -> exists exts' now,
    pfs_view (hdr d') index =
      mkView (pfs_entry_kind (hdr d) index) (pfs_entry_name (hdr d) index)
        (pfs_entry_size (hdr d) index) exts' (pfs_entry_created (hdr d) index) now
        (pfs_entry_mode (hdr d) index) /\
    offset + blen data <= total_sectors exts' * 512 /\
    total_sectors (pfs_entry_extents (hdr d) index) <= total_sectors exts';
  wp_data : ok = true -> forall k, 0 <= k ->
    k < total_sectors (pfs_entry_extents (hdr d) index) * 512 \/
      pfs_entry_size (hdr d) index <= k < offset + blen data \/ offset <= k < offset + blen data ->
    file_byte d' (pfs_entry_extents (hdr d') index) k = write_result d index offset data k;
  wp_ok : sd_healthy d -> sd_healthy d' /\ ok = can_grow (hdr d) index (offset + blen data) /\
    (ok = false -> same_disk d d')
}.

Lemma other_extents_kept (d d' : D) index size j :
  grown_disk d index size d' -> is_file (hdr d) j -> j <> index ->
  is_file (hdr d') j /\ pfs_entry_extents (hdr d') j = pfs_entry_extents (hdr d) j.
Proof.
  intros Hg Hj Hne. pose proof Hj as (Hi & _). pose proof (gd_other _ _ _ _ Hg j Hi Hne) as Ha.
  split; [by apply (is_file_agree _ _ _ Ha)|by apply extents_agree].
Qed.

Lemma grown_is_file (d d' : D) index size :
  grown_disk d index size d' -> is_file (hdr d) index -> is_file (hdr d') index.
Proof.
  intros Hg (Hi & Hu & Hd). destruct (gd_entry _ _ _ _ Hg) as (exts & now & Hv & _).
  split; [done|]. rewrite view_used, view_is_dir in *. by rewrite Hv.
Qed.

(** A transfer into the grown extents leaves the other files alone. *)
Lemma others_kept (d d1 d' : D) index size j k :
  grown_disk d index size d1 -> is_file (hdr d) index ->
  outside_same (pfs_entry_extents (hdr d1) index) d1 d' ->
  is_file (hdr d) j -> j <> index -> 0 <= k ->
  file_byte d' (pfs_entry_extents (hdr d) j) k = file_byte d (pfs_entry_extents (hdr d) j) k.
Proof.
  intros Hg Hf Ho Hj Hne Hk. destruct (other_extents_kept _ _ _ _ j Hg Hj Hne) as [Hj1 He].
  assert (Hc : chain PFS_DATA_START (pfs_entry_extents (hdr d) j)).
  { rewrite <- He. apply (aw_chain _ (st_alloc _ (gd_wf _ _ _ _ Hg))). done. }
  apply file_byte_ext; [done|done|]. intros lba Hl i Hi. rewrite Ho; [|..|done].
  - apply (gd_data _ _ _ _ Hg); [|done]. apply (chain_covered _ _ _ Hc Hl).
  - rewrite <- He in Hl. intros Hl'. revert Hl.
    apply (aw_disjoint _ (st_alloc _ (gd_wf _ _ _ _ Hg)) index j); try done.
    by eapply grown_is_file.
Qed.

Lemma data_same_others (d d' : D) j k :
  store_wf d -> data_same d d' -> is_file (hdr d) j -> 0 <= k ->
  file_byte d' (pfs_entry_extents (hdr d) j) k = file_byte d (pfs_entry_extents (hdr d) j) k.
Proof.
  intros Hwf Hs Hj Hk. pose proof (aw_chain _ (st_alloc _ Hwf) j Hj) as Hc.
  apply file_byte_ext; [done|done|]. intros lba Hl. apply Hs. apply (chain_covered _ _ _ Hc Hl).
Qed.

Lemma write_fail (d d' : D) index offset data :
  store_wf d -> data_same d d' ->
  (sd_healthy d -> sd_healthy d' /\ can_grow (hdr d) index (offset + blen data) = false /\
     same_disk d d') ->
  write_post d index offset data d' false.
Proof.
  intros Hwf Hs Hh. split; try done.
  - intros j k Hj _ Hk. by apply data_same_others.
  - intros Hhe. destruct (Hh Hhe) as (? & ? & ?). by split_and!.
Qed.

Lemma grown_disk_from (d d1 d2 : D) index size :
  store_wf d -> is_file (hdr d) index -> same_disk d d1 ->
  grown_disk d1 index size d2 -> grown_disk d index size d2.
Proof.
  intros Hwf (Hi & _) Hs [G1 G2 G3 G4]. pose proof (same_disk_header _ _ Hs) as He.
  assert (Hn : names_fit (hdr d1)) by (rewrite He; apply Hwf).
  pose proof (view_agree _ _ _ (header_eq_agree _ _ _ Hi He) (Hn index Hi)) as Hv.
  unfold pfs_view in Hv. injection Hv as V1 V2 V3 V4 V5 V6 V7.
  split; [done| | |].
  - rewrite <- V1, <- V2, <- V3, <- V4, <- V5, <- V7. done.
  - intros j Hj Hne k Hk. rewrite (G3 j Hj Hne k Hk). by apply (header_eq_agree _ _ _ Hj He).
  - intros lba Hl k Hk. rewrite (G4 lba Hl k Hk). symmetry. by apply Hs.
Qed.

(** After the growth, the bytes below the old allocation are where they were. *)
Lemma grown_byte (d d2 : D) index size exts' k :
  store_wf d -> is_file (hdr d) index -> grown_disk d index size d2 ->
  keeps_map (pfs_entry_extents (hdr d) index) exts' -> 0 <= k ->
  k < total_sectors (pfs_entry_extents (hdr d) index) * 512 ->
  file_byte d2 exts' k = file_byte d (pfs_entry_extents (hdr d) index) k.
Proof.
  intros Hwf Hf Hg Hm Hk Ht. pose proof (aw_chain _ (st_alloc _ Hwf) index Hf) as Hc.
  rewrite (file_byte_map d2 _ exts' k Hm Hk).
  - apply file_byte_ext; [done|done|]. intros lba Hl. apply (gd_data _ _ _ _ Hg).
    apply (chain_covered _ _ _ Hc Hl).
  - apply lba_walk_some; [done|]. split; [apply Z.div_pos; lia|].
    apply Z.div_lt_upper_bound; lia.
Qed.

Lemma write_done (d d2 d' : D) index offset data ok :
  store_wf d -> is_file (hdr d) index -> Forall is_u8 data ->
  0 <= offset -> offset + blen data <= PFS_FILE_MAX ->
  grown_disk d index (offset + blen data) d2 ->
  write_tail index (pfs_entry_size (hdr d) index) offset data d2 = (d', ok) ->
  (sd_healthy d -> sd_healthy d2 /\ can_grow (hdr d) index (offset + blen data) = true) ->
  write_post d index offset data d' ok.
Proof.
  intros Hwf Hf Hdata Ho Hl Hg Hw Hh. pose proof (blen_nonneg data).
  destruct (entry_size_range (hdr d) index (disk_header_bytes d) (proj1 Hf)) as [Hold _].
  pose proof (grown_is_file _ _ _ _ Hg Hf) as Hf2.
  apply (tail_spec d2) in Hw as (T1 & T2 & T3); try done; [|apply Hg].
  destruct (gd_entry _ _ _ _ Hg) as (exts' & now & Hv & Hm & Ht).
  pose proof (f_equal v_extents Hv) as Hexts. simpl in Hexts. rewrite Hexts in *.
  assert (Hc : chain PFS_DATA_START exts').
  { rewrite <- Hexts. by apply (st_alloc _ (gd_wf _ _ _ _ Hg)). }
  pose proof (outside_header _ _ _ Hc T1) as He.
  rewrite sectors_for_len_eq in Ht by lia.
  assert (Ht' : offset + blen data <= total_sectors exts' * 512) by zlia.
  assert (Hview : forall j, (j < PFS_ENTRY_COUNT)%nat ->
            pfs_view (hdr d') j = pfs_view (hdr d2) j).
  { intros j Hj. symmetry. apply view_agree.
    - apply entry_agree_sym. by apply header_eq_agree.
    - by apply (st_names _ (gd_wf _ _ _ _ Hg)). }
  split.
  - intros j k Hj Hne Hk. apply (others_kept d d2 d' index (offset + blen data)); try done.
    by rewrite Hexts.
  - intros _. eapply store_wf_header; [done|apply Hg].
  - intros _ j Hj Hne. rewrite (Hview j Hj). symmetry. apply view_agree.
    + apply entry_agree_sym. by apply (gd_other _ _ _ _ Hg).
    + by apply (st_names _ Hwf).
  - intros _. exists exts', now. rewrite (Hview index (proj1 Hf)). split_and!; [done|done|].
    apply keeps_map_total; [|done|done]. by apply (st_alloc _ Hwf).
  - intros Hok k Hk Hdom. pose proof (f_equal v_extents (Hview index (proj1 Hf))) as He'.
    simpl in He'. rewrite He', Hexts, (T2 Hok k Hk). unfold write_result.
    case_goal; [done|]. case_goal; [done|].
    eapply grown_byte; [done|done|done|done|done|]. lia.
  - intros Hhe. destruct (Hh Hhe) as [Hh2 ->]. destruct (T3 Hh2) as [? ->]; by auto.
Qed.

Lemma write_at_spec (d d' : D) index offset data ok :
  store_wf d -> is_file (hdr d) index -> Forall is_u8 data ->
  0 <= offset -> offset + blen data <= PFS_FILE_MAX ->
  pfs_write_at clk index offset data d = (d', ok) ->
  write_post d index offset data d' ok.
Proof.
  intros Hwf Hf Hdata Ho Hl. rewrite pfs_write_at_tail. pose proof (blen_nonneg data).
  replace (u64 (offset + blen data)) with (offset + blen data)
    by (unfold u64; rewrite PFS_FILE_MAX_eq in Hl; rewrite Z.mod_small; lia).
  destruct (Z.ltb_spec PFS_FILE_MAX (offset + blen data)); [lia|].
  destruct (read_header_silent d) as [d1 [h|]] eqn:Er;
    apply read_header_spec in Er as (Hs & Hh & Hok).
  2: { intros [= <- <-]. apply write_fail; [done|by apply same_data|].
       intros Hhe. destruct (Hok Hhe) as [_ Hsome]. destruct (Hsome (st_magic _ Hwf)). done. }
  destruct (Hh h eq_refl) as [He _]. pose proof Hf as (Hi & Hu & Hd).
  pose proof (header_eq_agree _ _ index Hi He) as Ha. rewrite (used_agree _ _ _ Ha), Hu.
  assert (Hsz : pfs_entry_size h index = pfs_entry_size (hdr d) index).
  { assert (Hn : names_fit h) by (rewrite He; apply Hwf).
    exact (f_equal v_size (view_agree _ _ _ Ha (Hn index Hi))). }
  rewrite Hsz. unfold st_bind.
  destruct (pfs_ensure_file_capacity clk index (offset + blen data) d1) as [d2 eok] eqn:Ee.
  pose proof (same_disk_header _ _ Hs) as He1.
  apply ensure_capacity_spec in Ee as (E1 & E2 & E3);
    [|by eapply store_wf_same|by apply (header_eq_file _ _ _ He1)|lia].
  rewrite (can_grow_eq _ _ _ _ Hi He1) in E3.
  destruct eok; cbn [negb].
  - intros Hw. eapply write_done; try done.
    + by apply (grown_disk_from d d1); [..|apply E1].
    + intros Hhe. destruct (E3 (proj1 (Hok Hhe))) as [? [<- _]]. done.
  - unfold st_ret. intros [= <- <-]. apply write_fail; [done| |].
    + intros lba Hlb i Hr. rewrite (E2 lba Hlb i Hr). symmetry. by apply Hs.
    + intros Hhe. destruct (E3 (proj1 (Hok Hhe))) as (? & <- & Hsame).
      split_and!; [done|done|]. transitivity d1; auto.
Qed.

End Data.
