(* ===== verification/PfsProps.v ===== *)
(** * The persistent file system's contract

    The properties of the RYMFS5 directory, allocator and data path, and a
    concrete disk on which their hypotheses hold. *)

From S2P Require Import Prelude Constants Text PfsLayout PfsDir PfsAlloc Device Hw AtaDisk Pfs.
From S2P Require Import PfsIO PfsData.

(** ** The directory *)

(** Creating an entry under a valid, unused name whose parent directory
    exists keeps the directory well-formed, makes the name denote an empty entry
    of the given kind, and leaves what every other name denotes unchanged. *)
Theorem create_adds_name h name kind created mode now i h' :
  dir_wf h -> valid_pfs_path name = true -> pfs_parent_exists h name = true ->
  pfs_find_entry h name = None -> kind <> 0 -> is_u64 created -> is_u64 now ->
  pfs_create_header h name kind created mode now = Some (i, h') ->
  dir_wf h' /\ pfs_find_entry h' name = Some i /\
  pfs_lookup h' name = Some (mkView kind name 0 [] created now mode) /\
  (forall n, n <> name -> pfs_lookup h' n = pfs_lookup h n).
Proof. apply create_spec. Qed.

Lemma dir_empty_false h dir :
  pfs_dir_empty h dir = false ->
  exists j, (j < PFS_ENTRY_COUNT)%nat /\ pfs_entry_used h j = true /\
    pfs_below dir (pfs_entry_name h j) = true.
Proof.
  unfold pfs_dir_empty. destruct (find_first _ _) as [j|] eqn:E; [|done]. intros _.
  apply find_first_some in E as (Hj & Hp & _). apply andb_true_iff in Hp as [H1 H2]. eauto.
Qed.

(** No entry in use has a name below [dir]. *)
Definition nothing_below (h : arr) (dir : bytes) : Prop := forall j,
  (j < PFS_ENTRY_COUNT)%nat -> pfs_entry_used h j = true -> pfs_below dir (pfs_entry_name h j) = false.

Lemma dir_empty_true h dir : pfs_dir_empty h dir = true -> nothing_below h dir.
Proof.
  unfold pfs_dir_empty. destruct (find_first _ _) as [j|] eqn:E; [done|]. intros _ j Hj Hu.
  apply find_first_none with (j := j) in E; [|done]. by rewrite Hu in E.
Qed.

(** What [pfs_unlink_header] removes was there, and was not a directory in use. *)
Lemma unlink_allowed h name h' :
  pfs_unlink_header h name = inr h' ->
  exists v, pfs_lookup h name = Some v /\ (v_kind v = PFS_KIND_DIR -> nothing_below h name).
Proof.
  unfold pfs_unlink_header, pfs_lookup. destruct (pfs_find_entry h name) as [i|]; [|done].
  destruct (pfs_entry_is_dir h i && negb (pfs_dir_empty h name)) eqn:E; [done|]. intros _.
  exists (pfs_view h i). split; [done|]. intros Hk. apply dir_empty_true.
  apply Z.eqb_eq in Hk. rewrite <- view_is_dir in Hk. rewrite Hk in E. by destruct (pfs_dir_empty h name).
Qed.

(** C28: Unlinking reports a missing name (-1) and a directory that still has an entry
    below it (-2), and in those cases only: it succeeds exactly when the name denotes
    something and, if that is a directory, no entry is below it. Then the name denotes
    nothing afterwards, every other name denotes what it did, and the directory stays
    well-formed. *)
Theorem unlink_removes_name h name :
  dir_wf h ->
  match pfs_unlink_header h name with
  | inl code =>
      (code = -1 /\ pfs_lookup h name = None) \/
      (code = -2 /\ exists v j, pfs_lookup h name = Some v /\ v_kind v = PFS_KIND_DIR /\
         (j < PFS_ENTRY_COUNT)%nat /\ pfs_entry_used h j = true /\
         pfs_below name (pfs_entry_name h j) = true)
  | inr h' =>
      (exists v, pfs_lookup h name = Some v /\ (v_kind v = PFS_KIND_DIR -> nothing_below h name)) /\
      dir_wf h' /\ pfs_lookup h' name = None /\
      (forall n, n <> name -> pfs_lookup h' n = pfs_lookup h n)
  end.
Proof.
  intros Hwf. pose proof Hwf as [Hf Hu _ _].
  destruct (pfs_unlink_header h name) as [code|h'] eqn:E.
  - unfold pfs_unlink_header in E. unfold pfs_lookup.
    destruct (pfs_find_entry h name) as [i|]; [|left; by injection E as <-].
    right. destruct (pfs_entry_is_dir h i) eqn:Ed; simpl in E; [|done].
    destruct (pfs_dir_empty h name) eqn:Ee; simpl in E; [done|]. injection E as <-.
    split; [done|]. apply dir_empty_false in Ee as (j & Hj & Hused & Hb).
    rewrite view_is_dir in Ed. apply Z.eqb_eq in Ed. eauto 10.
  - pose proof (unlink_wf h name h' Hwf E) as Hwf'. split; [by apply unlink_allowed with h'|split; [done|]].
    apply unlink_ok in E as (i & Ei & -> & _); [|done|done].
    split; [by eapply clear_lookup_same|]. intros n Hn. by eapply clear_lookup_other.
Qed.

(** C27: A successful rename moves an entry: the old name denotes nothing, the
    new one denotes what the old one did with the new modification time, other
    names are unaffected; and the directory stays well-formed unless a directory
    is moved below itself. *)
Theorem rename_moves_name h old new now h' :
  dir_wf h -> header_bytes h -> is_u64 now -> pfs_rename_header h old new now = inr h' ->
  pfs_lookup h' old = None /\
  (exists v, pfs_lookup h old = Some v /\
     pfs_lookup h' new = Some (mkView (v_kind v) new (v_size v) (v_extents v)
                                 (v_created v) now (v_mode v))) /\
  (forall n, n <> old -> n <> new -> pfs_lookup h' n = pfs_lookup h n) /\
  ((forall v, pfs_lookup h old = Some v -> v_kind v = PFS_KIND_DIR -> pfs_below old new = false) ->
   dir_wf h').
Proof.
  intros Hwf Hb Hnow H. pose proof (rename_lookups _ _ _ _ _ Hwf Hb Hnow H) as (H1 & H2 & H3).
  split_and!; try done. by apply (rename_keeps_wf h old new now).
Qed.

(** ** A directory with one entry *)

Definition one_entry (name : bytes) (kind mode : Z) : arr :=
  pfs_set_entry pfs_format_header 0 name 0 kind [] 1 mode 1.

Lemma format_find name : pfs_find_entry pfs_format_header name = None.
Proof. apply find_first_none. intros j _. by rewrite format_unused. Qed.

Lemma one_entry_create name kind mode :
  pfs_create_header pfs_format_header name kind 1 mode 1 = Some (0%nat, one_entry name kind mode).
Proof.
  assert (E : pfs_free_entry pfs_format_header = Some 0%nat).
  { apply find_first_some. split_and!; [pose proof PFS_ENTRY_COUNT_eq; lia| |lia].
    by rewrite format_unused. }
  unfold pfs_create_header. by rewrite E.
Qed.

Lemma one_entry_spec name kind mode :
  valid_pfs_path name = true -> pfs_parent_exists pfs_format_header name = true -> kind <> 0 ->
  dir_wf (one_entry name kind mode) /\
  pfs_find_entry (one_entry name kind mode) name = Some 0%nat /\
  pfs_lookup (one_entry name kind mode) name = Some (mkView kind name 0 [] 1 1 mode).
Proof.
  intros Hv Hp Hk.
  destruct (create_spec pfs_format_header name kind 1 mode 1 0 (one_entry name kind mode))
    as (H1 & H2 & H3 & _); auto using format_wf, format_find, one_entry_create;
    unfold is_u64; lia.
Qed.

Lemma one_entry_bytes name kind mode :
  Forall is_u8 name -> is_u8 kind -> is_u8 mode -> header_bytes (one_entry name kind mode).
Proof.
  intros. apply set_entry_bytes; try done. intros i Hi. unfold pfs_format_header.
  do 2 (apply aset_u8; [|vm_compute; split; congruence]).
  apply blit_u8; [unfold zeroed, is_u8; lia|]. apply Forall_forall. intros x Hx.
  vm_compute in Hx. apply list_elem_of_In in Hx. simpl in Hx. unfold is_u8. lia.
Qed.

Definition dir_d : arr := one_entry (bs "d") PFS_KIND_DIR PFS_MODE_DEFAULT_DIR.
Definition file_f : arr := one_entry (bs "f") PFS_KIND_FILE PFS_MODE_DEFAULT_FILE.

Lemma dir_d_spec :
  dir_wf dir_d /\ pfs_find_entry dir_d (bs "d") = Some 0%nat /\
  pfs_lookup dir_d (bs "d") = Some (mkView PFS_KIND_DIR (bs "d") 0 [] 1 1 PFS_MODE_DEFAULT_DIR).
Proof. by apply one_entry_spec. Qed.

Lemma file_f_spec :
  dir_wf file_f /\ pfs_find_entry file_f (bs "f") = Some 0%nat /\
  pfs_lookup file_f (bs "f") = Some (mkView PFS_KIND_FILE (bs "f") 0 [] 1 1 PFS_MODE_DEFAULT_FILE).
Proof. by apply one_entry_spec. Qed.

Lemma create_adds_name_witness : pfs_find_entry dir_d (bs "d") = Some 0%nat.
Proof.
  refine (proj1 (proj2 (create_adds_name pfs_format_header (bs "d") PFS_KIND_DIR 1
    PFS_MODE_DEFAULT_DIR 1 0 dir_d format_wf eq_refl eq_refl (format_find _) _ _ _ (one_entry_create _ _ _)))).
  - discriminate.
  - split; [discriminate|reflexivity].
  - split; [discriminate|reflexivity].
Defined.


(** Renaming the only entry of a header to another top-level name succeeds. *)
Lemma rename_one h old new now :
  pfs_find_entry h old = Some 0%nat -> pfs_find_entry h new = None ->
  valid_pfs_path old = true -> valid_pfs_path new = true ->
  pfs_parent_exists h new = true -> pfs_dir_empty h old = true ->
  exists h', pfs_rename_header h old new now = inr h'.
Proof.
  intros E1 E2 V1 V2 P De. unfold pfs_rename_header. rewrite V1, V2, E1, E2, P, De. simpl.
  rewrite andb_false_r. eauto.
Qed.

Lemma dir_d_only j : (j < PFS_ENTRY_COUNT)%nat -> pfs_entry_used dir_d j = true -> j = 0%nat.
Proof.
  intros Hj Hu. destruct (decide (j = 0%nat)) as [|Hne]; [done|].
  rewrite (except_used pfs_format_header dir_d 0) in Hu; try done.
  - by rewrite format_unused in Hu.
  - apply set_except. by vm_compute.
Qed.

Lemma dir_d_name : pfs_entry_name dir_d 0 = bs "d".
Proof. destruct dir_d_spec as (_ & H & _). by apply find_entry_spec in H as (_ & _ & ?). Qed.

Lemma dir_d_find n : n <> bs "d" -> pfs_find_entry dir_d n = None.
Proof.
  intros Hn. destruct (pfs_find_entry dir_d n) as [j|] eqn:E; [|done].
  apply find_entry_spec in E as (Hj & Hu & Hname). rewrite (dir_d_only j Hj Hu), dir_d_name in Hname.
  by destruct Hn.
Qed.

Lemma dir_d_empty : pfs_dir_empty dir_d (bs "d") = true.
Proof.
  destruct (pfs_dir_empty dir_d (bs "d")) eqn:E; [done|].
  apply dir_empty_false in E as (j & Hj & Hu & Hb). by rewrite (dir_d_only j Hj Hu), dir_d_name in Hb.
Qed.

Lemma dir_d_bytes : header_bytes dir_d.
Proof. apply one_entry_bytes; [|done|done]. vm_compute. repeat constructor; discriminate. Qed.

Lemma unlink_removes_name_witness :
  exists h', pfs_unlink_header dir_d (bs "d") = inr h' /\ pfs_lookup h' (bs "d") = None.
Proof.
  pose proof (unlink_removes_name dir_d (bs "d") (proj1 dir_d_spec)) as H.
  assert (E : exists h', pfs_unlink_header dir_d (bs "d") = inr h').
  { unfold pfs_unlink_header. rewrite (proj1 (proj2 dir_d_spec)), dir_d_empty.
    rewrite andb_false_r. eauto. }
  destruct E as [h' E]. rewrite E in H. exists h'. split; [exact E|exact (proj1 (proj2 (proj2 H)))].
Defined.

Lemma rename_moves_name_witness :
  exists h', pfs_rename_header dir_d (bs "d") (bs "e") 5 = inr h' /\ pfs_lookup h' (bs "d") = None.
Proof.
  destruct (rename_one dir_d (bs "d") (bs "e") 5) as [h' E];
    [exact (proj1 (proj2 dir_d_spec))|apply dir_d_find; vm_compute; discriminate|reflexivity|
     reflexivity|reflexivity|exact dir_d_empty|].
  exists h'. split; [exact E|]. assert (Hn : is_u64 5) by (unfold is_u64; lia).
  pose proof (rename_moves_name dir_d (bs "d") (bs "e") 5 h' (proj1 dir_d_spec) dir_d_bytes Hn E)
    as [H _].
  exact H.
Defined.

Lemma parent_of_dx h :
  pfs_parent_exists h (bs "d/x") =
  match pfs_find_entry h (bs "d") with Some i => pfs_entry_is_dir h i | None => false end.
Proof. reflexivity. Qed.

(** [pfs_rename_header] does not refuse to move an empty directory below
    itself: renaming [d] to [d/x] succeeds on a well-formed header and leaves
    the directory [d/x] with no parent, so the result is not well-formed. *)
Theorem rename_below_itself_orphans :
  exists h', pfs_rename_header dir_d (bs "d") (bs "d/x") 5 = inr h' /\
    dir_wf dir_d /\ ~ dir_wf h' /\ pfs_lookup h' (bs "d") = None /\
    exists v, pfs_lookup h' (bs "d/x") = Some v /\ v_kind v = PFS_KIND_DIR.
Proof.
  destruct dir_d_spec as (Hwf & Hf & Hl).
  destruct (rename_one dir_d (bs "d") (bs "d/x") 5) as [h' E];
    [done|apply dir_d_find; vm_compute; discriminate|done|done| |exact dir_d_empty|].
  { rewrite parent_of_dx, Hf, view_is_dir. unfold pfs_lookup in Hl. rewrite Hf in Hl.
    assert (Hv : pfs_view dir_d 0 = mkView PFS_KIND_DIR (bs "d") 0 [] 1 1 PFS_MODE_DEFAULT_DIR)
      by congruence.
    by rewrite Hv. }
  assert (Hn : is_u64 5) by (unfold is_u64; lia).
  pose proof (rename_lookups _ _ _ _ _ Hwf dir_d_bytes Hn E) as (L1 & (v & L2 & L3) & _).
  rewrite Hl in L2. injection L2 as <-. exists h'. split_and!; [done|done| |done|by eexists].
  intros [_ _ _ Hpar]. unfold pfs_lookup in L1, L3.
  destruct (pfs_find_entry h' (bs "d/x")) as [j|] eqn:Ej; [|done].
  apply find_entry_spec in Ej as (Hj & Hu & Hname). specialize (Hpar j Hj Hu). rewrite Hname in Hpar.
  rewrite parent_of_dx in Hpar. by destruct (pfs_find_entry h' (bs "d")).
Qed.

(** ** Allocation *)

(** C26: Growing a file's extent list by [extra] sectors yields a chain of at
    most four extents inside the data area with exactly [extra] sectors more,
    keeps the sector of every old logical sector, and takes no sector of another
    file; it fails only when the disk is full above the file or when the four
    extents are used and the next sector is taken. *)
Theorem grow_takes_free_sectors h index extra :
  header_bytes h -> alloc_wf h -> is_file h index -> 0 <= extra ->
  match pfs_grow_extents h (pfs_entry_extents h index) extra (Some index) with
  | Some l' =>
      chain PFS_DATA_START l' /\ (length l' <= PFS_MAX_EXTENTS)%nat /\
      total_sectors l' = total_sectors (pfs_entry_extents h index) + extra /\
      keeps_map (pfs_entry_extents h index) l' /\
      (forall j x, is_file h j -> j <> index -> covered (pfs_entry_extents h j) x -> ~ covered l' x)
  | None => exists l', chain PFS_DATA_START l' /\
      total_sectors l' < total_sectors (pfs_entry_extents h index) + extra /\
      grow_stuck (pfs_other_extents h (Some index)) l'
  end.
Proof.
  intros Hb Hw Hf He. pose proof (grow_extents_file h index extra Hw Hf He) as H.
  destruct (pfs_grow_extents h (pfs_entry_extents h index) extra (Some index)) as [l'|].
  - destruct H as [G1 G2 G3 G4 G5 G6]. split_and!; try done. intros j x Hj Hne Hc Hx.
    destruct (G6 x Hx) as [Hold|Hfree]; [by apply (aw_disjoint _ Hw index j x)|].
    apply Hfree, other_extents_covered. eauto.
  - destruct H as (got & l' & Hg & [G1 G2 G3 G4 G5 G6] & Hst). exists l'. split_and!; [done|lia|done].
Qed.

(** C11: the two loops of the allocator end: the search for free sectors leaves after
    at most as many rounds as the disk has sectors, because each round moves its
    candidate, and the growth of a file after at most as many as it asks sectors,
    because each takes one; and what they answer is the same for every bound on the
    rounds that is above that. *)
Theorem allocation_loops_terminate h index from len extra p q :
  alloc_wf h -> is_file h index -> 0 <= from -> 0 < len -> 0 <= extra ->
  PFS_DISK_SECTORS < Z.pos p -> extra < Z.pos q ->
  let others := pfs_other_extents h (Some index) in
  let exts := pfs_entry_extents h index in
  loop_pos p (free_run_round others len) from = inr (pfs_find_free_run h from len (Some index)) /\
  loop_pos q (grow_round others) (exts, extra, grow_search_from exts) =
    inr (pfs_grow_extents h exts extra (Some index)).
Proof.
  intros Hw Hf Hs Hl He Hp Hq others exts.
  pose proof (other_extents_no_wrap h index Hw) as Ho. split.
  - by apply free_run_leaves.
  - apply grow_leaves; [done|by apply Hw| |done|done]. apply entry_extents_count.
Qed.

(** ** The data path *)

Section DataProps.

Context {D : Type} `{SL : SectorLaws D} (clk : Clock).
Context (Hclk : 0 <= BOOT_TSC clk).

Lemma file_bytes_nth (d : D) exts offset n k :
  (k < n)%nat -> nth k (file_bytes d exts offset n) 0 = file_byte d exts (offset + Z.of_nat k).
Proof.
  intros Hk. unfold file_bytes.
  rewrite (nth_indep _ 0 (file_byte d exts (offset + Z.of_nat 0))) by (by rewrite length_map, length_seq).
  rewrite (map_nth (fun k => file_byte d exts (offset + Z.of_nat k))). by rewrite seq_nth.
Qed.

Lemma file_bytes_eq (d : D) exts offset data :
  (forall k, (k < length data)%nat -> file_byte d exts (offset + Z.of_nat k) = nth k data 0) ->
  file_bytes d exts offset (length data) = data.
Proof.
  intros Hb. assert (Hl : length (file_bytes d exts offset (length data)) = length data).
  { unfold file_bytes. by rewrite length_map, length_seq. }
  apply nth_ext with (d := 0) (d' := 0); [done|]. intros k Hk. rewrite Hl in Hk.
  rewrite file_bytes_nth by done. auto.
Qed.

(** C17: On a well-formed store, [pfs_read_at] within the size limit leaves the
    disk as it is and stores the file's bytes from [offset] on, in order; it
    stores all of them when it succeeds, and it succeeds whenever the disk works
    and the range lies inside the file's allocation. *)
Theorem read_at_returns_file (d d' : D) index offset len ok got :
  store_wf d -> is_file (disk_header d) index ->
  0 <= offset -> 0 <= len -> offset + len <= PFS_FILE_MAX ->
  pfs_read_at index offset len d = (d', (ok, got)) ->
  let exts := pfs_entry_extents (disk_header d) index in
  same_disk d d' /\ blen got <= len /\
  got = file_bytes d exts offset (length got) /\
  (ok = true -> blen got = len) /\
  (sd_healthy d -> offset + len <= total_sectors exts * 512 -> ok = true).
Proof. apply read_at_spec. Qed.

(** C16: On a well-formed store, [pfs_write_at] never touches the bytes of
    another file, even when it fails; when it succeeds the store is well-formed,
    the other entries are unchanged, the file holds [data] at [offset], zeroes in
    the gap between its old size and [offset], and its old bytes elsewhere; and on
    a working disk it succeeds exactly when the allocation can grow. *)
Theorem write_at_stores (d d' : D) index offset data ok :
  store_wf d -> is_file (disk_header d) index -> Forall is_u8 data ->
  0 <= offset -> offset + blen data <= PFS_FILE_MAX ->
  pfs_write_at clk index offset data d = (d', ok) ->
  write_post d index offset data d' ok.
Proof using Hclk SL. by apply write_at_spec. Qed.

(** What a successful [pfs_write_at] stored is what [pfs_read_at] of the
    same range then returns, on a working disk. *)
Theorem write_read_round_trip (d d1 d2 : D) index offset data ok got :
  store_wf d -> is_file (disk_header d) index -> Forall is_u8 data -> sd_healthy d ->
  0 <= offset -> offset + blen data <= PFS_FILE_MAX ->
  pfs_write_at clk index offset data d = (d1, true) ->
  pfs_read_at index offset (blen data) d1 = (d2, (ok, got)) ->
  ok = true /\ got = data.
Proof using Hclk SL.
  intros Hwf Hf Hd Hh Ho Hl Hw Hr. apply write_at_spec in Hw as [_ W2 _ W4 W5 W6]; try done.
  destruct (W6 Hh) as [Hh1 _]. destruct (W4 eq_refl) as (exts & now & Hv & Ht & _).
  assert (Hf1 : is_file (disk_header d1) index).
  { destruct Hf as (Hi & Hu & Hdir). split; [done|].
    rewrite view_used, view_is_dir in *. by rewrite Hv. }
  pose proof (f_equal v_extents Hv) as He. simpl in He.
  apply read_at_spec in Hr as (_ & _ & Hg & Hlen & Hok); try done; [|auto|apply blen_nonneg].
  rewrite He in *. assert (ok = true) as -> by auto. split; [done|].
  specialize (Hlen eq_refl). assert (Hn : length got = length data) by (unfold blen in Hlen; lia).
  rewrite Hg, Hn. apply file_bytes_eq. intros k Hk.
  assert (Hb : offset <= offset + Z.of_nat k < offset + blen data) by (unfold blen; lia).
  specialize (W5 eq_refl (offset + Z.of_nat k) ltac:(lia) ltac:(by right; right)).
  rewrite W5. unfold write_result.
  destruct ((offset <=? offset + Z.of_nat k) && (offset + Z.of_nat k <? offset + blen data)) eqn:E;
    [|lia].
  unfold byte_at. f_equal. lia.
Qed.

End DataProps.

(** ** A disk that holds the file [f] *)

Definition disk_f : Ata :=
  {| ata_blank with ata_data := fun lba i =>
       if (0 <=? lba) && (lba <? PFS_HEADER_SECTORS) then file_f (lba * 512 + i) else 0 |}.

Lemma file_f_bytes : header_bytes file_f.
Proof. apply one_entry_bytes; [|done|done]. vm_compute. repeat constructor; discriminate. Qed.

Lemma disk_f_header : header_eq (disk_header disk_f) file_f.
Proof.
  intros i Hi. unfold disk_header. simpl. rewrite PFS_HEADER_BYTES_eq in Hi.
  rewrite PFS_HEADER_SECTORS_eq.
  assert (H0 : 0 <= i / 512 < 77) by (split; [apply Z.div_pos; lia|apply Z.div_lt_upper_bound; lia]).
  destruct ((0 <=? i / 512) && (i / 512 <? 77)) eqn:E; [|lia].
  replace (i / 512 * 512 + i mod 512) with i by (pose proof (Z.div_mod i 512); lia).
  unfold u8. apply Z.mod_small. apply file_f_bytes. rewrite PFS_HEADER_BYTES_eq. lia.
Qed.

Lemma file_f_only j : (j < PFS_ENTRY_COUNT)%nat -> pfs_entry_used file_f j = true -> j = 0%nat.
Proof.
  intros Hj Hu. destruct (decide (j = 0%nat)) as [|Hne]; [done|].
  rewrite (except_used pfs_format_header file_f 0) in Hu; try done.
  - by rewrite format_unused in Hu.
  - apply set_except. by vm_compute.
Qed.

Lemma file_f_is_file : is_file file_f 0.
Proof.
  destruct file_f_spec as (Hw & Hf & Hl). apply find_entry_spec in Hf as (H1 & H2 & _).
  split; [done|]. split; [done|]. unfold pfs_lookup in Hl.
  destruct file_f_spec as (_ & Hf & _). rewrite Hf in Hl. rewrite view_is_dir.
  assert (Hv : pfs_view file_f 0 = mkView PFS_KIND_FILE (bs "f") 0 [] 1 1 PFS_MODE_DEFAULT_FILE)
    by congruence.
  by rewrite Hv.
Qed.

Lemma file_f_extents : pfs_entry_extents file_f 0 = [].
Proof.
  destruct file_f_spec as (_ & Hf & Hl). unfold pfs_lookup in Hl. rewrite Hf in Hl.
  assert (Hv : pfs_view file_f 0 = mkView PFS_KIND_FILE (bs "f") 0 [] 1 1 PFS_MODE_DEFAULT_FILE)
    by congruence.
  exact (f_equal v_extents Hv).
Qed.

Lemma file_f_alloc : alloc_wf file_f.
Proof.
  split.
  - intros i (Hi & Hu & _). rewrite (file_f_only i Hi Hu), file_f_extents. simpl.
    rewrite PFS_DATA_START_eq. unfold PFS_DISK_SECTORS. lia.
  - intros i j x (Hi & Hu & _) (Hj & Hv & _) Hne. destruct Hne.
    by rewrite (file_f_only i Hi Hu), (file_f_only j Hj Hv).
Qed.

Lemma disk_f_store : store_wf disk_f.
Proof.
  split.
  - rewrite (magic_header_eq _ _ disk_f_header). vm_compute. reflexivity.
  - rewrite disk_f_header. apply file_f_spec.
  - rewrite disk_f_header. apply file_f_alloc.
Qed.

Lemma disk_f_file : is_file (disk_header disk_f) 0.
Proof. apply (header_eq_file _ _ _ disk_f_header), file_f_is_file. Qed.

Definition demo_clock : Clock := mkClock 1000000000 0 0.

Lemma demo_clock_ok : 0 <= BOOT_TSC demo_clock.
Proof. discriminate. Qed.

Lemma grow_takes_free_sectors_witness :
  match pfs_grow_extents file_f (pfs_entry_extents file_f 0) 3 (Some 0%nat) with
  | Some l' => total_sectors l' = total_sectors (pfs_entry_extents file_f 0) + 3
  | None => True
  end.
Proof.
  pose proof (grow_takes_free_sectors file_f 0 3 file_f_bytes file_f_alloc file_f_is_file
    ltac:(discriminate)) as H.
  destruct (pfs_grow_extents file_f (pfs_entry_extents file_f 0) 3 (Some 0%nat)); [|exact I].
  exact (proj1 (proj2 (proj2 H))).
Defined.

Lemma allocation_loops_terminate_witness :
  loop_pos 20000000 (free_run_round (pfs_other_extents file_f (Some 0%nat)) 3) PFS_DATA_START =
    inr (pfs_find_free_run file_f PFS_DATA_START 3 (Some 0%nat)) /\
  loop_pos 4 (grow_round (pfs_other_extents file_f (Some 0%nat)))
      (pfs_entry_extents file_f 0, 3, grow_search_from (pfs_entry_extents file_f 0)) =
    inr (pfs_grow_extents file_f (pfs_entry_extents file_f 0) 3 (Some 0%nat)).
Proof.
  apply (allocation_loops_terminate file_f 0 PFS_DATA_START 3 3 20000000 4 file_f_alloc file_f_is_file);
    vm_compute; congruence.
Defined.

Lemma read_at_returns_file_witness :
  same_disk disk_f (fst (pfs_read_at 0 0 0 disk_f)).
Proof.
  destruct (pfs_read_at 0 0 0 disk_f) as [d' [ok got]] eqn:E.
  exact (proj1 (read_at_returns_file disk_f d' 0 0 0 ok got disk_f_store disk_f_file
    ltac:(lia) ltac:(lia) ltac:(rewrite PFS_FILE_MAX_eq; lia) E)).
Defined.

Lemma demo_data_u8 : Forall is_u8 [104; 105].
Proof. repeat constructor; discriminate. Qed.

Lemma write_at_stores_witness :
  write_post disk_f 0 0 [104; 105] (fst (pfs_write_at demo_clock 0 0 [104; 105] disk_f))
    (snd (pfs_write_at demo_clock 0 0 [104; 105] disk_f)).
Proof.
  destruct (pfs_write_at demo_clock 0 0 [104; 105] disk_f) as [d' ok] eqn:E.
  exact (write_at_stores demo_clock demo_clock_ok disk_f d' 0 0 [104; 105] ok disk_f_store disk_f_file
    demo_data_u8 ltac:(lia) ltac:(rewrite PFS_FILE_MAX_eq; unfold blen; simpl; lia) E).
Defined.

Lemma disk_f_can_grow : can_grow (disk_header disk_f) 0 2 = true.
Proof.
  rewrite (can_grow_eq _ file_f 0 2 (proj1 file_f_is_file) disk_f_header).
  vm_compute. reflexivity.
Qed.

Lemma disk_f_write :
  exists d1, pfs_write_at demo_clock 0 0 [104; 105] disk_f = (d1, true).
Proof.
  destruct (pfs_write_at demo_clock 0 0 [104; 105] disk_f) as [d1 ok] eqn:E.
  apply (write_at_spec demo_clock demo_clock_ok) in E;
    [|exact disk_f_store|exact disk_f_file|exact demo_data_u8|lia|
     rewrite PFS_FILE_MAX_eq; unfold blen; simpl; lia].
  destruct (wp_ok _ _ _ _ _ _ E eq_refl) as (_ & -> & _).
  change (0 + blen [104; 105]) with 2. rewrite disk_f_can_grow. eauto.
Qed.

Lemma write_read_round_trip_witness :
  exists d1, pfs_write_at demo_clock 0 0 [104; 105] disk_f = (d1, true) /\
    snd (pfs_read_at 0 0 2 d1) = (true, [104; 105]).
Proof.
  destruct disk_f_write as [d1 E]. exists d1. split; [exact E|].
  destruct (pfs_read_at 0 0 2 d1) as [d2 [ok got]] eqn:R.
  destruct (write_read_round_trip demo_clock demo_clock_ok disk_f d1 d2 0 0 [104; 105] ok got
    disk_f_store disk_f_file demo_data_u8 eq_refl ltac:(lia)
    ltac:(rewrite PFS_FILE_MAX_eq; unfold blen; simpl; lia) E R) as [-> ->].
  reflexivity.
Defined.
