(* ===== verification/PfsFile.v ===== *)
(** * A file under its name

    [file_holds d name i content]: the disk [d] works and file_holds a well-formed store in
    which [name] is found in entry [i], a file with this content. Creating an
    entry, truncating one, and the header update after a write establish or keep
    it. *)

From S2P Require Import Prelude Constants Text PfsLayout PfsDir PfsAlloc Device Pfs PfsIO PfsData AtaDisk PfsProps.

(** [h'] is [h] with entry [i] rewritten to [v]. *)
Record rewritten (h h' : arr) (i : nat) (v : PfsView) : Prop := {
  rw_index : (i < PFS_ENTRY_COUNT)%nat;
  rw_bytes : header_bytes h';
  rw_magic : forall k, 0 <= k < 16 -> h' k = h k;
  rw_agree : agree_except h' h i;
  rw_fits : name_fits h' i;
  rw_view : pfs_view h' i = v
}.

Definition file_view (v : PfsView) : Prop := v_kind v <> 0 /\ v_kind v <> PFS_KIND_DIR.

(** The extents a rewritten entry may have: none, or those it had. *)
Definition extents_kept (h : arr) (i : nat) (v : PfsView) : Prop :=
  v_extents v = [] \/ (is_file h i /\ v_extents v = pfs_entry_extents h i).

Section Rewritten.

Context (h h' : arr) (i : nat) (v : PfsView).
Context (Hn : names_fit h) (Hrw : rewritten h h' i v) (Hv : file_view v).

Lemma rewritten_used : pfs_entry_used h' i = true.
Proof using Hrw Hv. rewrite view_used, (rw_view _ _ _ _ Hrw). apply negb_true_iff, Z.eqb_neq, Hv. Qed.

Lemma rewritten_file : is_file h' i.
Proof using Hrw Hv.
  split; [apply Hrw|]. split; [apply rewritten_used|].
  rewrite view_is_dir, (rw_view _ _ _ _ Hrw). apply Z.eqb_neq, Hv.
Qed.

Lemma rewritten_names : names_fit h'.
Proof using Hn Hrw. apply (agree_except_fit h _ i); [done|apply Hrw..]. Qed.

Lemma rewritten_magic : pfs_magic_ok h' = pfs_magic_ok h.
Proof using Hrw.
  unfold pfs_magic_ok. f_equal. apply slice_ext. intros k Hk. apply (rw_magic _ _ _ _ Hrw). lia.
Qed.

Lemma rewritten_extents : pfs_entry_extents h' i = v_extents v.
Proof using Hrw. exact (f_equal v_extents (rw_view _ _ _ _ Hrw)). Qed.

Lemma rewritten_other j : is_file h' j -> j <> i ->
  is_file h j /\ pfs_entry_extents h' j = pfs_entry_extents h j.
Proof using Hrw.
  intros Hj Hne. pose proof (rw_agree _ _ _ _ Hrw j (proj1 Hj) Hne) as Ha.
  split; [by apply (is_file_agree _ _ _ Ha)|by apply extents_agree].
Qed.

Lemma rewritten_alloc : alloc_wf h -> extents_kept h i v -> alloc_wf h'.
Proof using Hrw.
  intros Hw Hk.
  assert (Hi : forall x, covered (pfs_entry_extents h' i) x ->
                 is_file h i /\ covered (pfs_entry_extents h i) x).
  { rewrite rewritten_extents. intros x Hx. destruct Hk as [E|[Hf E]]; rewrite E in Hx; [|done].
    destruct Hx as (e & He & _). by apply elem_of_nil in He. }
  split.
  - intros j Hj. destruct (decide (j = i)) as [->|Hne].
    + rewrite rewritten_extents. destruct Hk as [E|[Hf E]]; rewrite E; [done|by apply Hw].
    + destruct (rewritten_other j Hj Hne) as [Hj' ->]. by apply Hw.
  - intros a b x Ha Hb Hab Hxa Hxb.
    destruct (decide (a = i)) as [->|Na].
    + destruct (rewritten_other b Hb ltac:(congruence)) as [Hb' Eb]. rewrite Eb in Hxb.
      destruct (Hi x Hxa) as [Hi1 Hi2]. by apply (aw_disjoint _ Hw i b x).
    + destruct (rewritten_other a Ha Na) as [Ha' Ea]. rewrite Ea in Hxa.
      destruct (decide (b = i)) as [->|Nb].
      * destruct (Hi x Hxb) as [Hi1 Hi2]. by apply (aw_disjoint _ Hw a i x).
      * destruct (rewritten_other b Hb Nb) as [Hb' Eb]. rewrite Eb in Hxb.
        by apply (aw_disjoint _ Hw a b x).
Qed.

(** Entries found by another name are still found. *)
Lemma rewritten_find_other n p :
  pfs_find_entry h n = Some p -> p <> i ->
  ((i < p)%nat -> v_name v <> n) -> pfs_find_entry h' n = Some p.
Proof using Hn Hrw.
  intros Hf Hp Hlt. apply find_first_some in Hf as (Hpc & Hpp & Hbefore).
  pose proof (rw_agree _ _ _ _ Hrw) as Hex.
  apply find_first_some. split; [done|]. split.
  - rewrite (except_used h h' i Hex), (except_name h h' i Hn Hex) by done. done.
  - intros j Hj. destruct (decide (j = i)) as [->|Hne].
    + apply andb_false_iff. right. apply bytes_eq_false. rewrite view_name, (rw_view _ _ _ _ Hrw).
      apply Hlt. lia.
    + rewrite (except_used h h' i Hex), (except_name h h' i Hn Hex) by (done || lia). auto.
Qed.

(** The entry is found under its name when it was, or when nothing was. *)
Lemma rewritten_find n :
  v_name v = n -> pfs_find_entry h n = Some i \/ pfs_find_entry h n = None ->
  pfs_find_entry h' n = Some i.
Proof using Hn Hrw Hv.
  intros Hnv Hf. pose proof (rw_agree _ _ _ _ Hrw) as Hex. apply find_first_some.
  split; [apply Hrw|]. split.
  - rewrite rewritten_used, view_name, (rw_view _ _ _ _ Hrw), Hnv. apply bytes_eq_refl.
  - intros j Hj. pose proof (rw_index _ _ _ _ Hrw).
    rewrite (except_used h h' i Hex), (except_name h h' i Hn Hex) by lia. destruct Hf as [Hf|Hf].
    + apply find_first_some in Hf as (_ & _ & Hb). auto.
    + apply find_first_none with (j := j) in Hf; [done|lia].
Qed.

(** The parent of a name is a directory, so not the entry. *)
Lemma rewritten_parent n :
  pfs_find_entry h (v_name v) = Some i \/ pfs_find_entry h (v_name v) = None ->
  (pfs_entry_used h i = true -> pfs_entry_is_dir h i = false) ->
  pfs_parent_exists h n = true -> pfs_parent_exists h' n = true.
Proof using Hn Hrw.
  intros Hf Hd Hp. apply (parent_exists_mono h); [done|]. intros p w Hpar Hl Hk.
  unfold pfs_lookup in *. destruct (pfs_find_entry h p) as [q|] eqn:Eq; [|done]. injection Hl as <-.
  pose proof (find_entry_spec _ _ _ Eq) as (Hq & Hu & _).
  assert (q <> i).
  { intros ->. specialize (Hd Hu). rewrite view_is_dir in Hd. rewrite Hk in Hd. done. }
  assert (v_name v <> p) by (intros <-; destruct Hf; congruence).
  rewrite (rewritten_find_other p q Eq) by done. exists (pfs_view h' q). split; [done|].
  rewrite (except_view h h' i Hn (rw_agree _ _ _ _ Hrw)); done.
Qed.

End Rewritten.

(** Only the bytes of the header matter. *)
Lemma rewritten_from h g h' i v : header_eq h g -> rewritten h h' i v -> rewritten g h' i v.
Proof.
  intros He [Hi Hb Hm Ha Hf Hv]. split; try done.
  - intros k Hk. rewrite Hm by done. apply He. rewrite PFS_HEADER_BYTES_eq. lia.
  - intros j Hj Hne k Hk. rewrite (Ha j Hj Hne k Hk). by apply (header_eq_agree _ _ j Hj He).
Qed.

Lemma set_rewritten h i name size kind exts created mode now :
  (i < PFS_ENTRY_COUNT)%nat -> header_bytes h -> names_fit h -> Forall is_u8 name -> is_u8 kind -> is_u8 mode ->
  entry_fits name size kind exts created mode now ->
  rewritten h (pfs_set_entry h i name size kind exts created mode now) i
    (mkView kind name size exts created now mode).
Proof.
  intros Hi Hb Hn Hnu Hk Hm Hf. pose proof (fits_name _ _ _ _ _ _ _ Hf) as Hl. split; try done.
  - by apply set_entry_bytes.
  - intros k Hk16. apply pfs_set_entry_out; [done|]. left. unfold pfs_entry_offset. pfs_const. lia.
  - by apply set_except.
  - by apply set_entry_name_fits.
  - by apply set_entry_view.
Qed.

(** The header [pfs_update_size] writes. *)
Definition sized_header (h : arr) (i : nat) (size now : Z) : arr :=
  pfs_touch_modified (blit h (pfs_entry_offset i + 2) (to_le_bytes 4 (u32 size))) i now.

Lemma sized_out h i size now k :
  k < pfs_entry_offset i + 2 \/ pfs_entry_offset i + 6 <= k ->
  k < pfs_entry_offset i + 47 \/ pfs_entry_offset i + 55 <= k -> sized_header h i size now k = h k.
Proof.
  intros H1 H2. unfold sized_header, pfs_touch_modified. pfs_const. by arr_read.
Qed.

Lemma sized_slice h i size now o len :
  o + len <= pfs_entry_offset i + 2 \/ pfs_entry_offset i + 6 <= o ->
  o + len <= pfs_entry_offset i + 47 \/ pfs_entry_offset i + 55 <= o ->
  slice (sized_header h i size now) o len = slice h o len.
Proof. intros H1 H2. apply slice_ext. intros k Hk. apply sized_out; lia. Qed.

Lemma sized_view h i size now :
  header_bytes h -> names_fit h -> (i < PFS_ENTRY_COUNT)%nat -> is_u32 size -> is_u64 now ->
  pfs_view (sized_header h i size now) i =
  mkView (pfs_entry_kind h i) (pfs_entry_name h i) size (pfs_entry_extents h i)
    (pfs_entry_created h i) now (pfs_entry_mode h i).
Proof.
  intros Hb Hn Hi Hs Hnow. unfold pfs_view. f_equal.
  - unfold pfs_entry_kind. apply sized_out; lia.
  - unfold pfs_entry_name. rewrite (sized_out h i size now (pfs_entry_offset i + 1)) by lia.
    apply sized_slice; pfs_const; lia.
  - unfold pfs_entry_size, sized_header, pfs_touch_modified. pfs_const.
    rewrite slice_blit_other by (rewrite blen_to_le_bytes; lia).
    rewrite slice_blit_le4, u32_small by done. by apply read_to_le32.
  - unfold pfs_entry_extents, pfs_entry_extent_count, pfs_entry_extent. pfs_const.
    rewrite sized_out by lia. apply map_ext_in. intros k Hk. apply in_seq in Hk.
    unfold PFS_MAX_EXTENTS in Hk. f_equal; f_equal; apply sized_slice; lia.
  - unfold pfs_entry_created. f_equal. apply sized_slice; pfs_const; lia.
  - unfold pfs_entry_modified, sized_header, pfs_touch_modified. pfs_const.
    rewrite slice_blit_le8. by apply read_to_le64.
  - unfold pfs_entry_mode. apply sized_out; pfs_const; lia.
Qed.

Lemma sized_rewritten h i size now :
  header_bytes h -> names_fit h -> (i < PFS_ENTRY_COUNT)%nat -> is_u32 size -> is_u64 now ->
  rewritten h (sized_header h i size now) i
    (mkView (pfs_entry_kind h i) (pfs_entry_name h i) size (pfs_entry_extents h i)
      (pfs_entry_created h i) now (pfs_entry_mode h i)).
Proof.
  intros Hb Hn Hi Hs Hnow. split; [done|..].
  - intros k Hk. unfold sized_header, pfs_touch_modified.
    do 2 (apply blit_u8; [|apply le_bytes_u8]). by apply Hb.
  - intros k Hk. apply sized_out; unfold pfs_entry_offset; pfs_const; lia.
  - intros j Hj Hne k Hk. pose proof (pfs_entry_offset_disjoint i j ltac:(congruence)).
    pfs_const. apply sized_out; lia.
  - unfold name_fits. rewrite sized_out by lia. by apply Hn.
  - by apply sized_view.
Qed.

Lemma name_byte_u8 c : is_name_byte c = true -> is_u8 c.
Proof.
  unfold is_name_byte, is_ascii_digit, is_u8. change (ch ".") with 46.
  change (ch "_") with 95. change (ch "-") with 45. lia.
Qed.

Lemma valid_path_u8 name : valid_pfs_path name = true -> Forall is_u8 name.
Proof.
  unfold valid_pfs_path. case_goal; [done|]. clear. generalize false.
  induction name as [|c name IH]; intros last Hv; [constructor|]. simpl in Hv.
  destruct (Z.eqb_spec c (ch "/")) as [->|Hc].
  - destruct last; [done|]. constructor; [by compute|by eapply IH].
  - destruct (is_name_byte c) eqn:E; simpl in Hv; [|done].
    constructor; [by apply name_byte_u8|by eapply IH].
Qed.

(** ** Files on the disk *)

Section Holds.

Context {D : Type} `{SL : SectorLaws D} (clk : Clock).
Context (Hclk : 0 <= BOOT_TSC clk).

Abbreviation hdr := disk_header.

(** The bytes and the allocation of entry [i]; the recorded size is apart. *)
Record stores (d : D) (name : bytes) (i : nat) (content : bytes) : Prop := {
  ss_healthy : sd_healthy d;
  ss_wf : store_wf d;
  ss_valid : valid_pfs_path name = true;
  ss_parent : pfs_parent_exists (hdr d) name = true;
  ss_find : pfs_find_entry (hdr d) name = Some i;
  ss_file : is_file (hdr d) i;
  ss_max : blen content <= PFS_FILE_MAX;
  ss_room : blen content <= total_sectors (pfs_entry_extents (hdr d) i) * 512;
  ss_data : forall k, (k < length content)%nat ->
    file_byte d (pfs_entry_extents (hdr d) i) (Z.of_nat k) = nth k content 0
}.

Definition file_holds (d : D) (name : bytes) (i : nat) (content : bytes) : Prop :=
  stores d name i content /\ pfs_entry_size (hdr d) i = blen content.

(** A header that a successful write leaves, and the data sectors it does not touch. *)
Lemma write_header_done h (d : D) :
  header_bytes h -> sd_healthy d ->
  exists d', write_header h d = (d', true) /\ sd_healthy d' /\ header_eq (hdr d') h /\
    forall lba, PFS_DATA_START <= lba -> sector_eq (sd_contents d' lba) (sd_contents d lba).
Proof using SL.
  intros Hb Hh. destruct (write_header h d) as [d' ok] eqn:E.
  apply write_header_spec in E as (E1 & E2 & E3); [|done]. destruct (E3 Hh) as [-> Hh'].
  exists d'. split_and!; [done|done|by apply E2|done].
Qed.

Lemma read_header_done (d : D) :
  store_wf d -> sd_healthy d ->
  exists d' h, read_header_silent d = (d', Some h) /\ sd_healthy d' /\ same_disk d d' /\
    header_eq h (hdr d).
Proof using SL.
  intros Hw Hh. destruct (read_header_silent d) as [d' r] eqn:E.
  apply read_header_spec in E as (E1 & E2 & E3). destruct (E3 Hh) as [Hh' Hr].
  destruct (Hr (st_magic _ Hw)) as [h ->]. exists d', h. split_and!; try done. by apply E2.
Qed.

Lemma clock_done (d : D) :
  sd_healthy d ->
  exists d' now, ns_since_boot clk d = (d', now) /\ sd_healthy d' /\ same_disk d d' /\ is_u64 now.
Proof using SL Hclk.
  intros Hh. destruct (ns_since_boot clk d) as [d' now] eqn:E. exists d', now.
  split_and!; [done|by eapply ns_since_boot_healthy|by eapply ns_since_boot_same|
    by eapply ns_since_boot_range].
Qed.

(** A disk that differs outside the header and the data area only. *)
Lemma header_eq_find h1 h2 name :
  header_eq h1 h2 -> names_fit h1 -> pfs_find_entry h1 name = pfs_find_entry h2 name.
Proof. intros He Hn. apply find_entry_agree; [|done]. intros j Hj. by apply header_eq_agree. Qed.

Lemma header_eq_view h1 h2 i :
  header_eq h1 h2 -> names_fit h1 -> (i < PFS_ENTRY_COUNT)%nat -> pfs_view h1 i = pfs_view h2 i.
Proof. intros He Hn Hi. apply view_agree; [by apply header_eq_agree|auto]. Qed.

Lemma header_eq_parent h1 h2 name :
  header_eq h1 h2 -> names_fit h1 -> pfs_parent_exists h1 name = pfs_parent_exists h2 name.
Proof.
  intros He Hn. unfold pfs_parent_exists. destruct (find_last_byte name (ch "/")); [|done].
  destruct (_ || _); [done|]. rewrite (header_eq_find h1 h2) by done.
  destruct (pfs_find_entry h2 _) as [j|] eqn:E; [|done].
  apply find_entry_spec in E as (Hj & _). apply is_dir_agree. by apply header_eq_agree.
Qed.

Lemma free_entry_eq h1 h2 : header_eq h1 h2 -> pfs_free_entry h1 = pfs_free_entry h2.
Proof.
  intros He. apply find_first_ext. intros j Hj. f_equal. apply used_agree. by apply header_eq_agree.
Qed.

(** The file of a rewritten entry that is stored on the disk. *)
Lemma stored_entry (d d' : D) h' i v content :
  store_wf d -> sd_healthy d' -> header_eq (hdr d') h' ->
  (forall lba, PFS_DATA_START <= lba -> sector_eq (sd_contents d' lba) (sd_contents d lba)) ->
  rewritten (hdr d) h' i v -> file_view v -> extents_kept (hdr d) i v ->
  pfs_find_entry (hdr d) (v_name v) = Some i \/ pfs_find_entry (hdr d) (v_name v) = None ->
  (pfs_entry_used (hdr d) i = true -> pfs_entry_is_dir (hdr d) i = false) ->
  valid_pfs_path (v_name v) = true -> pfs_parent_exists (hdr d) (v_name v) = true ->
  blen content <= PFS_FILE_MAX -> blen content <= total_sectors (v_extents v) * 512 ->
  (forall k, (k < length content)%nat -> file_byte d (v_extents v) (Z.of_nat k) = nth k content 0) ->
  v_size v = blen content ->
  file_holds d' (v_name v) i content.
Proof using SL.
  intros [Wm Wn Wa] Hh He Hs Hrw Hv Hk Hf Hd Hval Hpar Hmax Hroom Hdata Hsz.
  pose proof (rewritten_names _ _ _ _ Wn Hrw) as Hn'.
  pose proof (rewritten_alloc _ _ _ _ Hrw Wa Hk) as Ha'.
  pose proof (rewritten_file _ _ _ _ Hrw Hv) as Hfile.
  assert (Hn1 : names_fit (hdr d')) by by rewrite He.
  pose proof (header_eq_view _ _ _ He Hn1 (rw_index _ _ _ _ Hrw)) as Hview.
  rewrite (rw_view _ _ _ _ Hrw) in Hview.
  assert (Hext : pfs_entry_extents (hdr d') i = v_extents v) by exact (f_equal v_extents Hview).
  assert (Hf1 : is_file (hdr d') i) by by apply (header_eq_file _ h').
  split; [|by rewrite <- Hsz; exact (f_equal v_size Hview)].
  split; rewrite ?Hext; try done.
  - split; [|done|by rewrite He].
    by rewrite (magic_header_eq _ _ He), (rewritten_magic _ _ _ _ Hrw).
  - rewrite (header_eq_parent _ _ _ He Hn1). by apply (rewritten_parent _ _ _ _ Wn Hrw).
  - rewrite (header_eq_find _ _ _ He Hn1). by apply (rewritten_find _ _ _ _ Wn Hrw Hv).
  - intros k Hk'. rewrite <- Hdata by done.
    assert (Hc : chain PFS_DATA_START (v_extents v)).
    { rewrite <- Hext. apply (alloc_wf_proper _ _ He) in Ha'. by apply (aw_chain _ Ha'). }
    apply file_byte_ext; [done|lia|]. intros lba Hl. apply Hs. apply (chain_covered _ _ _ Hc Hl).
Qed.

(** ** Steps *)

Lemma stores_same (d d' : D) name i content :
  same_disk d d' -> sd_healthy d' -> stores d name i content -> stores d' name i content.
Proof using SL.
  intros Hs Hh [_ Hw Hval Hpar Hf Hfile Hmax Hroom Hdata].
  pose proof (same_disk_header _ _ Hs) as He.
  pose proof (store_wf_same _ _ Hs Hw) as Hw'. pose proof (st_names _ Hw') as Hn'.
  assert (Hext : pfs_entry_extents (hdr d') i = pfs_entry_extents (hdr d) i)
    by (apply header_eq_extents; [done|apply Hfile]).
  split; [exact Hh|exact Hw'|exact Hval| | | |exact Hmax|by rewrite Hext|rewrite Hext].
  - by rewrite (header_eq_parent _ _ _ He Hn').
  - by rewrite (header_eq_find _ _ _ He Hn').
  - by apply (header_eq_file _ _ _ He).
  - intros k Hk. rewrite (same_disk_byte _ _ _ _ Hs). by apply Hdata.
Qed.

Lemma size_same (d d' : D) i :
  same_disk d d' -> store_wf d' -> (i < PFS_ENTRY_COUNT)%nat ->
  pfs_entry_size (hdr d') i = pfs_entry_size (hdr d) i.
Proof using SL.
  intros Hs Hw Hi. pose proof (same_disk_header _ _ Hs) as He.
  exact (f_equal v_size (header_eq_view _ _ _ He (st_names _ Hw) Hi)).
Qed.

Lemma holds_same (d d' : D) name i content :
  same_disk d d' -> sd_healthy d' -> file_holds d name i content -> file_holds d' name i content.
Proof using SL.
  intros Hs Hh [Hst Hsz]. pose proof (stores_same _ _ _ _ _ Hs Hh Hst) as Hst'. split; [done|].
  rewrite (size_same d d') by (done || apply Hst' || apply Hst). done.
Qed.

(** An entry rewritten to an empty file. *)
Lemma emptied (d : D) h name i created mode now :
  store_wf d -> sd_healthy d -> header_eq h (hdr d) -> (i < PFS_ENTRY_COUNT)%nat ->
  pfs_find_entry (hdr d) name = Some i \/ pfs_find_entry (hdr d) name = None ->
  (pfs_entry_used (hdr d) i = true -> pfs_entry_is_dir (hdr d) i = false) ->
  valid_pfs_path name = true -> pfs_parent_exists (hdr d) name = true ->
  is_u64 created -> is_u64 now -> is_u8 mode ->
  let h' := pfs_set_entry h i name 0 PFS_KIND_FILE [] created mode now in
  exists d', write_header h' d = (d', true) /\ file_holds d' name i [] /\ header_eq h' (disk_header d').
Proof using SL.
  intros Hw Hh He Hi Hf Hd Hval Hpar Hc Hnow Hm. pose proof (valid_bytes_no_leading_parent _ Hval) as Hl.
  assert (Hb : header_bytes h) by (intros k Hk; rewrite He by done; by apply disk_header_bytes).
  assert (Hn : names_fit h) by (rewrite He; apply Hw).
  assert (Hfits : entry_fits name 0 PFS_KIND_FILE [] created mode now).
  { split; try done. simpl. lia. }
  pose proof (set_rewritten h i name 0 PFS_KIND_FILE [] created mode now Hi Hb Hn
    (valid_path_u8 _ Hval) ltac:(done) Hm Hfits) as Hrw.
  destruct (write_header_done _ d (rw_bytes _ _ _ _ Hrw) Hh) as (d' & E & Hh' & He' & Hs).
  exists d'. split; [done|]. split; [|by symmetry]. apply (rewritten_from _ _ _ _ _ He) in Hrw.
  apply (stored_entry d d' _ i _ [] Hw Hh' He' Hs Hrw);
    [by split|by left|exact Hf|exact Hd|exact Hval|exact Hpar|by rewrite PFS_FILE_MAX_eq|done| |done].
  intros k Hk. simpl in Hk. lia.
Qed.

Lemma update_size_done (d : D) name i content :
  stores d name i content ->
  exists d', pfs_update_size clk i (blen content) d = (d', true) /\ file_holds d' name i content.
Proof using SL Hclk.
  intros Hst. destruct (read_header_done d) as (d1 & h & E1 & Hh1 & Hs1 & He1);
    [apply Hst..|]. pose proof (stores_same _ _ _ _ _ Hs1 Hh1 Hst) as Hst1.
  destruct (clock_done d1 Hh1) as (d2 & now & E2 & Hh2 & Hs2 & Hnow).
  pose proof (stores_same _ _ _ _ _ Hs2 Hh2 Hst1) as Hst2.
  assert (He2 : header_eq h (hdr d2)).
  { intros k Hk. rewrite He1 by done. symmetry.
    apply (same_disk_header d d2); [by transitivity d1|done]. }
  destruct Hst2 as [_ Hw Hval Hpar Hf (Hi & Hu & Hdir) Hmax Hroom Hdata].
  assert (Hb : header_bytes h) by (intros k Hk; rewrite He2 by done; by apply disk_header_bytes).
  assert (Hn : names_fit h) by (rewrite He2; apply Hw).
  assert (Hsz : is_u32 (blen content))
    by (unfold is_u32; pose proof (blen_nonneg content); rewrite PFS_FILE_MAX_eq in *; lia).
  pose proof (sized_rewritten h i _ now Hb Hn Hi Hsz Hnow) as Hrw.
  pose proof (header_eq_view _ _ _ He2 Hn Hi) as Hv. unfold pfs_view in Hv.
  injection Hv as V1 V2 V3 V4 V5 V6 V7. rewrite V1, V2, V4, V5, V7 in Hrw.
  destruct (write_header_done _ d2 (rw_bytes _ _ _ _ Hrw) Hh2) as (d3 & E3 & Hh3 & He3 & Hs3).
  exists d3. split.
  - unfold pfs_update_size, st_bind. rewrite E1.
    rewrite (used_agree _ _ _ (header_eq_agree _ _ i Hi He2)), Hu. simpl. by rewrite E2.
  - pose proof (find_entry_spec _ _ _ Hf) as (_ & _ & Hname). rewrite Hname in Hrw.
    apply (rewritten_from _ _ _ _ _ He2) in Hrw.
    rewrite view_used in Hu. rewrite view_is_dir in Hdir. cbn [pfs_view v_kind] in Hu, Hdir.
    apply (stored_entry d2 d3 _ i _ content Hw Hh3 He3 Hs3 Hrw); cbn [v_name v_extents v_size];
      [split; cbn [v_kind]; lia|by right|by left|done|exact Hval|exact Hpar|exact Hmax|exact Hroom|
       exact Hdata|done].
Qed.

(** Reading inside the file. *)
Lemma read_at_done (d : D) name i content off len :
  stores d name i content -> 0 <= off -> 0 <= len -> off + len <= blen content ->
  exists d', pfs_read_at i off len d =
      (d', (true, take (Z.to_nat len) (drop (Z.to_nat off) content))) /\
    same_disk d d' /\ sd_healthy d'.
Proof using SL.
  intros [Hh Hw _ _ _ Hf Hmax Hroom Hdata] Ho Hl Hb.
  destruct (pfs_read_at i off len d) as [d' [ok got]] eqn:E.
  destruct (read_at_full d d' i off len ok got) as (R1 & _ & R3 & R4 & R5 & R6);
    [done|done|lia|lia|lia|done|].
  assert (ok = true) as -> by (apply R5; [done|lia]). specialize (R4 eq_refl).
  exists d'. split; [|auto]. do 2 f_equal. rewrite R3.
  assert (Hlen : length got = Z.to_nat len) by (unfold blen in R4; lia). rewrite Hlen.
  set (l := take _ _). assert (Hll : length l = Z.to_nat len)
    by (unfold l, blen in *; rewrite length_take, length_drop; lia).
  rewrite <- Hll. apply file_bytes_eq. intros k Hk. unfold l. rewrite nth_take_lt, nth_drop by lia.
  rewrite <- Hdata by (unfold blen in *; lia). f_equal. lia.
Qed.

(** The view of every entry keeps its kind and name. *)
Definition same_names (h1 h2 : arr) : Prop :=
  forall j, (j < PFS_ENTRY_COUNT)%nat ->
    pfs_entry_kind h1 j = pfs_entry_kind h2 j /\ pfs_entry_name h1 j = pfs_entry_name h2 j.

Lemma same_names_find h1 h2 name :
  same_names h1 h2 -> pfs_find_entry h1 name = pfs_find_entry h2 name.
Proof using.
  intros Hs. apply find_first_ext. intros j Hj. destruct (Hs j Hj) as [Hk Hn].
  unfold pfs_entry_kind in Hk. unfold pfs_entry_used. by rewrite Hk, Hn.
Qed.

Lemma same_names_parent h1 h2 name :
  same_names h1 h2 -> pfs_parent_exists h1 name = pfs_parent_exists h2 name.
Proof using.
  intros Hs. unfold pfs_parent_exists. destruct (find_last_byte name (ch "/")); [|done].
  destruct (_ || _); [done|]. rewrite (same_names_find h1 h2) by done.
  destruct (pfs_find_entry h2 _) as [j|] eqn:E; [|done].
  apply find_entry_spec in E as (Hj & _). destruct (Hs j Hj) as [Hk _].
  unfold pfs_entry_kind in Hk. unfold pfs_entry_is_dir. by rewrite Hk.
Qed.

Lemma write_post_names (d d' : D) i off data :
  write_post d i off data d' true -> same_names (hdr d') (hdr d).
Proof using.
  intros [_ _ W3 W4 _ _] j Hj. destruct (W4 eq_refl) as (exts & now & Hv & _).
  destruct (decide (j = i)) as [->|Hne].
  - by split; [exact (f_equal v_kind Hv)|exact (f_equal v_name Hv)].
  - specialize (W3 eq_refl j Hj Hne). by split; [exact (f_equal v_kind W3)|exact (f_equal v_name W3)].
Qed.

(** Writing at an offset inside the file or at its end. *)
Lemma write_at_done (d : D) name i content off data :
  file_holds d name i content -> 0 <= off -> Forall is_u8 data ->
  off + blen data <= PFS_FILE_MAX ->
  exists d' ok, pfs_write_at clk i off data d = (d', ok) /\
    (sd_healthy d' /\ ok = can_grow (hdr d) i (off + blen data) /\ (ok = false -> same_disk d d')) /\
    (ok = true -> stores d' name i (splice content off data) /\
                  pfs_entry_size (hdr d') i = blen content).
Proof using SL Hclk.
  intros [[Hh Hw Hval Hpar Hf Hfile Hmax Hroom Hdata] Hsz] Ho Hu Hl.
  destruct (pfs_write_at clk i off data d) as [d' ok] eqn:E. exists d', ok. split; [done|].
  apply (write_at_spec clk Hclk) in E; [|exact Hw|exact Hfile|exact Hu|lia|exact Hl].
  pose proof (write_post_names d d' i off data) as Hsame. pose proof E as [_ W2 W3 W4 W5 W6].
  destruct (W6 Hh) as [Hh' Hgrow]. split; [done|]. intros Hok. rewrite Hok in E. specialize (Hsame E). specialize (W2 Hok).
  destruct (W4 Hok) as (exts & now & Hv & Ht & Htt). specialize (W3 Hok). specialize (W5 Hok).
  pose proof (f_equal v_extents Hv) as He. cbn [v_extents pfs_view] in He.
  pose proof (blen_splice_bounds content off data Ho) as Hbl.
  split; [|rewrite <- Hsz; exact (f_equal v_size Hv)].
  split; [exact Hh'|exact W2|exact Hval|by rewrite (same_names_parent _ _ _ Hsame)|
    by rewrite (same_names_find _ _ _ Hsame)| |lia| |].
  - destruct Hfile as (Hi & Hus & Hd). split; [done|]. destruct (Hsame i Hi) as [Hk _].
    unfold pfs_entry_kind, pfs_entry_used, pfs_entry_is_dir in *. by rewrite Hk.
  - rewrite He. lia.
  - intros k Hk. assert (Hk' : Z.of_nat k < Z.max (blen content) (off + blen data)) by (unfold blen in *; lia).
    rewrite W5; [|lia|unfold blen in *; lia].
    unfold write_result. rewrite nth_splice, Hsz by done.
    case_goal; [unfold byte_at; f_equal; lia|]. case_goal; [|apply Hdata; unfold blen in *; lia].
    rewrite nth_overflow; [done|unfold blen in *; lia].
Qed.

End Holds.

(** ** The demo disk holds the empty file [f] *)

Lemma disk_f_holds : file_holds disk_f (bs "f") 0 [].
Proof.
  pose proof (st_names _ disk_f_store) as Hn. destruct file_f_spec as (_ & Hf & Hl).
  unfold pfs_lookup in Hl. rewrite Hf in Hl.
  assert (Hv : pfs_view file_f 0 = mkView PFS_KIND_FILE (bs "f") 0 [] 1 1 PFS_MODE_DEFAULT_FILE) by congruence.
  pose proof (header_eq_view _ _ 0 disk_f_header Hn (proj1 disk_f_file)) as Hv'. rewrite Hv in Hv'.
  split; [|exact (f_equal v_size Hv')].
  split; [reflexivity|exact disk_f_store|reflexivity|reflexivity| |exact disk_f_file| | |].
  - by rewrite (header_eq_find _ _ _ disk_f_header Hn).
  - by rewrite PFS_FILE_MAX_eq.
  - replace (pfs_entry_extents (disk_header disk_f) 0) with (@nil PfsExtent)
      by (symmetry; exact (f_equal v_extents Hv')). done.
  - intros k Hk. simpl in Hk. lia.
Qed.
