(* ===== verification/Console.v ===== *)
(** * The text console

    [Console] of [src/kernel/src/main.rs]: the cell grid, the cursor, and the
    three outputs every cell goes to (VGA text memory, framebuffer pixels, the
    serial line), with the glyph and scan-code tables. *)

From S2P Require Import Prelude Constants Text.

(** Rows of the glyphs, as bit masks of five pixels. *)
Definition glyph (byte : Z) : list Z :=
  match byte with
  | 48 => [14; 17; 19; 21; 25; 17; 14]
  | 49 => [4; 12; 4; 4; 4; 4; 14]
  | 50 => [14; 17; 1; 2; 4; 8; 31]
  | 51 => [30; 1; 1; 14; 1; 1; 30]
  | 52 => [2; 6; 10; 18; 31; 2; 2]
  | 53 => [31; 16; 16; 30; 1; 1; 30]
  | 54 => [6; 8; 16; 30; 17; 17; 14]
  | 55 => [31; 1; 2; 4; 8; 8; 8]
  | 56 => [14; 17; 17; 14; 17; 17; 14]
  | 57 => [14; 17; 17; 15; 1; 2; 12]
  | 97 | 65 => [14; 17; 17; 31; 17; 17; 17]
  | 98 | 66 => [30; 17; 17; 30; 17; 17; 30]
  | 99 | 67 => [14; 17; 16; 16; 16; 17; 14]
  | 100 | 68 => [30; 17; 17; 17; 17; 17; 30]
  | 101 | 69 => [31; 16; 16; 30; 16; 16; 31]
  | 102 | 70 => [31; 16; 16; 30; 16; 16; 16]
  | 103 | 71 => [14; 17; 16; 23; 17; 17; 15]
  | 104 | 72 => [17; 17; 17; 31; 17; 17; 17]
  | 105 | 73 => [14; 4; 4; 4; 4; 4; 14]
  | 106 | 74 => [7; 2; 2; 2; 18; 18; 12]
  | 107 | 75 => [17; 18; 20; 24; 20; 18; 17]
  | 108 | 76 => [16; 16; 16; 16; 16; 16; 31]
  | 109 | 77 => [17; 27; 21; 21; 17; 17; 17]
  | 110 | 78 => [17; 25; 21; 19; 17; 17; 17]
  | 111 | 79 => [14; 17; 17; 17; 17; 17; 14]
  | 112 | 80 => [30; 17; 17; 30; 16; 16; 16]
  | 113 | 81 => [14; 17; 17; 17; 21; 18; 13]
  | 114 | 82 => [30; 17; 17; 30; 20; 18; 17]
  | 115 | 83 => [15; 16; 16; 14; 1; 1; 30]
  | 116 | 84 => [31; 4; 4; 4; 4; 4; 4]
  | 117 | 85 => [17; 17; 17; 17; 17; 17; 14]
  | 118 | 86 => [17; 17; 17; 17; 10; 10; 4]
  | 119 | 87 => [17; 17; 17; 21; 21; 27; 17]
  | 120 | 88 => [17; 17; 10; 4; 10; 17; 17]
  | 121 | 89 => [17; 17; 10; 4; 4; 4; 4]
  | 122 | 90 => [31; 1; 2; 4; 8; 16; 31]
  | 32 => [0; 0; 0; 0; 0; 0; 0]
  | 46 => [0; 0; 0; 0; 0; 12; 12]
  | 44 => [0; 0; 0; 0; 0; 12; 8]
  | 58 => [0; 12; 12; 0; 12; 12; 0]
  | 59 => [0; 12; 12; 0; 12; 8; 16]
  | 47 => [1; 1; 2; 4; 8; 16; 16]
  | 92 => [16; 16; 8; 4; 2; 1; 1]
  | 45 => [0; 0; 0; 31; 0; 0; 0]
  | 95 => [0; 0; 0; 0; 0; 0; 31]
  | 61 => [0; 31; 0; 31; 0; 0; 0]
  | 43 => [0; 4; 4; 31; 4; 4; 0]
  | 36 => [4; 15; 20; 14; 5; 30; 4]
  | 62 => [16; 8; 4; 2; 4; 8; 16]
  | 60 => [1; 2; 4; 8; 4; 2; 1]
  | 91 => [14; 8; 8; 8; 8; 8; 14]
  | 93 => [14; 2; 2; 2; 2; 2; 14]
  | 40 => [2; 4; 8; 8; 8; 4; 2]
  | 41 => [8; 4; 2; 2; 2; 4; 8]
  | 33 => [4; 4; 4; 4; 4; 0; 4]
  | 63 => [14; 17; 1; 2; 4; 0; 4]
  | 39 => [4; 4; 8; 0; 0; 0; 0]
  | 34 => [10; 10; 0; 0; 0; 0; 0]
  | _ => [31; 17; 2; 4; 4; 0; 4]
  end.

Definition scancode_to_ascii (scancode : Z) : option Z :=
  if negb (Z.land scancode 0x80 =? 0) then None
  else
    match scancode with
    | 0x02 => Some 49
    | 0x03 => Some 50
    | 0x04 => Some 51
    | 0x05 => Some 52
    | 0x06 => Some 53
    | 0x07 => Some 54
    | 0x08 => Some 55
    | 0x09 => Some 56
    | 0x0A => Some 57
    | 0x0B => Some 48
    | 0x0C => Some 45
    | 0x0D => Some 61
    | 0x0E => Some 8
    | 0x0F => Some 32
    | 0x10 => Some 113
    | 0x11 => Some 119
    | 0x12 => Some 101
    | 0x13 => Some 114
    | 0x14 => Some 116
    | 0x15 => Some 121
    | 0x16 => Some 117
    | 0x17 => Some 105
    | 0x18 => Some 111
    | 0x19 => Some 112
    | 0x1A => Some 91
    | 0x1B => Some 93
    | 0x1C => Some 10
    | 0x1E => Some 97
    | 0x1F => Some 115
    | 0x20 => Some 100
    | 0x21 => Some 102
    | 0x22 => Some 103
    | 0x23 => Some 104
    | 0x24 => Some 106
    | 0x25 => Some 107
    | 0x26 => Some 108
    | 0x27 => Some 59
    | 0x28 => Some 39
    | 0x29 => Some 96
    | 0x2B => Some 92
    | 0x2C => Some 122
    | 0x2D => Some 120
    | 0x2E => Some 99
    | 0x2F => Some 118
    | 0x30 => Some 98
    | 0x31 => Some 110
    | 0x32 => Some 109
    | 0x33 => Some 44
    | 0x34 => Some 46
    | 0x35 => Some 47
    | 0x39 => Some 32
    | _ => None
    end.

Definition clamp_text_cols (value : Z) : Z :=
  if value =? 0 then Z.of_nat VGA_WIDTH
  else if Z.of_nat TEXT_COLS_MAX <? value then Z.of_nat TEXT_COLS_MAX else value.

Definition clamp_text_rows (value : Z) : Z :=
  if value =? 0 then Z.of_nat VGA_HEIGHT
  else if Z.of_nat TEXT_ROWS_MAX <? value then Z.of_nat TEXT_ROWS_MAX else value.

(** The console, with the memories its stores reach: [vga] is the text buffer,
    [pixels] the framebuffer words, [serial] the bytes sent to COM1. *)
Record Console : Type := mkConsole {
  row : Z; col : Z; rows : Z; cols : Z;
  cells : arr;
  framebuffer_base : Z; framebuffer_size : Z;
  framebuffer_width : Z; framebuffer_height : Z;
  pixels_per_scan_line : Z; pixel_format : Z;
  vga : arr; pixels : arr; serial : bytes
}.

(** The fields of [BootInfo] the console reads. *)
Record FbInfo : Type := mkFbInfo {
  fb_base : Z; fb_size : Z; fb_hres : Z; fb_vres : Z; fb_pitch : Z; fb_format : Z
}.

Definition blank_cells : arr := fun _ => ch " ".

Definition without_framebuffer : Console :=
  mkConsole 0 0 (Z.of_nat VGA_HEIGHT) (Z.of_nat VGA_WIDTH) blank_cells 0 0 0 0 0 0
    zeroed zeroed [].

(** [Console::new]; [None] is the null pointer. *)
Definition Console_new (boot_info : option FbInfo) : Console :=
  match boot_info with
  | None => without_framebuffer
  | Some info =>
      if (fb_base info =? 0) || (fb_hres info =? 0) || (fb_vres info =? 0) || (fb_pitch info =? 0)
      then without_framebuffer
      else mkConsole 0 0 (clamp_text_rows (fb_vres info / FONT_HEIGHT))
             (clamp_text_cols (fb_hres info / FONT_WIDTH)) blank_cells
             (fb_base info) (fb_size info) (fb_hres info) (fb_vres info)
             (fb_pitch info) (fb_format info) zeroed zeroed []
  end.

(** ** Pixels *)

Definition write_pixel (x y color : Z) (c : Console) : Console :=
  if (framebuffer_width c <=? x) || (framebuffer_height c <=? y) then c
  else
    let index := u64 (y * pixels_per_scan_line c + x) in
    if framebuffer_size c <=? u64 (index * 4) then c
    else {| c with pixels := aset (pixels c) index color |}.

Definition clear_framebuffer (c : Console) : Console :=
  if framebuffer_base c =? 0 then c
  else for_range 0 (framebuffer_size c / 4)
         (fun index c => {| c with pixels := aset (pixels c) index FB_BACKGROUND |}) c.

Definition draw_framebuffer_cell (row_ col_ byte : Z) (c : Console) : Console :=
  if framebuffer_base c =? 0 then c
  else
    let x := u64 (col_ * FONT_WIDTH) in
    let y := u64 (row_ * FONT_HEIGHT) in
    if (framebuffer_width c <=? u64 (x + FONT_WIDTH))
       || (framebuffer_height c <=? u64 (y + FONT_HEIGHT)) then c
    else
      let c := for_range 0 FONT_HEIGHT (fun py =>
                 for_range 0 FONT_WIDTH (fun px => write_pixel (x + px) (y + py) FB_BACKGROUND)) c in
      for_range 0 7 (fun glyph_y =>
        let row_bits := nth (Z.to_nat glyph_y) (glyph byte) 0 in
        for_range 0 5 (fun glyph_x c =>
          if Z.testbit row_bits (4 - glyph_x) then
            let x0 := x + 1 + glyph_x in
            let y0 := y + 2 + glyph_y * 2 in
            write_pixel x0 (y0 + 1) FB_FOREGROUND (write_pixel x0 y0 FB_FOREGROUND c)
          else c)) c.

(** ** Cells *)

Definition read_cell (c : Console) (row_ col_ : Z) : Z :=
  cells c (row_ * Z.of_nat TEXT_COLS_MAX + col_).

Definition write_cell (row_ col_ byte : Z) (c : Console) : Console :=
  let c := {| c with cells := aset (cells c) (row_ * Z.of_nat TEXT_COLS_MAX + col_) byte |} in
  let c := if (row_ <? Z.of_nat VGA_HEIGHT) && (col_ <? Z.of_nat VGA_WIDTH) then
             let offset := (row_ * Z.of_nat VGA_WIDTH + col_) * 2 in
             {| c with vga := aset (aset (vga c) offset byte) (offset + 1) VGA_COLOR |}
           else c in
  draw_framebuffer_cell row_ col_ byte c.

Definition serial_write_byte (byte : Z) (c : Console) : Console :=
  {| c with serial := serial c ++ [byte] |}.

Definition scroll (c : Console) : Console :=
  let c := for_range 1 (rows c) (fun row_ c =>
             for_range 0 (cols c) (fun col_ c =>
               write_cell (row_ - 1) col_ (read_cell c row_ col_) c) c) c in
  for_range 0 (cols c) (fun col_ c => write_cell (rows c - 1) col_ (ch " ") c) c.

Definition new_line (c : Console) : Console :=
  let c := {| c with col := 0 |} in
  let c := if rows c <=? row c + 1 then scroll c else {| c with row := row c + 1 |} in
  serial_write_byte 10 (serial_write_byte 13 c).

Definition write_byte (byte : Z) (c : Console) : Console :=
  if byte =? 10 then new_line c
  else if byte =? 13 then c
  else
    let c := if cols c <=? col c then new_line c else c in
    let c := write_cell (row c) (col c) byte c in
    serial_write_byte byte {| c with col := col c + 1 |}.

Definition write_bytes (l : bytes) (c : Console) : Console :=
  fold_left (fun c byte => write_byte byte c) l c.

Definition write_line (text : bytes) (c : Console) : Console := new_line (write_bytes text c).

Definition backspace (c : Console) : Console :=
  if col c =? 0 then c
  else
    let c := {| c with col := col c - 1 |} in
    let c := write_cell (row c) (col c) (ch " ") c in
    serial_write_byte 8 (serial_write_byte (ch " ") (serial_write_byte 8 c)).

Definition clear (c : Console) : Console :=
  let c := clear_framebuffer c in
  let c := for_range 0 (rows c) (fun row_ c =>
             for_range 0 (cols c) (fun col_ => write_cell row_ col_ (ch " ")) c) c in
  {| c with row := 0; col := 0 |}.

Definition video_info (c : Console) : Console :=
  if framebuffer_base c =? 0 then write_line (bs "video: legacy VGA text fallback 80x25") c
  else
    let c := write_bytes (bs "video: ") c in
    let c := write_bytes (write_usize (framebuffer_width c)) c in
    let c := write_bytes (bs "x") c in
    let c := write_bytes (write_usize (framebuffer_height c)) c in
    let c := write_bytes (bs " pitch ") c in
    let c := write_bytes (write_usize (pixels_per_scan_line c)) c in
    let c := write_bytes (bs " text ") c in
    let c := write_bytes (write_usize (cols c)) c in
    let c := write_bytes (bs "x") c in
    let c := write_bytes (write_usize (rows c)) c in
    let c := write_bytes (bs " format ") c in
    let c := write_bytes (write_usize (pixel_format c)) c in
    new_line c.

(** ** Invariants *)

(** The cursor is on the grid and the grid fits the cell array. *)
Record console_wf (c : Console) : Prop := {
  cw_row : 0 <= row c < rows c;
  cw_col : 0 <= col c <= cols c;
  cw_rows : rows c <= Z.of_nat TEXT_ROWS_MAX;
  cw_cols : 0 < cols c <= Z.of_nat TEXT_COLS_MAX
}.

(** What a store to a cell or a pixel leaves alone. *)
Record same_frame (c c' : Console) : Prop := {
  sf_row : row c' = row c; sf_col : col c' = col c;
  sf_rows : rows c' = rows c; sf_cols : cols c' = cols c;
  sf_serial : serial c' = serial c
}.

(** The VGA text memory shows the cells of its 80x25 corner. *)
Definition vga_mirror (c : Console) : Prop :=
  forall r k, 0 <= r < Z.min (rows c) (Z.of_nat VGA_HEIGHT) ->
    0 <= k < Z.min (cols c) (Z.of_nat VGA_WIDTH) ->
    vga c ((r * Z.of_nat VGA_WIDTH + k) * 2) = read_cell c r k.

(** Only pixels changed. *)
Definition same_text (c c' : Console) : Prop :=
  same_frame c c' /\ cells c' = cells c /\ vga c' = vga c.

#[export] Instance same_frame_preorder : PreOrder same_frame.
Proof.
  split; [by intros c|]. intros a b c [H1 H2 H3 H4 H5] [K1 K2 K3 K4 K5].
  split; congruence.
Qed.

#[export] Instance same_text_preorder : PreOrder same_text.
Proof.
  split; [by intros c|]. intros a b c (H1 & H2 & H3) (K1 & K2 & K3).
  split_and!; [by transitivity b|congruence|congruence].
Qed.

Lemma pixel_text x y color c : same_text c (write_pixel x y color c).
Proof. unfold write_pixel. repeat case_goal; done. Qed.

Lemma draw_text r k byte c : same_text c (draw_framebuffer_cell r k byte c).
Proof.
  unfold draw_framebuffer_cell. case_goal; [done|]. cbv zeta. case_goal; [done|].
  apply (for_range_inv (same_text c)).
  - apply (for_range_inv (same_text c)); [done|]. intros py c1 _ H1.
    apply (for_range_inv (same_text c)); [done|]. intros px c2 _ H2.
    etransitivity; [exact H2|]. apply pixel_text.
  - intros gy c1 _ H1. apply (for_range_inv (same_text c)); [done|]. intros gx c2 _ H2.
    case_goal; [|done]. etransitivity; [exact H2|].
    etransitivity; [apply pixel_text|apply pixel_text].
Qed.

Lemma write_cell_frame r k byte c : same_frame c (write_cell r k byte c).
Proof.
  unfold write_cell. cbv zeta. case_goal; (etransitivity; [|apply draw_text]); done.
Qed.

Lemma write_cell_read r k byte c r' k' :
  0 <= k < Z.of_nat TEXT_COLS_MAX -> 0 <= k' < Z.of_nat TEXT_COLS_MAX ->
  read_cell (write_cell r k byte c) r' k' =
  if (r' =? r) && (k' =? k) then byte else read_cell c r' k'.
Proof.
  intros Hk Hk'. unfold read_cell, write_cell. cbv zeta.
  match goal with |- context [draw_framebuffer_cell r k byte ?c1] =>
    destruct (draw_text r k byte c1) as (_ & -> & _) end.
  assert (cells (if (r <? Z.of_nat VGA_HEIGHT) && (k <? Z.of_nat VGA_WIDTH)
    then {| {| c with cells := aset (cells c) (r * Z.of_nat TEXT_COLS_MAX + k) byte |} with
            vga := aset (aset (vga c) ((r * Z.of_nat VGA_WIDTH + k) * 2) byte)
                        ((r * Z.of_nat VGA_WIDTH + k) * 2 + 1) VGA_COLOR |}
    else {| c with cells := aset (cells c) (r * Z.of_nat TEXT_COLS_MAX + k) byte |})
    = aset (cells c) (r * Z.of_nat TEXT_COLS_MAX + k) byte) as He by by case_goal.
  change (vga {| c with cells := _ |}) with (vga c). rewrite He. clear He.
  unfold aset, TEXT_COLS_MAX in *.
  destruct ((r' =? r) && (k' =? k)) eqn:E.
  - apply andb_true_iff in E as [->%Z.eqb_eq ->%Z.eqb_eq]. by rewrite Z.eqb_refl.
  - destruct (Z.eqb_spec (r' * Z.of_nat 128 + k') (r * Z.of_nat 128 + k)); [|done].
    apply andb_false_iff in E as [E|E]; apply Z.eqb_neq in E; lia.
Qed.

Definition vga_cell (c : Console) (r k : Z) : Z := vga c ((r * Z.of_nat VGA_WIDTH + k) * 2).

Lemma write_cell_vga_at r k byte c r' k' :
  0 <= r' < Z.of_nat VGA_HEIGHT -> 0 <= k' < Z.of_nat VGA_WIDTH -> 0 <= k ->
  vga_cell (write_cell r k byte c) r' k' =
  if (r' =? r) && (k' =? k) then byte else vga_cell c r' k'.
Proof.
  intros Hr Hk Hk0. unfold vga_cell, write_cell. cbv zeta.
  match goal with |- context [draw_framebuffer_cell r k byte ?c1] =>
    destruct (draw_text r k byte c1) as (_ & _ & ->) end.
  unfold VGA_WIDTH, VGA_HEIGHT in *.
  destruct ((r <? Z.of_nat 25) && (k <? Z.of_nat 80)) eqn:E; cbn [vga].
  - apply andb_true_iff in E as [E1%Z.ltb_lt E2%Z.ltb_lt]. unfold aset.
    destruct (Z.eqb_spec ((r' * Z.of_nat 80 + k') * 2) ((r * Z.of_nat 80 + k) * 2 + 1)); [lia|].
    destruct (Z.eqb_spec ((r' * Z.of_nat 80 + k') * 2) ((r * Z.of_nat 80 + k) * 2)).
    + rewrite (proj2 (andb_true_iff _ _)); [done|]. split; apply Z.eqb_eq; lia.
    + rewrite (proj2 (andb_false_iff _ _)); [done|].
      destruct (Z.eqb_spec r' r); [right|by left]. apply Z.eqb_neq. lia.
  - rewrite (proj2 (andb_false_iff _ _)); [done|].
    apply andb_false_iff in E as [E%Z.ltb_ge|E%Z.ltb_ge]; [left|right]; apply Z.eqb_neq; lia.
Qed.

Lemma write_cell_vga r k byte c :
  0 <= r < Z.of_nat TEXT_ROWS_MAX -> 0 <= k < Z.of_nat TEXT_COLS_MAX ->
  cols c <= Z.of_nat TEXT_COLS_MAX ->
  vga_mirror c -> vga_mirror (write_cell r k byte c).
Proof.
  intros Hr Hk Hc Hm r' k' Hr' Hk'. destruct (write_cell_frame r k byte c) as [_ _ F1 F2 _].
  rewrite F1 in Hr'. rewrite F2 in Hk'.
  rewrite write_cell_read by (unfold VGA_WIDTH, TEXT_COLS_MAX in *; lia).
  pose proof (write_cell_vga_at r k byte c r' k' ltac:(lia) ltac:(lia) ltac:(lia)) as Hv.
  unfold vga_cell in Hv. rewrite Hv. case_goal; [done|]. by apply Hm.
Qed.

(** ** Scrolling *)

(** The cells of a screen mid-scroll: rows below [r] have moved up, and so have
    the first [k] cells of row [r]. *)
Definition shifted (c0 : Console) (r k : Z) (c : Console) : Prop :=
  same_frame c0 c /\ (vga_mirror c0 -> vga_mirror c) /\
  forall r' k', 0 <= r' < rows c0 -> 0 <= k' < cols c0 ->
    read_cell c r' k' =
    if (r' <? r) || ((r' =? r) && (k' <? k)) then read_cell c0 (r' + 1) k'
    else read_cell c0 r' k'.

Lemma shifted_step c0 c r k :
  console_wf c0 -> 0 <= r -> r + 1 < rows c0 -> 0 <= k < cols c0 -> shifted c0 r k c ->
  shifted c0 r (k + 1) (write_cell r k (read_cell c (r + 1) k) c).
Proof.
  intros [W1 W2 W3 W4] Hr Hr1 Hk (S1 & S2 & S3). unfold TEXT_ROWS_MAX, TEXT_COLS_MAX in *.
  split_and!.
  - etransitivity; [exact S1|]. apply write_cell_frame.
  - intros Hm. apply write_cell_vga; unfold TEXT_ROWS_MAX, TEXT_COLS_MAX; [lia|lia| |auto].
    rewrite (sf_cols _ _ S1). lia.
  - intros r' k' Hr' Hk'. rewrite write_cell_read by (unfold TEXT_COLS_MAX; lia).
    rewrite !S3 by lia. destruct (Z.eqb_spec r' r) as [->|].
    + destruct (Z.eqb_spec k' k) as [->|]; cbn [andb].
      * rewrite (proj2 (Z.ltb_ge (r + 1) r)), (proj2 (Z.eqb_neq (r + 1) r)) by lia. cbn [orb andb].
        rewrite (proj2 (Z.ltb_ge r r)), (proj2 (Z.ltb_lt k (k + 1))) by lia. done.
      * rewrite Z.ltb_irrefl. cbn [orb].
        destruct (Z.ltb_spec k' k), (Z.ltb_spec k' (k + 1)); done || lia.
    + cbn [andb]. done.
Qed.

Lemma shifted_row c0 c r :
  shifted c0 r (cols c0) c -> shifted c0 (r + 1) 0 c.
Proof.
  intros (S1 & S2 & S3). split_and!; [done|done|]. intros r' k' Hr Hk. rewrite S3 by done.
  destruct (Z.ltb_spec r' r), (Z.ltb_spec r' (r + 1)), (Z.eqb_spec r' r), (Z.eqb_spec r' (r + 1)),
    (Z.ltb_spec k' (cols c0)), (Z.ltb_spec k' 0); cbn [orb andb]; done || lia.
Qed.

Definition blanked (c0 : Console) (k : Z) (c : Console) : Prop :=
  same_frame c0 c /\ (vga_mirror c0 -> vga_mirror c) /\
  forall r' k', 0 <= r' < rows c0 -> 0 <= k' < cols c0 ->
    read_cell c r' k' =
    if r' <? rows c0 - 1 then read_cell c0 (r' + 1) k'
    else if k' <? k then ch " " else read_cell c0 r' k'.

(** The first loop of [scroll]: every row moves up. *)
Lemma scroll_rows c :
  console_wf c ->
  shifted c (rows c - 1) 0 (for_range 1 (rows c) (fun row_ c =>
    for_range 0 (cols c) (fun col_ c =>
      write_cell (row_ - 1) col_ (read_cell c row_ col_) c) c) c).
Proof.
  intros Hwf. pose proof Hwf as [W1 W2 W3 W4].
  pose proof (for_range_ind (fun i => shifted c (i - 1) 0) 1 (rows c)
    (fun row_ c => for_range 0 (cols c) (fun col_ c =>
       write_cell (row_ - 1) col_ (read_cell c row_ col_) c) c) c) as H.
  rewrite Z.max_r in H by lia. apply H; clear H.
  - split_and!; [done|done|]. intros r' k' Hr Hk.
    destruct (Z.ltb_spec r' (1 - 1)), (Z.ltb_spec k' 0); cbn [orb andb]; try lia.
    by rewrite andb_false_r.
  - intros i d Hi Hd. replace (i + 1 - 1) with (i - 1 + 1) by lia. apply shifted_row.
    assert (Hc : cols d = cols c) by (destruct Hd as [[] _]; done).
    rewrite Hc. pose proof (for_range_ind (fun j => shifted c (i - 1) j) 0 (cols c)
      (fun col_ c => write_cell (i - 1) col_ (read_cell c i col_) c) d) as H.
    rewrite Z.max_r in H by lia. apply H; [done|]. intros j e Hj He.
    replace (read_cell e i j) with (read_cell e (i - 1 + 1) j) by (f_equal; lia).
    apply shifted_step; [done|lia|lia|lia|done].
Qed.

Lemma blanked_step c j d :
  console_wf c -> 0 <= j < cols c -> blanked c j d ->
  blanked c (j + 1) (write_cell (rows d - 1) j (ch " ") d).
Proof.
  intros [W1 W2 W3 W4] Hj (B1 & B2 & B3). rewrite (sf_rows _ _ B1).
  unfold TEXT_ROWS_MAX, TEXT_COLS_MAX in *. split_and!.
  - etransitivity; [exact B1|]. apply write_cell_frame.
  - intros Hm. apply write_cell_vga; unfold TEXT_ROWS_MAX, TEXT_COLS_MAX; [lia|lia| |auto].
    rewrite (sf_cols _ _ B1). lia.
  - intros r' k' Hr' Hk'. rewrite write_cell_read by (unfold TEXT_COLS_MAX; lia).
    rewrite B3 by done.
    destruct (Z.eqb_spec r' (rows c - 1)), (Z.eqb_spec k' j), (Z.ltb_spec r' (rows c - 1)),
      (Z.ltb_spec k' j), (Z.ltb_spec k' (j + 1)); cbn [andb]; done || lia.
Qed.

Lemma scroll_blanked c : console_wf c -> blanked c (cols c) (scroll c).
Proof.
  intros Hwf. unfold scroll. cbv zeta. pose proof (scroll_rows c Hwf) as H1.
  set (c1 := for_range 1 (rows c) _ c) in *. destruct H1 as (S1 & S2 & S3).
  rewrite (sf_cols _ _ S1). pose proof (cw_cols _ Hwf).
  pose proof (for_range_ind (fun j => blanked c j) 0 (cols c)
    (fun col_ c0 => write_cell (rows c0 - 1) col_ (ch " ") c0) c1) as H2.
  rewrite Z.max_r in H2 by lia. apply H2; [|intros; by apply blanked_step].
  split_and!; [done|done|]. intros r' k' Hr' Hk'.
  rewrite S3 by done. destruct (Z.ltb_spec r' (rows c - 1)), (Z.ltb_spec k' 0); try lia; [done|].
  cbn [orb]. by rewrite andb_false_r.
Qed.

(** ** The paper roll

    The abstract console: every line ever started, the last one being written. *)

Definition Roll : Type := list bytes.

Definition roll_last (t : Roll) : bytes := List.last t [].

Definition roll_new_line (t : Roll) : Roll := t ++ [[]].

Definition roll_set_last (t : Roll) (l : bytes) : Roll := take (length t - 1) t ++ [l].

Definition roll_byte (width byte : Z) (t : Roll) : Roll :=
  if byte =? 10 then roll_new_line t
  else if byte =? 13 then t
  else
    let t := if width <=? blen (roll_last t) then roll_new_line t else t in
    roll_set_last t (roll_last t ++ [byte]).

Definition roll_bytes (width : Z) (l : bytes) (t : Roll) : Roll :=
  fold_left (fun t byte => roll_byte width byte t) l t.

Definition roll_backspace (t : Roll) : Roll :=
  if blen (roll_last t) =? 0 then t
  else roll_set_last t (take (length (roll_last t) - 1) (roll_last t)).

(** The first line on the screen. *)
Definition roll_top (c : Console) (t : Roll) : Z := Z.max 0 (Z.of_nat (length t) - rows c).

(** The screen shows the last [rows] lines of the roll, blanks elsewhere, with
    the cursor after the last character; VGA memory mirrors it. *)
Record shows (c : Console) (t : Roll) : Prop := {
  sh_wf : console_wf c;
  sh_lines : t <> [];
  sh_row : row c = Z.of_nat (length t) - 1 - roll_top c t;
  sh_col : col c = blen (roll_last t);
  sh_cells : forall r k, 0 <= r < rows c -> 0 <= k < cols c ->
    read_cell c r k = nth (Z.to_nat k) (nth (Z.to_nat (roll_top c t + r)) t []) (ch " ");
  sh_vga : vga_mirror c
}.

Lemma nth_snoc_nil (t : Roll) i : nth i (t ++ [[]]) [] = nth i t [].
Proof.
  destruct (decide (i < length t)%nat); [by rewrite app_nth1|].
  rewrite app_nth2 by lia. rewrite (nth_overflow t) by lia.
  by destruct (i - length t)%nat as [|[|]].
Qed.

Lemma roll_set_last_nth (t : Roll) l i :
  t <> [] -> nth i (roll_set_last t l) [] =
  if (i =? length t - 1)%nat then l else nth i t [].
Proof.
  intros Ht. destruct t as [|x t _] using rev_ind; [done|]. unfold roll_set_last.
  rewrite length_app. simpl. rewrite Nat.add_sub, take_app_length.
  destruct (Nat.eqb_spec i (length t)) as [->|Hne].
  - rewrite app_nth2 by lia. by rewrite Nat.sub_diag.
  - destruct (decide (i < length t)%nat); [by rewrite !app_nth1 by done|].
    rewrite !nth_overflow; [done|rewrite length_app; simpl; lia..].
Qed.

Lemma roll_set_last_length (t : Roll) l : t <> [] -> length (roll_set_last t l) = length t.
Proof.
  intros Ht. destruct t; [done|]. unfold roll_set_last. rewrite length_app, length_take. simpl. lia.
Qed.

Lemma roll_last_nth (t : Roll) : t <> [] -> roll_last t = nth (length t - 1) t [].
Proof.
  intros Ht. destruct t as [|x t _] using rev_ind; [done|]. unfold roll_last.
  rewrite List.last_last, length_app. simpl. rewrite Nat.add_sub, app_nth2 by lia.
  by rewrite Nat.sub_diag.
Qed.

Lemma roll_last_set (t : Roll) l : roll_last (roll_set_last t l) = l.
Proof. unfold roll_last, roll_set_last. by rewrite List.last_last. Qed.

Lemma serial_shows byte c t : shows c t -> shows (serial_write_byte byte c) t.
Proof. intros [[] ? ? ? ? ?]. by split; [split|..]. Qed.

Lemma new_line_shows c t : shows c t -> shows (new_line c) (roll_new_line t).
Proof.
  intros [Hwf Hl Hr Hc Hcell Hvga]. pose proof Hwf as [W1 W2 W3 W4].
  unfold new_line. cbv zeta. do 2 apply serial_shows.
  assert (Hlen : Z.of_nat (length (roll_new_line t)) = Z.of_nat (length t) + 1)
    by (unfold roll_new_line; rewrite length_app; simpl; lia).
  assert (Hlast : roll_last (roll_new_line t) = []) by apply List.last_last.
  unfold roll_top in *.
  destruct (Z.leb_spec (rows {| c with col := 0 |}) (row {| c with col := 0 |} + 1)) as [Hge|Hlt];
    simpl in *.
  - assert (Hwf0 : console_wf {| c with col := 0 |}) by (split; simpl; lia).
    destruct (scroll_blanked _ Hwf0) as ([F1 F2 F3 F4 _] & B2 & B3). simpl in *.
    split; unfold roll_top; rewrite ?Hlen, ?Hlast, ?F1, ?F2, ?F3, ?F4.
    + split; rewrite ?F1, ?F2, ?F3, ?F4; lia.
    + by destruct t.
    + lia.
    + done.
    + intros r k Hr' Hk'. rewrite B3 by done. unfold roll_new_line. rewrite nth_snoc_nil.
      destruct (Z.ltb_spec r (rows c - 1)).
      * transitivity (read_cell c (r + 1) k); [done|]. rewrite Hcell by lia. do 2 f_equal. lia.
      * rewrite (proj2 (Z.ltb_lt k (cols c))) by lia. rewrite (nth_overflow t) by lia.
        by destruct (Z.to_nat k).
    + by apply B2.
  - split; unfold roll_top; simpl; rewrite ?Hlen, ?Hlast.
    + split; simpl; lia.
    + by destruct t.
    + lia.
    + done.
    + intros r k Hr' Hk'. unfold roll_new_line. rewrite nth_snoc_nil.
      transitivity (read_cell c r k); [done|]. rewrite Hcell by lia. do 2 f_equal. lia.
    + done.
Qed.

(** Storing a character [x] at column [k0] of the current line turns the line
    into [l] and moves the cursor after it, wherever it was. *)
Lemma store_shows c t l k0 x cc :
  shows c t -> 0 <= k0 < cols c -> blen l <= cols c ->
  (forall k, 0 <= k < cols c ->
     nth (Z.to_nat k) l (ch " ") = if k =? k0 then x else nth (Z.to_nat k) (roll_last t) (ch " ")) ->
  shows (let c' := write_cell (row c) k0 x {| c with col := cc |} in {| c' with col := blen l |})
    (roll_set_last t l).
Proof.
  intros [Hwf Hl Hr Hc Hcell Hvga] Hk0 Hll Hnth. pose proof Hwf as [W1 W2 W3 W4]. cbv zeta.
  assert (Hm : vga_mirror {| c with col := cc |}) by exact Hvga.
  assert (Hcell1 : forall r k, read_cell {| c with col := cc |} r k = read_cell c r k) by done.
  pose proof (write_cell_frame (row c) k0 x {| c with col := cc |}) as [F1 F2 F3 F4 _].
  change (row {| c with col := cc |}) with (row c) in F1.
  change (rows {| c with col := cc |}) with (rows c) in F3.
  change (cols {| c with col := cc |}) with (cols c) in F4.
  set (c1 := {| c with col := cc |}) in *. set (w := write_cell (row c) k0 x c1) in *.
  assert (Hw : forall r k, 0 <= k < Z.of_nat TEXT_COLS_MAX ->
    read_cell w r k = if (r =? row c) && (k =? k0) then x else read_cell c1 r k).
  { intros r k Hk. apply write_cell_read; unfold TEXT_COLS_MAX in *; lia. }
  assert (Hv : vga_mirror w).
  { apply write_cell_vga; try done; unfold TEXT_ROWS_MAX, TEXT_COLS_MAX in *; [lia|lia|].
    subst c1. simpl. lia. }
  clearbody w c1. pose proof (blen_nonneg l).
  unfold roll_top, TEXT_ROWS_MAX, TEXT_COLS_MAX in *.
  split; unfold roll_top; simpl; rewrite ?F1, ?F3, ?F4, ?roll_set_last_length by done.
  - split; simpl; rewrite ?F1, ?F3, ?F4; unfold TEXT_ROWS_MAX, TEXT_COLS_MAX; lia.
  - intros E. apply (f_equal length) in E. rewrite roll_set_last_length in E by done.
    by destruct t.
  - done.
  - by rewrite roll_last_set.
  - intros r k Hr' Hk'. transitivity (read_cell w r k); [done|].
    rewrite Hw, Hcell1, roll_set_last_nth, Hcell by (done || lia).
    destruct (Z.eqb_spec r (row c)) as [->|Hne]; cbn [andb].
    + rewrite (proj2 (Nat.eqb_eq _ _)) by lia. rewrite Hnth by lia.
      rewrite roll_last_nth by done. destruct (k =? k0); [done|]. do 2 f_equal. lia.
    + rewrite (proj2 (Nat.eqb_neq _ _)); [done|]. destruct t; [done|]. simpl in *. lia.
  - intros r k Hr' Hk'. simpl in Hr', Hk'. rewrite <- F3 in Hr'. rewrite <- F4 in Hk'.
    exact (Hv r k Hr' Hk').
Qed.

Lemma with_col_id (c : Console) : {| c with col := col c |} = c.
Proof. by destruct c. Qed.

Lemma with_col_eq (c : Console) k : col c = k -> {| c with col := k |} = c.
Proof. intros <-. apply with_col_id. Qed.

Lemma write_byte_shows c t byte : shows c t -> shows (write_byte byte c) (roll_byte (cols c) byte t).
Proof.
  intros Hs. unfold write_byte, roll_byte.
  destruct (byte =? 10); [by apply new_line_shows|]. destruct (byte =? 13); [done|].
  rewrite <- (sh_col _ _ Hs). cbv zeta.
  set (c1 := if cols c <=? col c then new_line c else c).
  set (t1 := if cols c <=? col c then roll_new_line t else t).
  assert (Hs1 : shows c1 t1 /\ col c1 < cols c1).
  { subst c1 t1. destruct (Z.leb_spec (cols c) (col c)); [|done].
    pose proof (new_line_shows _ _ Hs) as Hn. split; [done|].
    rewrite (sh_col _ _ Hn). unfold roll_last, roll_new_line. rewrite List.last_last.
    apply (cw_cols _ (sh_wf _ _ Hn)). }
  destruct Hs1 as [Hs1 Hlt]. clearbody c1 t1. apply serial_shows.
  pose proof (sh_col _ _ Hs1) as Hc. pose proof (blen_nonneg (roll_last t1)).
  pose proof (write_cell_frame (row c1) (col c1) byte c1) as [_ F2 _ _ _]. rewrite F2.
  replace (col c1 + 1) with (blen (roll_last t1 ++ [byte])).
  2: { rewrite blen_app, Hc. done. }
  rewrite <- (with_col_id c1) at 4.
  apply store_shows; [done|lia|rewrite blen_app; unfold blen at 2; simpl; lia|].
  intros k Hk. unfold blen in Hc. destruct (Z.eqb_spec k (col c1)) as [->|Hne].
  - rewrite app_nth2 by lia. by replace (_ - _)%nat with 0%nat by lia.
  - destruct (decide (k < col c1)); [by rewrite app_nth1 by lia|].
    rewrite !nth_overflow; [done|lia|rewrite length_app; simpl; lia].
Qed.

(** The geometry never changes. *)
Lemma new_line_geometry c : console_wf c -> rows (new_line c) = rows c /\ cols (new_line c) = cols c.
Proof.
  intros [W1 W2 W3 W4]. unfold new_line. cbv zeta. simpl.
  destruct (_ <=? _); [|done].
  destruct (scroll_blanked {| c with col := 0 |}) as ([_ _ -> -> _] & _); [split; simpl; lia|done].
Qed.

Lemma write_byte_geometry c byte :
  console_wf c -> rows (write_byte byte c) = rows c /\ cols (write_byte byte c) = cols c.
Proof.
  intros Hwf. unfold write_byte. destruct (byte =? 10); [by apply new_line_geometry|].
  destruct (byte =? 13); [done|]. cbv zeta. simpl.
  destruct (cols c <=? col c).
  - destruct (new_line_geometry c Hwf) as [<- <-].
    by destruct (write_cell_frame (row (new_line c)) (col (new_line c)) byte (new_line c)).
  - by destruct (write_cell_frame (row c) (col c) byte c).
Qed.

Lemma write_bytes_shows l c t :
  shows c t -> shows (write_bytes l c) (roll_bytes (cols c) l t).
Proof.
  revert c t. induction l as [|b l IH]; intros c t Hs; [done|]. simpl.
  destruct (write_byte_geometry c b (sh_wf _ _ Hs)) as [_ Hg].
  specialize (IH (write_byte b c) (roll_byte (cols c) b t)). rewrite Hg in IH.
  apply IH. by apply write_byte_shows.
Qed.

Lemma backspace_shows c t : shows c t -> shows (backspace c) (roll_backspace t).
Proof.
  intros Hs. unfold backspace, roll_backspace. rewrite <- (sh_col _ _ Hs).
  destruct (Z.eqb_spec (col c) 0) as [|Hne]; [done|]. cbv zeta. do 3 apply serial_shows.
  pose proof (sh_col _ _ Hs) as Hc. pose proof (cw_col _ (sh_wf _ _ Hs)) as Hcol.
  set (l := take (length (roll_last t) - 1) (roll_last t)). unfold blen in Hc.
  assert (Hl : blen l = col c - 1) by (unfold blen, l; rewrite length_take; lia).
  assert (H : shows (let c' := write_cell (row c) (col c - 1) (ch " ") {| c with col := col c - 1 |}
                     in {| c' with col := blen l |}) (roll_set_last t l)).
  { apply store_shows; [done|lia|lia|]. intros k Hk. subst l.
    destruct (Z.eqb_spec k (col c - 1)) as [->|Hk'].
    - apply nth_overflow. rewrite length_take. lia.
    - destruct (decide (k < col c - 1)); [apply nth_take_lt_gen; lia|].
      rewrite !nth_overflow; [done|lia|rewrite length_take; lia]. }
  pose proof (write_cell_frame (row c) (col c - 1) (ch " ") {| c with col := col c - 1 |})
    as [_ F _ _ _]. cbv zeta in H. rewrite Hl, (with_col_eq _ (col c - 1) F) in H. exact H.
Qed.

Lemma write_bytes_cols l c t : shows c t -> cols (write_bytes l c) = cols c.
Proof.
  revert c t. induction l as [|b l IH]; intros c t Hs; [done|]. simpl.
  destruct (write_byte_geometry c b (sh_wf _ _ Hs)) as [_ Hg].
  rewrite <- Hg. apply (IH _ (roll_byte (cols c) b t)). by apply write_byte_shows.
Qed.

Lemma backspace_cols c : cols (backspace c) = cols c.
Proof.
  unfold backspace. case_goal; [done|]. cbv zeta. simpl.
  match goal with |- cols (write_cell ?r ?k ?b ?d) = _ =>
    by destruct (write_cell_frame r k b d) end.
Qed.

(** ** Start-up *)

(** Cell [(r, k)] is blank, in the grid and in VGA memory. *)
Definition blank_at (c : Console) (r k : Z) : Prop :=
  read_cell c r k = ch " " /\
  (r < Z.of_nat VGA_HEIGHT -> k < Z.of_nat VGA_WIDTH -> vga_cell c r k = ch " ").

Definition cleared (c0 : Console) (r k : Z) (c : Console) : Prop :=
  same_frame c0 c /\ forall r' k', 0 <= r' -> 0 <= k' < cols c0 ->
    r' < r \/ (r' = r /\ k' < k) -> blank_at c r' k'.

Lemma cleared_step c0 r k c :
  cols c0 <= Z.of_nat TEXT_COLS_MAX -> 0 <= r -> 0 <= k < cols c0 -> cleared c0 r k c ->
  cleared c0 r (k + 1) (write_cell r k (ch " ") c).
Proof.
  intros Hc Hr Hk [C1 C2]. split; [etransitivity; [exact C1|apply write_cell_frame]|].
  intros r' k' Hr' Hk' Hlt. unfold TEXT_COLS_MAX in *. split.
  - rewrite write_cell_read by (unfold TEXT_COLS_MAX; lia).
    destruct (Z.eqb_spec r' r), (Z.eqb_spec k' k); cbn [andb]; try done; apply C2; lia.
  - intros H1 H2. rewrite write_cell_vga_at by lia.
    destruct (Z.eqb_spec r' r), (Z.eqb_spec k' k); cbn [andb]; try done; apply C2; lia.
Qed.

Lemma clear_pixels c : same_text c (clear_framebuffer c).
Proof.
  unfold clear_framebuffer. case_goal; [done|]. apply for_range_inv; [done|].
  intros i d _ Hd. etransitivity; [exact Hd|done].
Qed.

Lemma clear_shows c :
  0 < rows c <= Z.of_nat TEXT_ROWS_MAX -> 0 < cols c <= Z.of_nat TEXT_COLS_MAX ->
  shows (clear c) [[]].
Proof.
  intros Hr Hc. unfold clear. cbv zeta. destruct (clear_pixels c) as ([P1 P2 P3 P4 P5] & _).
  set (c1 := clear_framebuffer c) in *.
  assert (H : cleared c1 (rows c1) 0 (for_range 0 (rows c1) (fun row_ c =>
    for_range 0 (cols c) (fun col_ => write_cell row_ col_ (ch " ")) c) c1)).
  { pose proof (for_range_ind (fun i => cleared c1 i 0) 0 (rows c1) (fun row_ c =>
      for_range 0 (cols c) (fun col_ => write_cell row_ col_ (ch " ")) c) c1) as H.
    rewrite Z.max_r in H by lia. apply H; clear H; [split; [done|]; lia|].
    intros i d Hi [D1 D2]. rewrite (sf_cols _ _ D1).
    pose proof (for_range_ind (fun j => cleared c1 i j) 0 (cols c1)
      (fun col_ => write_cell i col_ (ch " ")) d) as H.
    rewrite Z.max_r in H by lia. destruct H as [E1 E2]; [by split| |].
    - intros j e Hj He. apply cleared_step; [lia|lia|lia|done].
    - split; [done|]. intros r' k' Hr' Hk' Hlt. apply E2; [lia|lia|]. lia. }
  destruct H as [[F1 F2 F3 F4 F5] H]. revert F1 F2 F3 F4 F5 H.
  generalize (for_range 0 (rows c1) (fun row_ c =>
    for_range 0 (cols c) (fun col_ => write_cell row_ col_ (ch " ")) c) c1) as c2.
  intros c2 F1 F2 F3 F4 F5 H.
  split; unfold roll_top; simpl; rewrite ?F3, ?F4, ?P3, ?P4.
  - split; simpl; rewrite ?F3, ?F4, ?P3, ?P4; lia.
  - done.
  - lia.
  - done.
  - intros r k Hr' Hk'. transitivity (ch " "); [|].
    + apply (H r k); lia.
    + destruct (Z.to_nat (_ + r)) as [|[|]], (Z.to_nat k); done.
  - intros r k Hr' Hk'. simpl in Hr', Hk'.
    destruct (H r k) as [B1 B2]; [lia|lia|lia|]. unfold vga_cell in B2. simpl.
    transitivity (ch " "); [apply B2; lia|]. symmetry. exact B1.
Qed.

Lemma console_new_geometry info :
  (forall i, info = Some i -> 0 <= fb_hres i /\ 0 <= fb_vres i) ->
  0 < rows (Console_new info) <= Z.of_nat TEXT_ROWS_MAX /\
  0 < cols (Console_new info) <= Z.of_nat TEXT_COLS_MAX.
Proof.
  unfold TEXT_ROWS_MAX, TEXT_COLS_MAX. intros Hi.
  destruct info as [i|]; simpl; [|unfold VGA_WIDTH, VGA_HEIGHT; lia].
  destruct (Hi i eq_refl) as [H1 H2].
  case_goal; simpl; [unfold VGA_WIDTH, VGA_HEIGHT; lia|].
  assert (0 <= fb_vres i / FONT_HEIGHT) by (apply Z.div_pos; unfold FONT_HEIGHT; lia).
  assert (0 <= fb_hres i / FONT_WIDTH) by (apply Z.div_pos; unfold FONT_WIDTH; lia).
  unfold clamp_text_rows, clamp_text_cols, VGA_HEIGHT, VGA_WIDTH, TEXT_ROWS_MAX, TEXT_COLS_MAX.
  clear Heqb. revert H H0. generalize (fb_vres i / FONT_HEIGHT) (fb_hres i / FONT_WIDTH).
  intros a b Ha Hb. destruct (Z.eqb_spec a 0), (Z.ltb_spec (Z.of_nat 48) a), (Z.eqb_spec b 0),
    (Z.ltb_spec (Z.of_nat 128) b); lia.
Qed.

(** ** Properties *)

(** Console operations in the order the kernel performs them. *)
Inductive ConsoleOp : Type :=
  | OpWrite (l : bytes)
  | OpNewLine
  | OpBackspace.

Definition console_op (op : ConsoleOp) (c : Console) : Console :=
  match op with
  | OpWrite l => write_bytes l c
  | OpNewLine => new_line c
  | OpBackspace => backspace c
  end.

Definition roll_op (width : Z) (op : ConsoleOp) (t : Roll) : Roll :=
  match op with
  | OpWrite l => roll_bytes width l t
  | OpNewLine => roll_new_line t
  | OpBackspace => roll_backspace t
  end.

(** C38: From the cleared screen of a freshly made console, any sequence of
    writes, new lines and backspaces leaves the grid, the cursor and the VGA
    text memory showing exactly the last [rows] lines of the paper roll the same
    operations write (wrapped at [cols] columns): scrolling loses only the top
    line, no cell outside the grid is used, and the geometry never changes. *)
Theorem console_shows_roll info ops :
  (forall i, info = Some i -> 0 <= fb_hres i /\ 0 <= fb_vres i) ->
  let c0 := clear (Console_new info) in
  shows (fold_left (fun c op => console_op op c) ops c0)
        (fold_left (fun t op => roll_op (cols c0) op t) ops [[]]).
Proof.
  intros Hi c0. destruct (console_new_geometry info Hi) as [Hr Hc].
  pose proof (clear_shows _ Hr Hc) as Hs. fold c0 in Hs. clearbody c0. clear Hr Hc Hi.
  remember (cols c0) as w eqn:Hw. revert c0 Hs Hw. generalize (@nil Z :: []) as t.
  induction ops as [|op ops IH]; intros t c Hs Hw; [done|]. simpl.
  assert (Hop : shows (console_op op c) (roll_op w op t) /\ cols (console_op op c) = w).
  { subst w. destruct op; simpl.
    - split; [by apply write_bytes_shows|]. by apply write_bytes_cols with (t := t).
    - split; [by apply new_line_shows|]. apply new_line_geometry, Hs.
    - split; [by apply backspace_shows|]. apply backspace_cols. }
  destruct Hop as [H1 H2]. by apply IH.
Qed.

Lemma console_shows_roll_witness :
  let ops := [OpWrite (bs "rymos"); OpBackspace; OpNewLine] in
  let c0 := clear (Console_new None) in
  shows (fold_left (fun c op => console_op op c) ops c0)
        (fold_left (fun t op => roll_op (cols c0) op t) ops [[]]).
Proof. apply (console_shows_roll None). discriminate. Defined.
