(* ===== verification/PfsCmd.v ===== *)
(** * The console commands on the persistent file system

    The methods of [PersistentFs] in [src/kernel/src/main.rs] behind the shell's
    [fsformat], [pls], [pread], [pwrite], [pmkdir], [pdelete] and [df]. Each takes
    the console and returns it with what it printed. *)

From S2P Require Import Prelude Constants Text PfsPath PfsLayout PfsDir PfsAlloc Device Pfs Console.
From S2P Require Import PfsIO PfsData PfsFile PfsProps Hw AtaDisk.

Section PfsCmd.

Context {D : Type} `{SectorDev D} (clk : Clock).

Definition say (text : string) (c : Console) : Console := write_bytes (bs text) c.
Definition say_line (text : string) (c : Console) : Console := write_line (bs text) c.

(** [PersistentFs::read_header] *)
Definition read_header (c : Console) : ST D (Console * option arr) :=
  let* present := sd_present in
  if negb present then st_ret (say_line "pfs: ATA data disk not found" c, None)
  else
    let* r := read_header_silent in
    st_ret (match r with
            | None => (say_line "pfs: unformatted; run fsformat" c, None)
            | Some header => (c, Some header)
            end).

(** The prologue [let Some(header) = Self::read_header(console) else { return; }]. *)
Definition with_read_header (c : Console) (k : arr -> Console -> ST D Console) : ST D Console :=
  let* r := read_header c in
  match snd r with
  | None => st_ret (fst r)
  | Some header => k header (fst r)
  end.

Definition pfs_format (c : Console) : ST D Console :=
  let* present := sd_present in
  if negb present then st_ret (say_line "pfs: ATA data disk not found" c)
  else
    let* ok := write_header pfs_format_header in
    st_ret (if ok : bool then say_line "pfs: formatted" c else say_line "pfs: format failed" c).

Fixpoint pfs_ls_from (n index : nat) (header : arr) (found : bool) (c : Console) : Console * bool :=
  match n with
  | O => (c, found)
  | S n =>
      if pfs_entry_used header index then
        let c := if pfs_entry_is_dir header index then say "[pdir]  " c else say "[pfile] " c in
        let c := say "  " (write_bytes (pfs_entry_name header index) c) in
        let c := say_line " B" (write_bytes (write_usize (pfs_entry_size header index)) c) in
        pfs_ls_from n (S index) header true c
      else pfs_ls_from n (S index) header found c
  end.

Definition pfs_ls (c : Console) : ST D Console :=
  with_read_header c (fun header c =>
    let '(c, found) := pfs_ls_from PFS_ENTRY_COUNT 0 header false c in
    st_ret (if negb found then say_line "pfs: empty" c else c)).

(** The sector loop of [pread]; an early return leaves the console as it is then. *)
Fixpoint pread_from (n : nat) (logical_sector remaining : Z) (header : arr) (index : nat) (c : Console)
  : ST D Console :=
  match n with
  | O => st_ret (new_line c)
  | S n =>
      if remaining =? 0 then st_ret (new_line c)
      else
        match pfs_entry_lba_for_sector header index logical_sector with
        | None => st_ret (say_line "pread: corrupt extents" c)
        | Some lba =>
            let* r := sd_read lba in
            match r with
            | None => st_ret (say_line "pread: disk read failed" c)
            | Some sector =>
                let count := Z.min remaining 512 in
                pread_from n (logical_sector + 1) (remaining - count) header index
                  (write_bytes (slice sector 0 count) c)
            end
        end
  end.

Definition pfs_read (name : bytes) (c : Console) : ST D Console :=
  with_read_header c (fun header c =>
    match pfs_find_entry header name with
    | None => st_ret (say_line "pread: not found" c)
    | Some index =>
        if pfs_entry_is_dir header index then st_ret (say_line "pread: is a directory" c)
        else
          let size := pfs_entry_size header index in
          pread_from (Z.to_nat (sectors_for_len size)) 0 size header index c
    end).

(** The last part of [pwrite], once the entry exists. *)
Definition pwrite_data (index : nat) (data : bytes) (c : Console) : ST D Console :=
  let* ok := pfs_write_at clk index 0 data in
  if negb ok then st_ret (say_line "pwrite: disk full" c)
  else
    let* ok := pfs_update_size clk index (blen data) in
    st_ret (if ok : bool then say_line "ok" c else say_line "pwrite: header write failed" c).

Definition pfs_write (name data : bytes) (c : Console) : ST D Console :=
  if negb (valid_pfs_path name) then st_ret (say_line "pwrite: invalid name" c)
  else if PFS_FILE_MAX <? blen data then st_ret (say_line "pwrite: file too large" c)
  else
    with_read_header c (fun header c =>
      if negb (pfs_parent_exists header name) then
        st_ret (say_line "pwrite: parent directory missing" c)
      else
        match pfs_find_entry header name with
        | Some index =>
            if pfs_entry_is_dir header index then st_ret (say_line "pwrite: is a directory" c)
            else pwrite_data index data c
        | None =>
            match pfs_free_entry header with
            | None => st_ret (say_line "pwrite: filesystem full" c)
            | Some index =>
                let* created := ns_since_boot clk in
                let* now := ns_since_boot clk in
                let header :=
                  pfs_set_entry header index name 0 PFS_KIND_FILE [] created PFS_MODE_DEFAULT_FILE now in
                let* ok := write_header header in
                if negb ok then st_ret (say_line "pwrite: header write failed" c)
                else pwrite_data index data c
            end
        end).

Definition pfs_mkdir (name : bytes) (c : Console) : ST D Console :=
  with_read_header c (fun header c =>
    if negb (valid_pfs_path name) then st_ret (say_line "pmkdir: invalid directory" c)
    else if negb (pfs_parent_exists header name) then
      st_ret (say_line "pmkdir: parent directory missing" c)
    else
      match pfs_find_entry header name with
      | Some _ => st_ret (say_line "pmkdir: exists" c)
      | None =>
          match pfs_free_entry header with
          | None => st_ret (say_line "pmkdir: filesystem full" c)
          | Some index =>
              let* created := ns_since_boot clk in
              let* now := ns_since_boot clk in
              let* ok := write_header (pfs_set_entry header index name 0 PFS_KIND_DIR [] created
                                         PFS_MODE_DEFAULT_DIR now) in
              st_ret (if ok : bool then say_line "ok" c else say_line "pmkdir: header write failed" c)
          end
      end).

Definition pfs_delete (name : bytes) (c : Console) : ST D Console :=
  with_read_header c (fun header c =>
    match pfs_unlink_header header name with
    | inr header =>
        let* ok := write_header header in
        st_ret (if ok : bool then say_line "ok" c else say_line "pdelete: header write failed" c)
    | inl code =>
        st_ret (if code =? -2 then say_line "pdelete: directory not empty" c
                else say_line "pdelete: not found" c)
    end).

(** Files and bytes, as [df] counts them. *)
Fixpoint pfs_usage (n index : nat) (header : arr) (files bytes_ : Z) : Z * Z :=
  match n with
  | O => (files, bytes_)
  | S n =>
      if pfs_entry_used header index && negb (pfs_entry_is_dir header index)
      then pfs_usage n (S index) header (files + 1) (u64 (bytes_ + pfs_entry_size header index))
      else pfs_usage n (S index) header files bytes_
  end.

Definition pfs_df (c : Console) : ST D Console :=
  let* present := sd_present in
  if negb present then st_ret (say_line "pfs          no ATA data disk" c)
  else
    let* r := read_header_silent in
    match r with
    | None => st_ret (say_line "pfs          unformatted" c)
    | Some header =>
        let '(files, used) := pfs_usage PFS_ENTRY_COUNT 0 header 0 0 in
        let c := write_bytes (write_usize files) (say "pfs          " c) in
        let c := write_bytes (write_usize (Z.of_nat PFS_ENTRY_COUNT)) (say "/" c) in
        let c := write_bytes (write_usize used) (say "          " c) in
        let c := write_bytes (write_usize ((PFS_DISK_SECTORS - PFS_DATA_START) * 512)) (say "/" c) in
        st_ret (new_line c)
    end.

End PfsCmd.

(** ** What the console commands on the disk do

    [pwrite] followed by [pread] over the laws of a sector device: the text is
    written under its name, no other file changes, and reading shows it. *)

Section Commands.

Context {D : Type} `{SL : SectorLaws D} (clk : Clock).
Context (Hclk : 0 <= BOOT_TSC clk).

Abbreviation hdr := disk_header.

(** Every file under another name is as it was. *)
Definition others_hold (d d' : D) (name : bytes) : Prop :=
  forall n j content, n <> name -> file_holds d n j content -> file_holds d' n j content.

Lemma others_refl d name : others_hold d d name.
Proof using. by intros n j c _ H0. Qed.

Lemma others_trans d1 d2 d3 name :
  others_hold d1 d2 name -> others_hold d2 d3 name -> others_hold d1 d3 name.
Proof using. intros H1 H2 n j c Hn Hh. by apply H2, H1. Qed.

Lemma others_same d d' name : same_disk d d' -> sd_healthy d' -> others_hold d d' name.
Proof using SL. intros Hs Hh n j c _. by apply holds_same. Qed.

(** A file whose entry, extents and bytes are still there. *)
Lemma holds_kept d d' n j content :
  file_holds d n j content -> sd_healthy d' -> store_wf d' ->
  pfs_view (hdr d') j = pfs_view (hdr d) j ->
  pfs_find_entry (hdr d') n = Some j -> pfs_parent_exists (hdr d') n = true ->
  (forall k, 0 <= k -> file_byte d' (pfs_entry_extents (hdr d) j) k = file_byte d (pfs_entry_extents (hdr d) j) k) ->
  file_holds d' n j content.
Proof using SL.
  intros [[_ Hw Hval Hpar Hf (Hi & Hu & Hd) Hmax Hroom Hdata] Hsz] Hh' Hw' Hv Hf' Hp' Hb.
  pose proof (f_equal v_extents Hv) as He. cbn [v_extents pfs_view] in He.
  split; [|by rewrite <- Hsz; exact (f_equal v_size Hv)].
  split; rewrite ?He; try done.
  - split; [done|]. by rewrite view_used, view_is_dir, Hv, <- view_used, <- view_is_dir.
  - intros k Hk. rewrite Hb by lia. by apply Hdata.
Qed.

(** Two names are in two entries. *)
Lemma other_entry h n m i j :
  n <> m -> pfs_find_entry h n = Some j ->
  pfs_find_entry h m = Some i \/ pfs_entry_used h i = false -> j <> i.
Proof using.
  intros Hne Hj Hi ->. apply find_entry_spec in Hj as (_ & Hu & Hn). destruct Hi as [Hi|Hi]; [|congruence].
  apply find_entry_spec in Hi as (_ & _ & Hm). congruence.
Qed.

(** Rewriting one entry. *)
Lemma rewritten_others d d' h' i v :
  store_wf d -> sd_healthy d' -> store_wf d' -> header_eq (hdr d') h' ->
  (forall lba, PFS_DATA_START <= lba -> sector_eq (sd_contents d' lba) (sd_contents d lba)) ->
  rewritten (hdr d) h' i v ->
  pfs_find_entry (hdr d) (v_name v) = Some i \/
    (pfs_find_entry (hdr d) (v_name v) = None /\ pfs_entry_used (hdr d) i = false) ->
  (pfs_entry_used (hdr d) i = true -> pfs_entry_is_dir (hdr d) i = false) ->
  others_hold d d' (v_name v).
Proof using SL.
  intros Hw Hh' Hw' He Hs Hrw Hf Hd n j content Hne Hh.
  pose proof Hh as [[_ _ _ Hpar Hfj (Hj & _ & _) _ _ _] _]. pose proof (st_names _ Hw) as Hn.
  assert (Hji : j <> i) by (apply (other_entry _ _ _ _ _ Hne Hfj); destruct Hf as [?|[_ ?]]; auto).
  assert (Hf0 : pfs_find_entry (hdr d) (v_name v) = Some i \/ pfs_find_entry (hdr d) (v_name v) = None)
    by (destruct Hf as [?|[? _]]; auto).
  apply (holds_kept d); [done|done|done|..].
  - rewrite (header_eq_view _ _ _ He) by (done || apply Hw').
    apply (except_view _ _ i Hn (rw_agree _ _ _ _ Hrw)); done.
  - rewrite (header_eq_find _ _ _ He) by apply Hw'.
    apply (rewritten_find_other _ _ _ _ Hn Hrw _ _ Hfj Hji). congruence.
  - rewrite (header_eq_parent _ _ _ He) by apply Hw'. by apply (rewritten_parent _ _ _ _ Hn Hrw).
  - intros k Hk. apply file_byte_ext; [by apply Hw, Hh|done|]. intros lba Hl. apply Hs.
    by apply (chain_covered _ _ _ (aw_chain _ (st_alloc _ Hw) j (ss_file _ _ _ _ (proj1 Hh))) Hl).
Qed.

(** Creating or emptying a file. *)
Lemma emptied_others d d' h name i created mode now :
  store_wf d -> sd_healthy d -> header_eq h (hdr d) -> (i < PFS_ENTRY_COUNT)%nat ->
  pfs_find_entry (hdr d) name = Some i \/
    (pfs_find_entry (hdr d) name = None /\ pfs_entry_used (hdr d) i = false) ->
  (pfs_entry_used (hdr d) i = true -> pfs_entry_is_dir (hdr d) i = false) ->
  valid_pfs_path name = true -> is_u64 created -> is_u64 now -> is_u8 mode ->
  write_header (pfs_set_entry h i name 0 PFS_KIND_FILE [] created mode now) d = (d', true) ->
  sd_healthy d' -> store_wf d' -> others_hold d d' name.
Proof using SL.
  intros Hw Hh He Hi Hf Hd Hval Hc Hnow Hm E Hh' Hw'.
  pose proof (valid_bytes_no_leading_parent _ Hval) as Hl.
  assert (Hb : header_bytes h) by (intros k Hk; rewrite He by done; by apply disk_header_bytes).
  assert (Hn : names_fit h) by (rewrite He; apply Hw).
  assert (Hfits : entry_fits name 0 PFS_KIND_FILE [] created mode now) by (split; simpl; try done; lia).
  pose proof (set_rewritten h i name 0 PFS_KIND_FILE [] created mode now Hi Hb Hn
    (valid_path_u8 _ Hval) ltac:(done) Hm Hfits) as Hrw.
  apply write_header_spec in E as (E1 & E2 & _); [|apply Hrw].
  apply (rewritten_from _ _ _ _ _ He) in Hrw.
  by apply (rewritten_others d d' _ i _ Hw Hh' Hw' (E2 eq_refl) E1 Hrw).
Qed.

(** Recording a new size. *)
Lemma update_size_others d d' name i content n :
  stores d name i content -> is_u32 n -> pfs_update_size clk i n d = (d', true) ->
  store_wf d' -> sd_healthy d' -> others_hold d d' name.
Proof using SL Hclk.
  intros Hst Hn. pose proof Hst as [Hh Hw _ _ Hf (Hi & Hu & Hdir) _ _ _].
  destruct (read_header_done d Hw Hh) as (d1 & h & E1 & Hh1 & Hs1 & He1).
  destruct (clock_done clk Hclk d1 Hh1) as (d2 & now & E2 & Hh2 & Hs2 & Hnow).
  assert (Hs : same_disk d d2) by by transitivity d1. pose proof (store_wf_same _ _ Hs Hw) as Hw2.
  assert (He2 : header_eq h (hdr d2)).
  { intros k Hk. rewrite He1 by done. by apply same_disk_header. }
  pose proof (stores_same _ _ _ _ _ Hs Hh2 Hst) as [_ _ _ _ Hf2 (_ & Hu2 & Hdir2) _ _ _].
  unfold pfs_update_size, st_bind. rewrite E1, (used_agree _ _ _ (header_eq_agree _ _ i Hi He1)), Hu.
  cbn [negb]. rewrite E2. intros Hwr Hw' Hh'.
  assert (Hb : header_bytes h) by (intros k Hk; rewrite He2 by done; by apply disk_header_bytes).
  assert (Hnf : names_fit h) by (rewrite He2; apply Hw2).
  pose proof (sized_rewritten h i n now Hb Hnf Hi Hn Hnow) as Hrw.
  pose proof (f_equal v_name (header_eq_view _ _ _ He2 Hnf Hi)) as Hv. cbn [v_name pfs_view] in Hv.
  pose proof (find_entry_spec _ _ _ Hf2) as (_ & _ & Hname). rewrite Hv, Hname in Hrw.
  apply write_header_spec in Hwr as (W1 & W2 & _); [|apply Hrw].
  apply (rewritten_from _ _ _ _ _ He2) in Hrw.
  apply (others_trans d d2 d'); [by apply others_same|].
  apply (rewritten_others d2 d' _ i _ Hw2 Hh' Hw' (W2 eq_refl) W1 Hrw); [by left|done].
Qed.

(** Writing data. *)
Lemma write_at_others d d' name i content off data :
  file_holds d name i content -> 0 <= off <= blen content -> Forall is_u8 data ->
  off + blen data <= PFS_FILE_MAX ->
  pfs_write_at clk i off data d = (d', true) -> others_hold d d' name.
Proof using SL Hclk.
  intros [[Hh Hw _ _ Hfi Hfile _ _ _] _] Ho Hu Hl E n j c Hne Hn.
  apply (write_at_spec clk Hclk) in E; [|exact Hw|exact Hfile|exact Hu|lia|exact Hl].
  pose proof (write_post_names d d' i off data E) as Hsame. destruct E as [W1 W2 W3 _ _ W6].
  pose proof Hn as [[_ _ _ Hp Hf Hjf _ _ _] _].
  assert (Hji : j <> i) by (apply (other_entry _ _ _ _ _ Hne Hf); auto).
  apply (holds_kept d); [done|apply W6, Hh|auto|..].
  - by apply W3; [|apply Hjf|].
  - by rewrite (same_names_find _ _ _ Hsame).
  - by rewrite (same_names_parent _ _ _ Hsame).
  - intros k Hk. by apply W1.
Qed.

(** ** The commands *)

(** Fewer bytes of a file that is stored are stored too. *)
Lemma stores_prefix d name i content n : stores d name i content -> stores d name i (take n content).
Proof using.
  intros [Hh Hw Hval Hpar Hf Hfile Hmax Hroom Hdata].
  assert (Hl : blen (take n content) <= blen content) by (unfold blen; rewrite length_take; lia).
  split; try done; [lia|lia|]. intros k Hk. rewrite length_take in Hk.
  rewrite Hdata by lia. by rewrite nth_take_lt by lia.
Qed.

Lemma splice_front (content data : bytes) : take (length data) (splice content 0 data) = data.
Proof using. destruct data; [done|]. rewrite splice_some by done. simpl. by rewrite take_app_length. Qed.

Lemma pwrite_data_done d name i old data c :
  file_holds d name i old -> Forall is_u8 data -> blen data <= PFS_FILE_MAX ->
  exists d', sd_healthy d' /\ others_hold d d' name /\
    if can_grow (hdr d) i (blen data)
    then pwrite_data clk i data c d = (d', say_line "ok" c) /\ file_holds d' name i data
    else pwrite_data clk i data c d = (d', say_line "pwrite: disk full" c) /\ file_holds d' name i old /\
         same_disk d d'.
Proof using SL Hclk.
  intros Hh Hu Hl. pose proof (blen_nonneg old).
  destruct (write_at_done clk Hclk d name i old 0 data Hh ltac:(lia) Hu ltac:(lia))
    as (d1 & ok & E1 & (Hh1 & Hok & Hno) & Hst). rewrite Z.add_0_l in Hok. rewrite <- Hok.
  unfold pwrite_data, st_bind. rewrite E1. destruct ok.
  2: { specialize (Hno eq_refl). exists d1. split_and!; [done|by apply others_same|done|by apply (holds_same d)|done]. }
  destruct (Hst eq_refl) as [Hs1 _]. apply (stores_prefix _ _ _ _ (length data)) in Hs1.
  rewrite splice_front in Hs1. destruct (update_size_done clk Hclk d1 name i data Hs1) as (d2 & E2 & Hd2).
  cbn [negb]. rewrite E2. pose proof (proj1 Hd2) as [Hh2 Hw2 _ _ _ _ _ _ _].
  exists d2. split_and!; [done| |done|done].
  apply (others_trans d d1 d2).
  - by apply (write_at_others d d1 name i old 0 data); [..|lia| |lia|].
  - apply (update_size_others d1 d2 name i data (blen data) Hs1); [|done..].
    unfold is_u32. pose proof (blen_nonneg data). rewrite PFS_FILE_MAX_eq in *. lia.
Qed.

(** The header of a working disk is read without complaint. *)
Lemma with_read_header_done d c :
  sd_healthy d -> store_wf d ->
  exists d' h, same_disk d d' /\ sd_healthy d' /\ store_wf d' /\ header_eq h (hdr d') /\
    forall k, with_read_header c k d = k h c d'.
Proof using SL.
  intros Hh Hw. destruct (sd_present_ok d Hh) as (d1 & E1 & Hh1).
  pose proof (sd_present_same _ _ _ E1) as Hs1. pose proof (store_wf_same _ _ Hs1 Hw) as Hw1.
  destruct (read_header_done d1 Hw1 Hh1) as (d2 & h & E2 & Hh2 & Hs2 & He).
  exists d2, h. split_and!; [by transitivity d1|done|by eapply store_wf_same| |].
  - intros k' Hk. rewrite He by done. by apply same_disk_header.
  - intros k. unfold with_read_header, read_header, st_bind. rewrite E1. cbn [negb]. by rewrite E2.
Qed.

(** The bytes of one sector of the file. *)
Lemma sector_of_file h d i s lba (a : arr) content count :
  pfs_entry_extents h i = pfs_entry_extents (hdr d) i -> 0 <= s ->
  lba_walk (pfs_entry_extents h i) s = Some lba -> sector_eq a (sd_contents d lba) ->
  (forall k, (k < length content)%nat ->
    file_byte d (pfs_entry_extents (hdr d) i) (Z.of_nat k) = nth k content 0) ->
  0 < count <= 512 -> 512 * s + count <= blen content ->
  slice a 0 count = take (Z.to_nat count) (drop (Z.to_nat (512 * s)) content).
Proof using.
  intros Hext Hs El Ha Hdata Hc Hl. set (l := take _ _). assert (Hll : length l = Z.to_nat count).
  { unfold l, blen in *. rewrite length_take, length_drop. lia. }
  replace 0 with ((512 * s) mod 512) by zlia.
  rewrite (slice_file_bytes h i d a lba (512 * s) count);
    [|lia|zlia|by replace (512 * s / 512) with s by zlia|done].
  rewrite <- Hll. apply file_bytes_eq. intros k Hk.
  unfold l. rewrite nth_take_lt, nth_drop by lia.
  rewrite Hext, <- Hdata by (unfold blen in *; lia). f_equal. lia.
Qed.

(** The sectors from [s] on. *)
Lemma pread_from_done h name i content n : forall s rem c d,
  stores d name i content -> header_eq h (hdr d) -> 0 <= s ->
  rem = Z.max 0 (blen content - 512 * s) -> rem <= 512 * Z.of_nat n ->
  exists d', pread_from n s rem h i c d =
      (d', new_line (write_bytes (drop (Z.to_nat (512 * s)) content) c)) /\ same_disk d d'.
Proof using SL.
  induction n as [|n IH]; intros s rem c d Hst He Hs Hrem Hn; cbn [pread_from].
  { exists d. split; [|done]. rewrite drop_ge by (unfold blen in *; lia). done. }
  destruct (Z.eqb_spec rem 0) as [H0|H0].
  { exists d. split; [|done]. rewrite drop_ge by (unfold blen in *; lia). done. }
  pose proof Hst as [Hh Hw _ _ _ Hfile _ Hroom Hdata].
  assert (Hext : pfs_entry_extents h i = pfs_entry_extents (hdr d) i)
    by (apply header_eq_extents; [done|apply Hfile]).
  assert (Hc : chain PFS_DATA_START (pfs_entry_extents h i)) by (rewrite Hext; by apply Hw).
  unfold pfs_entry_lba_for_sector.
  destruct (lba_walk_some (pfs_entry_extents h i) s Hc) as [lba El]; [rewrite Hext; lia|]. rewrite El.
  destruct (chain_lba _ _ lba Hc Hs El) as (Hv & _ & _).
  destruct (sd_read_ok d lba Hh Hv) as (d1 & a & E1 & Hh1).
  pose proof (sd_read_same _ _ _ _ E1) as Hs1. unfold st_bind at 1. rewrite E1.
  set (count := Z.min rem 512) in *.
  rewrite (sector_of_file h d i s lba a content count Hext Hs El);
    [|by eapply sd_read_data|exact Hdata|lia|lia].
  set (c' := write_bytes _ c). destruct (IH (s + 1) (rem - count) c' d1) as (d2 & E2 & Hs2);
    [by apply (stores_same d)| |lia..|].
  { intros k Hk. rewrite He by done. by apply same_disk_header. }
  exists d2. split; [|by transitivity d1]. rewrite E2. do 2 f_equal. unfold c', write_bytes.
  rewrite <- fold_left_app. f_equal. destruct (decide (rem <= 512)).
  - rewrite (drop_ge _ (Z.to_nat (512 * (s + 1)))) by (unfold blen in *; lia).
    rewrite app_nil_r, take_ge; [done|]. rewrite length_drop. unfold blen in *. lia.
  - replace (Z.to_nat (512 * (s + 1))) with (Z.to_nat (512 * s) + Z.to_nat count)%nat by lia.
    by rewrite <- drop_drop, take_drop.
Qed.

(** [pread] shows the file and leaves the disk as it is. *)
Lemma pfs_read_done d name i content c :
  file_holds d name i content ->
  exists d', pfs_read name c d = (d', new_line (write_bytes content c)) /\ same_disk d d'.
Proof using SL.
  intros Hh. pose proof (proj1 Hh) as [Hhe Hw _ _ _ _ Hmax _ _].
  destruct (with_read_header_done d c Hhe Hw) as (d1 & h & Hs1 & Hh1 & Hw1 & He & E).
  unfold pfs_read. rewrite E. destruct (holds_same _ _ _ _ _ Hs1 Hh1 Hh) as [Hst Hsz].
  pose proof Hst as [_ _ _ _ Hf (Hi & _ & Hd) _ _ _].
  assert (Hn : names_fit h) by (rewrite He; apply Hw1).
  rewrite (header_eq_find _ _ _ He Hn), Hf, (is_dir_agree _ _ _ (header_eq_agree _ _ i Hi He)), Hd.
  pose proof (f_equal v_size (header_eq_view _ _ _ He Hn Hi)) as Hv. cbn [v_size pfs_view] in Hv.
  rewrite Hv, Hsz. cbv zeta. pose proof (blen_nonneg content).
  destruct (pread_from_done h name i content (Z.to_nat (sectors_for_len (blen content))) 0 (blen content) c d1)
    as (d2 & E2 & Hs2); [done..|lia|rewrite sectors_for_len_eq by lia; zlia|].
  exists d2. split; [exact E2|by transitivity d1].
Qed.

(** The name a file is to be written under: it holds [old], or nothing has it. *)
Definition may_hold (d : D) (name old : bytes) : Prop :=
  (exists i, file_holds d name i old) \/
  (pfs_find_entry (hdr d) name = None /\ old = [] /\ sd_healthy d /\ store_wf d /\
   pfs_parent_exists (hdr d) name = true).

(** What [pwrite] leaves behind, with its message. *)
Inductive pwrite_result (d d' : D) (name old data : bytes) : string -> Prop :=
| pwrite_ok i : file_holds d' name i data -> pwrite_result d d' name old data "ok"
| pwrite_disk_full i : file_holds d' name i old -> can_grow (hdr d') i (blen data) = false ->
    pfs_find_entry (hdr d) name = None \/ same_disk d d' ->
    pwrite_result d d' name old data "pwrite: disk full"
| pwrite_table_full : pfs_free_entry (hdr d) = None -> same_disk d d' ->
    pwrite_result d d' name old data "pwrite: filesystem full".

Lemma pwrite_data_result d0 d name i old data c :
  file_holds d name i old -> others_hold d0 d name -> Forall is_u8 data -> blen data <= PFS_FILE_MAX ->
  pfs_find_entry (hdr d0) name = None \/ same_disk d0 d ->
  exists d' text, pwrite_data clk i data c d = (d', say_line text c) /\ others_hold d0 d' name /\
    pwrite_result d0 d' name old data text.
Proof using SL Hclk.
  intros Hh Ho Hu Hl Hd. destruct (pwrite_data_done d name i old data c Hh Hu Hl) as (d' & Hh' & Ho' & R).
  exists d'. pose proof (others_trans _ _ _ _ Ho Ho') as Ho2.
  destruct (can_grow (hdr d) i (blen data)) eqn:Eg.
  - destruct R as [-> R]. eexists. split_and!; [done|done|by apply pwrite_ok with i].
  - destruct R as (-> & R & Hs). eexists. split_and!; [done|done|apply pwrite_disk_full with i].
    + done.
    + rewrite <- Eg. apply can_grow_eq; [apply R|]. symmetry. by apply same_disk_header.
    + destruct Hd as [?|Hd]; [by left|right; by transitivity d].
Qed.

(** Creating the file, then writing it. *)
Lemma pwrite_create d h name i data c :
  pfs_find_entry (hdr d) name = None -> sd_healthy d -> store_wf d ->
  pfs_parent_exists (hdr d) name = true -> valid_pfs_path name = true ->
  Forall is_u8 data -> blen data <= PFS_FILE_MAX ->
  header_eq h (hdr d) -> pfs_free_entry h = Some i ->
  exists d' text,
    (let* created := ns_since_boot clk in
     let* now := ns_since_boot clk in
     let* ok := write_header
       (pfs_set_entry h i name 0 PFS_KIND_FILE [] created PFS_MODE_DEFAULT_FILE now) in
     if negb ok then st_ret (say_line "pwrite: header write failed" c)
     else pwrite_data clk i data c) d = (d', say_line text c) /\
    others_hold d d' name /\ pwrite_result d d' name [] data text.
Proof using SL Hclk.
  intros Hf Hh Hw Hp Hval Hu Hl He Hfree. apply free_entry_spec in Hfree as [Hi Hused].
  destruct (clock_done clk Hclk d Hh) as (d1 & created & E1 & Hh1 & Hs1 & Hcr).
  destruct (clock_done clk Hclk d1 Hh1) as (d2 & now & E2 & Hh2 & Hs2 & Hnow).
  assert (Hs : same_disk d d2) by by transitivity d1. pose proof (store_wf_same _ _ Hs Hw) as Hw2.
  pose proof (same_disk_header _ _ Hs) as Hhd.
  assert (He2 : header_eq h (hdr d2)) by (intros k Hk; rewrite He by done; by apply same_disk_header).
  assert (Hf2 : pfs_find_entry (hdr d2) name = None)
    by by rewrite (header_eq_find _ _ _ Hhd (st_names _ Hw2)).
  assert (Hu2 : pfs_entry_used (hdr d2) i = false)
    by by rewrite <- (used_agree _ _ _ (header_eq_agree _ _ i Hi He2)).
  assert (Hdir : pfs_entry_used (hdr d2) i = true -> pfs_entry_is_dir (hdr d2) i = false) by congruence.
  assert (Hp2 : pfs_parent_exists (hdr d2) name = true)
    by by rewrite (header_eq_parent _ _ _ Hhd (st_names _ Hw2)).
  assert (Hm : is_u8 PFS_MODE_DEFAULT_FILE) by by unfold is_u8.
  destruct (emptied d2 h name i created PFS_MODE_DEFAULT_FILE now Hw2 Hh2 He2 Hi (or_intror Hf2) Hdir
    Hval Hp2 Hcr Hnow Hm) as (d3 & E3 & H3 & _).
  assert (Ho : others_hold d d3 name).
  { apply (others_trans d d2 d3); [by apply others_same|].
    apply (emptied_others d2 d3 h name i created PFS_MODE_DEFAULT_FILE now);
      solve [done|by right|apply (ss_healthy _ _ _ _ (proj1 H3))|
        apply (ss_wf _ _ _ _ (proj1 H3))]. }
  destruct (pwrite_data_result d d3 name i [] data c H3 Ho Hu Hl (or_introl Hf)) as (d' & text & E & R).
  exists d', text. unfold st_bind at 1. rewrite E1. unfold st_bind at 1. rewrite E2.
  unfold st_bind at 1. rewrite E3. by split.
Qed.

(** C8: on a working, well-formed disk, [pwrite] of a valid name that holds a file or
    is free (with its directory there) prints one message and changes no file under
    another name. "ok" means that [pread] of the name now prints exactly the data and
    leaves the disk as it is; "disk full" that the allocation really cannot grow and
    the file holds what it held; "filesystem full" that no entry is free and nothing
    changed. *)
Theorem pwrite_pread_round_trip d name old data c :
  may_hold d name old -> valid_pfs_path name = true -> Forall is_u8 data -> blen data <= PFS_FILE_MAX ->
  exists d' text,
    pfs_write clk name data c d = (d', say_line text c) /\ others_hold d d' name /\
    pwrite_result d d' name old data text /\
    (text = "ok"%string -> forall c2, exists d'',
       pfs_read name c2 d' = (d'', new_line (write_bytes data c2)) /\ same_disk d' d'').
Proof using SL Hclk.
  intros Hm Hval Hu Hl.
  assert (exists d' text, pfs_write clk name data c d = (d', say_line text c) /\ others_hold d d' name /\
    pwrite_result d d' name old data text) as (d' & text & E & Ho & R).
  2: { exists d', text. split_and!; [done|done|done|]. intros -> c2. inversion R; subst.
       by apply pfs_read_done with i. }
  unfold pfs_write. rewrite Hval. cbn [negb]. destruct (Z.ltb_spec PFS_FILE_MAX (blen data)); [lia|].
  assert (Hd : sd_healthy d /\ store_wf d /\ pfs_parent_exists (hdr d) name = true)
    by (destruct Hm as [(i & [[? ? _ ? _ _ _ _ _] _])|(_ & _ & ? & ? & ?)]; by split_and!).
  destruct Hd as (Hh & Hw & Hp).
  destruct (with_read_header_done d c Hh Hw) as (d1 & h & Hs1 & Hh1 & Hw1 & He & E). rewrite E.
  assert (Hn : names_fit h) by (rewrite He; apply Hw1). pose proof (same_disk_header _ _ Hs1) as Hhd.
  rewrite (header_eq_parent _ _ _ He Hn), (header_eq_parent _ _ _ Hhd (st_names _ Hw1)), Hp.
  rewrite (header_eq_find _ _ _ He Hn). pose proof (others_same d d1 name Hs1 Hh1) as Ho1. cbn [negb].
  destruct Hm as [[i Hi]|(Hf & -> & _)].
  - pose proof (holds_same _ _ _ _ _ Hs1 Hh1 Hi) as Hi1. pose proof Hi1 as [[_ _ _ _ Hf (Hb & _ & Hd) _ _ _] _].
    rewrite Hf, (is_dir_agree _ _ _ (header_eq_agree _ _ i Hb He)), Hd.
    apply (pwrite_data_result d d1 name i old); auto.
  - assert (Hf1 : pfs_find_entry (hdr d1) name = None)
      by by rewrite (header_eq_find _ _ _ Hhd (st_names _ Hw1)).
    rewrite Hf1. destruct (pfs_free_entry h) as [i|] eqn:Ef.
    + destruct (pwrite_create d1 h name i data c Hf1 Hh1 Hw1) as (d' & text & E' & Ho & R); try done.
      { by rewrite (header_eq_parent _ _ _ Hhd (st_names _ Hw1)). }
      exists d', text. split_and!; [done|by apply (others_trans d d1)|].
      destruct R as [i' R|i' R1 R2 R3|R1 R2]; [by apply pwrite_ok with i'| |].
      * apply pwrite_disk_full with i'; auto.
      * apply pwrite_table_full; [|by transitivity d1].
        by rewrite <- (free_entry_eq _ _ Hhd).
    + eexists _, _. split_and!; [done|done|]. apply pwrite_table_full; [|done].
      by rewrite <- (free_entry_eq _ _ Hhd), <- (free_entry_eq _ _ He).
Qed.

End Commands.

(** ** The file [f] of the demo disk *)

Lemma pwrite_pread_round_trip_witness :
  let c := Console_new None in
  exists d', pfs_write demo_clock (bs "f") [104; 105] c disk_f = (d', say_line "ok" c) /\
    exists d'', pfs_read (bs "f") c d' = (d'', new_line (write_bytes [104; 105] c)).
Proof.
  intros c.
  destruct (pwrite_pread_round_trip demo_clock demo_clock_ok disk_f (bs "f") [] [104; 105] c
    (or_introl (ex_intro _ 0%nat disk_f_holds)) eq_refl demo_data_u8 ltac:(by rewrite PFS_FILE_MAX_eq))
    as (d' & text & E & _ & R & Hr).
  assert (Hf : pfs_find_entry (disk_header disk_f) (bs "f") = Some 0%nat) by apply disk_f_holds.
  inversion R as [i H1 Et|i H1 H2 H3 Et|H1 H2 Et]; subst text.
  - exists d'. split; [exact E|]. destruct (Hr eq_refl c) as (d'' & E2 & _). by exists d''.
  - exfalso. destruct H3 as [H3|H3]; [congruence|]. pose proof (same_disk_header _ _ H3) as He.
    assert (i = 0%nat) as ->.
    { pose proof (ss_find _ _ _ _ (proj1 H1)) as Hi.
      rewrite (header_eq_find _ _ _ He (st_names _ (ss_wf _ _ _ _ (proj1 H1)))), Hf in Hi. congruence. }
    rewrite (can_grow_eq _ _ _ _ (proj1 disk_f_file) He) in H2.
    change (blen [104; 105]) with 2 in H2. rewrite disk_f_can_grow in H2. discriminate.
  - exfalso. revert H1. rewrite (free_entry_eq _ _ disk_f_header). vm_compute. discriminate.
Defined.
