(* ===== verification/BootFs.v ===== *)
(** * The read-only boot image

    [BootFs] of [src/kernel/src/main.rs]: the directory the boot loader leaves
    in memory. An image is the memory behind [base], addressed by offset; the
    code computes offsets in [usize], so they wrap at 64 bits. *)

From S2P Require Import Prelude Constants Text Console.

Record BootFs : Type := mkBootFs {
  bfs_null : bool;
  bfs_size : Z;
  bfs_mem : arr
}.

Record BootFsEntry : Type := mkBootFsEntry {
  be_kind : Z;
  be_name_at : Z;
  be_name_len : Z;
  be_data_at : Z;
  be_data_len : Z
}.

Definition bootfs_empty : BootFs := mkBootFs true 0 zeroed.

(** [BootFs::new]; the arguments are [initrd_base], [initrd_size] and the memory
    at that base. *)
Definition BootFs_new (initrd_base initrd_size : Z) (mem : arr) : BootFs :=
  if (initrd_base =? 0) || (initrd_size =? 0) then bootfs_empty
  else mkBootFs false initrd_size mem.

Definition BOOTFS_MAGIC : bytes := bs "RYFS1" ++ [0; 0; 0].

Definition bootfs_valid (b : BootFs) : bool :=
  if bfs_null b || (bfs_size b <? 12) then false
  else bytes_eq (slice (bfs_mem b) 0 8) BOOTFS_MAGIC.

Definition entry_count (b : BootFs) : Z :=
  if negb (bootfs_valid b) then 0
  else Z.lor (bfs_mem b 8) (Z.shiftl (bfs_mem b 9) 8).

Definition entry_size (b : BootFs) : Z :=
  if negb (bootfs_valid b) then 0
  else Z.lor (bfs_mem b 10) (Z.shiftl (bfs_mem b 11) 8).

(** [read_le32] through a pointer. *)
Definition read_le32 (mem : arr) (at_ : Z) : Z := read_le32_from_slice (slice mem at_ 4).

Definition bootfs_entry (b : BootFs) (index : Z) : option BootFsEntry :=
  if entry_size b <? 42 then None
  else
    let offset := u64 (12 + u64 (index * entry_size b)) in
    if bfs_size b <? u64 (offset + 42) then None
    else
      let kind := bfs_mem b offset in
      let name_len := bfs_mem b (offset + 1) in
      let data_offset := read_le32 (bfs_mem b) (offset + 2) in
      let data_len := read_le32 (bfs_mem b) (offset + 6) in
      if (32 <? name_len) || (bfs_size b <? u64 (data_offset + data_len)) then None
      else Some (mkBootFsEntry kind (offset + 10) name_len data_offset data_len).

Definition entry_name (b : BootFs) (e : BootFsEntry) : bytes :=
  slice (bfs_mem b) (be_name_at e) (be_name_len e).

Definition entry_data (b : BootFs) (e : BootFsEntry) : bytes :=
  slice (bfs_mem b) (be_data_at e) (be_data_len e).

(** The scan of [find_data] and [find_entry]. *)
Definition bootfs_find_entry (b : BootFs) (name : bytes) : option BootFsEntry :=
  if negb (bootfs_valid b) then None
  else
    match find_first (fun index =>
            match bootfs_entry b (Z.of_nat index) with
            | Some e => bytes_eq (entry_name b e) name
            | None => false
            end) (Z.to_nat (entry_count b)) with
    | Some index => bootfs_entry b (Z.of_nat index)
    | None => None
    end.

Definition find_data (b : BootFs) (name : bytes) : option bytes :=
  option_map (entry_data b) (bootfs_find_entry b name).

Definition used_bytes (b : BootFs) : Z := if bootfs_valid b then bfs_size b else 0.

Definition bootfs_ls (b : BootFs) (c : Console) : Console :=
  if negb (bootfs_valid b) then write_line (bs "bootfs: not loaded") c
  else
    for_range 0 (entry_count b) (fun index c =>
      match bootfs_entry b index with
      | None => c
      | Some e =>
          let c := if be_kind e =? 2 then write_bytes (bs "[dir]  ") c
                   else write_bytes (bs "[file] ") c in
          let c := write_bytes (entry_name b e) c in
          let c := write_bytes (bs "  ") c in
          let c := write_bytes (write_usize (be_data_len e)) c in
          write_line (bs " B") c
      end) c.

Definition bootfs_cat (b : BootFs) (name : bytes) (c : Console) : Console :=
  if negb (bootfs_valid b) then write_line (bs "bootfs: not loaded") c
  else
    match find_data b name with
    | Some data => new_line (write_bytes data c)
    | None => write_line (bs "bootcat: not found") c
    end.

(** ** Lemmas *)

(** The memory holds bytes and the size fits an address. *)
Record bootfs_wf (b : BootFs) : Prop := {
  bw_bytes : forall i, is_u8 (bfs_mem b i);
  bw_size : 0 <= bfs_size b < 4611686018427387904
}.

Lemma entry_count_range b : bootfs_wf b -> 0 <= entry_count b < 65536.
Proof.
  intros Hw. unfold entry_count. case_goal; [lia|]. apply word16_range; apply Hw.
Qed.

Lemma entry_size_range16 b : bootfs_wf b -> 0 <= entry_size b < 65536.
Proof. intros Hw. unfold entry_size. case_goal; [lia|]. apply word16_range; apply Hw. Qed.

Lemma le32_at_range mem at_ : (forall i, is_u8 (mem i)) -> is_u32 (read_le32 mem at_).
Proof. intros Hm. by apply le32_slice_range. Qed.

(** An entry of the table lies inside the image, and so do its name and data. *)
Record entry_inside (b : BootFs) (e : BootFsEntry) : Prop := {
  ei_name : 12 <= be_name_at e /\ 0 <= be_name_len e <= 32 /\
            be_name_at e + be_name_len e <= bfs_size b;
  ei_data : 0 <= be_data_at e /\ 0 <= be_data_len e /\ be_data_at e + be_data_len e <= bfs_size b
}.

Lemma bootfs_entry_inside b index e :
  bootfs_wf b -> 0 <= index < entry_count b -> bootfs_entry b index = Some e -> entry_inside b e.
Proof.
  intros Hw Hi. pose proof (entry_count_range b Hw) as Hc.
  pose proof (entry_size_range16 b Hw) as Hs. pose proof (bw_size _ Hw) as Hsz.
  unfold bootfs_entry. destruct (Z.ltb_spec (entry_size b) 42); [done|].
  assert (Hmul : 0 <= index * entry_size b < 4294967296) by nia.
  rewrite (u64_small (index * _)) by (unfold is_u64; lia).
  rewrite (u64_small (12 + _)) by (unfold is_u64; lia). set (offset := 12 + _) in *.
  rewrite (u64_small (offset + 42)) by (unfold is_u64; lia).
  destruct (Z.ltb_spec (bfs_size b) (offset + 42)); [done|]. cbv zeta.
  pose proof (le32_at_range (bfs_mem b) (offset + 2) (bw_bytes _ Hw)) as H1.
  pose proof (le32_at_range (bfs_mem b) (offset + 6) (bw_bytes _ Hw)) as H2.
  unfold is_u32 in *. rewrite (u64_small (read_le32 _ _ + _)) by (unfold is_u64; lia).
  destruct (Z.ltb_spec 32 (bfs_mem b (offset + 1))); [done|]. cbn [orb].
  destruct (Z.ltb_spec (bfs_size b) (read_le32 (bfs_mem b) (offset + 2)
    + read_le32 (bfs_mem b) (offset + 6))); [done|].
  intros [= <-]. pose proof (bw_bytes _ Hw (offset + 1)) as H8. unfold is_u8 in H8.
  split; simpl; lia.
Qed.

(** ** Properties *)

(** C39: Looking a name up in a boot image answers with the first table entry of
    that name whose header fits, and that entry's name and data lie inside the
    image, whatever bytes the image holds: no lookup reads outside it. *)
Theorem find_entry_inside b name e :
  bootfs_wf b -> bootfs_find_entry b name = Some e ->
  entry_inside b e /\ entry_name b e = name /\
  exists index, 0 <= index < entry_count b /\ bootfs_entry b index = Some e /\
    forall j e', 0 <= j < index -> bootfs_entry b j = Some e' -> entry_name b e' <> name.
Proof.
  intros Hw. unfold bootfs_find_entry. case_goal; [done|].
  destruct (find_first _ _) as [index|] eqn:Ef; [|done]. intros He.
  apply find_first_some in Ef as (Hi & Hp & Hf). rewrite He in Hp. apply bytes_eq_spec in Hp.
  pose proof (entry_count_range b Hw) as Hc.
  split; [by apply (bootfs_entry_inside b (Z.of_nat index)); [|lia|]|]. split; [done|].
  exists (Z.of_nat index). split; [lia|]. split; [done|].
  intros j e' Hj Ee' En. specialize (Hf (Z.to_nat j) ltac:(lia)). rewrite Z2Nat.id in Hf by lia.
  rewrite Ee' in Hf. by apply bytes_eq_false in Hf.
Qed.

(** An image with one entry, [a], holding [hi]. *)
Definition demo_image : BootFs :=
  let header := BOOTFS_MAGIC ++ [1; 0; 42; 0] in
  let entry := [1; 1] ++ to_le_bytes 4 54 ++ to_le_bytes 4 2 ++ bs "a" in
  mkBootFs false 56 (blit (blit (blit zeroed 0 header) 12 entry) 54 (bs "hi")).

Lemma demo_image_wf : bootfs_wf demo_image.
Proof.
  split; [|simpl; lia]. intros i. unfold demo_image. simpl bfs_mem.
  repeat (apply blit_u8; [|vm_compute; repeat constructor; discriminate]).
  unfold zeroed, is_u8. lia.
Defined.

Lemma find_entry_inside_witness :
  bootfs_find_entry demo_image (bs "a") = Some (mkBootFsEntry 1 22 1 54 2) /\
  entry_inside demo_image (mkBootFsEntry 1 22 1 54 2).
Proof.
  split; [reflexivity|].
  apply (find_entry_inside demo_image (bs "a")); [exact demo_image_wf|reflexivity].
Defined.

(** [bootfs_entry] itself does not bound the index: [list_bootfs] passes it
    whatever index a program asks [abi_list] for, and the [usize] arithmetic
    then wraps. On a well-formed image with one entry, index
    878416384462359600 passes the size check and yields an entry whose name
    pointer is ten bytes before the image. *)
Theorem bootfs_entry_index_unchecked :
  bootfs_wf demo_image /\ entry_count demo_image = 1 /\
  exists e, bootfs_entry demo_image 878416384462359600 = Some e /\
    be_name_at e = 18446744073709551616 - 10 /\ ~ entry_inside demo_image e.
Proof.
  split; [exact demo_image_wf|]. split; [reflexivity|]. eexists. split; [reflexivity|].
  split; [reflexivity|]. intros [[_ [_ H]] _]. vm_compute in H. by apply H.
Qed.
