(* ===== verification/RamFs.v ===== *)
(** * The RAM file system

    [RamFs] of [src/kernel/src/main.rs]: twelve flat entries the console
    commands work on. An entry's [name] and [data] are the first [name_len] and
    [data_len] bytes of its arrays; the code never reads the rest. *)

From S2P Require Import Prelude Constants Text Console BootFs.

Record FileEntry : Type := mkFileEntry {
  fe_used : bool;
  fe_is_dir : bool;
  fe_name : bytes;
  fe_data : bytes
}.

Definition FileEntry_empty : FileEntry := mkFileEntry false false [] [].

Definition RamFs : Type := list FileEntry.

Definition RamFs_new : RamFs := replicate FILE_COUNT FileEntry_empty.

Definition ram_entry (fs : RamFs) (index : nat) : FileEntry := nth index fs FileEntry_empty.

Definition ram_find (fs : RamFs) (name : bytes) : option nat :=
  find_first (fun index =>
    let entry := ram_entry fs index in
    fe_used entry && (blen (fe_name entry) =? blen name) && bytes_eq (fe_name entry) name)
    FILE_COUNT.

Definition ram_free_slot (fs : RamFs) : option nat :=
  find_first (fun index => negb (fe_used (ram_entry fs index))) FILE_COUNT.

Definition touch_raw (name : bytes) (is_dir : bool) (fs : RamFs) : RamFs * bool :=
  match ram_find fs name with
  | Some index =>
      let entry := ram_entry fs index in
      (<[index := {| entry with fe_is_dir := is_dir |}]> fs, true)
  | None =>
      match ram_free_slot fs with
      | None => (fs, false)
      | Some index =>
          let entry := ram_entry fs index in
          (<[index := {| entry with fe_used := true; fe_is_dir := is_dir; fe_name := name |}]> fs,
           true)
      end
  end.

Definition write_raw (name text : bytes) (fs : RamFs) : RamFs :=
  let '(fs, ok) := touch_raw name false fs in
  if negb ok then fs
  else
    let index := default 0%nat (ram_find fs name) in
    let entry := ram_entry fs index in
    <[index := {| entry with fe_is_dir := false; fe_data := text |}]> fs.

Definition ram_seed (fs : RamFs) : RamFs :=
  let fs := write_raw (bs "readme") (bs "Welcome to RYMOS RAMFS.") fs in
  let fs := write_raw (bs "notes")
    (bs "Disk FAT32 loading works in the bootloader. Kernel FAT32 comes later.") fs in
  fst (touch_raw (bs "tmp") true fs).

(** ** Commands: they print their outcome and return the new table *)

Definition ram_touch (name : bytes) (is_dir : bool) (st : RamFs * Console) : RamFs * Console :=
  let '(fs, c) := st in
  if negb (valid_name name) then (fs, write_line (bs "invalid name") c)
  else
    let '(fs, ok) := touch_raw name is_dir fs in
    if ok then (fs, write_line (bs "ok") c) else (fs, write_line (bs "ramfs full") c).

Definition ram_write (name text : bytes) (st : RamFs * Console) : RamFs * Console :=
  let '(fs, c) := st in
  if negb (valid_name name) then (fs, write_line (bs "invalid name") c)
  else if FILE_DATA_MAX <? blen text then (fs, write_line (bs "write: text too large") c)
  else (write_raw name text fs, write_line (bs "ok") c).

Definition ram_remove (name : bytes) (dir : bool) (st : RamFs * Console) : RamFs * Console :=
  let '(fs, c) := st in
  match ram_find fs name with
  | Some index =>
      if eqb (fe_is_dir (ram_entry fs index)) dir
      then (<[index := FileEntry_empty]> fs, write_line (bs "ok") c)
      else if dir then (fs, write_line (bs "rmdir: not a directory") c)
      else (fs, write_line (bs "rm: is a directory") c)
  | None => (fs, write_line (bs "not found") c)
  end.

Definition ram_append (name text : bytes) (st : RamFs * Console) : RamFs * Console :=
  let '(fs, c) := st in
  if negb (valid_name name) then (fs, write_line (bs "invalid name") c)
  else
    match ram_find fs name with
    | None => ram_write name text (fs, c)
    | Some index =>
        let entry := ram_entry fs index in
        if fe_is_dir entry then (fs, write_line (bs "append: is a directory") c)
        else if FILE_DATA_MAX <? blen (fe_data entry) + blen text
        then (fs, write_line (bs "append: text too large") c)
        else (<[index := {| entry with fe_data := fe_data entry ++ text |}]> fs,
              write_line (bs "ok") c)
    end.

Definition ram_copy (src dst : bytes) (st : RamFs * Console) : RamFs * Console :=
  let '(fs, c) := st in
  if negb (valid_name dst) then (fs, write_line (bs "invalid destination") c)
  else
    match ram_find fs src with
    | None => (fs, write_line (bs "copy: source not found") c)
    | Some index =>
        let entry := ram_entry fs index in
        if fe_is_dir entry then (fs, write_line (bs "copy: directories not supported yet") c)
        else (write_raw dst (fe_data entry) fs, write_line (bs "ok") c)
    end.

Definition move_entry (src dst : bytes) (st : RamFs * Console) : RamFs * Console :=
  let '(fs, c) := st in
  if negb (valid_name dst) then (fs, write_line (bs "invalid destination") c)
  else
    match ram_find fs src with
    | None => (fs, write_line (bs "move: source not found") c)
    | Some index =>
        if FILE_NAME_MAX <? blen dst then (fs, write_line (bs "move: destination too long") c)
        else
          let entry := ram_entry fs index in
          (<[index := {| entry with fe_name := dst |}]> fs, write_line (bs "ok") c)
    end.

Definition ram_cat (fs : RamFs) (name : bytes) (c : Console) : Console :=
  match ram_find fs name with
  | Some index =>
      let entry := ram_entry fs index in
      if fe_is_dir entry then write_line (bs "cat: is a directory") c
      else new_line (write_bytes (fe_data entry) c)
  | None => write_line (bs "cat: not found") c
  end.

Definition ram_ls (fs : RamFs) (c : Console) : Console :=
  fold_left (fun c entry =>
    if fe_used entry then
      let c := if fe_is_dir entry then write_bytes (bs "[dir]  ") c
               else write_bytes (bs "[file] ") c in
      let c := write_bytes (fe_name entry) c in
      let c := if fe_is_dir entry then c
               else
                 let c := write_bytes (bs "  ") c in
                 let c := write_bytes (write_usize (blen (fe_data entry))) c in
                 write_bytes (bs " B") c in
      new_line c
    else c) fs c.

Definition ram_df (fs : RamFs) (bootfs : BootFs) (c : Console) : Console :=
  let used := List.filter fe_used fs in
  let used_entries := Z.of_nat (length used) in
  let used_bytes_ := fold_left (fun t entry => t + blen (fe_data entry)) used 0 in
  let c := write_line (bs "filesystem   entries        bytes") c in
  let c := write_bytes (bs "ramfs        ") c in
  let c := write_bytes (write_usize used_entries) c in
  let c := write_bytes (bs "/") c in
  let c := write_bytes (write_usize (Z.of_nat FILE_COUNT)) c in
  let c := write_bytes (bs "          ") c in
  let c := write_bytes (write_usize used_bytes_) c in
  let c := write_bytes (bs "/") c in
  let c := write_bytes (write_usize (Z.of_nat FILE_COUNT * FILE_DATA_MAX)) c in
  let c := new_line c in
  let c := write_bytes (bs "bootfs       ro initrd      ") c in
  let c := write_bytes (write_usize (used_bytes bootfs)) c in
  write_line (bs " bytes") c.

(** ** The table as a finite map *)

Definition ram_lookup (fs : RamFs) (name : bytes) : option (bool * bytes) :=
  match ram_find fs name with
  | Some index => Some (fe_is_dir (ram_entry fs index), fe_data (ram_entry fs index))
  | None => None
  end.

(** Twelve entries, distinct valid names, data that fits, free entries blank. *)
Record ramfs_wf (fs : RamFs) : Prop := {
  rw_len : length fs = FILE_COUNT;
  rw_unique : forall i j, (i < FILE_COUNT)%nat -> (j < FILE_COUNT)%nat ->
    fe_used (ram_entry fs i) = true -> fe_used (ram_entry fs j) = true ->
    fe_name (ram_entry fs i) = fe_name (ram_entry fs j) -> i = j;
  rw_names : forall i, (i < FILE_COUNT)%nat -> fe_used (ram_entry fs i) = true ->
    valid_name (fe_name (ram_entry fs i)) = true;
  rw_data : forall i, (i < FILE_COUNT)%nat -> blen (fe_data (ram_entry fs i)) <= FILE_DATA_MAX;
  rw_free : forall i, (i < FILE_COUNT)%nat -> fe_used (ram_entry fs i) = false ->
    fe_data (ram_entry fs i) = []
}.

#[local] Arguments FILE_COUNT : simpl never.

Lemma ram_find_some fs name i :
  ram_find fs name = Some i <->
  (i < FILE_COUNT)%nat /\ fe_used (ram_entry fs i) = true /\ fe_name (ram_entry fs i) = name /\
  forall j, (j < i)%nat -> ~ (fe_used (ram_entry fs j) = true /\ fe_name (ram_entry fs j) = name).
Proof.
  unfold ram_find. rewrite find_first_some.
  assert (H : forall k, fe_used (ram_entry fs k) && (blen (fe_name (ram_entry fs k)) =? blen name)
      && bytes_eq (fe_name (ram_entry fs k)) name = true <->
      fe_used (ram_entry fs k) = true /\ fe_name (ram_entry fs k) = name).
  { intros k. rewrite !andb_true_iff, bytes_eq_spec, Z.eqb_eq. naive_solver. }
  split; intros (H1 & H2 & H3).
  - split; [done|]. apply H in H2 as [H2 H2']. split; [done|]. split; [done|]. intros j Hj Hc%H. rewrite H3 in Hc by done. done.
  - split_and!; [done|apply H; naive_solver|]. intros j Hj. apply not_true_is_false.
    intros Hc%H. naive_solver.
Qed.

Lemma ram_find_none fs name :
  ram_find fs name = None <->
  forall i, (i < FILE_COUNT)%nat -> fe_used (ram_entry fs i) = true ->
    fe_name (ram_entry fs i) <> name.
Proof.
  unfold ram_find. rewrite find_first_none. split; intros H i Hi.
  - intros Hu <-. specialize (H i Hi). rewrite Hu, Z.eqb_refl, bytes_eq_refl in H. done.
  - apply not_true_is_false. rewrite !andb_true_iff, bytes_eq_spec. intros [[Hu _] Hn].
    by apply (H i Hi Hu).
Qed.

(** With distinct names, the entry found is the only one of its name. *)
Lemma ram_find_unique fs name i :
  ramfs_wf fs -> (i < FILE_COUNT)%nat -> fe_used (ram_entry fs i) = true ->
  fe_name (ram_entry fs i) = name -> ram_find fs name = Some i.
Proof.
  intros Hw Hi Hu Hn. apply ram_find_some. split_and!; [done..|]. intros j Hj [Hju Hjn].
  assert (j = i) by (apply (rw_unique _ Hw); [lia|done|done|done|congruence]). lia.
Qed.

Lemma free_slot_some fs i :
  ram_free_slot fs = Some i -> (i < FILE_COUNT)%nat /\ fe_used (ram_entry fs i) = false.
Proof.
  unfold ram_free_slot. intros (H1 & H2 & _)%find_first_some. split; [done|].
  by apply negb_true_iff.
Qed.

Lemma ram_entry_insert fs i e j :
  (i < length fs)%nat -> ram_entry (<[i := e]> fs) j = if decide (i = j) then e else ram_entry fs j.
Proof.
  intros Hi. unfold ram_entry. destruct (decide (i = j)) as [->|Hne].
  - erewrite nth_lookup_Some; [done|]. by apply list_lookup_insert_eq.
  - pose proof (list_lookup_insert_ne fs i j e Hne) as H. rewrite !nth_lookup. by rewrite H.
Qed.

(** Entry [e] may be stored at index [i]. *)
Record fits_at (fs : RamFs) (i : nat) (e : FileEntry) : Prop := {
  fa_range : (i < FILE_COUNT)%nat;
  fa_name : fe_used e = true -> valid_name (fe_name e) = true;
  fa_fresh : fe_used e = true -> forall j, (j < FILE_COUNT)%nat -> j <> i ->
    fe_used (ram_entry fs j) = true -> fe_name (ram_entry fs j) <> fe_name e;
  fa_data : blen (fe_data e) <= FILE_DATA_MAX;
  fa_blank : fe_used e = false -> fe_data e = []
}.

Lemma store_wf fs i e : ramfs_wf fs -> fits_at fs i e -> ramfs_wf (<[i := e]> fs).
Proof.
  intros [L U N Da F] [Hi Hn Hf Hd Hb].
  assert (Hl : (i < length fs)%nat) by by rewrite L.
  split; [rewrite <- L; apply length_insert| | | |].
  - intros j k Hj Hk. rewrite !ram_entry_insert by done.
    destruct (decide (i = j)) as [E1|E1], (decide (i = k)) as [E2|E2]; [congruence| | |by apply U].
    + intros Hu Huk E. exfalso. apply (Hf Hu k Hk); congruence.
    + intros Huj Hu E. exfalso. apply (Hf Hu j Hj); congruence.
  - intros j Hj. rewrite ram_entry_insert by done. destruct (decide (i = j)); auto.
  - intros j Hj. rewrite ram_entry_insert by done. destruct (decide (i = j)); auto.
  - intros j Hj. rewrite ram_entry_insert by done. destruct (decide (i = j)); auto.
Qed.

(** Storing a used entry over one of the same name, or over a free one. *)
Lemma store_lookup fs i e n :
  ramfs_wf fs -> fits_at fs i e -> fe_used e = true ->
  fe_used (ram_entry fs i) = false \/ fe_name (ram_entry fs i) = fe_name e ->
  ram_lookup (<[i := e]> fs) n =
  if decide (n = fe_name e) then Some (fe_is_dir e, fe_data e) else ram_lookup fs n.
Proof.
  intros Hw Hfit Hu Hold. pose proof (store_wf _ _ _ Hw Hfit) as Hw'.
  assert (Hl : (i < length fs)%nat) by (rewrite (rw_len _ Hw); apply Hfit).
  unfold ram_lookup. destruct (decide (n = fe_name e)) as [->|Hne].
  - rewrite (ram_find_unique _ _ i Hw'); rewrite ?ram_entry_insert by done;
      rewrite ?decide_True by done; try done. apply Hfit.
  - destruct (ram_find fs n) as [j|] eqn:Ef.
    + apply ram_find_some in Ef as (Hj & Huj & Hnj & _).
      assert (Hij : i <> j) by (intros <-; destruct Hold; congruence).
      rewrite (ram_find_unique _ _ j Hw'); rewrite ?ram_entry_insert by done;
        rewrite ?decide_False by done; done.
    + rewrite (proj2 (ram_find_none _ n)); [done|]. intros j Hj.
      rewrite ram_entry_insert by done. destruct (decide (i = j)); [congruence|].
      by apply ram_find_none.
Qed.

(** There is room for [name]: it exists or an entry is free. *)
Definition has_room (fs : RamFs) (name : bytes) : Prop :=
  is_Some (ram_find fs name) \/ is_Some (ram_free_slot fs).

Lemma free_fits fs i e :
  ramfs_wf fs -> ram_find fs (fe_name e) = None -> (i < FILE_COUNT)%nat ->
  valid_name (fe_name e) = true -> fe_used e = true -> blen (fe_data e) <= FILE_DATA_MAX ->
  fits_at fs i e.
Proof.
  intros Hw Hn Hi Hv Hu Hd. split; try done; [|congruence]. intros _ j Hj _.
  by apply ram_find_none.
Qed.

Lemma found_fits fs i e :
  ramfs_wf fs -> ram_find fs (fe_name e) = Some i -> fe_used e = true ->
  blen (fe_data e) <= FILE_DATA_MAX -> fits_at fs i e.
Proof.
  intros Hw (Hi & Hui & Hni & _)%ram_find_some Hu Hd. split; try done; [| |congruence].
  - intros _. rewrite <- Hni. by apply (rw_names _ Hw).
  - intros _ j Hj Hne Huj E. apply Hne. apply (rw_unique _ Hw); try done. congruence.
Qed.

Lemma touch_raw_spec fs name is_dir :
  ramfs_wf fs -> valid_name name = true ->
  match touch_raw name is_dir fs with
  | (fs', true) =>
      ramfs_wf fs' /\ has_room fs name /\
      forall n, ram_lookup fs' n =
        if decide (n = name)
        then Some (is_dir, match ram_lookup fs name with Some (_, d) => d | None => [] end)
        else ram_lookup fs n
  | (fs', false) => fs' = fs /\ ~ has_room fs name
  end.
Proof.
  intros Hw Hv. unfold touch_raw, has_room. destruct (ram_find fs name) as [i|] eqn:Ef.
  - pose proof Ef as (Hi & Hu & Hn & _)%ram_find_some.
    set (e := let entry := ram_entry fs i in {| entry with fe_is_dir := is_dir |}).
    assert (Hfit : fits_at fs i e).
    { apply found_fits; simpl; try done; [congruence|]. by apply (rw_data _ Hw). }
    split; [by apply store_wf|]. split; [by left|]. intros n.
    rewrite (store_lookup _ _ e) by (done || by right). simpl. rewrite Hn.
    unfold ram_lookup at 2. by rewrite Ef.
  - destruct (ram_free_slot fs) as [i|] eqn:Es; [|split; [done|intros [[]|[]]; done]].
    pose proof Es as (Hi & Hu)%free_slot_some.
    set (e := let entry := ram_entry fs i in {| entry with fe_used := true; fe_is_dir := is_dir; fe_name := name |}).
    assert (Hd : fe_data e = []) by (simpl; by apply (rw_free _ Hw)).
    assert (Hfit : fits_at fs i e) by (apply free_fits; try done; by rewrite Hd).
    split; [by apply store_wf|]. split; [by right|]. intros n.
    rewrite (store_lookup _ _ e) by (done || by left). rewrite Hd.
    unfold ram_lookup at 2. by rewrite Ef.
Qed.

Lemma write_raw_spec fs name text :
  ramfs_wf fs -> valid_name name = true -> blen text <= FILE_DATA_MAX ->
  ramfs_wf (write_raw name text fs) /\
  (has_room fs name -> forall n, ram_lookup (write_raw name text fs) n =
     if decide (n = name) then Some (false, text) else ram_lookup fs n) /\
  (~ has_room fs name -> write_raw name text fs = fs).
Proof.
  intros Hw Hv Ht. unfold write_raw. pose proof (touch_raw_spec fs name false Hw Hv) as H.
  destruct (touch_raw name false fs) as [fs' [|]]; cbn [negb].
  - destruct H as (Hw' & Hr & Hl). pose proof (Hl name) as Hn.
    rewrite decide_True in Hn by done. unfold ram_lookup at 1 in Hn.
    destruct (ram_find fs' name) as [i|] eqn:Ef; [|done]. simpl default.
    pose proof Ef as (Hi & Hu & Hni & _)%ram_find_some.
    set (e := let entry := ram_entry fs' i in {| entry with fe_is_dir := false; fe_data := text |}).
    assert (Hfit : fits_at fs' i e) by (apply found_fits; simpl; try done; congruence).
    split_and!; [by apply store_wf| |done]. intros _ n.
    rewrite (store_lookup _ _ e) by (done || by right). simpl. rewrite Hni, Hl.
    by destruct (decide (n = name)).
  - destruct H as [-> Hr]. by split_and!.
Qed.

(** ** Properties *)

(** The commands that change the table. *)
Inductive RamOp : Type :=
  | RamTouch (name : bytes) (is_dir : bool)
  | RamWrite (name text : bytes)
  | RamRemove (name : bytes) (dir : bool)
  | RamAppend (name text : bytes)
  | RamCopy (src dst : bytes)
  | RamMove (src dst : bytes).

Definition ram_op (op : RamOp) (st : RamFs * Console) : RamFs * Console :=
  match op with
  | RamTouch name is_dir => ram_touch name is_dir st
  | RamWrite name text => ram_write name text st
  | RamRemove name dir => ram_remove name dir st
  | RamAppend name text => ram_append name text st
  | RamCopy src dst => ram_copy src dst st
  | RamMove src dst => move_entry src dst st
  end.

(** A move may not clobber another entry's name. *)
Definition safe_op (fs : RamFs) (op : RamOp) : Prop :=
  match op with
  | RamMove src dst => dst = src \/ ram_find fs dst = None
  | _ => True
  end.

Lemma blank_fits fs i : (i < FILE_COUNT)%nat -> fits_at fs i FileEntry_empty.
Proof. intros Hi. split; try done. Qed.

Lemma move_wf fs c src dst :
  ramfs_wf fs -> safe_op fs (RamMove src dst) -> ramfs_wf (fst (move_entry src dst (fs, c))).
Proof.
  intros Hw Hs. unfold move_entry. destruct (valid_name dst) eqn:Hv; [|done]. cbn [negb].
  destruct (ram_find fs src) as [i|] eqn:Ef; [|done]. case_goal; [done|]. simpl.
  pose proof Ef as (Hi & Hu & Hn & _)%ram_find_some.
  set (e := let entry := ram_entry fs i in {| entry with fe_name := dst |}).
  destruct Hs as [->|Hfree].
  - apply store_wf; [done|]. apply found_fits; simpl; try done. by apply (rw_data _ Hw).
  - apply store_wf; [done|]. apply free_fits; simpl; try done. by apply (rw_data _ Hw).
Qed.

Lemma append_wf fs c name text : ramfs_wf fs -> ramfs_wf (fst (ram_append name text (fs, c))).
Proof.
  intros Hw. unfold ram_append, ram_write. destruct (valid_name name) eqn:Hv; [|done]. cbn [negb].
  destruct (ram_find fs name) as [i|] eqn:Ef.
  - case_goal; [done|]. destruct (Z.ltb_spec FILE_DATA_MAX
      (blen (fe_data (ram_entry fs i)) + blen text)); [done|]. simpl.
    pose proof Ef as (Hi & Hu & Hn & _)%ram_find_some.
    apply store_wf; [done|]. apply found_fits; simpl; try done; [by rewrite Hn|].
    rewrite blen_app. lia.
  - destruct (Z.ltb_spec FILE_DATA_MAX (blen text)); [done|]. by apply write_raw_spec.
Qed.

(** Every console command on the RAM file system keeps its table
    well-formed: twelve entries, distinct valid names of at most sixteen bytes,
    at most 192 data bytes, free entries blank. The one exception is [move] onto
    the name of another entry. *)
Theorem ram_commands_keep_wf fs c op :
  ramfs_wf fs -> safe_op fs op -> ramfs_wf (fst (ram_op op (fs, c))).
Proof.
  intros Hw Hs. destruct op as [name d|name text|name d|name text|src dst|src dst]; simpl.
  - destruct (valid_name name) eqn:Hv; [|done]. cbn [negb].
    pose proof (touch_raw_spec fs name d Hw Hv) as H.
    destruct (touch_raw name d fs) as [fs' [|]]; simpl; [apply H|]. by destruct H as [-> _].
  - destruct (valid_name name) eqn:Hv; [|done]. cbn [negb].
    destruct (Z.ltb_spec FILE_DATA_MAX (blen text)); [done|]. by apply write_raw_spec.
  - destruct (ram_find fs name) as [i|] eqn:Ef; [|done]. pose proof Ef as (Hi & _)%ram_find_some.
    destruct (eqb _ _); [by apply store_wf; [|apply blank_fits]|]. by destruct d.
  - by apply append_wf.
  - destruct (valid_name dst) eqn:Hv; [|done]. cbn [negb].
    destruct (ram_find fs src) as [i|] eqn:Ef; [|done]. case_goal; [done|].
    pose proof Ef as (Hi & _)%ram_find_some. apply write_raw_spec; [done|done|].
    by apply (rw_data _ Hw).
  - by apply move_wf.
Qed.

Lemma ramfs_seed_wf : ramfs_wf (ram_seed RamFs_new).
Proof.
  assert (H0 : ramfs_wf RamFs_new).
  { assert (He : forall i, ram_entry RamFs_new i = FileEntry_empty).
    { intros i. unfold ram_entry, RamFs_new. generalize FILE_COUNT as n. intros n. revert i.
      induction n; intros [|i]; simpl; auto. }
    split; [done|..]; intros i; rewrite He; try done. }
  unfold ram_seed.
  pose proof (write_raw_spec RamFs_new (bs "readme") (bs "Welcome to RYMOS RAMFS.") H0
    eq_refl ltac:(vm_compute; discriminate)) as [H1 _].
  pose proof (write_raw_spec _ (bs "notes")
    (bs "Disk FAT32 loading works in the bootloader. Kernel FAT32 comes later.") H1
    eq_refl ltac:(vm_compute; discriminate)) as [H2 _].
  pose proof (touch_raw_spec _ (bs "tmp") true H2 eq_refl) as H3.
  destruct (touch_raw _ _ _) as [fs [|]]; [apply H3|]. by destruct H3 as [-> _].
Defined.

Lemma ram_commands_keep_wf_witness :
  ramfs_wf (fst (ram_op (RamMove (bs "notes") (bs "todo"))
                        (ram_seed RamFs_new, without_framebuffer))).
Proof.
  apply ram_commands_keep_wf; [exact ramfs_seed_wf|]. right. vm_compute. reflexivity.
Defined.

(** A write of a valid name and a text that fits, while the name exists or
    an entry is free, makes the name a file holding exactly the text, and
    changes no other name; with no room it changes nothing. *)
Theorem ram_write_lookup fs c name text :
  ramfs_wf fs -> valid_name name = true -> blen text <= FILE_DATA_MAX ->
  let fs' := fst (ram_write name text (fs, c)) in
  (has_room fs name -> forall n, ram_lookup fs' n =
     if decide (n = name) then Some (false, text) else ram_lookup fs n) /\
  (~ has_room fs name -> fs' = fs).
Proof.
  intros Hw Hv Ht. unfold ram_write. rewrite Hv. cbn [negb].
  destruct (Z.ltb_spec FILE_DATA_MAX (blen text)); [lia|]. by apply write_raw_spec.
Qed.

Lemma ram_write_lookup_witness :
  ram_lookup (fst (ram_write (bs "tmp") (bs "hi") (ram_seed RamFs_new, without_framebuffer)))
    (bs "tmp") = Some (false, bs "hi").
Proof.
  destruct (ram_write_lookup (ram_seed RamFs_new) without_framebuffer (bs "tmp") (bs "hi")
    ramfs_seed_wf eq_refl ltac:(vm_compute; discriminate)) as [H _].
  rewrite H; [apply decide_True; reflexivity|]. left. eexists. vm_compute. reflexivity.
Defined.

(** The table after [touch] of every name of [l]. *)
Definition touch_all (l : list bytes) : RamFs :=
  fold_left (fun fs name => fst (touch_raw name false fs)) l RamFs_new.

Definition twelve : RamFs :=
  touch_all (map (fun k => [97 + Z.of_nat k]) (seq 0 12)).

(** [move] does not look at its destination: moving [a] onto the existing
    [b] leaves two entries named [b], of which commands only see the first. And
    a [write] of a new name into a full table stores nothing, yet prints the
    same [ok] line a successful write prints. *)
Theorem ram_command_gaps :
  (exists i j, i <> j /\
    let fs := fst (move_entry (bs "a") (bs "b") (twelve, without_framebuffer)) in
    fe_used (ram_entry fs i) = true /\ fe_used (ram_entry fs j) = true /\
    fe_name (ram_entry fs i) = bs "b" /\ fe_name (ram_entry fs j) = bs "b") /\
  (forall c, ram_write (bs "zz") (bs "text") (twelve, c) = (twelve, write_line (bs "ok") c)) /\
  ram_lookup twelve (bs "zz") = None.
Proof.
  split; [exists 0%nat, 1%nat; split; [done|]; vm_compute; done|].
  split; [|vm_compute; reflexivity]. intros c. unfold ram_write.
  change (valid_name (bs "zz")) with true. change (FILE_DATA_MAX <? blen (bs "text")) with false.
  cbn [negb]. f_equal.
Qed.
