(* ===== verification/Phys.v ===== *)
(** * The physical page allocator

    [PhysPageAllocator] and [init_physical_allocator] of
    [src/kernel/src/main.rs]: bump ranges from the firmware memory map and a
    bounded stack of returned pages. [free_stack] is the used part of the array,
    its top first. *)

From S2P Require Import Prelude Constants Text.

Record PageRange : Type := mkPageRange { next : Z; end_ : Z }.

Record PhysPageAllocator : Type := mkPhys {
  ranges : list PageRange;
  total_pages : Z;
  allocated_pages : Z;
  free_stack : list Z
}.

Definition phys_empty : PhysPageAllocator := mkPhys [] 0 0 [].

Definition range_count (a : PhysPageAllocator) : nat := length (ranges a).

Definition free_count (a : PhysPageAllocator) : nat := length (free_stack a).

Definition add_range (start end0 : Z) (a : PhysPageAllocator) : PhysPageAllocator :=
  let start := align_up_u64 start PAGE_SIZE in
  let end1 := align_down_u64 end0 PAGE_SIZE in
  if (end1 <=? start) || Nat.leb MAX_PHYS_RANGES (range_count a) then a
  else {| a with ranges := ranges a ++ [mkPageRange start end1];
                 total_pages := u64 (total_pages a + (end1 - start) / PAGE_SIZE) |}.

(** The scan over [ranges]: the first range with a page left. *)
Fixpoint bump (l : list PageRange) : option (Z * list PageRange) :=
  match l with
  | [] => None
  | r :: rest =>
      if next r <? end_ r
      then Some (next r, mkPageRange (u64 (next r + PAGE_SIZE)) (end_ r) :: rest)
      else match bump rest with
           | Some (page, rest') => Some (page, r :: rest')
           | None => None
           end
  end.

Definition alloc_page (a : PhysPageAllocator) : PhysPageAllocator * option Z :=
  match free_stack a with
  | page :: rest =>
      ({| a with free_stack := rest; allocated_pages := u64 (allocated_pages a + 1) |}, Some page)
  | [] =>
      match bump (ranges a) with
      | Some (page, l) =>
          ({| a with ranges := l; allocated_pages := u64 (allocated_pages a + 1) |}, Some page)
      | None => (a, None)
      end
  end.

Definition free_page (page : Z) (a : PhysPageAllocator) : PhysPageAllocator * bool :=
  if negb (Z.land page (PAGE_SIZE - 1) =? 0) || Nat.leb FREE_PAGE_STACK_MAX (free_count a)
  then (a, false)
  else ({| a with free_stack := page :: free_stack a;
                  allocated_pages := saturating_sub (allocated_pages a) 1 |}, true).

Definition free_pages (a : PhysPageAllocator) : Z :=
  saturating_sub (total_pages a) (allocated_pages a).

(** The fields of [EfiMemoryDescriptor] the kernel reads. *)
Record EfiMemoryDescriptor : Type := mkEfi {
  efi_typ : Z; physical_start : Z; number_of_pages : Z
}.

Definition add_descriptor (a : PhysPageAllocator) (d : EfiMemoryDescriptor) : PhysPageAllocator :=
  if negb (efi_typ d =? 7) then a
  else
    let start := physical_start d in
    let end0 := u64 (start + u64 (number_of_pages d * PAGE_SIZE)) in
    let start := if start <? APP_LOAD_MAX then APP_LOAD_MAX else start in
    add_range start end0 a.

(** [None]: no boot information, or a memory map with a zero field. *)
Definition init_physical_allocator (memory_map : option (list EfiMemoryDescriptor))
  : PhysPageAllocator :=
  match memory_map with
  | None => phys_empty
  | Some descriptors => fold_left add_descriptor descriptors phys_empty
  end.

(** ** The set of pages the allocator may hand out *)

Definition page_aligned (p : Z) : Prop := p mod PAGE_SIZE = 0.

Definition in_range (r : PageRange) (p : Z) : Prop := next r <= p < end_ r /\ page_aligned p.

Definition available (a : PhysPageAllocator) (p : Z) : Prop :=
  p ∈ free_stack a \/ Exists (fun r => in_range r p) (ranges a).

(** Ranges are aligned, ordered pairs below the address limit, pairwise
    disjoint; returned pages are aligned, distinct and in no range. *)
Record phys_wf (a : PhysPageAllocator) : Prop := {
  pw_ranges : Forall (fun r => page_aligned (next r) /\ page_aligned (end_ r) /\
    0 <= next r <= end_ r /\ end_ r < 4503599627370496) (ranges a);
  pw_disjoint : forall i j r1 r2 p, ranges a !! i = Some r1 -> ranges a !! j = Some r2 ->
    in_range r1 p -> in_range r2 p -> i = j;
  pw_stack : NoDup (free_stack a);
  pw_aligned : Forall (fun p => page_aligned p /\ 0 < p < 4503599627370496) (free_stack a);
  pw_fresh : forall p, p ∈ free_stack a -> ~ Exists (fun r => in_range r p) (ranges a);
  pw_nonzero : Forall (fun r => 0 < next r) (ranges a)
}.

(** ** Alignment *)

Lemma align_down_eq x :
  0 <= x < 18446744073709551616 -> align_down_u64 x PAGE_SIZE = x / PAGE_SIZE * PAGE_SIZE.
Proof.
  intros Hx. unfold align_down_u64, PAGE_SIZE.
  change (u64 (Z.lnot (u64 (4096 - 1)))) with (Z.shiftl (Z.ones 52) 12).
  rewrite land_mask by lia. change (2 ^ 12) with 4096. change (2 ^ 52) with 4503599627370496.
  rewrite Z.mod_small; [done|]. split; [apply Z.div_pos; lia|apply Z.div_lt_upper_bound; lia].
Qed.

Lemma align_up_eq x :
  0 <= x < 9223372036854775808 ->
  align_up_u64 x PAGE_SIZE = (x + (PAGE_SIZE - 1)) / PAGE_SIZE * PAGE_SIZE.
Proof.
  intros Hx. unfold align_up_u64, PAGE_SIZE.
  rewrite (u64_small (x + 4096)) by (unfold is_u64; lia).
  rewrite (u64_small (x + 4096 - 1)) by (unfold is_u64; lia).
  pose proof (align_down_eq (x + 4096 - 1) ltac:(lia)) as H.
  unfold align_down_u64, PAGE_SIZE in H. rewrite H. do 2 f_equal. lia.
Qed.

Lemma aligned_mask p : (Z.land p (PAGE_SIZE - 1) =? 0) = true <-> page_aligned p.
Proof.
  unfold page_aligned, PAGE_SIZE. change (4096 - 1) with (Z.ones 12).
  rewrite land_low by lia. by rewrite Z.eqb_eq.
Qed.

(** ** Allocation *)

Lemma bump_spec l :
  Forall (fun r => page_aligned (next r) /\ page_aligned (end_ r) /\
    0 <= next r <= end_ r /\ end_ r < 4503599627370496) l ->
  match bump l with
  | Some (page, l') =>
      exists i r, l !! i = Some r /\ next r < end_ r /\ page = next r /\
        l' = <[i := mkPageRange (next r + PAGE_SIZE) (end_ r)]> l
  | None => Forall (fun r => end_ r <= next r) l
  end.
Proof.
  induction l as [|r l IH]; intros Hf; simpl; [constructor|].
  apply Forall_cons in Hf as [(H1 & H2 & H3 & H4) Hf]. specialize (IH Hf).
  destruct (Z.ltb_spec (next r) (end_ r)) as [Hlt|Hge].
  - exists 0%nat, r. split_and!; [done|done|done|]. simpl. do 2 f_equal.
    unfold PAGE_SIZE. apply u64_small. unfold is_u64. lia.
  - destruct (bump l) as [[page l']|]; [|by constructor].
    destruct IH as (i & r' & Hi & Hlt & -> & ->). exists (S i), r'. done.
Qed.

Lemma in_range_bumped r p :
  page_aligned (next r) -> page_aligned (end_ r) -> next r < end_ r ->
  in_range (mkPageRange (next r + PAGE_SIZE) (end_ r)) p <-> in_range r p /\ p <> next r.
Proof.
  unfold in_range, page_aligned, PAGE_SIZE. simpl. intros H1 H2 H3. split.
  - intros [H4 H5]. split; [split; [lia|done]|lia].
  - intros [[H4 H5] H6]. split; [zlia|done].
Qed.

Lemma exists_lookup {A} (P : A -> Prop) l :
  Exists P l <-> exists i x, l !! i = Some x /\ P x.
Proof.
  rewrite Exists_exists. setoid_rewrite list_elem_of_lookup. naive_solver.
Qed.

(** The ranges after one page was taken from range [i]. *)
Lemma bumped_range a i r p :
  phys_wf a -> ranges a !! i = Some r -> next r < end_ r ->
  Exists (fun r => in_range r p) (<[i := mkPageRange (next r + PAGE_SIZE) (end_ r)]> (ranges a))
  <-> Exists (fun r => in_range r p) (ranges a) /\ p <> next r.
Proof.
  intros Hw Hi Hlt. pose proof (pw_ranges _ Hw) as Hf.
  pose proof (Forall_lookup_1 _ _ _ _ Hf Hi) as (A1 & A2 & A3 & _).
  assert (Hself : in_range r (next r)) by (split; [lia|done]).
  rewrite !exists_lookup. split.
  - intros (j & r' & Hj & Hp). destruct (decide (i = j)) as [<-|Hne].
    + rewrite list_lookup_insert_eq in Hj by by eapply lookup_lt_Some. injection Hj as <-.
      apply in_range_bumped in Hp as [Hp Hn]; [|done|done|done]. split; [eauto|done].
    + rewrite list_lookup_insert_ne in Hj by done. split; [eauto|]. intros ->.
      apply Hne. by eapply (pw_disjoint _ Hw).
  - intros [(j & r' & Hj & Hp) Hn]. destruct (decide (i = j)) as [<-|Hne].
    + exists i. eexists. split; [apply list_lookup_insert_eq; by eapply lookup_lt_Some|].
      apply in_range_bumped; [done|done|done|]. split; [congruence|done].
    + exists j, r'. by rewrite list_lookup_insert_ne.
Qed.

Lemma bumped_disjoint a i r j k r1 r2 p :
  phys_wf a -> ranges a !! i = Some r -> next r < end_ r ->
  <[i := mkPageRange (next r + PAGE_SIZE) (end_ r)]> (ranges a) !! j = Some r1 ->
  <[i := mkPageRange (next r + PAGE_SIZE) (end_ r)]> (ranges a) !! k = Some r2 ->
  in_range r1 p -> in_range r2 p -> j = k.
Proof.
  intros Hw Hi Hlt Hj Hk H1 H2.
  pose proof (Forall_lookup_1 _ _ _ _ (pw_ranges _ Hw) Hi) as (A1 & A2 & _).
  assert (Hold : forall m x, <[i := mkPageRange (next r + PAGE_SIZE) (end_ r)]> (ranges a) !! m
      = Some x -> in_range x p -> exists y, ranges a !! m = Some y /\ in_range y p).
  { intros m x Hm Hx. destruct (decide (i = m)) as [<-|Hne].
    - rewrite list_lookup_insert_eq in Hm by by eapply lookup_lt_Some. injection Hm as <-.
      exists r. split; [done|]. by apply in_range_bumped in Hx as [Hx _].
    - rewrite list_lookup_insert_ne in Hm by done. eauto. }
  destruct (Hold j r1 Hj H1) as (y1 & Y1 & Y2). destruct (Hold k r2 Hk H2) as (y2 & Y3 & Y4).
  by eapply (pw_disjoint _ Hw).
Qed.

Lemma alloc_spec a :
  phys_wf a ->
  match alloc_page a with
  | (a', Some p) => phys_wf a' /\ available a p /\ page_aligned p /\ 0 < p < 4503599627370496 /\
      forall q, available a' q <-> available a q /\ q <> p
  | (a', None) => a' = a /\ forall q, ~ available a q
  end.
Proof.
  intros Hw. pose proof Hw as [W1 W2 W3 W4 W5 W6]. unfold alloc_page, available.
  destruct (free_stack a) as [|page rest] eqn:Es.
  - pose proof (bump_spec _ W1) as Hb. destruct (bump (ranges a)) as [[page l']|].
    2: { split; [done|]. intros q [Hq|Hq]; [by inversion Hq|].
         apply exists_lookup in Hq as (i & r & Hi & [Hq _]).
         pose proof (Forall_lookup_1 _ _ _ _ Hb Hi) as Hr. simpl in Hr. lia. }
    destruct Hb as (i & r & Hi & Hlt & -> & ->).
    pose proof (Forall_lookup_1 _ _ _ _ W1 Hi) as (A1 & A2 & A3 & A4).
    pose proof (Forall_lookup_1 _ _ _ _ W6 Hi) as A5. simpl in A5.
    assert (Hin : in_range r (next r)) by (split; [lia|done]).
    assert (Hbr : forall q, Exists (fun r0 => in_range r0 q)
        (<[i:={| next := next r + PAGE_SIZE; end_ := end_ r |}]> (ranges a)) <->
        Exists (fun r => in_range r q) (ranges a) /\ q <> next r)
      by (intros q; by apply bumped_range).
    split_and!; [|right; apply exists_lookup; eauto|done|lia|lia|].
    + split; simpl; try constructor.
      * apply Forall_insert; [done|]. simpl. unfold page_aligned, PAGE_SIZE in *. zlia.
      * intros j k r1 r2 p. apply bumped_disjoint; done.
      * intros p Hp. by inversion Hp.
      * apply Forall_insert; [done|]. simpl. unfold PAGE_SIZE. lia.
    + intros q. simpl. rewrite Hbr. split; [intros [Hq|[]]; [by inversion Hq|by split; [right|]]|].
      intros [[Hq|Hq] Hn]; [by inversion Hq|by right].
  - apply NoDup_cons in W3 as [N1 N2]. apply Forall_cons in W4 as [[P1 P2] P3].
    split_and!; [|by left; constructor|done|lia|lia|].
    + split; simpl; try done. intros p Hp. apply W5. by constructor.
    + intros q. simpl. rewrite elem_of_cons. split.
      * intros [Hq|Hq]; [split; [by left; right|congruence]|].
        split; [by right|]. intros ->. apply (W5 page); [by constructor|done].
      * intros [[[->|Hq]|Hq] Hn]; [done|by left|by right].
Qed.

(** ** Returning a page *)

Lemma free_spec a p :
  phys_wf a -> 0 < p < 4503599627370496 -> ~ available a p ->
  match free_page p a with
  | (a', true) => phys_wf a' /\ page_aligned p /\
      forall q, available a' q <-> available a q \/ q = p
  | (a', false) => a' = a /\ (~ page_aligned p \/ (FREE_PAGE_STACK_MAX <= free_count a)%nat)
  end.
Proof.
  intros Hw Hp Hn. pose proof Hw as [W1 W2 W3 W4 W5 W6]. unfold free_page.
  destruct (negb (Z.land p (PAGE_SIZE - 1) =? 0)) eqn:Ea; cbn [orb].
  { split; [done|]. left. rewrite <- aligned_mask. by apply negb_true_iff in Ea as ->. }
  apply negb_false_iff, aligned_mask in Ea.
  destruct (Nat.leb_spec FREE_PAGE_STACK_MAX (free_count a)); [by split; [|right]|].
  unfold available in *. split_and!; [|done|].
  - split; simpl; try done.
    + constructor; [|done]. intros Hin. apply Hn. by left.
    + by constructor.
    + intros q Hq. apply elem_of_cons in Hq as [->|Hq]; [|by apply W5].
      intros He. apply Hn. by right.
  - intros q. simpl. rewrite elem_of_cons. naive_solver.
Qed.

Lemma free_page_ok a p :
  page_aligned p -> (free_count a < FREE_PAGE_STACK_MAX)%nat ->
  free_page p a = ({| a with free_stack := p :: free_stack a;
                             allocated_pages := saturating_sub (allocated_pages a) 1 |}, true).
Proof.
  intros Ha Hc. unfold free_page. rewrite (proj2 (aligned_mask p) Ha). cbn [negb orb].
  by rewrite (proj2 (Nat.leb_gt _ _)).
Qed.

(** ** Start-up *)

(** Page [p] lies inside the usable part of a firmware descriptor. *)
Definition in_descriptor (d : EfiMemoryDescriptor) (p : Z) : Prop :=
  efi_typ d = 7 /\ page_aligned p /\ Z.max (physical_start d) APP_LOAD_MAX <= p /\
  p + PAGE_SIZE <= physical_start d + number_of_pages d * PAGE_SIZE.

(** A firmware map: descriptors below the address limit that do not overlap. *)
Record map_wf (l : list EfiMemoryDescriptor) : Prop := {
  mw_bounds : Forall (fun d => 0 <= physical_start d /\ 0 <= number_of_pages d /\
    physical_start d + number_of_pages d * PAGE_SIZE < 4503599627370496) l;
  mw_disjoint : forall i j d1 d2 p, l !! i = Some d1 -> l !! j = Some d2 ->
    in_descriptor d1 p -> in_descriptor d2 p -> i = j
}.

Lemma range_of_descriptor start end0 p :
  0 <= start < 4503599627370496 -> 0 <= end0 < 4503599627370496 ->
  in_range (mkPageRange (align_up_u64 start PAGE_SIZE) (align_down_u64 end0 PAGE_SIZE)) p <->
  page_aligned p /\ start <= p /\ p + PAGE_SIZE <= end0.
Proof.
  intros Hs He. unfold in_range, page_aligned. simpl.
  rewrite align_up_eq, align_down_eq by lia. unfold PAGE_SIZE. split.
  - intros [H1 H2]. split; [done|]. zlia.
  - intros (H1 & H2 & H3). split; [|done]. zlia.
Qed.

Lemma add_descriptor_ranges a d :
  0 <= physical_start d -> 0 <= number_of_pages d ->
  physical_start d + number_of_pages d * PAGE_SIZE < 4503599627370496 ->
  free_stack (add_descriptor a d) = free_stack a /\
  (ranges (add_descriptor a d) = ranges a \/
   exists r, ranges (add_descriptor a d) = ranges a ++ [r] /\
     page_aligned (next r) /\ page_aligned (end_ r) /\ 0 < next r < end_ r /\
     end_ r < 4503599627370496 /\ efi_typ d = 7 /\
     forall p, in_range r p <-> in_descriptor d p).
Proof.
  intros H1 H2 H3. unfold add_descriptor, in_descriptor.
  destruct (Z.eqb_spec (efi_typ d) 7) as [Ht|]; cbn [negb]; [|by split; [|left]].
  unfold PAGE_SIZE, APP_LOAD_MAX in *.
  rewrite (u64_small (number_of_pages d * 4096)) by (unfold is_u64; lia).
  rewrite (u64_small (physical_start d + _)) by (unfold is_u64; lia).
  set (end0 := physical_start d + _) in *.
  set (start := if physical_start d <? 150994944 then 150994944 else physical_start d).
  assert (Hs : start = Z.max (physical_start d) 150994944)
    by (subst start; destruct (Z.ltb_spec (physical_start d) 150994944); lia).
  clearbody start. unfold add_range, PAGE_SIZE.
  destruct (Z.leb_spec (align_down_u64 end0 4096) (align_up_u64 start 4096)); cbn [orb];
    [by split; [|left]|].
  destruct (Nat.leb _ _); [by split; [|left]|]. split; [done|right].
  eexists. split; [done|]. cbn [next end_].
  pose proof (align_up_eq start ltac:(lia)) as Hu. pose proof (align_down_eq end0 ltac:(lia)) as Hd.
  unfold PAGE_SIZE in Hu, Hd. split_and!.
  - rewrite Hu. unfold page_aligned, PAGE_SIZE. zlia.
  - rewrite Hd. unfold page_aligned, PAGE_SIZE. zlia.
  - rewrite Hu. zlia.
  - done.
  - rewrite Hd. zlia.
  - done.
  - intros p. pose proof (range_of_descriptor start end0 p ltac:(lia) ltac:(lia)) as Hr.
    unfold PAGE_SIZE in Hr. rewrite Hr. subst start. split; [|naive_solver].
    intros (P1 & P2 & P3). split_and!; try done; lia.
Qed.

(** The allocator after the descriptors [done]: its ranges come from distinct
    descriptors. *)
Definition built_from (ds : list EfiMemoryDescriptor) (a : PhysPageAllocator) : Prop :=
  phys_wf a /\ free_stack a = [] /\
  forall i r p, ranges a !! i = Some r -> in_range r p ->
    exists j d, ds !! j = Some d /\ in_descriptor d p.

Lemma built_step ds d a :
  map_wf (ds ++ [d]) -> built_from ds a -> built_from (ds ++ [d]) (add_descriptor a d).
Proof.
  intros [Hb Hdis] (Hw & Hs & Hfrom). pose proof Hw as [W1 W2 W3 W4 W5 W6].
  apply Forall_app in Hb as [_ Hb]. apply Forall_cons in Hb as [(B1 & B2 & B3) _].
  destruct (add_descriptor_ranges a d B1 B2 B3) as [E1 E2]. unfold built_from.
  rewrite E1. assert (Hold : forall i r p, ranges a !! i = Some r -> in_range r p ->
    exists j d0, (ds ++ [d]) !! j = Some d0 /\ in_descriptor d0 p /\ j <> length ds).
  { intros i r p Hi Hr. destruct (Hfrom i r p Hi Hr) as (j & d0 & Hj & Hd0). exists j, d0.
    pose proof (lookup_lt_Some _ _ _ Hj). rewrite lookup_app_l by done. split_and!; [done|done|lia]. }
  assert (Hlast : (ds ++ [d]) !! length ds = Some d) by (by rewrite lookup_app_r, Nat.sub_diag).
  destruct E2 as [E2|(r & E2 & A1 & A2 & A3 & A4 & A5 & A6)].
  - split_and!; [split; rewrite ?E1, ?E2; done|done|]. intros i r p. rewrite E2. intros Hi Hr.
    destruct (Hold i r p Hi Hr) as (j & d0 & ? & ? & _). eauto.
  - assert (Hlk : forall i x, (ranges a ++ [r]) !! i = Some x ->
      ranges a !! i = Some x \/ (i = length (ranges a) /\ x = r)).
    { intros i x Hi. apply lookup_app_Some in Hi as [Hi|[Hi Hx]]; [by left|right].
      apply list_lookup_singleton_Some in Hx as [Hx ->]. split; [lia|done]. }
    split_and!; [|done|].
    + split; rewrite ?E1, ?E2; try done.
      * apply Forall_app. split; [done|]. constructor; [|done]. split_and!; try done; lia.
      * intros i j r1 r2 p Hi Hj Hp1 Hp2. apply Hlk in Hi as [Hi|[-> ->]], Hj as [Hj|[-> ->]].
        -- by eapply W2.
        -- destruct (Hold i r1 p Hi Hp1) as (k & d0 & Hk & Hd0 & Hne). destruct Hne.
           apply (Hdis k (length ds) d0 d p); try done. by apply A6.
        -- destruct (Hold j r2 p Hj Hp2) as (k & d0 & Hk & Hd0 & Hne). destruct Hne.
           apply (Hdis k (length ds) d0 d p); try done. by apply A6.
        -- done.
      * intros p Hp. rewrite Hs in Hp. by inversion Hp.
      * apply Forall_app. split; [done|]. constructor; [lia|done].
    + intros i x p Hi Hp. rewrite E2 in Hi. apply Hlk in Hi as [Hi|[-> ->]].
      * destruct (Hold i x p Hi Hp) as (j & d0 & ? & ? & _). eauto.
      * exists (length ds), d. split; [done|]. by apply A6.
Qed.

Lemma init_spec l :
  map_wf l -> built_from l (init_physical_allocator (Some l)).
Proof.
  intros Hm. unfold init_physical_allocator.
  assert (H : forall ds rest a, ds ++ rest = l -> built_from ds a ->
    built_from l (fold_left add_descriptor rest a)).
  { intros ds rest. revert ds. induction rest as [|d rest IH]; intros ds a E Hb; simpl.
    - rewrite app_nil_r in E. by subst.
    - apply (IH (ds ++ [d])); [by rewrite <- app_assoc|]. apply built_step; [|done].
      destruct Hm as [M1 M2]. split.
      + rewrite <- E, cons_middle, app_assoc in M1. by apply Forall_app in M1 as [M1 _].
      + intros i j d1 d2 p Hi Hj. rewrite <- E, cons_middle, app_assoc in M2.
        apply (M2 i j); by apply lookup_app_l_Some. }
  apply (H [] l); [done|]. split_and!; [|done|intros i r p Hi; by (simpl in Hi; rewrite lookup_nil in Hi)].
  split; simpl; try constructor.
  - intros i j r1 r2 p Hi. by (simpl in Hi; rewrite lookup_nil in Hi).
  - intros p Hp. by inversion Hp.
Qed.

(** A page to hand out lies in a usable descriptor. *)
Lemma init_pages l p :
  map_wf l -> available (init_physical_allocator (Some l)) p -> exists d, d ∈ l /\ in_descriptor d p.
Proof.
  intros Hm. destruct (init_spec l Hm) as (_ & Hs & Hf). intros [Hp|Hp]; [rewrite Hs in Hp; by inversion Hp|].
  apply exists_lookup in Hp as (i & r & Hi & Hr). destruct (Hf i r p Hi Hr) as (j & d & Hj & Hd).
  exists d. split; [by eapply list_elem_of_lookup_2|done].
Qed.

(** ** Properties *)

(** Started from a firmware memory map whose usable descriptors do not
    overlap, the allocator is well-formed, and every page it can hand out is
    aligned, lies inside one usable descriptor, and is above the program image
    window. *)
Theorem init_allocator_sound l :
  map_wf l ->
  let a := init_physical_allocator (Some l) in
  phys_wf a /\
  forall p, available a p -> page_aligned p /\ APP_LOAD_MAX <= p /\
    exists d, d ∈ l /\ in_descriptor d p.
Proof.
  intros Hm a. destruct (init_spec l Hm) as (Hw & _ & _). split; [done|].
  intros p Hp. destruct (init_pages l p Hm Hp) as (d & Hd & Hin). pose proof Hin as (_ & D1 & D2 & _).
  split_and!; [done|lia|]. by exists d.
Qed.

(** C25: The allocator implements a set of free pages: on a well-formed
    allocator, [alloc_page] removes and returns an aligned page of the set and
    fails only when the set is empty; [free_page] of an aligned page outside the
    set adds it and fails only when the 4096-entry stack is full; both keep the
    allocator well-formed. *)
Theorem allocator_refines_set a p :
  phys_wf a -> 0 < p < 4503599627370496 -> page_aligned p -> ~ available a p ->
  match alloc_page a with
  | (a', Some q) => phys_wf a' /\ available a q /\ page_aligned q /\
      forall x, available a' x <-> available a x /\ x <> q
  | (a', None) => a' = a /\ forall x, ~ available a x
  end /\
  match free_page p a with
  | (a', true) => phys_wf a' /\ forall x, available a' x <-> available a x \/ x = p
  | (a', false) => a' = a /\ (FREE_PAGE_STACK_MAX <= free_count a)%nat
  end.
Proof.
  intros Hw Hp Ha Hn. split.
  - pose proof (alloc_spec a Hw) as H. destruct (alloc_page a) as [a' [q|]]; [naive_solver|done].
  - pose proof (free_spec a p Hw Hp Hn) as H. destruct (free_page p a) as [a' [|]]; naive_solver.
Qed.

Definition demo_map : list EfiMemoryDescriptor :=
  [mkEfi 7 0 160000; mkEfi 2 655360000 16; mkEfi 7 1073741824 1024].

Lemma demo_map_wf : map_wf demo_map.
Proof.
  split.
  - unfold demo_map, PAGE_SIZE. repeat constructor; simpl; lia.
  - intros i j d1 d2 p Hi Hj (T1 & _ & L1 & U1) (T2 & _ & L2 & U2).
    unfold demo_map, PAGE_SIZE in *.
    destruct i as [|[|[|i]]], j as [|[|[|j]]]; simplify_eq/=; try done; lia.
Defined.

Lemma init_allocator_sound_witness : phys_wf (init_physical_allocator (Some demo_map)).
Proof. apply (init_allocator_sound demo_map). exact demo_map_wf. Defined.

Lemma allocator_refines_set_witness :
  match alloc_page phys_empty with
  | (a', Some q) => phys_wf a' /\ available phys_empty q /\ page_aligned q /\
      forall x, available a' x <-> available phys_empty x /\ x <> q
  | (a', None) => a' = phys_empty /\ forall x, ~ available phys_empty x
  end /\
  match free_page 4096 phys_empty with
  | (a', true) => phys_wf a' /\ forall x, available a' x <-> available phys_empty x \/ x = 4096
  | (a', false) => a' = phys_empty /\ (FREE_PAGE_STACK_MAX <= free_count phys_empty)%nat
  end.
Proof.
  apply (allocator_refines_set phys_empty 4096); [|lia|reflexivity|].
  - exact (proj1 (init_spec [] ltac:(split; [constructor|intros ? ? ? ? ? H; inversion H]))).
  - intros [H|H]; inversion H.
Defined.

(** [free_page] does not check that the page is in use: returning a page
    twice makes two later allocations hand out the same page. *)
Theorem double_free_aliases a p :
  page_aligned p -> (free_count a + 2 <= FREE_PAGE_STACK_MAX)%nat ->
  let a1 := fst (free_page p (fst (free_page p a))) in
  let '(a2, r1) := alloc_page a1 in
  let '(_, r2) := alloc_page a2 in
  r1 = Some p /\ r2 = Some p.
Proof.
  intros Ha Hc. rewrite (free_page_ok a) by (done || lia). cbn [fst].
  rewrite free_page_ok by (done || (unfold free_count in *; simpl; lia)). done.
Qed.

Lemma double_free_aliases_witness :
  snd (alloc_page (fst (alloc_page
    (fst (free_page 8192 (fst (free_page 8192 phys_empty))))))) = Some 8192.
Proof.
  pose proof (double_free_aliases phys_empty 8192 ltac:(reflexivity)
    ltac:(apply Nat.leb_le; vm_compute; reflexivity)) as H.
  exact (proj2 H).
Defined.
