(* ===== verification/Paging.v ===== *)
(** * Page tables

    The page-table code of [src/kernel/src/main.rs] ([map_page] to
    [page_is_zeroed], the index functions, [reclaim_process_window_tables]).
    Physical memory is identity-mapped: a table is an array of 64-bit words at
    its physical address, and [vm_mem] is the word at an address. *)

From S2P Require Import Prelude Constants Text Phys.

Record Vm : Type := mkVm {
  PHYS_ALLOCATOR : PhysPageAllocator;
  vm_mem : arr;
  KERNEL_PML4_PHYS : Z;
  vm_cr3 : Z
}.

(** ** Indices of a virtual address *)

Definition pml4_index (virt : Z) : Z := Z.land (Z.shiftr virt 39) 0x1FF.
Definition pdpt_index (virt : Z) : Z := Z.land (Z.shiftr virt 30) 0x1FF.
Definition pd_index (virt : Z) : Z := Z.land (Z.shiftr virt 21) 0x1FF.
Definition pt_index (virt : Z) : Z := Z.land (Z.shiftr virt 12) 0x1FF.

(** ** Memory *)

Definition entry_at (mem : arr) (table index : Z) : Z := mem (table + 8 * index).

Definition set_entry_at (table index value : Z) (s : Vm) : Vm :=
  {| s with vm_mem := aset (vm_mem s) (table + 8 * index) value |}.

Definition present (entry : Z) : bool := negb (Z.land entry PAGE_PRESENT =? 0).
Definition huge (entry : Z) : bool := negb (Z.land entry PAGE_HUGE =? 0).

Definition copy_table (old new : Z) (s : Vm) : Vm :=
  {| s with vm_mem := fun a => if (new <=? a) && (a <? new + 8 * Z.of_nat PAGE_TABLE_ENTRIES)
                               then vm_mem s (old + (a - new)) else vm_mem s a |}.

(** [entry_ptr]'s table flags. *)
Definition table_entry (phys : Z) : Z :=
  Z.lor (Z.lor (Z.land phys PAGE_ADDR_MASK) PAGE_PRESENT) PAGE_WRITABLE.

Definition alloc_zeroed_page : ST Vm (option Z) := fun s =>
  match alloc_page (PHYS_ALLOCATOR s) with
  | (a, None) => ({| s with PHYS_ALLOCATOR := a |}, None)
  | (a, Some page) =>
      ({| s with PHYS_ALLOCATOR := a; vm_mem := fill_range (vm_mem s) page PAGE_SIZE 0 |},
       Some page)
  end.

Definition free_phys_page (phys : Z) : ST Vm bool := fun s =>
  let '(a, ok) := free_page phys (PHYS_ALLOCATOR s) in
  ({| s with PHYS_ALLOCATOR := a |}, ok).

Definition table_entry_address (table index : Z) : ST Vm (option Z) := fun s =>
  let entry := entry_at (vm_mem s) table index in
  (s, if negb (present entry) || huge entry then None else Some (Z.land entry PAGE_ADDR_MASK)).

Definition page_is_zeroed (page : Z) (s : Vm) : bool :=
  forallb (fun k => entry_at (vm_mem s) page (Z.of_nat k) =? 0) (seq 0 PAGE_TABLE_ENTRIES).

(** ** Mapping *)

Definition ensure_next_table (table index : Z) : ST Vm (option Z) := fun s =>
  let entry := entry_at (vm_mem s) table index in
  if present entry then
    if huge entry then (s, None) else (s, Some (Z.land entry PAGE_ADDR_MASK))
  else
    match alloc_zeroed_page s with
    | (s, None) => (s, None)
    | (s, Some next) => (set_entry_at table index (table_entry next) s, Some next)
    end.

Definition map_page (pml4_phys virt phys flags : Z) : ST Vm bool :=
  if (pml4_phys =? 0) || negb (Z.land virt (PAGE_SIZE - 1) =? 0)
     || negb (Z.land phys (PAGE_SIZE - 1) =? 0) then st_ret false
  else
    let* pdpt := ensure_next_table pml4_phys (pml4_index virt) in
    let? pdpt := pdpt else st_ret false in
    let* pd := ensure_next_table pdpt (pdpt_index virt) in
    let? pd := pd else st_ret false in
    let* pt := ensure_next_table pd (pd_index virt) in
    let? pt := pt else st_ret false in
    fun s =>
      if present (entry_at (vm_mem s) pt (pt_index virt)) then (s, false)
      else (set_entry_at pt (pt_index virt) (Z.lor (Z.land phys PAGE_ADDR_MASK) flags) s, true).

Definition unmap_page (pml4_phys virt : Z) : ST Vm (option Z) :=
  if (pml4_phys =? 0) || negb (Z.land virt (PAGE_SIZE - 1) =? 0) then st_ret None
  else
    let* pdpt := table_entry_address pml4_phys (pml4_index virt) in
    let? pdpt := pdpt else st_ret None in
    let* pd := table_entry_address pdpt (pdpt_index virt) in
    let? pd := pd else st_ret None in
    let* pt := table_entry_address pd (pd_index virt) in
    let? pt := pt else st_ret None in
    fun s =>
      let entry := entry_at (vm_mem s) pt (pt_index virt) in
      if negb (present entry) then (s, None)
      else (set_entry_at pt (pt_index virt) 0 s, Some (Z.land entry PAGE_ADDR_MASK)).

Fixpoint unmap_from (n : nat) (index : Z) (pml4_phys base reclaimed : Z) : ST Vm Z :=
  match n with
  | O => st_ret reclaimed
  | S n' =>
      let* r := unmap_page pml4_phys (u64 (base + index * PAGE_SIZE)) in
      match r with
      | None => unmap_from n' (index + 1) pml4_phys base reclaimed
      | Some phys =>
          if phys =? 0 then unmap_from n' (index + 1) pml4_phys base reclaimed
          else
            let* ok := free_phys_page phys in
            unmap_from n' (index + 1) pml4_phys base (if ok then reclaimed + 1 else reclaimed)
      end
  end.

Definition unmap_user_pages (pml4_phys base page_count : Z) : ST Vm Z :=
  unmap_from (Z.to_nat page_count) 0 pml4_phys base 0.

Fixpoint map_from (n : nat) (index : Z) (pml4_phys base : Z) : ST Vm bool :=
  match n with
  | O => st_ret true
  | S n' =>
      let* r := alloc_zeroed_page in
      match r with
      | None => do! unmap_user_pages pml4_phys base index in st_ret false
      | Some phys =>
          let* ok := map_page pml4_phys (u64 (base + index * PAGE_SIZE)) phys
                       (Z.lor PAGE_PRESENT PAGE_WRITABLE) in
          if negb ok then
            do! free_phys_page phys in
            do! unmap_user_pages pml4_phys base index in st_ret false
          else map_from n' (index + 1) pml4_phys base
      end
  end.

Definition map_user_pages (pml4_phys base page_count : Z) : ST Vm bool :=
  map_from (Z.to_nat page_count) 0 pml4_phys base.

Definition page_mapped (pml4_phys virt : Z) : ST Vm bool :=
  if (pml4_phys =? 0) || negb (Z.land virt (PAGE_SIZE - 1) =? 0) then st_ret false
  else
    let* pdpt := table_entry_address pml4_phys (pml4_index virt) in
    let? pdpt := pdpt else st_ret false in
    let* pd := table_entry_address pdpt (pdpt_index virt) in
    let? pd := pd else st_ret false in
    let* pt := table_entry_address pd (pd_index virt) in
    let? pt := pt else st_ret false in
    let* r := table_entry_address pt (pt_index virt) in
    st_ret (match r with Some _ => true | None => false end).

Fixpoint map_image_from (n : nat) (index : Z) (pml4_phys base : Z) : ST Vm bool :=
  match n with
  | O => st_ret true
  | S n' =>
      let virt := u64 (base + index * PAGE_SIZE) in
      let* mapped := page_mapped pml4_phys virt in
      if mapped : bool then map_image_from n' (index + 1) pml4_phys base
      else
        let* r := alloc_zeroed_page in
        match r with
        | None => st_ret false
        | Some phys =>
            let* ok := map_page pml4_phys virt phys (Z.lor PAGE_PRESENT PAGE_WRITABLE) in
            if negb ok then do! free_phys_page phys in st_ret false
            else map_image_from n' (index + 1) pml4_phys base
        end
  end.

Definition map_image_pages (pml4_phys base page_count : Z) : ST Vm bool :=
  map_image_from (Z.to_nat page_count) 0 pml4_phys base.

(** ** Address spaces *)

Definition clone_active_pml4 : ST Vm (option Z) := fun s =>
  let old_pml4 := Z.land (vm_cr3 s) 0x000FFFFFFFFFF000 in
  match alloc_zeroed_page s with
  | (s, None) => (s, None)
  | (s, Some new_pml4) => (copy_table old_pml4 new_pml4 s, Some new_pml4)
  end.

Definition ensure_kernel_pml4 : ST Vm (option Z) := fun s =>
  if negb (KERNEL_PML4_PHYS s =? 0) then (s, Some (KERNEL_PML4_PHYS s))
  else
    match clone_active_pml4 s with
    | (s, None) => (s, None)
    | (s, Some new_pml4) =>
        ({| s with KERNEL_PML4_PHYS := new_pml4; vm_cr3 := new_pml4 |}, Some new_pml4)
    end.

Definition heap_window (pid : Z) : Z := u64 (USER_HEAP_BASE + pid * USER_HEAP_STRIDE).
Definition mmap_window (pid : Z) : Z := u64 (USER_MMAP_BASE + pid * USER_MMAP_STRIDE).
Definition stack_window (pid : Z) : Z := u64 (KERNEL_STACK_BASE + pid * KERNEL_STACK_STRIDE).

Definition start_pd_index : Z := pd_index APP_LOAD_MIN.
Definition end_pd_index : Z := pd_index (APP_LOAD_MAX - PAGE_SIZE) + 1.

(** [for i in lo..hi { table[i] = 0 }] *)
Definition clear_entries (table lo hi : Z) (s : Vm) : Vm :=
  for_range lo hi (fun i => set_entry_at table i 0) s.

Definition create_process_address_space (pid : Z) : ST Vm (option Z) :=
  let* r := ensure_kernel_pml4 in
  let? kernel_pml4 := r else st_ret None in
  let* r := ensure_next_table kernel_pml4 (pml4_index (heap_window pid)) in
  let? _t := r else st_ret None in
  let* r := ensure_next_table kernel_pml4 (pml4_index (mmap_window pid)) in
  let? _t := r else st_ret None in
  let* r := ensure_next_table kernel_pml4 (pml4_index (stack_window pid)) in
  let? _t := r else st_ret None in
  let* r := alloc_zeroed_page in
  let? new_pml4 := r else st_ret None in
  do! (fun s => (copy_table kernel_pml4 new_pml4 s, tt)) in
  let pml4_idx := pml4_index APP_LOAD_MIN in
  let pdpt_idx := pdpt_index APP_LOAD_MIN in
  let* r := table_entry_address new_pml4 pml4_idx in
  let? shared_pdpt := r else (do! free_phys_page new_pml4 in st_ret None) in
  let* r := alloc_zeroed_page in
  let? new_pdpt := r else (do! free_phys_page new_pml4 in st_ret None) in
  do! (fun s => (copy_table shared_pdpt new_pdpt s, tt)) in
  let* r := table_entry_address new_pdpt pdpt_idx in
  let? shared_pd := r else
    (do! free_phys_page new_pdpt in do! free_phys_page new_pml4 in st_ret None) in
  let* r := alloc_zeroed_page in
  let? new_pd := r else
    (do! free_phys_page new_pdpt in do! free_phys_page new_pml4 in st_ret None) in
  fun s =>
    let s := copy_table shared_pd new_pd s in
    let s := clear_entries new_pd start_pd_index end_pd_index s in
    let s := set_entry_at new_pdpt pdpt_idx (table_entry new_pd) s in
    let s := set_entry_at new_pml4 pml4_idx (table_entry new_pdpt) s in
    (s, Some new_pml4).

(** [for i in lo..hi { if let Some(t) = table_entry_address(table, i) { f(i, t) } }] *)
Definition for_entries (table lo hi : Z) (f : Z -> Z -> Vm -> Vm) (s : Vm) : Vm :=
  for_range lo hi (fun i s =>
    match snd (table_entry_address table i s) with
    | Some t => f i t s
    | None => s
    end) s.

Definition free_page_ (phys : Z) (s : Vm) : Vm := fst (free_phys_page phys s).

Definition destroy_process_address_space (pml4_phys : Z) (s : Vm) : Vm :=
  if pml4_phys =? 0 then s
  else
    let s :=
      match snd (table_entry_address pml4_phys (pml4_index APP_LOAD_MIN) s) with
      | None => s
      | Some pdpt_phys =>
          let s :=
            match snd (table_entry_address pdpt_phys (pdpt_index APP_LOAD_MIN) s) with
            | None => s
            | Some pd_phys =>
                let s := for_entries pd_phys start_pd_index end_pd_index (fun _ pt_phys s =>
                  let s := for_entries pt_phys 0 (Z.of_nat PAGE_TABLE_ENTRIES)
                             (fun _ data_phys => free_page_ data_phys) s in
                  free_page_ pt_phys s) s in
                free_page_ pd_phys s
            end in
          free_page_ pdpt_phys s
      end in
    free_page_ pml4_phys s.

(** ** Kernel stacks *)

Definition create_process_stack (pid : Z) : ST Vm (option Z) :=
  let* r := ensure_kernel_pml4 in
  let? kernel_pml4 := r else st_ret None in
  let stack_top := u64 (stack_window pid + KERNEL_STACK_STRIDE) in
  let mapped_base := u64 (stack_top - KERNEL_STACK_PAGES * PAGE_SIZE) in
  let* ok := map_user_pages kernel_pml4 mapped_base KERNEL_STACK_PAGES in
  st_ret (if ok : bool then Some stack_top else None).

Definition reclaim_process_stack (pid : Z) (s : Vm) : Vm :=
  match ensure_kernel_pml4 s with
  | (s, None) => s
  | (s, Some kernel_pml4) =>
      let stack_base := stack_window pid in
      let stack_top := u64 (stack_base + KERNEL_STACK_STRIDE) in
      let mapped_base := u64 (stack_top - KERNEL_STACK_PAGES * PAGE_SIZE) in
      let s := fst (unmap_user_pages kernel_pml4 mapped_base KERNEL_STACK_PAGES s) in
      match snd (table_entry_address kernel_pml4 (pml4_index stack_base) s) with
      | None => s
      | Some pdpt_phys =>
          match snd (table_entry_address pdpt_phys (pdpt_index stack_base) s) with
          | None => s
          | Some pd_phys =>
              let pd_idx := pd_index stack_base in
              match snd (table_entry_address pd_phys pd_idx s) with
              | None => s
              | Some pt_phys => set_entry_at pd_phys pd_idx 0 (free_page_ pt_phys s)
              end
          end
      end
  end.

(** ** The table pages of the heap and mmap windows *)

Definition reclaim_process_window_tables (pid : Z) (s : Vm) : Vm :=
  let kernel_pml4 := KERNEL_PML4_PHYS s in
  if kernel_pml4 =? 0 then s
  else
    let heap_base := heap_window pid in
    let s :=
      match snd (table_entry_address kernel_pml4 (pml4_index heap_base) s) with
      | None => s
      | Some pdpt_phys =>
          match snd (table_entry_address pdpt_phys (pdpt_index heap_base) s) with
          | None => s
          | Some pd =>
              let start_pd := pd_index heap_base in
              let end_pd := start_pd + USER_HEAP_STRIDE / (2 * 1024 * 1024) in
              for_entries pd start_pd end_pd (fun pd_idx pt_phys s =>
                set_entry_at pd pd_idx 0 (free_page_ pt_phys s)) s
          end
      end in
    let mmap_base := mmap_window pid in
    match snd (table_entry_address kernel_pml4 (pml4_index mmap_base) s) with
    | None => s
    | Some pdpt_phys =>
        let pdpt_idx := pdpt_index mmap_base in
        match snd (table_entry_address pdpt_phys pdpt_idx s) with
        | None => s
        | Some pd =>
            let s := for_entries pd 0 (Z.of_nat PAGE_TABLE_ENTRIES)
                       (fun _ pt_phys => free_page_ pt_phys) s in
            let s := free_page_ pd s in
            set_entry_at pdpt_phys pdpt_idx 0 s
        end
    end.
