(* ===== verification/PagingThm.v ===== *)
(** * Page tables as a map from virtual pages to frames

    The walk through a four-level table, the well-formedness that keeps its
    tables from aliasing, and what mapping and unmapping a page change. *)

From S2P Require Import Prelude Constants Text Phys Paging.

(** ** Walks *)

Definition next_table (mem : arr) (table index : Z) : option Z :=
  let entry := entry_at mem table index in
  if negb (present entry) || huge entry then None else Some (Z.land entry PAGE_ADDR_MASK).

Fixpoint walk (mem : arr) (table : Z) (path : list Z) : option Z :=
  match path with
  | [] => Some table
  | i :: rest => let? t := next_table mem table i else None in walk mem t rest
  end.

(** The frame a leaf entry names. *)
Definition leaf (mem : arr) (root : Z) (path : list Z) (index : Z) : option Z :=
  let? pt := walk mem root path else None in
  let entry := entry_at mem pt index in
  if present entry then Some (Z.land entry PAGE_ADDR_MASK) else None.

Definition path_of (virt : Z) : list Z := [pml4_index virt; pdpt_index virt; pd_index virt].

(** The frame behind a virtual page. *)
Definition translate (s : Vm) (root virt : Z) : option Z :=
  leaf (vm_mem s) root (path_of virt) (pt_index virt).

Definition valid_index (i : Z) : Prop := 0 <= i < 512.

Definition valid_path (q : list Z) : Prop := (length q <= 3)%nat /\ Forall valid_index q.

Definition frame_ok (p : Z) : Prop := page_aligned p /\ 0 < p < 4503599627370496.

(** The tables under [root] are distinct pages that the allocator does not hold. *)
Record tables_wf (s : Vm) (root : Z) : Prop := {
  tw_alloc : phys_wf (PHYS_ALLOCATOR s);
  tw_page : forall q t, valid_path q -> walk (vm_mem s) root q = Some t ->
    frame_ok t /\ ~ available (PHYS_ALLOCATOR s) t;
  tw_inj : forall q1 q2 t, valid_path q1 -> valid_path q2 ->
    walk (vm_mem s) root q1 = Some t -> walk (vm_mem s) root q2 = Some t -> q1 = q2
}.

Lemma walk_snoc mem t q i :
  walk mem t (q ++ [i]) = let? u := walk mem t q else None in next_table mem u i.
Proof.
  revert t. induction q as [|j q IH]; intros t; simpl.
  - by destruct (next_table mem t i).
  - by destruct (next_table mem t j).
Qed.

Lemma walk_app mem t q1 q2 :
  walk mem t (q1 ++ q2) = let? u := walk mem t q1 else None in walk mem u q2.
Proof.
  revert t. induction q1 as [|j q IH]; intros t; simpl; [done|]. by destruct (next_table mem t j).
Qed.

Lemma walk_none_app mem t q1 q2 : walk mem t q1 = None -> walk mem t (q1 ++ q2) = None.
Proof. rewrite walk_app. by intros ->. Qed.

Lemma valid_snoc q i : valid_path (q ++ [i]) -> valid_path q /\ valid_index i.
Proof.
  intros [H1 [H2 H3]%Forall_app]. rewrite length_app in H1. simpl in H1.
  apply Forall_cons in H3 as [H3 _]. split; [split; [lia|done]|done].
Qed.

Lemma index_valid x n : valid_index (Z.land (Z.shiftr x n) 0x1FF).
Proof.
  change 0x1FF with (Z.ones 9). rewrite Z.land_ones by lia. apply Z.mod_pos_bound. lia.
Qed.

Lemma path_of_valid virt : valid_path (path_of virt) /\ valid_index (pt_index virt).
Proof.
  split; [split; [done|]|apply index_valid]. repeat constructor; apply index_valid.
Qed.

(** Entries of distinct tables do not overlap. *)
Lemma entry_inj t1 t2 i j :
  page_aligned t1 -> page_aligned t2 -> valid_index i -> valid_index j ->
  t1 + 8 * i = t2 + 8 * j -> t1 = t2 /\ i = j.
Proof. unfold page_aligned, PAGE_SIZE, valid_index. intros. zlia. Qed.

Lemma entry_set_same s t i v : entry_at (vm_mem (set_entry_at t i v s)) t i = v.
Proof. apply aset_same. Qed.

Lemma entry_set_other s t i v u j :
  page_aligned t -> page_aligned u -> valid_index i -> valid_index j -> (u, j) <> (t, i) ->
  entry_at (vm_mem (set_entry_at t i v s)) u j = entry_at (vm_mem s) u j.
Proof.
  intros H1 H2 H3 H4 Hne. refine (aset_other (vm_mem s) _ v _ _). intros E.
  destruct (entry_inj _ _ _ _ H1 H2 H3 H4 E). congruence.
Qed.

(** ** Table entries *)

Lemma mask_frame p : frame_ok p -> Z.land p PAGE_ADDR_MASK = p.
Proof.
  intros [Ha Hr]. change PAGE_ADDR_MASK with (Z.shiftl (Z.ones 40) 12).
  rewrite land_mask by lia. unfold page_aligned, PAGE_SIZE in Ha.
  change (2 ^ 12) with 4096. change (2 ^ 40) with 1099511627776.
  rewrite Z.mod_small by (split; [apply Z.div_pos; lia|apply Z.div_lt_upper_bound; lia]). zlia.
Qed.

(** An entry made of a frame and the flags [present | writable]. *)
Lemma entry_bits p : frame_ok p -> Z.lor p 3 = p + 3.
Proof.
  intros [Ha Hr]. unfold page_aligned, PAGE_SIZE in Ha.
  assert (E : p = Z.shiftl (p / 4096) 12).
  { rewrite Z.shiftl_mul_pow2 by lia. change (2 ^ 12) with 4096. zlia. }
  rewrite Z.lor_comm. transitivity (Z.lor 3 (Z.shiftl (p / 4096) 12)); [by rewrite <- E|].
  rewrite lor_shiftl_add by (change (2 ^ 12) with 4096; lia).
  change (2 ^ 12) with 4096. zlia.
Qed.

Lemma entry_fields p :
  frame_ok p ->
  present (p + 3) = true /\ huge (p + 3) = false /\ Z.land (p + 3) PAGE_ADDR_MASK = p.
Proof.
  intros Hp. pose proof Hp as [Ha Hr]. unfold page_aligned, PAGE_SIZE in Ha.
  unfold present, huge, PAGE_PRESENT, PAGE_HUGE. split_and!.
  - change 1 with (Z.ones 1). rewrite Z.land_ones by lia. change (2 ^ 1) with 2.
    apply negb_true_iff, Z.eqb_neq. zlia.
  - change 128 with (Z.shiftl (Z.ones 1) 7). rewrite land_mask by lia.
    change (2 ^ 7) with 128. change (2 ^ 1) with 2. apply negb_false_iff, Z.eqb_eq. zlia.
  - change PAGE_ADDR_MASK with (Z.shiftl (Z.ones 40) 12). rewrite land_mask by lia.
    change (2 ^ 12) with 4096. change (2 ^ 40) with 1099511627776.
    rewrite Z.mod_small; [zlia|]. split; [apply Z.div_pos; lia|apply Z.div_lt_upper_bound; [lia|zlia]].
Qed.

Lemma table_entry_eq p : frame_ok p -> table_entry p = p + 3.
Proof.
  intros Hp. unfold table_entry. rewrite mask_frame by done.
  rewrite <- Z.lor_assoc. change (Z.lor PAGE_PRESENT PAGE_WRITABLE) with 3. by apply entry_bits.
Qed.

Lemma next_table_entry mem t i n :
  frame_ok n -> entry_at mem t i = table_entry n -> next_table mem t i = Some n.
Proof.
  intros Hn E. unfold next_table. rewrite E, table_entry_eq by done.
  by destruct (entry_fields n Hn) as (-> & -> & ->).
Qed.

Lemma next_table_zero mem t i : entry_at mem t i = 0 -> next_table mem t i = None.
Proof. intros E. unfold next_table. by rewrite E. Qed.

Lemma next_table_same mem mem' t i :
  entry_at mem' t i = entry_at mem t i -> next_table mem' t i = next_table mem t i.
Proof. unfold next_table. by intros ->. Qed.

(** ** Adding a table *)

Section AddTable.

Context (mem mem' : arr) (root t n i : Z) (p : list Z).
Context (Hp : valid_path (p ++ [i])) (Hwp : walk mem root p = Some t).
Context (Habs : next_table mem t i = None).
Context (Hother : forall q u j, valid_path q -> valid_index j -> walk mem root q = Some u ->
  (q, j) <> (p, i) -> entry_at mem' u j = entry_at mem u j).
Context (Hnew : next_table mem' t i = Some n).
Context (Hzero : forall j, valid_index j -> entry_at mem' n j = 0).

Lemma walk_old q : valid_path q -> ~ (p ++ [i]) `prefix_of` q -> walk mem' root q = walk mem root q.
Proof using Hother Hp Hwp.
  induction q as [|j q IH] using rev_ind; [done|]. intros Hv Hn.
  destruct (valid_snoc _ _ Hv) as [Hvq Hj]. rewrite !walk_snoc.
  rewrite IH by (done || (intros [k ->]; apply Hn; exists (k ++ [j]); by rewrite app_assoc)).
  destruct (walk mem root q) as [u|] eqn:Eq; [|done]. apply next_table_same.
  apply (Hother q); try done. intros [= -> ->]. by apply Hn.
Qed.

Lemma walk_new : walk mem' root (p ++ [i]) = Some n.
Proof using Hother Hp Hwp Hnew.
  destruct (valid_snoc _ _ Hp) as [Hvp Hi]. rewrite walk_snoc, walk_old, Hwp; [done|done|].
  intros Hpre%prefix_length. rewrite length_app in Hpre. simpl in Hpre. lia.
Qed.

Lemma walk_below j k : valid_index j -> walk mem' root ((p ++ [i]) ++ j :: k) = None.
Proof using Hother Hp Hwp Hnew Hzero.
  intros Hj. rewrite walk_app, walk_new. simpl. by rewrite next_table_zero by auto.
Qed.

Lemma walk_cases q x :
  valid_path q -> walk mem' root q = Some x ->
  (q = p ++ [i] /\ x = n) \/ walk mem root q = Some x.
Proof using Hother Hp Hwp Hnew Hzero.
  intros Hv Hx. destruct (decide ((p ++ [i]) `prefix_of` q)) as [[[|j k] ->]|Hn].
  - left. rewrite app_nil_r in *. split; [done|]. rewrite walk_new in Hx. congruence.
  - rewrite walk_below in Hx; [done|]. destruct Hv as [_ [_ Hv]%Forall_app].
    by apply Forall_cons in Hv as [? _].
  - right. by rewrite <- walk_old.
Qed.

Lemma leaf_same q j :
  valid_path q -> length q = 3%nat -> valid_index j -> leaf mem' root q j = leaf mem root q j.
Proof using Hother Hp Hwp Habs Hnew Hzero.
  intros Hv Hlen Hj. unfold leaf. destruct (decide ((p ++ [i]) `prefix_of` q)) as [[k ->]|Hn].
  - assert (Hold : walk mem root ((p ++ [i]) ++ k) = None).
    { apply walk_none_app. by rewrite walk_snoc, Hwp. }
    rewrite Hold. destruct k as [|x k].
    + rewrite app_nil_r, walk_new, Hzero by done. done.
    + destruct Hv as [_ [_ Hv]%Forall_app]. apply Forall_cons in Hv as [Hx _].
      by rewrite walk_below.
  - rewrite walk_old by done. destruct (walk mem root q) as [u|] eqn:Eq; [|done].
    rewrite (Hother q u j); try done. intros [= -> ->].
    destruct Hp as [Hl _]. rewrite length_app in Hl. simpl in *. lia.
Qed.

End AddTable.

(** ** [ensure_next_table] *)

(** A page that is in use and not a table under [root]. *)
Record data_page (s : Vm) (root f : Z) : Prop := {
  dp_frame : frame_ok f;
  dp_used : ~ available (PHYS_ALLOCATOR s) f;
  dp_table : forall q, valid_path q -> walk (vm_mem s) root q <> Some f
}.

Definition same_page (s s' : Vm) (f : Z) : Prop :=
  forall k, 0 <= k < PAGE_SIZE -> vm_mem s' (f + k) = vm_mem s (f + k).

(** The entries of the top-level table that are present stay as they are. *)
Definition top_kept (root : Z) (s s' : Vm) : Prop :=
  forall i, valid_index i -> present (entry_at (vm_mem s) root i) = true ->
    entry_at (vm_mem s') root i = entry_at (vm_mem s) root i.

Lemma top_kept_trans root s1 s2 s3 : top_kept root s1 s2 -> top_kept root s2 s3 -> top_kept root s1 s3.
Proof. intros H1 H2 i Hi Hp. rewrite H2; [by apply H1|done|by rewrite H1]. Qed.

(** What a change to the tables under [root] keeps: well-formedness, the walks
    there were, every translation; it only takes pages from the allocator. *)
Record tables_step (root : Z) (s s' : Vm) : Prop := {
  ts_wf : tables_wf s' root;
  ts_walk : forall q x, valid_path q -> walk (vm_mem s) root q = Some x ->
    walk (vm_mem s') root q = Some x;
  ts_leaf : forall q j, valid_path q -> length q = 3%nat -> valid_index j ->
    leaf (vm_mem s') root q j = leaf (vm_mem s) root q j;
  ts_avail : forall x, available (PHYS_ALLOCATOR s') x -> available (PHYS_ALLOCATOR s) x;
  ts_data : forall f, data_page s root f -> data_page s' root f /\ same_page s s' f;
  ts_cr3 : vm_cr3 s' = vm_cr3 s;
  ts_top : top_kept root s s'
}.

Lemma tables_step_refl root s : tables_wf s root -> tables_step root s s.
Proof. by split. Qed.

Lemma tables_step_trans root s1 s2 s3 :
  tables_step root s1 s2 -> tables_step root s2 s3 -> tables_step root s1 s3.
Proof.
  intros [A1 A2 A3 A4 A5 A6 A7] [B1 B2 B3 B4 B5 B6 B7].
  split; [done|auto| |auto| |congruence|by eapply top_kept_trans].
  - intros q j H1 H2 H3. by rewrite B3, A3.
  - intros f [Hf E1]%A5. destruct (B5 f Hf) as [Hf' E2]. split; [done|].
    intros k Hk. by rewrite E2, E1.
Qed.

Lemma pages_disjoint n u j :
  page_aligned n -> page_aligned u -> u <> n -> valid_index j ->
  u + 8 * j < n \/ n + PAGE_SIZE <= u + 8 * j.
Proof. unfold page_aligned, PAGE_SIZE, valid_index. intros. zlia. Qed.

Lemma page_disjoint_byte n f k :
  page_aligned n -> page_aligned f -> f <> n -> 0 <= k < PAGE_SIZE ->
  f + k < n \/ n + PAGE_SIZE <= f + k.
Proof. unfold page_aligned, PAGE_SIZE. intros. zlia. Qed.

(** Setting an entry of one table changes no other page. *)
Lemma set_entry_page t i v s f k :
  page_aligned t -> page_aligned f -> f <> t -> valid_index i -> 0 <= k < PAGE_SIZE ->
  vm_mem (set_entry_at t i v s) (f + k) = vm_mem s (f + k).
Proof.
  intros Ht Hf Hne Hi Hk. apply aset_other. unfold page_aligned, PAGE_SIZE, valid_index in *. zlia.
Qed.

(** The entries after a zeroed page was linked into a table. *)
Lemma linked_entries s root p i t n a' :
  tables_wf s root -> valid_path (p ++ [i]) -> walk (vm_mem s) root p = Some t -> frame_ok n ->
  (forall q u, valid_path q -> walk (vm_mem s) root q = Some u -> u <> n) ->
  let s1 := {| s with PHYS_ALLOCATOR := a'; vm_mem := fill_range (vm_mem s) n PAGE_SIZE 0 |} in
  let s' := set_entry_at t i (table_entry n) s1 in
  (forall q u j, valid_path q -> valid_index j -> walk (vm_mem s) root q = Some u ->
    (q, j) <> (p, i) -> entry_at (vm_mem s') u j = entry_at (vm_mem s) u j) /\
  next_table (vm_mem s') t i = Some n /\
  (forall j, valid_index j -> entry_at (vm_mem s') n j = 0).
Proof.
  intros Hwf Hv Hw Hn Hfresh s1 s'. destruct (valid_snoc _ _ Hv) as [Hvp Hi].
  destruct (tw_page _ _ Hwf p t Hvp Hw) as [[Hta _] _]. pose proof Hn as [Han _]. split_and!.
  - intros q u j Hq Hj Hu Hne. destruct (tw_page _ _ Hwf q u Hq Hu) as [[Hua _] _].
    unfold s'. rewrite entry_set_other; try done.
    + refine (fill_out (vm_mem s) _ _ _ _ _). apply pages_disjoint; try done. by eapply Hfresh.
    + intros [= -> ->]. apply Hne. f_equal. by apply (tw_inj _ _ Hwf q p t).
  - apply next_table_entry; [done|]. unfold s'. by rewrite entry_set_same.
  - intros j Hj. unfold s'. rewrite entry_set_other; try done.
    + refine (fill_in (vm_mem s) _ _ _ _ _). unfold valid_index, PAGE_SIZE in *. lia.
    + intros [= E _]. by apply (Hfresh p t).
Qed.

Lemma add_table_step s root p i t n a' :
  tables_wf s root -> valid_path (p ++ [i]) -> walk (vm_mem s) root p = Some t ->
  present (entry_at (vm_mem s) t i) = false -> alloc_page (PHYS_ALLOCATOR s) = (a', Some n) ->
  let s1 := {| s with PHYS_ALLOCATOR := a'; vm_mem := fill_range (vm_mem s) n PAGE_SIZE 0 |} in
  let s' := set_entry_at t i (table_entry n) s1 in
  tables_step root s s' /\ walk (vm_mem s') root (p ++ [i]) = Some n.
Proof.
  intros Hwf Hv Hw Hnp Ea s1 s'. destruct (valid_snoc _ _ Hv) as [Hvp Hi].
  assert (Habs : next_table (vm_mem s) t i = None) by (unfold next_table; by rewrite Hnp).
  pose proof (alloc_spec _ (tw_alloc _ _ Hwf)) as Hal. rewrite Ea in Hal.
  destruct Hal as (Hwf' & Hav & Han & Hnr & Hav').
  assert (Hn : frame_ok n) by by split.
  destruct (tw_page _ _ Hwf p t Hvp Hw) as [[Hta _] Htn].
  assert (Hfresh : forall q u, valid_path q -> walk (vm_mem s) root q = Some u -> u <> n).
  { intros q u Hq Hu ->. by destruct (tw_page _ _ Hwf q n Hq Hu). }
  destruct (linked_entries s root p i t n a' Hwf Hv Hw Hn Hfresh) as (Hold & Hnew & Hzero).
  fold s1 in Hold, Hnew, Hzero. fold s' in Hold, Hnew, Hzero.
  assert (Hcases : forall q x, valid_path q -> walk (vm_mem s') root q = Some x ->
    (q = p ++ [i] /\ x = n) \/ walk (vm_mem s) root q = Some x).
  { intros q x. by apply (walk_cases (vm_mem s) (vm_mem s') root t n i p). }
  assert (Hwn : walk (vm_mem s') root (p ++ [i]) = Some n) by by apply (walk_new (vm_mem s) _ root t).
  split; [|done]. split.
  - split; [done| |].
    + intros q x Hq Hx. change (PHYS_ALLOCATOR s') with a'. rewrite Hav'.
      destruct (Hcases q x Hq Hx) as [[-> ->]|Ho]; [split; [done|naive_solver]|].
      destruct (tw_page _ _ Hwf q x Hq Ho). split; [done|naive_solver].
    + intros q1 q2 x H1 H2 E1 E2.
      destruct (Hcases q1 x H1 E1) as [[-> X1]|O1], (Hcases q2 x H2 E2) as [[-> X2]|O2]; try done.
      * by destruct (Hfresh q2 x).
      * by destruct (Hfresh q1 x).
      * by apply (tw_inj _ _ Hwf q1 q2 x).
  - intros q x Hq Hx. rewrite (walk_old (vm_mem s) _ root t i p); try done. intros [k ->].
    rewrite walk_none_app in Hx; [done|]. by rewrite walk_snoc, Hw.
  - intros q j. by apply (leaf_same (vm_mem s) _ root t n i p).
  - intros x. change (PHYS_ALLOCATOR s') with a'. rewrite Hav'. naive_solver.
  - intros f [[Hfa Hfr] Hu Ht]. assert (Hfn : f <> n) by (intros ->; done).
    assert (Hft : f <> t) by (intros ->; by apply (Ht p)). split; [split; [done| |]|].
    + change (PHYS_ALLOCATOR s') with a'. rewrite Hav'. by intros [? _].
    + intros q Hq Hx. destruct (Hcases q f Hq Hx) as [[_ E]|E]; [done|by apply (Ht q)].
    + intros k Hk. unfold s'. rewrite set_entry_page by done.
      refine (fill_out (vm_mem s) _ _ _ _ _). by apply page_disjoint_byte.
  - reflexivity.
  - intros j Hj Hpj. apply (Hold [] root j); [split; [simpl; lia|by constructor]|done|done|].
    intros [= <- <-]. simpl in Hw. injection Hw as <-. congruence.
Qed.

Lemma ensure_spec s root p i t :
  tables_wf s root -> valid_path (p ++ [i]) -> walk (vm_mem s) root p = Some t ->
  let '(s', r) := ensure_next_table t i s in
  tables_step root s s' /\
  (forall n, r = Some n -> walk (vm_mem s') root (p ++ [i]) = Some n).
Proof.
  intros Hwf Hv Hw. unfold ensure_next_table.
  destruct (present (entry_at (vm_mem s) t i)) eqn:Ep.
  - destruct (huge (entry_at (vm_mem s) t i)) eqn:Eh.
    + split; [by apply tables_step_refl|done].
    + split; [by apply tables_step_refl|]. intros n [= <-]. rewrite walk_snoc, Hw.
      unfold next_table. by rewrite Ep, Eh.
  - unfold alloc_zeroed_page. destruct (alloc_page (PHYS_ALLOCATOR s)) as [a' [n|]] eqn:Ea.
    + destruct (add_table_step s root p i t n a' Hwf Hv Hw Ep Ea) as [H1 H2].
      split; [done|]. by intros m [= <-].
    + pose proof (alloc_spec _ (tw_alloc _ _ Hwf)) as Hal. rewrite Ea in Hal.
      destruct Hal as [-> _]. split; [|done]. destruct s. by apply tables_step_refl.
Qed.

(** ** Leaf entries *)

(** A path of full length names a page table, whose entries no walk reads. *)
Lemma leaf_set_walk s root p t i v q :
  tables_wf s root -> valid_path p -> length p = 3%nat -> walk (vm_mem s) root p = Some t ->
  valid_index i -> valid_path q ->
  walk (vm_mem (set_entry_at t i v s)) root q = walk (vm_mem s) root q.
Proof.
  intros Hwf Hp Hlen Hw Hi. induction q as [|j q IH] using rev_ind; [done|]. intros Hv.
  destruct (valid_snoc _ _ Hv) as [Hvq Hj]. rewrite !walk_snoc, IH by done.
  destruct (walk (vm_mem s) root q) as [u|] eqn:Eq; [|done]. apply next_table_same.
  destruct (tw_page _ _ Hwf p t Hp Hw) as [[Hta _] _].
  destruct (tw_page _ _ Hwf q u Hvq Eq) as [[Hua _] _].
  apply entry_set_other; try done. intros [= -> ->].
  assert (q = p) as -> by by apply (tw_inj _ _ Hwf _ _ t).
  destruct Hv as [Hl _]. rewrite length_app in Hl. simpl in Hl. lia.
Qed.

Lemma leaf_set_wf s root p t i v :
  tables_wf s root -> valid_path p -> length p = 3%nat -> walk (vm_mem s) root p = Some t ->
  valid_index i -> tables_wf (set_entry_at t i v s) root.
Proof.
  intros Hwf Hp Hlen Hw Hi.
  assert (E : forall q, valid_path q -> walk (vm_mem (set_entry_at t i v s)) root q =
    walk (vm_mem s) root q) by (intros q Hq; by apply (leaf_set_walk s root p t)).
  split; [exact (tw_alloc _ _ Hwf)| |].
  - intros q x Hq Hx. rewrite E in Hx by done. by apply (tw_page _ _ Hwf q x).
  - intros q1 q2 x H1 H2. rewrite !E by done. by apply (tw_inj _ _ Hwf).
Qed.

Definition entry_frame (entry : Z) : option Z :=
  if present entry then Some (Z.land entry PAGE_ADDR_MASK) else None.

Lemma leaf_set_leaf s root p t i v q j :
  tables_wf s root -> valid_path p -> length p = 3%nat -> walk (vm_mem s) root p = Some t ->
  valid_index i -> valid_path q -> valid_index j ->
  leaf (vm_mem (set_entry_at t i v s)) root q j =
  if decide ((q, j) = (p, i)) then entry_frame v else leaf (vm_mem s) root q j.
Proof.
  intros Hwf Hp Hlen Hw Hi Hq Hj. unfold leaf.
  rewrite (leaf_set_walk s root p t) by done. case_decide as Hd.
  - injection Hd as -> ->. rewrite Hw, entry_set_same. done.
  - destruct (walk (vm_mem s) root q) as [u|] eqn:Eq; [|done].
    destruct (tw_page _ _ Hwf p t Hp Hw) as [[Hta _] _].
    destruct (tw_page _ _ Hwf q u Hq Eq) as [[Hua _] _].
    rewrite entry_set_other; try done. intros [= -> ->]. apply Hd. f_equal.
    by apply (tw_inj _ _ Hwf q p t).
Qed.

(** ** Virtual page numbers *)

(** The 36 bits of an address that the walk reads. *)
Definition vpn (virt : Z) : Z := Z.land (Z.shiftr virt 12) (Z.ones 36).

Lemma vpn_digits virt :
  vpn virt = pt_index virt + 512 * (pd_index virt + 512 * (pdpt_index virt + 512 * pml4_index virt)).
Proof.
  unfold vpn, pt_index, pd_index, pdpt_index, pml4_index. change 0x1FF with (Z.ones 9).
  rewrite !Z.land_ones by lia. rewrite !Z.shiftr_div_pow2 by lia.
  change (2 ^ 36) with 68719476736. change (2 ^ 9) with 512. change (2 ^ 12) with 4096.
  change (2 ^ 21) with 2097152. change (2 ^ 30) with 1073741824. change (2 ^ 39) with 549755813888.
  zlia.
Qed.

Lemma vpn_path v1 v2 :
  vpn v1 = vpn v2 <-> (path_of v1, pt_index v1) = (path_of v2, pt_index v2).
Proof.
  split.
  - rewrite !vpn_digits. unfold path_of.
    assert (H : forall v n, valid_index (Z.land (Z.shiftr v n) 0x1FF)) by (intros; apply index_valid).
    pose proof (H v1 12). pose proof (H v1 21). pose proof (H v1 30). pose proof (H v1 39).
    pose proof (H v2 12). pose proof (H v2 21). pose proof (H v2 30). pose proof (H v2 39).
    unfold valid_index in *. fold (pt_index v1) (pd_index v1) (pdpt_index v1) (pml4_index v1) in *.
    fold (pt_index v2) (pd_index v2) (pdpt_index v2) (pml4_index v2) in *. intros.
    clear H. assert (pt_index v1 = pt_index v2) as -> by lia.
    assert (pd_index v1 = pd_index v2) as -> by lia.
    assert (pdpt_index v1 = pdpt_index v2) as -> by lia.
    by assert (pml4_index v1 = pml4_index v2) as -> by lia.
  - unfold path_of. intros [= H1 H2 H3 H4]. by rewrite !vpn_digits, H1, H2, H3, H4.
Qed.

(** ** Mapping and unmapping a page *)

Lemma translate_vpn s root v w : vpn v = vpn w -> translate s root v = translate s root w.
Proof.
  intros E%vpn_path. unfold translate. pose proof (f_equal fst E) as E1.
  pose proof (f_equal snd E) as E2. cbn [fst snd] in E1, E2. by rewrite E1, E2.
Qed.

Lemma tables_step_translate root s s' v :
  tables_step root s s' -> translate s' root v = translate s root v.
Proof. intros H. destruct (path_of_valid v) as [Hv Hi]. by apply (ts_leaf _ _ _ H). Qed.

Lemma root_nonzero s root : tables_wf s root -> (root =? 0) = false.
Proof.
  intros Hwf. destruct (tw_page _ _ Hwf [] root) as [[_ H] _]; [split; [simpl; lia|auto]|done|].
  destruct (Z.eqb_spec root 0); [lia|done].
Qed.

(** The walk that [map_page] does, as one step of the tables. *)
Definition ensure_path (root virt : Z) : ST Vm (option Z) :=
  let* pdpt := ensure_next_table root (pml4_index virt) in
  let? pdpt := pdpt else st_ret None in
  let* pd := ensure_next_table pdpt (pdpt_index virt) in
  let? pd := pd else st_ret None in
  ensure_next_table pd (pd_index virt).

Lemma ensure_path_spec s root virt :
  tables_wf s root ->
  let '(s', r) := ensure_path root virt s in
  tables_step root s s' /\
  (forall pt, r = Some pt -> walk (vm_mem s') root (path_of virt) = Some pt).
Proof.
  intros Hwf. unfold ensure_path, st_bind.
  destruct (path_of_valid virt) as [V3 _]. unfold path_of in *.
  destruct (valid_snoc [pml4_index virt; pdpt_index virt] _ V3) as [V2 _].
  destruct (valid_snoc [pml4_index virt] _ V2) as [V1 _].
  pose proof (ensure_spec s root [] (pml4_index virt) root Hwf V1 eq_refl) as H1.
  destruct (ensure_next_table root _ s) as [s1 [pdpt|]], H1 as [S1 W1]; [|done].
  pose proof (ensure_spec s1 root [pml4_index virt] (pdpt_index virt) pdpt (ts_wf _ _ _ S1) V2
    (W1 _ eq_refl)) as H2.
  destruct (ensure_next_table pdpt _ s1) as [s2 [pd|]], H2 as [S2 W2];
    [|split; [by apply (tables_step_trans _ _ s1)|done]].
  pose proof (ensure_spec s2 root [pml4_index virt; pdpt_index virt] (pd_index virt) pd
    (ts_wf _ _ _ S2) V3 (W2 _ eq_refl)) as H3.
  destruct (ensure_next_table pd _ s2) as [s3 r], H3 as [S3 W3].
  split; [|by intros pt E; apply W3].
  apply (tables_step_trans _ _ s1); [done|]. by apply (tables_step_trans _ _ s2).
Qed.

Lemma map_page_path s root virt phys flags :
  map_page root virt phys flags s =
  if (root =? 0) || negb (Z.land virt (PAGE_SIZE - 1) =? 0)
     || negb (Z.land phys (PAGE_SIZE - 1) =? 0) then (s, false)
  else
    let '(s1, r) := ensure_path root virt s in
    match r with
    | None => (s1, false)
    | Some pt =>
        if present (entry_at (vm_mem s1) pt (pt_index virt)) then (s1, false)
        else (set_entry_at pt (pt_index virt) (Z.lor (Z.land phys PAGE_ADDR_MASK) flags) s1, true)
    end.
Proof.
  unfold map_page, ensure_path, st_bind, st_ret. case_goal; [done|].
  destruct (ensure_next_table root _ s) as [s1 [pdpt|]]; [|done].
  destruct (ensure_next_table pdpt _ s1) as [s2 [pd|]]; [|done].
  by destruct (ensure_next_table pd _ s2) as [s3 [pt|]].
Qed.

Lemma land_page_0 p : page_aligned p -> (Z.land p (PAGE_SIZE - 1) =? 0) = true.
Proof. apply aligned_mask. Qed.

(** The flags every caller in the kernel passes. *)
Definition rw_flags : Z := Z.lor PAGE_PRESENT PAGE_WRITABLE.

Lemma entry_frame_rw phys :
  frame_ok phys -> entry_frame (Z.lor (Z.land phys PAGE_ADDR_MASK) rw_flags) = Some phys.
Proof.
  intros H. rewrite mask_frame by done. change rw_flags with 3. rewrite entry_bits by done.
  unfold entry_frame. destruct (entry_fields phys H) as (-> & _ & ->). done.
Qed.

Lemma walk_leaf s root virt pt :
  walk (vm_mem s) root (path_of virt) = Some pt ->
  translate s root virt = entry_frame (entry_at (vm_mem s) pt (pt_index virt)).
Proof. unfold translate, leaf. by intros ->. Qed.

Lemma set_translate s root virt pt v w :
  tables_wf s root -> walk (vm_mem s) root (path_of virt) = Some pt ->
  translate (set_entry_at pt (pt_index virt) v s) root w =
  if decide (vpn w = vpn virt) then entry_frame v else translate s root w.
Proof.
  intros Hwf Hw. destruct (path_of_valid virt) as [Hv Hi], (path_of_valid w) as [Hv' Hi'].
  unfold translate at 1. rewrite (leaf_set_leaf s root (path_of virt)) by done.
  do 2 case_decide; try done; by rewrite vpn_path in *.
Qed.

Lemma map_spec s root virt phys :
  tables_wf s root -> frame_ok phys ->
  let '(s', ok) := map_page root virt phys rw_flags s in
  tables_wf s' root /\
  (ok = true -> translate s root virt = None) /\
  (forall x, available (PHYS_ALLOCATOR s') x -> available (PHYS_ALLOCATOR s) x) /\
  (forall w, translate s' root w =
    if (ok : bool) && bool_decide (vpn w = vpn virt) then Some phys else translate s root w).
Proof.
  intros Hwf Hp. rewrite map_page_path, (root_nonzero s root Hwf).
  rewrite (land_page_0 phys) by apply Hp. simpl.
  case_goal; [done|]. pose proof (ensure_path_spec s root virt Hwf) as H.
  destruct (ensure_path root virt s) as [s1 [pt|]], H as [S1 W].
  2:{ split_and!; [by apply (ts_wf _ _ _ S1)|done|by apply (ts_avail _ _ _ S1)|].
      intros w. by apply tables_step_translate. }
  specialize (W pt eq_refl). pose proof (ts_wf _ _ _ S1) as Hwf1.
  destruct (present (entry_at (vm_mem s1) pt (pt_index virt))) eqn:Epr.
  { split_and!; [done|done|by apply (ts_avail _ _ _ S1)|].
    intros w. by apply tables_step_translate. }
  destruct (path_of_valid virt) as [Hv Hi]. split_and!.
  - by apply (leaf_set_wf s1 root (path_of virt)).
  - intros _. rewrite <- (tables_step_translate _ _ _ virt S1), (walk_leaf s1 root virt pt W).
    unfold entry_frame. by rewrite Epr.
  - by apply (ts_avail _ _ _ S1).
  - intros w. rewrite (set_translate s1), entry_frame_rw by done.
    rewrite <- (tables_step_translate _ _ _ w S1). simpl.
    by destruct (decide (vpn w = vpn virt)); [rewrite bool_decide_true|rewrite bool_decide_false].
Qed.

(** [map_page] and the pages that are not its business. *)
Lemma map_keeps_data s root virt phys :
  tables_wf s root -> frame_ok phys ->
  let s' := fst (map_page root virt phys rw_flags s) in
  vm_cr3 s' = vm_cr3 s /\ forall f, data_page s root f -> data_page s' root f /\ same_page s s' f.
Proof.
  intros Hwf Hp. rewrite map_page_path, (root_nonzero s root Hwf).
  rewrite (land_page_0 phys) by apply Hp. simpl.
  case_goal; [by split|]. pose proof (ensure_path_spec s root virt Hwf) as H.
  destruct (ensure_path root virt s) as [s1 [pt|]], H as [S1 W];
    [|split; [apply (ts_cr3 _ _ _ S1)|apply (ts_data _ _ _ S1)]].
  specialize (W pt eq_refl). pose proof (ts_wf _ _ _ S1) as Hwf1.
  destruct (present _); [split; [apply (ts_cr3 _ _ _ S1)|apply (ts_data _ _ _ S1)]|].
  destruct (path_of_valid virt) as [Hv Hi]. split; [apply (ts_cr3 _ _ _ S1)|]. intros f Hf.
  destruct (ts_data _ _ _ S1 f Hf) as [[Hff Hu Ht] Hsame].
  destruct (tw_page _ _ Hwf1 (path_of virt) pt Hv W) as [[Hpt _] _].
  assert (Hne : f <> pt) by (intros ->; by apply (Ht (path_of virt))).
  split; [split; [done|done|]|].
  - intros q Hq. cbn [fst]. rewrite (leaf_set_walk s1 root (path_of virt)) by done. by apply Ht.
  - intros k Hk. cbn [fst]. rewrite set_entry_page by (done || apply Hff). by apply Hsame.
Qed.

(** A change of a leaf entry is no change of the top-level table. *)
Lemma leaf_set_top s root p t i v :
  tables_wf s root -> valid_path p -> length p = 3%nat -> walk (vm_mem s) root p = Some t ->
  valid_index i -> top_kept root s (set_entry_at t i v s).
Proof.
  intros Hwf Hp Hlen Hw Hi j Hj _. assert (V0 : valid_path []) by (split; [simpl; lia|by constructor]).
  destruct (tw_page _ _ Hwf p t Hp Hw) as [[Hta _] _]. destruct (tw_page _ _ Hwf [] root V0 eq_refl) as [[Hra _] _].
  apply entry_set_other; try done. intros [= -> ->].
  by rewrite <- (tw_inj _ _ Hwf [] p t V0 Hp eq_refl Hw) in Hlen.
Qed.

Lemma map_keeps_top s root virt phys flags :
  tables_wf s root -> top_kept root s (fst (map_page root virt phys flags s)).
Proof.
  intros Hwf. rewrite map_page_path. destruct (_ || _ || _); [done|].
  pose proof (ensure_path_spec s root virt Hwf) as H.
  destruct (ensure_path root virt s) as [s1 [pt|]], H as [S1 W]; [|apply (ts_top _ _ _ S1)].
  destruct (present _); [apply (ts_top _ _ _ S1)|]. destruct (path_of_valid virt) as [Hv Hi].
  eapply top_kept_trans; [apply (ts_top _ _ _ S1)|].
  by apply (leaf_set_top s1 root (path_of virt)); [apply (ts_wf _ _ _ S1)|..|apply W|].
Qed.

(** A freshly zeroed page is a data page, and nothing else changes. *)
Lemma alloc_zeroed_spec s root :
  tables_wf s root ->
  match alloc_zeroed_page s with
  | (s', Some n) =>
      tables_wf s' root /\ data_page s' root n /\ ~ data_page s root n /\ vm_cr3 s' = vm_cr3 s /\
      (forall k, 0 <= k < PAGE_SIZE -> vm_mem s' (n + k) = 0) /\
      (forall w, translate s' root w = translate s root w) /\
      (forall f, data_page s root f -> data_page s' root f /\ same_page s s' f)
  | (s', None) => s' = s
  end.
Proof.
  intros Hwf. unfold alloc_zeroed_page. pose proof (alloc_spec _ (tw_alloc _ _ Hwf)) as Hal.
  destruct (alloc_page (PHYS_ALLOCATOR s)) as [a' [n|]] eqn:Ea;
    [|destruct Hal as [-> _]; by destruct s].
  destruct Hal as (Hwf' & Hav & Han & Hnr & Hav'). assert (Hn : frame_ok n) by by split.
  set (s' := {| vm_mem := _ |}).
  assert (Hent : forall q u j, valid_path q -> valid_index j -> walk (vm_mem s) root q = Some u ->
    entry_at (vm_mem s') u j = entry_at (vm_mem s) u j).
  { intros q u j Hq Hj Hu. destruct (tw_page _ _ Hwf q u Hq Hu) as [[Hua _] Hun].
    refine (fill_out (vm_mem s) _ _ _ _ _). apply pages_disjoint; try done. by intros ->. }
  assert (Hwalk : forall q, valid_path q -> walk (vm_mem s') root q = walk (vm_mem s) root q).
  { induction q as [|j q IH] using rev_ind; [done|]. intros Hv.
    destruct (valid_snoc _ _ Hv) as [Hvq Hj]. rewrite !walk_snoc, IH by done.
    destruct (walk (vm_mem s) root q) as [u|] eqn:Eq; [|done]. apply next_table_same.
    by apply (Hent q). }
  split_and!; try done.
  - split; [done| |].
    + intros q t Hq. rewrite Hwalk by done. intros Ht. destruct (tw_page _ _ Hwf q t Hq Ht).
      split; [done|]. change (PHYS_ALLOCATOR s') with a'. rewrite Hav'. by intros [? _].
    + intros q1 q2 t H1 H2. rewrite !Hwalk by done. by apply (tw_inj _ _ Hwf).
  - split; [done| |].
    + change (PHYS_ALLOCATOR s') with a'. rewrite Hav'. by intros [_ ?].
    + intros q Hq. rewrite Hwalk by done. intros Ht. by destruct (tw_page _ _ Hwf q n Hq Ht).
  - by intros [_ ? _].
  - intros k Hk. refine (fill_in (vm_mem s) _ _ _ _ _). lia.
  - intros w. destruct (path_of_valid w) as [Hv Hi]. unfold translate, leaf. rewrite Hwalk by done.
    destruct (walk (vm_mem s) root (path_of w)) as [u|] eqn:Eq; [|done]. by rewrite (Hent (path_of w)).
  - intros f [Hf Hu Ht]. split; [split; [done| |]|].
    + change (PHYS_ALLOCATOR s') with a'. rewrite Hav'. by intros [? _].
    + intros q Hq. rewrite Hwalk by done. by apply Ht.
    + intros k Hk. refine (fill_out (vm_mem s) _ _ _ _ _). destruct Hf.
      apply page_disjoint_byte; try done. by intros ->.
Qed.

Lemma table_entry_next s t i : table_entry_address t i s = (s, next_table (vm_mem s) t i).
Proof. done. Qed.

Lemma unmap_page_path s root virt :
  unmap_page root virt s =
  if (root =? 0) || negb (Z.land virt (PAGE_SIZE - 1) =? 0) then (s, None)
  else
    match walk (vm_mem s) root (path_of virt) with
    | None => (s, None)
    | Some pt =>
        let entry := entry_at (vm_mem s) pt (pt_index virt) in
        if negb (present entry) then (s, None)
        else (set_entry_at pt (pt_index virt) 0 s, Some (Z.land entry PAGE_ADDR_MASK))
    end.
Proof.
  unfold unmap_page, st_bind, st_ret, path_of. case_goal; [done|]. cbn [walk].
  rewrite table_entry_next. destruct (next_table (vm_mem s) root _) as [t1|]; [|done].
  rewrite table_entry_next. destruct (next_table (vm_mem s) t1 _) as [t2|]; [|done].
  rewrite table_entry_next. by destruct (next_table (vm_mem s) t2 _) as [t3|].
Qed.

Lemma unmap_spec s root virt :
  tables_wf s root -> page_aligned virt ->
  let '(s', r) := unmap_page root virt s in
  tables_wf s' root /\ r = translate s root virt /\ PHYS_ALLOCATOR s' = PHYS_ALLOCATOR s /\
  (forall w, translate s' root w = if decide (vpn w = vpn virt) then None else translate s root w).
Proof.
  intros Hwf Ha. rewrite unmap_page_path, (root_nonzero s root Hwf), land_page_0 by done. cbn [orb negb].
  assert (Hnone : translate s root virt = None -> forall w, translate s root w =
    if decide (vpn w = vpn virt) then None else translate s root w).
  { intros Hn w. case_decide as Hd; [|done]. by rewrite (translate_vpn s root w virt). }
  destruct (walk (vm_mem s) root (path_of virt)) as [pt|] eqn:W.
  2:{ assert (En : translate s root virt = None) by (unfold translate, leaf; by rewrite W).
      cbn. split_and!; [done..|by apply Hnone]. }
  pose proof (walk_leaf s root virt pt W) as Hl. unfold entry_frame in Hl.
  destruct (present (entry_at (vm_mem s) pt (pt_index virt)));
    [|cbn; split_and!; [done..|by apply Hnone]].
  destruct (path_of_valid virt) as [Hv Hi]. simpl. split_and!; [|done|done|].
  - by apply (leaf_set_wf s root (path_of virt)).
  - intros w. by rewrite (set_translate s).
Qed.

(** ** Properties *)

(** [map_page] keeps the tables well-formed and takes pages only from the
    allocator; when it succeeds the page was unmapped before and now translates
    to the frame, and no other page's translation changes; when it fails no
    translation changes. *)
Theorem map_page_extends s root virt phys :
  tables_wf s root -> frame_ok phys ->
  let '(s', ok) := map_page root virt phys rw_flags s in
  tables_wf s' root /\
  (ok = true -> translate s root virt = None) /\
  (forall x, available (PHYS_ALLOCATOR s') x -> available (PHYS_ALLOCATOR s) x) /\
  (forall w, translate s' root w =
    if (ok : bool) && bool_decide (vpn w = vpn virt) then Some phys else translate s root w).
Proof. apply map_spec. Qed.

(** [unmap_page] of an aligned address returns the frame the page
    translates to, leaves the page unmapped and every other page as it was, and
    keeps the tables well-formed. *)
Theorem unmap_page_removes s root virt :
  tables_wf s root -> page_aligned virt ->
  let '(s', r) := unmap_page root virt s in
  tables_wf s' root /\ r = translate s root virt /\ PHYS_ALLOCATOR s' = PHYS_ALLOCATOR s /\
  (forall w, translate s' root w = if decide (vpn w = vpn virt) then None else translate s root w).
Proof. apply unmap_spec. Qed.

(** A page mapped by [map_page] and removed by [unmap_page] gives the
    mapped frame back and restores every translation. *)
Theorem map_unmap_round_trip s root virt phys :
  tables_wf s root -> frame_ok phys -> page_aligned virt ->
  let '(s1, ok) := map_page root virt phys rw_flags s in
  ok = true ->
  let '(s2, r) := unmap_page root virt s1 in
  r = Some phys /\ tables_wf s2 root /\ forall w, translate s2 root w = translate s root w.
Proof.
  intros Hwf Hp Hv. pose proof (map_spec s root virt phys Hwf Hp) as M.
  destruct (map_page root virt phys rw_flags s) as [s1 ok], M as (W1 & N1 & _ & T1). intros ->.
  pose proof (unmap_spec s1 root virt W1 Hv) as U.
  destruct (unmap_page root virt s1) as [s2 r], U as (W2 & -> & _ & T2). split_and!.
  - by rewrite T1, bool_decide_true.
  - done.
  - intros w. rewrite T2, T1. simpl. case_decide as Hd; [|by rewrite bool_decide_false].
    rewrite (translate_vpn s root w virt) by done. by rewrite N1.
Qed.

(** A space whose root table is empty. *)
Lemma empty_space_wf a root :
  phys_wf a -> frame_ok root -> ~ available a root -> tables_wf (mkVm a zeroed root root) root.
Proof.
  intros Ha Hr Hn.
  assert (E : forall q t, walk zeroed root q = Some t -> q = [] /\ t = root).
  { intros [|i q] t; simpl; [by intros [= <-]|done]. }
  split; [done| |].
  - intros q t _ [-> ->]%E. done.
  - intros q1 q2 t _ _ [-> _]%E [-> _]%E. done.
Qed.

Definition demo_vm : Vm := mkVm (init_physical_allocator (Some demo_map)) zeroed 4096 4096.

Lemma demo_vm_wf : tables_wf demo_vm 4096.
Proof.
  apply empty_space_wf.
  - apply (init_spec demo_map demo_map_wf).
  - split; [reflexivity|lia].
  - unfold available. intros [H|H]; [inversion H|].
    apply exists_lookup in H as (i & r & Hi & [Hr _]).
    destruct i as [|[|i]]; vm_compute in Hi; simplify_eq; simpl in Hr; lia.
Qed.

Lemma map_page_extends_witness :
  translate (fst (map_page 4096 0x9000000 0x5000 rw_flags demo_vm)) 4096 0x9000000 = Some 0x5000.
Proof.
  pose proof (map_page_extends demo_vm 4096 0x9000000 0x5000 demo_vm_wf
    (conj eq_refl (conj eq_refl eq_refl))) as H.
  destruct (map_page 4096 0x9000000 0x5000 rw_flags demo_vm) as [s' ok] eqn:E.
  assert (ok = true) as ->.
  { change ok with (snd (s', ok)). rewrite <- E. vm_compute. reflexivity. }
  exact (proj2 (proj2 (proj2 H)) 0x9000000).
Defined.

Lemma unmap_page_removes_witness :
  snd (unmap_page 4096 0x9000000 demo_vm) = translate demo_vm 4096 0x9000000.
Proof.
  pose proof (unmap_page_removes demo_vm 4096 0x9000000 demo_vm_wf eq_refl) as H.
  destruct (unmap_page 4096 0x9000000 demo_vm). exact (proj1 (proj2 H)).
Defined.

Lemma map_unmap_round_trip_witness :
  snd (unmap_page 4096 0x9000000 (fst (map_page 4096 0x9000000 0x5000 rw_flags demo_vm)))
  = Some 0x5000.
Proof.
  pose proof (map_unmap_round_trip demo_vm 4096 0x9000000 0x5000 demo_vm_wf
    (conj eq_refl (conj eq_refl eq_refl)) eq_refl) as H.
  destruct (map_page 4096 0x9000000 0x5000 rw_flags demo_vm) as [s' ok] eqn:E.
  assert (ok = true) as ->.
  { change ok with (snd (s', ok)). rewrite <- E. vm_compute. reflexivity. }
  specialize (H eq_refl). cbn [fst]. destruct (unmap_page 4096 0x9000000 s').
  exact (proj1 H).
Defined.
