(* ===== verification/Process.v ===== *)
(** * The process table

    [Process], the table operations and the process console commands of
    [src/kernel/src/main.rs] ([process_spawn] to [process_state_from_u32]), with
    the kernel state they share with the scheduler. A name, argument or
    argument vector is the used prefix of the source's fixed array. *)

From S2P Require Import Prelude Constants Text Phys Paging Console.

Inductive ProcessState : Type :=
  Empty | Ready | Running | Exited | Failed | Blocked | Loading.

#[export] Instance ProcessState_eq_dec : EqDecision ProcessState.
Proof. solve_decision. Defined.

Inductive WaitTarget : Type := WaitNone | WaitPid (pid : Z) | WaitAnyChild.

#[export] Instance WaitTarget_eq_dec : EqDecision WaitTarget.
Proof. solve_decision. Defined.

Definition state_as_u32 (s : ProcessState) : Z :=
  match s with
  | Empty => 0 | Ready => 1 | Running => 2 | Exited => 3 | Failed => 4
  | Blocked => 5 | Loading => 6
  end.

Definition process_state_from_u32 (state : Z) : ProcessState :=
  if state =? 1 then Ready
  else if state =? 2 then Running
  else if state =? 3 then Exited
  else if state =? 4 then Failed
  else if state =? 5 then Blocked
  else if state =? 6 then Loading
  else Empty.

Definition process_state_name (s : ProcessState) : string :=
  match s with
  | Empty => "empty" | Ready => "ready" | Running => "running" | Exited => "exited"
  | Failed => "failed" | Blocked => "blocked" | Loading => "loading"
  end.

Record ProcessMapping : Type := mkMapping { m_used : bool; m_virt : Z; m_pages : Z }.

Definition ProcessMapping_empty : ProcessMapping := mkMapping false 0 0.

Record AppEnvVar : Type := mkEnvVar {
  env_used : bool; env_deleted : bool; env_key : bytes; env_value : bytes
}.

Definition AppEnvVar_empty : AppEnvVar := mkEnvVar false false [] [].

Record Process : Type := mkProcess {
  pid : Z;
  parent_pid : Z;
  waited : bool;
  state : ProcessState;
  exit_code : Z;
  p_name : bytes;
  p_args : bytes;
  p_argv : list bytes;
  heap_base : Z;
  mappings : list ProcessMapping;
  pml4_phys : Z;
  std_fds : list Z;
  cwd : bytes;
  env : list AppEnvVar;
  last_error : Z;
  heap_next : Z;
  heap_limit : Z;
  mmap_next : Z;
  mmap_limit : Z;
  rsp : Z;
  entry_point : Z;
  waiting_for : WaitTarget
}.

Definition Process_empty : Process :=
  mkProcess 0 0 false Empty 0 [] [] [] 0 (replicate PROCESS_MAPPING_MAX ProcessMapping_empty) 0
    [STDIN_FD; STDOUT_FD; STDERR_FD] [] (replicate APP_ENV_COUNT AppEnvVar_empty) ERR_OK
    0 0 0 0 0 0 WaitNone.

Record RymosProcessStatus : Type := mkStatus { st_state : Z; st_exit_code : Z }.

(** The kernel's process and memory state. Slot [PROCESS_COUNT] of the table is
    the reserved console slot. *)
Record Kernel : Type := mkKernel {
  PROCESS_TABLE : list Process;
  CURRENT_PROCESS_INDEX : nat;
  NEXT_PID : Z;
  PENDING_STACK_RECLAIMS : list (option Z);
  vm : Vm
}.

Definition Kernel_new (v : Vm) : Kernel :=
  mkKernel (replicate (S PROCESS_COUNT) Process_empty) PROCESS_COUNT 1
    (replicate PROCESS_COUNT None) v.

Definition proc (k : Kernel) (index : nat) : Process :=
  default Process_empty (PROCESS_TABLE k !! index).

Definition update_proc (index : nat) (f : Process -> Process) (k : Kernel) : Kernel :=
  {| k with PROCESS_TABLE := alter f index (PROCESS_TABLE k) |}.

Definition is_state (s : ProcessState) (p : Process) : bool := bool_decide (state p = s).

Definition is_zombie (p : Process) : bool := is_state Exited p || is_state Failed p.

(** ** Slots *)

Definition process_find_slot (k : Kernel) (s : ProcessState) : option nat :=
  find_first (fun index => is_state s (proc k index)) PROCESS_COUNT.

Definition process_find_reapable_slot (k : Kernel) : option nat :=
  find_first (fun index => waited (proc k index) && is_zombie (proc k index)) PROCESS_COUNT.

Definition bump_pid (p : Z) : Z := let next := u32 (p + 1) in if next =? 0 then 1 else next.

Definition process_spawn_with_argv (name args : bytes) (argv : list bytes) (parent : Z)
  : ST Kernel (option nat) := fun k =>
  let new_pid := NEXT_PID k in
  let k := {| k with NEXT_PID := bump_pid new_pid |} in
  let slot :=
    match process_find_slot k Empty with
    | Some index => Some index
    | None => process_find_reapable_slot k
    end in
  match slot with
  | None => (k, None)
  | Some index =>
      let process := Process_empty in
      let process := {| process with
        pid := new_pid; parent_pid := parent; state := Loading;
        p_name := take (Z.to_nat PROCESS_NAME_MAX) name;
        p_args := take (Z.to_nat PROCESS_ARGS_MAX) args;
        p_argv := map (take (Z.to_nat PROCESS_ARGV_VALUE_MAX)) (take PROCESS_ARGV_COUNT_MAX argv) |}
      in
      (update_proc index (fun _ => process) k, Some index)
  end.

Definition process_pid (k : Kernel) (index : nat) : Z := pid (proc k index).

Definition current_pid (k : Kernel) : Z := process_pid k (CURRENT_PROCESS_INDEX k).

Definition process_spawn (name args : bytes) : ST Kernel (option nat) := fun k =>
  process_spawn_with_argv name args (raw_args_to_argv args) (current_pid k) k.

Definition process_set_state (index : nat) (s : ProcessState) (code : Z) (k : Kernel) : Kernel :=
  update_proc index (fun p => {| p with state := s; exit_code := code |}) k.

Definition set_waited (index : nat) (k : Kernel) : Kernel :=
  update_proc index (fun p => {| p with waited := true |}) k.

Definition process_fail_unwaited (index : nat) (k : Kernel) : Kernel :=
  set_waited index (process_set_state index Failed (-1) k).

(** ** Mappings *)

Definition mapping_at (p : Process) (i : nat) : ProcessMapping :=
  default ProcessMapping_empty (mappings p !! i).

Definition process_track_mapping (index : nat) (virt pages : Z) : ST Kernel bool := fun k =>
  if Nat.leb PROCESS_COUNT index then (k, false)
  else
    match find_first (fun i => negb (m_used (mapping_at (proc k index) i))) PROCESS_MAPPING_MAX with
    | None => (k, false)
    | Some i =>
        (update_proc index (fun p =>
           {| p with mappings := <[i := mkMapping true virt pages]> (mappings p) |}) k, true)
    end.

Definition mapping_is (virt pages : Z) (m : ProcessMapping) : bool :=
  m_used m && (m_virt m =? virt) && (m_pages m =? pages).

Definition process_untrack_mapping (index : nat) (virt pages : Z) : ST Kernel bool := fun k =>
  if Nat.leb PROCESS_COUNT index then (k, false)
  else
    match find_first (fun i => mapping_is virt pages (mapping_at (proc k index) i))
            PROCESS_MAPPING_MAX with
    | None => (k, false)
    | Some i =>
        (update_proc index (fun p =>
           {| p with mappings := <[i := ProcessMapping_empty]> (mappings p) |}) k, true)
    end.

(** The unmapping loop of [process_reclaim_mappings]. *)
Fixpoint unmap_mappings (l : list ProcessMapping) (reclaimed : Z) : ST Vm Z :=
  match l with
  | [] => st_ret reclaimed
  | m :: rest =>
      if negb (m_used m) then unmap_mappings rest reclaimed
      else fun v =>
        let '(v, n) := unmap_user_pages (KERNEL_PML4_PHYS v) (m_virt m) (m_pages m) v in
        unmap_mappings rest (reclaimed + n) v
  end.

Definition process_reclaim_mappings (index : nat) : ST Kernel Z := fun k =>
  if Nat.leb PROCESS_COUNT index then (k, 0)
  else
    let '(v, reclaimed) := unmap_mappings (mappings (proc k index)) 0 (vm k) in
    let k := {| k with vm := v |} in
    (update_proc index (fun p =>
       {| p with mappings := map (fun m => if m_used m then ProcessMapping_empty else m) (mappings p);
                 heap_base := 0 |}) k, reclaimed).

(** ** Waiting *)

Definition status_of (p : Process) : RymosProcessStatus :=
  mkStatus (state_as_u32 (state p)) (exit_code p).

Definition process_wait_by_pid (p : Z) : ST Kernel (option RymosProcessStatus) := fun k =>
  match find_first (fun i => (pid (proc k i) =? p) && negb (waited (proc k i)) && is_zombie (proc k i))
          PROCESS_COUNT with
  | None => (k, None)
  | Some i => (set_waited i k, Some (status_of (proc k i)))
  end.

Definition process_wait_any_child (parent : Z) : ST Kernel (option (Z * RymosProcessStatus)) :=
  fun k =>
  match find_first (fun i => (parent_pid (proc k i) =? parent) && negb (waited (proc k i))
                             && is_zombie (proc k i)) PROCESS_COUNT with
  | None => (k, None)
  | Some i => (set_waited i k, Some (process_pid k i, status_of (proc k i)))
  end.

Definition find_process_index_by_pid (p : Z) (k : Kernel) : option nat :=
  find_first (fun i => (pid (proc k i) =? p) && negb (is_state Empty (proc k i))) PROCESS_COUNT.

(** ** Console commands *)

Definition print_process_status (p : Z) (status : RymosProcessStatus) (c : Console) : Console :=
  let c := write_bytes (bs "pid ") c in
  let c := write_bytes (write_usize p) c in
  let c := write_bytes (bs " ") c in
  let c := write_bytes (bs (process_state_name (process_state_from_u32 (st_state status)))) c in
  let c := write_bytes (bs " exit ") c in
  let c := write_bytes (write_i32 (st_exit_code status)) c in
  new_line c.

Definition list_process (p : Process) (c : Console) : Console :=
  let c := write_bytes (write_usize (pid p)) c in
  let c := write_bytes (bs "    ") c in
  let c := write_bytes (bs (process_state_name (state p))) c in
  let c := write_bytes (bs "  ") c in
  let c := write_bytes (write_i32 (exit_code p)) c in
  let c := write_bytes (bs "     ") c in
  let c := write_bytes (p_name p) c in
  let c := if 0 <? blen (p_args p) then write_bytes (p_args p) (write_bytes (bs " ") c) else c in
  new_line c.

Definition process_list (k : Kernel) (c : Console) : Console :=
  let c := write_line (bs "pid  state    exit  name args") c in
  fold_left (fun c p => if is_state Empty p then c else list_process p c)
    (take PROCESS_COUNT (PROCESS_TABLE k)) c.

Definition process_wait (pid_bytes : bytes) (c : Console) : ST Kernel Console := fun k =>
  if bytes_eq pid_bytes [] then
    match process_wait_any_child 0 k with
    | (k, Some (p, status)) => (k, print_process_status p status c)
    | (k, None) => (k, write_line (bs "wait: no child status") c)
    end
  else
    match parse_u32 pid_bytes with
    | None => (k, write_line (bs "wait: invalid pid") c)
    | Some p =>
        match process_wait_by_pid p k with
        | (k, Some status) => (k, print_process_status p status c)
        | (k, None) => (k, write_line (bs "wait: pid not found") c)
        end
    end.

(** ** Address-space set-up of a process *)

Definition app_set_heap_window (index : nat) (p : Z) (k : Kernel) : Kernel :=
  let base := heap_window p in
  let mmap_base := mmap_window p in
  if Nat.leb index PROCESS_COUNT then
    update_proc index (fun q =>
      let first_setup := heap_base q =? 0 in
      let q := {| q with heap_base := base; heap_limit := u64 (base + USER_HEAP_STRIDE);
                         mmap_limit := u64 (mmap_base + USER_MMAP_SIZE) |} in
      if first_setup then {| q with heap_next := base; mmap_next := mmap_base |} else q) k
  else k.

Definition lift_vm {A} (m : ST Vm A) : ST Kernel A := fun k =>
  let '(v, a) := m (vm k) in ({| k with vm := v |}, a).

Definition current_pml4_or_kernel : ST Kernel (option Z) := fun k =>
  let index := CURRENT_PROCESS_INDEX k in
  if Nat.ltb index PROCESS_COUNT && negb (pml4_phys (proc k index) =? 0)
  then (k, Some (pml4_phys (proc k index)))
  else lift_vm ensure_kernel_pml4 k.

Definition write_cr3 (pml4 : Z) (k : Kernel) : Kernel :=
  let v := vm k in {| k with vm := {| v with vm_cr3 := pml4 |} |}.

(** ** The table as a function of the slot *)

(** What the scheduler reads of a process. *)
Record Core : Type := mkCore {
  c_pid : Z; c_parent : Z; c_waited : bool; c_state : ProcessState; c_waiting : WaitTarget
}.

Definition core (p : Process) : Core :=
  mkCore (pid p) (parent_pid p) (waited p) (state p) (waiting_for p).

Definition table_sized (k : Kernel) : Prop := length (PROCESS_TABLE k) = S PROCESS_COUNT.

Lemma proc_update k i f j :
  table_sized k -> (i <= PROCESS_COUNT)%nat ->
  proc (update_proc i f k) j = if decide (j = i) then f (proc k i) else proc k j.
Proof.
  intros Hs Hi. unfold proc, update_proc, table_sized in *. simpl. case_decide as Hd.
  - subst j. rewrite list_lookup_alter. rewrite decide_True by done.
    destruct (lookup_lt_is_Some_2 (PROCESS_TABLE k) i) as [p E]; [lia|]. by rewrite E.
  - by rewrite list_lookup_alter_ne.
Qed.

Lemma update_sized k i f : table_sized k -> table_sized (update_proc i f k).
Proof. unfold table_sized. simpl. by rewrite length_alter. Qed.

Lemma find_first_slot (p : nat -> bool) i :
  find_first p PROCESS_COUNT = Some i -> (i < PROCESS_COUNT)%nat /\ p i = true.
Proof. unfold find_first. intros (H1 & H2 & _)%find_from_some. split; [lia|done]. Qed.

Lemma find_first_none_slot (p : nat -> bool) i :
  find_first p PROCESS_COUNT = None -> (i < PROCESS_COUNT)%nat -> p i = false.
Proof. unfold find_first. intros H Hi. rewrite find_from_none in H. apply H. lia. Qed.

Lemma is_state_true s p : is_state s p = true <-> state p = s.
Proof. unfold is_state. by rewrite bool_decide_eq_true. Qed.

Lemma is_state_false s p : is_state s p = false <-> state p <> s.
Proof. unfold is_state. by rewrite bool_decide_eq_false. Qed.

Lemma is_zombie_true p : is_zombie p = true <-> state p = Exited \/ state p = Failed.
Proof. unfold is_zombie. by rewrite orb_true_iff, !is_state_true. Qed.

(** ** The tracked mappings as a bag *)

Definition used_mappings (p : Process) : list ProcessMapping := filter (fun m => m_used m = true) (mappings p).

Lemma filter_insert_add (l : list ProcessMapping) i m m' :
  l !! i = Some m -> m_used m = false -> m_used m' = true ->
  filter (fun m => m_used m = true) (<[i := m']> l)
  ≡ₚ m' :: filter (fun m => m_used m = true) l.
Proof.
  intros Hi Hm Hm'. rewrite <- (take_drop_middle l i m Hi) at 2.
  rewrite insert_take_drop by (by eapply lookup_lt_Some).
  rewrite !filter_app, !filter_cons.
  rewrite decide_True by done. rewrite decide_False by by rewrite Hm.
  by rewrite Permutation_middle.
Qed.

Lemma filter_insert_remove (l : list ProcessMapping) i m m' :
  l !! i = Some m -> m_used m = true -> m_used m' = false ->
  filter (fun m => m_used m = true) l
  ≡ₚ m :: filter (fun m => m_used m = true) (<[i := m']> l).
Proof.
  intros Hi Hm Hm'. rewrite <- (take_drop_middle l i m Hi) at 1.
  rewrite insert_take_drop by (by eapply lookup_lt_Some).
  rewrite !filter_app, !filter_cons.
  rewrite decide_True by done. rewrite decide_False by by rewrite Hm'.
  by rewrite Permutation_middle.
Qed.

Lemma filter_all_used (l : list ProcessMapping) :
  Forall (fun m => m_used m = true) l -> filter (fun m => m_used m = true) l = l.
Proof. induction 1 as [|m l Hm _ IH]; [done|]. by rewrite filter_cons, decide_True, IH. Qed.

Lemma mapping_is_eq virt pages m : mapping_is virt pages m = true -> m = mkMapping true virt pages.
Proof.
  destruct m as [u v n]. unfold mapping_is. simpl. rewrite !andb_true_iff, !Z.eqb_eq.
  by intros [[-> ->] ->].
Qed.

Lemma mapping_at_lookup p i :
  length (mappings p) = PROCESS_MAPPING_MAX -> (i < PROCESS_MAPPING_MAX)%nat ->
  mappings p !! i = Some (mapping_at p i).
Proof.
  intros Hl Hi. unfold mapping_at. destruct (lookup_lt_is_Some_2 (mappings p) i) as [m E]; [lia|].
  by rewrite E.
Qed.

Lemma track_spec k index virt pages :
  table_sized k -> (index < PROCESS_COUNT)%nat ->
  length (mappings (proc k index)) = PROCESS_MAPPING_MAX ->
  let '(k', ok) := process_track_mapping index virt pages k in
  if ok : bool
  then used_mappings (proc k' index) ≡ₚ mkMapping true virt pages :: used_mappings (proc k index) /\
       length (mappings (proc k' index)) = PROCESS_MAPPING_MAX
  else k' = k /\ length (used_mappings (proc k index)) = PROCESS_MAPPING_MAX.
Proof.
  intros Hs Hi Hl. unfold process_track_mapping.
  destruct (Nat.leb_spec PROCESS_COUNT index); [lia|].
  destruct (find_first _ _) as [i|] eqn:E.
  - apply find_first_some in E as (Hlt & Hu & _). apply negb_true_iff in Hu.
    rewrite proc_update, decide_True by (done || lia). unfold used_mappings. simpl.
    split; [|by rewrite length_insert].
    eapply filter_insert_add; [by apply mapping_at_lookup|done|done].
  - rewrite find_first_none in E. split; [done|]. unfold used_mappings. rewrite <- Hl. f_equal.
    apply filter_all_used, Forall_lookup. intros i m Hm.
    assert (Hb : (i < PROCESS_MAPPING_MAX)%nat) by (rewrite <- Hl; by eapply lookup_lt_Some).
    specialize (E i Hb). apply negb_false_iff in E. unfold mapping_at in E. by rewrite Hm in E.
Qed.

Lemma untrack_spec k index virt pages :
  table_sized k -> (index < PROCESS_COUNT)%nat ->
  length (mappings (proc k index)) = PROCESS_MAPPING_MAX ->
  let '(k', ok) := process_untrack_mapping index virt pages k in
  if ok : bool
  then used_mappings (proc k index) ≡ₚ mkMapping true virt pages :: used_mappings (proc k' index) /\
       length (mappings (proc k' index)) = PROCESS_MAPPING_MAX
  else k' = k /\ mkMapping true virt pages ∉ used_mappings (proc k index).
Proof.
  intros Hs Hi Hl. unfold process_untrack_mapping.
  destruct (Nat.leb_spec PROCESS_COUNT index); [lia|].
  destruct (find_first _ _) as [i|] eqn:E.
  - apply find_first_some in E as (Hlt & Hu%mapping_is_eq & _).
    rewrite proc_update, decide_True by (done || lia). unfold used_mappings. simpl.
    split; [|by rewrite length_insert]. rewrite <- Hu.
    apply filter_insert_remove; [by apply mapping_at_lookup|by rewrite Hu|done].
  - rewrite find_first_none in E. split; [done|]. unfold used_mappings.
    intros [_ [i Hm]%list_elem_of_lookup]%list_elem_of_filter.
    assert (Hb : (i < PROCESS_MAPPING_MAX)%nat) by (rewrite <- Hl; by eapply lookup_lt_Some).
    specialize (E i Hb). unfold mapping_at in E. rewrite Hm in E. simpl in E.
    unfold mapping_is in E. simpl in E. by rewrite !Z.eqb_refl in E.
Qed.

(** ** Spawning and waiting *)

Definition free_slot (p : Process) : Prop :=
  state p = Empty \/ (waited p = true /\ (state p = Exited \/ state p = Failed)).

Lemma spawn_spec k name args argv parent :
  table_sized k ->
  let '(k', r) := process_spawn_with_argv name args argv parent k in
  table_sized k' /\ NEXT_PID k' = bump_pid (NEXT_PID k) /\
  CURRENT_PROCESS_INDEX k' = CURRENT_PROCESS_INDEX k /\ vm k' = vm k /\
  PENDING_STACK_RECLAIMS k' = PENDING_STACK_RECLAIMS k /\
  match r with
  | Some i =>
      (i < PROCESS_COUNT)%nat /\ free_slot (proc k i) /\
      core (proc k' i) = mkCore (NEXT_PID k) parent false Loading WaitNone /\
      p_args (proc k' i) = take (Z.to_nat PROCESS_ARGS_MAX) args /\
      (forall j, j <> i -> proc k' j = proc k j)
  | None =>
      PROCESS_TABLE k' = PROCESS_TABLE k /\ forall i, (i < PROCESS_COUNT)%nat -> ~ free_slot (proc k i)
  end.
Proof.
  intros Hs. unfold process_spawn_with_argv.
  set (k1 := {| k with NEXT_PID := bump_pid (NEXT_PID k) |}).
  assert (Hs1 : table_sized k1) by done.
  assert (Hp : forall i, proc k1 i = proc k i) by done.
  assert (Hclaim : forall i f, (i < PROCESS_COUNT)%nat -> free_slot (proc k1 i) ->
    core (f (proc k1 i)) = mkCore (NEXT_PID k) parent false Loading WaitNone ->
    p_args (f (proc k1 i)) = take (Z.to_nat PROCESS_ARGS_MAX) args ->
    let k' := update_proc i f k1 in
    table_sized k' /\ NEXT_PID k' = bump_pid (NEXT_PID k) /\
    CURRENT_PROCESS_INDEX k' = CURRENT_PROCESS_INDEX k /\ vm k' = vm k /\
    PENDING_STACK_RECLAIMS k' = PENDING_STACK_RECLAIMS k /\
    (i < PROCESS_COUNT)%nat /\ free_slot (proc k i) /\
    core (proc k' i) = mkCore (NEXT_PID k) parent false Loading WaitNone /\
    p_args (proc k' i) = take (Z.to_nat PROCESS_ARGS_MAX) args /\
    (forall j, j <> i -> proc k' j = proc k j)).
  { intros i f Hi Hf Hc Ha k'. unfold k'. split_and!; try done.
    - by apply update_sized.
    - by rewrite proc_update, decide_True by (done || lia).
    - by rewrite proc_update, decide_True by (done || lia).
    - intros j Hj. by rewrite proc_update, decide_False by (done || lia). }
  unfold process_find_slot, process_find_reapable_slot.
  destruct (find_first (fun i => is_state Empty (proc k1 i)) PROCESS_COUNT) as [i|] eqn:E.
  - apply find_first_slot in E as [Hi He%is_state_true]. apply Hclaim; [done|by left|done|done].
  - destruct (find_first (fun i => waited (proc k1 i) && is_zombie (proc k1 i)) PROCESS_COUNT)
      as [i|] eqn:E2.
    + apply find_first_slot in E2 as [Hi [Hw Hz%is_zombie_true]%andb_true_iff].
      apply Hclaim; [done|by right|done|done].
    + split_and!; try done. intros i Hi Hf.
      pose proof (find_first_none_slot _ i E Hi) as H1. apply is_state_false in H1.
      pose proof (find_first_none_slot _ i E2 Hi) as H2. apply andb_false_iff in H2.
      destruct Hf as [Hf|[Hw Hz]]; [done|]. apply is_zombie_true in Hz.
      rewrite !Hp in H2. destruct H2; congruence.
Qed.

(** The pids in use are distinct and below the next one. *)
Definition pids_unique (k : Kernel) : Prop :=
  (forall i j, (i < PROCESS_COUNT)%nat -> (j < PROCESS_COUNT)%nat ->
    state (proc k i) <> Empty -> state (proc k j) <> Empty ->
    pid (proc k i) = pid (proc k j) -> i = j) /\
  (forall i, (i < PROCESS_COUNT)%nat -> state (proc k i) <> Empty ->
    0 < pid (proc k i) < NEXT_PID k).

Definition zombie_of (k : Kernel) (p : Z) (i : nat) : Prop :=
  (i < PROCESS_COUNT)%nat /\ pid (proc k i) = p /\ waited (proc k i) = false /\
  (state (proc k i) = Exited \/ state (proc k i) = Failed).

Lemma wait_by_pid_spec k p :
  table_sized k ->
  let '(k', r) := process_wait_by_pid p k in
  match r with
  | Some st => exists i, zombie_of k p i /\ st = status_of (proc k i) /\ k' = set_waited i k
  | None => k' = k /\ forall i, ~ zombie_of k p i
  end.
Proof.
  intros Hs. unfold process_wait_by_pid. destruct (find_first _ _) as [i|] eqn:E.
  - apply find_first_slot in E as [Hi H]. rewrite !andb_true_iff in H.
    destruct H as [[Hp%Z.eqb_eq Hw%negb_true_iff] Hz%is_zombie_true]. by exists i.
  - split; [done|]. intros i (Hi & Hp & Hw & Hz).
    pose proof (find_first_none_slot _ i E Hi) as H. cbv beta in H.
    apply is_zombie_true in Hz. by rewrite Hp, Hw, Hz, Z.eqb_refl in H.
Qed.

Lemma set_waited_core k i j :
  table_sized k -> (i <= PROCESS_COUNT)%nat ->
  core (proc (set_waited i k) j) =
  if decide (j = i) then
    let c := core (proc k i) in {| c with c_waited := true |}
  else core (proc k j).
Proof. intros Hs Hi. unfold set_waited. rewrite proc_update by done. by case_decide. Qed.

(** ** Properties *)

(** Spawning takes the next pid and claims a slot that is empty or holds an
    exited process whose status has been collected, never one that is in use or
    still owes its status; the claimed slot is [Loading] with the new pid, the
    other slots are untouched, and spawning fails only when no such slot is
    left. While the pid counter has not wrapped, pids stay unique. *)
Theorem spawn_claims_free_slot k name args argv parent :
  table_sized k -> pids_unique k -> 0 < NEXT_PID k < 4294967295 ->
  let '(k', r) := process_spawn_with_argv name args argv parent k in
  pids_unique k' /\ NEXT_PID k' = NEXT_PID k + 1 /\
  match r with
  | Some i =>
      (i < PROCESS_COUNT)%nat /\ free_slot (proc k i) /\
      core (proc k' i) = mkCore (NEXT_PID k) parent false Loading WaitNone /\
      (forall j, j <> i -> proc k' j = proc k j)
  | None =>
      PROCESS_TABLE k' = PROCESS_TABLE k /\ forall i, (i < PROCESS_COUNT)%nat -> ~ free_slot (proc k i)
  end.
Proof.
  intros Hs [Hu Hb] Hn. pose proof (spawn_spec k name args argv parent Hs) as H.
  destruct (process_spawn_with_argv name args argv parent k) as [k' r].
  destruct H as (_ & Hpid & _ & _ & _ & H).
  assert (Hnext : NEXT_PID k' = NEXT_PID k + 1).
  { rewrite Hpid. unfold bump_pid. cbv zeta. rewrite u32_small by (unfold is_u32; lia).
    destruct (Z.eqb_spec (NEXT_PID k + 1) 0); lia. }
  destruct r as [i|].
  - destruct H as (Hi & Hf & Hc & _ & Ho). split_and!; try done. clear Hpid.
    pose proof (f_equal c_pid Hc) as Hp. simpl in Hp. split.
    + intros a b Ha Hb'. destruct (decide (a = i)) as [->|Na], (decide (b = i)) as [->|Nb]; try done.
      * rewrite (Ho b) by done. intros _ Hsb. specialize (Hb b Hb' Hsb). lia.
      * rewrite (Ho a) by done. intros Hsa _. specialize (Hb a Ha Hsa). lia.
      * rewrite (Ho a), (Ho b) by done. by apply Hu.
    + intros a Ha. destruct (decide (a = i)) as [->|Na]; [lia|].
      rewrite Ho by done. intros Hsa. specialize (Hb a Ha Hsa). lia.
  - destruct H as [Ht Hf]. split_and!; try done.
    assert (E : forall i, proc k' i = proc k i) by (intros i; unfold proc; by rewrite Ht).
    split; [intros a b; rewrite !E; apply Hu|].
    intros a Ha. rewrite E. intros Hsa. specialize (Hb a Ha Hsa). lia.
Qed.

(** C36: [process_wait_by_pid] delivers the recorded status of an exited or
    failed process whose status is still owed, and delivers it once: the slot is
    marked, no other slot changes, and a second wait for that pid finds
    nothing. It finds nothing only if no such process exists. *)
Theorem wait_reaps_once k p :
  table_sized k -> pids_unique k ->
  match process_wait_by_pid p k with
  | (k', Some st) =>
      exists i, zombie_of k p i /\ st = status_of (proc k i) /\
        waited (proc k' i) = true /\ (forall j, j <> i -> proc k' j = proc k j) /\
        process_wait_by_pid p k' = (k', None)
  | (k', None) => k' = k /\ forall i, ~ zombie_of k p i
  end.
Proof.
  intros Hs [Hu _]. pose proof (wait_by_pid_spec k p Hs) as H.
  destruct (process_wait_by_pid p k) as [k' [st|]]; [|done].
  destruct H as (i & Hz & -> & ->). exists i. pose proof Hz as (Hi & Hp & Hw & Hst).
  assert (Hu' : forall j, proc (set_waited i k) j =
    if decide (j = i) then let q := proc k i in {| q with waited := true |} else proc k j).
  { intros j. unfold set_waited. by rewrite proc_update by (done || lia). }
  split_and!; try done.
  - by rewrite Hu', decide_True.
  - intros j Hj. by rewrite Hu', decide_False.
  - pose proof (wait_by_pid_spec (set_waited i k) p (update_sized _ _ _ Hs)) as H.
    destruct (process_wait_by_pid p (set_waited i k)) as [k2 [st|]]; [|by destruct H as [-> _]].
    destruct H as (j & (Hj & Hpj & Hwj & Hsj) & _). rewrite Hu' in Hpj, Hwj, Hsj.
    destruct (decide (j = i)) as [E|Nj]; [done|]. destruct Nj.
    apply Hu; [done|done|by destruct Hsj as [E|E]; rewrite E|by destruct Hst as [E|E]; rewrite E|congruence].
Qed.

(** The mapping table of a process is a bag of at most 64 mappings:
    tracking adds the mapping and fails only when 64 are recorded, untracking
    removes one occurrence and fails only when there is none. *)
Theorem mappings_refine_bag k index virt pages :
  table_sized k -> (index < PROCESS_COUNT)%nat ->
  length (mappings (proc k index)) = PROCESS_MAPPING_MAX ->
  (let '(k', ok) := process_track_mapping index virt pages k in
   if ok : bool
   then used_mappings (proc k' index) ≡ₚ mkMapping true virt pages :: used_mappings (proc k index) /\
        length (mappings (proc k' index)) = PROCESS_MAPPING_MAX
   else k' = k /\ length (used_mappings (proc k index)) = PROCESS_MAPPING_MAX) /\
  (let '(k', ok) := process_untrack_mapping index virt pages k in
   if ok : bool
   then used_mappings (proc k index) ≡ₚ mkMapping true virt pages :: used_mappings (proc k' index) /\
        length (mappings (proc k' index)) = PROCESS_MAPPING_MAX
   else k' = k /\ mkMapping true virt pages ∉ used_mappings (proc k index)).
Proof. intros. split; [by apply track_spec|by apply untrack_spec]. Qed.

Definition demo_kernel : Kernel := Kernel_new (mkVm phys_empty zeroed 4096 4096).

Lemma demo_proc i : proc demo_kernel i = Process_empty.
Proof.
  unfold proc. destruct (PROCESS_TABLE demo_kernel !! i) as [p|] eqn:E; [|done].
  by apply lookup_replicate in E as [-> _].
Qed.

Lemma demo_pids : pids_unique demo_kernel.
Proof. split; intros i; rewrite demo_proc; done. Qed.

Lemma spawn_claims_free_slot_witness :
  snd (process_spawn_with_argv (bs "ls") [] [] 0 demo_kernel) <> None.
Proof.
  pose proof (spawn_claims_free_slot demo_kernel (bs "ls") [] [] 0 eq_refl demo_pids
    ltac:(split; reflexivity)) as H.
  destruct (process_spawn_with_argv (bs "ls") [] [] 0 demo_kernel) as [k' [i|]]; [done|].
  exfalso. apply (proj2 (proj2 (proj2 H)) 0%nat); [apply Nat.ltb_lt; reflexivity|].
  rewrite demo_proc. by left.
Defined.

(** Pid 7 has exited in slot 2 and nobody has waited for it. *)
Definition zombie_kernel : Kernel :=
  let k := demo_kernel in
  let k := update_proc 2 (fun p => {| p with pid := 7; state := Exited; exit_code := 3 |}) k in
  {| k with NEXT_PID := 8 |}.

Lemma zombie_proc i :
  proc zombie_kernel i =
  if decide (i = 2%nat)
  then let p := Process_empty in {| p with pid := 7; state := Exited; exit_code := 3 |}
  else Process_empty.
Proof.
  change (proc zombie_kernel i) with (proc (update_proc 2
    (fun p => {| p with pid := 7; state := Exited; exit_code := 3 |}) demo_kernel) i).
  rewrite proc_update by (done || (apply Nat.leb_le; reflexivity)). by rewrite !demo_proc.
Qed.

Lemma zombie_pids : pids_unique zombie_kernel.
Proof.
  split.
  - intros i j _ _. rewrite !zombie_proc. by do 2 case_decide; subst.
  - intros i _. rewrite zombie_proc. by case_decide.
Qed.

Lemma wait_reaps_once_witness :
  exists k', process_wait_by_pid 7 zombie_kernel = (k', Some (mkStatus (state_as_u32 Exited) 3)) /\
    process_wait_by_pid 7 k' = (k', None).
Proof.
  pose proof (wait_reaps_once zombie_kernel 7 eq_refl zombie_pids) as H.
  assert (E : exists k', process_wait_by_pid 7 zombie_kernel = (k', Some (mkStatus (state_as_u32 Exited) 3)))
    by (eexists; reflexivity).
  destruct E as [k' E]. rewrite E in H. exists k'. split; [exact E|].
  destruct H as (i & _ & _ & _ & _ & H). exact H.
Defined.

Lemma mappings_refine_bag_witness :
  used_mappings (proc (fst (process_track_mapping 3 0x5000 2 demo_kernel)) 3)
  ≡ₚ mkMapping true 0x5000 2 :: used_mappings (proc demo_kernel 3).
Proof.
  pose proof (mappings_refine_bag demo_kernel 3 0x5000 2 eq_refl
    ltac:(apply Nat.ltb_lt; reflexivity) ltac:(rewrite demo_proc; reflexivity)) as [H _].
  destruct (process_track_mapping 3 0x5000 2 demo_kernel) as [k' ok] eqn:E.
  destruct ok; [exact (proj1 H)|]. exfalso. revert E. vm_compute. discriminate.
Defined.
