(* ===== verification/Sched.v ===== *)
(** * The scheduler

    [switch_to] to [process_trampoline], [maybe_preempt] and the blocking waits
    of [src/kernel/src/main.rs], and the interleavings a timer tick makes of
    them as a step relation over worlds: the kernel state and, for every slot,
    the point of the kernel's code its saved context resumes at. *)

From stdpp Require Import relations.
From S2P Require Import Prelude Constants Text Phys Paging Console Process.

(** ** Stacks of exited processes *)

Fixpoint queue_slot (p : Z) (slots : list (option Z)) : list (option Z) :=
  match slots with
  | [] => []
  | None :: rest => Some p :: rest
  | Some q :: rest => Some q :: queue_slot p rest
  end.

Definition queue_stack_reclaim (p : Z) (k : Kernel) : Kernel :=
  {| k with PENDING_STACK_RECLAIMS := queue_slot p (PENDING_STACK_RECLAIMS k) |}.

Definition reclaim_pending_stacks (k : Kernel) : Kernel :=
  {| k with
     vm := fold_left (fun v slot => match slot with
             | Some p => reclaim_process_stack p v
             | None => v
             end) (PENDING_STACK_RECLAIMS k) (vm k);
     PENDING_STACK_RECLAIMS := map (fun _ => None) (PENDING_STACK_RECLAIMS k) |}.

(** ** Picking, switching, waking, blocking *)

Definition pick_next_ready (k : Kernel) : option nat :=
  find_first (fun index => is_state Ready (proc k index)) PROCESS_COUNT.

(** [switch_to] up to [context_switch]. *)
Definition switch_to (next_index : nat) (k : Kernel) : Kernel :=
  let k := if Nat.ltb next_index PROCESS_COUNT
           then update_proc next_index (fun p => {| p with state := Running |}) k else k in
  let k := {| k with CURRENT_PROCESS_INDEX := next_index |} in
  let next_pml4 := pml4_phys (proc k next_index) in
  if negb (next_pml4 =? 0) then write_cr3 next_pml4 k
  else
    match lift_vm ensure_kernel_pml4 k with
    | (k, Some target) => if negb (target =? 0) then write_cr3 target k else k
    | (k, None) => k
    end.

Definition should_wake (p : Z) (q : Process) : bool :=
  match waiting_for q with
  | WaitPid target => target =? p
  | WaitAnyChild => true
  | WaitNone => false
  end.

Definition wake (p : Z) (q : Process) : Process :=
  if negb (is_state Blocked q) then q
  else if should_wake p q then {| q with waiting_for := WaitNone; state := Ready |} else q.

(** The first [PROCESS_COUNT] slots of the table. *)
Definition update_all (f : Process -> Process) (k : Kernel) : Kernel :=
  {| k with PROCESS_TABLE := map f (take PROCESS_COUNT (PROCESS_TABLE k))
                             ++ drop PROCESS_COUNT (PROCESS_TABLE k) |}.

Definition wake_waiters_for (p : Z) (k : Kernel) : Kernel := update_all (wake p) k.

Definition block_current_on (target : WaitTarget) (k : Kernel) : Kernel :=
  if Nat.ltb (CURRENT_PROCESS_INDEX k) PROCESS_COUNT
  then update_proc (CURRENT_PROCESS_INDEX k)
         (fun p => {| p with waiting_for := target; state := Blocked |}) k
  else k.

Definition is_live (p : Process) : bool :=
  is_state Ready p || is_state Running p || is_state Blocked p.

Definition has_live_child (parent : Z) (k : Kernel) : bool :=
  match find_first (fun i => (parent_pid (proc k i) =? parent) && is_live (proc k i)) PROCESS_COUNT with
  | Some _ => true
  | None => false
  end.

(** ** The tick *)

(** The slot [maybe_preempt] switches to, with the state it leaves behind. *)
Definition preempt (k : Kernel) : option (Kernel * nat) :=
  let current := CURRENT_PROCESS_INDEX k in
  if Nat.ltb current PROCESS_COUNT && negb (is_state Running (proc k current)) then None
  else
    let? next := pick_next_ready k else None in
    let k := if Nat.ltb current PROCESS_COUNT
             then update_proc current (fun p => {| p with state := Ready |}) k else k in
    Some (k, next).

Definition maybe_preempt (k : Kernel) : Kernel :=
  match preempt k with
  | Some (k, next) => switch_to next k
  | None => k
  end.

(** ** The end of a process *)

(** [process_trampoline] after the program's entry point has returned, up to
    [exit_and_yield]. *)
Definition process_teardown (index : nat) (k : Kernel) : Kernel * Z :=
  let p := process_pid k index in
  let pml4 := pml4_phys (proc k index) in
  let '(k, reclaimed) := process_reclaim_mappings index k in
  let v := vm k in
  let v := reclaim_process_window_tables p v in
  let v := destroy_process_address_space pml4 v in
  let k := {| k with vm := v |} in
  let k := match lift_vm ensure_kernel_pml4 k with
           | (k, Some kernel_pml4) => write_cr3 kernel_pml4 k
           | (k, None) => k
           end in
  let k := update_proc index (fun q => {| q with pml4_phys := 0 |}) k in
  (queue_stack_reclaim p k, reclaimed).

(** The state change of [exit_and_yield]. *)
Definition exit_process (index : nat) (code : Z) (k : Kernel) : Kernel :=
  wake_waiters_for (process_pid k index) (process_set_state index Exited code k).

(** ** Interleavings *)

(** Where a slot's context resumes. [WaitTop] is the head of a blocking wait's
    loop, [WaitFailed] the point after its two checks, [PickNext] and
    [SwitchNext] the two halves of [run_scheduler_step]; the [Exit]
    constructors are the same points of [exit_and_yield]. *)
Inductive Kont : Type :=
  | Fresh
  | InProgram
  | Spawning (child : nat)
  | WaitTop (t : WaitTarget)
  | WaitFailed (t : WaitTarget)
  | PickNext (t : WaitTarget)
  | SwitchNext (t : WaitTarget) (next : nat)
  | ExitTeardown (code : Z)
  | ExitBegin (code : Z)
  | ExitWake
  | ExitPick
  | ExitSwitch (next : nat).

#[export] Instance Kont_eq_dec : EqDecision Kont.
Proof. solve_decision. Defined.

Record World : Type := mkWorld { kern : Kernel; konts : list Kont }.

Definition kont_at (w : World) (i : nat) : Kont := default Fresh (konts w !! i).

Definition current (w : World) : nat := CURRENT_PROCESS_INDEX (kern w).

Definition cur_kont (w : World) : Kont := kont_at w (current w).

Definition set_kont (c : Kont) (k : Kernel) (w : World) : World :=
  mkWorld k (<[current w := c]> (konts w)).

(** Resuming the context of slot [next]: a context that was suspended inside
    [switch_to] reclaims the pending stacks. *)
Definition resume (next : nat) (k : Kernel) (l : list Kont) : World :=
  let k := switch_to next k in
  match default Fresh (l !! next) with
  | Fresh => mkWorld k l
  | _ => mkWorld (reclaim_pending_stacks k) l
  end.

Definition tick (w : World) : World :=
  match preempt (kern w) with
  | Some (k, next) => resume next k (konts w)
  | None => w
  end.

(** One round of [wait_for_pid_blocking] or [wait_for_any_child_blocking]:
    [true] when the loop returns. *)
Definition wait_round (t : WaitTarget) : ST Kernel bool := fun k =>
  match t with
  | WaitPid p =>
      match process_wait_by_pid p k with
      | (k, Some _) => (k, true)
      | (k, None) =>
          (k, match find_process_index_by_pid p k with None => true | Some _ => false end)
      end
  | WaitAnyChild =>
      match process_wait_any_child (current_pid k) k with
      | (k, Some _) => (k, true)
      | (k, None) => (k, negb (has_live_child (current_pid k) k))
      end
  | WaitNone => (k, true)
  end.

Definition next_or_idle (k : Kernel) : nat := default PROCESS_COUNT (pick_next_ready k).

(** The kernel code the current context runs next. *)
Definition run_kont (w : World) : World :=
  let k := kern w in
  match cur_kont w with
  | Fresh => set_kont InProgram k w
  | InProgram | Spawning _ => w
  | WaitTop t =>
      let '(k, done) := wait_round t k in set_kont (if done then InProgram else WaitFailed t) k w
  | WaitFailed t => set_kont (PickNext t) (block_current_on t k) w
  | PickNext t => set_kont (SwitchNext t (next_or_idle k)) k w
  | SwitchNext t next => resume next k (<[current w := WaitTop t]> (konts w))
  | ExitTeardown code => set_kont (ExitBegin code) (fst (process_teardown (current w) k)) w
  | ExitBegin code => set_kont ExitWake (process_set_state (current w) Exited code k) w
  | ExitWake => set_kont ExitPick (wake_waiters_for (process_pid k (current w)) k) w
  | ExitPick => set_kont (ExitSwitch (next_or_idle k)) k w
  | ExitSwitch next => resume next k (<[current w := ExitPick]> (konts w))
  end.

(** A spawn claims a slot at once and prepares it later. *)
Definition begin_spawn (name args : bytes) (argv : list bytes) (w : World) : World :=
  match process_spawn_with_argv name args argv (current_pid (kern w)) (kern w) with
  | (k, Some child) => set_kont (Spawning child) k (mkWorld k (<[child := Fresh]> (konts w)))
  | (k, None) => set_kont InProgram k w
  end.

(** [prepare_process] sets the fields of the address space, entry point and
    stack it has built, or fails. *)
Definition end_spawn (child : nat) (built : option (Z * Z * Z)) (w : World) : World :=
  let k :=
    match built with
    | Some (pml4, entry, sp) =>
        let k := app_set_heap_window child (process_pid (kern w) child) (kern w) in
        let k := update_proc child (fun p =>
                   {| p with pml4_phys := pml4; entry_point := entry; rsp := sp |}) k in
        process_set_state child Ready 0 k
    | None => process_set_state child Failed (-1) (kern w)
    end in
  set_kont InProgram k w.

Inductive step (masked : Kont -> bool) : World -> World -> Prop :=
  | step_tick w : masked (cur_kont w) = false -> step masked w (tick w)
  | step_run w : step masked w (run_kont w)
  | step_wait w t :
      cur_kont w = InProgram -> t <> WaitNone ->
      step masked w (set_kont (WaitTop t) (kern w) w)
  | step_exit w code :
      cur_kont w = InProgram -> (current w < PROCESS_COUNT)%nat ->
      step masked w (set_kont (ExitTeardown code) (kern w) w)
  | step_spawn w name args argv :
      cur_kont w = InProgram -> step masked w (begin_spawn name args argv w)
  | step_prepared w child built :
      cur_kont w = Spawning child -> step masked w (end_spawn child built w).

(** Interrupts are off only until the trampoline's [sti]. *)
Definition code_masked (c : Kont) : bool :=
  match c with Fresh => true | _ => false end.

(** Waiting and exiting with interrupts off throughout. *)
Definition sections_masked (c : Kont) : bool :=
  match c with InProgram | Spawning _ => false | _ => true end.

Definition boot_world (v : Vm) : World :=
  mkWorld (Kernel_new v) (<[PROCESS_COUNT := InProgram]> (replicate (S PROCESS_COUNT) Fresh)).

Definition reachable (masked : Kont -> bool) (v : Vm) (w : World) : Prop :=
  rtc (step masked) (boot_world v) w.
