(* ===== verification/SchedThm.v ===== *)
(** * Scheduling with masked critical sections

    When waiting and exiting run with interrupts off throughout, at most one
    process is running, and no process stays blocked on a status that has been
    recorded: an invariant of every reachable world. *)

From stdpp Require Import relations.
From S2P Require Import Prelude Constants Text Phys Paging Console Process Sched.

(** ** The invariant, over the core of each slot *)

Definition suspended (c : Kont) : bool :=
  match c with Fresh | InProgram | Spawning _ | WaitTop _ => true | _ => false end.

Definition exiting (c : Kont) : bool :=
  match c with
  | ExitTeardown _ | ExitBegin _ | ExitWake | ExitPick | ExitSwitch _ => true
  | _ => false
  end.

(** A slot that is not executing. *)
Definition slot_ok (p : Core) (c : Kont) : Prop :=
  match c_state p with
  | Ready => suspended c = true
  | Blocked => c = WaitTop (c_waiting p)
  | Running => False
  | Loading => c = Fresh
  | _ => True
  end.

(** The executing slot. *)
Definition active_ok (p : Core) (c : Kont) : Prop :=
  match c with
  | PickNext t | SwitchNext t _ => c_state p = Blocked /\ c_waiting p = t
  | ExitWake | ExitPick | ExitSwitch _ => c_state p = Exited
  | _ => c_state p = Running
  end.

Definition awaits (t : WaitTarget) (self : Z) (q : Core) : Prop :=
  match t with
  | WaitPid p => c_pid q = p
  | WaitAnyChild => c_parent q = self
  | WaitNone => False
  end.

(** Every awaited exit has been collected. *)
Definition satisfied (co : nat -> Core) (t : WaitTarget) (self : Z) (exempt : option nat) : Prop :=
  forall j, (j < PROCESS_COUNT)%nat -> awaits t self (co j) -> c_state (co j) = Exited ->
    c_waited (co j) = true \/ exempt = Some j.

Definition no_lost (co : nat -> Core) (exempt : option nat) : Prop :=
  forall i, (i < PROCESS_COUNT)%nat -> c_state (co i) = Blocked ->
    satisfied co (c_waiting (co i)) (c_pid (co i)) exempt.

Definition runnable (co : nat -> Core) (n : nat) : Prop :=
  n = PROCESS_COUNT \/ ((n < PROCESS_COUNT)%nat /\ c_state (co n) = Ready).

Definition spawns_ok (co : nat -> Core) (c : nat -> Kont) : Prop :=
  forall i child, (i <= PROCESS_COUNT)%nat -> c i = Spawning child ->
    (child < PROCESS_COUNT)%nat /\ c_state (co child) = Loading /\
    forall j, (j <= PROCESS_COUNT)%nat -> c j = Spawning child -> j = i.

(** No slot is executing. *)
Record idle_ok (co : nat -> Core) (c : nat -> Kont) : Prop := {
  id_slots : forall i, (i < PROCESS_COUNT)%nat -> slot_ok (co i) (c i);
  id_console : suspended (c PROCESS_COUNT) = true;
  id_spawns : spawns_ok co c;
  id_lost : no_lost co None
}.

Definition exempt_of (c : Kont) (cur : nat) : option nat :=
  match c with ExitWake => Some cur | _ => None end.

(** Slot [cur] is executing. *)
Record active (co : nat -> Core) (c : nat -> Kont) (cur : nat) : Prop := {
  ac_cur : (cur < PROCESS_COUNT)%nat -> active_ok (co cur) (c cur);
  ac_idle : cur = PROCESS_COUNT -> exiting (c cur) = false;
  ac_console : cur <> PROCESS_COUNT -> suspended (c PROCESS_COUNT) = true;
  ac_slots : forall i, (i < PROCESS_COUNT)%nat -> i <> cur -> slot_ok (co i) (c i);
  ac_next : match c cur with SwitchNext _ n | ExitSwitch n => runnable co n | _ => True end;
  ac_spawns : spawns_ok co c;
  ac_lost : no_lost co (exempt_of (c cur) cur);
  ac_failed : match c cur with
              | WaitFailed t => satisfied co t (c_pid (co cur)) None
              | _ => True
              end
}.

Definition running (p : Core) : Core := {| p with c_state := Running |}.

Ltac by_slot i n := destruct (decide (i = n)) as [->|?].

(** [Heq : forall i, co' i = if decide (i = n) then _ else co i] *)
Ltac slot_other Heq i := rewrite (Heq i), decide_False in * by done.

Lemma resume_active co co' c n :
  idle_ok co c -> runnable co n ->
  (forall i, (i < PROCESS_COUNT)%nat -> co' i = if decide (i = n) then running (co i) else co i) ->
  active co' c n.
Proof.
  intros [I1 I2 I3 I4] Hn Heq.
  assert (Hc : (n < PROCESS_COUNT)%nat -> c_state (co n) = Ready).
  { destruct Hn as [->|[_ H]]; [lia|done]. }
  assert (Hs : suspended (c n) = true).
  { destruct Hn as [->|[Hlt H]]; [done|]. specialize (I1 n Hlt). unfold slot_ok in I1.
    by rewrite H in I1. }
  assert (Hst : forall i, (i < PROCESS_COUNT)%nat -> i <> n -> co' i = co i).
  { intros i Hi Hne. by rewrite Heq, decide_False by done. }
  assert (Hsn : (n < PROCESS_COUNT)%nat -> c_state (co' n) = Running).
  { intros H. by rewrite Heq, decide_True by done. }
  assert (Hex : exempt_of (c n) n = None) by (destruct (c n); done).
  split.
  - intros H. specialize (Hsn H). destruct (c n); done.
  - intros _. by destruct (c n).
  - intros _. done.
  - intros i Hi Hne. rewrite Hst by done. auto.
  - by destruct (c n).
  - intros i child Hi E. destruct (I3 i child Hi E) as (H1 & H2 & H3). split; [done|].
    split; [|done]. rewrite Hst; [done|done|]. intros ->. rewrite Hc in H2 by done. done.
  - rewrite Hex. intros i Hi Hb. by_slot i n; [by rewrite Hsn in Hb|].
    rewrite Hst in * by done. intros j Hj Ha He. by_slot j n; [by rewrite Hsn in He|].
    rewrite Hst in * by done. by apply (I4 i).
  - by destruct (c n).
Qed.

(** A change of the executing slot's continuation alone. *)
Lemma kont_active co c c' cur d :
  active co c cur -> (cur <= PROCESS_COUNT)%nat ->
  (forall i, (i <= PROCESS_COUNT)%nat -> c' i = if decide (i = cur) then d else c i) ->
  ((cur < PROCESS_COUNT)%nat -> active_ok (co cur) (c cur) -> active_ok (co cur) d) ->
  (cur = PROCESS_COUNT -> exiting (c cur) = false -> exiting d = false) ->
  match d with SwitchNext _ n | ExitSwitch n => runnable co n | Spawning _ => False | _ => True end ->
  exempt_of (c cur) cur = None ->
  match d with WaitFailed t => satisfied co t (c_pid (co cur)) None | _ => True end ->
  active co c' cur.
Proof.
  intros [A1 A2 A3 A4 A5 A6 A7 A8] Hcur Hc H1 H2 H3 H4 H5.
  assert (Hd : c' cur = d) by by rewrite Hc, decide_True.
  assert (Ho : forall i, (i <= PROCESS_COUNT)%nat -> i <> cur -> c' i = c i).
  { intros i Hi Hne. by rewrite Hc, decide_False. }
  split; rewrite ?Hd.
  - auto.
  - intros ->. auto.
  - intros Hne. rewrite Ho by lia. auto.
  - intros i Hi Hne. rewrite Ho by lia. auto.
  - by destruct d.
  - intros i child Hi E. by_slot i cur; [rewrite Hd in E; by rewrite E in H3|]. rewrite Ho in E by done.
    destruct (A6 i child Hi E) as (B1 & B2 & B3). split_and!; [done..|].
    intros j Hj Ej. by_slot j cur; [rewrite Hd in Ej; by rewrite Ej in H3|].
    rewrite Ho in Ej by done. auto.
  - assert (Hx : no_lost co None) by by rewrite H4 in A7.
    intros i Hi Hb j Hj Ha He. destruct (Hx i Hi Hb j Hj Ha He) as [?|?]; [by left|done].
  - done.
Qed.

(** Marking collected statuses. *)
Definition grows (p q : Core) : Prop := q = p \/ q = {| p with c_waited := true |}.

Lemma satisfied_grows co co' t self e :
  (forall i, (i < PROCESS_COUNT)%nat -> grows (co i) (co' i)) ->
  satisfied co t self e -> satisfied co' t self e.
Proof.
  intros Hg Hs j Hj Ha He. destruct (Hg j Hj) as [E|E]; rewrite E in *; [by apply Hs|by left].
Qed.

Lemma grows_active co co' c cur :
  active co c cur -> (cur <= PROCESS_COUNT)%nat ->
  (forall i, (i <= PROCESS_COUNT)%nat -> grows (co i) (co' i)) -> active co' c cur.
Proof.
  intros [A1 A2 A3 A4 A5 A6 A7 A8] Hcur Hg.
  assert (Hst : forall i, (i <= PROCESS_COUNT)%nat -> c_state (co' i) = c_state (co i) /\
    c_waiting (co' i) = c_waiting (co i) /\ c_pid (co' i) = c_pid (co i)).
  { intros i Hi. by destruct (Hg i Hi) as [->| ->]. }
  assert (Hg' : forall i, (i < PROCESS_COUNT)%nat -> grows (co i) (co' i)) by (intros; apply Hg; lia).
  split; auto.
  - intros H. specialize (A1 H). destruct (Hst cur Hcur) as (E1 & E2 & _).
    unfold active_ok in *. by rewrite E1, E2.
  - intros i Hi Hne. specialize (A4 i Hi Hne). unfold slot_ok in *.
    destruct (Hst i) as (-> & -> & _); [lia|done].
  - destruct (c cur); auto; unfold runnable in *; destruct A5 as [?|[? ?]]; auto; right;
      (split; [done|]; destruct (Hst next) as (-> & _); [lia|done]).
  - intros i child Hi E. destruct (A6 i child Hi E) as (B1 & B2 & B3). split_and!; [done| |done].
    destruct (Hst child) as (-> & _); [lia|done].
  - intros i Hi Hb. destruct (Hst i) as (E1 & E2 & E3); [lia|]. rewrite E1 in Hb. rewrite E2, E3.
    apply (satisfied_grows co); auto.
  - destruct (c cur); auto. destruct (Hst cur) as (_ & _ & ->); [lia|].
    by apply (satisfied_grows co).
Qed.

(** ** The steps that change a slot's state *)

Definition with_state (s : ProcessState) (p : Core) : Core := {| p with c_state := s |}.

Lemma lost_none co e : no_lost co e -> e = None -> no_lost co None.
Proof. by intros H ->. Qed.

(** A voluntary switch leaves the slot blocked in its loop, or exited. *)
Lemma yield_idle co c c' cur d :
  active co c cur -> (cur <= PROCESS_COUNT)%nat ->
  (forall i, (i <= PROCESS_COUNT)%nat -> c' i = if decide (i = cur) then d else c i) ->
  match c cur with
  | SwitchNext t _ => d = WaitTop t
  | ExitSwitch _ => d = ExitPick
  | _ => False
  end ->
  idle_ok co c'.
Proof.
  intros [A1 A2 A3 A4 A5 A6 A7 A8] Hcur Hc Hd.
  assert (Hdd : c' cur = d) by by rewrite Hc, decide_True.
  assert (Ho : forall i, (i <= PROCESS_COUNT)%nat -> i <> cur -> c' i = c i).
  { intros i Hi Hne. by rewrite Hc, decide_False. }
  assert (Hnot : forall child, d <> Spawning child) by (destruct (c cur); try done; by subst d).
  split.
  - intros i Hi. by_slot i cur; [|rewrite Ho by (done || lia); auto].
    rewrite Hdd. specialize (A1 Hi). destruct (c cur); try done; subst d; unfold slot_ok.
    + simpl in A1. destruct A1 as [-> ->]. done.
    + simpl in A1. by rewrite A1.
  - destruct (decide (cur = PROCESS_COUNT)) as [E|Hne]; [|rewrite Ho by (done || lia); auto].
    rewrite <- E, Hdd. specialize (A2 E). by destruct (c cur); try done; subst d.
  - intros i child Hi E. by_slot i cur; [rewrite Hdd in E; by apply Hnot in E|].
    rewrite Ho in E by done. destruct (A6 i child Hi E) as (B1 & B2 & B3). split_and!; [done..|].
    intros j Hj Ej. by_slot j cur; [rewrite Hdd in Ej; by apply Hnot in Ej|].
    rewrite Ho in Ej by done. auto.
  - eapply lost_none; [exact A7|]. by destruct (c cur).
Qed.

(** Changing the executing slot's state to one that is neither blocked nor exited. *)
Lemma no_lost_state co co' cur e s :
  no_lost co e -> e = None -> s <> Blocked -> s <> Exited ->
  (forall i, (i < PROCESS_COUNT)%nat -> co' i = if decide (i = cur) then with_state s (co i) else co i) ->
  no_lost co' None.
Proof.
  intros A -> H1 H2 Hco i Hi Hb. rewrite Hco in Hb |- * by done. case_decide; [done|].
  intros j Hj Ha He. rewrite Hco in Ha, He |- * by done. case_decide; [done|]. by apply (A i).
Qed.

Lemma preempt_idle co co' c cur :
  active co c cur -> (cur <= PROCESS_COUNT)%nat -> sections_masked (c cur) = false ->
  (forall i, (i < PROCESS_COUNT)%nat -> co' i = if decide (i = cur) then with_state Ready (co i) else co i) ->
  idle_ok co' c.
Proof.
  intros [A1 A2 A3 A4 A5 A6 A7 A8] Hcur Hm Hco.
  assert (Hs : suspended (c cur) = true) by by destruct (c cur).
  assert (Hr : (cur < PROCESS_COUNT)%nat -> c_state (co cur) = Running).
  { intros H. specialize (A1 H). by destruct (c cur). }
  split.
  - intros i Hi. rewrite Hco by done. case_decide as Hd; [subst i|auto]. done.
  - destruct (decide (cur = PROCESS_COUNT)) as [E|Hne]; [by rewrite <- E|auto].
  - intros i child Hi E. destruct (A6 i child Hi E) as (B1 & B2 & B3). split_and!; [done| |done].
    rewrite Hco by done. case_decide as Hd; [subst child|done]. by rewrite Hr in B2.
  - eapply (no_lost_state co); [exact A7| | | |exact Hco]; try done. by destruct (c cur).
Qed.

(** Changing the executing slot's core and continuation together. *)
Lemma active_change co co' c c' cur p d :
  active co c cur -> (cur <= PROCESS_COUNT)%nat -> c_state (co cur) <> Loading \/ cur = PROCESS_COUNT ->
  (forall i, (i <= PROCESS_COUNT)%nat -> c' i = if decide (i = cur) then d else c i) ->
  (forall i, (i < PROCESS_COUNT)%nat -> co' i = if decide (i = cur) then p else co i) ->
  (cur < PROCESS_COUNT)%nat /\ active_ok p d \/ cur = PROCESS_COUNT /\ exiting d = false ->
  match d with SwitchNext _ _ | ExitSwitch _ | Spawning _ | WaitFailed _ => False | _ => True end ->
  no_lost co' (exempt_of d cur) ->
  active co' c' cur.
Proof.
  intros [A1 A2 A3 A4 A5 A6 A7 A8] Hcur HL Hc Hco H1 H3 Hl.
  assert (Hd : c' cur = d) by by rewrite Hc, decide_True.
  assert (Ho : forall i, (i <= PROCESS_COUNT)%nat -> i <> cur -> c' i = c i).
  { intros i Hi Hne. by rewrite Hc, decide_False. }
  split; rewrite ?Hd; try done.
  - intros H. rewrite Hco, decide_True by done. destruct H1 as [[_ H1]|[? _]]; [done|lia].
  - intros E. destruct H1 as [[? _]|[_ H1]]; [lia|done].
  - intros Hne. rewrite Ho by lia. auto.
  - intros i Hi Hne. rewrite Ho, Hco, decide_False by lia. auto.
  - by destruct d.
  - intros i child Hi E. by_slot i cur; [rewrite Hd in E; by rewrite E in H3|].
    rewrite Ho in E by done. destruct (A6 i child Hi E) as (B1 & B2 & B3). split_and!; [done| |].
    + rewrite Hco by done. case_decide as Hx; [subst child; destruct HL; [done|lia]|done].
    + intros j Hj Ej. by_slot j cur; [rewrite Hd in Ej; by rewrite Ej in H3|].
      rewrite Ho in Ej by done. auto.
  - by destruct d.
Qed.

Definition blocked_on (t : WaitTarget) (p : Core) : Core :=
  {| p with c_state := Blocked; c_waiting := t |}.

Lemma block_active co co' c c' cur t :
  active co c cur -> (cur < PROCESS_COUNT)%nat -> c cur = WaitFailed t ->
  (forall i, (i <= PROCESS_COUNT)%nat -> c' i = if decide (i = cur) then PickNext t else c i) ->
  (forall i, (i < PROCESS_COUNT)%nat -> co' i = if decide (i = cur) then blocked_on t (co cur) else co i) ->
  active co' c' cur.
Proof.
  intros A Hcur Ec Hc Hco. pose proof A as [A1 _ _ _ _ _ A7 A8]. rewrite Ec in A1, A7, A8.
  specialize (A1 Hcur). simpl in A1, A7.
  apply (active_change co co' c c' cur (blocked_on t (co cur)) (PickNext t)); try done; try lia.
  - left. by rewrite A1.
  - by left.
  - intros i Hi Hb j Hj Ha He. rewrite (Hco j) in Ha, He |- * by done.
    destruct (decide (j = cur)); [done|]. rewrite (Hco i) in Ha, Hb by done.
    destruct (decide (i = cur)) as [->|]; [by apply A8|by apply (A7 i)].
Qed.

Lemma exit_active co co' c c' cur code :
  active co c cur -> (cur < PROCESS_COUNT)%nat -> c cur = ExitBegin code ->
  (forall i, (i <= PROCESS_COUNT)%nat -> c' i = if decide (i = cur) then ExitWake else c i) ->
  (forall i, (i < PROCESS_COUNT)%nat -> co' i = if decide (i = cur) then with_state Exited (co cur) else co i) ->
  active co' c' cur.
Proof.
  intros A Hcur Ec Hc Hco. pose proof A as [A1 _ _ _ _ _ A7 _]. rewrite Ec in A1, A7.
  specialize (A1 Hcur). simpl in A1, A7.
  apply (active_change co co' c c' cur (with_state Exited (co cur)) ExitWake); try done; try lia.
  - left. by rewrite A1.
  - by left.
  - intros i Hi Hb. rewrite Hco in Hb |- * by done. case_decide as Hd; [done|].
    intros j Hj Ha He. rewrite Hco in Ha, He |- * by done.
    case_decide as Hx; [subst j; by right|]. left.
    by destruct (A7 i Hi Hb j Hj Ha He) as [?|?].
Qed.

Definition should_wake_core (p : Z) (q : Core) : bool :=
  match c_waiting q with
  | WaitPid target => target =? p
  | WaitAnyChild => true
  | WaitNone => false
  end.

Definition wake_core (p : Z) (q : Core) : Core :=
  if negb (bool_decide (c_state q = Blocked)) then q
  else if should_wake_core p q then {| q with c_waiting := WaitNone; c_state := Ready |} else q.

Lemma wake_cases p q :
  (wake_core p q = q /\ (c_state q = Blocked -> should_wake_core p q = false)) \/
  (c_state q = Blocked /\ should_wake_core p q = true /\
   wake_core p q = {| q with c_waiting := WaitNone; c_state := Ready |}).
Proof.
  unfold wake_core. case_bool_decide as Hb; simpl; [|by left].
  destruct (should_wake_core p q); [right|left]; done.
Qed.

Lemma wake_active co co' c c' cur :
  active co c cur -> (cur < PROCESS_COUNT)%nat -> c cur = ExitWake ->
  (forall i, (i <= PROCESS_COUNT)%nat -> c' i = if decide (i = cur) then ExitPick else c i) ->
  (forall i, (i < PROCESS_COUNT)%nat -> co' i = wake_core (c_pid (co cur)) (co i)) ->
  active co' c' cur.
Proof.
  intros [A1 A2 A3 A4 A5 A6 A7 A8] Hcur Ec Hc Hco. rewrite Ec in A1, A7. specialize (A1 Hcur).
  simpl in A1, A7.
  assert (Hd : c' cur = ExitPick) by (rewrite Hc by lia; by rewrite decide_True).
  assert (Ho : forall i, (i <= PROCESS_COUNT)%nat -> i <> cur -> c' i = c i).
  { intros i Hi Hne. by rewrite Hc, decide_False. }
  assert (Hsame : forall i, (i < PROCESS_COUNT)%nat -> c_state (co i) <> Blocked -> co' i = co i).
  { intros i Hi Hb. rewrite Hco by done. unfold wake_core. by rewrite bool_decide_false. }
  assert (Hex : forall j, (j < PROCESS_COUNT)%nat -> c_state (co' j) = Exited -> co' j = co j).
  { intros j Hj. rewrite Hco by done. by destruct (wake_cases (c_pid (co cur)) (co j)) as [[-> _]|(_ & _ & ->)]. }
  split; rewrite ?Hd; try done.
  - intros _. rewrite Hsame; [done|done|by rewrite A1].
  - lia.
  - intros Hne. rewrite Ho by lia. auto.
  - intros i Hi Hne. rewrite Ho, Hco by lia. specialize (A4 i Hi Hne). unfold slot_ok in *.
    destruct (wake_cases (c_pid (co cur)) (co i)) as [[-> _]|(Hb & _ & ->)]; [done|].
    rewrite Hb in A4. simpl. by rewrite A4.
  - intros i child Hi E. by_slot i cur; [by rewrite Hd in E|].
    rewrite Ho in E by done. destruct (A6 i child Hi E) as (B1 & B2 & B3). split_and!; [done| |].
    + rewrite Hsame; [done|done|by rewrite B2].
    + intros j Hj Ej. by_slot j cur; [by rewrite Hd in Ej|]. rewrite Ho in Ej by done. auto.
  - intros i Hi Hb j Hj Ha He. left. pose proof (Hex j Hj He) as Ej.
    rewrite Ej in Ha, He |- *. clear Ej.
    assert (Hi' : co' i = co i /\ should_wake_core (c_pid (co cur)) (co i) = false).
    { rewrite Hco in Hb |- * by done.
      destruct (wake_cases (c_pid (co cur)) (co i)) as [[E Hw]|(_ & _ & E)]; rewrite E in Hb |- *; [|done].
      split; [done|by apply Hw]. }
    destruct Hi' as [E Hw]. rewrite E in Ha, Hb.
    destruct (A7 i Hi Hb j Hj Ha He) as [?|[= <-]]; [done|]. exfalso.
    unfold should_wake_core in Hw. destruct (c_waiting (co i)); try done.
    simpl in Ha. rewrite Ha, Z.eqb_refl in Hw. done.
Qed.

Definition free_core (p : Core) : Prop :=
  c_state p = Empty \/ (c_waited p = true /\ (c_state p = Exited \/ c_state p = Failed)).

Lemma spawn_active co co' c c' cur child p :
  active co c cur -> (cur <= PROCESS_COUNT)%nat -> c cur = InProgram ->
  (child < PROCESS_COUNT)%nat -> free_core (co child) -> c_state p = Loading ->
  (forall i, (i <= PROCESS_COUNT)%nat -> c' i =
     if decide (i = cur) then Spawning child else if decide (i = child) then Fresh else c i) ->
  (forall i, (i < PROCESS_COUNT)%nat -> co' i = if decide (i = child) then p else co i) ->
  active co' c' cur.
Proof.
  intros [A1 A2 A3 A4 A5 A6 A7 A8] Hcur Ec Hch Hf Hp Hc Hco. rewrite Ec in A1, A7.
  assert (Hne : child <> cur).
  { intros ->. specialize (A1 Hch). unfold free_core in Hf. simpl in A1. rewrite A1 in Hf.
    by destruct Hf as [?|[_ [?|?]]]. }
  assert (Hd : c' cur = Spawning child) by (by rewrite Hc, decide_True).
  assert (Hfr : c' child = Fresh) by (by rewrite Hc, decide_False, decide_True by (done || lia)).
  assert (Ho : forall i, (i <= PROCESS_COUNT)%nat -> i <> cur -> i <> child -> c' i = c i).
  { intros i Hi H1 H2. by rewrite Hc, !decide_False. }
  assert (Hst : forall i, (i < PROCESS_COUNT)%nat -> i <> child -> co' i = co i).
  { intros i Hi H1. by rewrite Hco, decide_False. }
  assert (Hload : forall i x, (i <= PROCESS_COUNT)%nat -> c i = Spawning x -> x <> child).
  { intros i x Hi E ->. destruct (A6 i child Hi E) as (_ & B & _). unfold free_core in Hf.
    rewrite B in Hf. by destruct Hf as [?|[_ [?|?]]]. }
  split; rewrite ?Hd; try done.
  - intros H. rewrite Hst by (done || lia). by apply A1.
  - intros H. by_slot cur child; [done|]. rewrite Ho by lia. auto.
  - intros i Hi H1. by_slot i child.
    + rewrite Hfr, Hco, decide_True by done. unfold slot_ok. by rewrite Hp.
    + rewrite Ho, Hst by lia. auto.
  - intros i x Hi E. by_slot i cur.
    + rewrite Hd in E. injection E as <-. split; [done|]. rewrite Hco, decide_True by done.
      split; [done|]. intros j Hj Ej. by_slot j cur; [done|]. exfalso.
      by_slot j child; [by rewrite Hfr in Ej|]. rewrite Ho in Ej by done. by apply (Hload j child).
    + by_slot i child; [by rewrite Hfr in E|]. rewrite Ho in E by done.
      destruct (A6 i x Hi E) as (B1 & B2 & B3). split; [done|].
      rewrite Hst by (try done; by apply (Hload i)). split; [done|]. intros j Hj Ej.
      by_slot j cur; [rewrite Hd in Ej; injection Ej as ->; by destruct (Hload i x)|].
      by_slot j child; [by rewrite Hfr in Ej|]. rewrite Ho in Ej by done. auto.
  - intros i Hi Hb j Hj Ha He. rewrite (Hco i) in Hb, Ha by done.
    destruct (decide (i = child)); [congruence|]. rewrite (Hco j) in Ha, He |- * by done.
    destruct (decide (j = child)); [congruence|]. by apply (A7 i Hi Hb j).
Qed.

Lemma prepared_active co co' c c' cur child s :
  active co c cur -> (cur <= PROCESS_COUNT)%nat -> c cur = Spawning child ->
  s = Ready \/ s = Failed ->
  (forall i, (i <= PROCESS_COUNT)%nat -> c' i = if decide (i = cur) then InProgram else c i) ->
  (forall i, (i < PROCESS_COUNT)%nat -> co' i =
     if decide (i = child) then with_state s (co i) else co i) ->
  active co' c' cur.
Proof.
  intros [A1 A2 A3 A4 A5 A6 A7 A8] Hcur Ec Hs Hc Hco. rewrite Ec in A1, A7.
  destruct (A6 cur child Hcur Ec) as (B1 & B2 & B3).
  assert (Hne : child <> cur).
  { intros ->. specialize (A1 B1). simpl in A1. congruence. }
  assert (Hd : c' cur = InProgram) by (by rewrite Hc, decide_True).
  assert (Ho : forall i, (i <= PROCESS_COUNT)%nat -> i <> cur -> c' i = c i).
  { intros i Hi H1. by rewrite Hc, !decide_False. }
  assert (Hst : forall i, (i < PROCESS_COUNT)%nat -> i <> child -> co' i = co i).
  { intros i Hi H1. by rewrite Hco, decide_False. }
  split; rewrite ?Hd; try done.
  - intros H. rewrite Hst by (done || lia). by apply A1.
  - intros H. rewrite Ho by lia. auto.
  - intros i Hi H1. rewrite Ho by lia. by_slot i child.
    + specialize (A4 child Hi H1). unfold slot_ok in A4. rewrite B2 in A4.
      rewrite Hco, decide_True, A4 by done. unfold slot_ok. by destruct Hs as [->| ->].
    + rewrite Hst by done. auto.
  - intros i x Hi E. by_slot i cur; [by rewrite Hd in E|]. rewrite Ho in E by done.
    destruct (A6 i x Hi E) as (C1 & C2 & C3). split; [done|].
    assert (x <> child) by (intros ->; by destruct (B3 i Hi E)).
    rewrite Hst by done. split; [done|]. intros j Hj Ej. by_slot j cur; [by rewrite Hd in Ej|].
    rewrite Ho in Ej by done. auto.
  - intros i Hi Hb j Hj Ha He. rewrite (Hco i) in Hb, Ha by done.
    destruct (decide (i = child)); [by destruct Hs as [->| ->]|].
    rewrite (Hco j) in Ha, He |- * by done.
    destruct (decide (j = child)); [by destruct Hs as [->| ->]|]. by apply (A7 i Hi Hb j).
Qed.

(** ** The kernel operations on the table *)

Lemma proc_table k1 k2 i : PROCESS_TABLE k1 = PROCESS_TABLE k2 -> proc k1 i = proc k2 i.
Proof. unfold proc. by intros ->. Qed.

Lemma kernel_pml4_table k :
  PROCESS_TABLE (fst (lift_vm ensure_kernel_pml4 k)) = PROCESS_TABLE k /\
  CURRENT_PROCESS_INDEX (fst (lift_vm ensure_kernel_pml4 k)) = CURRENT_PROCESS_INDEX k.
Proof. unfold lift_vm. by destruct (ensure_kernel_pml4 (vm k)). Qed.

Lemma switch_to_table n k :
  PROCESS_TABLE (switch_to n k) =
    (if Nat.ltb n PROCESS_COUNT
     then alter (fun p => {| p with state := Running |}) n (PROCESS_TABLE k) else PROCESS_TABLE k) /\
  CURRENT_PROCESS_INDEX (switch_to n k) = n.
Proof.
  unfold switch_to. cbv zeta. destruct (Nat.ltb n PROCESS_COUNT);
  match goal with |- context [lift_vm ensure_kernel_pml4 ?k1] =>
    pose proof (kernel_pml4_table k1) as [H1 H2];
    destruct (lift_vm ensure_kernel_pml4 k1) as [k2 [t|]] end; cbn [fst] in H1, H2;
  repeat case_goal; simpl; by rewrite ?H1, ?H2.
Qed.

Lemma switch_to_core n k i :
  table_sized k -> (i < PROCESS_COUNT)%nat -> (n <= PROCESS_COUNT)%nat ->
  core (proc (switch_to n k) i) =
    if decide (i = n) then running (core (proc k i)) else core (proc k i).
Proof.
  intros Hs Hi Hn. destruct (switch_to_table n k) as [H _].
  destruct (Nat.ltb_spec n PROCESS_COUNT).
  - rewrite (proc_table _ (update_proc n (fun p => {| p with state := Running |}) k)) by done.
    rewrite proc_update by (done || lia). case_decide; [by subst i|done].
  - rewrite (proc_table _ k) by done. rewrite decide_False by lia. done.
Qed.

Lemma switch_to_sized n k : table_sized k -> table_sized (switch_to n k).
Proof.
  unfold table_sized. destruct (switch_to_table n k) as [-> _].
  destruct (Nat.ltb n PROCESS_COUNT); by rewrite ?length_alter.
Qed.

Lemma resume_kern n k l :
  PROCESS_TABLE (kern (resume n k l)) = PROCESS_TABLE (switch_to n k) /\
  CURRENT_PROCESS_INDEX (kern (resume n k l)) = n /\ konts (resume n k l) = l.
Proof.
  unfold resume. cbv zeta. destruct (switch_to_table n k) as [_ H].
  by destruct (default Fresh (l !! n)).
Qed.

Lemma teardown_core index k i :
  table_sized k -> (index <= PROCESS_COUNT)%nat ->
  core (proc (fst (process_teardown index k)) i) = core (proc k i) /\
  table_sized (fst (process_teardown index k)) /\
  CURRENT_PROCESS_INDEX (fst (process_teardown index k)) = CURRENT_PROCESS_INDEX k.
Proof.
  intros Hs Hi. unfold process_teardown. cbv zeta.
  assert (Hr : core (proc (fst (process_reclaim_mappings index k)) i) = core (proc k i) /\
    table_sized (fst (process_reclaim_mappings index k)) /\
    CURRENT_PROCESS_INDEX (fst (process_reclaim_mappings index k)) = CURRENT_PROCESS_INDEX k).
  { unfold process_reclaim_mappings. case_goal; [done|].
    destruct (unmap_mappings _ _ _) as [v n]. cbn [fst]. split_and!; [|by apply update_sized|done].
    rewrite proc_update by done. by case_decide as E; [subst i|]. }
  destruct (process_reclaim_mappings index k) as [k1 n]. cbn [fst] in Hr.
  destruct Hr as (H1 & H2 & H3).
  match goal with |- context [lift_vm ensure_kernel_pml4 ?kk] =>
    pose proof (kernel_pml4_table kk) as [E1 E2];
    destruct (lift_vm ensure_kernel_pml4 kk) as [k2 o] end. cbn [fst] in E1, E2. cbn [fst].
  assert (Hk : forall k3, PROCESS_TABLE k3 = PROCESS_TABLE k1 ->
    CURRENT_PROCESS_INDEX k3 = CURRENT_PROCESS_INDEX k1 ->
    let k4 := queue_stack_reclaim (process_pid k index)
                (update_proc index (fun q => {| q with pml4_phys := 0 |}) k3) in
    core (proc k4 i) = core (proc k i) /\ table_sized k4 /\
    CURRENT_PROCESS_INDEX k4 = CURRENT_PROCESS_INDEX k).
  { intros k3 T3 C3 k4. assert (Hs3 : table_sized k3) by (unfold table_sized; by rewrite T3).
    split_and!; [|by apply (update_sized k3)|by transitivity (CURRENT_PROCESS_INDEX k1)].
    rewrite (proc_table k4 (update_proc index (fun q => {| q with pml4_phys := 0 |}) k3)) by done.
    rewrite proc_update by done. rewrite <- H1, (proc_table k3 k1 i), (proc_table k3 k1 index) by done.
    by case_decide as E; [subst i|]. }
  destruct o; by apply Hk.
Qed.

Lemma wake_all_core p k i :
  table_sized k -> (i < PROCESS_COUNT)%nat ->
  core (proc (wake_waiters_for p k) i) = wake_core p (core (proc k i)).
Proof.
  intros Hs Hi. unfold wake_waiters_for, update_all, proc. simpl PROCESS_TABLE.
  rewrite lookup_app_l by (rewrite length_map, length_take; unfold table_sized in Hs; lia).
  rewrite list_lookup_fmap, lookup_take, decide_True by done.
  destruct (lookup_lt_is_Some_2 (PROCESS_TABLE k) i) as [q E]; [unfold table_sized in Hs; lia|].
  rewrite E. simpl. unfold wake, wake_core, is_state. simpl.
  case_bool_decide; [|done]. simpl. unfold should_wake, should_wake_core. simpl.
  by destruct (waiting_for q) as [|t|]; [|destruct (t =? p)|].
Qed.

Lemma wake_all_sized p k : table_sized k -> table_sized (wake_waiters_for p k).
Proof.
  unfold table_sized. intros Hs. unfold wake_waiters_for, update_all. simpl PROCESS_TABLE.
  rewrite length_app, length_map, length_take, length_drop. lia.
Qed.

(** ** The invariant of worlds *)

Abbreviation cores k := (fun i => core (proc k i)).

Record sched_inv (w : World) : Prop := {
  si_table : table_sized (kern w);
  si_konts : length (konts w) = S PROCESS_COUNT;
  si_cur : (current w <= PROCESS_COUNT)%nat;
  si_active : active (cores (kern w)) (kont_at w) (current w)
}.

Lemma kont_insert (l : list Kont) n d i :
  length l = S PROCESS_COUNT -> (n <= PROCESS_COUNT)%nat ->
  default Fresh (<[n := d]> l !! i) = if decide (i = n) then d else default Fresh (l !! i).
Proof.
  intros Hl Hn. case_decide as Hd; [subst i|].
  - by rewrite list_lookup_insert_eq by lia.
  - by rewrite list_lookup_insert_ne.
Qed.

(** A step that stays in the same slot. *)
Lemma stay_inv w k d :
  sched_inv w -> table_sized k -> CURRENT_PROCESS_INDEX k = current w ->
  ((forall i, (i <= PROCESS_COUNT)%nat ->
     kont_at (set_kont d k w) i = if decide (i = current w) then d else kont_at w i) ->
   active (cores k) (kont_at (set_kont d k w)) (current w)) ->
  sched_inv (set_kont d k w).
Proof.
  intros [T K C A] Hs Hc H.
  assert (Hk : forall i, (i <= PROCESS_COUNT)%nat ->
    kont_at (set_kont d k w) i = if decide (i = current w) then d else kont_at w i).
  { intros i _. unfold kont_at, set_kont. simpl. by apply kont_insert. }
  split; [done|by unfold set_kont; simpl; rewrite length_insert| |];
    unfold current; simpl; rewrite Hc; auto.
Qed.

Lemma resume_inv n k l :
  table_sized k -> length l = S PROCESS_COUNT -> (n <= PROCESS_COUNT)%nat ->
  idle_ok (cores k) (fun i => default Fresh (l !! i)) -> runnable (cores k) n ->
  sched_inv (resume n k l).
Proof.
  intros Hs Hl Hn Hi Hr. destruct (resume_kern n k l) as (H1 & H2 & H3).
  assert (Ht : table_sized (kern (resume n k l))).
  { pose proof (switch_to_sized n k Hs) as H. unfold table_sized in *. by rewrite H1. }
  split; [done|by rewrite H3|by unfold current; rewrite H2|].
  unfold current. rewrite H2. unfold kont_at. rewrite H3.
  apply (resume_active (cores k)); [done|done|]. intros i Hb.
  rewrite (proc_table _ _ i H1). by apply switch_to_core.
Qed.

Lemma pick_runnable k : runnable (cores k) (next_or_idle k).
Proof.
  unfold next_or_idle, pick_next_ready. destruct (find_first _ _) as [n|] eqn:E; [|by left].
  apply find_first_slot in E as [H1 H2%is_state_true]. by right.
Qed.

Lemma runnable_le co n : runnable co n -> (n <= PROCESS_COUNT)%nat.
Proof. intros [->|[H _]]; lia. Qed.

Lemma tick_inv w : sections_masked (cur_kont w) = false -> sched_inv w -> sched_inv (tick w).
Proof.
  intros Hm W. pose proof W as [T K C A]. unfold tick, preempt.
  set (cur := CURRENT_PROCESS_INDEX (kern w)) in *. fold (current w) in cur.
  destruct (Nat.ltb cur PROCESS_COUNT && negb (is_state Running (proc (kern w) cur))); [done|].
  destruct (pick_next_ready (kern w)) as [n|] eqn:En; [|done].
  apply find_first_slot in En as [Hn Hr%is_state_true].
  set (k1 := if Nat.ltb cur PROCESS_COUNT then _ else _).
  assert (Hco : forall i, (i < PROCESS_COUNT)%nat -> core (proc k1 i) =
    if decide (i = cur) then with_state Ready (core (proc (kern w) i)) else core (proc (kern w) i)).
  { intros i Hi. unfold k1. destruct (Nat.ltb_spec cur PROCESS_COUNT).
    - rewrite proc_update by (done || lia). case_decide; [by subst i|done].
    - rewrite decide_False by lia. done. }
  assert (Hs1 : table_sized k1).
  { unfold k1. case_goal; [by apply update_sized|done]. }
  apply resume_inv; [done|done|lia| |].
  - by apply (preempt_idle (cores (kern w)) _ (kont_at w) cur).
  - right. split; [done|]. rewrite Hco by done. case_decide; [done|]. done.
Qed.

Lemma wait_round_spec t k :
  table_sized k -> t <> WaitNone ->
  let '(k', fin) := wait_round t k in
  table_sized k' /\ CURRENT_PROCESS_INDEX k' = CURRENT_PROCESS_INDEX k /\
  (forall i, grows (core (proc k i)) (core (proc k' i))) /\
  (fin = false -> k' = k /\ satisfied (cores k) t (current_pid k) None).
Proof.
  intros Hs Ht.
  assert (Hset : forall i, (i < PROCESS_COUNT)%nat -> forall j,
    grows (core (proc k j)) (core (proc (set_waited i k) j))).
  { intros i Hi j. rewrite set_waited_core by (done || lia). case_decide; [subst j; by right|by left]. }
  assert (Hsame : forall i, grows (core (proc k i)) (core (proc k i))) by by left.
  unfold wait_round. destruct t as [|p|]; [done| |].
  - pose proof (wait_by_pid_spec k p Hs) as H.
    destruct (process_wait_by_pid p k) as [k' [st|]].
    + destruct H as (i & (Hi & _) & _ & ->). split_and!; [by apply update_sized|done|auto|done].
    + destruct H as [-> Hz]. split_and!; [done|done|done|]. intros _. split; [done|].
      intros j Hj Ha He. left. simpl in *. destruct (waited (proc k j)) eqn:E; [done|].
      destruct (Hz j). unfold zombie_of. auto.
  - unfold process_wait_any_child. destruct (find_first _ _) as [i|] eqn:E.
    + apply find_first_slot in E as [Hi _]. split_and!; [by apply update_sized|done|auto|done].
    + split_and!; [done|done|done|]. intros _. split; [done|]. intros j Hj Ha He. left.
      pose proof (find_first_none_slot _ j E Hj) as H. simpl in *.
      destruct (waited (proc k j)); [done|]. unfold current_pid, process_pid in *.
      assert (Hz : is_zombie (proc k j) = true) by (apply is_zombie_true; by left).
      by rewrite Ha, Z.eqb_refl, Hz in H.
Qed.

Lemma kont_only_inv w d :
  sched_inv w ->
  ((current w < PROCESS_COUNT)%nat ->
     active_ok (core (proc (kern w) (current w))) (cur_kont w) ->
     active_ok (core (proc (kern w) (current w))) d) ->
  (current w = PROCESS_COUNT -> exiting (cur_kont w) = false -> exiting d = false) ->
  match d with
  | SwitchNext _ n | ExitSwitch n => runnable (cores (kern w)) n
  | Spawning _ => False
  | WaitFailed t => satisfied (cores (kern w)) t (current_pid (kern w)) None
  | _ => True
  end ->
  exempt_of (cur_kont w) (current w) = None ->
  sched_inv (set_kont d (kern w) w).
Proof.
  intros W H1 H2 H3 H4. pose proof W as [T K C A]. apply stay_inv; try done. intros Hk.
  apply (kont_active _ (kont_at w) _ _ d); try done; by destruct d.
Qed.

Lemma wait_top_inv w t :
  sched_inv w -> cur_kont w = WaitTop t -> t <> WaitNone ->
  sched_inv (let '(k, fin) := wait_round t (kern w) in
             set_kont (if fin then InProgram else WaitFailed t) k w).
Proof.
  intros W Ec Ht. pose proof W as [T K C A].
  pose proof (wait_round_spec t (kern w) T Ht) as H.
  destruct (wait_round t (kern w)) as [k fin], H as (Ts & Cs & G & F).
  set (w1 := mkWorld k (konts w)).
  assert (Hcw : current w1 = current w) by done.
  assert (W1 : sched_inv w1).
  { split; [done|done|by rewrite Hcw|]. rewrite Hcw.
    apply (grows_active (cores (kern w))); [done|done|]. intros i _. apply G. }
  assert (Ec1 : cur_kont w1 = WaitTop t) by by unfold cur_kont; rewrite Hcw.
  assert (E : forall d, set_kont d k w = set_kont d (kern w1) w1).
  { intros d. unfold set_kont. by rewrite Hcw. }
  rewrite E.
  apply kont_only_inv; [done|by rewrite Ec1; destruct fin|by destruct fin| |by rewrite Ec1].
  destruct fin; [done|]. destruct (F eq_refl) as [-> Hs]. done.
Qed.

Lemma yield_inv w n d :
  sched_inv w ->
  match cur_kont w with
  | SwitchNext t m => d = WaitTop t /\ m = n
  | ExitSwitch m => d = ExitPick /\ m = n
  | _ => False
  end ->
  sched_inv (resume n (kern w) (<[current w := d]> (konts w))).
Proof.
  intros [T K C A] Hd.
  assert (Hr : runnable (cores (kern w)) n).
  { pose proof (ac_next _ _ _ A) as H. unfold cur_kont in Hd.
    destruct (kont_at w (current w)); try done; by destruct Hd as [_ ->]. }
  apply resume_inv; [done|by rewrite length_insert|by eapply runnable_le| |done].
  apply (yield_idle _ (kont_at w) _ (current w) d); [done|done| |].
  - intros i Hi. by apply kont_insert.
  - unfold cur_kont in Hd. by destruct (kont_at w (current w)); try done; destruct Hd.
Qed.

Lemma block_inv w t :
  sched_inv w -> cur_kont w = WaitFailed t ->
  sched_inv (set_kont (PickNext t) (block_current_on t (kern w)) w).
Proof.
  intros W Ec. pose proof W as [T K C A]. unfold block_current_on.
  fold (current w). destruct (Nat.ltb_spec (current w) PROCESS_COUNT).
  - apply stay_inv; [done|by apply update_sized|done|]. intros Hk.
    apply (block_active (cores (kern w)) _ (kont_at w) _ _ t); [done|done|done|done|].
    intros i Hi. rewrite proc_update by (done || lia). by case_decide.
  - apply kont_only_inv; [done|lia|done|done|by rewrite Ec].
Qed.

Lemma exit_begin_inv w code :
  sched_inv w -> cur_kont w = ExitBegin code ->
  sched_inv (set_kont ExitWake (process_set_state (current w) Exited code (kern w)) w).
Proof.
  intros W Ec. pose proof W as [T K C A].
  assert (Hlt : (current w < PROCESS_COUNT)%nat).
  { destruct (decide (current w = PROCESS_COUNT)) as [E|]; [|lia].
    pose proof (ac_idle _ _ _ A E) as H. unfold cur_kont in Ec. by rewrite Ec in H. }
  apply stay_inv; [done|by apply update_sized|done|]. intros Hk.
  apply (exit_active (cores (kern w)) _ (kont_at w) _ _ code); [done|done|done|done|].
  intros i Hi. unfold process_set_state. rewrite proc_update by (done || lia). by case_decide.
Qed.

Lemma exit_wake_inv w :
  sched_inv w -> cur_kont w = ExitWake ->
  sched_inv (set_kont ExitPick (wake_waiters_for (process_pid (kern w) (current w)) (kern w)) w).
Proof.
  intros W Ec. pose proof W as [T K C A].
  assert (Hlt : (current w < PROCESS_COUNT)%nat).
  { destruct (decide (current w = PROCESS_COUNT)) as [E|]; [|lia].
    pose proof (ac_idle _ _ _ A E) as H. unfold cur_kont in Ec. by rewrite Ec in H. }
  apply stay_inv; [done|by apply wake_all_sized|done|]. intros Hk.
  apply (wake_active (cores (kern w)) _ (kont_at w)); [done|done|done|done|].
  intros i Hi. by apply wake_all_core.
Qed.

Lemma teardown_inv w code :
  sched_inv w -> cur_kont w = ExitTeardown code ->
  sched_inv (set_kont (ExitBegin code) (fst (process_teardown (current w) (kern w))) w).
Proof.
  intros W Ec. pose proof W as [T K C A].
  assert (H : forall i, core (proc (fst (process_teardown (current w) (kern w))) i) =
    core (proc (kern w) i)) by (intros i; by apply teardown_core).
  destruct (teardown_core (current w) (kern w) 0 T C) as (_ & Ts & Cs).
  set (k := fst (process_teardown (current w) (kern w))) in *. clearbody k.
  set (w1 := mkWorld k (konts w)).
  assert (W1 : sched_inv w1).
  { split; [done|done|by unfold current; simpl; rewrite Cs|]. unfold current. simpl. rewrite Cs.
    apply (grows_active (cores (kern w))); [done|done|]. intros i _. simpl. rewrite H. by left. }
  assert (Ec1 : cur_kont w1 = ExitTeardown code).
  { unfold cur_kont, current. simpl. by rewrite Cs. }
  assert (E : set_kont (ExitBegin code) k w = set_kont (ExitBegin code) (kern w1) w1).
  { unfold set_kont, current. simpl. by rewrite Cs. }
  rewrite E. apply kont_only_inv; [done|by rewrite Ec1|by rewrite Ec1|done|by rewrite Ec1].
Qed.

Definition kont_wf (c : Kont) : Prop :=
  match c with WaitTop t | WaitFailed t | PickNext t | SwitchNext t _ => t <> WaitNone | _ => True end.

Lemma run_inv w : kont_wf (cur_kont w) -> sched_inv w -> sched_inv (run_kont w).
Proof.
  intros Hwf W. unfold run_kont. destruct (cur_kont w) eqn:Ec; try done.
  - apply kont_only_inv; [done|by rewrite Ec|done|done|by rewrite Ec].
  - by apply wait_top_inv.
  - by apply block_inv.
  - apply kont_only_inv; [done|by rewrite Ec|done|apply pick_runnable|by rewrite Ec].
  - apply yield_inv; [done|by rewrite Ec].
  - by apply teardown_inv.
  - by apply exit_begin_inv.
  - by apply exit_wake_inv.
  - apply kont_only_inv; [done|by rewrite Ec|by rewrite Ec|apply pick_runnable|by rewrite Ec].
  - apply yield_inv; [done|by rewrite Ec].
Qed.

Lemma begin_spawn_inv w name args argv :
  sched_inv w -> cur_kont w = InProgram -> sched_inv (begin_spawn name args argv w).
Proof.
  intros W Ec. pose proof W as [T K C A]. unfold begin_spawn.
  pose proof (spawn_spec (kern w) name args argv (current_pid (kern w)) T) as H.
  destruct (process_spawn_with_argv name args argv _ (kern w)) as [k [child|]];
    destruct H as (Ts & _ & Cs & _ & _ & H).
  - destruct H as (Hc & Hf & Hcore & _ & Ho).
    assert (E : set_kont (Spawning child) k (mkWorld k (<[child:=Fresh]> (konts w))) =
      mkWorld k (<[current w := Spawning child]> (<[child:=Fresh]> (konts w)))).
    { unfold set_kont, current. simpl. by rewrite Cs. }
    assert (Hcw : forall l, current (mkWorld k l) = current w) by done.
    rewrite E. split; [done|by simpl; rewrite !length_insert|by rewrite Hcw|]. rewrite Hcw.
    apply (spawn_active (cores (kern w)) _ (kont_at w) _ _ child
      (mkCore (NEXT_PID (kern w)) (current_pid (kern w)) false Loading WaitNone)); try done.
    + intros i Hi. unfold kont_at. simpl. rewrite kont_insert by (done || by rewrite length_insert).
      case_decide; [done|]. apply kont_insert; [done|lia].
    + intros i Hi. simpl. case_decide; [by subst i|]. by rewrite Ho.
  - destruct H as [Ht _]. apply stay_inv; [done|done|done|]. intros Hk.
    apply (kont_active _ (kont_at w) _ _ InProgram); try done.
    + apply (grows_active (cores (kern w))); [done|done|]. intros i _. left.
      by rewrite (proc_table _ _ i Ht).
    + unfold cur_kont in Ec. by rewrite Ec.
    + unfold cur_kont in Ec. by rewrite Ec.
Qed.

Lemma end_spawn_inv w child built :
  sched_inv w -> cur_kont w = Spawning child -> sched_inv (end_spawn child built w).
Proof.
  intros W Ec. pose proof W as [T K C A].
  destruct (ac_spawns _ _ _ A (current w) child C Ec) as (Hc & _ & _).
  assert (Hw : forall s k, s = Ready \/ s = Failed -> table_sized k ->
    CURRENT_PROCESS_INDEX k = current w ->
    (forall i, core (proc k i) = if decide (i = child) then with_state s (core (proc (kern w) i))
                                 else core (proc (kern w) i)) ->
    sched_inv (set_kont InProgram k w)).
  { intros s k Hs Ts Cs Hco. apply stay_inv; [done|done|done|]. intros Hk.
    by apply (prepared_active (cores (kern w)) _ (kont_at w) _ _ child s). }
  unfold end_spawn. destruct built as [[[pml4 entry] sp]|].
  - apply (Hw Ready); [by left| | |].
    + unfold app_set_heap_window. case_goal; repeat apply update_sized; done.
    + unfold app_set_heap_window. by case_goal.
    + intros i. unfold process_set_state, app_set_heap_window. cbv zeta.
      destruct (Nat.leb_spec child PROCESS_COUNT); [|lia].
      rewrite !proc_update by (repeat apply update_sized; done || lia).
      by_slot i child; [|done]. rewrite ?decide_True by done.
      by destruct (heap_base (proc (kern w) child) =? 0).
  - apply (Hw Failed); [by right|by apply update_sized|done|].
    intros i. unfold process_set_state. rewrite proc_update by (done || lia).
    by case_decide; [subst i|].
Qed.

(** ** Reachable worlds *)

Definition konts_wf (w : World) : Prop := Forall kont_wf (konts w).

Lemma cur_kont_wf w : konts_wf w -> kont_wf (cur_kont w).
Proof.
  intros H. unfold cur_kont, kont_at. destruct (konts w !! current w) as [c|] eqn:E; [|done].
  exact (proj1 (Forall_lookup _ _) H _ _ E).
Qed.

Lemma set_kont_wf d k w : konts_wf w -> kont_wf d -> konts_wf (set_kont d k w).
Proof. intros. by apply Forall_insert. Qed.

Lemma resume_wf n k l : Forall kont_wf l -> konts_wf (resume n k l).
Proof. unfold konts_wf. by destruct (resume_kern n k l) as (_ & _ & ->). Qed.

Lemma step_konts_wf masked w w' : step masked w w' -> konts_wf w -> konts_wf w'.
Proof.
  intros Hst Hw. pose proof (cur_kont_wf w Hw) as Hc. destruct Hst.
  - unfold tick. destruct (preempt (kern w)) as [[k n]|]; [by apply resume_wf|done].
  - unfold run_kont. destruct (cur_kont w); try done; try by apply set_kont_wf.
    + destruct (wait_round t (kern w)) as [k fin]. apply set_kont_wf; [done|by destruct fin].
    + apply resume_wf. by apply Forall_insert.
    + apply resume_wf. by apply Forall_insert.
  - by apply set_kont_wf.
  - by apply set_kont_wf.
  - unfold begin_spawn. destruct (process_spawn_with_argv _ _ _ _ _) as [k [child|]].
    + apply set_kont_wf; [|done]. by apply Forall_insert.
    + by apply set_kont_wf.
  - by apply set_kont_wf.
Qed.

Lemma step_inv w w' :
  step sections_masked w w' -> konts_wf w -> sched_inv w -> sched_inv w'.
Proof.
  intros Hst Hw W. pose proof W as [T K C A]. destruct Hst.
  - by apply tick_inv.
  - apply run_inv; [by apply cur_kont_wf|done].
  - apply kont_only_inv; [done|by rewrite H|done|done|by rewrite H].
  - apply kont_only_inv; [done|by rewrite H|lia|done|by rewrite H].
  - by apply begin_spawn_inv.
  - by apply end_spawn_inv.
Qed.

Lemma new_proc v i : proc (Kernel_new v) i = Process_empty.
Proof.
  unfold proc. destruct (PROCESS_TABLE (Kernel_new v) !! i) as [p|] eqn:E; [|done].
  by apply lookup_replicate in E as [-> _].
Qed.

Lemma boot_inv v : sched_inv (boot_world v) /\ konts_wf (boot_world v).
Proof.
  assert (Hl : length (konts (boot_world v)) = S PROCESS_COUNT) by done.
  assert (Hk : forall i, kont_at (boot_world v) i = if decide (i = PROCESS_COUNT) then InProgram else Fresh).
  { intros i. unfold kont_at.
    change (konts (boot_world v)) with (<[PROCESS_COUNT := InProgram]> (replicate (S PROCESS_COUNT) Fresh)).
    rewrite kont_insert by done.
    case_decide; [done|].
    destruct (replicate (S PROCESS_COUNT) Fresh !! i) eqn:E; [|done].
    by apply lookup_replicate in E as [-> _]. }
  split; [|by apply Forall_insert; [apply Forall_replicate|]].
  split; [done|done|done|]. change (current (boot_world v)) with PROCESS_COUNT.
  assert (Hc : forall i, core (proc (kern (boot_world v)) i) = core Process_empty).
  { intros i. change (kern (boot_world v)) with (Kernel_new v). by rewrite new_proc. }
  split; rewrite ?Hk; try done.
  - lia.
  - intros i Hi Hne. rewrite Hc. done.
  - intros i child Hi. rewrite Hk. by case_decide.
  - intros i Hi. by rewrite Hc.
Qed.

Lemma reachable_inv v w : reachable sections_masked v w -> sched_inv w /\ konts_wf w.
Proof.
  unfold reachable. destruct (boot_inv v) as [B1 B2].
  generalize dependent (boot_world v). intros w0 B1 B2 H.
  induction H as [|x y z Hst _ IH]; [done|]. apply IH; [by apply (step_inv x)|by eapply step_konts_wf].
Qed.

(** ** Properties *)

(** C18: When waiting, handing over and exiting run with interrupts off, then in
    every reachable interleaving at most one process is [Running], the current
    one, and no process is [Blocked] on an exit that is recorded and not yet
    collected, except while the exiting process is itself about to wake its
    waiters. *)
Theorem masked_scheduling_safe v w :
  reachable sections_masked v w ->
  (forall i, (i < PROCESS_COUNT)%nat -> state (proc (kern w) i) = Running -> i = current w) /\
  (forall i j, (i < PROCESS_COUNT)%nat -> (j < PROCESS_COUNT)%nat ->
    state (proc (kern w) i) = Blocked ->
    awaits (waiting_for (proc (kern w) i)) (pid (proc (kern w) i)) (core (proc (kern w) j)) ->
    state (proc (kern w) j) = Exited ->
    waited (proc (kern w) j) = true \/ (cur_kont w = ExitWake /\ j = current w)).
Proof.
  intros [[T K C A] _]%reachable_inv. split.
  - intros i Hi Hr. destruct (decide (i = current w)) as [|Hne]; [done|].
    pose proof (ac_slots _ _ _ A i Hi Hne) as H. unfold slot_ok in H. simpl in H. by rewrite Hr in H.
  - intros i j Hi Hj Hb Ha He. destruct (ac_lost _ _ _ A i Hi Hb j Hj Ha He) as [?|Hx]; [by left|].
    right. unfold cur_kont. unfold exempt_of in Hx.
    destruct (kont_at w (current w)); try done. by injection Hx as ->.
Qed.

Lemma masked_scheduling_safe_witness :
  ~ state (proc (kern (begin_spawn (bs "init") [] [] (boot_world (vm demo_kernel)))) 0) = Running.
Proof.
  intros E.
  assert (R : reachable sections_masked (vm demo_kernel)
                (begin_spawn (bs "init") [] [] (boot_world (vm demo_kernel)))).
  { apply rtc_once, step_spawn. reflexivity. }
  pose proof (proj1 (masked_scheduling_safe (vm demo_kernel) _ R) 0%nat ltac:(unfold PROCESS_COUNT; lia) E) as H.
  vm_compute in H. discriminate H.
Defined.

Lemma preempt_none k :
  preempt k = None <->
  ((CURRENT_PROCESS_INDEX k < PROCESS_COUNT)%nat /\
   state (proc k (CURRENT_PROCESS_INDEX k)) <> Running) \/ pick_next_ready k = None.
Proof.
  unfold preempt. destruct (Nat.ltb_spec (CURRENT_PROCESS_INDEX k) PROCESS_COUNT); simpl.
  - destruct (is_state Running _) eqn:E; simpl.
    + apply is_state_true in E. destruct (pick_next_ready k); naive_solver.
    + apply is_state_false in E. naive_solver.
  - destruct (pick_next_ready k); split; try done; intros; [|by right].
    destruct H0 as [[? _]|?]; [lia|done].
Qed.

Lemma tick_spec k :
  table_sized k -> (CURRENT_PROCESS_INDEX k <= PROCESS_COUNT)%nat ->
  let cur := CURRENT_PROCESS_INDEX k in
  match preempt k with
  | None => maybe_preempt k = k /\
      (((cur < PROCESS_COUNT)%nat /\ state (proc k cur) <> Running) \/
       forall i, (i < PROCESS_COUNT)%nat -> state (proc k i) <> Ready)
  | Some (_, next) =>
      (next < PROCESS_COUNT)%nat /\ state (proc k next) = Ready /\
      (forall i, (i < next)%nat -> state (proc k i) <> Ready) /\
      CURRENT_PROCESS_INDEX (maybe_preempt k) = next /\
      forall i, (i < PROCESS_COUNT)%nat -> core (proc (maybe_preempt k) i) =
        if decide (i = next) then with_state Running (core (proc k i))
        else if decide (i = cur) then with_state Ready (core (proc k i)) else core (proc k i)
  end.
Proof.
  intros Hs Hc cur. unfold maybe_preempt. destruct (preempt k) as [[k1 n]|] eqn:E.
  2:{ split; [done|]. apply preempt_none in E as [E|E]; [by left|right]. intros i Hi.
      apply is_state_false. exact (find_first_none_slot _ i E Hi). }
  unfold preempt in E. fold cur in E.
  destruct (Nat.ltb cur PROCESS_COUNT && negb (is_state Running (proc k cur))) eqn:Eg; [done|].
  destruct (pick_next_ready k) as [m|] eqn:Em; [|done]. injection E as <- <-.
  apply find_first_some in Em as (Hm & Hr%is_state_true & Hlow).
  split_and!; [done|done|intros i Hi; apply is_state_false; auto|apply switch_to_table|].
  intros i Hi.
  assert (Hne : (cur < PROCESS_COUNT)%nat -> m <> cur).
  { intros Hlt ->. apply Nat.ltb_lt in Hlt. rewrite Hlt in Eg. simpl in Eg.
    apply negb_false_iff, is_state_true in Eg. congruence. }
  destruct (Nat.ltb_spec cur PROCESS_COUNT) as [Hlt|Hge].
  - rewrite switch_to_core by (by apply update_sized || lia || done).
    rewrite proc_update by (done || lia).
    destruct (decide (i = m)) as [->|]; [by rewrite decide_False by auto|by case_decide; subst].
  - rewrite switch_to_core by (done || lia). destruct (decide (i = m)) as [->|]; [done|].
    by rewrite decide_False by lia.
Qed.

(** The timer tick changes nothing when the current process is already
    leaving the processor or when no process is [Ready]; otherwise it makes the
    lowest [Ready] slot [Running] and current, makes the preempted process
    [Ready], and leaves every other slot's pid, state and wait target alone. *)
Theorem tick_hands_over k :
  table_sized k -> (CURRENT_PROCESS_INDEX k <= PROCESS_COUNT)%nat ->
  let cur := CURRENT_PROCESS_INDEX k in
  match preempt k with
  | None => maybe_preempt k = k /\
      (((cur < PROCESS_COUNT)%nat /\ state (proc k cur) <> Running) \/
       forall i, (i < PROCESS_COUNT)%nat -> state (proc k i) <> Ready)
  | Some (_, next) =>
      (next < PROCESS_COUNT)%nat /\ state (proc k next) = Ready /\
      (forall i, (i < next)%nat -> state (proc k i) <> Ready) /\
      CURRENT_PROCESS_INDEX (maybe_preempt k) = next /\
      forall i, (i < PROCESS_COUNT)%nat -> core (proc (maybe_preempt k) i) =
        if decide (i = next) then with_state Running (core (proc k i))
        else if decide (i = cur) then with_state Ready (core (proc k i)) else core (proc k i)
  end.
Proof. apply tick_spec. Qed.

(** Slot 0 runs, slot 1 is ready. *)
Definition two_ready : Kernel :=
  let k := process_set_state 1 Ready 0 (process_set_state 0 Running 0 demo_kernel) in
  {| k with CURRENT_PROCESS_INDEX := 0%nat |}.

Lemma tick_hands_over_witness :
  CURRENT_PROCESS_INDEX (maybe_preempt two_ready) = 1%nat /\
  state (proc (maybe_preempt two_ready) 0) = Ready.
Proof.
  pose proof (tick_hands_over two_ready eq_refl (proj1 (Nat.leb_le 0 PROCESS_COUNT) eq_refl)) as H.
  assert (E : exists k', preempt two_ready = Some (k', 1%nat)) by (eexists; reflexivity).
  destruct E as [k' E]. rewrite E in H. cbv zeta in H. destruct H as (_ & _ & _ & Hc & Hp).
  split; [exact Hc|].
  exact (f_equal c_state (Hp 0%nat (proj1 (Nat.ltb_lt 0 PROCESS_COUNT) eq_refl))).
Defined.

