(* ===== verification/SchedRace.v ===== *)
(** * What the unmasked scheduler can do

    Interleavings of the code as it is: ticks may fall between the checks of a
    blocking wait and the point where it blocks, and between picking a slot and
    switching to it. *)

From stdpp Require Import relations.
From S2P Require Import Prelude Constants Text Phys Paging Console Process Sched SchedThm.

(** ** Starvation *)

(** Slots [a] and [b] are runnable, one of them current, and no other slot
    below [b] is [Ready]. *)
Definition pair_runs (a b : nat) (k : Kernel) : Prop :=
  table_sized k /\
  (forall i, (i < b)%nat -> i <> a -> state (proc k i) <> Ready) /\
  ((CURRENT_PROCESS_INDEX k = a /\ state (proc k a) = Running /\ state (proc k b) = Ready) \/
   (CURRENT_PROCESS_INDEX k = b /\ state (proc k b) = Running /\ state (proc k a) = Ready)).

Lemma maybe_preempt_sized k : table_sized k -> table_sized (maybe_preempt k).
Proof.
  intros Hs. unfold maybe_preempt, preempt. case_goal; [done|].
  destruct (pick_next_ready k); [|done]. apply switch_to_sized.
  case_goal; [by apply update_sized|done].
Qed.

Lemma pair_runs_tick a b k :
  (a < b < PROCESS_COUNT)%nat -> pair_runs a b k -> pair_runs a b (maybe_preempt k).
Proof.
  intros Hab (Hs & Hlow & Hp).
  assert (Hc : (CURRENT_PROCESS_INDEX k <= PROCESS_COUNT)%nat) by (destruct Hp as [(-> & _)|(-> & _)]; lia).
  pose proof (tick_spec k Hs Hc) as H. cbv zeta in H.
  set (cur := CURRENT_PROCESS_INDEX k) in *.
  destruct (preempt k) as [[k1 n]|].
  2:{ destruct H as [_ [[_ H]|H]].
      - by destruct Hp as [(-> & ? & _)|(-> & ? & _)].
      - destruct Hp as [(_ & _ & Hr)|(_ & _ & Hr)]; [apply (H b) in Hr|apply (H a) in Hr]; done || lia. }
  destruct H as (Hn & Hr & Hmin & Hcur & Hco).
  assert (Hst : forall i, (i < PROCESS_COUNT)%nat -> state (proc (maybe_preempt k) i) =
    if decide (i = n) then Running else if decide (i = cur) then Ready else state (proc k i)).
  { intros i Hi. pose proof (f_equal c_state (Hco i Hi)) as E. simpl in E. rewrite E.
    do 2 (case_decide; [done|]). done. }
  assert (Hnab : (n = b /\ cur = a) \/ (n = a /\ cur = b)).
  { destruct Hp as [(Ec & Hra & Hrb)|(Ec & Hrb & Hra)].
    - left. split; [|done]. destruct (Nat.lt_total n b) as [Hl|[->|Hg]]; [|done|].
      + destruct (decide (n = a)) as [->|Hne]; [congruence|]. by destruct (Hlow n Hl Hne).
      + by destruct (Hmin b Hg).
    - right. split; [|done]. destruct (Nat.lt_total n a) as [Hl|[->|Hg]]; [|done|].
      + destruct (Hlow n); [lia|lia|done].
      + by destruct (Hmin a Hg). }
  split; [by apply maybe_preempt_sized|]. split.
  - intros i Hi Hne. rewrite Hst by lia. repeat case_decide; try done; [subst i; lia|auto].
  - rewrite Hcur, !Hst by lia. destruct Hnab as [[-> ->]|[-> ->]]; [right|left];
      (split_and!; [done|..]; repeat case_decide; done || lia).
Qed.

(** Scheduling is not fair: while two processes in slots [a < b] stay
    runnable and nothing between them becomes ready, every sequence of ticks
    keeps the processor in those two slots, whatever waits in the slots above
    [b]. *)
Theorem low_slots_starve_others a b k n :
  (a < b < PROCESS_COUNT)%nat -> pair_runs a b k ->
  let k' := Nat.iter n maybe_preempt k in
  CURRENT_PROCESS_INDEX k' = a \/ CURRENT_PROCESS_INDEX k' = b.
Proof.
  intros Hab Hp k'. assert (H : pair_runs a b k').
  { subst k'. induction n as [|n IH]; [done|]. simpl. by apply pair_runs_tick. }
  destruct H as (_ & _ & [(H & _)|(H & _)]); auto.
Qed.

(** Three runnable processes, the first of them current. *)
Definition three_ready : Kernel :=
  let k := demo_kernel in
  let k := process_set_state 0 Running 0 k in
  let k := process_set_state 1 Ready 0 k in
  let k := process_set_state 2 Ready 0 k in
  {| k with CURRENT_PROCESS_INDEX := 0%nat |}.

Lemma low_slots_starve_others_witness :
  state (proc three_ready 2) = Ready /\
  forall n, CURRENT_PROCESS_INDEX (Nat.iter n maybe_preempt three_ready) <> 2%nat.
Proof.
  split; [reflexivity|]. intros n.
  assert (Hp : pair_runs 0 1 three_ready).
  { split; [reflexivity|]. split; [intros i Hi Hne; lia|]. left. repeat split; reflexivity. }
  destruct (low_slots_starve_others 0 1 three_ready n ltac:(split; apply Nat.ltb_lt; reflexivity) Hp)
    as [E|E]; rewrite E; discriminate.
Defined.

(** ** A waiter nobody will wake *)

Definition left_processor (c : Kont) : bool :=
  match c with ExitPick | ExitSwitch _ => true | _ => false end.

(** The continuation mentions neither slot [i] nor a slot out of range. *)
Definition avoids (i : nat) (c : Kont) : Prop :=
  match c with
  | SwitchNext _ n | ExitSwitch n => n <> i /\ (n <= PROCESS_COUNT)%nat
  | Spawning n => n <> i /\ (n < PROCESS_COUNT)%nat
  | _ => True
  end.

(** Slot [i] is blocked on pid [p], every slot with that pid is past its wake-up
    call, and nothing is about to switch to [i]. *)
Record stuck_on (i : nat) (p : Z) (w : World) : Prop := {
  so_table : table_sized (kern w);
  so_konts : length (konts w) = S PROCESS_COUNT;
  so_cur : (current w <= PROCESS_COUNT)%nat;
  so_slot : (i < PROCESS_COUNT)%nat;
  so_blocked : state (proc (kern w) i) = Blocked /\ waiting_for (proc (kern w) i) = WaitPid p;
  so_avoid : Forall (avoids i) (konts w);
  so_self : current w = i -> match cur_kont w with PickNext _ | SwitchNext _ _ => True | _ => False end;
  so_gone : forall x, (x <= PROCESS_COUNT)%nat -> pid (proc (kern w) x) = p ->
    left_processor (kont_at w x) = true
}.

Lemma avoid_cur i p w : stuck_on i p w -> avoids i (cur_kont w).
Proof.
  intros H. unfold cur_kont, kont_at. destruct (konts w !! current w) as [c|] eqn:E; [|done].
  exact (proj1 (Forall_lookup _ _) (so_avoid _ _ _ H) _ _ E).
Qed.

(** A step of slot [current w] that keeps slot [i]'s state and every pid. *)
Lemma stuck_stay i p w k d :
  stuck_on i p w -> table_sized k -> CURRENT_PROCESS_INDEX k = current w ->
  (state (proc k i) = Blocked /\ waiting_for (proc k i) = WaitPid p) ->
  (forall x, (x <= PROCESS_COUNT)%nat -> pid (proc k x) = pid (proc (kern w) x)) ->
  avoids i d ->
  (current w = i -> match d with PickNext _ | SwitchNext _ _ => True | _ => False end) ->
  (pid (proc (kern w) (current w)) = p -> left_processor d = true) ->
  stuck_on i p (set_kont d k w).
Proof.
  intros [T K C S B A F G] Hs Hc Hb Hp Hd Hi Hg.
  assert (Hk : forall x, kont_at (set_kont d k w) x = if decide (x = current w) then d else kont_at w x).
  { intros x. unfold kont_at, set_kont. simpl. by apply kont_insert. }
  assert (Hcw : current (set_kont d k w) = current w) by done.
  split; try done.
  - simpl. by rewrite length_insert.
  - by rewrite Hcw.
  - simpl. by apply Forall_insert.
  - rewrite Hcw. intros E. unfold cur_kont. rewrite Hk, Hcw, decide_True by done. exact (Hi E).
  - intros x Hx Ex. rewrite Hk. rewrite Hp in Ex by done. case_decide; [subst x; auto|auto].
Qed.

Lemma stuck_resume i p k l n :
  table_sized k -> length l = S PROCESS_COUNT -> (n <= PROCESS_COUNT)%nat -> n <> i ->
  (i < PROCESS_COUNT)%nat ->
  (state (proc k i) = Blocked /\ waiting_for (proc k i) = WaitPid p) ->
  Forall (avoids i) l ->
  (forall x, (x <= PROCESS_COUNT)%nat -> pid (proc k x) = p ->
     left_processor (default Fresh (l !! x)) = true) ->
  stuck_on i p (resume n k l).
Proof.
  intros Hs Hl Hn Hne Hi [B1 B2] Ha Hg. destruct (resume_kern n k l) as (H1 & H2 & H3).
  assert (Hco : forall x, (x < PROCESS_COUNT)%nat -> core (proc (kern (resume n k l)) x) =
    if decide (x = n) then running (core (proc k x)) else core (proc k x)).
  { intros x Hx. rewrite (proc_table _ _ x H1). by apply switch_to_core. }
  assert (Hpid : forall x, (x <= PROCESS_COUNT)%nat ->
    pid (proc (kern (resume n k l)) x) = pid (proc k x)).
  { intros x Hx. destruct (decide (x = PROCESS_COUNT)) as [E|Hxn].
    - rewrite (proc_table _ _ x H1). destruct (switch_to_table n k) as [H4 _].
      destruct (Nat.ltb_spec n PROCESS_COUNT).
      + rewrite (proc_table _ (update_proc n (fun p => {| p with state := Running |}) k)) by done.
        rewrite proc_update by (done || lia). by rewrite decide_False by lia.
      + by rewrite (proc_table _ k).
    - pose proof (f_equal c_pid (Hco x ltac:(lia))) as E. simpl in E. rewrite E. by case_decide. }
  pose proof (Hco i Hi) as Ei. rewrite decide_False in Ei by done.
  pose proof (f_equal c_state Ei) as E1. pose proof (f_equal c_waiting Ei) as E2.
  simpl in E1, E2. split.
  - pose proof (switch_to_sized n k Hs) as H. unfold table_sized in *. by rewrite H1.
  - by rewrite H3.
  - unfold current. by rewrite H2.
  - done.
  - by rewrite E1, E2.
  - by rewrite H3.
  - unfold current. rewrite H2. done.
  - intros x Hx Ex. unfold kont_at. rewrite H3. rewrite Hpid in Ex by done. auto.
Qed.

Lemma next_avoids i k :
  (i < PROCESS_COUNT)%nat -> state (proc k i) = Blocked ->
  next_or_idle k <> i /\ (next_or_idle k <= PROCESS_COUNT)%nat.
Proof.
  intros Hi Hb. destruct (pick_runnable k) as [->|[H1 H2]]; [lia|].
  simpl in H2. split; [|lia]. intros E. rewrite E in H2. congruence.
Qed.

Lemma grows_fields k k' x :
  grows (core (proc k x)) (core (proc k' x)) ->
  pid (proc k' x) = pid (proc k x) /\ state (proc k' x) = state (proc k x) /\
  waiting_for (proc k' x) = waiting_for (proc k x).
Proof.
  intros [E|E]; pose proof (f_equal c_pid E) as E1; pose proof (f_equal c_state E) as E2;
    pose proof (f_equal c_waiting E) as E3; done.
Qed.

Lemma stuck_tick i p w : stuck_on i p w -> stuck_on i p (tick w).
Proof.
  intros W. pose proof W as [T K C S [B1 B2] A F G]. unfold tick, preempt.
  fold (current w). destruct (Nat.ltb (current w) PROCESS_COUNT) eqn:El; simpl andb.
  - destruct (is_state Running (proc (kern w) (current w))) eqn:Er; simpl negb; [|done].
    apply is_state_true in Er.
    destruct (pick_next_ready (kern w)) as [n|] eqn:En; [|done].
    apply find_first_slot in En as [Hn Hr%is_state_true].
    assert (Hci : current w <> i) by congruence. apply stuck_resume; try done; try lia.
    + by apply update_sized.
    + congruence.
    + by rewrite proc_update, decide_False by (done || congruence).
    + intros x Hx Ex. rewrite proc_update in Ex by done. apply G; [done|]. by case_decide; [subst x|].
  - destruct (pick_next_ready (kern w)) as [n|] eqn:En; [|done].
    apply find_first_slot in En as [Hn Hr%is_state_true].
    apply stuck_resume; try done; [lia|congruence].
Qed.

Lemma stuck_yield i p w n d :
  stuck_on i p w -> n <> i -> (n <= PROCESS_COUNT)%nat -> avoids i d ->
  (pid (proc (kern w) (current w)) = p -> left_processor d = true) ->
  stuck_on i p (resume n (kern w) (<[current w := d]> (konts w))).
Proof.
  intros [T K C S B A F G] H1 H2 H3 H4.
  apply stuck_resume; try done; [by rewrite length_insert|by apply Forall_insert|].
  intros x Hx Ex. rewrite kont_insert by done. case_decide; [subst x; auto|by apply G].
Qed.

Lemma wake_pid p k x : table_sized k -> pid (proc (wake_waiters_for p k) x) = pid (proc k x).
Proof.
  intros Hs. destruct (decide (x < PROCESS_COUNT)%nat) as [Hx|Hx].
  - pose proof (f_equal c_pid (wake_all_core p k x Hs Hx)) as E.
    destruct (wake_cases p (core (proc k x))) as [[Ew _]|(_ & _ & Ew)]; by rewrite Ew in E.
  - unfold wake_waiters_for, update_all, proc. simpl PROCESS_TABLE.
    unfold table_sized in Hs.
    rewrite lookup_app_r by (rewrite length_map, length_take; lia).
    rewrite length_map, length_take, Nat.min_l by lia. rewrite lookup_drop.
    by replace (PROCESS_COUNT + (x - PROCESS_COUNT))%nat with x by lia.
Qed.

Lemma wake_keeps q k i p :
  table_sized k -> (i < PROCESS_COUNT)%nat -> state (proc k i) = Blocked ->
  waiting_for (proc k i) = WaitPid p -> q <> p ->
  state (proc (wake_waiters_for q k) i) = Blocked /\
  waiting_for (proc (wake_waiters_for q k) i) = WaitPid p.
Proof.
  intros Hs Hi Hb Hw Hne. pose proof (wake_all_core q k i Hs Hi) as E.
  destruct (wake_cases q (core (proc k i))) as [[Ew _]|(_ & Hx & _)].
  - rewrite Ew in E. pose proof (f_equal c_state E). pose proof (f_equal c_waiting E).
    simpl in *. split; congruence.
  - unfold should_wake_core in Hx. simpl in Hx. rewrite Hw in Hx. lia.
Qed.

Lemma stuck_run i p w : konts_wf w -> stuck_on i p w -> stuck_on i p (run_kont w).
Proof.
  intros Hwf W. pose proof W as [T K C S [B1 B2] A F G]. pose proof (cur_kont_wf w Hwf) as Hc.
  pose proof (avoid_cur i p w W) as Av.
  assert (Gc : pid (proc (kern w) (current w)) = p -> left_processor (cur_kont w) = true).
  { intros E. by apply (G (current w) C). }
  unfold run_kont. destruct (cur_kont w) eqn:Ec; try done; simpl in Gc, Av.
  - by apply stuck_stay.
  - pose proof (wait_round_spec t (kern w) T Hc) as H.
    destruct (wait_round t (kern w)) as [k fin], H as (Ts & Cs & Gr & _).
    apply stuck_stay; try done.
    + by destruct (grows_fields _ _ _ (Gr i)) as (_ & -> & ->).
    + intros x _. by apply grows_fields.
    + by destruct fin.
    + intros E. by specialize (Gc E).
  - assert (Hci : current w <> i) by naive_solver. unfold block_current_on. fold (current w).
    case_goal; apply stuck_stay; try done; try naive_solver.
    + by apply update_sized.
    + by rewrite proc_update, decide_False by (done || congruence).
    + intros x _. rewrite proc_update by done. by case_decide; [subst x|].
  - apply stuck_stay; try done; try naive_solver; by apply next_avoids.
  - apply stuck_yield; try done; naive_solver.
  - assert (H : forall x, core (proc (fst (process_teardown (current w) (kern w))) x) =
      core (proc (kern w) x)) by (intros x; by apply teardown_core).
    destruct (teardown_core (current w) (kern w) 0 T C) as (_ & Ts & Cs).
    apply stuck_stay; try done; try naive_solver.
    + by destruct (grows_fields _ _ i (or_introl (H i))) as (_ & -> & ->).
  - assert (Hci : current w <> i) by naive_solver.
    apply stuck_stay; try done; try naive_solver.
    + by apply update_sized.
    + unfold process_set_state. by rewrite proc_update, decide_False by (done || congruence).
    + intros x _. unfold process_set_state. rewrite proc_update by done. by case_decide; [subst x|].
  - assert (Hne : process_pid (kern w) (current w) <> p) by (intros E; by specialize (Gc E)).
    pose proof (wake_keeps (process_pid (kern w) (current w)) (kern w) i p T S B1 B2 Hne) as Hi.
    apply stuck_stay; try done; try naive_solver.
    + by apply wake_all_sized.
    + intros x Hx. by apply wake_pid.
  - apply stuck_stay; try done; try naive_solver; by apply next_avoids.
  - apply stuck_yield; try done; naive_solver.
Qed.

Lemma stuck_begin_spawn i p w name args argv :
  stuck_on i p w -> cur_kont w = InProgram -> NEXT_PID (kern w) <> p ->
  stuck_on i p (begin_spawn name args argv w).
Proof.
  intros W Ec Hn. pose proof W as [T K C S [B1 B2] A F G].
  assert (Hci : current w <> i) by (intros E; specialize (F E); by rewrite Ec in F).
  assert (Hcp : pid (proc (kern w) (current w)) <> p).
  { intros E. pose proof (G (current w) C E) as H. unfold cur_kont in Ec. by rewrite Ec in H. }
  unfold begin_spawn.
  pose proof (spawn_spec (kern w) name args argv (current_pid (kern w)) T) as H.
  destruct (process_spawn_with_argv name args argv _ (kern w)) as [k [child|]];
    destruct H as (Ts & _ & Cs & _ & _ & H).
  2:{ destruct H as [Ht _]. apply stuck_stay; try done.
      - by rewrite (proc_table _ _ i Ht).
      - intros x _. by rewrite (proc_table _ _ x Ht). }
  destruct H as (Hc & Hf & Hcore & _ & Ho).
  assert (Hchi : child <> i).
  { intros ->. unfold free_slot in Hf. rewrite B1 in Hf. by destruct Hf as [?|[_ [?|?]]]. }
  set (w1 := mkWorld k (<[child:=Fresh]> (konts w))).
  assert (Hpc : pid (proc k child) <> p).
  { pose proof (f_equal c_pid Hcore) as E. simpl in E. congruence. }
  assert (Hcw : current w1 = current w) by done.
  assert (W1 : stuck_on i p w1).
  { split; try done; simpl.
    - by rewrite length_insert.
    - by rewrite Hcw.
    - by rewrite Ho.
    - by apply Forall_insert.
    - by rewrite Hcw.
    - intros x Hx Ex. unfold kont_at. simpl. rewrite kont_insert by (done || lia).
      destruct (decide (x = child)) as [->|Hne]; [done|]. rewrite Ho in Ex by done. by apply G. }
  apply (stuck_stay i p w1); try done; try (by rewrite Hcw).
  - by rewrite Ho.
  - simpl. rewrite Hcw. intros E. destruct (decide (current w = child)) as [Ex|Hne]; [by rewrite Ex in E|].
    by rewrite Ho in E.
Qed.

Lemma stuck_end_spawn i p w child built :
  stuck_on i p w -> cur_kont w = Spawning child -> stuck_on i p (end_spawn child built w).
Proof.
  intros W Ec. pose proof W as [T K C S [B1 B2] A F G].
  pose proof (avoid_cur i p w W) as Av. rewrite Ec in Av. destruct Av as [Hchi Hch].
  assert (Hci : current w <> i) by (intros E; specialize (F E); by rewrite Ec in F).
  assert (Hcp : pid (proc (kern w) (current w)) <> p).
  { intros E. pose proof (G (current w) C E) as H. unfold cur_kont in Ec. by rewrite Ec in H. }
  assert (Hk : forall k, table_sized k -> CURRENT_PROCESS_INDEX k = current w ->
    (forall x, x <> child -> proc k x = proc (kern w) x) ->
    pid (proc k child) = pid (proc (kern w) child) -> stuck_on i p (set_kont InProgram k w)).
  { intros k Ts Cs Ho Hp. apply stuck_stay; try done.
    - by rewrite Ho.
    - intros x _. destruct (decide (x = child)) as [->|]; [done|by rewrite Ho]. }
  unfold end_spawn. destruct built as [[[pml4 entry] sp]|].
  - unfold app_set_heap_window. cbv zeta. destruct (Nat.leb_spec child PROCESS_COUNT); [|lia].
    apply Hk.
    + repeat apply update_sized. done.
    + done.
    + intros x Hx. unfold process_set_state.
      rewrite !proc_update by (repeat apply update_sized; done || lia). by rewrite !decide_False by done.
    + unfold process_set_state.
      rewrite !proc_update by (repeat apply update_sized; done || lia). rewrite !decide_True by done.
      by destruct (heap_base (proc (kern w) child) =? 0).
  - apply Hk.
    + by apply update_sized.
    + done.
    + intros x Hx. unfold process_set_state. rewrite proc_update by (done || lia).
      by rewrite decide_False.
    + unfold process_set_state. rewrite proc_update by (done || lia). by rewrite decide_True.
Qed.

Lemma stuck_step masked i p w w' :
  step masked w w' -> NEXT_PID (kern w) <> p -> konts_wf w -> stuck_on i p w -> stuck_on i p w'.
Proof.
  intros Hst Hn Hwf W. pose proof W as [T K C S B A F G].
  assert (Hcp : cur_kont w = InProgram -> current w <> i /\ pid (proc (kern w) (current w)) <> p).
  { intros Ec. split; [intros E; specialize (F E); by rewrite Ec in F|].
    intros E. pose proof (G (current w) C E) as H. unfold cur_kont in Ec. by rewrite Ec in H. }
  destruct Hst.
  - by apply stuck_tick.
  - by apply stuck_run.
  - destruct (Hcp H). by apply stuck_stay.
  - destruct (Hcp H). by apply stuck_stay.
  - by apply stuck_begin_spawn.
  - by apply stuck_end_spawn.
Qed.

(** ** A trace that loses a wake-up *)

Definition call_wait (p : Z) (w : World) : World := set_kont (WaitTop (WaitPid p)) (kern w) w.

Definition call_exit (code : Z) (w : World) : World := set_kont (ExitTeardown code) (kern w) w.

Definition call_spawn (child : nat) (w : World) : World :=
  end_spawn child (Some (0x9600000, APP_LOAD_MIN, u64 (stack_window (Z.of_nat child + 1) + KERNEL_STACK_STRIDE - 64)))
    (begin_spawn (bs "demo") [] [] w).

(** The console runs process 1, which spawns process 2. *)
Definition started : World :=
  let w := boot_world (vm demo_kernel) in
  let w := call_wait 1 (call_spawn 0 w) in
  let w := Nat.iter 5 run_kont w in
  call_spawn 1 w.

(** Process 1 waits for process 2; the tick falls after the checks have failed;
    process 2 exits, finds nobody to wake, and process 1 then blocks. *)
Definition woken_too_early : World :=
  let w := run_kont (call_wait 2 started) in
  let w := run_kont (tick w) in
  let w := Nat.iter 5 run_kont (call_exit 0 w) in
  run_kont w.

Lemma rtc_run masked n w : rtc (step masked) w (Nat.iter n run_kont w).
Proof.
  induction n as [|n IH]; [done|]. etrans; [exact IH|]. apply rtc_once. apply step_run.
Qed.

Lemma rtc_run1 masked w : rtc (step masked) w (run_kont w).
Proof. apply rtc_once, step_run. Qed.

Lemma rtc_wait masked p w : cur_kont w = InProgram -> rtc (step masked) w (call_wait p w).
Proof. intros H. by apply rtc_once, step_wait. Qed.

Lemma rtc_exit masked code w :
  cur_kont w = InProgram -> (current w < PROCESS_COUNT)%nat -> rtc (step masked) w (call_exit code w).
Proof. intros. by apply rtc_once, step_exit. Qed.

Lemma rtc_spawn masked child w :
  cur_kont w = InProgram -> cur_kont (begin_spawn (bs "demo") [] [] w) = Spawning child ->
  rtc (step masked) w (call_spawn child w).
Proof.
  intros H1 H2. etrans; [apply rtc_once; by apply step_spawn|]. apply rtc_once. by apply step_prepared.
Qed.

Lemma rtc_tick masked w : masked (cur_kont w) = false -> rtc (step masked) w (tick w).
Proof. intros. by apply rtc_once, step_tick. Qed.

Lemma started_reachable : reachable code_masked (vm demo_kernel) started.
Proof.
  unfold reachable, started. cbv zeta.
  etrans; [apply (rtc_spawn code_masked 0); vm_compute; reflexivity|].
  etrans; [apply (rtc_wait code_masked 1); vm_compute; reflexivity|].
  etrans; [apply (rtc_run code_masked 5)|].
  apply (rtc_spawn code_masked 1); vm_compute; reflexivity.
Qed.

Lemma woken_too_early_reachable : reachable code_masked (vm demo_kernel) woken_too_early.
Proof.
  unfold reachable. etrans; [exact started_reachable|]. unfold woken_too_early. cbv zeta.
  etrans; [apply (rtc_wait code_masked 2); vm_compute; reflexivity|].
  etrans; [apply (rtc_run1 code_masked)|].
  etrans; [apply (rtc_tick code_masked); vm_compute; reflexivity|].
  etrans; [apply (rtc_run1 code_masked)|].
  etrans; [apply (rtc_exit code_masked 0); [vm_compute; reflexivity|apply Nat.ltb_lt; vm_compute; reflexivity]|].
  etrans; [apply (rtc_run code_masked 5)|].
  apply (rtc_run1 code_masked).
Qed.

Lemma reachable_wf masked v w : reachable masked v w -> konts_wf w.
Proof.
  unfold reachable. destruct (boot_inv v) as [_ B]. generalize dependent (boot_world v).
  intros w0 B H. induction H as [|x y z Hst _ IH]; [done|]. apply IH. by eapply step_konts_wf.
Qed.

(** A decidable form of [stuck_on]'s quantified parts, for concrete worlds. *)
Definition stuck_test (i : nat) (p : Z) (w : World) : bool :=
  Nat.eqb (length (PROCESS_TABLE (kern w))) (S PROCESS_COUNT)
  && Nat.eqb (length (konts w)) (S PROCESS_COUNT)
  && Nat.leb (current w) PROCESS_COUNT && Nat.ltb i PROCESS_COUNT
  && bool_decide (state (proc (kern w) i) = Blocked)
  && bool_decide (waiting_for (proc (kern w) i) = WaitPid p)
  && forallb (fun c => match c with
       | SwitchNext _ n | ExitSwitch n => negb (Nat.eqb n i) && Nat.leb n PROCESS_COUNT
       | Spawning n => negb (Nat.eqb n i) && Nat.ltb n PROCESS_COUNT
       | _ => true
       end) (konts w)
  && match cur_kont w with PickNext _ | SwitchNext _ _ => true | _ => negb (Nat.eqb (current w) i) end
  && forallb (fun x => negb (pid (proc (kern w) x) =? p) || left_processor (kont_at w x))
       (seq 0 (S PROCESS_COUNT)).

Lemma stuck_test_ok i p w : stuck_test i p w = true -> stuck_on i p w.
Proof.
  unfold stuck_test. rewrite !andb_true_iff, !Nat.eqb_eq, !Nat.leb_le, Nat.ltb_lt,
    !bool_decide_eq_true, !forallb_forall.
  intros [[[[[[[[H1 H2] H3] H4] H5] H6] H7] H8] H9]. split; try done.
  - apply Forall_forall. intros c Hc. apply list_elem_of_In in Hc. specialize (H7 c Hc).
    unfold avoids. destruct c; try done; apply andb_true_iff in H7 as [Ha Hb];
      apply negb_true_iff, Nat.eqb_neq in Ha; (apply Nat.leb_le in Hb || apply Nat.ltb_lt in Hb);
      split; lia.
  - intros E. destruct (cur_kont w); try done; by rewrite E, Nat.eqb_refl in H8.
  - intros x Hx Ep. specialize (H9 x). rewrite Ep, Z.eqb_refl in H9. apply H9, in_seq. lia.
Qed.

(** C40: A wake-up can be lost. In the code as it is, a reachable interleaving
    leaves process 1 [Blocked] in [wait] on its child, pid 2, after the child
    has exited with its status uncollected; and from there process 1 stays
    blocked along every run in which pid 2 is not issued again. *)
Theorem lost_wakeup_blocks_forever :
  exists w, reachable code_masked (vm demo_kernel) w /\
    waiting_for (proc (kern w) 0) = WaitPid 2 /\
    core (proc (kern w) 1) = mkCore 2 (pid (proc (kern w) 0)) false Exited WaitNone /\
    forall w', rtc (fun a b => step code_masked a b /\ NEXT_PID (kern a) <> 2) w w' ->
      state (proc (kern w') 0) = Blocked.
Proof.
  exists woken_too_early. split; [exact woken_too_early_reachable|].
  split; [vm_compute; reflexivity|]. split; [vm_compute; reflexivity|].
  assert (Hs : stuck_on 0 2 woken_too_early) by (apply stuck_test_ok; vm_compute; reflexivity).
  pose proof (reachable_wf _ _ _ woken_too_early_reachable) as Hw.
  revert Hs Hw. generalize woken_too_early. intros w Hs Hw w' Hr.
  induction Hr as [w|x y z [Hst Hn] _ IH].
  - by apply (so_blocked _ _ _ Hs).
  - apply IH; [by eapply stuck_step|by eapply step_konts_wf].
Qed.

(** ** A trace that switches to a slot picked too early *)

(** The console waits for process 1 and has picked its slot when the tick
    lands; process 1 then runs to its end. *)
Definition picked_too_early : World :=
  let w := boot_world (vm demo_kernel) in
  let w := call_wait 1 (call_spawn 0 w) in
  let w := Nat.iter 3 run_kont w in
  let w := run_kont (tick w) in
  let w := Nat.iter 5 run_kont (call_exit 0 w) in
  run_kont w.

Lemma picked_too_early_reachable : reachable code_masked (vm demo_kernel) picked_too_early.
Proof.
  unfold reachable, picked_too_early. cbv zeta.
  etrans; [apply (rtc_spawn code_masked 0); vm_compute; reflexivity|].
  etrans; [apply (rtc_wait code_masked 1); vm_compute; reflexivity|].
  etrans; [apply (rtc_run code_masked 3)|].
  etrans; [apply (rtc_tick code_masked); vm_compute; reflexivity|].
  etrans; [apply (rtc_run1 code_masked)|].
  etrans; [apply (rtc_exit code_masked 0); [vm_compute; reflexivity|apply Nat.ltb_lt; vm_compute; reflexivity]|].
  etrans; [apply (rtc_run code_masked 5)|].
  apply (rtc_run1 code_masked).
Qed.

(** An exited process can be resumed. A tick between [pick_next_ready] and
    [switch_to] in the console's wait lets the picked process run to its end;
    the console then switches to the dead context: the slot is [Running] again
    past its own exit, its stack is no longer pending because it has been
    reclaimed, and a wait for its pid neither returns its status nor fails. *)
Theorem stale_pick_resumes_exited :
  exists w, reachable code_masked (vm demo_kernel) w /\
    current w = 0%nat /\ cur_kont w = ExitPick /\
    state (proc (kern w) 0) = Running /\ pid (proc (kern w) 0) = 1 /\
    Forall (fun slot => slot = None) (PENDING_STACK_RECLAIMS (kern w)) /\
    snd (wait_round (WaitPid 1) (kern w)) = false.
Proof.
  exists picked_too_early. split; [exact picked_too_early_reachable|].
  repeat (split; [vm_compute; reflexivity|]). split; [|vm_compute; reflexivity].
  vm_compute. repeat constructor.
Qed.

(** Waiting for a pid whose status has already been collected does not
    report that nothing is left to wait for, as long as its slot has not been
    reused: the wait loop's two checks both fail and it goes on to block. *)
Theorem wait_on_collected_pid_blocks k i :
  table_sized k -> pids_unique k -> (i < PROCESS_COUNT)%nat ->
  waited (proc k i) = true -> state (proc k i) = Exited ->
  wait_round (WaitPid (pid (proc k i))) k = (k, false).
Proof.
  intros Hs [Hu _] Hi Hw He. unfold wait_round.
  pose proof (wait_by_pid_spec k (pid (proc k i)) Hs) as H.
  destruct (process_wait_by_pid (pid (proc k i)) k) as [k' [st|]].
  - destruct H as (j & (Hj & Hp & Hwj & Hsj) & _). exfalso.
    assert (j = i) as ->; [|congruence]. apply Hu; try done; [by destruct Hsj as [E|E]; rewrite E|].
    by rewrite He.
  - destruct H as [-> _]. unfold find_process_index_by_pid.
    destruct (find_first _ _) as [j|] eqn:E; [done|].
    pose proof (find_first_none_slot _ i E Hi) as H. simpl in H.
    rewrite Z.eqb_refl in H. simpl in H. apply negb_false_iff, is_state_true in H. congruence.
Qed.

(** Pid 5 has exited and been waited for. *)
Definition collected : Kernel :=
  let k := update_proc 2 (fun p => {| p with pid := 5; waited := true; state := Exited |}) demo_kernel in
  {| k with NEXT_PID := 9 |}.

Lemma collected_proc i :
  proc collected i =
  if decide (i = 2%nat) then
    let p := Process_empty in {| p with pid := 5; waited := true; state := Exited |}
  else Process_empty.
Proof.
  rewrite (proc_table collected
    (update_proc 2 (fun p => {| p with pid := 5; waited := true; state := Exited |}) demo_kernel)) by done.
  rewrite proc_update by (done || (apply Nat.leb_le; reflexivity)). by rewrite !demo_proc.
Qed.

Lemma collected_pids : pids_unique collected.
Proof.
  split.
  - intros i j _ _. rewrite !collected_proc. by do 2 case_decide; subst.
  - intros i _. rewrite collected_proc. by case_decide.
Qed.

Lemma wait_on_collected_pid_blocks_witness : wait_round (WaitPid 5) collected = (collected, false).
Proof.
  exact (wait_on_collected_pid_blocks collected 2 eq_refl collected_pids
    (proj1 (Nat.ltb_lt 2 PROCESS_COUNT) eq_refl) eq_refl eq_refl).
Defined.
