(* ===== verification/Env.v ===== *)
(** * Process environments

    A process's environment is a table of overrides over the fixed [ENV]: the
    [env_*] functions of [src/kernel/src/main.rs], over the table of the current
    process. *)

From S2P Require Import Prelude Constants Text Process.

Definition ENV : list (bytes * bytes) :=
  [(bs "PATH", bs "programs"); (bs "HOME", bs "/"); (bs "SHELL", bs "rysh");
   (bs "USER", bs "root"); (bs "RYMOS_TARGET", bs "x86_64-rymos"); (bs "TMPDIR", bs "pfs:tmp")].

Definition env_at (e : list AppEnvVar) (i : nat) : AppEnvVar := default AppEnvVar_empty (e !! i).

Definition entry_is (key : bytes) (v : AppEnvVar) : bool :=
  env_used v && bytes_eq (env_key v) key.

Fixpoint static_lookup (key : bytes) (l : list (bytes * bytes)) : option bytes :=
  match l with
  | [] => None
  | (k, v) :: rest => if bytes_eq k key then Some v else static_lookup key rest
  end.

(** The first override of [key]. *)
Fixpoint overlay_find (key : bytes) (e : list AppEnvVar) : option AppEnvVar :=
  match e with
  | [] => None
  | v :: rest => if entry_is key v then Some v else overlay_find key rest
  end.

Definition env_lookup (key : bytes) (e : list AppEnvVar) : option bytes :=
  match overlay_find key e with
  | Some v => if env_deleted v then None else Some (env_value v)
  | None => static_lookup key ENV
  end.

Definition env_overlay_has_key (key : bytes) (e : list AppEnvVar) : bool :=
  match overlay_find key e with Some _ => true | None => false end.

(** The two loops of [env_list_entry], with the counter [seen]. *)
Fixpoint list_overlay (e : list AppEnvVar) (seen wanted : nat) : (bytes * bytes) + nat :=
  match e with
  | [] => inr seen
  | v :: rest =>
      if env_used v && negb (env_deleted v) then
        if Nat.eqb seen wanted then inl (env_key v, env_value v)
        else list_overlay rest (S seen) wanted
      else list_overlay rest seen wanted
  end.

Fixpoint list_static (l : list (bytes * bytes)) (e : list AppEnvVar) (seen wanted : nat)
  : option (bytes * bytes) :=
  match l with
  | [] => None
  | (k, v) :: rest =>
      if env_overlay_has_key k e then list_static rest e seen wanted
      else if Nat.eqb seen wanted then Some (k, v)
      else list_static rest e (S seen) wanted
  end.

Definition env_list_entry (wanted : nat) (e : list AppEnvVar) : option (bytes * bytes) :=
  match list_overlay e 0 wanted with
  | inl kv => Some kv
  | inr seen => list_static ENV e seen wanted
  end.

(** The slot search of [env_set_overlay]: the slot that holds [key], else the
    first unused one; [APP_ENV_COUNT] when there is neither. *)
Fixpoint env_slot (key : bytes) (e : list AppEnvVar) (index slot : nat) : nat :=
  match e with
  | [] => slot
  | v :: rest =>
      if entry_is key v then index
      else if Nat.eqb slot APP_ENV_COUNT && negb (env_used v)
      then env_slot key rest (S index) index
      else env_slot key rest (S index) slot
  end.

Definition env_key_bad (key value : bytes) : bool :=
  bytes_eq key [] || (APP_ENV_KEY_MAX <? blen key) || (APP_ENV_VALUE_MAX <? blen value)
  || existsb (fun byte => (byte =? ch "=") || (byte =? 0)) key.

(** [inl] is the error number, [inr] the new table. *)
Definition env_set_overlay (key value : bytes) (deleted : bool) (e : list AppEnvVar)
  : Z + list AppEnvVar :=
  if env_key_bad key value then inl ERR_INVAL
  else
    let slot := env_slot key e 0 APP_ENV_COUNT in
    if Nat.eqb slot APP_ENV_COUNT then inl ERR_NOSPC
    else inr (<[slot := mkEnvVar true deleted key value]> e).

(** ** The table as a map *)

Definition env_wf (e : list AppEnvVar) : Prop :=
  length e = APP_ENV_COUNT /\
  forall i j v w, e !! i = Some v -> e !! j = Some w -> env_used v = true -> env_used w = true ->
    env_key v = env_key w -> i = j.

(** What the program sees, in the order [env_list] shows it. *)
Definition env_visible (e : list AppEnvVar) : list (bytes * bytes) :=
  map (fun v => (env_key v, env_value v)) (filter (fun v => env_used v && negb (env_deleted v) = true) e)
  ++ filter (fun kv => env_overlay_has_key kv.1 e = false) ENV.

Lemma entry_is_true key v : entry_is key v = true <-> env_used v = true /\ env_key v = key.
Proof. unfold entry_is. by rewrite andb_true_iff, bytes_eq_spec. Qed.

Lemma overlay_find_some key e v :
  overlay_find key e = Some v -> exists i, e !! i = Some v /\ entry_is key v = true.
Proof.
  induction e as [|w e IH]; simpl; [done|]. destruct (entry_is key w) eqn:E.
  - intros [= <-]. by exists 0%nat.
  - intros H. destruct (IH H) as (i & Hi & Hv). by exists (S i).
Qed.

Lemma overlay_find_none key e i v :
  overlay_find key e = None -> e !! i = Some v -> entry_is key v = false.
Proof.
  revert i. induction e as [|w e IH]; intros i; simpl; [done|].
  destruct (entry_is key w) eqn:E; [done|]. destruct i as [|i]; simpl; [by intros _ [= <-]|apply IH].
Qed.

Lemma overlay_find_unique key e i v :
  env_wf e -> e !! i = Some v -> entry_is key v = true -> overlay_find key e = Some v.
Proof.
  intros [_ Hu] Hi Hv. destruct (overlay_find key e) as [w|] eqn:E.
  - apply overlay_find_some in E as (j & Hj & Hw). apply entry_is_true in Hv as [V1 V2].
    apply entry_is_true in Hw as [W1 W2]. assert (i = j) by (eapply Hu; eauto; congruence). congruence.
  - by rewrite (overlay_find_none _ _ _ _ E Hi) in Hv.
Qed.

(** The search loop, as two searches. *)
Lemma env_slot_eq key e index slot :
  (index + length e <= APP_ENV_COUNT)%nat ->
  env_slot key e index slot =
  match list_find (fun v => entry_is key v = true) e with
  | Some (i, _) => (index + i)%nat
  | None =>
      if Nat.eqb slot APP_ENV_COUNT then
        match list_find (fun v => env_used v = false) e with
        | Some (i, _) => (index + i)%nat
        | None => slot
        end
      else slot
  end.
Proof.
  revert index slot. induction e as [|w e IH]; intros index slot Hl; simpl.
  { by destruct (Nat.eqb slot APP_ENV_COUNT). }
  simpl in Hl. destruct (entry_is key w) eqn:E.
  { rewrite decide_True by done. lia. }
  rewrite decide_False by done.
  assert (Hidx : Nat.eqb index APP_ENV_COUNT = false) by (apply Nat.eqb_neq; lia).
  destruct (Nat.eqb_spec slot APP_ENV_COUNT) as [->|Hs]; simpl.
  - destruct (env_used w) eqn:Eu; simpl; rewrite IH by lia.
    + rewrite Nat.eqb_refl.
      destruct (list_find (fun v => entry_is key v = true) e) as [[i v]|]; simpl; [lia|].
      destruct (list_find (fun v => env_used v = false) e) as [[i v]|]; simpl; [lia|done].
    + rewrite Hidx.
      destruct (list_find (fun v => entry_is key v = true) e) as [[i v]|]; simpl; lia.
  - rewrite IH by lia. destruct (Nat.eqb_spec slot APP_ENV_COUNT); [done|].
    destruct (list_find (fun v => entry_is key v = true) e) as [[i v]|]; simpl; [lia|done].
Qed.

(** The slot [env_set_overlay] writes. *)
Lemma env_slot_cases key e :
  length e = APP_ENV_COUNT ->
  let slot := env_slot key e 0 APP_ENV_COUNT in
  ((slot < APP_ENV_COUNT)%nat /\ exists v, e !! slot = Some v /\
     (entry_is key v = true \/ (env_used v = false /\ forall i w, e !! i = Some w -> entry_is key w = false))) \/
  (slot = APP_ENV_COUNT /\ forall i w, e !! i = Some w -> env_used w = true /\ entry_is key w = false).
Proof.
  intros Hl slot. unfold slot. rewrite env_slot_eq by lia.
  destruct (list_find (fun v => entry_is key v = true) e) as [[i v]|] eqn:E.
  - apply list_find_Some in E as (Hi & Hv & _). pose proof (lookup_lt_Some _ _ _ Hi).
    left. split; [simpl; lia|]. exists v. simpl. auto.
  - assert (Hn : forall i w, e !! i = Some w -> entry_is key w = false).
    { intros i w Hw. apply list_find_None in E. rewrite Forall_lookup in E.
      specialize (E i w Hw). by destruct (entry_is key w). }
    rewrite Nat.eqb_refl. destruct (list_find (fun v => env_used v = false) e) as [[i v]|] eqn:E2.
    + apply list_find_Some in E2 as (Hi & Hv & _). pose proof (lookup_lt_Some _ _ _ Hi).
      left. split; [simpl; lia|]. exists v. simpl. auto.
    + right. split; [done|]. intros i w Hw. split; [|by apply (Hn i)].
      apply list_find_None in E2. rewrite Forall_lookup in E2. specialize (E2 i w Hw). by destruct (env_used w).
Qed.

Section Set_.

Context (e : list AppEnvVar) (slot : nat) (key value : bytes) (deleted : bool) (old : AppEnvVar).
Context (Hwf : env_wf e) (Hold : e !! slot = Some old).
Context (Hslot : entry_is key old = true \/
  (env_used old = false /\ forall i w, e !! i = Some w -> entry_is key w = false)).

Let e' := <[slot := mkEnvVar true deleted key value]> e.

Lemma set_lookup i v :
  e' !! i = Some v <-> (i = slot /\ v = mkEnvVar true deleted key value) \/ (i <> slot /\ e !! i = Some v).
Proof using Hold Hslot.
  unfold e'. pose proof (lookup_lt_Some _ _ _ Hold). destruct (decide (i = slot)) as [->|Hne].
  - rewrite list_lookup_insert_eq by done. naive_solver.
  - rewrite list_lookup_insert_ne by done. naive_solver.
Qed.

Lemma set_other_key i v : i <> slot -> e !! i = Some v -> entry_is key v = false.
Proof using Hwf Hold Hslot.
  intros Hne Hi. destruct (entry_is key v) eqn:E; [|done]. exfalso.
  destruct Hslot as [Ho|[_ Hn]]; [|by rewrite (Hn i v Hi) in E].
  apply entry_is_true in E as [E1 E2]. apply entry_is_true in Ho as [O1 O2].
  destruct Hwf as [_ Hu]. apply Hne. eapply Hu; eauto. congruence.
Qed.

Lemma set_wf : env_wf e'.
Proof using Hwf Hold Hslot.
  split; [unfold e'; rewrite length_insert; apply Hwf|].
  intros i j v w [[-> ->]|[Hi Hv]]%set_lookup [[-> ->]|[Hj Hw]]%set_lookup Uv Uw Ek; simpl in *; try done.
  - pose proof (set_other_key j w Hj Hw) as E. unfold entry_is in E.
    by rewrite Uw, <- Ek, bytes_eq_refl in E.
  - pose proof (set_other_key i v Hi Hv) as E. unfold entry_is in E.
    by rewrite Uv, Ek, bytes_eq_refl in E.
  - destruct Hwf as [_ Hu]. by eapply Hu.
Qed.

Lemma set_find_same : overlay_find key e' = Some (mkEnvVar true deleted key value).
Proof using Hwf Hold Hslot.
  apply (overlay_find_unique _ _ slot); [apply set_wf|apply set_lookup; by left|].
  apply entry_is_true. done.
Qed.

Lemma set_find_other k : k <> key -> overlay_find k e' = overlay_find k e.
Proof using Hwf Hold Hslot.
  intros Hk. destruct (overlay_find k e) as [v|] eqn:E.
  - apply overlay_find_some in E as (i & Hi & Hv). apply (overlay_find_unique _ _ i); [apply set_wf| |done].
    apply set_lookup. right. split; [|done]. intros ->. assert (v = old) as -> by congruence.
    apply entry_is_true in Hv as [V1 V2]. destruct Hslot as [[O1 O2]%entry_is_true|[O1 _]]; congruence.
  - destruct (overlay_find k e') as [v|] eqn:E'; [|done]. exfalso.
    apply overlay_find_some in E' as (i & [[-> ->]|[Hi Hv]]%set_lookup & Hk').
    + apply entry_is_true in Hk' as [_ Hk']. by apply Hk.
    + by rewrite (overlay_find_none _ _ _ _ E Hv) in Hk'.
Qed.

End Set_.

(** A change of the table, on every branch. *)
Lemma env_set_spec e key value deleted :
  env_wf e ->
  match env_set_overlay key value deleted e with
  | inr e' => exists slot, (slot < length e)%nat /\ env_key_bad key value = false /\
      e' = <[slot := mkEnvVar true deleted key value]> e /\ env_wf e' /\
      overlay_find key e' = Some (mkEnvVar true deleted key value) /\
      (forall k, k <> key -> overlay_find k e' = overlay_find k e)
  | inl err =>
      (err = ERR_INVAL /\ env_key_bad key value = true) \/
      (err = ERR_NOSPC /\ env_key_bad key value = false /\
       forall i v, e !! i = Some v -> env_used v = true /\ env_key v <> key)
  end.
Proof.
  intros Hwf. unfold env_set_overlay. destruct (env_key_bad key value); [by left|].
  destruct (env_slot_cases key e (proj1 Hwf)) as [(Hlt & old & Hold & Hs)|(Heq & Hall)].
  - destruct (Nat.eqb_spec (env_slot key e 0 APP_ENV_COUNT) APP_ENV_COUNT); [lia|].
    exists (env_slot key e 0 APP_ENV_COUNT).
    split; [by apply lookup_lt_Some in Hold|]. split; [done|]. split; [done|].
    split; [by eapply set_wf|]. split; [by apply (set_find_same e _ _ _ _ old)|].
    intros k Hk. by rewrite (set_find_other e _ _ _ _ old).
  - rewrite Heq, Nat.eqb_refl. right. split_and!; [done..|]. intros i v Hv.
    destruct (Hall i v Hv) as [Hu Hk]. split; [done|]. intros <-.
    unfold entry_is in Hk. by rewrite Hu, bytes_eq_refl in Hk.
Qed.

(** ** Properties *)

(** Setting or removing a variable with a valid key and value changes what
    that key looks up to and nothing else, and keeps the keys of the table
    distinct; it is refused with [ERR_INVAL] exactly for a bad key or value and
    with [ERR_NOSPC] only when 64 other variables are recorded. *)
Theorem env_set_updates_map e key value deleted :
  env_wf e ->
  match env_set_overlay key value deleted e with
  | inr e' => env_wf e' /\
      env_lookup key e' = (if deleted then None else Some value) /\
      (forall k, k <> key -> env_lookup k e' = env_lookup k e)
  | inl err =>
      (err = ERR_INVAL /\ env_key_bad key value = true) \/
      (err = ERR_NOSPC /\ env_key_bad key value = false /\
       forall i v, e !! i = Some v -> env_used v = true /\ env_key v <> key)
  end.
Proof.
  intros Hwf. pose proof (env_set_spec e key value deleted Hwf) as Hs.
  destruct (env_set_overlay key value deleted e); [done|].
  destruct Hs as (_ & _ & _ & _ & Hw & Hs & Ho). unfold env_lookup. split; [done|]. split.
  - rewrite Hs. by destruct deleted.
  - intros k Hk. by rewrite Ho.
Qed.

Lemma list_overlay_spec e seen wanted :
  (seen <= wanted)%nat ->
  let l := filter (fun v => env_used v && negb (env_deleted v) = true) e in
  list_overlay e seen wanted =
  match l !! (wanted - seen)%nat with
  | Some v => inl (env_key v, env_value v)
  | None => inr (seen + length l)%nat
  end.
Proof.
  revert seen. induction e as [|v e IH]; intros seen Hs; simpl; [f_equal; lia|].
  rewrite filter_cons. destruct (env_used v && negb (env_deleted v)) eqn:E.
  - rewrite decide_True by done. destruct (Nat.eqb_spec seen wanted) as [->|Hne].
    + by rewrite Nat.sub_diag.
    + rewrite IH by lia. replace (wanted - seen)%nat with (S (wanted - S seen)) by lia. simpl.
      destruct (_ !! _); [done|f_equal; lia].
  - rewrite decide_False by done. by apply IH.
Qed.

Lemma list_static_spec l e seen wanted :
  (seen <= wanted)%nat ->
  list_static l e seen wanted =
  filter (fun kv => env_overlay_has_key kv.1 e = false) l !! (wanted - seen)%nat.
Proof.
  revert seen. induction l as [|[k v] l IH]; intros seen Hs; simpl; [done|].
  rewrite filter_cons. simpl. destruct (env_overlay_has_key k e) eqn:E.
  - rewrite decide_False by done. by apply IH.
  - rewrite decide_True by done. destruct (Nat.eqb_spec seen wanted) as [->|Hne].
    + by rewrite Nat.sub_diag.
    + rewrite IH by lia. by replace (wanted - seen)%nat with (S (wanted - S seen)) by lia.
Qed.

(** [env_list_entry] enumerates exactly the variables [env_lookup] finds:
    entry [i] is the [i]-th visible variable, every listed variable looks up to
    the listed value, and every variable that looks up to a value is listed. *)
Theorem env_list_is_lookup e :
  env_wf e ->
  (forall i, env_list_entry i e = env_visible e !! i) /\
  (forall k v, (k, v) ∈ env_visible e <-> env_lookup k e = Some v).
Proof.
  intros Hwf. split.
  - intros i. unfold env_list_entry, env_visible. rewrite list_overlay_spec by lia. rewrite Nat.sub_0_r.
    destruct (filter _ e !! i) as [v|] eqn:E.
    + rewrite lookup_app_l by (rewrite length_map; by eapply lookup_lt_Some).
      by rewrite list_lookup_fmap, E.
    + apply lookup_ge_None in E. rewrite list_static_spec by lia.
      rewrite lookup_app_r by (by rewrite length_map). by rewrite length_map.
  - intros k v. unfold env_visible, env_lookup. rewrite elem_of_app. split.
    + intros [H|H].
      * apply list_elem_of_fmap in H as (w & [= -> ->] & [Hw Hin]%list_elem_of_filter).
        apply andb_true_iff in Hw as [Hu Hd%negb_true_iff].
        apply list_elem_of_lookup in Hin as [i Hi].
        rewrite (overlay_find_unique _ _ i w Hwf Hi) by by apply entry_is_true. by rewrite Hd.
      * apply list_elem_of_filter in H as [Hn Hin]. unfold env_overlay_has_key in Hn. simpl in Hn.
        destruct (overlay_find k e); [done|]. revert Hin. clear.
        unfold ENV. rewrite !elem_of_cons. intros H. repeat (destruct H as [[= -> ->]|H]; [reflexivity|]).
        by inversion H.
    + destruct (overlay_find k e) as [w|] eqn:E.
      * destruct (env_deleted w) eqn:Ed; [done|]. intros [= <-]. left.
        apply overlay_find_some in E as (i & Hi & [Hu Hk]%entry_is_true).
        apply list_elem_of_fmap. exists w. split; [by rewrite Hk|]. apply list_elem_of_filter.
        split; [by rewrite Hu, Ed|by eapply list_elem_of_lookup_2].
      * intros H. right. apply list_elem_of_filter. split; [unfold env_overlay_has_key; simpl; by rewrite E|].
        revert H. clear. generalize ENV. intros l. induction l as [|[k' v'] l IH]; simpl; [done|].
        destruct (bytes_eq k' k) eqn:Ek; [apply bytes_eq_spec in Ek as ->; intros [= ->]; left|].
        intros H. right. auto.
Qed.

Definition env_empty : list AppEnvVar := replicate APP_ENV_COUNT AppEnvVar_empty.

Lemma env_empty_wf : env_wf env_empty.
Proof.
  split; [apply length_replicate|]. intros i j v w [-> _]%lookup_replicate _ Hv. discriminate.
Qed.

Lemma env_set_updates_map_witness :
  match env_set_overlay (bs "PATH") (bs "/bin") false env_empty with
  | inr e' => env_lookup (bs "PATH") e' = Some (bs "/bin") /\ env_lookup (bs "HOME") e' = Some (bs "/")
  | inl _ => False
  end.
Proof.
  pose proof (env_set_updates_map env_empty (bs "PATH") (bs "/bin") false env_empty_wf) as H.
  destruct (env_set_overlay (bs "PATH") (bs "/bin") false env_empty) as [err|e'] eqn:E.
  - exfalso. revert E. vm_compute. discriminate.
  - destruct H as (_ & H1 & H2). split; [exact H1|]. rewrite H2; [reflexivity|].
    vm_compute. discriminate.
Defined.

Lemma env_list_is_lookup_witness : env_list_entry 1 env_empty = Some (bs "HOME", bs "/").
Proof. rewrite (proj1 (env_list_is_lookup env_empty env_empty_wf)). reflexivity. Defined.
