(* ===== verification/Fd.v ===== *)
(** * File descriptors and pipes

    The shared tables [APP_FDS] and [APP_PIPES] of [src/kernel/src/main.rs] and
    what [abi_pipe], [abi_read], [abi_write_fd], [abi_seek], [abi_close],
    [abi_dup2] and [abi_std_fd] do to them. *)

From S2P Require Import Prelude Constants Text.

Inductive AppFdKind : Type := FdEmpty | FdBootFs | FdPfs | FdPipeRead | FdPipeWrite.

#[export] Instance AppFdKind_eq_dec : EqDecision AppFdKind.
Proof. solve_decision. Defined.

(** [fd_data] is the file's bytes behind the [data] pointer of a BootFS handle. *)
Record AppFd : Type := mkFd {
  fd_open : bool;
  fd_kind : AppFdKind;
  fd_flags : Z;
  fd_data : bytes;
  fd_len : Z;
  fd_offset : Z;
  pfs_index : nat
}.

Definition AppFd_empty : AppFd := mkFd false FdEmpty 0 [] 0 0 0.

Record AppPipe : Type := mkPipe {
  pipe_used : bool;
  read_open : bool;
  write_open : bool;
  pipe_buffer : arr;
  read_offset : Z;
  pipe_len : Z
}.

Definition AppPipe_empty : AppPipe := mkPipe false false false zeroed 0 0.

Record Fds : Type := mkFds { APP_FDS : list AppFd; APP_PIPES : list AppPipe }.

Definition fds_empty : Fds :=
  mkFds (replicate APP_FD_COUNT AppFd_empty) (replicate APP_PIPE_COUNT AppPipe_empty).

Definition fd_at (t : Fds) (i : nat) : AppFd := default AppFd_empty (APP_FDS t !! i).
Definition pipe_at (t : Fds) (i : nat) : AppPipe := default AppPipe_empty (APP_PIPES t !! i).

Definition set_fd (i : nat) (f : AppFd) (t : Fds) : Fds := {| t with APP_FDS := <[i := f]> (APP_FDS t) |}.
Definition set_pipe (i : nat) (p : AppPipe) (t : Fds) : Fds :=
  {| t with APP_PIPES := <[i := p]> (APP_PIPES t) |}.

Definition app_fd_index (fd : Z) : option nat :=
  if fd <? APP_FD_BASE then None
  else
    let index := Z.to_nat (fd - APP_FD_BASE) in
    if Nat.ltb index APP_FD_COUNT then Some index else None.

Definition is_std_fd (fd : Z) : bool := (STDIN_FD <=? fd) && (fd <=? STDERR_FD).

(** [std_fds] is the redirection table of the current process. *)
Definition app_resolve_fd (std_fds : list Z) (fd : Z) : Z :=
  if is_std_fd fd then nth (Z.to_nat fd) std_fds 0 else fd.

Definition app_fd_open (t : Fds) (fd : Z) : bool :=
  if is_std_fd fd then true
  else match app_fd_index fd with
       | None => false
       | Some index => fd_open (fd_at t index)
       end.

Definition app_close_all_fds (t : Fds) : Fds := fds_empty.

(** [for index in 0..APP_FD_COUNT { if !table[index].open { .. } }] *)
Definition free_fd (t : Fds) : option nat :=
  find_first (fun i => negb (fd_open (fd_at t i))) APP_FD_COUNT.

Definition flag_set (flags flag : Z) : bool := negb (Z.land flags flag =? 0).

(** ** Pipes *)

(** The slot scan of [abi_pipe]: the first two closed descriptors. *)
Definition two_free_fds (t : Fds) : option (nat * nat) :=
  match free_fd t with
  | None => None
  | Some r =>
      match find_first (fun i => Nat.ltb r i && negb (fd_open (fd_at t i))) APP_FD_COUNT with
      | None => None
      | Some w => Some (r, w)
      end
  end.

(** [abi_pipe]: the descriptor numbers it stores, or the error number. *)
Definition pipe_open (t : Fds) : Fds * (Z + Z * Z) :=
  match find_first (fun i => negb (pipe_used (pipe_at t i))) APP_PIPE_COUNT with
  | None => (t, inl ERR_NOSPC)
  | Some p =>
      match two_free_fds t with
      | None => (t, inl ERR_NOSPC)
      | Some (r, w) =>
          let t := set_pipe p (mkPipe true true true zeroed 0 0) t in
          let t := set_fd r (mkFd true FdPipeRead FD_READ [] 0 0 p) t in
          let t := set_fd w (mkFd true FdPipeWrite FD_WRITE [] 0 0 p) t in
          (t, inr (Z.of_nat r + APP_FD_BASE, Z.of_nat w + APP_FD_BASE))
      end
  end.

(** The pipe branch of [abi_read]: [None] is [-1]. *)
Definition pipe_read (buffer_len : Z) (p : AppPipe) : option (AppPipe * bytes) :=
  if negb (pipe_used p) || negb (read_open p) then None
  else
    let available := saturating_sub (pipe_len p) (read_offset p) in
    let pipe_copy := Z.min buffer_len available in
    if pipe_copy =? 0 then Some (p, [])
    else
      let got := slice (pipe_buffer p) (read_offset p) pipe_copy in
      let read_offset' := read_offset p + pipe_copy in
      if read_offset' =? pipe_len p
      then Some ({| p with read_offset := 0; pipe_len := 0 |}, got)
      else Some ({| p with read_offset := read_offset' |}, got).

(** The pipe branch of [abi_write_fd]: the number of bytes taken. *)
Definition pipe_write (data : bytes) (p : AppPipe) : option (AppPipe * Z) :=
  if negb (pipe_used p) || negb (write_open p) || negb (read_open p) then None
  else
    let available := saturating_sub APP_PIPE_BUFFER_SIZE (pipe_len p) in
    let write_len := Z.min (blen data) available in
    if (write_len =? 0) && negb (blen data =? 0) then None
    else Some ({| p with pipe_buffer := blit (pipe_buffer p) (pipe_len p) (take (Z.to_nat write_len) data);
                         pipe_len := pipe_len p + write_len |}, write_len).

(** ** Descriptors *)

Definition fd_seek (fd offset : Z) (t : Fds) : Fds * Z :=
  if fd <? 0 then (t, -1)
  else match app_fd_index fd with
  | None => (t, -1)
  | Some index =>
      let handle := fd_at t index in
      if negb (fd_open handle) then (t, -1)
      else if bool_decide (fd_kind handle = FdBootFs) && (fd_len handle <? offset) then (t, -1)
      else (set_fd index {| handle with fd_offset := offset |} t, i64 offset)
  end.

(** The pipe end a closed descriptor leaves behind. *)
Definition close_pipe_end (handle : AppFd) (t : Fds) : Fds :=
  let p := pipe_at t (pfs_index handle) in
  match fd_kind handle with
  | FdPipeRead =>
      set_pipe (pfs_index handle)
        (if write_open p then {| p with read_open := false |} else AppPipe_empty) t
  | FdPipeWrite =>
      set_pipe (pfs_index handle)
        (if read_open p then {| p with write_open := false |} else AppPipe_empty) t
  | _ => t
  end.

(** [abi_close] of a descriptor that is not a standard one. *)
Definition fd_close (fd : Z) (t : Fds) : Fds * Z :=
  match app_fd_index fd with
  | None => (t, -1)
  | Some index =>
      let handle := fd_at t index in
      if negb (fd_open handle) then (t, -1)
      else (set_fd index AppFd_empty (close_pipe_end handle t), 0)
  end.

(** ** A pipe is a bounded queue *)

Record pipe_wf (p : AppPipe) : Prop := {
  pp_bounds : 0 <= read_offset p <= pipe_len p /\ pipe_len p <= APP_PIPE_BUFFER_SIZE;
  pp_reset : read_offset p = pipe_len p -> pipe_len p = 0
}.

(** The bytes written and not yet read, oldest first. *)
Definition queue (p : AppPipe) : bytes := slice (pipe_buffer p) (read_offset p) (pipe_len p - read_offset p).

(** The room left behind the unread bytes. *)
Definition pipe_room (p : AppPipe) : Z := APP_PIPE_BUFFER_SIZE - pipe_len p.

Lemma read_spec buffer_len p :
  pipe_wf p -> 0 <= buffer_len ->
  match pipe_read buffer_len p with
  | Some (p', got) =>
      pipe_wf p' /\ got = take (Z.to_nat buffer_len) (queue p) /\
      queue p' = drop (Z.to_nat buffer_len) (queue p) /\
      pipe_used p' = pipe_used p /\ read_open p' = read_open p /\ write_open p' = write_open p
  | None => pipe_used p = false \/ read_open p = false
  end.
Proof.
  intros [[Hr Hl] Hz] Hb. unfold pipe_read.
  destruct (pipe_used p) eqn:Eu; simpl; [|by left]. destruct (read_open p) eqn:Er; simpl; [|by right].
  unfold saturating_sub. set (n := Z.min buffer_len (Z.max 0 (pipe_len p - read_offset p))).
  assert (Hn : 0 <= n <= pipe_len p - read_offset p /\ (n = buffer_len \/ n = pipe_len p - read_offset p)) by lia.
  assert (Hq : queue p = slice (pipe_buffer p) (read_offset p) n ++
                 slice (pipe_buffer p) (read_offset p + n) (pipe_len p - read_offset p - n)).
  { unfold queue. rewrite <- slice_app by lia. f_equal. lia. }
  assert (Ht : take (Z.to_nat buffer_len) (queue p) = slice (pipe_buffer p) (read_offset p) n /\
    drop (Z.to_nat buffer_len) (queue p) =
      slice (pipe_buffer p) (read_offset p + n) (pipe_len p - read_offset p - n)).
  { assert (Hlen : length (queue p) = Z.to_nat (pipe_len p - read_offset p)) by apply length_slice.
    destruct Hn as [Hn [E|E]].
    - rewrite Hq, <- E. split; [apply take_app_length'|apply drop_app_length']; by rewrite length_slice.
    - rewrite take_ge, drop_ge by lia. rewrite E, Z.sub_diag. split; [done|].
      by unfold slice. }
  destruct Ht as [-> ->]. destruct (Z.eqb_spec n 0) as [E0|N0].
  - rewrite E0 in *. split_and!; try done; unfold queue; f_equal; lia.
  - destruct (Z.eqb_spec (read_offset p + n) (pipe_len p)) as [E1|N1].
    + split_and!; try done. unfold queue. simpl.
      replace (pipe_len p - read_offset p - n) with 0 by lia. done.
    + split_and!; try done; try (split; simpl; lia). unfold queue. simpl. f_equal. lia.
Qed.

Lemma write_spec data p :
  pipe_wf p ->
  match pipe_write data p with
  | Some (p', n) =>
      pipe_wf p' /\ n = Z.min (blen data) (pipe_room p) /\
      queue p' = queue p ++ take (Z.to_nat n) data /\
      pipe_used p' = pipe_used p /\ read_open p' = read_open p /\ write_open p' = write_open p
  | None => pipe_used p = false \/ write_open p = false \/ read_open p = false \/
      (pipe_room p = 0 /\ data <> [])
  end.
Proof.
  intros [[Hr Hl] Hz]. unfold pipe_write, pipe_room. pose proof (blen_nonneg data).
  destruct (pipe_used p) eqn:Eu; simpl; [|auto]. destruct (write_open p) eqn:Ew; simpl; [|auto].
  destruct (read_open p) eqn:Er; simpl; [|auto].
  unfold saturating_sub. rewrite Z.max_r by lia.
  set (n := Z.min (blen data) (APP_PIPE_BUFFER_SIZE - pipe_len p)).
  destruct ((n =? 0) && negb (blen data =? 0)) eqn:E.
  - right; right; right. split; [|intros ->; unfold blen in *; simpl in *; lia]. lia.
  - assert (Hn : blen (take (Z.to_nat n) data) = n) by (unfold blen in *; rewrite length_take; lia).
    split_and!; try done; [split; simpl; lia|]. unfold queue. simpl.
    replace (pipe_len p + n - read_offset p) with (pipe_len p - read_offset p + n) by lia.
    rewrite slice_app by lia. f_equal.
    + apply slice_blit_other. left. lia.
    + replace (read_offset p + (pipe_len p - read_offset p)) with (pipe_len p) by lia.
      rewrite <- Hn at 2. apply slice_blit_same.
Qed.

(** ** Runs of reads and writes *)

Inductive PipeOp : Type := PipeRead (n : Z) | PipeWrite (data : bytes).

(** The pipe, the bytes delivered to readers and the bytes accepted from writers. *)
Definition pipe_step (st : AppPipe * bytes * bytes) (op : PipeOp) : AppPipe * bytes * bytes :=
  let '(p, got, sent) := st in
  match op with
  | PipeRead n =>
      match pipe_read n p with
      | Some (p', l) => (p', got ++ l, sent)
      | None => st
      end
  | PipeWrite data =>
      match pipe_write data p with
      | Some (p', n) => (p', got, sent ++ take (Z.to_nat n) data)
      | None => st
      end
  end.

Definition op_ok (op : PipeOp) : Prop := match op with PipeRead n => 0 <= n | PipeWrite _ => True end.

(** The pipe [abi_pipe] installs. *)
Definition fresh_pipe : AppPipe := mkPipe true true true zeroed 0 0.

Lemma fresh_pipe_wf : pipe_wf fresh_pipe.
Proof. split; simpl; [unfold APP_PIPE_BUFFER_SIZE; lia|done]. Qed.

(** ** The tables *)

(** The read end is [true]. *)
Definition end_kind (e : bool) : AppFdKind := if e then FdPipeRead else FdPipeWrite.
Definition end_open (e : bool) (p : AppPipe) : bool := if e then read_open p else write_open p.

(** Descriptor slot [i] is the open end [e] of pipe [q]. *)
Definition holds (t : Fds) (i : nat) (e : bool) (q : nat) : Prop :=
  (i < APP_FD_COUNT)%nat /\ fd_open (fd_at t i) = true /\ fd_kind (fd_at t i) = end_kind e /\
  pfs_index (fd_at t i) = q.

(** Every open pipe end has exactly one descriptor, every pipe in use has an
    open end, and pipes in use are well-formed queues. *)
Record fds_wf (t : Fds) : Prop := {
  fw_fds : length (APP_FDS t) = APP_FD_COUNT;
  fw_pipes : length (APP_PIPES t) = APP_PIPE_COUNT;
  fw_used : forall i e q, holds t i e q ->
    (q < APP_PIPE_COUNT)%nat /\ pipe_used (pipe_at t q) = true /\ end_open e (pipe_at t q) = true;
  fw_unique : forall i j e q, holds t i e q -> holds t j e q -> i = j;
  fw_held : forall q e, (q < APP_PIPE_COUNT)%nat -> pipe_used (pipe_at t q) = true ->
    end_open e (pipe_at t q) = true -> exists i, holds t i e q;
  fw_live : forall q, (q < APP_PIPE_COUNT)%nat -> pipe_used (pipe_at t q) = true ->
    pipe_wf (pipe_at t q) /\ exists e, end_open e (pipe_at t q) = true
}.

Lemma fd_at_set t i f j :
  length (APP_FDS t) = APP_FD_COUNT -> (i < APP_FD_COUNT)%nat ->
  fd_at (set_fd i f t) j = if decide (j = i) then f else fd_at t j.
Proof.
  intros Hl Hi. unfold fd_at, set_fd. simpl APP_FDS. case_decide as Hd; [subst j|].
  - by rewrite list_lookup_insert_eq by lia.
  - by rewrite list_lookup_insert_ne.
Qed.

Lemma pipe_at_set t i p j :
  length (APP_PIPES t) = APP_PIPE_COUNT -> (i < APP_PIPE_COUNT)%nat ->
  pipe_at (set_pipe i p t) j = if decide (j = i) then p else pipe_at t j.
Proof.
  intros Hl Hi. unfold pipe_at, set_pipe. simpl APP_PIPES. case_decide as Hd; [subst j|].
  - by rewrite list_lookup_insert_eq by lia.
  - by rewrite list_lookup_insert_ne.
Qed.

Lemma end_kind_inj e1 e2 : end_kind e1 = end_kind e2 -> e1 = e2.
Proof. by destruct e1, e2. Qed.

Lemma fds_empty_wf : fds_wf fds_empty.
Proof.
  assert (Hf : forall i, fd_open (fd_at fds_empty i) = false).
  { intros i. unfold fd_at. destruct (APP_FDS fds_empty !! i) eqn:E; [|done].
    by apply lookup_replicate in E as [-> _]. }
  assert (Hp : forall q, pipe_used (pipe_at fds_empty q) = false).
  { intros q. unfold pipe_at. destruct (APP_PIPES fds_empty !! q) eqn:E; [|done].
    by apply lookup_replicate in E as [-> _]. }
  split; try done.
  - intros i e q (_ & H & _). by rewrite Hf in H.
  - intros i j e q (_ & H & _). by rewrite Hf in H.
  - intros q e _ H. by rewrite Hp in H.
  - intros q _ H. by rewrite Hp in H.
Qed.

(** A descriptor that is not a pipe end may be replaced by another such. *)
Lemma set_plain_wf t i f :
  fds_wf t -> (i < APP_FD_COUNT)%nat ->
  (forall e, fd_open (fd_at t i) = true -> fd_kind (fd_at t i) <> end_kind e) ->
  (forall e, fd_kind f <> end_kind e) -> fds_wf (set_fd i f t).
Proof.
  intros [W1 W2 W3 W4 W5 W6] Hi Hold Hnew.
  assert (Hh : forall j e q, holds (set_fd i f t) j e q <-> holds t j e q).
  { intros j e q. unfold holds. rewrite fd_at_set by done. case_decide; [subst j|done].
    split; [intros (_ & _ & H & _); by apply Hnew in H|].
    intros (_ & Ho & H & _). by apply (Hold e Ho) in H. }
  split; [by simpl; rewrite length_insert|done| | | |done].
  - intros j e q H%Hh. by apply (W3 j).
  - intros j k e q H1%Hh H2%Hh. by apply (W4 j k e q).
  - intros q e Hq Hu He. destruct (W5 q e Hq Hu He) as [j Hj]. exists j. by apply Hh.
Qed.

(** A pipe in use may be replaced by one with the same open ends. *)
Lemma set_queue_wf t q p :
  fds_wf t -> (q < APP_PIPE_COUNT)%nat -> pipe_used (pipe_at t q) = true -> pipe_wf p ->
  pipe_used p = true -> read_open p = read_open (pipe_at t q) ->
  write_open p = write_open (pipe_at t q) -> fds_wf (set_pipe q p t).
Proof.
  intros [W1 W2 W3 W4 W5 W6] Hq Hu Hp Hpu Hr Hw.
  assert (He : forall e, end_open e p = end_open e (pipe_at t q)) by by intros [].
  assert (Hat : forall q', pipe_used (pipe_at (set_pipe q p t) q') = pipe_used (pipe_at t q') /\
    forall e, end_open e (pipe_at (set_pipe q p t) q') = end_open e (pipe_at t q')).
  { intros q'. rewrite pipe_at_set by done. case_decide; [subst q'|done]. split; [congruence|done]. }
  split; [done|by simpl; rewrite length_insert| |done| |].
  - intros j e q' H. destruct (Hat q') as [-> ->]. by apply (W3 j).
  - intros q' e Hq' H1 H2. destruct (Hat q') as [E1 E2]. rewrite E1 in H1. rewrite E2 in H2.
    by apply W5.
  - intros q' Hq' H1. destruct (Hat q') as [E1 E2]. rewrite E1 in H1.
    destruct (W6 q' Hq' H1) as [Hwf [e H2]]. split; [|exists e; by rewrite E2].
    rewrite pipe_at_set by done. by case_decide.
Qed.

(** The tables with pipe [q] open behind the free descriptors [i] and [j]. *)
Definition piped (t : Fds) (q i j : nat) : Fds :=
  set_fd j (mkFd true FdPipeWrite FD_WRITE [] 0 0 q)
    (set_fd i (mkFd true FdPipeRead FD_READ [] 0 0 q) (set_pipe q fresh_pipe t)).

Section Piped.

Context (t : Fds) (q i j : nat) (Hwf : fds_wf t).
Context (Hq : (q < APP_PIPE_COUNT)%nat) (Hu : pipe_used (pipe_at t q) = false).
Context (Hi : (i < APP_FD_COUNT)%nat) (Hj : (j < APP_FD_COUNT)%nat) (Hij : (i < j)%nat).
Context (Hfi : fd_open (fd_at t i) = false) (Hfj : fd_open (fd_at t j) = false).

Lemma piped_fd k :
  fd_at (piped t q i j) k =
    if decide (k = j) then mkFd true FdPipeWrite FD_WRITE [] 0 0 q
    else if decide (k = i) then mkFd true FdPipeRead FD_READ [] 0 0 q else fd_at t k.
Proof using Hwf Hi Hj.
  pose proof (fw_fds _ Hwf) as L. unfold piped. rewrite fd_at_set; [|simpl; by rewrite length_insert|done].
  case_decide; [done|]. by rewrite fd_at_set.
Qed.

Lemma piped_pipe k : pipe_at (piped t q i j) k = if decide (k = q) then fresh_pipe else pipe_at t k.
Proof using Hwf Hq. apply (pipe_at_set t q fresh_pipe k (fw_pipes _ Hwf) Hq). Qed.

Lemma piped_holds k e p :
  holds (piped t q i j) k e p <->
  (k = i /\ e = true /\ p = q) \/ (k = j /\ e = false /\ p = q) \/ holds t k e p.
Proof using Hwf Hq Hu Hi Hj Hij Hfi Hfj.
  unfold holds. rewrite piped_fd. destruct (decide (k = j)) as [->|Nj]; simpl.
  - rewrite Hfj. destruct e; naive_solver lia.
  - destruct (decide (k = i)) as [->|Ni]; simpl; [rewrite Hfi; destruct e; naive_solver lia|naive_solver].
Qed.

(** Nobody held the free pipe. *)
Lemma unused_held k e : ~ holds t k e q.
Proof using Hwf Hu. intros Hk. destruct (fw_used _ Hwf k e q Hk) as (_ & H & _). by rewrite Hu in H. Qed.

Lemma piped_wf : fds_wf (piped t q i j).
Proof using Hwf Hq Hu Hi Hj Hij Hfi Hfj.
  pose proof Hwf as [W1 W2 W3 W4 W5 W6]. split.
  - simpl. by rewrite !length_insert.
  - simpl. by rewrite length_insert.
  - intros k e p [(-> & -> & ->)|[(-> & -> & ->)|H]]%piped_holds; rewrite piped_pipe.
    + by rewrite decide_True.
    + by rewrite decide_True.
    + destruct (W3 k e p H) as (H1 & H2 & H3). rewrite decide_False; [done|]. intros ->. by apply (unused_held k e).
  - intros k l e p H1%piped_holds H2%piped_holds. pose proof (unused_held k e). pose proof (unused_held l e).
    destruct H1 as [(-> & -> & ->)|[(-> & -> & ->)|H1]], H2 as [(-> & ? & E)|[(-> & ? & E)|H2]];
      try done; try (by subst p).
    by apply (W4 k l e p).
  - intros p e Hp H1 H2. rewrite piped_pipe in H1, H2. case_decide as Hd.
    + subst p. destruct e; [exists i|exists j]; apply piped_holds; auto.
    + destruct (W5 p e Hp H1 H2) as [k Hk]. exists k. apply piped_holds. auto.
  - intros p Hp H1. rewrite piped_pipe in *. case_decide as Hd; [|by apply W6].
    split; [apply fresh_pipe_wf|by exists true].
Qed.

End Piped.

(** What [pipe_open] answers. *)
Lemma pipe_open_cases t :
  pipe_open t = (t, inl ERR_NOSPC) \/
  exists q i j, pipe_open t = (piped t q i j, inr (Z.of_nat i + APP_FD_BASE, Z.of_nat j + APP_FD_BASE)) /\
    (q < APP_PIPE_COUNT)%nat /\ pipe_used (pipe_at t q) = false /\
    (i < APP_FD_COUNT)%nat /\ (j < APP_FD_COUNT)%nat /\ (i < j)%nat /\
    fd_open (fd_at t i) = false /\ fd_open (fd_at t j) = false.
Proof.
  unfold pipe_open. destruct (find_first (fun i => negb (pipe_used (pipe_at t i))) APP_PIPE_COUNT) as [q|] eqn:Eq; [|by left].
  unfold two_free_fds, free_fd. destruct (find_first (fun i => negb (fd_open (fd_at t i))) APP_FD_COUNT) as [i|] eqn:Ei; [|by left].
  destruct (find_first (fun k => Nat.ltb i k && negb (fd_open (fd_at t k))) APP_FD_COUNT) as [j|] eqn:Ej; [|by left].
  right. exists q, i, j. split; [done|].
  apply find_first_some in Eq as (Hq & Hu%negb_true_iff & _), Ei as (Hi & Hfi%negb_true_iff & _), Ej as (Hj & Hb & _).
  apply andb_true_iff in Hb as [Hij%Nat.ltb_lt Hfj%negb_true_iff]. by split_and!.
Qed.

Lemma pipe_open_wf t t' r :
  fds_wf t -> pipe_open t = (t', r) ->
  fds_wf t' /\
  match r with
  | inl err => err = ERR_NOSPC /\ t' = t
  | inr (rfd, wfd) => exists i j q, rfd = Z.of_nat i + APP_FD_BASE /\ wfd = Z.of_nat j + APP_FD_BASE /\
      i <> j /\ holds t' i true q /\ holds t' j false q /\ queue (pipe_at t' q) = [] /\
      pipe_used (pipe_at t q) = false /\
      forall k e p, holds t k e p -> holds t' k e p
  end.
Proof.
  intros Hwf. destruct (pipe_open_cases t) as [->|(q & i & j & -> & Hq & Hu & Hi & Hj & Hij & Hfi & Hfj)]; intros [= <- <-]; [done|].
  split; [by apply piped_wf|]. exists i, j, q.
  split_and!; [done|done|lia|apply piped_holds; auto|apply piped_holds; auto| |done|intros; apply piped_holds; auto].
  by rewrite piped_pipe, decide_True.
Qed.

Lemma fd_index_lt fd i : app_fd_index fd = Some i -> (i < APP_FD_COUNT)%nat.
Proof.
  unfold app_fd_index. case_goal; [done|]. destruct (Nat.ltb_spec (Z.to_nat (fd - APP_FD_BASE)) APP_FD_COUNT);
    [by intros [= <-]|done].
Qed.

(** Closing the descriptor of end [e] of pipe [q]. *)
Lemma close_end_wf t i e q :
  fds_wf t -> holds t i e q ->
  let p := pipe_at t q in
  let p' := if e then (if write_open p then {| p with read_open := false |} else AppPipe_empty)
            else (if read_open p then {| p with write_open := false |} else AppPipe_empty) in
  fds_wf (set_fd i AppFd_empty (set_pipe q p' t)) /\
  pipe_used p' = end_open (negb e) p.
Proof.
  intros [W1 W2 W3 W4 W5 W6] Hh p p'. pose proof Hh as (Hi & Hio & Hik & Hiq).
  destruct (W3 i e q Hh) as (Hq & Hu & He).
  destruct (W6 q Hq Hu) as [Hwf _].
  set (t' := set_fd i AppFd_empty (set_pipe q p' t)).
  assert (Hfd : forall k, fd_at t' k = if decide (k = i) then AppFd_empty else fd_at t k).
  { intros k. unfold t'. by rewrite fd_at_set. }
  assert (Hpp : forall k, pipe_at t' k = if decide (k = q) then p' else pipe_at t k).
  { intros k. apply (pipe_at_set t q p' k W2 Hq). }
  assert (Hh' : forall k e' q', holds t' k e' q' <-> k <> i /\ holds t k e' q').
  { intros k e' q'. unfold holds. rewrite Hfd. destruct (decide (k = i)) as [->|]; [|naive_solver].
    split; [by intros (_ & H & _)|naive_solver]. }
  assert (Hp' : pipe_used p' = end_open (negb e) p /\
    (pipe_used p' = true -> pipe_wf p' /\ end_open e p' = false /\ end_open (negb e) p' = true)).
  { unfold p'. destruct e; simpl.
    - destruct (write_open p) eqn:E; simpl; [|done]. split; [done|]. intros _. split; [|done]. by destruct Hwf.
    - destruct (read_open p) eqn:E; simpl; [|done]. split; [done|]. intros _. split; [|done]. by destruct Hwf. }
  destruct Hp' as [HP1 HP2]. split; [|done].
  split; [by simpl; rewrite length_insert|by simpl; rewrite length_insert| | | |].
  - intros k e' q' [Hne H]%Hh'. destruct (W3 k e' q' H) as (H1 & H2 & H3). rewrite Hpp.
    case_decide as Hd; [subst q'|done]. split; [done|].
    assert (e' = negb e) as ->.
    { destruct (decide (e' = e)) as [->|]; [by destruct Hne; apply (W4 k i e q)|by destruct e', e]. }
    fold p in H3. rewrite HP1, H3. split; [done|]. by apply HP2; rewrite HP1.
  - intros k l e' q' [_ H1]%Hh' [_ H2]%Hh'. by apply (W4 k l e' q').
  - intros q' e' Hq' H1 H2. rewrite Hpp in H1, H2. case_decide as Hd.
    + subst q'. destruct (HP2 H1) as (_ & Hx & Hy).
      assert (e' = negb e) as -> by (destruct e', e; simpl in *; congruence).
      destruct (W5 q (negb e) Hq Hu) as [k Hk]; [by rewrite HP1 in H1|].
      exists k. apply Hh'. split; [|done]. intros ->. destruct Hk as (_ & _ & Hk & _).
      rewrite Hik in Hk. apply end_kind_inj in Hk. by destruct e.
    + destruct (W5 q' e' Hq' H1 H2) as [k Hk]. exists k. apply Hh'. split; [|done]. intros ->.
      destruct Hk as (_ & _ & _ & Hk). congruence.
  - intros q' Hq' H1. rewrite Hpp in *. case_decide as Hd; [|by apply W6].
    destruct (HP2 H1) as (Hw & _ & Hy). split; [done|by exists (negb e)].
Qed.

Lemma fd_close_wf t t' fd code :
  fds_wf t -> fd_close fd t = (t', code) ->
  fds_wf t' /\
  (code = -1 -> t' = t) /\
  (code <> -1 -> exists i, app_fd_index fd = Some i /\ fd_open (fd_at t i) = true /\
     fd_open (fd_at t' i) = false /\
     forall e q, holds t i e q -> pipe_used (pipe_at t' q) = end_open (negb e) (pipe_at t q)).
Proof.
  intros Hwf. unfold fd_close. destruct (app_fd_index fd) as [i|] eqn:Ei; [|by intros [= <- <-]].
  pose proof (fd_index_lt _ _ Ei) as Hi.
  destruct (fd_open (fd_at t i)) eqn:Eo; simpl; [|by intros [= <- <-]]. intros [= <- <-].
  assert (Hpipe : forall e, fd_kind (fd_at t i) = end_kind e ->
    let t' := set_fd i AppFd_empty (close_pipe_end (fd_at t i) t) in
    fds_wf t' /\ fd_open (fd_at t' i) = false /\
    forall e q, holds t i e q -> pipe_used (pipe_at t' q) = end_open (negb e) (pipe_at t q)).
  { intros e Hk. assert (Hh : holds t i e (pfs_index (fd_at t i))) by done.
    pose proof (close_end_wf t i e _ Hwf Hh) as [C1 C2]. pose proof (fw_used _ Hwf _ _ _ Hh) as (Hq & _).
    unfold close_pipe_end. rewrite Hk.
    destruct e; simpl in *; (split_and!; [done|by rewrite fd_at_set, decide_True by (done || apply Hwf)|];
      intros e' q (_ & _ & Hk' & <-); rewrite Hk in Hk'; destruct e'; try done;
      (etrans; [|exact C2]); f_equal; apply (eq_trans (pipe_at_set t _ _ _ (fw_pipes _ Hwf) Hq));
      by rewrite decide_True). }
  assert (Hplain : (forall e, fd_kind (fd_at t i) <> end_kind e) ->
    close_pipe_end (fd_at t i) t = t).
  { intros Hn. unfold close_pipe_end. pose proof (Hn true). pose proof (Hn false).
    by destruct (fd_kind (fd_at t i)). }
  assert (Hk : (exists e, fd_kind (fd_at t i) = end_kind e) \/
    (forall e, fd_kind (fd_at t i) <> end_kind e)).
  { destruct (fd_kind (fd_at t i)); [right|right|right|left; by exists true|left; by exists false];
      intros [] E; discriminate E. }
  destruct Hk as [[e He]|Hn].
  - destruct (Hpipe e He) as (H1 & H2 & H3). split; [done|]. split; [done|]. intros _. by exists i.
  - rewrite (Hplain Hn). split; [apply set_plain_wf; auto; by intros []|].
    split; [done|]. intros _. exists i.
    split_and!; [done|done|by rewrite fd_at_set, decide_True by (done || apply Hwf)|].
    intros e q (_ & _ & Hk & _). by apply Hn in Hk.
Qed.

(** Moving a descriptor's offset. *)
Lemma set_offset_wf t i offset :
  fds_wf t -> (i < APP_FD_COUNT)%nat ->
  fds_wf (set_fd i (let h := fd_at t i in {| h with fd_offset := offset |}) t).
Proof.
  intros [W1 W2 W3 W4 W5 W6] Hi.
  assert (Hh : forall j e q, holds (set_fd i (let h := fd_at t i in {| h with fd_offset := offset |}) t) j e q
    <-> holds t j e q).
  { intros j e q. unfold holds. rewrite fd_at_set by done. by case_decide; [subst j|]. }
  split; [by simpl; rewrite length_insert|done| | | |done].
  - intros j e q H%Hh. by apply (W3 j).
  - intros j k e q H1%Hh H2%Hh. by apply (W4 j k e q).
  - intros q e Hq Hu He. destruct (W5 q e Hq Hu He) as [j Hj]. exists j. by apply Hh.
Qed.

Lemma fd_seek_wf t t' fd offset code :
  fds_wf t -> fd_seek fd offset t = (t', code) -> fds_wf t'.
Proof.
  intros Hwf. unfold fd_seek. case_goal; [by intros [= <- _]|].
  destruct (app_fd_index fd) as [i|] eqn:Ei; [|by intros [= <- _]].
  case_goal; [by intros [= <- _]|]. case_goal; [by intros [= <- _]|].
  intros [= <- _]. apply set_offset_wf; [done|by eapply fd_index_lt].
Qed.

(** ** Properties *)

(** C31: A pipe is a bounded first-in first-out queue: a read takes the oldest
    unread bytes, at most as many as the buffer holds, and fails only on a pipe
    that is closed for reading; a write appends the longest prefix that fits
    behind the unread bytes, and fails only on a pipe with a closed end or with
    no room left for a non-empty write. *)
Theorem pipe_is_bounded_queue p buffer_len data :
  pipe_wf p -> 0 <= buffer_len ->
  match pipe_read buffer_len p with
  | Some (p', got) =>
      pipe_wf p' /\ got = take (Z.to_nat buffer_len) (queue p) /\
      queue p' = drop (Z.to_nat buffer_len) (queue p) /\
      pipe_used p' = pipe_used p /\ read_open p' = read_open p /\ write_open p' = write_open p
  | None => pipe_used p = false \/ read_open p = false
  end /\
  match pipe_write data p with
  | Some (p', n) =>
      pipe_wf p' /\ n = Z.min (blen data) (pipe_room p) /\
      queue p' = queue p ++ take (Z.to_nat n) data /\
      pipe_used p' = pipe_used p /\ read_open p' = read_open p /\ write_open p' = write_open p
  | None => pipe_used p = false \/ write_open p = false \/ read_open p = false \/
      (pipe_room p = 0 /\ data <> [])
  end.
Proof. intros. split; [by apply read_spec|by apply write_spec]. Qed.

(** C32: Through any sequence of reads and writes on a fresh pipe, the bytes
    delivered so far followed by the bytes still queued are the bytes accepted
    so far: nothing is lost, duplicated or reordered. *)
Theorem pipe_delivers_in_order ops :
  Forall op_ok ops ->
  let '(p, got, sent) := fold_left pipe_step ops (fresh_pipe, [], []) in
  pipe_wf p /\ got ++ queue p = sent.
Proof.
  intros Hops.
  assert (H : forall p got sent, pipe_wf p -> got ++ queue p = sent ->
    let '(p', got', sent') := fold_left pipe_step ops (p, got, sent) in
    pipe_wf p' /\ got' ++ queue p' = sent').
  { induction Hops as [|op ops Hop Hops IH]; intros p got sent Hw Hq; [done|]. simpl.
    destruct op as [n|data].
    - pose proof (read_spec n p Hw Hop) as R. destruct (pipe_read n p) as [[p' l]|]; [|by apply IH].
      destruct R as (R1 & -> & R3 & _). apply IH; [done|]. by rewrite <- app_assoc, R3, take_drop.
    - pose proof (write_spec data p Hw) as R. destruct (pipe_write data p) as [[p' n]|]; [|by apply IH].
      destruct R as (R1 & _ & R3 & _). apply IH; [done|]. by rewrite R3, app_assoc, Hq. }
  apply H; [apply fresh_pipe_wf|done].
Qed.

(** C33: The descriptor tables stay consistent: every open pipe end is held by
    exactly one descriptor and every pipe in use has an open end, through opening
    a pipe, closing and seeking. Opening a pipe yields two new descriptors on an
    unused, empty pipe, disturbs no other, and fails only with [ERR_NOSPC];
    closing one end frees the pipe exactly when the other end is closed. *)
Theorem fds_stay_consistent t :
  fds_wf t ->
  (forall t' r, pipe_open t = (t', r) -> fds_wf t' /\
     match r with
     | inl err => err = ERR_NOSPC /\ t' = t
     | inr (rfd, wfd) => exists i j q, rfd = Z.of_nat i + APP_FD_BASE /\ wfd = Z.of_nat j + APP_FD_BASE /\
         i <> j /\ holds t' i true q /\ holds t' j false q /\ queue (pipe_at t' q) = [] /\
         pipe_used (pipe_at t q) = false /\
         forall k e p, holds t k e p -> holds t' k e p
     end) /\
  (forall t' fd code, fd_close fd t = (t', code) -> fds_wf t' /\
     (code = -1 -> t' = t) /\
     (code <> -1 -> exists i, app_fd_index fd = Some i /\ fd_open (fd_at t i) = true /\
        fd_open (fd_at t' i) = false /\
        forall e q, holds t i e q -> pipe_used (pipe_at t' q) = end_open (negb e) (pipe_at t q))) /\
  (forall t' fd offset code, fd_seek fd offset t = (t', code) -> fds_wf t').
Proof.
  intros Hwf. split_and!.
  - intros t' r H. by apply (pipe_open_wf t).
  - intros t' fd code H. by apply (fd_close_wf t).
  - intros t' fd offset code H. by apply (fd_seek_wf t t' fd offset code).
Qed.

Lemma fds_stay_consistent_witness : fds_wf (fst (pipe_open fds_empty)).
Proof.
  pose proof (proj1 (fds_stay_consistent fds_empty fds_empty_wf)) as H.
  destruct (pipe_open fds_empty) as [t' r]. exact (proj1 (H t' r eq_refl)).
Defined.

Lemma pipe_is_bounded_queue_witness :
  match pipe_write [1; 2; 3] fresh_pipe with
  | Some (p', n) => n = 3 /\ queue p' = [1; 2; 3]
  | None => False
  end.
Proof.
  pose proof (pipe_is_bounded_queue fresh_pipe 0 [1; 2; 3] fresh_pipe_wf (Z.le_refl 0)) as [_ H].
  destruct (pipe_write [1; 2; 3] fresh_pipe) as [[p' n]|].
  - destruct H as (_ & -> & -> & _). split; reflexivity.
  - destruct H as [H|[H|[H|[H _]]]]; discriminate.
Defined.

Lemma pipe_delivers_in_order_witness :
  let '(p, got, sent) :=
    fold_left pipe_step [PipeWrite [1; 2; 3]; PipeRead 2; PipeWrite [4]; PipeRead 5] (fresh_pipe, [], []) in
  got ++ queue p = sent /\ sent = [1; 2; 3; 4].
Proof.
  pose proof (pipe_delivers_in_order [PipeWrite [1; 2; 3]; PipeRead 2; PipeWrite [4]; PipeRead 5]
    ltac:(repeat constructor; discriminate)) as H.
  destruct (fold_left pipe_step _ _) as [[p got] sent] eqn:E. split; [exact (proj2 H)|].
  change sent with (snd (p, got, sent)). rewrite <- E. vm_compute. reflexivity.
Defined.
