(* ===== verification/Abi.v ===== *)
(** * The program interface: files, directories, environment, memory

    The [abi_*] handlers of [src/kernel/src/main.rs] that a program calls through
    [RYMOS_ABI], over the state they share: the kernel tables, the descriptor
    tables, the boot image, the console, the pending console input and the disk.

    A user pointer with its length is an [option bytes]: [None] is the null
    pointer. A handler that fills a buffer returns the bytes it stores. *)

From S2P Require Import Prelude Constants Text PfsPath PfsLayout PfsDir PfsAlloc Device Pfs Console.
From S2P Require Import BootFs Phys Paging Process Env Fd.

Record Sys (D : Type) : Type := mkSys {
  sys_kern : Kernel;
  sys_fds : Fds;
  APP_BOOTFS : BootFs;
  APP_CONSOLE : option Console;
  sys_input : bytes;
  sys_disk : D
}.

Arguments mkSys {D}.
Arguments sys_kern {D}.
Arguments sys_fds {D}.
Arguments APP_BOOTFS {D}.
Arguments APP_CONSOLE {D}.
Arguments sys_input {D}.
Arguments sys_disk {D}.

Record RymosStat : Type := mkStat {
  sk_kind : Z; sk_fs : Z; sk_size : Z; sk_created : Z; sk_modified : Z; sk_mode : Z
}.

(** [ptr.is_null() || len == 0 || len > INPUT_MAX] *)
Definition checked_app_slice (p : option bytes) : option bytes :=
  match p with
  | None => None
  | Some l => if (blen l =? 0) || (INPUT_MAX <? blen l) then None else Some l
  end.

Section Abi.

Context {D : Type} `{SectorDev D} (clk : Clock).

Definition cur_proc (s : Sys D) : Process :=
  proc (sys_kern s) (CURRENT_PROCESS_INDEX (sys_kern s)).

Definition update_cur (f : Process -> Process) (s : Sys D) : Sys D :=
  {| s with sys_kern := update_proc (CURRENT_PROCESS_INDEX (sys_kern s)) f (sys_kern s) |}.

Definition set_app_error (error : Z) : ST (Sys D) Z := fun s =>
  (update_cur (fun p => {| p with last_error := error |}) s, -1).

Definition clear_app_error : ST (Sys D) unit := fun s =>
  (update_cur (fun p => {| p with last_error := ERR_OK |}) s, tt).

Definition ok_code (code : Z) : ST (Sys D) Z := do! clear_app_error in st_ret code.

Definition on_disk {A} (m : ST D A) : ST (Sys D) A := fun s =>
  let '(d, a) := m (sys_disk s) in ({| s with sys_disk := d |}, a).

Definition on_kern {A} (m : ST Kernel A) : ST (Sys D) A := fun s =>
  let '(k, a) := m (sys_kern s) in ({| s with sys_kern := k |}, a).

Definition get {A} (f : Sys D -> A) : ST (Sys D) A := fun s => (s, f s).

Definition put_fd (i : nat) (f : AppFd) : ST (Sys D) unit := fun s =>
  ({| s with sys_fds := set_fd i f (sys_fds s) |}, tt).

(** ** Console and arguments *)

Definition abi_write (p : option bytes) : ST (Sys D) unit := fun s =>
  match p, APP_CONSOLE s with
  | Some data, Some c =>
      if blen data =? 0 then (s, tt)
      else ({| s with APP_CONSOLE := Some (write_bytes data c) |}, tt)
  | _, _ => (s, tt)
  end.

Definition abi_pid (s : Sys D) : Z := current_pid (sys_kern s).

(** [len = None] is the null pointer. *)
Definition abi_args (len : option Z) (s : Sys D) : Z * bytes :=
  let args := p_args (cur_proc s) in
  match len with
  | None => (blen args, [])
  | Some n =>
      if n =? 0 then (blen args, [])
      else let copy_len := Z.min n (blen args) in (copy_len, take (Z.to_nat copy_len) args)
  end.

Definition abi_argv_count (s : Sys D) : Z :=
  let process_index := CURRENT_PROCESS_INDEX (sys_kern s) in
  if Nat.leb PROCESS_COUNT process_index then 0 else 1 + Z.of_nat (length (p_argv (cur_proc s))).

(** The bytes an output buffer of [len] receives from [value]. *)
Definition copied (len : option Z) (value : bytes) : bytes :=
  match len with
  | None => []
  | Some n => take (Z.to_nat n) value
  end.

Definition argv_value (index : Z) (s : Sys D) : option bytes :=
  if Nat.leb PROCESS_COUNT (CURRENT_PROCESS_INDEX (sys_kern s)) then None
  else if index =? 0 then Some (p_name (cur_proc s))
  else p_argv (cur_proc s) !! Z.to_nat (index - 1).

Definition abi_argv_get (index : Z) (len : option Z) : ST (Sys D) (Z * bytes) :=
  let* v := get (argv_value index) in
  match v with
  | None => let* e := set_app_error ERR_NOENT in st_ret (e, [])
  | Some value => do! clear_app_error in st_ret (blen value, copied len value)
  end.

(** [byte.is_ascii_graphic() || byte == b' '] *)
Definition is_line_byte (byte : Z) : bool := (32 <=? byte) && (byte <? 127).

(** The loop of [abi_read_line] over the bytes that arrive; [None]: the input
    ends before a line does, and the call is still waiting. *)
Fixpoint read_line_from (input : bytes) (len : Z) (line : bytes) (c : Console)
  : option (bytes * bytes * Console) :=
  match input with
  | [] => None
  | byte :: rest =>
      if (byte =? 13) || (byte =? 10) then Some (line, rest, new_line c)
      else if (byte =? 8) || (byte =? 127) then
        if 0 <? blen line then read_line_from rest len (removelast line) (backspace c)
        else read_line_from rest len line c
      else if is_line_byte byte then
        if blen line + 1 <? len then read_line_from rest len (line ++ [byte]) (write_byte byte c)
        else read_line_from rest len line c
      else read_line_from rest len line c
  end.

Definition abi_read_line (len : option Z) : ST (Sys D) (option (Z * bytes)) := fun s =>
  match len, APP_CONSOLE s with
  | Some n, Some c =>
      if n =? 0 then (s, Some (0, []))
      else
        match read_line_from (sys_input s) n [] c with
        | None => (s, None)
        | Some (line, rest, c) =>
            ({| s with APP_CONSOLE := Some c; sys_input := rest |}, Some (blen line, line))
        end
  | _, _ => (s, Some (0, []))
  end.

(** ** Whole-file access to the boot image *)

Definition abi_file_size (path : option bytes) (s : Sys D) : Z :=
  match checked_app_slice path with
  | None => -1
  | Some path =>
      match find_data (APP_BOOTFS s) path with
      | None => -1
      | Some data => blen data
      end
  end.

Definition abi_file_read (path : option bytes) (len : option Z) (s : Sys D) : Z * bytes :=
  match len, checked_app_slice path with
  | Some n, Some path =>
      match find_data (APP_BOOTFS s) path with
      | None => (-1, [])
      | Some data => let copy_len := Z.min n (blen data) in (copy_len, take (Z.to_nat copy_len) data)
      end
  | _, _ => (-1, [])
  end.

(** ** Opening *)

(** The first closed slot becomes [f]. *)
Definition claim_fd (f : AppFd) : ST (Sys D) Z := fun s =>
  match free_fd (sys_fds s) with
  | None => set_app_error ERR_NOSPC s
  | Some index =>
      let '(s, _) := put_fd index f s in
      let '(s, _) := clear_app_error s in
      (s, Z.of_nat index + APP_FD_BASE)
  end.

Definition truncated (header : arr) (index : nat) (name : bytes) (now : Z) : arr :=
  pfs_set_entry header index name 0 PFS_KIND_FILE [] (pfs_entry_created header index)
    (pfs_entry_mode header index) now.

(** The last part of [abi_open_pfs]: truncation and the new descriptor. *)
Definition open_entry (header : arr) (index : nat) (name : bytes) (flags : Z) : ST (Sys D) Z :=
  let finish := fun header =>
    let len := pfs_entry_size header index in
    claim_fd (mkFd true FdPfs flags [] len (if flag_set flags FD_APPEND then len else 0) index) in
  if flag_set flags FD_TRUNCATE then
    let* now := on_disk (ns_since_boot clk) in
    let header := truncated header index name now in
    let* ok := on_disk (write_header header) in
    if negb ok then set_app_error ERR_IO else finish header
  else finish header.

Definition abi_open_pfs (name : bytes) (flags : Z) : ST (Sys D) Z :=
  if negb (valid_pfs_path name) then set_app_error ERR_INVAL
  else if flag_set flags FD_CREATE_NEW && negb (flag_set flags FD_CREATE) then set_app_error ERR_INVAL
  else if flag_set flags FD_TRUNCATE && negb (flag_set flags FD_WRITE) then set_app_error ERR_INVAL
  else if flag_set flags FD_APPEND && negb (flag_set flags FD_WRITE) then set_app_error ERR_INVAL
  else
    let* r := on_disk read_header_silent in
    match r with
    | None => set_app_error ERR_IO
    | Some header =>
        if negb (pfs_parent_exists header name) then set_app_error ERR_NOENT
        else
          match pfs_find_entry header name with
          | Some index =>
              if pfs_entry_is_dir header index then set_app_error ERR_ISDIR
              else if flag_set flags FD_CREATE_NEW then set_app_error ERR_EXIST
              else open_entry header index name flags
          | None =>
              if flag_set flags FD_CREATE then
                match pfs_free_entry header with
                | None => set_app_error ERR_NOSPC
                | Some index =>
                    let* created := on_disk (ns_since_boot clk) in
                    let* now := on_disk (ns_since_boot clk) in
                    let header :=
                      pfs_set_entry header index name 0 PFS_KIND_FILE [] created PFS_MODE_DEFAULT_FILE now in
                    let* ok := on_disk (write_header header) in
                    if negb ok then set_app_error ERR_IO else open_entry header index name flags
                end
              else set_app_error ERR_NOENT
          end
    end.

Definition abi_open (path : option bytes) (flags : Z) : ST (Sys D) Z :=
  match checked_app_slice path with
  | None => set_app_error ERR_INVAL
  | Some path =>
      let* cwd_ := get (fun s => cwd (cur_proc s)) in
      match pfs_resolve_path cwd_ path with
      | Some name => abi_open_pfs name flags
      | None =>
          if starts_with path (bs "pfs:") then set_app_error ERR_INVAL
          else if flag_set flags FD_WRITE then set_app_error ERR_INVAL
          else
            let* found := get (fun s => find_data (APP_BOOTFS s) path) in
            match found with
            | None => set_app_error ERR_NOENT
            | Some data => claim_fd (mkFd true FdBootFs FD_READ data (blen data) 0 0)
            end
      end
  end.

End Abi.
