(* ===== verification/AbiFs.v ===== *)
(** * The program interface: descriptors, paths and directories

    The handlers of [src/kernel/src/main.rs] that work on open descriptors
    ([abi_read] to [abi_close], [abi_pipe], [abi_dup2], [abi_std_fd]) and on the
    name space ([abi_stat] to [abi_chdir]). *)

From S2P Require Import Prelude Constants Text PfsPath PfsLayout PfsDir PfsAlloc Device Pfs Console.
From S2P Require Import BootFs Phys Paging Process Env Fd Abi.

Section AbiFs.

Context {D : Type} `{SectorDev D} (clk : Clock).

Definition with_fds {A} (f : Fds -> Fds * A) : ST (Sys D) A := fun s =>
  let '(t, a) := f (sys_fds s) in ({| s with sys_fds := t |}, a).

(** ** Descriptors *)

(** The file branches of [abi_read]; [index] is the slot of the open handle. *)
Definition read_file_fd (index : nat) (handle : AppFd) (buffer_len : Z) : ST (Sys D) (Z * bytes) :=
  let remaining := saturating_sub (fd_len handle) (fd_offset handle) in
  let copy_len := Z.min buffer_len remaining in
  if copy_len =? 0 then st_ret (0, [])
  else
    let* r :=
      (match fd_kind handle with
       | FdBootFs => st_ret (true, take (Z.to_nat copy_len) (drop (Z.to_nat (fd_offset handle)) (fd_data handle)))
       | FdPfs => on_disk (pfs_read_at (pfs_index handle) (fd_offset handle) copy_len)
       | FdPipeRead | FdPipeWrite | FdEmpty => st_ret (false, [])
       end) in
    if negb (fst r) then st_ret (-1, snd r)
    else
      do! put_fd index {| handle with fd_offset := fd_offset handle + copy_len |} in
      st_ret (copy_len, snd r).

(** [None]: the call still waits for a console line. *)
Definition abi_read (fd : Z) (buffer : option Z) : ST (Sys D) (option (Z * bytes)) := fun s =>
  let fd := app_resolve_fd (std_fds (cur_proc s)) fd in
  match buffer with
  | None => (s, Some (-1, []))
  | Some buffer_len =>
      if fd <? 0 then (s, Some (-1, []))
      else if fd =? STDIN_FD then abi_read_line (Some buffer_len) s
      else
        match app_fd_index fd with
        | None => (s, Some (-1, []))
        | Some index =>
            let handle := fd_at (sys_fds s) index in
            if negb (fd_open handle) then (s, Some (-1, []))
            else if negb (flag_set (fd_flags handle) FD_READ) then (s, Some (-1, []))
            else if bool_decide (fd_kind handle = FdPipeRead) then
              match pipe_read buffer_len (pipe_at (sys_fds s) (pfs_index handle)) with
              | None => (s, Some (-1, []))
              | Some (p, got) =>
                  ({| s with sys_fds := set_pipe (pfs_index handle) p (sys_fds s) |},
                   Some (blen got, got))
              end
            else let '(s, r) := read_file_fd index handle buffer_len s in (s, Some r)
        end
  end.

(** The file branch of [abi_write_fd]: the handle moves to the end first when it
    appends, and stays there when the write fails. *)
Definition write_file_fd (index : nat) (handle : AppFd) (data : bytes) : ST (Sys D) Z :=
  let handle :=
    if flag_set (fd_flags handle) FD_APPEND
    then {| handle with fd_offset := fd_len handle |} else handle in
  do! put_fd index handle in
  if PFS_FILE_MAX <? u64 (fd_offset handle + blen data) then st_ret (-1)
  else
    let* ok := on_disk (pfs_write_at clk (pfs_index handle) (fd_offset handle) data) in
    if negb ok then st_ret (-1)
    else
      let handle := {| handle with fd_offset := fd_offset handle + blen data |} in
      if fd_len handle <? fd_offset handle then
        let handle := {| handle with fd_len := fd_offset handle |} in
        do! put_fd index handle in
        let* ok := on_disk (pfs_update_size clk (pfs_index handle) (fd_len handle)) in
        st_ret (if negb ok then -1 else blen data)
      else
        do! put_fd index handle in
        st_ret (blen data).

Definition abi_write_fd (fd : Z) (buffer : option bytes) : ST (Sys D) Z := fun s =>
  let fd := app_resolve_fd (std_fds (cur_proc s)) fd in
  match buffer with
  | None => (s, -1)
  | Some data =>
      if fd <? 0 then (s, -1)
      else if (fd =? STDOUT_FD) || (fd =? STDERR_FD) then
        let '(s, _) := abi_write (Some data) s in (s, blen data)
      else
        match app_fd_index fd with
        | None => (s, -1)
        | Some index =>
            let handle := fd_at (sys_fds s) index in
            if negb (fd_open handle) || negb (flag_set (fd_flags handle) FD_WRITE) then (s, -1)
            else if bool_decide (fd_kind handle = FdPipeWrite) then
              match pipe_write data (pipe_at (sys_fds s) (pfs_index handle)) with
              | None => (s, -1)
              | Some (p, n) =>
                  ({| s with sys_fds := set_pipe (pfs_index handle) p (sys_fds s) |}, n)
              end
            else if negb (bool_decide (fd_kind handle = FdPfs)) then (s, -1)
            else write_file_fd index handle data s
        end
  end.

Definition abi_seek (fd offset : Z) : ST (Sys D) Z := with_fds (fd_seek fd offset).

Definition set_std_fd (which fd : Z) : ST (Sys D) unit := fun s =>
  (update_cur (fun p => {| p with std_fds := <[Z.to_nat which := fd]> (std_fds p) |}) s, tt).

Definition abi_close (fd : Z) : ST (Sys D) Z :=
  if fd <? 0 then st_ret (-1)
  else if (fd =? STDIN_FD) || (fd =? STDOUT_FD) || (fd =? STDERR_FD) then
    do! set_std_fd fd fd in st_ret 0
  else with_fds (fd_close fd).

(** The descriptor numbers are stored only when the call succeeds. *)
Definition abi_pipe (ptrs_ok : bool) : ST (Sys D) (Z * option (Z * Z)) :=
  if negb ptrs_ok then let* e := set_app_error ERR_INVAL in st_ret (e, None)
  else
    let* r := with_fds pipe_open in
    match r with
    | inl error => let* e := set_app_error error in st_ret (e, None)
    | inr fds => do! clear_app_error in st_ret (0, Some fds)
    end.

Definition abi_dup2 (old_fd new_fd : Z) : ST (Sys D) Z :=
  if negb (is_std_fd new_fd) then set_app_error ERR_INVAL
  else if old_fd =? new_fd then
    do! set_std_fd new_fd new_fd in ok_code new_fd
  else
    let* open := get (fun s => app_fd_open (sys_fds s) old_fd) in
    if negb open then set_app_error ERR_INVAL
    else do! set_std_fd new_fd old_fd in ok_code new_fd.

Definition abi_std_fd (which : Z) (s : Sys D) : Z :=
  if negb (is_std_fd which) then -1 else nth (Z.to_nat which) (std_fds (cur_proc s)) 0.

(** ** Names *)

Definition cur_cwd : ST (Sys D) bytes := get (fun s => cwd (cur_proc s)).

Definition pfs_stat (header : arr) (index : nat) : RymosStat :=
  mkStat (if pfs_entry_is_dir header index then STAT_KIND_DIR else STAT_KIND_FILE)
    STAT_FS_PFS (pfs_entry_size header index) (pfs_entry_created header index)
    (pfs_entry_modified header index) (pfs_entry_mode header index).

Definition bootfs_stat (e : BootFsEntry) : RymosStat :=
  mkStat (if be_kind e =? 2 then STAT_KIND_DIR else STAT_KIND_FILE)
    STAT_FS_BOOTFS (be_data_len e) 0 0 BOOTFS_MODE.

Definition stat_path (path : bytes) : ST (Sys D) (option RymosStat) :=
  let* cwd_ := cur_cwd in
  match pfs_resolve_path cwd_ path with
  | Some name =>
      let* r := on_disk read_header_silent in
      st_ret (match r with
              | None => None
              | Some header =>
                  match pfs_find_entry header name with
                  | None => None
                  | Some index => Some (pfs_stat header index)
                  end
              end)
  | None =>
      get (fun s => match bootfs_find_entry (APP_BOOTFS s) path with
                    | None => None
                    | Some e => Some (bootfs_stat e)
                    end)
  end.

Definition abi_stat (path : option bytes) (stat_ok : bool) : ST (Sys D) (Z * option RymosStat) :=
  let fail := fun error => (let* e := set_app_error error in st_ret (e, None)) in
  if negb stat_ok then fail ERR_INVAL
  else
    match checked_app_slice path with
    | None => fail ERR_INVAL
    | Some path =>
        let* r := stat_path path in
        match r with
        | None => fail ERR_NOENT
        | Some stat => do! clear_app_error in st_ret (0, Some stat)
        end
    end.

Definition list_bootfs (wanted : Z) (b : BootFs) : option (bytes * RymosStat) :=
  match bootfs_entry b wanted with
  | None => None
  | Some e => Some (entry_name b e, bootfs_stat e)
  end.

(** The scan of [abi_list] over the PFS entries from [entry_index]. *)
Fixpoint list_pfs_from (n entry_index : nat) (header : arr) (namespace : bytes) (seen index : nat)
  : option (bytes * RymosStat) :=
  match n with
  | O => None
  | S n =>
      if pfs_entry_used header entry_index then
        match pfs_list_match namespace (pfs_entry_name header entry_index) with
        | None => list_pfs_from n (S entry_index) header namespace seen index
        | Some name =>
            if Nat.eqb seen index then Some (name, pfs_stat header entry_index)
            else list_pfs_from n (S entry_index) header namespace (S seen) index
        end
      else list_pfs_from n (S entry_index) header namespace seen index
  end.

(** Which PFS directory [abi_list] lists; [None] is the boot image. *)
Definition list_namespace (cwd_ namespace : bytes) : option bytes :=
  if bytes_eq namespace [] && app_cwd_is_pfs cwd_ then Some (app_cwd_pfs_name cwd_)
  else if bytes_eq namespace (bs "pfs:") || bytes_eq namespace (bs "pfs:/") then Some []
  else pfs_resolve_path cwd_ namespace.

Definition listed (name_len : Z) (r : option (bytes * RymosStat))
  : ST (Sys D) (Z * option (bytes * RymosStat)) :=
  match r with
  | None => let* e := set_app_error ERR_NOENT in st_ret (e, None)
  | Some (name, stat) =>
      let copy_len := Z.min name_len (blen name) in
      do! clear_app_error in st_ret (copy_len, Some (take (Z.to_nat copy_len) name, stat))
  end.

(** [namespace = Some []] is an empty or null namespace argument, [None] a
    null pointer with a length; [name_len = None] a null name buffer. *)
Definition abi_list (namespace : option bytes) (index : nat) (name_len : option Z) (stat_ok : bool)
  : ST (Sys D) (Z * option (bytes * RymosStat)) :=
  let fail := fun error => (let* e := set_app_error error in st_ret (e, None)) in
  match name_len with
  | None => fail ERR_INVAL
  | Some name_len =>
      if (name_len =? 0) || negb stat_ok then fail ERR_INVAL
      else
        match (match namespace with
               | None | Some [] => Some []
               | Some l => checked_app_slice (Some l)
               end) with
        | None => fail ERR_INVAL
        | Some namespace =>
            let* cwd_ := cur_cwd in
            match list_namespace cwd_ namespace with
            | Some namespace =>
                let* r := on_disk read_header_silent in
                match r with
                | None => fail ERR_IO
                | Some header => listed name_len (list_pfs_from PFS_ENTRY_COUNT 0 header namespace 0 index)
                end
            | None =>
                let* b := get APP_BOOTFS in
                listed name_len (list_bootfs (Z.of_nat index) b)
            end
        end
  end.

(** The common prologue of the handlers that change the name space. *)
Definition with_pfs_name (path : option bytes) (k : bytes -> ST (Sys D) Z) : ST (Sys D) Z :=
  match checked_app_slice path with
  | None => set_app_error ERR_INVAL
  | Some path =>
      let* cwd_ := cur_cwd in
      match pfs_resolve_path cwd_ path with
      | None => set_app_error ERR_INVAL
      | Some name => k name
      end
  end.

Definition with_header (k : arr -> ST (Sys D) Z) : ST (Sys D) Z :=
  let* r := on_disk read_header_silent in
  match r with
  | None => set_app_error ERR_IO
  | Some header => k header
  end.

Definition commit_header (header : arr) : ST (Sys D) Z :=
  let* ok := on_disk (write_header header) in
  if ok then ok_code 0 else set_app_error ERR_IO.

Definition abi_mkdir (path : option bytes) : ST (Sys D) Z :=
  with_pfs_name path (fun name =>
  with_header (fun header =>
    if negb (pfs_parent_exists header name) then set_app_error ERR_NOENT
    else
      match pfs_find_entry header name with
      | Some _ => set_app_error ERR_EXIST
      | None =>
          match pfs_free_entry header with
          | None => set_app_error ERR_NOSPC
          | Some index =>
              let* created := on_disk (ns_since_boot clk) in
              let* now := on_disk (ns_since_boot clk) in
              commit_header (pfs_set_entry header index name 0 PFS_KIND_DIR [] created
                               PFS_MODE_DEFAULT_DIR now)
          end
      end)).

Definition abi_unlink (path : option bytes) : ST (Sys D) Z :=
  with_pfs_name path (fun name =>
  with_header (fun header =>
    match pfs_unlink_header header name with
    | inl code => set_app_error (if code =? -2 then ERR_INVAL else ERR_NOENT)
    | inr header => commit_header header
    end)).

Definition rename_error (code : Z) : Z :=
  if (code =? -2) || (code =? -4) then ERR_NOENT
  else if code =? -3 then ERR_EXIST
  else ERR_INVAL.

(** [pfs_rename_header] reads the clock once its checks have passed. *)
Definition rename_now (header : arr) (old_name new_name : bytes) : ST D (Z + arr) := fun d =>
  match pfs_rename_header header old_name new_name 0 with
  | inl code => (d, inl code)
  | inr _ =>
      let '(d, now) := ns_since_boot clk d in
      (d, pfs_rename_header header old_name new_name now)
  end.

Definition abi_rename (old_path new_path : option bytes) : ST (Sys D) Z :=
  match checked_app_slice old_path, checked_app_slice new_path with
  | Some old_path, Some new_path =>
      let* cwd_ := cur_cwd in
      match pfs_resolve_path cwd_ old_path, pfs_resolve_path cwd_ new_path with
      | Some old_name, Some new_name =>
          with_header (fun header =>
            let* r := on_disk (rename_now header old_name new_name) in
            match r with
            | inl code => set_app_error (rename_error code)
            | inr header => commit_header header
            end)
      | _, _ => set_app_error ERR_INVAL
      end
  | _, _ => set_app_error ERR_INVAL
  end.

(** ** The current directory *)

Definition abi_cwd (len : option Z) : ST (Sys D) (Z * bytes) :=
  let* dir := cur_cwd in
  match len with
  | None => st_ret (blen dir, [])
  | Some n =>
      if n =? 0 then st_ret (blen dir, [])
      else
        let copy_len := Z.min n (blen dir) in
        do! clear_app_error in st_ret (copy_len, take (Z.to_nat copy_len) dir)
  end.

Definition set_cwd (dir : bytes) : ST (Sys D) Z := fun s =>
  ok_code 0 (update_cur (fun p => {| p with cwd := dir |}) s).

(** [cwd] is a [[u8; APP_CWD_MAX]]: slicing it past its end panics, which is
    [None]. *)
Definition abi_chdir (path : option bytes) : ST (Sys D) (option Z) := fun s =>
  let some := fun (r : Sys D * Z) => (fst r, Some (snd r)) in
  match checked_app_slice path with
  | None => some (set_app_error ERR_INVAL s)
  | Some path =>
      if bytes_eq path (bs "/") then some (set_cwd (bs "/") s)
      else if bytes_eq path (bs "pfs:") || bytes_eq path (bs "pfs:/") then some (set_cwd (bs "pfs:") s)
      else
        match pfs_resolve_path (cwd (cur_proc s)) path with
        | None => some (set_app_error ERR_INVAL s)
        | Some name =>
            let '(s, r) := on_disk read_header_silent s in
            match r with
            | None => some (set_app_error ERR_IO s)
            | Some header =>
                match pfs_find_entry header name with
                | None => some (set_app_error ERR_NOENT s)
                | Some index =>
                    if negb (pfs_entry_is_dir header index) then some (set_app_error ERR_NOTDIR s)
                    else if APP_CWD_MAX <? 4 + blen name then (s, None)
                    else some (set_cwd (bs "pfs:" ++ name) s)
                end
            end
        end
  end.

Definition abi_last_error (s : Sys D) : Z := last_error (cur_proc s).

End AbiFs.
