(* ===== verification/AbiFsThm.v ===== *)
(** * What the directory calls report

    [abi_mkdir], [abi_unlink] and [abi_rename] as operations on the directory a disk
    holds, with every error they report: the code, what it means, and that the disk is
    then as it was. *)

From S2P Require Import Prelude Constants Text PfsPath PfsLayout PfsDir PfsAlloc Device Hw AtaDisk Pfs PfsIO PfsData.
From S2P Require Import PfsFile PfsProps Console BootFs Phys Paging Process Env Fd Abi AbiFs.

(** ** Equal headers hold the same directory *)

Lemma header_eq_lookup h1 h2 name :
  header_eq h1 h2 -> names_fit h1 -> pfs_lookup h1 name = pfs_lookup h2 name.
Proof.
  intros He Hn. unfold pfs_lookup. rewrite (header_eq_find h1 h2) by done.
  destruct (pfs_find_entry h2 name) as [i|] eqn:E; [|done]. apply find_entry_spec in E as (Hi & _).
  by rewrite (header_eq_view h1 h2).
Qed.

Lemma dir_wf_eq h1 h2 : header_eq h1 h2 -> dir_wf h1 -> dir_wf h2.
Proof.
  intros He [Hf Hu Hv Hp].
  assert (Hus : forall i, (i < PFS_ENTRY_COUNT)%nat -> pfs_entry_used h1 i = pfs_entry_used h2 i)
    by (intros i Hi; apply used_agree; by apply header_eq_agree).
  assert (Hna : forall i, (i < PFS_ENTRY_COUNT)%nat -> pfs_entry_name h1 i = pfs_entry_name h2 i)
    by (intros i Hi; apply name_agree; [by apply header_eq_agree|auto]).
  split.
  - by rewrite <- He.
  - intros i j Hi Hj. rewrite <- !Hus, <- !Hna by done. by apply Hu.
  - intros i Hi. rewrite <- Hus, <- Hna by done. by apply Hv.
  - intros i Hi. rewrite <- Hus, <- Hna, <- (header_eq_parent h1 h2) by done. by apply Hp.
Qed.

(** ** Written headers hold bytes *)

Lemma clear_entry_bytes h i : header_bytes h -> header_bytes (pfs_clear_entry h i).
Proof. intros Hb k Hk. apply fill_u8; [by apply Hb|done]. Qed.

Lemma rename_written h old new now h' :
  header_bytes h -> names_fit h -> pfs_rename_header h old new now = inr h' ->
  header_bytes h' /\ names_fit h'.
Proof.
  intros Hb Hf H. apply rename_ok in H as (i & Vo & Vn & Eo & _ & _ & _ & ->).
  pose proof (find_entry_spec _ _ _ Eo) as (Hi & _). split.
  - apply set_entry_bytes; [done|by apply valid_path_u8| |].
    + pose proof (header_bytes_entry h i 0 Hb Hi) as Hk. rewrite Z.add_0_r in Hk. apply Hk. pfs_const. lia.
    + apply (header_bytes_entry h i PFS_MODE_OFFSET Hb Hi). pfs_const. lia.
  - apply valid_path_len in Vn. apply (agree_except_fit h _ i);
      [done|apply set_except; lia|apply set_entry_name_fits; lia].
Qed.

Section DirCalls.

Context {D : Type} `{SL : SectorLaws D} (clk : Clock) (Hclk : 0 <= BOOT_TSC clk).

Abbreviation hdr := disk_header.

(** A working disk that holds a directory. *)
Record dir_disk (d : D) : Prop := {
  dd_healthy : sd_healthy d;
  dd_magic : pfs_magic_ok (hdr d) = true;
  dd_dir : dir_wf (hdr d)
}.

(** The current process is in the table. *)
Definition running (s : Sys D) : Prop :=
  (CURRENT_PROCESS_INDEX (sys_kern s) < length (PROCESS_TABLE (sys_kern s)))%nat.

(** The name a path means for the current process. *)
Definition path_name (s : Sys D) (p : option bytes) : option bytes :=
  match checked_app_slice p with
  | None => None
  | Some path => pfs_resolve_path (cwd (cur_proc s)) path
  end.

(** A call on the directory: it is refused for a reason and changes nothing on the
    disk, or it succeeds and the directory changes. *)
Inductive dir_call (s s' : Sys D) (r : Z) (reason : Z -> Prop) (change : arr -> arr -> Prop) : Prop :=
| dir_refused e : r = -1 -> last_error (cur_proc s') = e -> reason e ->
    same_disk (sys_disk s) (sys_disk s') -> dir_call s s' r reason change
| dir_done : r = 0 -> last_error (cur_proc s') = ERR_OK -> sd_healthy (sys_disk s') ->
    change (hdr (sys_disk s)) (hdr (sys_disk s')) -> dir_call s s' r reason change.

(** [change] sees only what the headers hold. *)
Definition only_headers (change : arr -> arr -> Prop) : Prop :=
  forall h1 h2 h1' h2', header_eq h1 h2 -> header_eq h1' h2' -> change h1 h1' -> change h2 h2'.

(** ** Steps of a call *)

Lemma last_error_update (s : Sys D) e :
  running s -> last_error (cur_proc (update_cur (fun p => {| p with last_error := e |}) s)) = e.
Proof using.
  intros Hr. unfold cur_proc, update_cur, update_proc, proc. simpl. rewrite list_lookup_alter, decide_True by done.
  destruct (lookup_lt_is_Some_2 _ _ Hr) as [p ->]. done.
Qed.

(** The state after disk operations only. *)
Definition moved (s s1 : Sys D) : Prop := sys_kern s1 = sys_kern s.

Lemma refuse (s s1 : Sys D) e reason change :
  running s -> moved s s1 -> same_disk (sys_disk s) (sys_disk s1) -> reason e ->
  let '(s', r) := set_app_error e s1 in dir_call s s' r reason change.
Proof using.
  intros Hr Hm Hs Hw. unfold set_app_error. apply dir_refused with e; [done| |done|done].
  apply last_error_update. unfold running. by rewrite Hm.
Qed.

Lemma commit (s s1 : Sys D) h reason change :
  running s -> moved s s1 -> sd_healthy (sys_disk s1) -> header_bytes h ->
  (forall h', header_eq h' h -> change (hdr (sys_disk s)) h') ->
  let '(s', r) := commit_header h s1 in dir_call s s' r reason change.
Proof using SL.
  intros Hr Hm Hh Hb Hc. unfold commit_header, st_bind, on_disk.
  destruct (write_header_done h (sys_disk s1) Hb Hh) as (d' & -> & Hh' & He & _).
  cbn [negb]. unfold ok_code, st_bind, clear_app_error, st_ret. apply dir_done; [done| |done|by apply Hc].
  apply last_error_update. unfold running. simpl. by rewrite Hm.
Qed.

(** The header is read. *)
Lemma with_header_done (s : Sys D) :
  dir_disk (sys_disk s) ->
  exists s1 h, moved s s1 /\ same_disk (sys_disk s) (sys_disk s1) /\ sd_healthy (sys_disk s1) /\
    header_eq h (hdr (sys_disk s)) /\ header_bytes h /\ dir_wf h /\
    forall k, with_header k s = k h s1.
Proof using SL.
  intros [Hh Hm Hw]. destruct (read_header_silent (sys_disk s)) as [d1 r] eqn:E.
  pose proof E as E'. apply read_header_spec in E' as (E1 & E2 & E3). destruct (E3 Hh) as [Hh' Hr].
  destruct (Hr Hm) as [h ->]. destruct (E2 h eq_refl) as [He _].
  exists {| s with sys_disk := d1 |}, h. split_and!; try done.
  - intros k' Hk. rewrite He by done. by apply disk_header_bytes.
  - eapply dir_wf_eq; [|done]. by symmetry.
  - intros k. unfold with_header, st_bind, on_disk. by rewrite E.
Qed.

Lemma clock_step (s : Sys D) :
  sd_healthy (sys_disk s) ->
  exists s1 now, on_disk (ns_since_boot clk) s = (s1, now) /\ moved s s1 /\
    same_disk (sys_disk s) (sys_disk s1) /\ sd_healthy (sys_disk s1) /\ is_u64 now.
Proof using SL Hclk.
  intros Hh. destruct (clock_done clk Hclk (sys_disk s) Hh) as (d1 & now & E & Hh1 & Hs & Hn).
  exists {| s with sys_disk := d1 |}, now. unfold on_disk. rewrite E. by split_and!.
Qed.

Lemma with_name_step (s : Sys D) p k :
  with_pfs_name p k s = match path_name s p with None => set_app_error ERR_INVAL s | Some n => k n s end.
Proof using.
  unfold with_pfs_name, path_name. destruct (checked_app_slice p) as [path|]; [|done].
  unfold st_bind, cur_cwd, get. by destruct (pfs_resolve_path _ path).
Qed.

(** ** The three calls *)

(** Every name but those given denotes what it did. *)
Definition same_but (names : list bytes) (h h' : arr) : Prop :=
  forall n, n ∉ names -> pfs_lookup h' n = pfs_lookup h n.

(** A name that denotes a directory with an entry below it. *)
Definition in_use (h : arr) (name : bytes) : Prop :=
  (exists v, pfs_lookup h name = Some v /\ v_kind v = PFS_KIND_DIR) /\ pfs_dir_empty h name = false.

(** The first condition that fails, in the order the call looks, with its error. *)
Definition mkdir_refused (s : Sys D) (p : option bytes) (e : Z) : Prop :=
  let h := hdr (sys_disk s) in
  match path_name s p with
  | None => e = ERR_INVAL
  | Some name =>
      if negb (pfs_parent_exists h name) then e = ERR_NOENT
      else match pfs_lookup h name with
           | Some _ => e = ERR_EXIST
           | None => e = ERR_NOSPC /\ pfs_free_entry h = None
           end
  end.

Definition mkdir_change (s : Sys D) (p : option bytes) (h h' : arr) : Prop :=
  exists name created now, path_name s p = Some name /\ pfs_parent_exists h name = true /\
    pfs_lookup h name = None /\ pfs_free_entry h <> None /\ dir_wf h' /\
    pfs_lookup h' name = Some (mkView PFS_KIND_DIR name 0 [] created now PFS_MODE_DEFAULT_DIR) /\
    same_but [name] h h'.

Definition unlink_refused (s : Sys D) (p : option bytes) (e : Z) : Prop :=
  let h := hdr (sys_disk s) in
  match path_name s p with
  | None => e = ERR_INVAL
  | Some name =>
      match pfs_lookup h name with
      | None => e = ERR_NOENT
      | Some _ => e = ERR_INVAL /\ in_use h name
      end
  end.

Definition unlink_change (s : Sys D) (p : option bytes) (h h' : arr) : Prop :=
  exists name, path_name s p = Some name /\ pfs_lookup h name <> None /\ ~ in_use h name /\
    dir_wf h' /\ pfs_lookup h' name = None /\ same_but [name] h h'.

Definition rename_refused (s : Sys D) (p q : option bytes) (e : Z) : Prop :=
  let h := hdr (sys_disk s) in
  match path_name s p, path_name s q with
  | Some old, Some new =>
      match pfs_lookup h old, pfs_lookup h new with
      | None, _ => e = ERR_NOENT
      | Some _, Some _ => e = ERR_EXIST
      | Some _, None =>
          if negb (pfs_parent_exists h new) then e = ERR_NOENT else e = ERR_INVAL /\ in_use h old
      end
  | _, _ => e = ERR_INVAL
  end.

Definition rename_change (s : Sys D) (p q : option bytes) (h h' : arr) : Prop :=
  exists old new v now, path_name s p = Some old /\ path_name s q = Some new /\
    pfs_lookup h old = Some v /\ pfs_lookup h new = None /\ pfs_parent_exists h new = true /\ ~ in_use h old /\
    pfs_lookup h' old = None /\
    pfs_lookup h' new = Some (mkView (v_kind v) new (v_size v) (v_extents v) (v_created v) now (v_mode v)) /\
    same_but [old; new] h h' /\
    ((v_kind v = PFS_KIND_DIR -> pfs_below old new = false) -> dir_wf h').

Lemma path_name_valid (s : Sys D) p name : path_name s p = Some name -> valid_pfs_path name = true.
Proof using.
  unfold path_name, pfs_resolve_path, normalize_pfs_path. destruct (checked_app_slice p) as [path|]; [|done].
  repeat case_match; intros [= <-]; simplify_eq;
    match goal with H : _ || negb ?v = false |- _ => by destruct v; [|rewrite orb_true_r in H] end.
Qed.

(** What a header says of a name, and what an equal one does. *)
Lemma lookup_none h name : pfs_lookup h name = None <-> pfs_find_entry h name = None.
Proof using. unfold pfs_lookup. by destruct (pfs_find_entry h name). Qed.

Lemma dir_empty_eq h1 h2 name : header_eq h1 h2 -> names_fit h1 -> pfs_dir_empty h1 name = pfs_dir_empty h2 name.
Proof using.
  intros He Hn. unfold pfs_dir_empty.
  replace (find_first (fun index => pfs_entry_used h1 index && pfs_below name (pfs_entry_name h1 index)) PFS_ENTRY_COUNT)
    with (find_first (fun index => pfs_entry_used h2 index && pfs_below name (pfs_entry_name h2 index)) PFS_ENTRY_COUNT);
    [done|].
  apply find_first_ext. intros j Hj. pose proof (header_eq_agree h1 h2 j Hj He) as Ha.
  by rewrite (used_agree _ _ _ Ha), (name_agree _ _ _ Ha) by auto.
Qed.

(** The test of the code on an equal header. *)
Lemma in_use_eq h1 h2 name i :
  header_eq h1 h2 -> names_fit h1 -> pfs_find_entry h1 name = Some i ->
  pfs_entry_is_dir h1 i && negb (pfs_dir_empty h1 name) = true <-> in_use h2 name.
Proof using.
  intros He Hf Ei. unfold in_use. rewrite <- (header_eq_lookup h1 h2 name He Hf), <- (dir_empty_eq h1 h2 name He Hf).
  unfold pfs_lookup. rewrite Ei, andb_true_iff, negb_true_iff, view_is_dir, Z.eqb_eq. split.
  - intros [Hk Hd]. split; [by exists (pfs_view h1 i)|done].
  - intros [(v & [= <-] & Hk) Hd]. done.
Qed.

(** The directory of the written header, seen from the disk. *)
Lemma same_but_eq names h1 h2 h1' h2' :
  header_eq h1 h2 -> header_eq h2' h1' -> names_fit h1 -> names_fit h1' -> same_but names h1 h1' -> same_but names h2 h2'.
Proof using.
  intros He He' Hf Hf' Hs n Hn. rewrite (header_eq_lookup h2' h1' n He') by by rewrite He'.
  rewrite <- (header_eq_lookup h1 h2 n He) by done. by apply Hs.
Qed.

Lemma mkdir_call (s : Sys D) p :
  dir_disk (sys_disk s) -> running s ->
  let '(s', r) := abi_mkdir clk p s in dir_call s s' r (mkdir_refused s p) (mkdir_change s p).
Proof using SL Hclk.
  intros Hd Hr. unfold abi_mkdir. rewrite with_name_step.
  destruct (path_name s p) as [name|] eqn:En;
    [|apply refuse; [done|done|done|unfold mkdir_refused; by rewrite En]].
  pose proof (path_name_valid _ _ _ En) as Hval.
  destruct (with_header_done s Hd) as (s1 & h & M1 & S1 & H1 & He & Hb & Hw & E). rewrite E.
  pose proof (wf_fit _ Hw) as Hf. rewrite (header_eq_parent _ _ name He Hf).
  destruct (pfs_parent_exists (hdr (sys_disk s)) name) eqn:Ep; cbn [negb].
  2: { apply refuse; [done|done|done|]. unfold mkdir_refused. by rewrite En, Ep. }
  rewrite (header_eq_find _ _ name He Hf).
  destruct (pfs_find_entry (hdr (sys_disk s)) name) as [i|] eqn:Ef.
  { apply refuse; [done|done|done|]. unfold mkdir_refused, pfs_lookup. by rewrite En, Ep, Ef. }
  rewrite (free_entry_eq _ _ He). destruct (pfs_free_entry (hdr (sys_disk s))) as [i|] eqn:Ei.
  2: { apply refuse; [done|done|done|]. unfold mkdir_refused, pfs_lookup. by rewrite En, Ep, Ef. }
  destruct (clock_step s1 H1) as (s2 & created & E2 & M2 & S2 & H2 & Hc). unfold st_bind at 1. rewrite E2.
  destruct (clock_step s2 H2) as (s3 & now & E3 & M3 & S3 & H3 & Hn). unfold st_bind at 1. rewrite E3.
  assert (Hi : (i < PFS_ENTRY_COUNT)%nat) by by apply free_entry_spec in Ei as [? _].
  apply commit; [done|unfold moved in *; congruence|done| |].
  - apply set_entry_bytes; [done| |done|done]. by apply valid_path_u8.
  - intros h' He'.
    destruct (create_spec h name PFS_KIND_DIR created PFS_MODE_DEFAULT_DIR now i
      (pfs_set_entry h i name 0 PFS_KIND_DIR [] created PFS_MODE_DEFAULT_DIR now)) as (C1 & C2 & C3 & C4); try done.
    { by rewrite (header_eq_parent _ _ name He Hf). }
    { by rewrite (header_eq_find _ _ name He Hf). }
    { unfold pfs_create_header. by rewrite (free_entry_eq _ _ He), Ei. }
    pose proof (wf_fit _ C1) as Cf. exists name, created, now. split_and!; [done|done| |by rewrite Ei| | |].
    + unfold pfs_lookup. by rewrite Ef.
    + eapply dir_wf_eq; [by symmetry|done].
    + rewrite (header_eq_lookup h' _ name He') by by rewrite He'. done.
    + apply (same_but_eq _ h _ _ h' He He' Hf Cf). intros n Hn'. apply C4. intros ->. apply Hn'. left.
Qed.

Lemma unlink_call (s : Sys D) p :
  dir_disk (sys_disk s) -> running s ->
  let '(s', r) := abi_unlink p s in dir_call s s' r (unlink_refused s p) (unlink_change s p).
Proof using SL.
  intros Hd Hr. unfold abi_unlink. rewrite with_name_step.
  destruct (path_name s p) as [name|] eqn:En;
    [|apply refuse; [done|done|done|unfold unlink_refused; by rewrite En]].
  destruct (with_header_done s Hd) as (s1 & h & M1 & S1 & H1 & He & Hb & Hw & E). rewrite E.
  pose proof Hw as [Hf Hu _ _]. destruct (pfs_unlink_header h name) as [code|h1] eqn:Eu.
  - apply refuse; [done|done|done|]. unfold unlink_refused. rewrite En. cbv zeta.
    rewrite <- (header_eq_lookup _ _ name He Hf). unfold pfs_unlink_header in Eu. unfold pfs_lookup.
    destruct (pfs_find_entry h name) as [i|] eqn:Ei; [|by injection Eu as <-].
    destruct (pfs_entry_is_dir h i && negb (pfs_dir_empty h name)) eqn:Ed; [|done]. injection Eu as <-.
    split; [done|]. by apply (in_use_eq h _ name i He Hf Ei).
  - pose proof (unlink_wf h name h1 Hw Eu) as Hw1. pose proof Eu as Eu'. unfold pfs_unlink_header in Eu'.
    apply unlink_ok in Eu as (i & Ei & -> & _); [|done|done]. rewrite Ei in Eu'.
    apply commit; [done|done|done|by apply clear_entry_bytes|].
    intros h' He'. pose proof (wf_fit _ Hw1) as Cf. exists name. split_and!; [done| | | | |].
    + rewrite <- (header_eq_lookup _ _ name He Hf). unfold pfs_lookup. by rewrite Ei.
    + rewrite <- (in_use_eq h _ name i He Hf Ei). by destruct (pfs_entry_is_dir h i && _).
    + eapply dir_wf_eq; [by symmetry|done].
    + rewrite (header_eq_lookup h' _ name He') by by rewrite He'. by eapply clear_lookup_same.
    + apply (same_but_eq _ h _ _ h' He He' Hf Cf). intros n Hn. eapply clear_lookup_other; try done.
      intros ->. apply Hn. left.
Qed.

(** Why a rename is refused. *)
Lemma rename_refusal (s : Sys D) p q h old new now code :
  path_name s p = Some old -> path_name s q = Some new -> header_eq h (hdr (sys_disk s)) -> names_fit h ->
  pfs_rename_header h old new now = inl code -> rename_refused s p q (rename_error code).
Proof using.
  intros Ep Eq He Hf E. unfold rename_refused. rewrite Ep, Eq. cbv zeta.
  rewrite <- !(header_eq_lookup h _ _ He Hf), <- (header_eq_parent _ _ new He Hf). unfold pfs_lookup.
  unfold pfs_rename_header in E. rewrite (path_name_valid _ _ _ Ep), (path_name_valid _ _ _ Eq) in E.
  cbn [negb orb] in E. destruct (pfs_find_entry h old) as [i|] eqn:Ei; [|by injection E as <-].
  destruct (pfs_find_entry h new) as [j|]; [by injection E as <-|].
  destruct (pfs_parent_exists h new); cbn [negb] in E |- *; [|by injection E as <-].
  destruct (pfs_entry_is_dir h i && negb (pfs_dir_empty h old)) eqn:Ed; [|done].
  injection E as <-. split; [done|]. by apply (in_use_eq h _ old i He Hf Ei).
Qed.

(** What held before a rename that was done. *)
Lemma rename_allowed h1 h2 old new now h' :
  header_eq h1 h2 -> names_fit h1 -> pfs_rename_header h1 old new now = inr h' ->
  pfs_lookup h2 new = None /\ pfs_parent_exists h2 new = true /\ ~ in_use h2 old.
Proof using.
  intros He Hf (i & _ & _ & Eo & En & Ep & Ed & _)%rename_ok. split_and!.
  - by rewrite <- (header_eq_lookup h1 h2 new He Hf), lookup_none.
  - by rewrite <- (header_eq_parent _ _ new He Hf).
  - rewrite <- (in_use_eq h1 h2 old i He Hf Eo). destruct (pfs_entry_is_dir h1 i); [|done]. by rewrite Ed.
Qed.

(** The checks do not depend on the time. *)
Lemma rename_now_spec (s : Sys D) h old new :
  sd_healthy (sys_disk s) ->
  exists s1 r now, on_disk (rename_now clk h old new) s = (s1, r) /\ moved s s1 /\
    same_disk (sys_disk s) (sys_disk s1) /\ sd_healthy (sys_disk s1) /\ is_u64 now /\
    r = pfs_rename_header h old new now.
Proof using SL Hclk.
  intros Hh. destruct (clock_step s Hh) as (s1 & now & E & M & S & H1 & Hn).
  unfold on_disk in *. unfold rename_now. destruct (pfs_rename_header h old new 0) as [code|h0] eqn:E0.
  - exists s, (inl code), 0. split_and!; try done. by destruct s.
  - destruct (ns_since_boot clk (sys_disk s)) as [d1 t]. injection E as <- <-.
    eexists _, _, t. by split_and!.
Qed.

Lemma rename_call (s : Sys D) p q :
  dir_disk (sys_disk s) -> running s ->
  let '(s', r) := abi_rename clk p q s in dir_call s s' r (rename_refused s p q) (rename_change s p q).
Proof using SL Hclk.
  intros Hd Hr.
  assert (Hbad : path_name s p = None \/ path_name s q = None ->
    let '(s', r) := set_app_error ERR_INVAL s in dir_call s s' r (rename_refused s p q) (rename_change s p q)).
  { intros Hn. apply refuse; [done|done|done|]. unfold rename_refused.
    destruct Hn as [-> | ->]; [done|by destruct (path_name s p)]. }
  unfold abi_rename. unfold path_name in Hbad.
  destruct (checked_app_slice p) as [pp|] eqn:Ep; [|apply Hbad; auto].
  destruct (checked_app_slice q) as [qq|] eqn:Eq; [|apply Hbad; auto].
  unfold st_bind at 1, cur_cwd, get. destruct (pfs_resolve_path _ pp) as [old|] eqn:Eo; [|apply Hbad; auto].
  destruct (pfs_resolve_path _ qq) as [new|] eqn:En; [|apply Hbad; auto]. clear Hbad.
  assert (Po : path_name s p = Some old) by (unfold path_name; by rewrite Ep).
  assert (Pn : path_name s q = Some new) by (unfold path_name; by rewrite Eq).
  destruct (with_header_done s Hd) as (s1 & h & M1 & S1 & H1 & He & Hb & Hw & E). rewrite E.
  pose proof (wf_fit _ Hw) as Hf.
  destruct (rename_now_spec s1 h old new H1) as (s2 & r & now & E2 & M2 & S2 & H2 & Hnow & ->).
  unfold st_bind at 1. rewrite E2. assert (M02 : moved s s2) by (unfold moved in *; congruence).
  destruct (pfs_rename_header h old new now) as [code|h1] eqn:Er.
  - apply refuse; [done|done|by transitivity (sys_disk s1)|]. by eapply rename_refusal.
  - pose proof (rename_lookups _ _ _ _ _ Hw Hb Hnow Er) as (L1 & (v & L2 & L3) & L4).
    pose proof (rename_keeps_wf _ _ _ _ _ Hw Hb Hnow Er) as Lw.
    destruct (rename_written _ _ _ _ _ Hb Hf Er) as [Hb1 Cf].
    destruct (rename_allowed _ _ _ _ _ _ He Hf Er) as (La & Lp & Lu).
    apply commit; [done|done|done|done|]. intros h' He'. assert (Cf' : names_fit h') by by rewrite He'.
    exists old, new, v, now. split_and!; [done|done| |exact La|exact Lp|exact Lu| | | |].
    + by rewrite <- (header_eq_lookup h _ old He Hf).
    + by rewrite (header_eq_lookup h' _ old He' Cf').
    + by rewrite (header_eq_lookup h' _ new He' Cf').
    + apply (same_but_eq _ h _ _ h' He He' Hf Cf). intros n Hn. apply L4.
      * intros ->. apply Hn. left.
      * intros ->. apply Hn. right. left.
    + intros Hk. eapply dir_wf_eq; [by symmetry|]. apply Lw. intros v' Hv'. assert (v' = v) as -> by congruence.
      done.
Qed.

(** C9: On a working disk that holds a directory, each directory call reports exactly
    what happened. The first condition that fails decides the error: a path that
    resolves to nothing (EINVAL), for [mkdir] a missing parent (ENOENT), a name that
    exists (EEXIST), a full table (ENOSPC), for [unlink] a missing name (ENOENT), a
    directory with an entry below it (EINVAL), for [rename] a missing old name (ENOENT),
    a new name that exists (EEXIST), a missing parent (ENOENT), a directory with an entry
    below it (EINVAL); the call then answers -1 and the disk is as it was. When every
    condition holds, and only then, the call answers 0 with no error, and the directory
    has changed as the call says and in no other name. *)
Theorem directory_calls_report (s : Sys D) p q :
  dir_disk (sys_disk s) -> running s ->
  (let '(s', r) := abi_mkdir clk p s in dir_call s s' r (mkdir_refused s p) (mkdir_change s p)) /\
  (let '(s', r) := abi_unlink p s in dir_call s s' r (unlink_refused s p) (unlink_change s p)) /\
  (let '(s', r) := abi_rename clk p q s in dir_call s s' r (rename_refused s p q) (rename_change s p q)).
Proof using SL Hclk.
  intros Hd Hr. split; [by apply mkdir_call|]. split; [by apply unlink_call|by apply rename_call].
Qed.

End DirCalls.

(** ** A process in [pfs:] on the disk that holds [f] *)

Definition file_system : Sys Ata :=
  let v := mkVm phys_empty zeroed 0x1000 0x1000 in
  let k := update_proc 0 (fun p => {| p with cwd := bs "pfs:" |}) (Kernel_new v) in
  let k := {| k with CURRENT_PROCESS_INDEX := 0%nat |} in
  mkSys k fds_empty (BootFs_new 0 0 zeroed) None [] disk_f.

Lemma disk_f_dir : dir_disk disk_f.
Proof.
  split; [done|apply (st_magic _ disk_f_store)|]. eapply dir_wf_eq; [symmetry; exact disk_f_header|].
  apply file_f_spec.
Qed.

Lemma disk_f_lookup : pfs_lookup (disk_header disk_f) (bs "f") <> None.
Proof.
  rewrite lookup_none. assert (El : pfs_find_entry (disk_header disk_f) (bs "f") = Some 0%nat) by apply disk_f_holds.
  congruence.
Qed.

Lemma disk_f_no_g : pfs_lookup (disk_header disk_f) (bs "g") = None.
Proof.
  rewrite (header_eq_lookup _ _ (bs "g") disk_f_header (wf_fit _ (dd_dir _ disk_f_dir))). vm_compute. reflexivity.
Qed.

(** [mkdir] of the name in use and [unlink] of another one. *)
Lemma directory_calls_report_witness :
  (let '(s', r) := abi_mkdir demo_clock (Some (bs "f")) file_system in
   r = -1 /\ last_error (cur_proc s') = ERR_EXIST) /\
  (let '(s', r) := abi_unlink (Some (bs "g")) file_system in
   r = -1 /\ last_error (cur_proc s') = ERR_NOENT).
Proof.
  assert (Hr : running file_system) by (unfold running; vm_compute; lia). split.
  - destruct (directory_calls_report demo_clock demo_clock_ok file_system (Some (bs "f")) None disk_f_dir Hr) as [H _].
    destruct (abi_mkdir demo_clock (Some (bs "f")) file_system) as [s' r].
    assert (El : pfs_lookup (disk_header disk_f) (bs "f") <> None) by exact disk_f_lookup.
    destruct H as [e H1 H2 H3 _|_ _ _ (name & c & now & E1 & _ & E2 & _)].
    + split; [exact H1|]. rewrite H2. unfold mkdir_refused in H3. change (path_name _ _) with (Some (bs "f")) in H3.
      cbv zeta in H3. change (sys_disk file_system) with disk_f in H3.
      change (pfs_parent_exists (disk_header disk_f) (bs "f")) with true in H3. cbn [negb] in H3.
      destruct (pfs_lookup (disk_header disk_f) (bs "f")); [exact H3|by destruct El].
    + exfalso. injection E1 as <-. exact (El E2).
  - destruct (directory_calls_report demo_clock demo_clock_ok file_system (Some (bs "g")) None disk_f_dir Hr) as (_ & H & _).
    destruct (abi_unlink (Some (bs "g")) file_system) as [s' r].
    destruct H as [e H1 H2 H3 _|_ _ _ (name & E1 & E2 & _)].
    + split; [exact H1|]. rewrite H2. unfold unlink_refused in H3. change (path_name _ _) with (Some (bs "g")) in H3.
      pose proof disk_f_no_g as El. change disk_f with (sys_disk file_system) in El. cbv zeta in H3.
      destruct (pfs_lookup (disk_header (sys_disk file_system)) (bs "g")); [discriminate El|exact H3].
    + exfalso. injection E1 as <-. exact (E2 disk_f_no_g).
Defined.
