(* ===== verification/AbiProc.v ===== *)
(** * The program interface: environment, memory and time

    The handlers of [src/kernel/src/main.rs] over the caller's environment
    ([abi_env_*]), its memory windows ([abi_mem_*]), the clock ([abi_time_*])
    and the console size. *)

From S2P Require Import Prelude Constants Text PfsPath PfsLayout Device Pfs Console BootFs Phys.
From S2P Require Import Paging Process Env Fd Abi.

Section AbiProc.

Context {D : Type} `{SectorDev D} (clk : Clock).

(** ** Environment *)

Definition abi_env_get (key : option bytes) (value_len : option Z) : ST (Sys D) (Z * bytes) :=
  match checked_app_slice key with
  | None => let* e := set_app_error ERR_INVAL in st_ret (e, [])
  | Some key =>
      let* v := get (fun s => env_lookup key (env (cur_proc s))) in
      match v with
      | None => let* e := set_app_error ERR_NOENT in st_ret (e, [])
      | Some value =>
          do! clear_app_error in
          match value_len with
          | None => st_ret (blen value, [])
          | Some n =>
              if n =? 0 then st_ret (blen value, [])
              else
                let copy_len := Z.min n (blen value) in
                st_ret (copy_len, take (Z.to_nat copy_len) value)
          end
      end
  end.

Definition abi_env_list (index : nat) (key_len value_len : option Z)
  : ST (Sys D) (Z * (bytes * bytes)) :=
  match key_len, value_len with
  | Some key_len, Some value_len =>
      let* r := get (fun s => env_list_entry index (env (cur_proc s))) in
      match r with
      | None => let* e := set_app_error ERR_NOENT in st_ret (e, ([], []))
      | Some (key, value) =>
          let key_copy := Z.min key_len (blen key) in
          let value_copy := Z.min value_len (blen value) in
          do! clear_app_error in
          st_ret (Z.lor (Z.shiftl key_copy 32) value_copy,
                  (take (Z.to_nat key_copy) key, take (Z.to_nat value_copy) value))
      end
  | _, _ => let* e := set_app_error ERR_INVAL in st_ret (e, ([], []))
  end.

(** [env_set_overlay] on the current process, with its error reporting. *)
Definition set_overlay (key value : bytes) (deleted : bool) : ST (Sys D) Z := fun s =>
  match env_set_overlay key value deleted (env (cur_proc s)) with
  | inl error => set_app_error error s
  | inr e => ok_code 0 (update_cur (fun p => {| p with env := e |}) s)
  end.

Definition abi_env_set (key value : option bytes) : ST (Sys D) Z :=
  match checked_app_slice key, checked_app_slice value with
  | Some key, Some value => set_overlay key value false
  | _, _ => set_app_error ERR_INVAL
  end.

Definition abi_env_remove (key : option bytes) : ST (Sys D) Z :=
  match checked_app_slice key with
  | None => set_app_error ERR_INVAL
  | Some key => set_overlay key [] true
  end.

(** ** Memory windows *)

(** The tail both allocation handlers share: record the mapping, map its pages,
    forget it again when they cannot be mapped. *)
Definition track_and_map (index : nat) (pml4 base pages : Z) : ST Kernel Z := fun k =>
  let '(k, tracked) := process_track_mapping index base pages k in
  if negb tracked then (k, 0)
  else
    let '(k, mapped) := lift_vm (map_user_pages pml4 base pages) k in
    if negb mapped then
      let '(k, _) := process_untrack_mapping index base pages k in (k, 0)
    else (k, base).

(** The bump of a window: [checked_mul], [checked_add], the limit. *)
Definition window_next (next_ limit pages : Z) : option Z :=
  match checked64 (pages * PAGE_SIZE) with
  | None => None
  | Some size =>
      match checked64 (next_ + size) with
      | None => None
      | Some n => if limit <? n then None else Some n
      end
  end.

Definition mem_alloc_pages (page_count : Z) : ST Kernel Z := fun k =>
  if (page_count =? 0) || (USER_HEAP_MAX_PAGES_PER_CALL <? page_count) then (k, 0)
  else
    let '(k, r) := lift_vm ensure_kernel_pml4 k in
    match r with
    | None => (k, 0)
    | Some pml4 =>
        let index := CURRENT_PROCESS_INDEX k in
        let p := proc k index in
        if (heap_base p =? 0) || (heap_next p =? 0) || (heap_limit p =? 0) then (k, 0)
        else
          match window_next (heap_next p) (heap_limit p) page_count with
          | None => (k, 0)
          | Some n =>
              let k := update_proc index (fun p => {| p with heap_next := n |}) k in
              track_and_map index pml4 (heap_next p) page_count k
          end
    end.

Definition mem_map_pages (page_count flags : Z) : ST Kernel Z := fun k =>
  if (page_count =? 0) || (USER_MMAP_MAX_PAGES_PER_CALL <? page_count) then (k, 0)
  else if negb (Z.ldiff flags MEM_MAP_GUARD =? 0) then (k, 0)
  else
    let '(k, r) := lift_vm ensure_kernel_pml4 k in
    match r with
    | None => (k, 0)
    | Some pml4 =>
        let index := CURRENT_PROCESS_INDEX k in
        let guard := negb (Z.land flags MEM_MAP_GUARD =? 0) in
        match checked64 (page_count + if guard then 2 else 0) with
        | None => (k, 0)
        | Some total_pages =>
            let p := proc k index in
            if (mmap_next p =? 0) || (mmap_limit p =? 0) then (k, 0)
            else
              match window_next (mmap_next p) (mmap_limit p) total_pages with
              | None => (k, 0)
              | Some n =>
                  let base := if guard then mmap_next p + PAGE_SIZE else mmap_next p in
                  let k := update_proc index (fun p => {| p with mmap_next := n |}) k in
                  track_and_map index pml4 base page_count k
              end
        end
    end.

Definition mem_unmap_pages (address page_count : Z) : ST Kernel Z := fun k =>
  if (address =? 0) || (page_count =? 0) || (USER_MMAP_MAX_PAGES_PER_CALL <? page_count)
     || negb (Z.land address (PAGE_SIZE - 1) =? 0) then (k, -1)
  else
    let '(k, found) := process_untrack_mapping (CURRENT_PROCESS_INDEX k) address page_count k in
    if negb found then (k, -1)
    else
      let '(k, _) := lift_vm (fun v => unmap_user_pages (KERNEL_PML4_PHYS v) address page_count v) k in
      (k, 0).

Definition abi_mem_alloc_pages (page_count : Z) : ST (Sys D) Z := on_kern (mem_alloc_pages page_count).

Definition abi_mem_map_pages (page_count flags : Z) : ST (Sys D) Z :=
  on_kern (mem_map_pages page_count flags).

Definition abi_mem_unmap_pages (address page_count : Z) : ST (Sys D) Z :=
  on_kern (mem_unmap_pages address page_count).

(** ** Time and console size *)

Definition abi_time_ticks : ST (Sys D) Z := on_disk (ns_since_boot clk).

Definition abi_time_unix_nanos : ST (Sys D) Z := on_disk (unix_nanos_now clk).

(** The busy wait of [abi_sleep_nanos], for at most [fuel] clock readings. *)
Fixpoint sleep_from (fuel : nat) (start nanos : Z) : ST D bool :=
  match fuel with
  | O => st_ret false
  | S fuel =>
      let* now := ns_since_boot clk in
      if saturating_sub now start <? nanos then sleep_from fuel start nanos else st_ret true
  end.

Definition abi_sleep_nanos (fuel : nat) (nanos : Z) : ST (Sys D) bool :=
  on_disk (let* start := ns_since_boot clk in sleep_from fuel start nanos).

Definition abi_term_size (ptrs_ok : bool) : ST (Sys D) (Z * option (Z * Z)) := fun s =>
  let fail := let '(s, e) := set_app_error ERR_INVAL s in (s, (e, None)) in
  if negb ptrs_ok then fail
  else
    match APP_CONSOLE s with
    | None => fail
    | Some c => let '(s, _) := clear_app_error s in (s, (0, Some (rows c, cols c)))
    end.

End AbiProc.
