(* ===== verification/MemWin.v ===== *)
(** * The memory windows of a process

    What the memory handlers of AbiProc promise: every mapping lies in the
    process's own heap or mapping window, mappings never overlap, neither inside
    a process nor between two processes, and a failed call maps nothing. *)

From S2P Require Import Prelude Constants Text Phys Paging Process Env Fd Abi AbiProc.

Definition m_end (m : ProcessMapping) : Z := m_virt m + m_pages m * PAGE_SIZE.

(** Two mappings have no address in common. *)
Definition separate (m n : ProcessMapping) : Prop := m_end m <= m_virt n \/ m_end n <= m_virt m.

Fixpoint apart (l : list ProcessMapping) : Prop :=
  match l with
  | [] => True
  | m :: rest => Forall (separate m) rest /\ apart rest
  end.

Definition placed (lo hi : Z) (m : ProcessMapping) : Prop := lo <= m_virt m /\ m_end m <= hi.

(** Where mapping [m] of process [p] may lie: below one of the bump pointers. *)
Definition in_window (p : Process) (m : ProcessMapping) : Prop :=
  0 < m_pages m /\ m_virt m mod PAGE_SIZE = 0 /\
  (placed (heap_base p) (heap_next p) m \/ placed (mmap_window (pid p)) (mmap_next p) m).

(** Pids below this have windows of their own. *)
Definition pid_limit : Z := 16384.

Record windows_ok (p : Process) : Prop := {
  wo_pid : 0 <= pid p < pid_limit;
  wo_heap : heap_base p = heap_window (pid p) /\ heap_limit p = heap_base p + USER_HEAP_STRIDE;
  wo_mmap : mmap_limit p = mmap_window (pid p) + USER_MMAP_SIZE;
  wo_next : heap_base p <= heap_next p <= heap_limit p /\ heap_next p mod PAGE_SIZE = 0;
  wo_mnext : mmap_window (pid p) <= mmap_next p <= mmap_limit p /\ mmap_next p mod PAGE_SIZE = 0;
  wo_slots : length (mappings p) = PROCESS_MAPPING_MAX;
  wo_in : Forall (in_window p) (used_mappings p);
  wo_apart : apart (used_mappings p)
}.

(** ** Windows *)

Ltac win_const :=
  unfold PAGE_SIZE, USER_HEAP_STRIDE, USER_MMAP_STRIDE, USER_MMAP_SIZE, USER_HEAP_BASE, USER_MMAP_BASE,
    USER_HEAP_MAX_PAGES_PER_CALL, USER_MMAP_MAX_PAGES_PER_CALL, pid_limit in *.

Lemma heap_window_eq p : 0 <= p < pid_limit -> heap_window p = USER_HEAP_BASE + p * USER_HEAP_STRIDE.
Proof. intros Hp. unfold heap_window. apply u64_small. unfold is_u64. win_const. lia. Qed.

Lemma mmap_window_eq p : 0 <= p < pid_limit -> mmap_window p = USER_MMAP_BASE + p * USER_MMAP_STRIDE.
Proof. intros Hp. unfold mmap_window. apply u64_small. unfold is_u64. win_const. lia. Qed.

Lemma separate_sym m n : separate m n -> separate n m.
Proof. unfold separate. tauto. Qed.

Lemma apart_perm l l' : l ≡ₚ l' -> apart l -> apart l'.
Proof.
  induction 1 as [|m l l' H IH|m n l|l l' l'' _ IH1 _ IH2]; simpl; try tauto.
  - intros [Hm Ha]. split; [by rewrite <- H|by apply IH].
  - rewrite !Forall_cons. intros ([Hs Hn] & Hm & Ha). apply separate_sym in Hs. done.
Qed.

(** A mapping that is placed above everything in one window and away from the
    other is apart from every mapping there is. *)
Lemma fresh_separate p m :
  windows_ok p ->
  (heap_next p <= m_virt m /\ m_end m <= heap_limit p) \/ (mmap_next p <= m_virt m /\ m_end m <= mmap_limit p) ->
  Forall (separate m) (used_mappings p).
Proof.
  intros W Hm. eapply Forall_impl; [apply (wo_in p W)|]. intros n (Hn & _ & Hpl).
  destruct W as [Hp [Hb Hl] Hml [Hnx _] [Hmn _] _ _ _].
  rewrite mmap_window_eq in * by done. rewrite heap_window_eq in * by done.
  unfold separate, placed, m_end in *. win_const. lia.
Qed.

(** ** Only the mapping table of one process changes *)

Definition with_mappings (l : list ProcessMapping) (p : Process) : Process :=
  {| p with mappings := l |}.

Record frame (i : nat) (k k' : Kernel) : Prop := {
  fr_sized : table_sized k';
  fr_cur : CURRENT_PROCESS_INDEX k' = CURRENT_PROCESS_INDEX k;
  fr_other : forall j, j <> i -> proc k' j = proc k j
}.

Lemma frame_refl i k : table_sized k -> frame i k k.
Proof. done. Qed.

Lemma frame_trans i k1 k2 k3 : frame i k1 k2 -> frame i k2 k3 -> frame i k1 k3.
Proof.
  intros [S1 C1 O1] [S2 C2 O2]. split; [done|congruence|].
  intros j Hj. by rewrite O2, O1.
Qed.

Lemma frame_update i k f : table_sized k -> (i < PROCESS_COUNT)%nat -> frame i k (update_proc i f k).
Proof.
  intros Hs Hi. split; [by apply update_sized|done|].
  intros j Hj. by rewrite proc_update, decide_False by (done || lia).
Qed.

Lemma frame_vm {A} (m : ST Vm A) i k :
  table_sized k -> frame i k (fst (lift_vm m k)) /\ proc (fst (lift_vm m k)) i = proc k i.
Proof. intros Hs. unfold lift_vm. by destruct (m (vm k)). Qed.

Lemma track_frame i virt pages k :
  table_sized k -> (i < PROCESS_COUNT)%nat ->
  let k' := fst (process_track_mapping i virt pages k) in
  frame i k k' /\ proc k' i = with_mappings (mappings (proc k' i)) (proc k i).
Proof.
  intros Hs Hi. unfold process_track_mapping.
  destruct (Nat.leb_spec PROCESS_COUNT i); [lia|]. destruct (find_first _ _) as [j|]; simpl.
  - split; [by apply frame_update|]. by rewrite proc_update, decide_True by (done || lia).
  - split; [by apply frame_refl|]. by destruct (proc k i).
Qed.

Lemma untrack_frame i virt pages k :
  table_sized k -> (i < PROCESS_COUNT)%nat ->
  let k' := fst (process_untrack_mapping i virt pages k) in
  frame i k k' /\ proc k' i = with_mappings (mappings (proc k' i)) (proc k i).
Proof.
  intros Hs Hi. unfold process_untrack_mapping.
  destruct (Nat.leb_spec PROCESS_COUNT i); [lia|]. destruct (find_first _ _) as [j|]; simpl.
  - split; [by apply frame_update|]. by rewrite proc_update, decide_True by (done || lia).
  - split; [by apply frame_refl|]. by destruct (proc k i).
Qed.

Lemma with_mappings_ok l p :
  windows_ok p -> length l = PROCESS_MAPPING_MAX ->
  Forall (in_window p) (used_mappings (with_mappings l p)) -> apart (used_mappings (with_mappings l p)) ->
  windows_ok (with_mappings l p).
Proof. intros [] ???. by split. Qed.

(** The window invariant after a mapping was added or removed. *)
Lemma added_ok p p' m :
  windows_ok p -> p' = with_mappings (mappings p') p -> length (mappings p') = PROCESS_MAPPING_MAX ->
  used_mappings p' ≡ₚ m :: used_mappings p -> in_window p m -> Forall (separate m) (used_mappings p) ->
  windows_ok p'.
Proof.
  intros W E Hl Hp Hin Hs. rewrite E. apply with_mappings_ok; [done|done|rewrite <- E..].
  - rewrite Hp. constructor; [done|apply (wo_in p W)].
  - eapply apart_perm; [by symmetry|]. split; [done|apply (wo_apart p W)].
Qed.

Lemma removed_ok p p' m :
  windows_ok p -> p' = with_mappings (mappings p') p -> length (mappings p') = PROCESS_MAPPING_MAX ->
  used_mappings p ≡ₚ m :: used_mappings p' -> windows_ok p'.
Proof.
  intros W E Hl Hp. rewrite E. apply with_mappings_ok; [done|done|rewrite <- E..].
  - pose proof (wo_in p W) as H. rewrite Hp in H. by inversion H.
  - pose proof (apart_perm _ _ Hp (wo_apart p W)) as [_ H]. done.
Qed.

(** ** The calls *)

Lemma track_and_map_spec i pml4 base n k :
  table_sized k -> (i < PROCESS_COUNT)%nat -> windows_ok (proc k i) -> base <> 0 ->
  in_window (proc k i) (mkMapping true base n) ->
  Forall (separate (mkMapping true base n)) (used_mappings (proc k i)) ->
  let '(k', r) := track_and_map i pml4 base n k in
  frame i k k' /\ windows_ok (proc k' i) /\
  ((r = 0 /\ used_mappings (proc k' i) ≡ₚ used_mappings (proc k i)) \/
   (r = base /\ used_mappings (proc k' i) ≡ₚ mkMapping true base n :: used_mappings (proc k i))).
Proof.
  intros Hs Hi W Hb Hin Hsep. unfold track_and_map.
  pose proof (track_spec k i base n Hs Hi (wo_slots _ W)) as T.
  pose proof (track_frame i base n k Hs Hi) as [F E].
  destruct (process_track_mapping i base n k) as [k1 ok]. simpl in F, E.
  destruct ok; simpl; [|destruct T as [-> _]; split_and!; [done|done|by left]].
  destruct T as [Hp Hl]. pose proof (added_ok _ _ _ W E Hl Hp Hin Hsep) as W1.
  destruct (frame_vm (map_user_pages pml4 base n) i k1 (fr_sized _ _ _ F)) as [F2 E2].
  destruct (lift_vm (map_user_pages pml4 base n) k1) as [k2 mapped]. simpl in F2, E2.
  destruct mapped; simpl.
  { rewrite E2. split_and!; [by eapply frame_trans|done|by right]. }
  pose proof (untrack_spec k2 i base n (fr_sized _ _ _ F2) Hi) as U.
  rewrite E2 in U. specialize (U Hl).
  pose proof (untrack_frame i base n k2 (fr_sized _ _ _ F2) Hi) as [F3 E3].
  destruct (process_untrack_mapping i base n k2) as [k3 ok]. simpl in F3, E3. rewrite E2 in E3.
  assert (F' : frame i k k3) by (eapply frame_trans; [done|by eapply frame_trans]).
  destruct ok; simpl.
  - destruct U as [Hu Hl3]. split_and!; [done|by eapply removed_ok|left; split; [done|]].
    rewrite Hp in Hu. symmetry in Hu. by apply Permutation_cons_inv in Hu.
  - destruct U as [_ Hu]. exfalso. apply Hu. rewrite Hp. by left.
Qed.

(** The checked bump is the sum, within the limit. *)
Lemma window_next_some nx limit pages n :
  window_next nx limit pages = Some n -> n = nx + pages * PAGE_SIZE /\ n <= limit.
Proof.
  unfold window_next, checked64.
  destruct (pages * PAGE_SIZE <? _); [|done]. destruct (nx + pages * PAGE_SIZE <? _); [|done].
  destruct (Z.ltb_spec limit (nx + pages * PAGE_SIZE)); [done|]. intros [= <-]. done.
Qed.

Lemma aligned_step x pages : x mod PAGE_SIZE = 0 -> (x + pages * PAGE_SIZE) mod PAGE_SIZE = 0.
Proof. intros Hx. win_const. by rewrite Z_mod_plus_full. Qed.

Lemma bumped_heap_ok p n :
  windows_ok p -> heap_next p <= n <= heap_limit p -> n mod PAGE_SIZE = 0 ->
  windows_ok {| p with heap_next := n |}.
Proof.
  intros [? ? ? [? ?] ? ? Hin ?] Hn Ha. split; simpl; try done; [lia|].
  eapply Forall_impl; [exact Hin|]. intros m (? & ? & Hpl). unfold in_window, placed in *. simpl. lia.
Qed.

Lemma bumped_mmap_ok p n :
  windows_ok p -> mmap_next p <= n <= mmap_limit p -> n mod PAGE_SIZE = 0 ->
  windows_ok {| p with mmap_next := n |}.
Proof.
  intros [? ? ? ? [? ?] ? Hin ?] Hn Ha. split; simpl; try done; [lia|].
  eapply Forall_impl; [exact Hin|]. intros m (? & ? & Hpl). unfold in_window, placed in *. simpl. lia.
Qed.

(** What an allocating call does to the current process: nothing it can see when
    it answers 0, one new mapping at the answered address otherwise. *)
Definition alloc_post (n : Z) (k k' : Kernel) (r : Z) : Prop :=
  let i := CURRENT_PROCESS_INDEX k in
  frame i k k' /\ windows_ok (proc k' i) /\
  ((r = 0 /\ used_mappings (proc k' i) ≡ₚ used_mappings (proc k i)) \/
   (r <> 0 /\ used_mappings (proc k' i) ≡ₚ mkMapping true r n :: used_mappings (proc k i))).

Lemma alloc_none n k k' :
  frame (CURRENT_PROCESS_INDEX k) k k' -> windows_ok (proc k (CURRENT_PROCESS_INDEX k)) ->
  proc k' (CURRENT_PROCESS_INDEX k) = proc k (CURRENT_PROCESS_INDEX k) -> alloc_post n k k' 0.
Proof. intros F W E. unfold alloc_post. rewrite E. split_and!; [done|done|by left]. Qed.

(** The last part of both allocating calls, after the checks have passed. *)
Lemma bump_and_map_post (f : Process -> Process) pml4 base n k k1 :
  let i := CURRENT_PROCESS_INDEX k in
  (i < PROCESS_COUNT)%nat -> frame i k k1 -> proc k1 i = proc k i -> 0 < n ->
  windows_ok (proc k i) -> windows_ok (f (proc k i)) ->
  used_mappings (f (proc k i)) = used_mappings (proc k i) -> base <> 0 ->
  in_window (f (proc k i)) (mkMapping true base n) ->
  Forall (separate (mkMapping true base n)) (used_mappings (proc k i)) ->
  let '(k', r) := track_and_map i pml4 base n (update_proc i f k1) in alloc_post n k k' r.
Proof.
  intros i Hi F E Hn W Wf Hu Hb Hin Hsep.
  pose proof (frame_update i k1 f (fr_sized _ _ _ F) Hi) as F2.
  assert (E2 : proc (update_proc i f k1) i = f (proc k i)).
  { rewrite proc_update, decide_True by (done || lia || apply (fr_sized _ _ _ F)). by rewrite E. }
  pose proof (track_and_map_spec i pml4 base n _ (fr_sized _ _ _ F2) Hi) as T.
  rewrite E2, Hu in T. specialize (T Wf Hb Hin Hsep).
  destruct (track_and_map i pml4 base n (update_proc i f k1)) as [k' r].
  destruct T as (F3 & W3 & H). split_and!.
  - eapply frame_trans; [done|by eapply frame_trans].
  - done.
  - destruct H as [[-> H]|[-> H]]; [by left|by right].
Qed.

Lemma mem_alloc_post n k :
  let i := CURRENT_PROCESS_INDEX k in
  table_sized k -> (i < PROCESS_COUNT)%nat -> windows_ok (proc k (CURRENT_PROCESS_INDEX k)) -> 0 <= n ->
  let '(k', r) := mem_alloc_pages n k in alloc_post n k k' r.
Proof.
  intros i Hs Hi W Hn. subst i. unfold mem_alloc_pages.
  destruct ((n =? 0) || (USER_HEAP_MAX_PAGES_PER_CALL <? n)) eqn:En; [by apply alloc_none|].
  destruct (frame_vm ensure_kernel_pml4 (CURRENT_PROCESS_INDEX k) k Hs) as [F E].
  destruct (lift_vm ensure_kernel_pml4 k) as [k1 [pml4|]]; simpl in F, E; [|by apply alloc_none].
  rewrite (fr_cur _ _ _ F). rewrite E.
  destruct ((heap_base (proc k (CURRENT_PROCESS_INDEX k)) =? 0) || _ || _) eqn:Ez; [by apply alloc_none|].
  destruct (window_next _ _ _) as [nx|] eqn:Ew; [|by apply alloc_none].
  apply window_next_some in Ew as [-> Hlim]. pose proof (wo_next _ W) as [Hr Ha].
  assert (Hpos : 0 < n * PAGE_SIZE) by (apply orb_false_iff in En as [En _]; win_const; lia).
  apply (bump_and_map_post (fun p => {| p with heap_next := heap_next (proc k (CURRENT_PROCESS_INDEX k)) + n * PAGE_SIZE |}));
    try done; try lia.
  - apply bumped_heap_ok; [done|lia|by apply aligned_step].
  - split; [simpl; lia|]. split; [done|]. left. unfold placed, m_end. simpl. lia.
  - apply fresh_separate; [done|]. left. unfold m_end. simpl. lia.
Qed.

Lemma mem_map_post n flags k :
  let i := CURRENT_PROCESS_INDEX k in
  table_sized k -> (i < PROCESS_COUNT)%nat -> windows_ok (proc k (CURRENT_PROCESS_INDEX k)) -> 0 <= n ->
  let '(k', r) := mem_map_pages n flags k in alloc_post n k k' r.
Proof.
  intros i Hs Hi W Hn. subst i. unfold mem_map_pages.
  destruct ((n =? 0) || _) eqn:En; [by apply alloc_none|].
  destruct (negb _); [by apply alloc_none|].
  destruct (frame_vm ensure_kernel_pml4 (CURRENT_PROCESS_INDEX k) k Hs) as [F E].
  destruct (lift_vm ensure_kernel_pml4 k) as [k1 [pml4|]]; simpl in F, E; [|by apply alloc_none].
  rewrite (fr_cur _ _ _ F). rewrite E.
  set (guard := negb (Z.land flags MEM_MAP_GUARD =? 0)).
  unfold checked64 at 1. destruct (n + (if guard then 2 else 0) <? _); [|by apply alloc_none].
  destruct ((mmap_next (proc k (CURRENT_PROCESS_INDEX k)) =? 0) || _) eqn:Ez; [by apply alloc_none|].
  destruct (window_next _ _ _) as [nx|] eqn:Ew; [|by apply alloc_none].
  apply window_next_some in Ew as [-> Hlim]. pose proof (wo_mnext _ W) as [Hr Ha].
  set (total := n + (if guard then 2 else 0)) in *.
  set (base := if guard then mmap_next (proc k (CURRENT_PROCESS_INDEX k)) + PAGE_SIZE else mmap_next (proc k (CURRENT_PROCESS_INDEX k))).
  assert (Hb : mmap_next (proc k (CURRENT_PROCESS_INDEX k)) <= base /\ base + n * PAGE_SIZE <= mmap_next (proc k (CURRENT_PROCESS_INDEX k)) + total * PAGE_SIZE
               /\ base mod PAGE_SIZE = 0).
  { subst base total. destruct guard.
    - pose proof (aligned_step _ 1 Ha) as Hx. rewrite Z.mul_1_l in Hx. split_and!; [win_const; lia..|done].
    - rewrite Z.add_0_r. split_and!; [lia|lia|done]. }
  assert (Hpos : 0 < n * PAGE_SIZE) by (apply orb_false_iff in En as [En _]; win_const; lia). destruct Hb as (Hb1 & Hb2 & Hb3).
  apply (bump_and_map_post (fun p => {| p with mmap_next := mmap_next (proc k (CURRENT_PROCESS_INDEX k)) + total * PAGE_SIZE |}));
    try done; try lia.
  - apply bumped_mmap_ok; [done|lia|by apply aligned_step].
  - pose proof (wo_pid _ W) as Hpid. rewrite mmap_window_eq in Hr by done. win_const. lia.
  - split; [simpl; lia|]. split; [done|]. right. unfold placed, m_end. simpl. lia.
  - apply fresh_separate; [done|]. right. unfold m_end. simpl. lia.
Qed.

Lemma mem_unmap_post address n k :
  let i := CURRENT_PROCESS_INDEX k in
  table_sized k -> (i < PROCESS_COUNT)%nat -> windows_ok (proc k i) ->
  let '(k', r) := mem_unmap_pages address n k in
  frame i k k' /\ windows_ok (proc k' i) /\
  ((r = -1 /\ used_mappings (proc k' i) = used_mappings (proc k i)) \/
   (r = 0 /\ used_mappings (proc k i) ≡ₚ mkMapping true address n :: used_mappings (proc k' i))).
Proof.
  intros i Hs Hi W. unfold mem_unmap_pages.
  destruct (_ || _); [split_and!; [done|done|by left]|]. fold i.
  pose proof (untrack_spec k i address n Hs Hi (wo_slots _ W)) as U.
  pose proof (untrack_frame i address n k Hs Hi) as [F E].
  destruct (process_untrack_mapping i address n k) as [k1 ok]. simpl in F, E.
  destruct ok; simpl; [|destruct U as [-> _]; split_and!; [done|done|by left]].
  destruct U as [Hp Hl].
  destruct (frame_vm (fun v => unmap_user_pages (KERNEL_PML4_PHYS v) address n v) i k1 (fr_sized _ _ _ F))
    as [F2 E2].
  destruct (lift_vm _ k1) as [k2 m]. simpl in F2, E2. rewrite E2.
  split_and!; [by eapply frame_trans|by eapply removed_ok|by right].
Qed.

(** ** Setting up the windows *)

(** A process that has no mappings yet gets its own two windows. *)
Lemma set_window_ok k i :
  table_sized k -> (i < PROCESS_COUNT)%nat ->
  0 <= pid (proc k i) < pid_limit -> heap_base (proc k i) = 0 ->
  length (mappings (proc k i)) = PROCESS_MAPPING_MAX -> used_mappings (proc k i) = [] ->
  windows_ok (proc (app_set_heap_window i (pid (proc k i)) k) i).
Proof.
  intros Hs Hi Hp Hb Hl Hu. unfold app_set_heap_window. destruct (Nat.leb_spec i PROCESS_COUNT); [|lia].
  rewrite proc_update, decide_True by (done || lia). rewrite Hb. simpl.
  assert (E1 : u64 (heap_window (pid (proc k i)) + USER_HEAP_STRIDE)
               = heap_window (pid (proc k i)) + USER_HEAP_STRIDE).
  { apply u64_small. unfold is_u64. rewrite heap_window_eq by done. win_const. lia. }
  assert (E2 : u64 (mmap_window (pid (proc k i)) + USER_MMAP_SIZE)
               = mmap_window (pid (proc k i)) + USER_MMAP_SIZE).
  { apply u64_small. unfold is_u64. rewrite mmap_window_eq by done. win_const. lia. }
  split; simpl; rewrite ?E1, ?E2; try done; unfold used_mappings in *; simpl; rewrite ?Hu; try done.
  - split; [win_const; lia|]. rewrite heap_window_eq by done. win_const. zlia.
  - split; [win_const; lia|]. rewrite mmap_window_eq by done. win_const. zlia.
Qed.

Lemma other_window_separate p q m n :
  windows_ok p -> windows_ok q -> pid p <> pid q ->
  in_window p m -> in_window q n -> separate m n.
Proof.
  intros [Hp [Hpb Hpl] Hpm [Hpn _] [Hpx _] _ _ _] [Hq [Hqb Hql] Hqm [Hqn _] [Hqx _] _ _ _] Hne
    (_ & _ & Hm) (_ & _ & Hn).
  rewrite mmap_window_eq in * by done. rewrite heap_window_eq in * by done.
  unfold separate, placed in *. win_const. lia.
Qed.

(** Past [pid_limit] the mapping windows run into the kernel's stacks. *)
Lemma window_of_pid_limit_is_stack : mmap_window pid_limit = stack_window 0.
Proof. reflexivity. Qed.

(** ** Properties *)

Inductive MemCall : Type :=
  | MemAlloc (page_count : Z)
  | MemMap (page_count flags : Z)
  | MemUnmap (address page_count : Z).

Definition mem_call (c : MemCall) : ST Kernel Z :=
  match c with
  | MemAlloc n => mem_alloc_pages n
  | MemMap n flags => mem_map_pages n flags
  | MemUnmap a n => mem_unmap_pages a n
  end.

Definition call_pages (c : MemCall) : Z :=
  match c with MemAlloc n | MemMap n _ | MemUnmap _ n => n end.

(** Every memory call keeps the window invariant of the calling process (its
    mappings lie inside its own windows, below the bump pointers, and never
    overlap) and touches no other process. A call that fails leaves the set of
    mappings as it was; a successful allocation adds exactly one mapping of the
    requested size at the address it returns; a successful unmap removes exactly
    the mapping it names. *)
Theorem memory_calls_keep_windows c k :
  let i := CURRENT_PROCESS_INDEX k in
  table_sized k -> (i < PROCESS_COUNT)%nat -> windows_ok (proc k i) -> 0 <= call_pages c ->
  let '(k', r) := mem_call c k in
  let used := used_mappings (proc k i) in
  let used' := used_mappings (proc k' i) in
  windows_ok (proc k' i) /\ (forall j, j <> i -> proc k' j = proc k j) /\
  match c with
  | MemAlloc n | MemMap n _ =>
      (r = 0 /\ used' ≡ₚ used) \/ (r <> 0 /\ used' ≡ₚ mkMapping true r n :: used)
  | MemUnmap a n =>
      (r = -1 /\ used' = used) \/ (r = 0 /\ used ≡ₚ mkMapping true a n :: used')
  end.
Proof.
  intros i Hs Hi W Hn. destruct c as [n|n flags|a n]; simpl in Hn |- *.
  - pose proof (mem_alloc_post n k Hs Hi W Hn) as H. destruct (mem_alloc_pages n k) as [k' r].
    destruct H as (F & W' & H). split_and!; [done|apply (fr_other _ _ _ F)|done].
  - pose proof (mem_map_post n flags k Hs Hi W Hn) as H. destruct (mem_map_pages n flags k) as [k' r].
    destruct H as (F & W' & H). split_and!; [done|apply (fr_other _ _ _ F)|done].
  - pose proof (mem_unmap_post a n k Hs Hi W) as H. destruct (mem_unmap_pages a n k) as [k' r].
    destruct H as (F & W' & H). split_and!; [done|apply (fr_other _ _ _ F)|done].
Qed.

(** [app_set_heap_window] gives a new process with a pid below [pid_limit] the
    window invariant, and mappings of two processes with different pids that
    satisfy it never overlap. *)
Theorem processes_share_no_mapping k i j m n :
  table_sized k -> (i < PROCESS_COUNT)%nat ->
  0 <= pid (proc k i) < pid_limit -> heap_base (proc k i) = 0 ->
  length (mappings (proc k i)) = PROCESS_MAPPING_MAX -> used_mappings (proc k i) = [] ->
  let k' := app_set_heap_window i (pid (proc k i)) k in
  windows_ok (proc k' i) /\
  (j <> i -> windows_ok (proc k j) -> windows_ok (proc k' j)) /\
  (forall p q, windows_ok p -> windows_ok q -> pid p <> pid q ->
     m ∈ used_mappings p -> n ∈ used_mappings q -> separate m n).
Proof.
  intros Hs Hi Hp Hb Hl Hu k'. split_and!.
  - by apply set_window_ok.
  - intros Hj W. subst k'. unfold app_set_heap_window. destruct (Nat.leb_spec i PROCESS_COUNT); [|lia].
    by rewrite proc_update, decide_False by (done || lia).
  - intros p q Wp Wq Hne Hm Hn. apply (other_window_separate p q); try done.
    + pose proof (wo_in p Wp) as H. rewrite Forall_forall in H. by apply H.
    + pose proof (wo_in q Wq) as H. rewrite Forall_forall in H. by apply H.
Qed.

(** Process 3 in slot 0, prepared and current, with some memory to hand out. *)
Definition window_kernel : Kernel :=
  let v := mkVm (add_range 0x10000 0x20000 phys_empty) zeroed 0x1000 0x1000 in
  let k := update_proc 0 (fun p => {| p with pid := 3 |}) (Kernel_new v) in
  let k := app_set_heap_window 0 3 k in
  {| k with CURRENT_PROCESS_INDEX := 0%nat |}.

Lemma window_kernel_ok : windows_ok (proc window_kernel 0).
Proof.
  pose proof (set_window_ok
    (update_proc 0 (fun p => {| p with pid := 3 |})
       (Kernel_new (mkVm (add_range 0x10000 0x20000 phys_empty) zeroed 0x1000 0x1000))) 0) as H.
  apply H; try reflexivity; [apply Nat.ltb_lt; reflexivity|].
  vm_compute. split; [discriminate|reflexivity].
Qed.

Lemma memory_calls_keep_windows_witness :
  used_mappings (proc (fst (mem_call (MemAlloc 2) window_kernel)) 0)
  ≡ₚ [mkMapping true (heap_window 3) 2].
Proof.
  pose proof (memory_calls_keep_windows (MemAlloc 2) window_kernel eq_refl
    (proj1 (Nat.ltb_lt 0 PROCESS_COUNT) eq_refl) window_kernel_ok ltac:(simpl; lia)) as H.
  assert (E : snd (mem_call (MemAlloc 2) window_kernel) = heap_window 3) by (vm_compute; reflexivity).
  destruct (mem_call (MemAlloc 2) window_kernel) as [k' r]. simpl in E. subst r.
  cbv zeta in H. destruct H as (_ & _ & [[E _]|[_ H]]); [discriminate E|]. exact H.
Defined.

Lemma processes_share_no_mapping_witness :
  windows_ok (proc (app_set_heap_window 4 0 demo_kernel) 4).
Proof.
  refine (proj1 (processes_share_no_mapping demo_kernel 4 0 ProcessMapping_empty ProcessMapping_empty
    eq_refl (proj1 (Nat.ltb_lt 4 PROCESS_COUNT) eq_refl) _ eq_refl eq_refl eq_refl)).
  vm_compute. split; [discriminate|reflexivity].
Defined.
