(* ===== verification/MapRun.v ===== *)
(** * Runs of pages

    What [map_user_pages] and [unmap_user_pages] of Paging.v do to the translation of
    PagingThm.v: mapping a run of pages is all or nothing, every page gets a zeroed
    frame of its own, and a page that cannot be mapped makes the loop give back the
    ones before it. *)

From S2P Require Import Prelude Constants Text Phys Paging PagingThm.

(** ** What does not concern a data page *)

Lemma leaf_set_data s root p t i v f :
  tables_wf s root -> valid_path p -> length p = 3%nat -> walk (vm_mem s) root p = Some t ->
  valid_index i -> data_page s root f ->
  data_page (set_entry_at t i v s) root f /\ same_page s (set_entry_at t i v s) f.
Proof.
  intros Hwf Hp Hlen Hw Hi [Hff Hu Ht]. destruct (tw_page _ _ Hwf p t Hp Hw) as [[Hpt _] _].
  assert (Hne : f <> t) by (intros ->; by apply (Ht p)). split; [split; [done|done|]|].
  - intros q Hq. rewrite (leaf_set_walk s root p) by done. by apply Ht.
  - intros k Hk. by rewrite set_entry_page by (done || apply Hff).
Qed.

(** What a change of the leaves keeps for a given page. *)
Definition keeps_page (root : Z) (s s' : Vm) (f : Z) : Prop :=
  data_page s root f -> data_page s' root f /\ same_page s s' f.

Lemma keeps_page_refl root s f : keeps_page root s s f.
Proof. intros H. by split. Qed.

Lemma keeps_page_trans root s1 s2 s3 f :
  keeps_page root s1 s2 f -> keeps_page root s2 s3 f -> keeps_page root s1 s3 f.
Proof.
  intros H1 H2 [D1 E1]%H1. destruct (H2 D1) as [D2 E2]. split; [done|].
  intros k Hk. by rewrite E2, E1.
Qed.

Lemma unmap_keeps_data s root virt :
  tables_wf s root -> page_aligned virt ->
  let s' := fst (unmap_page root virt s) in
  vm_cr3 s' = vm_cr3 s /\ KERNEL_PML4_PHYS s' = KERNEL_PML4_PHYS s /\ top_kept root s s' /\
  forall f, keeps_page root s s' f.
Proof.
  intros Hwf Ha. rewrite unmap_page_path, (root_nonzero s root Hwf), land_page_0 by done. cbn [orb negb].
  destruct (walk (vm_mem s) root (path_of virt)) as [pt|] eqn:W; [|by split_and!].
  cbv zeta. destruct (negb _); [by split_and!|]. destruct (path_of_valid virt) as [Hv Hi].
  split_and!; [done|done|by apply (leaf_set_top s root (path_of virt))|]. intros f Hf. cbn [fst]. by apply (leaf_set_data s root (path_of virt)).
Qed.

(** Returning a data page to the allocator. *)
Lemma free_data_page s root f :
  tables_wf s root -> data_page s root f ->
  let s' := fst (free_phys_page f s) in
  tables_wf s' root /\ vm_mem s' = vm_mem s /\ vm_cr3 s' = vm_cr3 s /\
  KERNEL_PML4_PHYS s' = KERNEL_PML4_PHYS s /\ forall g, g <> f -> keeps_page root s s' g.
Proof.
  intros Hwf [[Hfa Hfr] Hu Ht]. unfold free_phys_page.
  pose proof (free_spec _ f (tw_alloc _ _ Hwf) Hfr Hu) as F.
  destruct (free_page f (PHYS_ALLOCATOR s)) as [a [|]]; cbn [fst].
  - destruct F as (Wa & _ & Av). split_and!; try done.
    + split; [done| |apply (tw_inj _ _ Hwf)]. intros q t Hq Hw.
      destruct (tw_page _ _ Hwf q t Hq Hw) as [H1 H2]. split; [done|]. cbn [PHYS_ALLOCATOR].
      rewrite Av. intros [?| ->]; [done|by apply (Ht q)].
    + intros g Hne [G1 G2 G3]. split; [split; [done| |done]|done]. cbn [PHYS_ALLOCATOR].
      rewrite Av. by intros [?|?].
  - destruct F as [-> _]. split_and!; try done.
    + destruct Hwf as [W1 W2 W3]. by split.
    + intros g _ [G1 G2 G3]. split; [by split|done].
Qed.

(** ** Runs of page numbers *)

(** [base] starts [n] pages whose page numbers follow each other, in the upper half of
    the address space. *)
Definition high_run (base n : Z) : Prop :=
  page_aligned base /\ 0 <= n /\ 0xFFFF800000000000 <= base /\ base + n * PAGE_SIZE < 18446744073709551616.

Definition page_of (base i : Z) : Z := base + i * PAGE_SIZE.

Lemma page_of_u64 base n i : high_run base n -> 0 <= i < n -> u64 (base + i * PAGE_SIZE) = page_of base i.
Proof. intros (_ & Hn & Hb & Hl) Hi. apply u64_small. unfold is_u64, page_of, PAGE_SIZE in *. lia. Qed.

Lemma page_of_aligned base i : page_aligned base -> page_aligned (page_of base i).
Proof. unfold page_aligned, page_of, PAGE_SIZE. intros H. by rewrite Z_mod_plus_full. Qed.

Lemma vpn_high v : 0xFFFF800000000000 <= v < 18446744073709551616 -> vpn v = v / 4096 - 65535 * 68719476736.
Proof.
  intros Hv. unfold vpn. rewrite Z.land_ones by lia. rewrite Z.shiftr_div_pow2 by lia.
  change (2 ^ 36) with 68719476736. change (2 ^ 12) with 4096. zlia.
Qed.

Lemma vpn_page_of base n i : high_run base n -> 0 <= i < n -> vpn (page_of base i) = vpn base + i.
Proof.
  intros (Ha & Hn & Hb & Hl) Hi. unfold page_of, page_aligned, PAGE_SIZE in *.
  rewrite !vpn_high by lia. zlia.
Qed.

(** The frame of a page of a run, [d] outside the run. *)
Definition run_frame (base : Z) (fs : list Z) (w : Z) (d : option Z) : option Z :=
  if decide (vpn base <= vpn w < vpn base + Z.of_nat (length fs)) then fs !! Z.to_nat (vpn w - vpn base)
  else d.

Lemma run_frame_in base fs n i d :
  high_run base n -> Z.of_nat (length fs) <= n -> 0 <= i < Z.of_nat (length fs) ->
  run_frame base fs (page_of base i) d = fs !! Z.to_nat i.
Proof.
  intros Hr Hl Hi. unfold run_frame. rewrite (vpn_page_of base n) by (done || lia).
  rewrite decide_True by lia. by replace (vpn base + i - vpn base) with i by lia.
Qed.

Lemma run_frame_snoc base fs w f d :
  run_frame base (fs ++ [f]) w d =
  if decide (vpn w = vpn base + Z.of_nat (length fs)) then Some f else run_frame base fs w d.
Proof.
  unfold run_frame. rewrite length_app. simpl. repeat case_decide; try lia.
  - rewrite lookup_app_r by lia. by replace (_ - _)%nat with 0%nat by lia.
  - by rewrite lookup_app_l by lia.
  - done.
Qed.

(** ** Unmapping a run *)

(** The frames behind the pages from [lo] to [hi] of a run are data pages, each
    behind one page. *)
Record backed (s : Vm) (root base lo hi : Z) : Prop := {
  bk_data i f : lo <= i < hi -> translate s root (page_of base i) = Some f -> data_page s root f;
  bk_inj i j f : lo <= i < hi -> lo <= j < hi ->
    translate s root (page_of base i) = Some f -> translate s root (page_of base j) = Some f -> i = j
}.

(** What unmapping these pages leaves. *)
Record unmapped_run (root base lo hi : Z) (s s' : Vm) : Prop := {
  ur_wf : tables_wf s' root;
  ur_cr3 : vm_cr3 s' = vm_cr3 s;
  ur_root : KERNEL_PML4_PHYS s' = KERNEL_PML4_PHYS s;
  ur_translate w : translate s' root w =
    if decide (vpn base + lo <= vpn w < vpn base + hi) then None else translate s root w;
  ur_top : top_kept root s s';
  ur_keeps f : (forall i, lo <= i < hi -> translate s root (page_of base i) <> Some f) -> keeps_page root s s' f
}.

Lemma frame_nonzero s root f : data_page s root f -> (f =? 0) = false.
Proof. intros [[_ H] _ _]. destruct (Z.eqb_spec f 0); [lia|done]. Qed.

(** One round of the loop. *)
Definition unmap_one (root virt : Z) (s : Vm) : Vm :=
  let '(s', r) := unmap_page root virt s in
  match r with Some f => if f =? 0 then s' else fst (free_phys_page f s') | None => s' end.

Lemma unmap_from_step n i root base c s :
  exists c', unmap_from (Datatypes.S n) i root base c s =
    unmap_from n (i + 1) root base c' (unmap_one root (u64 (base + i * PAGE_SIZE)) s).
Proof.
  unfold unmap_one. cbn [unmap_from]. unfold st_bind.
  destruct (unmap_page root _ s) as [s' [f|]]; [|by exists c].
  destruct (f =? 0); [by exists c|]. destruct (free_phys_page f s') as [s'' ok]. by eexists.
Qed.

Lemma unmap_one_spec s root virt :
  tables_wf s root -> page_aligned virt ->
  (forall f, translate s root virt = Some f -> data_page s root f) ->
  let s' := unmap_one root virt s in
  tables_wf s' root /\ vm_cr3 s' = vm_cr3 s /\ KERNEL_PML4_PHYS s' = KERNEL_PML4_PHYS s /\
  (forall w, translate s' root w = if decide (vpn w = vpn virt) then None else translate s root w) /\
  top_kept root s s' /\ (forall f, translate s root virt <> Some f -> keeps_page root s s' f).
Proof.
  intros Hwf Ha Hd. unfold unmap_one. pose proof (unmap_spec s root virt Hwf Ha) as U.
  pose proof (unmap_keeps_data s root virt Hwf Ha) as K.
  destruct (unmap_page root virt s) as [s1 r]. cbn [fst] in K. destruct U as (Wf1 & -> & _ & T1), K as (C1 & R1 & P1 & K1).
  destruct (translate s root virt) as [f|] eqn:Ef; [|split_and!; auto].
  destruct (K1 f (Hd f eq_refl)) as [Df _]. rewrite (frame_nonzero _ _ _ Df).
  destruct (free_data_page s1 root f Wf1 Df) as (Wf2 & M2 & C2 & R2 & K2). split_and!; [done|congruence..| | |].
  - intros w. rewrite <- T1. unfold translate, leaf. by rewrite M2.
  - intros j Hj Hpj. rewrite M2. by apply P1.
  - intros g Hg. eapply keeps_page_trans; [apply K1|apply K2]. congruence.
Qed.

Lemma unmap_run_spec n s root base lo c N :
  high_run base N -> 0 <= lo -> lo + Z.of_nat n <= N ->
  tables_wf s root -> backed s root base lo (lo + Z.of_nat n) ->
  unmapped_run root base lo (lo + Z.of_nat n) s (fst (unmap_from n lo root base c s)).
Proof.
  intros Hr. revert s lo c. induction n as [|n IH]; intros s lo c Hlo Hn Hwf Hb.
  { split; try done. intros w. by rewrite decide_False by lia. }
  destruct (unmap_from_step n lo root base c s) as [c' ->]. rewrite (page_of_u64 base N) by (done || lia).
  pose proof Hb as [B1 B2]. pose proof Hr as (Ha & _).
  assert (Hin : lo <= lo < lo + Z.of_nat (S n)) by lia.
  destruct (unmap_one_spec s root (page_of base lo) Hwf (page_of_aligned base lo Ha) (fun f => B1 lo f Hin))
    as (Wf1 & C1 & R1 & T1 & P1 & K1).
  set (s1 := unmap_one root (page_of base lo) s) in *.
  assert (Eold : forall i, lo + 1 <= i < lo + Z.of_nat (S n) ->
    translate s1 root (page_of base i) = translate s root (page_of base i)).
  { intros i Hi. rewrite T1, decide_False; [done|]. rewrite !(vpn_page_of base N) by (done || lia). lia. }
  replace (lo + Z.of_nat (S n)) with (lo + 1 + Z.of_nat n) in * by lia.
  destruct (IH s1 (lo + 1) c') as [W2 C2 R2 T2 P2 K2]; try lia; try done.
  { split.
    - intros i f Hi. rewrite Eold by lia. intros E. refine (proj1 (K1 f _ (B1 i f _ E))); [|lia].
      intros E'. assert (lo = i) by (apply (B2 lo i f); (lia || done)). lia.
    - intros i j f Hi Hj. rewrite !Eold by lia. apply B2; lia. }
  split; [done|congruence|congruence| |by eapply top_kept_trans|].
  - intros w. rewrite T2, T1, (vpn_page_of base N) by (done || lia). repeat case_decide; try done; lia.
  - intros f Hf. eapply keeps_page_trans; [apply K1, Hf; lia|apply K2]. intros i Hi. rewrite Eold by lia.
    apply Hf. lia.
Qed.

(** ** Mapping a run *)

(** The pages of [base] have been mapped, one after the other, to the frames [fs]. *)
Record mapped_run (root base : Z) (s0 s : Vm) (fs : list Z) : Prop := {
  mr_wf : tables_wf s root;
  mr_cr3 : vm_cr3 s = vm_cr3 s0;
  mr_root : KERNEL_PML4_PHYS s = KERNEL_PML4_PHYS s0;
  mr_translate w : translate s root w = run_frame base fs w (translate s0 root w);
  mr_before i : 0 <= i < Z.of_nat (length fs) -> translate s0 root (page_of base i) = None;
  mr_new f : f ∈ fs -> data_page s root f /\ ~ data_page s0 root f /\
    forall k, 0 <= k < PAGE_SIZE -> vm_mem s (f + k) = 0;
  mr_distinct : NoDup fs;
  mr_top : top_kept root s0 s;
  mr_keeps f : keeps_page root s0 s f
}.

Lemma mapped_run_nil root base s : tables_wf s root -> mapped_run root base s s [].
Proof.
  intros Hwf. split; try done.
  - intros w. unfold run_frame. simpl. by rewrite decide_False by lia.
  - simpl. lia.
  - intros f Hf. by apply not_elem_of_nil in Hf.
  - constructor.
Qed.

(** A run keeps its frames while other pages change. *)
Lemma mapped_run_step root base s0 s s' fs :
  mapped_run root base s0 s fs -> tables_wf s' root -> vm_cr3 s' = vm_cr3 s ->
  KERNEL_PML4_PHYS s' = KERNEL_PML4_PHYS s -> (forall w, translate s' root w = translate s root w) ->
  top_kept root s s' -> (forall f, keeps_page root s s' f) -> mapped_run root base s0 s' fs.
Proof.
  intros [M1 M2 M3 M4 M5 M6 M7 M8 M9] Wf C R T P K. split; try done; try congruence.
  - intros f (H1 & H2 & H3)%M6. destruct (K f H1) as [D E]. split_and!; [done|done|].
    intros k Hk. by rewrite E, H3.
  - by eapply top_kept_trans.
  - intros f. by eapply keeps_page_trans.
Qed.

Lemma alloc_keeps_top s root : tables_wf s root -> top_kept root s (fst (alloc_zeroed_page s)).
Proof.
  intros Hwf j Hj _. unfold alloc_zeroed_page. pose proof (alloc_spec _ (tw_alloc _ _ Hwf)) as Hal.
  destruct (alloc_page (PHYS_ALLOCATOR s)) as [a' [n|]]; [|done]. destruct Hal as (_ & Hav & Han & _).
  destruct (tw_page _ _ Hwf [] root) as [[Hra _] Hn]; [split; [simpl; lia|by constructor]|done|].
  refine (fill_out (vm_mem s) _ _ _ _ _). apply pages_disjoint; try done. by intros ->.
Qed.

Lemma alloc_keeps_root s : KERNEL_PML4_PHYS (fst (alloc_zeroed_page s)) = KERNEL_PML4_PHYS s.
Proof. unfold alloc_zeroed_page. by destruct (alloc_page _) as [a [p|]]. Qed.

Lemma ensure_keeps_root t i s : KERNEL_PML4_PHYS (fst (ensure_next_table t i s)) = KERNEL_PML4_PHYS s.
Proof.
  unfold ensure_next_table. destruct (present _); [by destruct (huge _)|].
  pose proof (alloc_keeps_root s) as A. by destruct (alloc_zeroed_page s) as [s' [n|]].
Qed.

Lemma map_keeps_root root virt phys flags s :
  KERNEL_PML4_PHYS (fst (map_page root virt phys flags s)) = KERNEL_PML4_PHYS s.
Proof.
  unfold map_page. destruct (_ || _ || _); [done|]. unfold st_bind.
  pose proof (ensure_keeps_root root (pml4_index virt) s) as E1.
  destruct (ensure_next_table root _ s) as [s1 [t1|]]; [|done].
  pose proof (ensure_keeps_root t1 (pdpt_index virt) s1) as E2.
  destruct (ensure_next_table t1 _ s1) as [s2 [t2|]]; cbn [fst] in *; [|unfold st_ret; cbn [fst]; congruence].
  pose proof (ensure_keeps_root t2 (pd_index virt) s2) as E3.
  destruct (ensure_next_table t2 _ s2) as [s3 [t3|]]; cbn [fst] in *; [|unfold st_ret; cbn [fst]; congruence].
  destruct (present _); cbn [fst]; [congruence|]. change (KERNEL_PML4_PHYS s3 = KERNEL_PML4_PHYS s). congruence.
Qed.

(** Giving back the pages mapped so far undoes the run. *)
Lemma rollback root base s0 s fs N :
  high_run base N -> Z.of_nat (length fs) <= N -> mapped_run root base s0 s fs ->
  mapped_run root base s0 (fst (unmap_user_pages root base (Z.of_nat (length fs)) s)) [].
Proof.
  intros Hr Hl [M1 M2 M3 M4 M5 M6 M7 M8 M9]. unfold unmap_user_pages. rewrite Nat2Z.id.
  assert (Ef : forall i, 0 <= i < Z.of_nat (length fs) -> translate s root (page_of base i) = fs !! Z.to_nat i).
  { intros i Hi. rewrite M4. by apply (run_frame_in base fs N). }
  assert (Hb : backed s root base 0 (0 + Z.of_nat (length fs))).
  { split.
    - intros i f Hi. rewrite Ef by lia. intros E%list_elem_of_lookup_2. by apply M6.
    - intros i j f Hi Hj. rewrite !Ef by lia. intros E1 E2.
      pose proof (NoDup_lookup _ _ _ _ M7 E1 E2). lia. }
  destruct (unmap_run_spec (length fs) s root base 0 0 N Hr ltac:(lia) ltac:(lia) M1 Hb) as [U1 U2 U3 U4 U5 U6].
  split; try done; try congruence.
  - intros w. rewrite U4, M4. unfold run_frame at 2. cbn [length]. rewrite (decide_False (P := _ <= _ < _ + Z.of_nat 0)) by lia.
    unfold run_frame. case_decide as D1; [|rewrite decide_False by lia; done].
    rewrite <- (M5 (vpn w - vpn base)) by lia. apply translate_vpn.
    rewrite (vpn_page_of base N) by (done || lia). lia.
  - simpl. lia.
  - intros f Hf. by apply not_elem_of_nil in Hf.
  - constructor.
  - by eapply top_kept_trans.
  - intros f Hf. destruct (M9 f Hf) as [D E]. destruct (U6 f) as [D' E']; [|done|].
    + intros i Hi. rewrite Ef by lia. intros Hi'%list_elem_of_lookup_2. by apply (M6 f Hi').
    + split; [done|]. intros k Hk. by rewrite E', E.
Qed.

(** A fresh page, mapped or given back. *)
Lemma map_one_more root base s0 s fs N :
  high_run base N -> Z.of_nat (length fs) < N -> mapped_run root base s0 s fs ->
  match alloc_zeroed_page s with
  | (s1, None) => s1 = s
  | (s1, Some n) =>
      let '(s2, ok) := map_page root (page_of base (Z.of_nat (length fs))) n rw_flags s1 in
      if ok : bool then mapped_run root base s0 s2 (fs ++ [n])
      else mapped_run root base s0 (fst (free_phys_page n s2)) fs
  end.
Proof.
  intros Hr Hl M. pose proof (alloc_zeroed_spec s root (mr_wf _ _ _ _ _ M)) as A.
  pose proof (alloc_keeps_root s) as A'. pose proof (alloc_keeps_top s root (mr_wf _ _ _ _ _ M)) as P0.
  destruct (alloc_zeroed_page s) as [s1 [n|]]; [|done].
  destruct A as (Wf1 & Dn & Nn & C1 & Z1 & T1 & K1). cbn [fst] in A', P0.
  set (virt := page_of base (Z.of_nat (length fs))).
  assert (Ev : vpn virt = vpn base + Z.of_nat (length fs)) by (apply (vpn_page_of base N); (done || lia)).
  pose proof (map_spec s1 root virt n Wf1 (dp_frame _ _ _ Dn)) as P.
  pose proof (map_keeps_data s1 root virt n Wf1 (dp_frame _ _ _ Dn)) as Q.
  pose proof (map_keeps_root root virt n rw_flags s1) as R. pose proof (map_keeps_top s1 root virt n rw_flags Wf1) as P1.
  destruct (map_page root virt n rw_flags s1) as [s2 ok]. cbn [fst] in Q, R, P1.
  destruct P as (Wf2 & N2 & _ & T2), Q as [C2 K2]. destruct (K2 n Dn) as [Dn2 Sn2].
  assert (K12 : forall f, keeps_page root s s2 f).
  { intros f. apply (keeps_page_trans root s s1 s2 f); [exact (K1 f)|exact (K2 f)]. }
  assert (P2 : top_kept root s s2) by by eapply top_kept_trans.
  destruct ok; cbn [andb] in *.
  - destruct M as [M1 M2 M3 M4 M5 M6 M7 M8 M9]. split; try done; try congruence.
    + intros w. rewrite T2, T1, M4, run_frame_snoc, Ev. by destruct (decide _);
        [rewrite bool_decide_true|rewrite bool_decide_false].
    + rewrite length_app. simpl. intros i Hi. destruct (decide (i = Z.of_nat (length fs))) as [->|Hne];
        [|apply M5; lia]. specialize (N2 eq_refl). fold virt. rewrite T1, M4 in N2. revert N2.
      unfold run_frame. by rewrite Ev, decide_False by lia.
    + intros f [Hf| ->%list_elem_of_singleton]%elem_of_app.
      * destruct (M6 f Hf) as (D & D0 & Z0). destruct (K12 f D) as [D' S']. split_and!; [done|done|].
        intros k Hk. by rewrite S', Z0.
      * split_and!; [done|intros Hx; by destruct (M9 n Hx)|]. intros k Hk. by rewrite Sn2, Z1.
    + apply NoDup_app. split_and!; [done| |apply NoDup_singleton].
      intros f Hf Hn%list_elem_of_singleton. subst f. by destruct (M6 n Hf).
    + by eapply top_kept_trans.
    + intros f. by eapply keeps_page_trans.
  - destruct (free_data_page s2 root n Wf2 Dn2) as (Wf3 & E3 & C3 & R3 & K3).
    apply (mapped_run_step root base s0 s); try done; try congruence.
    + intros w. rewrite <- T1, <- T2. unfold translate, leaf. by rewrite E3.
    + intros j Hj Hpj. rewrite E3. by apply P2.
    + intros f Hf. assert (f <> n) by (by intros ->). destruct (K12 f Hf) as [D S]. destruct (K3 f) as [D' S']; [done|done|].
      split; [done|]. intros k Hk. by rewrite S', S.
Qed.

Lemma map_from_spec n root base s0 s fs N :
  high_run base N -> Z.of_nat (length fs) + Z.of_nat n <= N -> mapped_run root base s0 s fs ->
  let '(s', ok) := map_from n (Z.of_nat (length fs)) root base s in
  if ok : bool then exists gs, length gs = (length fs + n)%nat /\ mapped_run root base s0 s' gs
  else mapped_run root base s0 s' [].
Proof.
  intros Hr. revert s fs. induction n as [|n IH]; intros s fs Hl M.
  { simpl. exists fs. split; [lia|done]. }
  cbn [map_from]. unfold st_bind. rewrite (page_of_u64 base N) by (done || lia).
  pose proof (map_one_more root base s0 s fs N Hr ltac:(lia) M) as O.
  pose proof (rollback root base s0) as B.
  destruct (alloc_zeroed_page s) as [s1 [p|]].
  2:{ subst s1. specialize (B s fs N Hr ltac:(lia) M). by destruct (unmap_user_pages _ _ _ s). }
  change (Z.lor PAGE_PRESENT PAGE_WRITABLE) with rw_flags.
  destruct (map_page _ _ p rw_flags s1) as [s2 [|]]; cbn [negb].
  - specialize (IH s2 (fs ++ [p])). rewrite length_app in IH. cbn [length] in IH.
    rewrite Nat2Z.inj_add in IH. change (Z.of_nat 1) with 1 in IH. specialize (IH ltac:(lia) O).
    destruct (map_from n _ root base s2) as [s' [|]]; [|done]. destruct IH as (gs & Hg & Mg).
    exists gs. split; [lia|done].
  - destruct (free_phys_page p s2) as [s3 okf]. cbn [fst] in O. specialize (B s3 fs N Hr ltac:(lia) O).
    by destruct (unmap_user_pages _ _ _ s3).
Qed.

(** Mapping is all or nothing. *)
Lemma map_run_spec root base n s :
  high_run base n -> tables_wf s root ->
  let '(s', ok) := map_user_pages root base n s in
  if ok : bool then exists fs, Z.of_nat (length fs) = n /\ mapped_run root base s s' fs
  else mapped_run root base s s' [].
Proof.
  intros Hr Hwf. pose proof Hr as (_ & Hn & _). unfold map_user_pages.
  pose proof (map_from_spec (Z.to_nat n) root base s s [] n Hr ltac:(simpl; lia) (mapped_run_nil _ _ _ Hwf)) as H.
  cbn [length] in H. change (Z.of_nat 0) with 0 in H.
  destruct (map_from (Z.to_nat n) 0 root base s) as [s' [|]]; [|done].
  destruct H as (fs & Hf & M). exists fs. split; [lia|done].
Qed.
