(* ===== verification/UserMem.v ===== *)
(** * The memory behind the windows

    The memory calls of AbiProc.v seen through the page tables: every page of a
    recorded mapping is backed by a zeroed frame of its own, no other page of the
    windows is mapped, and the guard pages around a mapping never are. MemWin.v says
    where the mappings lie, MapRun.v what mapping them does. *)

From S2P Require Import Prelude Constants Text Phys Paging PagingThm Process Env Fd Abi AbiProc MemWin MapRun.

Definition root_of (k : Kernel) : Z := KERNEL_PML4_PHYS (vm k).

(** The frame behind an address, in the kernel's tables. *)
Definition frame_of (k : Kernel) (v : Z) : option Z := translate (vm k) (root_of k) v.

Definition covers (m : ProcessMapping) (v : Z) : Prop := m_virt m <= v < m_end m.

(** The pages of recorded mappings. *)
Definition user_page (k : Kernel) (v : Z) : Prop :=
  page_aligned v /\
  exists i m, (i < PROCESS_COUNT)%nat /\ m ∈ used_mappings (proc k i) /\ covers m v.

Definition in_windows (v : Z) : Prop :=
  USER_HEAP_BASE <= v < USER_HEAP_BASE + pid_limit * USER_HEAP_STRIDE \/
  USER_MMAP_BASE <= v < USER_MMAP_BASE + pid_limit * USER_MMAP_STRIDE.

(** The processes whose windows matter: the current one and those with mappings. *)
Definition active (k : Kernel) (i : nat) : Prop :=
  (i < PROCESS_COUNT)%nat /\ (i = CURRENT_PROCESS_INDEX k \/ used_mappings (proc k i) <> []).

Record user_memory_ok (k : Kernel) : Prop := {
  um_sized : table_sized k;
  um_cur : (CURRENT_PROCESS_INDEX k < PROCESS_COUNT)%nat;
  um_windows i : active k i -> windows_ok (proc k i);
  um_pids i j : active k i -> active k j -> pid (proc k i) = pid (proc k j) -> i = j;
  um_tables : tables_wf (vm k) (root_of k);
  um_frames v : user_page k v -> exists f, frame_of k v = Some f /\ data_page (vm k) (root_of k) f;
  um_distinct v w f : user_page k v -> user_page k w -> frame_of k v = Some f -> frame_of k w = Some f -> v = w;
  um_only v : page_aligned v -> in_windows v -> user_page k v \/ frame_of k v = None
}.

(** ** Addresses of the windows *)

Lemma mapping_in_windows p m v : windows_ok p -> in_window p m -> covers m v -> in_windows v.
Proof.
  intros [Hp [Hb Hl] Hml [Hn _] [Hx _] _ _ _] (_ & _ & Hpl) Hc.
  rewrite mmap_window_eq in * by done. rewrite heap_window_eq in * by done.
  unfold in_windows, placed, covers in *. win_const. lia.
Qed.

Lemma mapping_high_run p m : windows_ok p -> in_window p m -> high_run (m_virt m) (m_pages m).
Proof.
  intros [Hp [Hb Hl] Hml [Hn _] [Hx _] _ _ _] (Hpos & Ha & Hpl).
  rewrite mmap_window_eq in * by done. rewrite heap_window_eq in * by done.
  unfold high_run, placed, m_end in *. win_const. split_and!; [done|lia..].
Qed.

Lemma windows_high v : in_windows v -> 0xFFFF800000000000 <= v < 18446744073709551616.
Proof. unfold in_windows. win_const. lia. Qed.

Lemma vpn_inj v w : page_aligned v -> page_aligned w -> in_windows v -> in_windows w -> vpn v = vpn w -> v = w.
Proof.
  intros Hv Hw V%windows_high W%windows_high. rewrite !vpn_high by done.
  unfold page_aligned, PAGE_SIZE in *. zlia.
Qed.

(** A page is one of a run exactly when its number is. *)
Lemma covers_vpn m v :
  high_run (m_virt m) (m_pages m) -> page_aligned v -> in_windows v ->
  covers m v <-> vpn (m_virt m) <= vpn v < vpn (m_virt m) + m_pages m.
Proof.
  intros (Ha & Hn & Hb & Hl) Hv V%windows_high. unfold covers, m_end, page_aligned, PAGE_SIZE in *.
  destruct (decide (m_pages m = 0)); [split; lia|].
  rewrite !vpn_high by lia. split; intros; zlia.
Qed.

Section Active.

Context (k : Kernel) (Hk : user_memory_ok k).

Lemma owner_active i m : (i < PROCESS_COUNT)%nat -> m ∈ used_mappings (proc k i) -> active k i.
Proof using. intros Hi Hm. split; [done|]. right. intros E. rewrite E in Hm. by apply not_elem_of_nil in Hm. Qed.

Lemma owner_window i m :
  (i < PROCESS_COUNT)%nat -> m ∈ used_mappings (proc k i) -> windows_ok (proc k i) /\ in_window (proc k i) m.
Proof using Hk.
  intros Hi Hm. pose proof (um_windows k Hk i (owner_active i m Hi Hm)) as W. split; [done|].
  pose proof (wo_in _ W) as F. rewrite Forall_forall in F. by apply F.
Qed.

Lemma user_in_windows v : user_page k v -> in_windows v.
Proof using Hk.
  intros (_ & i & m & Hi & Hm & Hc). destruct (owner_window i m Hi Hm) as [W Hw].
  by apply (mapping_in_windows (proc k i) m).
Qed.

(** No page lies in two mappings. *)
Lemma one_owner i j m n v :
  (i < PROCESS_COUNT)%nat -> (j < PROCESS_COUNT)%nat -> i <> j ->
  m ∈ used_mappings (proc k i) -> n ∈ used_mappings (proc k j) -> covers m v -> covers n v -> False.
Proof using Hk.
  intros Hi Hj Hne Hm Hn Cm Cn. destruct (owner_window i m Hi Hm) as [Wi Ii], (owner_window j n Hj Hn) as [Wj Ij].
  assert (pid (proc k i) <> pid (proc k j)).
  { intros E. apply Hne. apply (um_pids k Hk); [by apply (owner_active i m)|by apply (owner_active j n)|done]. }
  pose proof (other_window_separate _ _ m n Wi Wj ltac:(done) Ii Ij) as S. unfold separate, covers in *. lia.
Qed.

(** The pages of a run of user pages are backed. *)
Lemma user_run_backed base n :
  high_run base n -> (forall i, 0 <= i < n -> user_page k (page_of base i)) -> backed (vm k) (root_of k) base 0 n.
Proof using Hk.
  intros Hr Hu. split.
  - intros i f Hi E. destruct (um_frames k Hk _ (Hu i Hi)) as (g & Eg & D). unfold frame_of in Eg.
    rewrite E in Eg. by injection Eg as <-.
  - intros i j f Hi Hj Ei Ej. pose proof (um_distinct k Hk _ _ f (Hu i Hi) (Hu j Hj) Ei Ej) as E.
    unfold page_of, PAGE_SIZE in E. lia.
Qed.

End Active.

(** ** A change of the current process's mappings *)

(** What the calls do to the current process besides its mapping table: only the bump
    pointers move. *)
Record own_change (k k' : Kernel) : Prop := {
  oc_frame : frame (CURRENT_PROCESS_INDEX k) k k';
  oc_windows : windows_ok (proc k' (CURRENT_PROCESS_INDEX k));
  oc_pid : pid (proc k' (CURRENT_PROCESS_INDEX k)) = pid (proc k (CURRENT_PROCESS_INDEX k))
}.

Section Change.

Context (k k' : Kernel) (Hk : user_memory_ok k) (Hc : own_change k k').

Lemma active_before j : active k' j -> active k j.
Proof using Hc.
  intros [Hj Ha]. pose proof (oc_frame _ _ Hc) as [_ Ec Eo]. rewrite Ec in Ha. split; [done|].
  destruct (decide (j = CURRENT_PROCESS_INDEX k)) as [|Hne]; [by left|].
  rewrite Eo in Ha by done. naive_solver.
Qed.

Lemma changed_procs :
  table_sized k' /\ (CURRENT_PROCESS_INDEX k' < PROCESS_COUNT)%nat /\
  (forall i, active k' i -> windows_ok (proc k' i)) /\
  (forall i j, active k' i -> active k' j -> pid (proc k' i) = pid (proc k' j) -> i = j).
Proof using Hk Hc.
  pose proof (oc_frame _ _ Hc) as [Hs Ec Eo].
  assert (Ep : forall j, pid (proc k' j) = pid (proc k j)).
  { intros j. destruct (decide (j = CURRENT_PROCESS_INDEX k)) as [->|Hne]; [apply (oc_pid _ _ Hc)|by rewrite Eo]. }
  split_and!; [done|rewrite Ec; apply (um_cur k Hk)| |].
  - intros i Ha. destruct (decide (i = CURRENT_PROCESS_INDEX k)) as [->|Hne]; [apply (oc_windows _ _ Hc)|].
    rewrite Eo by done. by apply (um_windows k Hk), active_before.
  - intros i j Hi Hj. rewrite !Ep. apply (um_pids k Hk); by apply active_before.
Qed.

(** The same mappings are the same user pages. *)
Lemma same_user_pages :
  used_mappings (proc k' (CURRENT_PROCESS_INDEX k)) ≡ₚ used_mappings (proc k (CURRENT_PROCESS_INDEX k)) ->
  forall v, user_page k' v <-> user_page k v.
Proof using Hc.
  intros Hp v. pose proof (oc_frame _ _ Hc) as [_ _ Eo].
  assert (E : forall i m, m ∈ used_mappings (proc k' i) <-> m ∈ used_mappings (proc k i)).
  { intros i m. destruct (decide (i = CURRENT_PROCESS_INDEX k)) as [->|Hne]; [by rewrite Hp|by rewrite Eo]. }
  unfold user_page. by setoid_rewrite E.
Qed.

(** One mapping more is the pages of that mapping more. *)
Lemma more_user_pages m :
  used_mappings (proc k' (CURRENT_PROCESS_INDEX k)) ≡ₚ m :: used_mappings (proc k (CURRENT_PROCESS_INDEX k)) ->
  forall v, user_page k' v <-> user_page k v \/ (page_aligned v /\ covers m v).
Proof using Hk Hc.
  intros Hp v. pose proof (oc_frame _ _ Hc) as [_ _ Eo]. split.
  - intros (Ha & i & n & Hi & Hn & Cn). destruct (decide (i = CURRENT_PROCESS_INDEX k)) as [->|Hne].
    + rewrite Hp in Hn. apply elem_of_cons in Hn as [->|Hn]; [by right|left]. split; [done|]. by exists (CURRENT_PROCESS_INDEX k), n.
    + rewrite Eo in Hn by done. left. split; [done|]. by exists i, n.
  - intros [(Ha & i & n & Hi & Hn & Cn)|[Ha Cm]]; (split; [done|]).
    + exists i, n. split_and!; [done| |done]. destruct (decide (i = CURRENT_PROCESS_INDEX k)) as [->|Hne]; [|by rewrite Eo].
      rewrite Hp. by right.
    + exists (CURRENT_PROCESS_INDEX k), m. split_and!; [apply (um_cur k Hk)| |done]. rewrite Hp. by left.
Qed.

(** Nothing mapped: the call failed, perhaps after giving pages back. *)
Lemma nothing_mapped base :
  used_mappings (proc k' (CURRENT_PROCESS_INDEX k)) ≡ₚ used_mappings (proc k (CURRENT_PROCESS_INDEX k)) ->
  mapped_run (root_of k) base (vm k) (vm k') [] ->
  user_memory_ok k' /\ (forall w, frame_of k' w = frame_of k w).
Proof using Hk Hc.
  intros Hp [M1 M2 M3 M4 M5 M6 M7 _ M8]. pose proof (same_user_pages Hp) as Hu.
  assert (Er : root_of k' = root_of k) by done.
  assert (Ef : forall w, frame_of k' w = frame_of k w).
  { intros w. unfold frame_of. rewrite Er, M4. unfold run_frame. simpl. by rewrite decide_False by lia. }
  split; [|done]. destruct changed_procs as (P1 & P2 & P3 & P4). split; try done.
  - by rewrite Er.
  - intros v (f & E & D)%Hu%(um_frames k Hk). exists f. rewrite Ef, Er. split; [done|]. by apply M8.
  - intros v w f. rewrite !Hu, !Ef. apply (um_distinct k Hk).
  - intros v Ha Hw. rewrite Hu, Ef. by apply (um_only k Hk).
Qed.

(** What a page keeps: its frame and its content. *)
Definition keeps_user_page (v : Z) : Prop :=
  forall f, frame_of k v = Some f -> frame_of k' v = Some f /\ same_page (vm k) (vm k') f.

(** A fresh zeroed frame behind each page of a run. *)
Definition freshly_backed (base n : Z) : Prop :=
  forall i, 0 <= i < n -> frame_of k (page_of base i) = None /\
    exists f, frame_of k' (page_of base i) = Some f /\ ~ data_page (vm k) (root_of k) f /\
      forall o, 0 <= o < PAGE_SIZE -> vm_mem (vm k') (f + o) = 0.

(** No translation outside a run of pages changes. *)
Definition same_outside (base n : Z) : Prop :=
  forall w, ~ (vpn base <= vpn w < vpn base + n) -> frame_of k' w = frame_of k w.

(** One mapping more. *)
Section More.

Context (base n : Z) (fs : list Z).
Context (Hp : used_mappings (proc k' (CURRENT_PROCESS_INDEX k)) ≡ₚ
  mkMapping true base n :: used_mappings (proc k (CURRENT_PROCESS_INDEX k))).
Context (Hr : high_run base n) (Hl : Z.of_nat (length fs) = n).
Context (Hm : mapped_run (root_of k) base (vm k) (vm k') fs).

Lemma new_frame i : 0 <= i < n -> frame_of k' (page_of base i) = fs !! Z.to_nat i.
Proof using Hr Hl Hm.
  intros Hi. unfold frame_of. replace (root_of k') with (root_of k) by (symmetry; apply (mr_root _ _ _ _ _ Hm)).
  rewrite (mr_translate _ _ _ _ _ Hm). apply (run_frame_in base fs n); (done || lia).
Qed.

Lemma old_frame v : user_page k v -> frame_of k' v = frame_of k v.
Proof using Hk Hr Hl Hm.
  intros Hv. destruct (um_frames k Hk v Hv) as (f & E & _). unfold frame_of in *.
  replace (root_of k') with (root_of k) by (symmetry; apply (mr_root _ _ _ _ _ Hm)).
  rewrite (mr_translate _ _ _ _ _ Hm). unfold run_frame. case_decide as Hd; [|done]. exfalso.
  rewrite (translate_vpn _ _ v (page_of base (vpn v - vpn base))) in E.
  - rewrite (mr_before _ _ _ _ _ Hm) in E by lia. done.
  - rewrite (vpn_page_of base n) by (done || lia). lia.
Qed.

Lemma run_page v : page_aligned v -> covers (mkMapping true base n) v -> exists i, 0 <= i < n /\ v = page_of base i.
Proof using Hr Hl.
  intros Ha Cm. exists ((v - base) / PAGE_SIZE). destruct Hr as (Hb & _ & _ & _).
  unfold covers, m_end, page_of, page_aligned in *. cbn [m_virt m_pages] in Cm. unfold PAGE_SIZE in *. zlia.
Qed.

(** A user page is an old one with its frame, or a page of the run with a new one. *)
Lemma page_cases v : user_page k' v ->
  (user_page k v /\ exists f, frame_of k' v = Some f /\ frame_of k v = Some f /\ data_page (vm k) (root_of k) f) \/
  (exists i f, 0 <= i < n /\ v = page_of base i /\ frame_of k' v = Some f /\ fs !! Z.to_nat i = Some f).
Proof using Hk Hc Hp Hr Hl Hm.
  intros [Hv|[Ha Cm]]%(more_user_pages _ Hp).
  - left. split; [done|]. destruct (um_frames k Hk v Hv) as (f & E & D). exists f. by rewrite old_frame.
  - right. destruct (run_page v Ha Cm) as (i & Hi & ->).
    destruct (lookup_lt_is_Some_2 fs (Z.to_nat i)) as [f E]; [lia|]. exists i, f. by rewrite new_frame.
Qed.

Lemma more_distinct v w f :
  user_page k' v -> user_page k' w -> frame_of k' v = Some f -> frame_of k' w = Some f -> v = w.
Proof using Hk Hc Hp Hr Hl Hm.
  assert (N : forall i g, fs !! i = Some g -> ~ data_page (vm k) (root_of k) g).
  { intros i g E%list_elem_of_lookup_2. by apply (mr_new _ _ _ _ _ Hm). }
  intros [(Hv & f1 & E1 & F1 & D1)|(i & f1 & Hi & -> & E1 & F1)]%page_cases
    [(Hw & f2 & E2 & F2 & D2)|(j & f2 & Hj & -> & E2 & F2)]%page_cases; rewrite E1, E2; intros [= ->] [= ->].
  - by apply (um_distinct k Hk v w f).
  - by destruct (N _ _ F2).
  - by destruct (N _ _ F1).
  - pose proof (NoDup_lookup _ _ _ _ (mr_distinct _ _ _ _ _ Hm) F1 F2). f_equal. lia.
Qed.

Lemma more_outside : same_outside base n.
Proof using Hl Hm.
  intros w Hw. unfold frame_of. replace (root_of k') with (root_of k) by (symmetry; apply (mr_root _ _ _ _ _ Hm)).
  rewrite (mr_translate _ _ _ _ _ Hm). unfold run_frame. by rewrite Hl, decide_False.
Qed.

Lemma one_more_mapped :
  user_memory_ok k' /\ freshly_backed base n /\ same_outside base n /\
  (forall v, user_page k v -> keeps_user_page v).
Proof using Hk Hc Hp Hr Hl Hm.
  assert (Er : root_of k' = root_of k) by apply (mr_root _ _ _ _ _ Hm). split_and!.
  - destruct changed_procs as (P1 & P2 & P3 & P4). split; try done.
    + rewrite Er. apply (mr_wf _ _ _ _ _ Hm).
    + intros v [(Hv & f & E & _ & D)|(i & f & Hi & -> & E & F)]%page_cases; exists f; (split; [done|]); rewrite Er.
      * by apply (mr_keeps _ _ _ _ _ Hm).
      * by apply (mr_new _ _ _ _ _ Hm), (list_elem_of_lookup_2 _ _ _ F).
    + apply more_distinct.
    + intros v Ha Hw. rewrite (more_user_pages _ Hp). set (m := mkMapping true base n).
      destruct (decide (m_virt m <= v < m_end m)) as [Cm|Nm]; [by left; right|].
      destruct (um_only k Hk v Ha Hw) as [Hu|Hn]; [by left; left|right].
      rewrite more_outside; [done|]. intros X. apply Nm. by apply (covers_vpn m v).
  - intros i Hi. split; [apply (mr_before _ _ _ _ _ Hm); lia|].
    destruct (lookup_lt_is_Some_2 fs (Z.to_nat i)) as [f E]; [lia|]. exists f. rewrite new_frame by done.
    split; [done|]. apply list_elem_of_lookup_2 in E. by apply (mr_new _ _ _ _ _ Hm).
  - exact more_outside.
  - intros v Hv f E. rewrite old_frame by done. split; [done|].
    destruct (um_frames k Hk v Hv) as (g & E' & D). rewrite E in E'. injection E' as <-.
    by apply (mr_keeps _ _ _ _ _ Hm).
Qed.

End More.

(** One mapping less. *)
Section Less.

Context (a n : Z).
Context (Hp : used_mappings (proc k (CURRENT_PROCESS_INDEX k)) ≡ₚ
  mkMapping true a n :: used_mappings (proc k' (CURRENT_PROCESS_INDEX k))).
Context (Hu : unmapped_run (root_of k) a 0 n (vm k) (vm k')).

Lemma gone_in : mkMapping true a n ∈ used_mappings (proc k (CURRENT_PROCESS_INDEX k)).
Proof using Hp. rewrite Hp. by left. Qed.

Lemma gone_window :
  windows_ok (proc k (CURRENT_PROCESS_INDEX k)) /\ in_window (proc k (CURRENT_PROCESS_INDEX k)) (mkMapping true a n).
Proof using Hk Hp. apply (owner_window k Hk); [apply (um_cur k Hk)|apply gone_in]. Qed.

Lemma gone_run : high_run a n.
Proof using Hk Hp.
  destruct gone_window as [W Hw]. exact (mapping_high_run (proc k (CURRENT_PROCESS_INDEX k)) (mkMapping true a n) W Hw).
Qed.

Lemma less_user_pages v : user_page k' v <-> user_page k v /\ ~ covers (mkMapping true a n) v.
Proof using Hk Hc Hp.
  pose proof (oc_frame _ _ Hc) as [_ _ Eo]. split.
  - intros (Ha & i & m & Hi & Hm & Cm). destruct (decide (i = CURRENT_PROCESS_INDEX k)) as [->|Hne].
    + split.
      * split; [done|]. exists (CURRENT_PROCESS_INDEX k), m. split_and!; [done| |done]. rewrite Hp. by right.
      * intros Cg. pose proof (apart_perm _ _ Hp (wo_apart _ (proj1 gone_window))) as [S _].
        rewrite Forall_forall in S. pose proof (S m Hm) as X. unfold separate, covers in *. lia.
    + rewrite Eo in Hm by done. split; [split; [done|]; by exists i, m|]. intros Cg.
      apply (one_owner k Hk i (CURRENT_PROCESS_INDEX k) m (mkMapping true a n) v); try done; [apply (um_cur k Hk)|apply gone_in].
  - intros [(Ha & i & m & Hi & Hm & Cm) Ng]. split; [done|]. exists i, m. split_and!; [done| |done].
    destruct (decide (i = CURRENT_PROCESS_INDEX k)) as [->|Hne]; [|by rewrite Eo].
    rewrite Hp in Hm. by apply elem_of_cons in Hm as [->|Hm].
Qed.

Lemma less_outside : same_outside a n.
Proof using Hu.
  intros w Hw. unfold frame_of. replace (root_of k') with (root_of k) by (symmetry; apply (ur_root _ _ _ _ _ _ Hu)).
  by rewrite (ur_translate _ _ _ _ _ _ Hu), Z.add_0_r, decide_False.
Qed.

Lemma less_frame v : page_aligned v -> in_windows v ->
  (covers (mkMapping true a n) v -> frame_of k' v = None) /\
  (~ covers (mkMapping true a n) v -> frame_of k' v = frame_of k v).
Proof using Hk Hp Hu.
  intros Ha Hw. pose proof (covers_vpn (mkMapping true a n) v gone_run Ha Hw) as E. cbn [m_virt m_pages] in E.
  unfold frame_of. replace (root_of k') with (root_of k) by (symmetry; apply (ur_root _ _ _ _ _ _ Hu)).
  rewrite (ur_translate _ _ _ _ _ _ Hu), E, Z.add_0_r. split; intros; by case_decide.
Qed.

(** A page that stays keeps its frame and its content. *)
Lemma less_keeps v : user_page k' v -> keeps_user_page v /\
  exists f, frame_of k' v = Some f /\ frame_of k v = Some f /\ data_page (vm k') (root_of k) f.
Proof using Hk Hc Hp Hu.
  intros [Hv Ng]%less_user_pages. destruct (um_frames k Hk v Hv) as (f & E & D).
  pose proof (user_in_windows k Hk v Hv) as Hw. pose proof (proj1 Hv) as Ha.
  destruct (ur_keeps _ _ _ _ _ _ Hu f) as [D' S]; [|done|].
  { intros i Hi E2. apply Ng. assert (Hi' : user_page k (page_of a i)).
    { split; [apply page_of_aligned, gone_run|]. exists (CURRENT_PROCESS_INDEX k), (mkMapping true a n).
      split_and!; [apply (um_cur k Hk)|apply gone_in|]. unfold covers, m_end, page_of, PAGE_SIZE in *. simpl. lia. }
    rewrite (um_distinct k Hk v _ f Hv Hi' E E2). unfold covers, m_end, page_of, PAGE_SIZE in *. simpl. lia. }
  destruct (less_frame v Ha Hw) as [_ Ef]. specialize (Ef Ng). split.
  - intros g Eg. rewrite Ef. split; [done|]. rewrite E in Eg. by injection Eg as <-.
  - exists f. by rewrite Ef.
Qed.

Lemma one_less_mapped :
  user_memory_ok k' /\ (forall i, 0 <= i < n -> frame_of k' (page_of a i) = None) /\
  same_outside a n /\ (forall v, user_page k' v -> keeps_user_page v).
Proof using Hk Hc Hp Hu.
  assert (Er : root_of k' = root_of k) by apply (ur_root _ _ _ _ _ _ Hu). split_and!.
  - destruct changed_procs as (P1 & P2 & P3 & P4). split; try done.
    + rewrite Er. apply (ur_wf _ _ _ _ _ _ Hu).
    + intros v Hv. destruct (less_keeps v Hv) as (_ & f & E & _ & D). exists f. by rewrite Er.
    + intros v w f Hv Hw. destruct (less_keeps v Hv) as (_ & g & -> & E1 & _), (less_keeps w Hw) as (_ & h & -> & E2 & _).
      intros [= ->] [= ->]. apply less_user_pages in Hv as [Hv _], Hw as [Hw _]. by apply (um_distinct k Hk v w f).
    + intros v Ha Hw. rewrite less_user_pages. destruct (less_frame v Ha Hw) as [F1 F2].
      destruct (decide (m_virt (mkMapping true a n) <= v < m_end (mkMapping true a n))) as [Cm|Nm]; [right; by apply F1|].
      rewrite F2 by done. destruct (um_only k Hk v Ha Hw); [by left|by right].
  - intros i Hi. assert (Cm : covers (mkMapping true a n) (page_of a i))
      by (unfold covers, m_end, page_of, PAGE_SIZE in *; simpl; lia).
    apply less_frame; [apply page_of_aligned, gone_run| |done].
    destruct gone_window as [W Hw]. exact (mapping_in_windows _ _ _ W Hw Cm).
  - exact less_outside.
  - intros v Hv. by apply less_keeps.
Qed.

End Less.

End Change.

(** ** The calls *)

Lemma lift_kernel_pml4 k :
  tables_wf (vm k) (root_of k) -> lift_vm ensure_kernel_pml4 k = (k, Some (root_of k)).
Proof.
  intros Hwf%root_nonzero. unfold lift_vm, ensure_kernel_pml4. fold (root_of k). rewrite Hwf. simpl. by destruct k.
Qed.

(** What mapping a fresh range leaves of the tables, and what the call then answers. *)
Definition mapping_answer (root base n : Z) (v v' : Vm) (r : Z) : Prop :=
  (r = 0 /\ (v' = v \/ (high_run base n /\ map_user_pages root base n v = (v', false)))) \/
  (r = base /\ high_run base n /\ map_user_pages root base n v = (v', true)).

Lemma track_and_map_vm i root base n k :
  table_sized k -> (i < PROCESS_COUNT)%nat -> high_run base n ->
  let '(k', r) := track_and_map i root base n k in
  mapping_answer root base n (vm k) (vm k') r /\
  pid (proc k' i) = pid (proc k i) /\ mmap_next (proc k' i) = mmap_next (proc k i).
Proof.
  intros Hs Hi Hr. unfold track_and_map, mapping_answer. pose proof (track_frame i base n k Hs Hi) as [F E].
  assert (Ev : vm (fst (process_track_mapping i base n k)) = vm k).
  { unfold process_track_mapping. destruct (Nat.leb _ _); [done|]. by destruct (find_first _ _). }
  destruct (process_track_mapping i base n k) as [k1 ok]. cbn [fst] in *.
  assert (E1 : pid (proc k1 i) = pid (proc k i) /\ mmap_next (proc k1 i) = mmap_next (proc k i)) by by rewrite E.
  destruct ok; cbn [negb]; [|split; [left; auto|done]].
  unfold lift_vm. rewrite Ev. destruct (map_user_pages root base n (vm k)) as [v [|]]; cbn [negb].
  { split; [by right|done]. }
  set (k2 := {| k1 with vm := v |}).
  pose proof (untrack_frame i base n k2 (fr_sized _ _ _ F) Hi) as [_ E3].
  assert (Ev3 : vm (fst (process_untrack_mapping i base n k2)) = v).
  { unfold process_untrack_mapping. destruct (Nat.leb _ _); [done|]. by destruct (find_first _ _). }
  destruct (process_untrack_mapping i base n k2) as [k3 ok]. cbn [fst] in *. rewrite Ev3. split; [left; auto|].
  rewrite E3. exact E1.
Qed.

Section Calls.

Context (k : Kernel) (Hk : user_memory_ok k).

Abbreviation cur := (CURRENT_PROCESS_INDEX k).

Lemma cur_windows : windows_ok (proc k cur).
Proof using Hk. apply (um_windows k Hk). split; [apply (um_cur k Hk)|by left]. Qed.

(** Bumping a window and mapping the pages below the new bound. *)
Lemma bump_and_map_vm (f : Process -> Process) base n :
  pid (f (proc k cur)) = pid (proc k cur) -> high_run base n ->
  let '(k', r) := track_and_map cur (root_of k) base n (update_proc cur f k) in
  mapping_answer (root_of k) base n (vm k) (vm k') r /\
  pid (proc k' cur) = pid (proc k cur) /\ mmap_next (proc k' cur) = mmap_next (f (proc k cur)).
Proof using Hk.
  intros Hp Hr. pose proof (um_cur k Hk) as Hi. pose proof (um_sized k Hk) as Hs.
  pose proof (track_and_map_vm cur (root_of k) base n (update_proc cur f k)
    (fr_sized _ _ _ (frame_update cur k f Hs Hi)) Hi Hr) as T.
  destruct (track_and_map _ _ _ _ _) as [k' r]. rewrite proc_update, decide_True in T by (done || lia).
  destruct T as (T1 & T2 & T3). split_and!; [done|congruence|done].
Qed.

Lemma mem_alloc_vm n : 0 <= n ->
  let '(k', r) := mem_alloc_pages n k in
  mapping_answer (root_of k) (heap_next (proc k cur)) n (vm k) (vm k') r /\
  pid (proc k' cur) = pid (proc k cur) /\ mmap_next (proc k' cur) = mmap_next (proc k cur) /\
  (r <> 0 -> heap_next (proc k cur) + n * PAGE_SIZE <= heap_limit (proc k cur)).
Proof using Hk.
  intros Hn. pose proof cur_windows as [Hp [Hb Hl] _ [Hx Ha] _ _ _ _]. unfold mem_alloc_pages.
  assert (H0 : forall r, r = 0 -> mapping_answer (root_of k) (heap_next (proc k cur)) n (vm k) (vm k) r /\
    pid (proc k cur) = pid (proc k cur) /\ mmap_next (proc k cur) = mmap_next (proc k cur) /\
    (r <> 0 -> heap_next (proc k cur) + n * PAGE_SIZE <= heap_limit (proc k cur))).
  { intros r ->. split; [left; auto|done]. }
  destruct (_ || _); [by apply H0|]. rewrite (lift_kernel_pml4 k (um_tables k Hk)).
  destruct (_ || _ || _); [by apply H0|]. destruct (window_next _ _ _) as [nx|] eqn:Ew; [|by apply H0].
  apply window_next_some in Ew as [-> Hlim]. assert (Hr : high_run (heap_next (proc k cur)) n).
  { rewrite heap_window_eq in Hb by done. unfold high_run. split_and!; [done|done|win_const; lia..]. }
  pose proof (bump_and_map_vm (fun p => {| p with heap_next := heap_next (proc k cur) + n * PAGE_SIZE |}) _ n eq_refl Hr) as B.
  destruct (track_and_map _ _ _ _ _) as [k' r]. destruct B as (B1 & B2 & B3). by split_and!.
Qed.

Definition guard_pages (flags : Z) : Z := if Z.land flags MEM_MAP_GUARD =? 0 then 0 else 1.

Lemma mem_map_vm n flags : 0 <= n ->
  let g := guard_pages flags * PAGE_SIZE in
  let base := mmap_next (proc k cur) + g in
  let '(k', r) := mem_map_pages n flags k in
  mapping_answer (root_of k) base n (vm k) (vm k') r /\ pid (proc k' cur) = pid (proc k cur) /\
  mmap_next (proc k cur) <= mmap_next (proc k' cur) /\
  (r <> 0 -> mmap_next (proc k' cur) = base + n * PAGE_SIZE + g).
Proof using Hk.
  intros Hn. cbv zeta. pose proof cur_windows as [Hp _ Hml _ [Hx Ha] _ _ _]. unfold mem_map_pages, guard_pages.
  set (base := mmap_next (proc k cur) + _).
  assert (H0 : mapping_answer (root_of k) base n (vm k) (vm k) 0) by (left; auto).
  destruct (_ || _); [by split_and!|]. destruct (negb (Z.ldiff _ _ =? 0)); [by split_and!|].
  rewrite (lift_kernel_pml4 k (um_tables k Hk)). destruct (checked64 _) as [total|] eqn:Et; [|by split_and!].
  destruct (_ || _); [by split_and!|]. destruct (window_next _ _ _) as [nx|] eqn:Ew; [|by split_and!].
  apply window_next_some in Ew as [-> Hlim].
  assert (Hb : (if negb (Z.land flags MEM_MAP_GUARD =? 0) then mmap_next (proc k cur) + PAGE_SIZE
    else mmap_next (proc k cur)) = base) by (unfold base; destruct (Z.land _ _ =? 0); simpl; lia).
  rewrite Hb. assert (Htot : total = n + 2 * (if Z.land flags MEM_MAP_GUARD =? 0 then 0 else 1)).
  { unfold checked64 in Et. destruct (_ <? _) in Et; [|done]. injection Et as <-. destruct (Z.land _ _ =? 0); simpl; lia. }
  assert (Hr : high_run base n).
  { rewrite mmap_window_eq in * by done. unfold high_run, base. split_and!; [|done|..].
    - by apply (page_of_aligned (mmap_next (proc k cur)) (if Z.land flags MEM_MAP_GUARD =? 0 then 0 else 1)).
    - win_const. destruct (Z.land _ _ =? 0); lia.
    - win_const. destruct (Z.land _ _ =? 0); lia. }
  pose proof (bump_and_map_vm (fun p => {| p with mmap_next := mmap_next (proc k cur) + total * PAGE_SIZE |})
    base n eq_refl Hr) as B.
  destruct (track_and_map _ _ _ _ _) as [k' r]. destruct B as (B1 & B2 & B3). cbn [mmap_next] in B3. split_and!; [done|done|..].
  - rewrite B3. destruct (Z.land _ _ =? 0); win_const; lia.
  - intros _. rewrite B3. unfold base. destruct (Z.land _ _ =? 0); lia.
Qed.

End Calls.

Lemma mem_unmap_vm a n k :
  table_sized k -> (CURRENT_PROCESS_INDEX k < PROCESS_COUNT)%nat ->
  let '(k', r) := mem_unmap_pages a n k in
  vm k' = (if r =? 0 then fst (unmap_user_pages (root_of k) a n (vm k)) else vm k) /\
  pid (proc k' (CURRENT_PROCESS_INDEX k)) = pid (proc k (CURRENT_PROCESS_INDEX k)) /\
  mmap_next (proc k' (CURRENT_PROCESS_INDEX k)) = mmap_next (proc k (CURRENT_PROCESS_INDEX k)).
Proof.
  intros Hs Hi. unfold mem_unmap_pages. destruct (_ || _); [done|].
  pose proof (untrack_frame (CURRENT_PROCESS_INDEX k) a n k Hs Hi) as [_ E].
  assert (Ev : vm (fst (process_untrack_mapping (CURRENT_PROCESS_INDEX k) a n k)) = vm k).
  { unfold process_untrack_mapping. destruct (Nat.leb _ _); [done|]. by destruct (find_first _ _). }
  destruct (process_untrack_mapping _ a n k) as [k1 ok]. cbn [fst] in *.
  destruct ok; cbn [negb]; [|cbn; split_and!; [done|by rewrite E..]].
  unfold lift_vm. rewrite Ev. fold (root_of k). destruct (unmap_user_pages _ a n (vm k)) as [v c].
  split; [done|]. change (proc {| k1 with vm := v |} (CURRENT_PROCESS_INDEX k)) with (proc k1 (CURRENT_PROCESS_INDEX k)).
  by rewrite E.
Qed.

Section Effects.

Context (k : Kernel) (Hk : user_memory_ok k).

Abbreviation cur := (CURRENT_PROCESS_INDEX k).

(** A call that failed: every translation and every page's content is as it was. *)
Definition nothing_changed (k' : Kernel) : Prop :=
  (forall w, frame_of k' w = frame_of k w) /\ (forall v, user_page k v -> keeps_user_page k k' v).

(** A call that mapped [n] pages at [base]. *)
Definition pages_granted (k' : Kernel) (base n : Z) : Prop :=
  high_run base n /\ freshly_backed k k' base n /\ same_outside k k' base n /\ (forall v, user_page k v -> keeps_user_page k k' v).

(** A call that removed [n] pages at [a]. *)
Definition pages_removed (k' : Kernel) (a n : Z) : Prop :=
  high_run a n /\ (forall i, 0 <= i < n -> user_page k (page_of a i) /\ frame_of k' (page_of a i) = None) /\
  same_outside k k' a n /\ (forall v, user_page k' v -> keeps_user_page k k' v).

(** What every call keeps: the invariant, the top-level table as far as it is filled,
    and every page that is not behind a mapping. *)
Record memory_step (k' : Kernel) : Prop := {
  ms_ok : user_memory_ok k';
  ms_root : root_of k' = root_of k;
  ms_cr3 : vm_cr3 (vm k') = vm_cr3 (vm k);
  ms_top : top_kept (root_of k) (vm k) (vm k');
  ms_keeps f : (forall v, user_page k v -> frame_of k v <> Some f) -> keeps_page (root_of k) (vm k) (vm k') f
}.

Lemma failed_effect k' base :
  own_change k k' -> used_mappings (proc k' cur) ≡ₚ used_mappings (proc k cur) ->
  mapped_run (root_of k) base (vm k) (vm k') [] -> memory_step k' /\ nothing_changed k'.
Proof using Hk.
  intros Hc Hp M. destruct (nothing_mapped k k' Hk Hc base Hp M) as [Hk' Ef].
  split; [by split; [done|apply M|apply M|apply M|intros f _; apply M]|]. split; [done|]. intros v Hv f E. rewrite Ef. split; [done|].
  destruct (um_frames k Hk v Hv) as (g & Eg & D). rewrite E in Eg. injection Eg as <-.
  by apply (mr_keeps _ _ _ _ _ M).
Qed.

(** Both allocating calls. *)
Lemma grant_effect k' base n r :
  base <> 0 -> pid (proc k' cur) = pid (proc k cur) -> alloc_post n k k' r ->
  mapping_answer (root_of k) base n (vm k) (vm k') r ->
  memory_step k' /\ ((r = 0 /\ nothing_changed k') \/ (r = base /\ pages_granted k' r n)).
Proof using Hk.
  intros Hb Hpid (F & W & Hu) Hm. assert (Hc : own_change k k') by by split.
  pose proof (um_tables k Hk) as Wf. destruct Hm as [(-> & Hv)|(-> & Hr & Em)].
  - destruct Hu as [[_ Hu]|[? _]]; [|done].
    assert (M : mapped_run (root_of k) base (vm k) (vm k') []).
    { destruct Hv as [->|[Hr Em]]; [by apply mapped_run_nil|].
      pose proof (map_run_spec (root_of k) base n (vm k) Hr Wf) as S. by rewrite Em in S. }
    destruct (failed_effect k' base Hc Hu M). split; [done|by left].
  - destruct Hu as [[? _]|[_ Hu]]; [done|].
    pose proof (map_run_spec (root_of k) base n (vm k) Hr Wf) as S. rewrite Em in S. destruct S as (fs & Hl & M).
    destruct (one_more_mapped k k' Hk Hc base n fs Hu Hr Hl M) as (Hk' & Hf).
    split; [by split; [done|apply M|apply M|apply M|intros f _; apply M]|]. right. split; [done|by split].
Qed.

Lemma unmap_effect a n :
  let '(k', r) := mem_unmap_pages a n k in
  memory_step k' /\ ((r = -1 /\ nothing_changed k') \/ (r = 0 /\ pages_removed k' a n)).
Proof using Hk.
  pose proof (um_sized k Hk) as Hs. pose proof (um_cur k Hk) as Hi. pose proof (cur_windows k Hk) as W.
  pose proof (mem_unmap_post a n k Hs Hi W) as P. pose proof (mem_unmap_vm a n k Hs Hi) as V.
  destruct (mem_unmap_pages a n k) as [k' r]. destruct P as (F & W' & Hu), V as (Ev & Hpid & _).
  assert (Hc : own_change k k') by by split. pose proof (um_tables k Hk) as Wf.
  destruct Hu as [[-> Hu]|[-> Hu]]; cbn in Ev.
  - assert (M : mapped_run (root_of k) 0 (vm k) (vm k') []) by (rewrite Ev; by apply mapped_run_nil).
    destruct (failed_effect k' 0 Hc ltac:(by rewrite Hu) M). split; [done|by left].
  - pose proof (gone_run k k' Hk a n Hu) as Hr. pose proof Hr as (_ & Hn & _).
    assert (Hpages : forall i, 0 <= i < n -> user_page k (page_of a i)).
    { intros i Hin. split; [apply page_of_aligned, Hr|]. exists cur, (mkMapping true a n).
      split_and!; [done|rewrite Hu; by left|]. unfold covers, m_end, page_of, PAGE_SIZE in *. simpl. lia. }
    pose proof (unmap_run_spec (Z.to_nat n) (vm k) (root_of k) a 0 0 n Hr ltac:(lia) ltac:(lia) Wf) as U.
    rewrite Z.add_0_l, Z2Nat.id in U by done.
    specialize (U (user_run_backed k Hk a n Hr Hpages)).
    change (unmap_from (Z.to_nat n) 0 (root_of k) a 0 (vm k)) with (unmap_user_pages (root_of k) a n (vm k)) in U.
    rewrite <- Ev in U. destruct (one_less_mapped k k' Hk Hc a n Hu U) as (Hk' & H1 & H2 & H3).
    split; [split; [done|apply U|apply U|apply U|intros f Hf; apply U; intros i Hin; apply Hf, Hpages; lia]|]. right. split; [done|]. split; [done|]. split; [|by split]. intros i Hin. split; [by apply Hpages|by apply H1].
Qed.

Lemma alloc_effect n : 0 <= n ->
  let '(k', r) := mem_alloc_pages n k in
  memory_step k' /\
  ((r = 0 /\ nothing_changed k') \/ (r = heap_next (proc k cur) /\ pages_granted k' r n)) /\
  (r <> 0 -> heap_next (proc k cur) + n * PAGE_SIZE <= heap_limit (proc k cur)).
Proof using Hk.
  intros Hn. pose proof (mem_alloc_post n k (um_sized k Hk) (um_cur k Hk) (cur_windows k Hk) Hn) as P.
  pose proof (mem_alloc_vm k Hk n Hn) as V. destruct (mem_alloc_pages n k) as [k' r]. destruct V as (V1 & V2 & _ & V3).
  assert (Hb : heap_next (proc k cur) <> 0).
  { destruct (cur_windows k Hk) as [Hp [Hb _] _ [Hx _] _ _ _ _]. rewrite heap_window_eq in Hb by done. win_const. lia. }
  destruct (grant_effect k' _ n r Hb V2 P V1). by split_and!.
Qed.

Lemma map_effect n flags : 0 <= n ->
  let g := guard_pages flags * PAGE_SIZE in
  let '(k', r) := mem_map_pages n flags k in
  memory_step k' /\
  ((r = 0 /\ nothing_changed k') \/ (r = mmap_next (proc k cur) + g /\ pages_granted k' r n)) /\
  mmap_next (proc k cur) <= mmap_next (proc k' cur) /\
  (r <> 0 -> mmap_next (proc k' cur) = r + n * PAGE_SIZE + g).
Proof using Hk.
  intros Hn. pose proof (mem_map_post n flags k (um_sized k Hk) (um_cur k Hk) (cur_windows k Hk) Hn) as P.
  pose proof (mem_map_vm k Hk n flags Hn) as V. cbv zeta in V |- *. destruct (mem_map_pages n flags k) as [k' r].
  destruct V as (V1 & V2 & V3 & V4).
  assert (Hb : mmap_next (proc k cur) + guard_pages flags * PAGE_SIZE <> 0).
  { destruct (cur_windows k Hk) as [Hp _ _ _ [Hx _] _ _ _]. rewrite mmap_window_eq in Hx by done.
    unfold guard_pages. win_const. destruct (_ =? 0); lia. }
  destruct (grant_effect k' _ n r Hb V2 P V1) as [Hk' Hr]. split_and!; [done|done|done|]. intros Hr0.
  rewrite V4 by done. destruct Hr as [[? _]|[-> _]]; [done|lia].
Qed.

(** ** Guard pages *)

(** A page of the mapping window that has been passed over. *)
Definition fenced (k : Kernel) (v : Z) : Prop :=
  page_aligned v /\
  mmap_window (pid (proc k (CURRENT_PROCESS_INDEX k))) <= v < mmap_next (proc k (CURRENT_PROCESS_INDEX k)) /\
  frame_of k v = None.

(** No mapping lies above the bump pointer. *)
Lemma above_next_free v : mmap_next (proc k cur) <= v < mmap_window (pid (proc k cur)) + USER_MMAP_STRIDE -> ~ user_page k v.
Proof using Hk.
  intros Hv (_ & i & m & Hi & Hm & Cm). destruct (owner_window k Hk i m Hi Hm) as [Wi (_ & _ & Hpl)].
  pose proof (cur_windows k Hk) as Wc. pose proof Wc as [Hp [Hb Hl] Hml [Hn _] [Hx _] _ _ _].
  destruct (decide (i = cur)) as [->|Hne].
  - rewrite mmap_window_eq in * by done. rewrite heap_window_eq in * by done.
    unfold placed, covers in *. win_const. lia.
  - assert (Hpid : pid (proc k i) <> pid (proc k cur)).
    { intros E. apply Hne, (um_pids k Hk); [by apply (owner_active k i m)|split; [apply (um_cur k Hk)|by left]|done]. }
    destruct Wi as [Hp' [Hb' Hl'] Hml' [Hn' _] [Hx' _] _ _ _].
    rewrite mmap_window_eq in * by done. rewrite heap_window_eq in * by done.
    unfold placed, covers in *. win_const. lia.
Qed.

Lemma above_next_unmapped v :
  page_aligned v -> mmap_next (proc k cur) <= v < mmap_window (pid (proc k cur)) + USER_MMAP_STRIDE -> frame_of k v = None.
Proof using Hk.
  intros Ha Hv. destruct (um_only k Hk v Ha) as [Hu|?]; [|by apply above_next_free in Hu|done].
  destruct (cur_windows k Hk) as [Hp _ Hml _ [Hx _] _ _ _]. rewrite mmap_window_eq in * by done.
  unfold in_windows. win_const. lia.
Qed.

Lemma call_kept c : 0 <= call_pages c ->
  let k' := fst (mem_call c k) in
  CURRENT_PROCESS_INDEX k' = cur /\ pid (proc k' cur) = pid (proc k cur) /\
  mmap_next (proc k cur) <= mmap_next (proc k' cur).
Proof using Hk.
  intros Hn. pose proof (um_sized k Hk) as Hs. pose proof (um_cur k Hk) as Hi. pose proof (cur_windows k Hk) as W.
  destruct c as [n|n flags|a n]; cbn [mem_call call_pages] in *.
  - pose proof (mem_alloc_post n k Hs Hi W Hn) as P. pose proof (mem_alloc_vm k Hk n Hn) as V.
    destruct (mem_alloc_pages n k) as [k' r]. destruct P as ([_ Ec _] & _), V as (_ & V2 & V3 & _). cbn [fst]. split_and!; [done..|lia].
  - pose proof (mem_map_post n flags k Hs Hi W Hn) as P. pose proof (mem_map_vm k Hk n flags Hn) as V.
    destruct (mem_map_pages n flags k) as [k' r]. destruct P as ([_ Ec _] & _), V as (_ & V2 & V3 & _). by split_and!.
  - pose proof (mem_unmap_post a n k Hs Hi W) as P. pose proof (mem_unmap_vm a n k Hs Hi) as V.
    destruct (mem_unmap_pages a n k) as [k' r]. destruct P as ([_ Ec _] & _), V as (_ & V2 & V3). cbn [fst]. split_and!; [done..|lia].
Qed.

(** The calls leave the process's standard streams. *)
Lemma track_and_map_std i root base n k0 :
  table_sized k0 -> (i < PROCESS_COUNT)%nat ->
  std_fds (proc (fst (track_and_map i root base n k0)) i) = std_fds (proc k0 i).
Proof using.
  intros Hs Hi. unfold track_and_map. pose proof (track_frame i base n k0 Hs Hi) as [F E].
  destruct (process_track_mapping i base n k0) as [k1 ok]. cbn [fst] in *.
  destruct ok; cbn [negb fst]; [|by rewrite E]. unfold lift_vm.
  destruct (map_user_pages root base n (vm k1)) as [v [|]]; cbn [negb fst].
  { change (proc {| k1 with vm := v |} i) with (proc k1 i). by rewrite E. }
  pose proof (untrack_frame i base n {| k1 with vm := v |} (fr_sized _ _ _ F) Hi) as [_ E3].
  destruct (process_untrack_mapping i base n {| k1 with vm := v |}) as [k3 ok]. cbn [fst] in *. rewrite E3.
  change (proc {| k1 with vm := v |} i) with (proc k1 i). by rewrite E.
Qed.

Lemma bumped_std i (f : Process -> Process) root base n k0 :
  table_sized k0 -> (i < PROCESS_COUNT)%nat -> (forall p, std_fds (f p) = std_fds p) ->
  std_fds (proc (fst (track_and_map i root base n (update_proc i f k0))) i) = std_fds (proc k0 i).
Proof using.
  intros Hs Hi Hf. rewrite track_and_map_std; [|apply (frame_update i k0 f Hs Hi)|done].
  by rewrite proc_update, decide_True by (done || lia).
Qed.

Lemma call_std c : std_fds (proc (fst (mem_call c k)) cur) = std_fds (proc k cur).
Proof using Hk.
  pose proof (um_sized k Hk) as Hs. pose proof (um_cur k Hk) as Hi.
  destruct c as [n|n flags|a n]; cbn [mem_call].
  - unfold mem_alloc_pages. destruct (_ || _); [done|]. rewrite (lift_kernel_pml4 k (um_tables k Hk)).
    destruct (_ || _ || _); [done|]. destruct (window_next _ _ _) as [nx|]; [|done]. by apply bumped_std.
  - unfold mem_map_pages. destruct (_ || _); [done|]. destruct (negb (Z.ldiff _ _ =? 0)); [done|].
    rewrite (lift_kernel_pml4 k (um_tables k Hk)). destruct (checked64 _); [|done].
    destruct (_ || _); [done|]. destruct (window_next _ _ _) as [nx|]; [|done]. by apply bumped_std.
  - unfold mem_unmap_pages. destruct (_ || _); [done|]. pose proof (untrack_frame cur a n k Hs Hi) as [_ E].
    destruct (process_untrack_mapping cur a n k) as [k1 ok]. cbn [fst] in E.
    destruct ok; cbn [negb fst]; [|by rewrite E]. unfold lift_vm. destruct (unmap_user_pages _ a n _) as [v x].
    change (std_fds (proc k1 cur) = std_fds (proc k cur)). by rewrite E.
Qed.

Lemma fenced_window v : fenced k v -> in_windows v.
Proof using Hk.
  intros (_ & Hv & _). destruct (cur_windows k Hk) as [Hp _ Hml _ [Hx _] _ _ _].
  rewrite mmap_window_eq in * by done. unfold in_windows. win_const. lia.
Qed.

(** A mapping elsewhere leaves a fenced page unmapped. *)
Lemma granted_apart k' v base n :
  fenced k v -> base + n * PAGE_SIZE <= USER_MMAP_BASE \/ mmap_next (proc k cur) <= base ->
  pages_granted k' base n -> frame_of k' v = None.
Proof using Hk.
  intros Hf Hb (Hr & _ & Ho & _). pose proof Hf as (Ha & Hv & Hn). rewrite Ho; [done|].
  intros Hin. apply (covers_vpn (mkMapping true base n) v Hr Ha (fenced_window v Hf)) in Hin.
  destruct (cur_windows k Hk) as [Hp _ _ _ _ _ _ _]. rewrite mmap_window_eq in * by done.
  unfold covers, m_end in Hin. cbn [m_virt m_pages] in Hin. win_const. lia.
Qed.

Lemma fenced_after v c : 0 <= call_pages c -> fenced k v -> frame_of (fst (mem_call c k)) v = None.
Proof using Hk.
  intros Hn Hf. pose proof Hf as (Ha & Hv & Hno). destruct c as [n|n flags|a n]; cbn [mem_call call_pages] in *.
  - pose proof (alloc_effect n Hn) as E. destruct (mem_alloc_pages n k) as [k' r]. cbn [fst].
    destruct E as (_ & [(-> & Hw & _)|[-> Hg]] & Hl); [by rewrite Hw|]. apply (granted_apart k' v (heap_next (proc k cur)) n Hf); [left|done].
    destruct (cur_windows k Hk) as [Hp [Hb Hlm] _ [Hx _] _ _ _ _]. rewrite heap_window_eq in Hb by done.
    assert (Hz : heap_next (proc k cur) <> 0) by (win_const; lia). specialize (Hl Hz). win_const. lia.
  - pose proof (map_effect n flags Hn) as E. cbv zeta in E. destruct (mem_map_pages n flags k) as [k' r]. cbn [fst].
    destruct E as (_ & [(-> & Hw & _)|[-> Hg]] & _); [by rewrite Hw|]. apply (granted_apart k' v _ n Hf) in Hg; [done|right].
    unfold guard_pages. win_const. destruct (_ =? 0); lia.
  - pose proof (unmap_effect a n) as E. destruct (mem_unmap_pages a n k) as [k' r]. cbn [fst].
    destruct E as (_ & [(-> & Hw & _)|(_ & Hr & Hg & Ho & _)]); [by rewrite Hw|]. rewrite Ho; [done|]. intros Hin.
    destruct (Hg (vpn v - vpn a)) as [Hu _]; [lia|]. destruct (um_frames k Hk _ Hu) as (f & E & _).
    unfold frame_of in *. rewrite (translate_vpn _ _ _ v), Hno in E; [done|]. rewrite (vpn_page_of a n) by (done || lia). lia.
Qed.

(** A recorded mapping can be taken away. *)
Lemma unmap_succeeds a n :
  mkMapping true a n ∈ used_mappings (proc k cur) -> n <= USER_MMAP_MAX_PAGES_PER_CALL ->
  let '(k', r) := mem_unmap_pages a n k in r = 0.
Proof using Hk.
  intros Hm Hn. pose proof (um_sized k Hk) as Hs. pose proof (um_cur k Hk) as Hi. pose proof (cur_windows k Hk) as W.
  destruct (owner_window k Hk cur _ Hi Hm) as [_ (Hp & Ha & Hpl)]. cbn [m_virt m_pages] in *.
  pose proof (mapping_high_run _ (mkMapping true a n) W ltac:(by split)) as (_ & _ & Hlo & _). cbn [m_virt m_pages] in *.
  unfold mem_unmap_pages. destruct (Z.eqb_spec a 0); [lia|]. destruct (Z.eqb_spec n 0); [lia|].
  destruct (Z.ltb_spec USER_MMAP_MAX_PAGES_PER_CALL n); [lia|].
  replace (Z.land a (PAGE_SIZE - 1) =? 0) with true by (symmetry; by apply aligned_mask). cbn [orb negb].
  pose proof (untrack_spec k cur a n Hs Hi (wo_slots _ W)) as U.
  destruct (process_untrack_mapping cur a n k) as [k1 [|]]; cbn [negb]; [by destruct (lift_vm _ k1)|].
  by destruct U as [_ []].
Qed.

Lemma call_step c : 0 <= call_pages c -> memory_step (fst (mem_call c k)).
Proof using Hk.
  intros Hn. destruct c as [n|n flags|a n]; cbn [mem_call call_pages] in *.
  - pose proof (alloc_effect n Hn) as E. destruct (mem_alloc_pages n k). exact (proj1 E).
  - pose proof (map_effect n flags Hn) as E. cbv zeta in E. destruct (mem_map_pages n flags k). exact (proj1 E).
  - pose proof (unmap_effect a n) as E. destruct (mem_unmap_pages a n k). exact (proj1 E).
Qed.

(** A window page that is mapped is a user page. *)
Lemma mapped_user_page v f : page_aligned v -> in_windows v -> frame_of k v = Some f -> user_page k v.
Proof using Hk. intros Ha Hw E. destruct (um_only k Hk v Ha Hw) as [?|N]; [done|]. by rewrite E in N. Qed.

(** A page whose number is in a run is one of its pages. *)
Lemma frame_in_run k' base n v : high_run base n -> vpn base <= vpn v < vpn base + n ->
  frame_of k' v = frame_of k' (page_of base (vpn v - vpn base)).
Proof using. intros Hr Hv. apply translate_vpn. rewrite (vpn_page_of base n) by (done || lia). lia. Qed.

(** The frame behind a window page is the one it had, or a fresh one. *)
Lemma frames_before k' v f :
  (nothing_changed k' \/ (exists base n, pages_granted k' base n) \/ (exists a n, pages_removed k' a n)) ->
  page_aligned v -> in_windows v -> frame_of k' v = Some f ->
  (user_page k v /\ frame_of k v = Some f) \/ ~ data_page (vm k) (root_of k) f.
Proof using Hk.
  intros [[Hs _]|[(base & n & Hr & Hb & Ho & _)|(a & n & Hr & Hg & Ho & _)]] Ha Hw E.
  - rewrite Hs in E. left. split; [by apply (mapped_user_page v f)|done].
  - destruct (decide (vpn base <= vpn v < vpn base + n)) as [Hin|Hout].
    + right. destruct (Hb (vpn v - vpn base)) as (_ & g & Eg & Ng & _); [lia|].
      rewrite (frame_in_run k' base n v Hr Hin), Eg in E. by injection E as <-.
    + rewrite (Ho v Hout) in E. left. split; [by apply (mapped_user_page v f)|done].
  - destruct (decide (vpn a <= vpn v < vpn a + n)) as [Hin|Hout].
    + destruct (Hg (vpn v - vpn a)) as [_ N]; [lia|]. by rewrite (frame_in_run k' a n v Hr Hin), N in E.
    + rewrite (Ho v Hout) in E. left. split; [by apply (mapped_user_page v f)|done].
Qed.

Lemma call_effect c : 0 <= call_pages c ->
  let k' := fst (mem_call c k) in
  nothing_changed k' \/ (exists base n, pages_granted k' base n) \/ (exists a n, pages_removed k' a n).
Proof using Hk.
  intros Hn. destruct c as [n|n flags|a n]; cbn [mem_call call_pages] in *.
  - pose proof (alloc_effect n Hn) as E. destruct (mem_alloc_pages n k) as [k' r]. cbn [fst].
    destruct E as (_ & [[_ E]|[_ E]] & _); eauto.
  - pose proof (map_effect n flags Hn) as E. cbv zeta in E. destruct (mem_map_pages n flags k) as [k' r]. cbn [fst].
    destruct E as (_ & [[_ E]|[_ E]] & _); eauto.
  - pose proof (unmap_effect a n) as E. destruct (mem_unmap_pages a n k) as [k' r]. cbn [fst].
    destruct E as (_ & [[_ E]|[_ E]]); eauto.
Qed.

Lemma fence_step v c : 0 <= call_pages c -> fenced k v -> fenced (fst (mem_call c k)) v.
Proof using Hk.
  intros Hn Hf. pose proof (fenced_after v c Hn Hf) as Hno. pose proof Hf as (Ha & Hv & _).
  destruct (call_kept c Hn) as (Ec & Ep & Em). unfold fenced. rewrite Ec, Ep. split_and!; [done|lia|lia|done].
Qed.

(** The two guard pages of a new mapping are fenced. *)
Lemma guarded_fences n flags : 0 <= n -> Z.land flags MEM_MAP_GUARD <> 0 ->
  let '(k', r) := mem_map_pages n flags k in
  r <> 0 -> user_memory_ok k' /\ fenced k' (r - PAGE_SIZE) /\ fenced k' (r + n * PAGE_SIZE).
Proof using Hk.
  intros Hn Hg. pose proof (map_effect n flags Hn) as E. pose proof (call_kept (MemMap n flags) Hn) as K.
  cbn [mem_call] in K. cbv zeta in E, K. destruct (mem_map_pages n flags k) as [k' r]. cbn [fst] in K.
  destruct K as (Ec & Ep & _). intros Hr. destruct E as ([Hk' _ _ _ _] & [[? _]|[Er Hgr]] & _ & Em); [done|].
  specialize (Em Hr). assert (G : guard_pages flags = 1) by (unfold guard_pages; by case_goal; [lia|]).
  rewrite G, Z.mul_1_l in Er, Em. pose proof (cur_windows k' Hk') as W'. rewrite Ec in W'.
  destruct W' as [_ _ Hml' _ [Hx' Ha'] _ _ _]. destruct (cur_windows k Hk) as [Hp _ Hml _ [Hx Ha] _ _ _]. rewrite Ep in *.
  destruct Hgr as (Hrun & _ & Ho & _). split; [done|].
  assert (Hf : forall v, page_aligned v -> v = r - PAGE_SIZE \/ v = r + n * PAGE_SIZE -> fenced k' v).
  { intros v Hav Hv. assert (Hlow : mmap_next (proc k cur) <= v) by (win_const; lia).
    split; [done|]. rewrite Ec, Ep. split; [win_const; lia|]. rewrite Ho.
    - apply above_next_unmapped; [done|]. win_const. lia.
    - intros Hin. apply (covers_vpn (mkMapping true r n) v Hrun Hav) in Hin.
      + unfold covers, m_end in Hin. cbn [m_virt m_pages] in Hin. win_const. lia.
      + rewrite mmap_window_eq in * by done. unfold in_windows. win_const. lia. }
  split; apply Hf; auto.
  - unfold page_aligned. replace (r - PAGE_SIZE) with (mmap_next (proc k cur)) by lia. done.
  - by apply (page_of_aligned r n), Hrun.
Qed.

End Effects.

(** ** Properties *)

(** C19: whatever memory call a process makes, every page of a recorded mapping stays
    backed by a frame of its own and no other page of the windows is mapped. An
    allocation that succeeds puts fresh zeroed frames behind pages that were unmapped;
    a call that fails, even half-way through mapping its pages, changes no
    translation; an unmap takes away exactly the pages it names. The content of every
    other page stays. *)
Theorem memory_calls_back_pages c k :
  user_memory_ok k -> 0 <= call_pages c ->
  let '(k', r) := mem_call c k in
  user_memory_ok k' /\
  match c with
  | MemAlloc n | MemMap n _ => (r = 0 /\ nothing_changed k k') \/ (r <> 0 /\ pages_granted k k' r n)
  | MemUnmap a n => (r = -1 /\ nothing_changed k k') \/ (r = 0 /\ pages_removed k k' a n)
  end.
Proof.
  intros Hk Hn. destruct c as [n|n flags|a n]; cbn [mem_call call_pages] in *.
  - pose proof (alloc_effect k Hk n Hn) as E. destruct (mem_alloc_pages n k) as [k' r].
    destruct E as ([Hk' _ _ _ _] & [E|[E Hg]] & _); (split; [done|]); [by left|right]. split; [|done].
    destruct Hg as ((_ & _ & Hb & _) & _). lia.
  - pose proof (map_effect k Hk n flags Hn) as E. cbv zeta in E. destruct (mem_map_pages n flags k) as [k' r].
    destruct E as ([Hk' _ _ _ _] & [E|[E Hg]] & _); (split; [done|]); [by left|right]. split; [|done].
    destruct Hg as ((_ & _ & Hb & _) & _). lia.
  - pose proof (unmap_effect k Hk a n) as E. destruct (mem_unmap_pages a n k) as [k' r].
    destruct E as ([Hk' _ _ _ _] & E). by split.
Qed.

(** The calls of one process, one after the other. *)
Definition mem_calls (cs : list MemCall) (k : Kernel) : Kernel :=
  fold_left (fun k c => fst (mem_call c k)) cs k.

Lemma fence_stays cs k v :
  user_memory_ok k -> Forall (fun c => 0 <= call_pages c) cs -> fenced k v ->
  user_memory_ok (mem_calls cs k) /\ fenced (mem_calls cs k) v.
Proof.
  intros Hk Hc Hf. revert k Hk Hf. induction Hc as [|c cs Hn _ IH]; intros k Hk Hf; [done|].
  apply IH; [by apply (ms_ok k), call_step|by apply fence_step].
Qed.

(** C20: the page before and the page after a mapping made with the guard flag are
    unmapped, and stay unmapped whatever memory calls the process makes next. *)
Theorem guard_pages_stay_unmapped n flags cs k :
  user_memory_ok k -> 0 <= n -> Forall (fun c => 0 <= call_pages c) cs -> Z.land flags MEM_MAP_GUARD <> 0 ->
  let '(k', r) := mem_map_pages n flags k in
  r <> 0 ->
  let k'' := mem_calls cs k' in
  frame_of k'' (r - PAGE_SIZE) = None /\ frame_of k'' (r + n * PAGE_SIZE) = None.
Proof.
  intros Hk Hn Hc Hg. pose proof (guarded_fences k Hk n flags Hn Hg) as G.
  destruct (mem_map_pages n flags k) as [k' r]. intros Hr. destruct (G Hr) as (Hk' & F1 & F2).
  destruct (fence_stays cs k' _ Hk' Hc F1) as [_ (_ & _ & N1)].
  by destruct (fence_stays cs k' _ Hk' Hc F2) as [_ (_ & _ & N2)].
Qed.

(** ** Witnesses *)

(** Before any call: no mappings, and nothing in the windows. *)
Lemma fresh_user_memory k :
  table_sized k -> (CURRENT_PROCESS_INDEX k < PROCESS_COUNT)%nat -> windows_ok (proc k (CURRENT_PROCESS_INDEX k)) ->
  forallb (fun i => match used_mappings (proc k i) with [] => true | _ => false end) (seq 0 PROCESS_COUNT) = true ->
  tables_wf (vm k) (root_of k) -> (forall v, in_windows v -> frame_of k v = None) -> user_memory_ok k.
Proof.
  intros Hs Hc W Hu Hwf Hm.
  assert (Hno : forall i, (i < PROCESS_COUNT)%nat -> used_mappings (proc k i) = []).
  { intros i Hi. rewrite forallb_forall in Hu. specialize (Hu i). rewrite in_seq in Hu. specialize (Hu ltac:(lia)).
    by destruct (used_mappings (proc k i)). }
  assert (Hp : forall v, ~ user_page k v).
  { intros v (_ & i & m & Hi & Hin & _). rewrite Hno in Hin by done. by apply not_elem_of_nil in Hin. }
  assert (Hact : forall i, active k i -> i = CURRENT_PROCESS_INDEX k).
  { intros i [Hi [->|Hne]]; [done|]. destruct Hne. by apply Hno. }
  split; try done.
  - by intros i ->%Hact.
  - by intros i j ->%Hact ->%Hact.
  - by intros v ?%Hp.
  - by intros v w f ?%Hp.
  - intros v _ Hv. right. by apply Hm.
Qed.

(** Process 3 in slot 0, prepared and current, over empty tables. *)
Definition user_kernel : Kernel :=
  let k := app_set_heap_window 0 3 (update_proc 0 (fun p => {| p with pid := 3 |}) (Kernel_new demo_vm)) in
  {| k with CURRENT_PROCESS_INDEX := 0%nat |}.

Lemma user_kernel_windows : windows_ok (proc user_kernel 0).
Proof.
  pose proof (set_window_ok (update_proc 0 (fun p => {| p with pid := 3 |}) (Kernel_new demo_vm)) 0) as H.
  apply H; try reflexivity; [apply Nat.ltb_lt; reflexivity|].
  vm_compute. split; [discriminate|reflexivity].
Qed.

Lemma user_kernel_memory : user_memory_ok user_kernel.
Proof.
  apply fresh_user_memory; try reflexivity.
  - apply Nat.ltb_lt. reflexivity.
  - exact user_kernel_windows.
  - exact demo_vm_wf.
Qed.

Lemma memory_calls_back_pages_witness :
  let r := mmap_window 3 + PAGE_SIZE in
  let k' := fst (mem_call (MemMap 2 MEM_MAP_GUARD) user_kernel) in
  snd (mem_call (MemMap 2 MEM_MAP_GUARD) user_kernel) = r /\
  exists f, frame_of k' r = Some f /\ forall o, 0 <= o < PAGE_SIZE -> vm_mem (vm k') (f + o) = 0.
Proof.
  cbv zeta. assert (E : snd (mem_call (MemMap 2 MEM_MAP_GUARD) user_kernel) = mmap_window 3 + PAGE_SIZE)
    by (vm_compute; reflexivity).
  split; [exact E|].
  pose proof (memory_calls_back_pages (MemMap 2 MEM_MAP_GUARD) user_kernel user_kernel_memory ltac:(simpl; lia)) as H.
  destruct (mem_call (MemMap 2 MEM_MAP_GUARD) user_kernel) as [k' r]. cbn [fst snd] in *. subst r.
  destruct H as (_ & [[E _]|[_ (_ & Hb & _)]]); [discriminate E|].
  destruct (Hb 0 ltac:(lia)) as (_ & f & Ef & _ & Hz). exists f. split; [exact Ef|exact Hz].
Defined.

Lemma guard_pages_stay_unmapped_witness :
  let r := mmap_window 3 + PAGE_SIZE in
  let k' := fst (mem_map_pages 2 MEM_MAP_GUARD user_kernel) in
  let k'' := mem_calls [MemMap 1 0; MemAlloc 3; MemUnmap r 2] k' in
  frame_of k'' (r - PAGE_SIZE) = None /\ frame_of k'' (r + 2 * PAGE_SIZE) = None.
Proof.
  cbv zeta. assert (E : snd (mem_map_pages 2 MEM_MAP_GUARD user_kernel) = mmap_window 3 + PAGE_SIZE)
    by (vm_compute; reflexivity).
  pose proof (guard_pages_stay_unmapped 2 MEM_MAP_GUARD
    [MemMap 1 0; MemAlloc 3; MemUnmap (mmap_window 3 + PAGE_SIZE) 2] user_kernel user_kernel_memory ltac:(lia)) as H.
  destruct (mem_map_pages 2 MEM_MAP_GUARD user_kernel) as [k' r]. cbn [fst snd] in *. subst r. apply H.
  - repeat (apply Forall_cons; split; [simpl; lia|]). by apply Forall_nil.
  - discriminate.
  - discriminate.
Defined.
