(* ===== verification/Elf.v ===== *)
(** * The program loader

    [load_program_elf_isolated] and [program_path] of [src/kernel/src/main.rs].
    The loader stores through the virtual addresses of the address space whose
    root is in CR3, so a store is a walk of the tables and the change of one byte
    of physical memory; a store to an unmapped page is a fault.

    The image is the memory behind the [elf] pointer, with its length. *)

From S2P Require Import Prelude Constants Text Phys Paging PagingThm.

(** ** Bytes of physical memory *)

(** Byte [phys] of the memory, a part of the 64-bit word that holds it. *)
Definition load_byte (mem : arr) (phys : Z) : Z :=
  mem (phys - phys mod 8) / 256 ^ (phys mod 8) mod 256.

Definition store_byte (phys b : Z) (s : Vm) : Vm :=
  let w := phys - phys mod 8 in
  let word := vm_mem s w + (b - load_byte (vm_mem s) phys) * 256 ^ (phys mod 8) in
  {| s with vm_mem := aset (vm_mem s) w word |}.

(** A store through the tables in CR3; [false] is a page fault. *)
Definition store_virt (virt b : Z) : ST Vm bool := fun s =>
  match translate s (vm_cr3 s) virt with
  | None => (s, false)
  | Some frame => (store_byte (frame + virt mod PAGE_SIZE) b s, true)
  end.

(** [zero_bytes] *)
Fixpoint zero_bytes (n : nat) (virt : Z) : ST Vm bool :=
  match n with
  | O => st_ret true
  | S n =>
      let* ok := store_virt virt 0 in
      if ok : bool then zero_bytes n (virt + 1) else st_ret false
  end.

(** [copy_nonoverlapping(elf + at, virt, n)] *)
Fixpoint copy_bytes (n : nat) (elf : arr) (at_ virt : Z) : ST Vm bool :=
  match n with
  | O => st_ret true
  | S n =>
      let* ok := store_virt virt (elf at_) in
      if ok : bool then copy_bytes n elf (at_ + 1) (virt + 1) else st_ret false
  end.

(** ** Headers *)

Record Elf64Header : Type := mkElfHeader {
  ident : bytes; machine : Z; e_entry : Z; phoff : Z; phentsize : Z; phnum : Z
}.

Record Elf64ProgramHeader : Type := mkPh {
  ph_typ : Z; ph_offset : Z; ph_paddr : Z; ph_filesz : Z; ph_memsz : Z
}.

Definition ELF_HEADER_SIZE : Z := 64.
Definition PROGRAM_HEADER_SIZE : Z := 56.

Definition read_u16 (mem : arr) (at_ : Z) : Z := mem at_ + 256 * mem (at_ + 1).
Definition read_u32 (mem : arr) (at_ : Z) : Z := read_le32_from_slice (slice mem at_ 4).
Definition read_u64 (mem : arr) (at_ : Z) : Z := read_le64_from_slice (slice mem at_ 8).

Definition elf_header (elf : arr) : Elf64Header :=
  mkElfHeader (slice elf 0 16) (read_u16 elf 18) (read_u64 elf 24) (read_u64 elf 32)
    (read_u16 elf 54) (read_u16 elf 56).

(** The program header behind the pointer [elf + at]. *)
Definition program_header (elf : arr) (at_ : Z) : Elf64ProgramHeader :=
  mkPh (read_u32 elf at_) (read_u64 elf (at_ + 8)) (read_u64 elf (at_ + 24))
    (read_u64 elf (at_ + 32)) (read_u64 elf (at_ + 40)).

Definition header_at (h : Elf64Header) (index : Z) : Z := u64 (phoff h + index * phentsize h).

(** ** Loading *)

(** [LoadFailed msg]: the line the loader prints before it gives up. *)
Inductive LoadResult : Type := Loaded (entry : Z) | LoadFailed (msg : bytes) | LoadFault.

Definition page_floor (x : Z) : Z := Z.ldiff x (PAGE_SIZE - 1).

Definition segment_skipped (ph : Elf64ProgramHeader) : bool :=
  negb (ph_typ ph =? PT_LOAD) || (ph_memsz ph =? 0).

(** The body of the loop over the program headers; [None]: go on. *)
Definition load_segment (elf : arr) (len pml4_phys : Z) (ph : Elf64ProgramHeader)
  : ST Vm (option LoadResult) :=
  if segment_skipped ph then st_ret None
  else if (len <? u64 (ph_offset ph + ph_filesz ph)) || (ph_memsz ph <? ph_filesz ph) then
    st_ret (Some (LoadFailed (bs "run: bad load segment")))
  else if (ph_paddr ph <? APP_LOAD_MIN) || (APP_LOAD_MAX <? u64 (ph_paddr ph + ph_memsz ph)) then
    st_ret (Some (LoadFailed (bs "run: segment outside app area")))
  else
    let page_start := page_floor (ph_paddr ph) in
    let page_end := page_floor (u64 (u64 (ph_paddr ph + ph_memsz ph + PAGE_SIZE) - 1)) in
    let page_count := u64 (page_end - page_start) / PAGE_SIZE in
    let* ok := map_image_pages pml4_phys page_start page_count in
    if negb ok then st_ret (Some (LoadFailed (bs "run: segment map failed")))
    else
      let* ok := zero_bytes (Z.to_nat (ph_memsz ph)) (ph_paddr ph) in
      if negb ok then st_ret (Some LoadFault)
      else
        let* ok := copy_bytes (Z.to_nat (ph_filesz ph)) elf (ph_offset ph) (ph_paddr ph) in
        st_ret (if ok : bool then None else Some LoadFault).

Fixpoint load_segments (n : nat) (index : Z) (elf : arr) (len pml4_phys : Z) (h : Elf64Header)
  : ST Vm LoadResult :=
  match n with
  | O => st_ret (Loaded (e_entry h))
  | S n =>
      let* r := load_segment elf len pml4_phys (program_header elf (header_at h index)) in
      match r with
      | Some r => st_ret r
      | None => load_segments n (index + 1) elf len pml4_phys h
      end
  end.

Definition load_program_elf_isolated (elf : arr) (len pml4_phys : Z) : ST Vm LoadResult :=
  if len <? ELF_HEADER_SIZE then st_ret (LoadFailed (bs "run: bad elf header"))
  else
    let h := elf_header elf in
    if negb (bytes_eq (take 4 (ident h)) ELF_MAGIC) || negb (nth 4 (ident h) 0 =? 2)
       || negb (machine h =? 0x3E) then st_ret (LoadFailed (bs "run: unsupported elf"))
    else if (phentsize h <? PROGRAM_HEADER_SIZE) || (len <? u64 (phoff h + phentsize h * phnum h)) then
      st_ret (LoadFailed (bs "run: bad program headers"))
    else load_segments (Z.to_nat (phnum h)) 0 elf len pml4_phys h.

(** ** The path of a program *)

(** The path is built in a [[u8; 32]]; [None] is the panic of slicing past it. *)
Definition program_path (name : bytes) : option bytes :=
  let room := fun (path : bytes) => if 32 <? blen path then None else Some path in
  if contains name (ch "/") then room name
  else
    let path := bs "programs/" ++ name in
    if ends_with name (bs ".elf") then room path else room (path ++ bs ".elf").

(** ** What a loaded image contains *)

(** The byte the program sees at a virtual address; unmapped pages read as 0. *)
Definition virt_byte (s : Vm) (root virt : Z) : Z :=
  match translate s root virt with
  | None => 0
  | Some frame => load_byte (vm_mem s) (frame + virt mod PAGE_SIZE)
  end.

Definition covers (ph : Elf64ProgramHeader) (v : Z) : Prop :=
  segment_skipped ph = false /\ ph_paddr ph <= v < ph_paddr ph + ph_memsz ph.

Definition covers_dec (ph : Elf64ProgramHeader) (v : Z) : bool :=
  negb (segment_skipped ph) && (ph_paddr ph <=? v) && (v <? ph_paddr ph + ph_memsz ph).

(** A segment over what was there: its file bytes, then zeros. *)
Definition segment_byte (elf : arr) (v : Z) (old : Z) (ph : Elf64ProgramHeader) : Z :=
  if covers_dec ph v then
    if v - ph_paddr ph <? ph_filesz ph then elf (ph_offset ph + (v - ph_paddr ph)) else 0
  else old.

Definition program_headers (elf : arr) : list Elf64ProgramHeader :=
  let h := elf_header elf in
  map (fun i => program_header elf (header_at h (Z.of_nat i))) (seq 0 (Z.to_nat (phnum h))).

(** No sum that the loader checks wraps around. *)
Definition no_overflow (ph : Elf64ProgramHeader) : Prop :=
  is_u64 (ph_offset ph) /\ is_u64 (ph_paddr ph) /\ is_u64 (ph_filesz ph) /\ is_u64 (ph_memsz ph) /\
  ph_offset ph + ph_filesz ph < 18446744073709551616 /\
  ph_paddr ph + ph_memsz ph < 18446744073709551616.

Definition in_image (v : Z) : Prop := APP_LOAD_MIN <= v < APP_LOAD_MAX.

(** The image window of an address space: its pages are data pages of their
    own. *)
Record image_ok (s : Vm) (root : Z) : Prop := {
  im_tables : tables_wf s root;
  im_data : forall v f, in_image v -> translate s root v = Some f -> data_page s root f;
  im_inj : forall v w f, in_image v -> in_image w ->
    translate s root v = Some f -> translate s root w = Some f -> v / PAGE_SIZE = w / PAGE_SIZE
}.

(** ** What the program loader leaves in memory

    Stores, the mapping of image pages and the segment loop keep the tables and
    the other data pages, and a loaded image holds exactly its segments. *)

Ltac page_const := unfold in_image, APP_LOAD_MIN, APP_LOAD_MAX, PAGE_SIZE in *.

(** ** Bytes *)

Lemma pow256_split a b : 0 <= a < b -> 256 ^ b = 256 ^ a * (256 * 256 ^ (b - a - 1)).
Proof.
  intros H. rewrite <- Z.pow_succ_r by lia. rewrite <- Z.pow_add_r by lia. f_equal. lia.
Qed.

(** The digits to the base 256 after digit [j] was set to [d]. *)
Lemma digit_set m d j k :
  0 <= j -> 0 <= k -> is_u8 d ->
  (m + (d - m / 256 ^ j mod 256) * 256 ^ j) / 256 ^ k mod 256 =
  if k =? j then d else m / 256 ^ k mod 256.
Proof.
  intros Hj Hk Hd. unfold is_u8 in Hd. assert (Hp : forall n, 0 <= n -> 0 < 256 ^ n).
  { intros n Hn. apply Z.pow_pos_nonneg; lia. }
  pose proof (Hp j Hj). pose proof (Hp k Hk). destruct (Z.eqb_spec k j) as [->|Hne].
  - rewrite Z.div_add by lia. zlia.
  - destruct (Z.lt_ge_cases k j) as [Hlt|Hge].
    + rewrite (pow256_split k j) by lia. set (q := 256 ^ (j - k - 1)).
      set (x := d - _). replace (x * (256 ^ k * (256 * q))) with (x * q * 256 * 256 ^ k) by ring.
      rewrite Z.div_add by lia. by rewrite Z_mod_plus_full.
    + rewrite (pow256_split j k) by lia. set (q := 256 ^ (k - j - 1)).
      assert (0 < q) by (apply Hp; lia).
      rewrite <- !Z.div_div by lia. rewrite Z.div_add by lia. do 2 f_equal. zlia.
Qed.

(** The word-aligned address below, and the position in the word. *)
Lemma word_of p : 0 <= p mod 8 < 8.
Proof. apply Z.mod_pos_bound. lia. Qed.

Lemma load_store a p b s :
  is_u8 b ->
  load_byte (vm_mem (store_byte p b s)) a = if a =? p then b else load_byte (vm_mem s) a.
Proof.
  intros Hb. unfold store_byte, load_byte. cbn [vm_mem]. cbv zeta. pose proof (word_of a). pose proof (word_of p).
  destruct (Z.eqb_spec (a - a mod 8) (p - p mod 8)) as [E|E].
  - rewrite E, aset_same. rewrite digit_set by (done || lia).
    destruct (Z.eqb_spec (a mod 8) (p mod 8)), (Z.eqb_spec a p); try done; exfalso; subst; lia.
  - rewrite aset_other by done. destruct (Z.eqb_spec a p) as [->|]; done.
Qed.

Lemma load_store_same_word a p b s :
  p - p mod 8 <> a -> vm_mem (store_byte p b s) a = vm_mem s a.
Proof. intros Hne. apply aset_other. congruence. Qed.

(** A byte of a page lives in a word of the page. *)
Lemma word_in_page f k : page_aligned f -> 0 <= k < PAGE_SIZE ->
  exists j, 0 <= j < PAGE_SIZE /\ (f + k) - (f + k) mod 8 = f + j.
Proof.
  intros Hf Hk. exists (k - k mod 8). unfold page_aligned, PAGE_SIZE in *. split; zlia.
Qed.

Lemma load_same_page s s' f k :
  page_aligned f -> 0 <= k < PAGE_SIZE -> same_page s s' f ->
  load_byte (vm_mem s') (f + k) = load_byte (vm_mem s) (f + k).
Proof.
  intros Hf Hk Hs. destruct (word_in_page f k Hf Hk) as (j & Hj & E).
  unfold load_byte. rewrite E. by rewrite Hs.
Qed.

(** ** Image addresses *)

Lemma image_vpn v : in_image v -> vpn v = v / PAGE_SIZE.
Proof.
  intros Hv. unfold vpn. rewrite Z.land_ones by lia. rewrite Z.shiftr_div_pow2 by lia.
  page_const. change (2 ^ 12) with 4096. change (2 ^ 36) with 68719476736. zlia.
Qed.

Lemma page_offset v : 0 <= v mod PAGE_SIZE < PAGE_SIZE.
Proof. apply Z.mod_pos_bound. unfold PAGE_SIZE. lia. Qed.

(** ** Stores *)

(** A store into a data page changes no table. *)
Lemma store_data_page s root f k b :
  tables_wf s root -> data_page s root f -> 0 <= k < PAGE_SIZE ->
  let s' := store_byte (f + k) b s in
  (forall q, valid_path q -> walk (vm_mem s') root q = walk (vm_mem s) root q) /\
  tables_wf s' root /\ (forall v, translate s' root v = translate s root v) /\
  (forall g, data_page s root g -> data_page s' root g).
Proof.
  intros Hwf [[Hfa Hfr] Hu Ht] Hk s'.
  destruct (word_in_page f k Hfa Hk) as (w & Hw & Ew).
  assert (Hent : forall q u j, valid_path q -> valid_index j -> walk (vm_mem s) root q = Some u ->
    entry_at (vm_mem s') u j = entry_at (vm_mem s) u j).
  { intros q u j Hq Hj Hwk. destruct (tw_page _ _ Hwf q u Hq Hwk) as [[Hua _] _].
    apply load_store_same_word. rewrite Ew. assert (f <> u) by (intros ->; by apply (Ht q)).
    unfold page_aligned, PAGE_SIZE, valid_index in *. zlia. }
  assert (Hwalk : forall q, valid_path q -> walk (vm_mem s') root q = walk (vm_mem s) root q).
  { induction q as [|j q IH] using rev_ind; [done|]. intros Hv.
    destruct (valid_snoc _ _ Hv) as [Hvq Hj]. rewrite !walk_snoc, IH by done.
    destruct (walk (vm_mem s) root q) as [u|] eqn:Eq; [|done]. apply next_table_same.
    by apply (Hent q). }
  split_and!; [done| | |].
  - split; [apply (tw_alloc _ _ Hwf)| |].
    + intros q t Hq. rewrite Hwalk by done. by apply (tw_page _ _ Hwf q).
    + intros q1 q2 t H1 H2. rewrite !Hwalk by done. by apply (tw_inj _ _ Hwf).
  - intros v. destruct (path_of_valid v) as [Hv Hi]. unfold translate, leaf. rewrite Hwalk by done.
    destruct (walk (vm_mem s) root (path_of v)) as [u|] eqn:Eq; [|done]. by rewrite (Hent (path_of v)).
  - intros g [Hg Hgu Hgt]. split; [done|done|]. intros q Hq. rewrite Hwalk by done. by apply Hgt.
Qed.

(** From [s] to [s'] only bytes of mapped image pages change; they are [c]
    afterwards. *)
Record written (root : Z) (s s' : Vm) (c : Z -> Z) : Prop := {
  wr_image : image_ok s' root;
  wr_cr3 : vm_cr3 s' = root;
  wr_same : forall w, translate s' root w = translate s root w;
  wr_bytes : forall w, in_image w -> virt_byte s' root w = c w
}.

Definition mapped (s : Vm) (root lo hi : Z) : Prop :=
  forall v, lo <= v < hi -> in_image v /\ translate s root v <> None.

Lemma image_phys_inj s root v w f g :
  image_ok s root -> in_image v -> in_image w -> translate s root v = Some f ->
  translate s root w = Some g -> f + v mod PAGE_SIZE = g + w mod PAGE_SIZE -> v = w.
Proof.
  intros Hi Hv Hw Ef Eg E. pose proof (page_offset v). pose proof (page_offset w).
  destruct (im_data _ _ Hi v f Hv Ef) as [[Hf _] _ _].
  destruct (im_data _ _ Hi w g Hw Eg) as [[Hg _] _ _].
  assert (f = g) as <-. { unfold page_aligned, PAGE_SIZE in *. zlia. }
  pose proof (im_inj _ _ Hi v w f Hv Hw Ef Eg). unfold PAGE_SIZE in *. zlia.
Qed.

Lemma store_virt_spec s root v b :
  image_ok s root -> vm_cr3 s = root -> in_image v -> translate s root v <> None -> is_u8 b ->
  exists s', store_virt v b s = (s', true) /\
    written root s s' (fun w => if w =? v then b else virt_byte s root w).
Proof.
  intros Hi Hc Hv Ht Hb. unfold store_virt. rewrite Hc.
  destruct (translate s root v) as [f|] eqn:Ef; [|done].
  pose proof (im_data _ _ Hi v f Hv Ef) as Hf. pose proof (page_offset v) as Hk.
  destruct (store_data_page s root f (v mod PAGE_SIZE) b (im_tables _ _ Hi) Hf Hk)
    as (_ & Hwf & Htr & Hdp).
  eexists. split; [done|]. split; [|done|done|].
  - split; [done| |].
    + intros x g Hx. rewrite Htr. intros E. by apply Hdp, (im_data _ _ Hi x g).
    + intros x y g Hx Hy. rewrite !Htr. by apply (im_inj _ _ Hi).
  - intros w Hw. unfold virt_byte. rewrite Htr.
    destruct (Z.eqb_spec w v) as [->|Hne].
    + rewrite Ef, load_store by done. by rewrite Z.eqb_refl.
    + destruct (translate s root w) as [g|] eqn:Eg; [|done]. rewrite load_store by done.
      destruct (Z.eqb_spec (g + w mod PAGE_SIZE) (f + v mod PAGE_SIZE)) as [E|]; [|done].
      exfalso. apply Hne. by apply (image_phys_inj s root w v g f).
Qed.

Lemma mapped_same s s' root lo hi :
  (forall w, translate s' root w = translate s root w) -> mapped s root lo hi -> mapped s' root lo hi.
Proof. intros E H v Hv. rewrite E. by apply H. Qed.

Lemma mapped_sub s root lo hi lo' hi' :
  lo <= lo' -> hi' <= hi -> mapped s root lo hi -> mapped s root lo' hi'.
Proof. intros ? ? H v Hv. apply H. lia. Qed.

Lemma written_refl s root : image_ok s root -> vm_cr3 s = root -> written root s s (virt_byte s root).
Proof. by split. Qed.

Lemma written_trans root s1 s2 s3 c2 c3 :
  written root s1 s2 c2 -> written root s2 s3 c3 -> written root s1 s3 c3.
Proof. intros [_ _ E1 _] [? ? E2 ?]. split; try done. intros w. by rewrite E2. Qed.

Lemma written_ext root s s' c c' :
  (forall w, in_image w -> c w = c' w) -> written root s s' c -> written root s s' c'.
Proof. intros E [? ? ? H]. split; try done. intros w Hw. by rewrite H, E. Qed.

(** Both copy loops are stores of a function of the position. *)
Lemma zero_copy n v : zero_bytes n v = copy_bytes n zeroed 0 v.
Proof.
  enough (H : forall a, zero_bytes n v = copy_bytes n zeroed a v) by apply H.
  revert v. induction n as [|n IH]; intros v a; [done|]. simpl. by rewrite (IH (v + 1) (a + 1)).
Qed.

Lemma copy_bytes_spec n : forall elf a v s root,
  image_ok s root -> vm_cr3 s = root -> mapped s root v (v + Z.of_nat n) ->
  (forall i, is_u8 (elf i)) ->
  exists s', copy_bytes n elf a v s = (s', true) /\
    written root s s' (fun w => if (v <=? w) && (w <? v + Z.of_nat n)
                                then elf (a + (w - v)) else virt_byte s root w).
Proof.
  induction n as [|n IH]; intros elf a v s root Hi Hc Hm He.
  - exists s. split; [done|]. eapply written_ext; [|by apply written_refl].
    intros w _. destruct (Z.leb_spec v w), (Z.ltb_spec w (v + Z.of_nat 0)); try done. lia.
  - destruct (Hm v) as [Hv Ht]; [lia|].
    destruct (store_virt_spec s root v (elf a) Hi Hc Hv Ht (He a)) as (s1 & E1 & W1).
    destruct (IH elf (a + 1) (v + 1) s1 root) as (s2 & E2 & W2).
    + apply (wr_image _ _ _ _ W1).
    + apply (wr_cr3 _ _ _ _ W1).
    + apply (mapped_same s); [apply (wr_same _ _ _ _ W1)|]. eapply mapped_sub; [| |exact Hm]; lia.
    + done.
    + exists s2. cbn [copy_bytes]. unfold st_bind. rewrite E1. split; [done|].
      eapply written_ext; [|eapply written_trans; [exact W1|exact W2]].
      intros w Hw. cbv beta. rewrite (wr_bytes _ _ _ _ W1 w Hw).
      destruct (Z.leb_spec (v + 1) w), (Z.ltb_spec w (v + 1 + Z.of_nat n)), (Z.eqb_spec w v),
        (Z.leb_spec v w), (Z.ltb_spec w (v + Z.of_nat (S n))); simpl; try lia; try done.
      * f_equal. lia.
      * subst w. f_equal. lia.
Qed.

(** ** Mapping image pages *)

(** From [s] to [s'] image pages may have been added; they read as zero. *)
Record more_pages (root : Z) (s s' : Vm) : Prop := {
  mp_image : image_ok s' root;
  mp_cr3 : vm_cr3 s' = vm_cr3 s;
  mp_kept : forall v, in_image v -> translate s root v <> None -> translate s' root v <> None;
  mp_bytes : forall v, in_image v -> virt_byte s' root v = virt_byte s root v
}.

Lemma more_refl root s : image_ok s root -> more_pages root s s.
Proof. by split. Qed.

Lemma more_trans root s1 s2 s3 : more_pages root s1 s2 -> more_pages root s2 s3 -> more_pages root s1 s3.
Proof.
  intros [A1 A2 A3 A4] [B1 B2 B3 B4]. split; [done|congruence|auto|].
  intros v Hv. by rewrite B4, A4.
Qed.

Lemma page_mapped_spec s root virt :
  tables_wf s root -> page_aligned virt ->
  exists r, page_mapped root virt s = (s, r) /\ (r = true -> translate s root virt <> None).
Proof.
  intros Hwf Ha. unfold page_mapped. rewrite (root_nonzero s root Hwf), land_page_0 by done.
  cbn [orb negb]. unfold st_bind, st_ret, translate, leaf, path_of. cbn [walk].
  rewrite table_entry_next. destruct (next_table (vm_mem s) root _) as [t1|]; [|by exists false].
  rewrite table_entry_next. destruct (next_table (vm_mem s) t1 _) as [t2|]; [|by exists false].
  rewrite table_entry_next. destruct (next_table (vm_mem s) t2 _) as [t3|]; [|by exists false].
  rewrite table_entry_next. unfold next_table.
  destruct (present (entry_at (vm_mem s) t3 (pt_index virt))); simpl; [|by exists false].
  destruct (huge _); eexists; by split.
Qed.

Lemma zero_byte mem f k : page_aligned f -> 0 <= k < PAGE_SIZE ->
  (forall j, 0 <= j < PAGE_SIZE -> mem (f + j) = 0) -> load_byte mem (f + k) = 0.
Proof.
  intros Hf Hk Hz. destruct (word_in_page f k Hf Hk) as (j & Hj & E).
  unfold load_byte. rewrite E, Hz by done. by rewrite Zdiv_0_l.
Qed.

(** A fresh zeroed page mapped at [virt]. *)
Lemma map_fresh_page s s1 s2 root virt n :
  image_ok s root -> in_image virt ->
  alloc_zeroed_page s = (s1, Some n) -> map_page root virt n rw_flags s1 = (s2, true) ->
  more_pages root s s2 /\ translate s2 root virt = Some n.
Proof.
  intros [Hwf Hd Hinj] Hv Ea Em. pose proof (alloc_zeroed_spec s root Hwf) as A. rewrite Ea in A.
  destruct A as (Hwf1 & Hn & Hnew & Hc1 & Hz & Ht1 & Hk1).
  pose proof (map_spec s1 root virt n Hwf1 (dp_frame _ _ _ Hn)) as M.
  pose proof (map_keeps_data s1 root virt n Hwf1 (dp_frame _ _ _ Hn)) as [Hc2 Hk2].
  rewrite Em in M, Hc2, Hk2. cbn [fst] in Hc2, Hk2. destruct M as (Hwf2 & Hnone & _ & Ht2).
  specialize (Hnone eq_refl). rewrite Ht1 in Hnone. destruct (Hk2 n Hn) as [Hn2 Hs2].
  assert (Htr : forall w, translate s2 root w =
    if decide (vpn w = vpn virt) then Some n else translate s root w).
  { intros w. rewrite Ht2, Ht1. cbn [andb]. case_decide; [by rewrite bool_decide_true|by rewrite bool_decide_false]. }
  assert (Hold : forall w f, in_image w -> translate s root w = Some f ->
            data_page s2 root f /\ same_page s s2 f /\ f <> n).
  { intros w f Hw Ef. pose proof (Hd w f Hw Ef) as Df. destruct (Hk1 f Df) as [Df1 S1].
    destruct (Hk2 f Df1) as [Df2 S2]. split_and!; [done| |by intros ->].
    intros k Hk. by rewrite S2, S1. }
  split; [|by rewrite Htr, decide_True]. split; [split; [done| |]|congruence| |].
  - intros w f Hw. rewrite Htr. case_decide; [by intros [= <-]|]. intros E. by apply (Hold w f).
  - intros v w f Hv' Hw'. rewrite !Htr, !image_vpn by done.
    do 2 case_decide; [congruence|intros [= <-] E|intros E [= <-]|by apply Hinj].
    + by destruct (Hold w n Hw' E) as (_ & _ & []).
    + by destruct (Hold v n Hv' E) as (_ & _ & []).
  - intros w Hw. rewrite Htr. by case_decide.
  - intros w Hw. pose proof (page_offset w). unfold virt_byte. rewrite Htr. case_decide as E.
    + rewrite (translate_vpn s root w virt), Hnone by done. destruct (dp_frame _ _ _ Hn).
      apply zero_byte; [done|done|]. intros j Hj. by rewrite Hs2, Hz.
    + destruct (translate s root w) as [f|] eqn:Ef; [|done].
      destruct (Hold w f Hw Ef) as (Df & Sf & _). apply load_same_page; [apply Df|done|done].
Qed.

Lemma map_image_from_spec n : forall index s root base,
  image_ok s root -> page_aligned base -> 0 <= index -> APP_LOAD_MIN <= base ->
  base + (index + Z.of_nat n) * PAGE_SIZE <= APP_LOAD_MAX ->
  forall s', map_image_from n index root base s = (s', true) ->
  more_pages root s s' /\
  mapped s' root (base + index * PAGE_SIZE) (base + (index + Z.of_nat n) * PAGE_SIZE).
Proof.
  induction n as [|n IH]; intros index s root base Hi Ha H0 Hlo Hhi s' E.
  - injection E as <-. split; [by apply more_refl|]. intros v Hv. lia.
  - cbn [map_image_from] in E. unfold st_bind in E. cbv zeta in E.
    set (virt := base + index * PAGE_SIZE) in *.
    assert (Hv : in_image virt) by (subst virt; page_const; lia).
    assert (Hva : page_aligned virt) by (subst virt; unfold page_aligned in *; by rewrite Z_mod_plus_full).
    rewrite (u64_small virt) in E by (page_const; unfold is_u64; lia).
    assert (Hstep : exists s1, more_pages root s s1 /\ translate s1 root virt <> None /\
              map_image_from n (index + 1) root base s1 = (s', true)).
    { destruct (page_mapped_spec s root virt (im_tables _ _ Hi) Hva) as ([|] & Em & Hm); rewrite Em in E.
      - exists s. split_and!; [by apply more_refl|by apply Hm|done].
      - destruct (alloc_zeroed_page s) as [s1 [p|]] eqn:Ea; [|done].
        destruct (map_page root virt p (Z.lor PAGE_PRESENT PAGE_WRITABLE) s1) as [s2 ok] eqn:Ep.
        destruct ok; cbn [negb] in E.
        + destruct (map_fresh_page s s1 s2 root virt p Hi Hv Ea Ep) as [Hmore Ht].
          exists s2. split_and!; [done|by rewrite Ht|done].
        + destruct (free_phys_page p s2). done. }
    destruct Hstep as (s1 & Hm1 & Ht & E').
    destruct (IH (index + 1) s1 root base (mp_image _ _ _ Hm1) Ha ltac:(lia) Hlo ltac:(lia) s' E')
      as [Hm2 Hrest].
    split; [by eapply more_trans|]. intros v Hvr.
    destruct (Z.lt_ge_cases v (base + (index + 1) * PAGE_SIZE)) as [Hlt|Hge]; [|apply Hrest; lia].
    assert (Hin : in_image v) by (page_const; lia). split; [done|].
    apply (mp_kept _ _ _ Hm2); [done|]. rewrite (translate_vpn s1 root v virt); [done|].
    rewrite !image_vpn by done. subst virt. unfold page_aligned in Ha. page_const. zlia.
Qed.

(** ** Segments *)

Lemma page_floor_eq x : page_floor x = x - x mod PAGE_SIZE.
Proof.
  unfold page_floor. change (PAGE_SIZE - 1) with (Z.ones 12). rewrite Z.ldiff_ones_r by lia.
  rewrite Z.shiftl_mul_pow2, Z.shiftr_div_pow2 by lia. change (2 ^ 12) with PAGE_SIZE.
  unfold PAGE_SIZE. zlia.
Qed.

(** What a segment that was loaded satisfied. *)
Definition segment_fits (len : Z) (ph : Elf64ProgramHeader) : Prop :=
  segment_skipped ph = false ->
  APP_LOAD_MIN <= ph_paddr ph /\ ph_paddr ph + ph_memsz ph <= APP_LOAD_MAX /\
  ph_filesz ph <= ph_memsz ph /\ ph_offset ph + ph_filesz ph <= len.

(** One segment, or several, loaded from [s] to [s']. *)
Record loaded (root len : Z) (elf : arr) (s s' : Vm) (phs : list Elf64ProgramHeader) : Prop := {
  ld_image : image_ok s' root;
  ld_cr3 : vm_cr3 s' = root;
  ld_fits : Forall (segment_fits len) phs;
  ld_kept : forall v, in_image v -> translate s root v <> None -> translate s' root v <> None;
  ld_mapped : forall ph v, ph ∈ phs -> covers ph v -> translate s' root v <> None;
  ld_bytes : forall v, in_image v ->
    virt_byte s' root v = fold_left (segment_byte elf v) phs (virt_byte s root v)
}.

Lemma loaded_nil root len elf s : image_ok s root -> vm_cr3 s = root -> loaded root len elf s s [].
Proof. intros. split; try done. intros ph v Hx. by apply elem_of_nil in Hx. Qed.

Lemma covers_in_image len ph v : segment_fits len ph -> covers ph v -> in_image v.
Proof. intros Hf [Hs Hv]. destruct (Hf Hs) as (? & ? & _). unfold in_image. lia. Qed.

Lemma loaded_cons root len elf s1 s2 s3 ph phs :
  loaded root len elf s1 s2 [ph] -> loaded root len elf s2 s3 phs ->
  loaded root len elf s1 s3 (ph :: phs).
Proof.
  intros [A1 A2 A3 A4 A5 A6] [B1 B2 B3 B4 B5 B6]. apply Forall_cons in A3 as [Hf _]. split.
  - done.
  - done.
  - by constructor.
  - auto.
  - intros x v [->|Hx]%elem_of_cons Hc; [|by apply (B5 x)].
    apply B4; [by eapply covers_in_image|]. apply (A5 ph); [by left|done].
  - intros v Hv. rewrite B6, A6 by done. done.
Qed.

Lemma covers_dec_true ph v : covers_dec ph v = true <-> covers ph v.
Proof.
  unfold covers_dec, covers. rewrite !andb_true_iff, negb_true_iff, Z.leb_le, Z.ltb_lt. tauto.
Qed.

Definition segment_post (root len : Z) (elf : arr) (s s' : Vm) (ph : Elf64ProgramHeader)
  (r : option LoadResult) : Prop :=
  match r with
  | None => loaded root len elf s s' [ph]
  | Some (LoadFailed _) => True
  | Some _ => False
  end.

(** The pages a segment inside the window spans. *)
Lemma segment_pages p m :
  APP_LOAD_MIN <= p -> 0 < m -> p + m <= APP_LOAD_MAX ->
  let start := page_floor p in
  let count := u64 (page_floor (u64 (u64 (p + m + PAGE_SIZE) - 1)) - start) / PAGE_SIZE in
  page_aligned start /\ APP_LOAD_MIN <= start <= p /\ 0 <= count /\
  p + m <= start + count * PAGE_SIZE <= APP_LOAD_MAX.
Proof.
  intros H1 H2 H3 start count. subst count start.
  rewrite (u64_small (p + m + PAGE_SIZE)) by (unfold is_u64; page_const; lia).
  rewrite (u64_small (_ - 1)) by (unfold is_u64; page_const; lia).
  rewrite !page_floor_eq. rewrite u64_small by (unfold is_u64; page_const; zlia).
  unfold page_aligned. page_const. split_and!; zlia.
Qed.

(** A segment that is skipped loads nothing. *)
Lemma skipped_segment elf len root ph s :
  image_ok s root -> vm_cr3 s = root -> segment_skipped ph = true -> segment_post root len elf s s ph None.
Proof.
  intros Hi Hc Es. split; try done.
  - constructor; [|constructor]. unfold segment_fits. by rewrite Es.
  - intros x v ->%list_elem_of_singleton [E _]. congruence.
  - intros v Hv. simpl. unfold segment_byte, covers_dec. by rewrite Es.
Qed.

Lemma load_segment_spec elf len root ph s :
  image_ok s root -> vm_cr3 s = root -> no_overflow ph -> (forall i, is_u8 (elf i)) ->
  let '(s', r) := load_segment elf len root ph s in segment_post root len elf s s' ph r.
Proof.
  intros Hi Hc (Uo & Up & Uf & Um & Hof & Hpm) He. unfold is_u64 in *. unfold load_segment.
  destruct (segment_skipped ph) eqn:Es; [by apply skipped_segment|].
  rewrite !u64_small by (unfold is_u64; lia).
  destruct ((len <? _) || _) eqn:E1; [done|]. destruct ((_ <? APP_LOAD_MIN) || _) eqn:E2; [done|].
  apply orb_false_iff in E1 as [E11%Z.ltb_ge E12%Z.ltb_ge], E2 as [E21%Z.ltb_ge E22%Z.ltb_ge].
  assert (Hm0 : 0 < ph_memsz ph).
  { unfold segment_skipped in Es. apply orb_false_iff in Es as [_ Es%Z.eqb_neq]. lia. }
  assert (Hfit : segment_fits len ph) by done.
  destruct (segment_pages (ph_paddr ph) (ph_memsz ph) E21 Hm0 E22) as (Ha & Hs & Hn & Hend).
  unfold st_bind at 1. cbv zeta.
  set (count := u64 _ / PAGE_SIZE) in *. unfold map_image_pages.
  destruct (map_image_from _ _ _ _ s) as [s1 ok] eqn:Em. destruct ok; cbn [negb]; [|done].
  apply map_image_from_spec in Em as [Hmore Hmap]; try done; try lia.
  rewrite Z2Nat.id in Hmap by lia.
  assert (Hc1 : vm_cr3 s1 = root) by (rewrite (mp_cr3 _ _ _ Hmore); done).
  assert (Hms : mapped s1 root (ph_paddr ph) (ph_paddr ph + ph_memsz ph))
    by (eapply mapped_sub; [| |exact Hmap]; lia).
  destruct (copy_bytes_spec (Z.to_nat (ph_memsz ph)) zeroed 0 (ph_paddr ph) s1 root)
    as (s2 & Ez & Wz); [apply (mp_image _ _ _ Hmore)|done|by rewrite Z2Nat.id by lia|done|].
  unfold st_bind at 1. rewrite zero_copy, Ez. cbn [negb].
  assert (Hmf : mapped s2 root (ph_paddr ph) (ph_paddr ph + ph_filesz ph)).
  { apply (mapped_same s1); [apply (wr_same _ _ _ _ Wz)|]. eapply mapped_sub; [| |exact Hms]; lia. }
  destruct (copy_bytes_spec (Z.to_nat (ph_filesz ph)) elf (ph_offset ph) (ph_paddr ph) s2 root)
    as (s3 & Ec & Wc); [apply (wr_image _ _ _ _ Wz)|apply (wr_cr3 _ _ _ _ Wz)|
                        by rewrite Z2Nat.id by lia|done|].
  unfold st_bind. rewrite Ec. cbn.
  pose proof (written_trans _ _ _ _ _ _ Wz Wc) as W.
  rewrite !Z2Nat.id in * by lia. split.
  - apply (wr_image _ _ _ _ W).
  - apply (wr_cr3 _ _ _ _ W).
  - by constructor.
  - intros v Hv Ht. rewrite (wr_same _ _ _ _ W). by apply (mp_kept _ _ _ Hmore).
  - intros x v ->%list_elem_of_singleton [_ Hv]. rewrite (wr_same _ _ _ _ W). by apply Hms.
  - intros v Hv. rewrite (wr_bytes _ _ _ _ W v Hv), (wr_bytes _ _ _ _ Wz v Hv), (mp_bytes _ _ _ Hmore v Hv).
    simpl. unfold segment_byte, covers_dec. rewrite Es. cbn [negb andb].
    destruct (Z.leb_spec (ph_paddr ph) v), (Z.ltb_spec v (ph_paddr ph + ph_filesz ph)),
      (Z.ltb_spec v (ph_paddr ph + ph_memsz ph)), (Z.ltb_spec (v - ph_paddr ph) (ph_filesz ph));
      simpl; try lia; done.
Qed.

(** ** The segment loop *)

Definition headers_from (elf : arr) (index : Z) (n : nat) : list Elf64ProgramHeader :=
  map (fun i => program_header elf (header_at (elf_header elf) (index + Z.of_nat i))) (seq 0 n).

Lemma headers_from_S elf index n :
  headers_from elf index (S n) =
  program_header elf (header_at (elf_header elf) index) :: headers_from elf (index + 1) n.
Proof.
  unfold headers_from. cbn [seq map]. rewrite Z.add_0_r. f_equal.
  rewrite <- seq_shift, map_map. apply map_ext. intros i. do 2 f_equal. lia.
Qed.

Lemma load_segments_spec elf len root n : forall index s,
  image_ok s root -> vm_cr3 s = root -> (forall i, is_u8 (elf i)) ->
  Forall no_overflow (headers_from elf index n) ->
  match load_segments n index elf len root (elf_header elf) s with
  | (s', Loaded e) => e = e_entry (elf_header elf) /\ loaded root len elf s s' (headers_from elf index n)
  | (_, LoadFailed _) => True
  | (_, LoadFault) => False
  end.
Proof.
  induction n as [|n IH]; intros index s Hi Hc He Hf.
  - split; [done|]. by apply loaded_nil.
  - rewrite headers_from_S in *. apply Forall_cons in Hf as [Hph Hf].
    cbn [load_segments]. unfold st_bind.
    pose proof (load_segment_spec elf len root _ s Hi Hc Hph He) as H1.
    destruct (load_segment elf len root _ s) as [s1 [[e|msg|]|]]; simpl in H1; try done.
    specialize (IH (index + 1) s1 (ld_image _ _ _ _ _ _ H1) (ld_cr3 _ _ _ _ _ _ H1) He Hf).
    destruct (load_segments n (index + 1) elf len root _ s1) as [s2 [e|msg|]]; try done.
    destruct IH as [-> H2]. split; [done|]. by eapply loaded_cons.
Qed.

(** ** Property *)

(** C34: Loading an image into an address space whose image pages are data pages
    of their own never faults. When it succeeds it answers the entry point of
    the header, every segment lies inside the image window and the file, all
    its pages are mapped, the address space stays well-formed, and every byte of
    the window is what the segments, in order, put there: file bytes, then
    zeros, and elsewhere what it was before. Sums that wrap around are excluded:
    the loader does not check for them. *)
Theorem load_program_writes_image elf len s root :
  image_ok s root -> vm_cr3 s = root -> (forall i, is_u8 (elf i)) ->
  Forall no_overflow (program_headers elf) ->
  match load_program_elf_isolated elf len root s with
  | (s', Loaded e) =>
      e = e_entry (elf_header elf) /\ image_ok s' root /\ vm_cr3 s' = root /\
      Forall (segment_fits len) (program_headers elf) /\
      (forall ph v, ph ∈ program_headers elf -> covers ph v -> translate s' root v <> None) /\
      (forall v, in_image v ->
         virt_byte s' root v = fold_left (segment_byte elf v) (program_headers elf) (virt_byte s root v))
  | (s', LoadFailed _) => True
  | (s', LoadFault) => False
  end.
Proof.
  intros Hi Hc He Hf. unfold load_program_elf_isolated.
  destruct (len <? _); [done|]. destruct (_ || _ || _); [done|]. destruct (_ || _); [done|].
  pose proof (load_segments_spec elf len root (Z.to_nat (phnum (elf_header elf))) 0 s Hi Hc He Hf) as H.
  destruct (load_segments _ 0 elf len root _ s) as [s' [e|msg|]]; [|done|done].
  destruct H as [-> [? ? ? _ ? ?]]. split_and!; try done.
Qed.

(** An image with one segment: three file bytes at the start of the window and
    two zeros after them. *)
Definition tiny_elf : arr :=
  let a := blit zeroed 0 (ELF_MAGIC ++ [2]) in
  let a := blit a 18 (to_le_bytes 2 0x3E) in
  let a := blit a 24 (to_le_bytes 8 0x200001) in
  let a := blit a 32 (to_le_bytes 8 64) in
  let a := blit a 54 (to_le_bytes 2 56) in
  let a := blit a 56 (to_le_bytes 2 1) in
  let a := blit a 64 (to_le_bytes 4 PT_LOAD) in
  let a := blit a 72 (to_le_bytes 8 120) in
  let a := blit a 88 (to_le_bytes 8 0x200000) in
  let a := blit a 96 (to_le_bytes 8 3) in
  let a := blit a 104 (to_le_bytes 8 5) in
  blit a 120 [7; 8; 9].

Lemma tiny_bytes i : is_u8 (tiny_elf i).
Proof.
  unfold tiny_elf. repeat apply blit_u8; try (vm_compute; repeat constructor; discriminate).
  all: intros; unfold zeroed, is_u8; lia.
Qed.

Lemma tiny_no_overflow : Forall no_overflow (program_headers tiny_elf).
Proof.
  assert (E : program_headers tiny_elf = [mkPh PT_LOAD 120 0x200000 3 5]) by (vm_compute; reflexivity).
  rewrite E. constructor; [|constructor]. unfold no_overflow, is_u64. simpl. lia.
Qed.

Lemma demo_image_ok : image_ok demo_vm 4096.
Proof. split; [exact demo_vm_wf|done|done]. Qed.

Lemma load_program_writes_image_witness :
  exists s', load_program_elf_isolated tiny_elf 123 4096 demo_vm = (s', Loaded 0x200001) /\
    virt_byte s' 4096 0x200001 = 8 /\ virt_byte s' 4096 0x200003 = 0.
Proof.
  assert (E : snd (load_program_elf_isolated tiny_elf 123 4096 demo_vm) = Loaded 0x200001)
    by (vm_compute; reflexivity).
  pose proof (load_program_writes_image tiny_elf 123 demo_vm 4096 demo_image_ok eq_refl tiny_bytes
    tiny_no_overflow) as H.
  destruct (load_program_elf_isolated tiny_elf 123 4096 demo_vm) as [s' r]. simpl in E. subst r.
  exists s'. split; [reflexivity|]. destruct H as (_ & _ & _ & _ & _ & Hb).
  assert (I : forall v, 0x200000 <= v < 0x200008 -> in_image v).
  { intros v Hv. unfold in_image. change APP_LOAD_MIN with 0x200000. change APP_LOAD_MAX with 0x9000000. lia. }
  split.
  - rewrite (Hb 0x200001 (I 0x200001 ltac:(lia))). vm_compute. reflexivity.
  - rewrite (Hb 0x200003 (I 0x200003 ltac:(lia))). vm_compute. reflexivity.
Defined.

(** The check of a segment's end wraps around: this one ends past the address
    space and passes. *)
Definition wrapping_segment : Elf64ProgramHeader :=
  mkPh PT_LOAD 120 0x400000 0 (18446744073709551616 - 0x400000 + 0x300000).

Lemma wrapped_bounds_pass len pml4 s :
  0 <= len -> 120 <= len ->
  snd (map_image_pages pml4 0x400000
         (u64 (page_floor (u64 (u64 (ph_paddr wrapping_segment + ph_memsz wrapping_segment + PAGE_SIZE) - 1))
               - 0x400000) / PAGE_SIZE) s) = false ->
  snd (load_segment tiny_elf len pml4 wrapping_segment s) = Some (LoadFailed (bs "run: segment map failed")).
Proof.
  intros H0 Hl E. unfold load_segment.
  change (segment_skipped wrapping_segment) with false.
  change (u64 (ph_offset wrapping_segment + ph_filesz wrapping_segment)) with 120.
  destruct (Z.ltb_spec len 120) as [?|_]; [lia|].
  change (ph_memsz wrapping_segment <? ph_filesz wrapping_segment) with false.
  change (ph_paddr wrapping_segment <? APP_LOAD_MIN) with false.
  change (APP_LOAD_MAX <? u64 (ph_paddr wrapping_segment + ph_memsz wrapping_segment)) with false.
  cbn [orb]. unfold st_bind at 1. cbv zeta.
  change (page_floor (ph_paddr wrapping_segment)) with 0x400000.
  destruct (map_image_pages pml4 0x400000 _ s) as [s1 ok]. cbn [snd] in E. by subst ok.
Qed.
