(* ===== verification/AddrSpace.v ===== *)
(** * The address space of a process

    What [create_process_address_space] of Paging.v makes: a top-level table of the
    process's own that shares the kernel's tables everywhere except over the program
    image, where it has a directory of its own with nothing in it. The kernel's own
    translation does not change, and what the kernel maps in the windows later is seen
    through the new table as well. *)

From S2P Require Import Prelude Constants Text Phys Paging PagingThm Process Env Fd Abi AbiProc MemWin MapRun.
From S2P Require Import UserMem Elf.

(** ** Writing beside the tables *)

(** The tables under [root] are as they were; data pages stay data pages. *)
Record beside (root : Z) (s s' : Vm) : Prop := {
  bs_wf : tables_wf s' root;
  bs_walk q : valid_path q -> walk (vm_mem s') root q = walk (vm_mem s) root q;
  bs_entry q u j : valid_path q -> valid_index j -> walk (vm_mem s) root q = Some u ->
    entry_at (vm_mem s') u j = entry_at (vm_mem s) u j;
  bs_data f : data_page s root f -> data_page s' root f;
  bs_cr3 : vm_cr3 s' = vm_cr3 s;
  bs_root : KERNEL_PML4_PHYS s' = KERNEL_PML4_PHYS s
}.

Lemma beside_refl root s : tables_wf s root -> beside root s s.
Proof. by split. Qed.

Lemma beside_trans root s1 s2 s3 : beside root s1 s2 -> beside root s2 s3 -> beside root s1 s3.
Proof.
  intros [A1 A2 A3 A4 A5 A6] [B1 B2 B3 B4 B5 B6]. split; try congruence; auto.
  - intros q Hq. by rewrite B2, A2.
  - intros q u j Hq Hj Hw. rewrite (B3 q), (A3 q u j); try done. by rewrite A2.
Qed.

Lemma beside_translate root s s' w : beside root s s' -> translate s' root w = translate s root w.
Proof.
  intros B. destruct (path_of_valid w) as [Hv Hi]. unfold translate, leaf. rewrite (bs_walk _ _ _ B) by done.
  destruct (walk (vm_mem s) root (path_of w)) as [u|] eqn:E; [|done]. by rewrite (bs_entry _ _ _ B (path_of w)).
Qed.

(** It is enough that the entries of the tables there are stay, and that the pages the
    allocator holds are not among them. *)
Lemma beside_intro root s s' :
  tables_wf s root -> phys_wf (PHYS_ALLOCATOR s') -> vm_cr3 s' = vm_cr3 s -> KERNEL_PML4_PHYS s' = KERNEL_PML4_PHYS s ->
  (forall q u j, valid_path q -> valid_index j -> walk (vm_mem s) root q = Some u ->
    entry_at (vm_mem s') u j = entry_at (vm_mem s) u j) ->
  (forall x, available (PHYS_ALLOCATOR s') x -> available (PHYS_ALLOCATOR s) x) -> beside root s s'.
Proof.
  intros Hwf Ha Hc Hr Hent Hav.
  assert (Hwalk : forall q, valid_path q -> walk (vm_mem s') root q = walk (vm_mem s) root q).
  { induction q as [|j q IH] using rev_ind; [done|]. intros Hv.
    destruct (valid_snoc _ _ Hv) as [Hvq Hj]. rewrite !walk_snoc, IH by done.
    destruct (walk (vm_mem s) root q) as [u|] eqn:Eq; [|done]. apply next_table_same. by apply (Hent q). }
  split; try done.
  - split; [done| |].
    + intros q t Hq. rewrite Hwalk by done. intros Ht. destruct (tw_page _ _ Hwf q t Hq Ht). split; [done|]. by intros ?%Hav.
    + intros q1 q2 t H1 H2. rewrite !Hwalk by done. by apply (tw_inj _ _ Hwf).
  - intros f [Hf Hu Ht]. split; [done|by intros ?%Hav|]. intros q Hq. rewrite Hwalk by done. by apply Ht.
Qed.

(** Writing inside a data page. *)
Lemma page_write root s f m :
  tables_wf s root -> data_page s root f ->
  (forall a, a < f \/ f + PAGE_SIZE <= a -> m a = vm_mem s a) ->
  let s' := {| s with vm_mem := m |} in
  beside root s s' /\ forall g, data_page s root g -> g <> f -> same_page s s' g.
Proof.
  intros Hwf [[Hfa Hfr] Hu Ht] Hm s'. split.
  - apply beside_intro; try done; [apply (tw_alloc _ _ Hwf)|].
    intros q u j Hq Hj Hw. destruct (tw_page _ _ Hwf q u Hq Hw) as [[Hua _] _]. apply Hm.
    apply pages_disjoint; try done. intros ->. by apply (Ht q).
  - intros g [[Hga _] _ _] Hne k Hk. apply Hm. by apply page_disjoint_byte.
Qed.

Lemma in_table f i : valid_index i -> f <= f + 8 * i < f + PAGE_SIZE.
Proof. unfold valid_index, PAGE_SIZE. lia. Qed.

(** One entry of a data page. *)
Lemma entry_write root s f i v :
  tables_wf s root -> data_page s root f -> valid_index i ->
  let s' := set_entry_at f i v s in
  beside root s s' /\ (forall g, data_page s root g -> g <> f -> same_page s s' g) /\
  (forall j, entry_at (vm_mem s') f j = if decide (j = i) then v else entry_at (vm_mem s) f j).
Proof.
  intros Hwf Hf Hi s'. pose proof (in_table f i Hi).
  destruct (page_write root s f (aset (vm_mem s) (f + 8 * i) v) Hwf Hf) as [B S].
  { intros a Ha. apply aset_other. lia. }
  split_and!; [exact B|exact S|]. intros j. unfold s', entry_at, set_entry_at, aset. cbn [vm_mem].
  case_decide as Hd; [subst j; by rewrite Z.eqb_refl|]. destruct (Z.eqb_spec (f + 8 * j) (f + 8 * i)); [lia|done].
Qed.

(** Clearing a range of entries of a data page. *)
Lemma clear_write root f lo n s :
  tables_wf s root -> data_page s root f -> 0 <= lo -> lo + Z.of_nat n <= 512 ->
  let s' := clear_entries f lo (lo + Z.of_nat n) s in
  beside root s s' /\ (forall g, data_page s root g -> g <> f -> same_page s s' g) /\
  (forall j, entry_at (vm_mem s') f j = if decide (lo <= j < lo + Z.of_nat n) then 0 else entry_at (vm_mem s) f j).
Proof.
  intros Hwf Hf Hlo Hhi. unfold clear_entries, for_range. replace (lo + Z.of_nat n - lo) with (Z.of_nat n) by lia.
  rewrite Nat2Z.id. induction n as [|n IH].
  { simpl. split_and!; [by apply beside_refl|done|]. intros j. by rewrite decide_False by lia. }
  rewrite seq_S, fold_left_app. cbn [fold_left Nat.add]. destruct (IH ltac:(lia)) as (B & S & E).
  set (s1 := fold_left _ (seq 0 n) s) in *. clearbody s1.
  assert (Hi : valid_index (lo + Z.of_nat n)) by (unfold valid_index; lia).
  destruct (entry_write root s1 f (lo + Z.of_nat n) 0 (bs_wf _ _ _ B) (bs_data _ _ _ B f Hf) Hi) as (B2 & S2 & E2).
  split_and!.
  - by eapply beside_trans.
  - intros g Hg Hne k Hk. rewrite (S2 g (bs_data _ _ _ B g Hg) Hne k Hk). by apply S.
  - intros j. rewrite E2, E. repeat case_decide; try done; lia.
Qed.

(** A fresh copy of a table. *)
Lemma fresh_copy root s s1 n q u :
  tables_wf s root -> valid_path q -> walk (vm_mem s) root q = Some u -> alloc_zeroed_page s = (s1, Some n) ->
  let s' := copy_table u n s1 in
  beside root s s' /\ data_page s' root n /\ ~ data_page s root n /\
  (forall g, data_page s root g -> same_page s s' g) /\
  (forall j, valid_index j -> entry_at (vm_mem s') n j = entry_at (vm_mem s) u j).
Proof.
  intros Hwf Hq Hu Ea. pose proof (alloc_zeroed_spec s root Hwf) as A. rewrite Ea in A.
  destruct A as (Wf1 & Dn & Nn & C1 & _ & _ & K1).
  assert (B1 : beside root s s1).
  { unfold alloc_zeroed_page in Ea. pose proof (alloc_spec _ (tw_alloc _ _ Hwf)) as Hal.
    destruct (alloc_page (PHYS_ALLOCATOR s)) as [a' [p|]]; [|done]. injection Ea as <- ->.
    destruct Hal as (Wa & Hav & Han & _ & Hav'). apply beside_intro; try done.
    - intros q' u' j Hq' Hj Hw. destruct (tw_page _ _ Hwf q' u' Hq' Hw) as [[Hua _] Hun].
      refine (fill_out (vm_mem s) _ _ _ _ _). apply pages_disjoint; try done. by intros ->.
    - intros x. cbn [PHYS_ALLOCATOR]. rewrite Hav'. tauto. }
  pose proof (bs_walk _ _ _ B1 q Hq) as Hu1. rewrite Hu in Hu1.
  assert (Hun : u <> n) by (intros ->; by apply (dp_table _ _ _ Dn q)).
  destruct (page_write root s1 n (fun a => if (n <=? a) && (a <? n + 8 * Z.of_nat PAGE_TABLE_ENTRIES)
    then vm_mem s1 (u + (a - n)) else vm_mem s1 a) Wf1 Dn) as [B2 S2].
  { intros a Ha. change (8 * Z.of_nat PAGE_TABLE_ENTRIES) with PAGE_SIZE.
    destruct (Z.leb_spec n a), (Z.ltb_spec a (n + PAGE_SIZE)); try done. lia. }
  intros s'. split_and!.
  - by eapply beside_trans.
  - by apply (bs_data _ _ _ B2).
  - done.
  - intros g Hg. destruct (K1 g Hg) as [Dg Sg]. assert (Hgn : g <> n) by (by intros ->). intros k Hk.
    rewrite <- (Sg k Hk). by apply (S2 g Dg Hgn).
  - intros j Hj. rewrite <- (bs_entry _ _ _ B1 q u j Hq Hj Hu). unfold entry_at, s', copy_table. cbn [vm_mem].
    change (8 * Z.of_nat PAGE_TABLE_ENTRIES) with PAGE_SIZE. pose proof (in_table n j Hj).
    destruct (Z.leb_spec n (n + 8 * j)); [|lia]. destruct (Z.ltb_spec (n + 8 * j) (n + PAGE_SIZE)); [|lia].
    cbn [andb]. f_equal. lia.
Qed.

(** ** Walks through a table that shares the kernel's *)

(** The indices of the image window: one entry of the top-level table, one of the next,
    and the entries of its directory that the image takes. *)
Definition image_top : Z := pml4_index APP_LOAD_MIN.
Definition image_mid : Z := pdpt_index APP_LOAD_MIN.
Definition image_dir (k : Z) : Prop := start_pd_index <= k < end_pd_index.

#[export] Instance image_dir_dec k : Decision (image_dir k).
Proof. unfold image_dir. apply _. Defined.

(** [top], [mid] and [dir] are copies of the kernel's tables, linked over the image
    window and empty there. *)
Record private_tables (s : Vm) (root top mid dir : Z) : Prop := {
  pt_top_page : data_page s root top;
  pt_mid_page : data_page s root mid;
  pt_dir_page : data_page s root dir;
  pt_distinct : top <> mid /\ top <> dir /\ mid <> dir;
  pt_kernel : exists u1 u2, walk (vm_mem s) root [image_top] = Some u1 /\ walk (vm_mem s) root [image_top; image_mid] = Some u2 /\
    (forall j, valid_index j -> j <> image_mid -> entry_at (vm_mem s) mid j = entry_at (vm_mem s) u1 j) /\
    (forall k, valid_index k -> ~ image_dir k -> entry_at (vm_mem s) dir k = entry_at (vm_mem s) u2 k);
  pt_top j : valid_index j -> j <> image_top -> entry_at (vm_mem s) top j = entry_at (vm_mem s) root j;
  pt_to_mid : entry_at (vm_mem s) top image_top = table_entry mid;
  pt_to_dir : entry_at (vm_mem s) mid image_mid = table_entry dir;
  pt_empty k : image_dir k -> entry_at (vm_mem s) dir k = 0
}.

(** The three paths of the private tables. *)
Definition private_path (q : list Z) : Prop := q = [] \/ q = [image_top] \/ q = [image_top; image_mid].

Section Private.

Context (s : Vm) (root top mid dir : Z) (Hwf : tables_wf s root) (Hp : private_tables s root top mid dir).

Lemma next_table_eq mem t i u j :
  entry_at mem t i = entry_at mem u j -> next_table mem t i = next_table mem u j.
Proof using. unfold next_table. by intros ->. Qed.

Lemma next_top : next_table (vm_mem s) top image_top = Some mid.
Proof using Hp. apply next_table_entry; [apply (pt_mid_page _ _ _ _ _ Hp)|apply (pt_to_mid _ _ _ _ _ Hp)]. Qed.

Lemma next_mid : next_table (vm_mem s) mid image_mid = Some dir.
Proof using Hp. apply next_table_entry; [apply (pt_dir_page _ _ _ _ _ Hp)|apply (pt_to_dir _ _ _ _ _ Hp)]. Qed.

(** Off the image window a walk is the kernel's; inside it ends at the directory. *)
Lemma walk_off_top i q : valid_index i -> i <> image_top -> walk (vm_mem s) top (i :: q) = walk (vm_mem s) root (i :: q).
Proof using Hp.
  intros Hi Hne. cbn [walk]. by rewrite (next_table_eq (vm_mem s) top i root i) by by apply (pt_top _ _ _ _ _ Hp).
Qed.

Lemma walk_off_mid j q : valid_index j -> j <> image_mid ->
  walk (vm_mem s) top (image_top :: j :: q) = walk (vm_mem s) root (image_top :: j :: q).
Proof using Hp.
  intros Hj Hne. destruct (pt_kernel _ _ _ _ _ Hp) as (u1 & u2 & W1 & _ & E1 & _).
  change (image_top :: j :: q) with ([image_top] ++ j :: q). rewrite !walk_app, W1. cbn [walk]. rewrite next_top.
  by rewrite (next_table_eq (vm_mem s) mid j u1 j) by by apply E1.
Qed.

Lemma walk_off_dir k q : valid_index k -> ~ image_dir k ->
  walk (vm_mem s) top (image_top :: image_mid :: k :: q) = walk (vm_mem s) root (image_top :: image_mid :: k :: q).
Proof using Hp.
  intros Hk Hne. destruct (pt_kernel _ _ _ _ _ Hp) as (u1 & u2 & _ & W2 & _ & E2).
  change (image_top :: image_mid :: k :: q) with ([image_top; image_mid] ++ k :: q).
  rewrite !walk_app, W2. cbn [walk]. rewrite next_top, next_mid.
  by rewrite (next_table_eq (vm_mem s) dir k u2 k) by by apply E2.
Qed.

Lemma walk_in_dir k q : image_dir k -> walk (vm_mem s) top (image_top :: image_mid :: k :: q) = None.
Proof using Hp.
  intros Hk. cbn [walk]. rewrite next_top, next_mid. by rewrite next_table_zero by by apply (pt_empty _ _ _ _ _ Hp).
Qed.

(** A table reached is one of the three, or one of the kernel's. *)
Lemma private_cases q t : valid_path q -> walk (vm_mem s) top q = Some t ->
  (q = [] /\ t = top) \/ (q = [image_top] /\ t = mid) \/ (q = [image_top; image_mid] /\ t = dir) \/
  walk (vm_mem s) root q = Some t.
Proof using Hp.
  intros [_ Hv]. destruct q as [|i q]; [simpl; intros [= <-]; auto|]. apply Forall_cons in Hv as [Hi Hv].
  destruct (decide (i = image_top)) as [->|Hne]; [|rewrite walk_off_top by done; auto].
  destruct q as [|j q]; [cbn [walk]; rewrite next_top; intros [= <-]; auto|]. apply Forall_cons in Hv as [Hj Hv].
  destruct (decide (j = image_mid)) as [->|Hne]; [|rewrite walk_off_mid by done; auto].
  destruct q as [|k q]; [cbn [walk]; rewrite next_top, next_mid; intros [= <-]; auto 6|]. apply Forall_cons in Hv as [Hk _].
  destruct (decide (image_dir k)); [by rewrite walk_in_dir|]. rewrite walk_off_dir by done. auto.
Qed.

(** The tables of the process are well-formed. *)
Lemma private_wf : tables_wf s top.
Proof using Hwf Hp.
  pose proof Hp as [[P1 P2 P3] [P4 P5 P6] [P7 P8 P9] (D1 & D2 & D3) _ _ _ _ _]. split; [apply (tw_alloc _ _ Hwf)| |].
  - intros q t Hq Hw. destruct (private_cases q t Hq Hw) as [[_ ->]|[[_ ->]|[[_ ->]|Ho]]]; try done.
    by apply (tw_page _ _ Hwf q).
  - intros q1 q2 t H1 H2 W1 W2.
    assert (N : forall q, valid_path q -> walk (vm_mem s) root q = Some t -> t <> top /\ t <> mid /\ t <> dir).
    { intros q Hq Hw. split_and!; intros ->; [by apply (P3 q)|by apply (P6 q)|by apply (P9 q)]. }
    destruct (private_cases q1 t H1 W1) as [[-> E1]|[[-> E1]|[[-> E1]|O1]]],
      (private_cases q2 t H2 W2) as [[-> E2]|[[-> E2]|[[-> E2]|O2]]];
      first [done|congruence|by destruct (N _ H2 O2) as (? & ? & ?)|by destruct (N _ H1 O1) as (? & ? & ?)
            |by apply (tw_inj _ _ Hwf _ _ t)].
Qed.

(** The addresses of the image window, and of what aliases it. *)
Definition image_address (w : Z) : Prop :=
  pml4_index w = image_top /\ pdpt_index w = image_mid /\ image_dir (pd_index w).

Lemma private_translate w : 
  (image_address w -> translate s top w = None) /\ (~ image_address w -> translate s top w = translate s root w).
Proof using Hp.
  destruct (path_of_valid w) as [[_ Hv] _]. unfold image_address, translate, leaf, path_of in *.
  apply Forall_cons in Hv as [Hi Hv]. apply Forall_cons in Hv as [Hj Hv]. apply Forall_cons in Hv as [Hk _]. split.
  - intros (-> & -> & Hd). by rewrite walk_in_dir.
  - intros Hn. destruct (decide (pml4_index w = image_top)) as [E1|]; [|by rewrite walk_off_top].
    destruct (decide (pdpt_index w = image_mid)) as [E2|]; [|rewrite E1; by rewrite walk_off_mid].
    rewrite E1, E2. rewrite walk_off_dir; [done|done|]. intros Hd. by apply Hn.
Qed.

End Private.

Lemma image_address_in w : in_image w -> image_address w.
Proof.
  unfold in_image, image_address, image_dir, image_top, image_mid, start_pd_index, end_pd_index, APP_LOAD_MIN, APP_LOAD_MAX, PAGE_SIZE.
  unfold pml4_index, pdpt_index, pd_index. change 0x1FF with (Z.ones 9). intros Hw.
  rewrite !Z.land_ones, !Z.shiftr_div_pow2 by lia.
  change (2 ^ 9) with 512. change (2 ^ 39) with 549755813888. change (2 ^ 30) with 1073741824. change (2 ^ 21) with 2097152.
  zlia.
Qed.

(** ** Making an address space *)

Lemma same_page_entry s s' f i : same_page s s' f -> valid_index i -> entry_at (vm_mem s') f i = entry_at (vm_mem s) f i.
Proof. intros H Hi. apply H. pose proof (in_table 0 i Hi). lia. Qed.

(** What the kernel sees of it: nothing but a few tables more. *)
Record kernel_kept (root : Z) (s s' : Vm) : Prop := {
  kk_wf : tables_wf s' root;
  kk_translate w : translate s' root w = translate s root w;
  kk_keeps f : keeps_page root s s' f;
  kk_top : top_kept root s s';
  kk_root : KERNEL_PML4_PHYS s' = KERNEL_PML4_PHYS s
}.

Lemma kernel_kept_trans root s1 s2 s3 : kernel_kept root s1 s2 -> kernel_kept root s2 s3 -> kernel_kept root s1 s3.
Proof.
  intros [A1 A2 A3 A4 A5] [B1 B2 B3 B4 B5]. split; [done| | |by eapply top_kept_trans|congruence].
  - intros w. by rewrite B2, A2.
  - intros f. by eapply keeps_page_trans.
Qed.

Lemma beside_kept root s s' :
  tables_wf s root -> beside root s s' -> (forall f, data_page s root f -> same_page s s' f) -> kernel_kept root s s'.
Proof.
  intros Hwf B S. split; [apply B|intros w; by apply beside_translate| | |apply B].
  - intros f Hf. split; [by apply (bs_data _ _ _ B)|by apply S].
  - intros i Hi _. apply (bs_entry _ _ _ B []); [split; [simpl; lia|by constructor]|done|done].
Qed.

Lemma tables_step_kept root s s' :
  tables_step root s s' -> KERNEL_PML4_PHYS s' = KERNEL_PML4_PHYS s -> kernel_kept root s s'.
Proof.
  intros T R. split; [apply T|intros w; by apply tables_step_translate| |apply T|done].
  intros f. exact (ts_data _ _ _ T f).
Qed.

(** Giving a fresh page back. *)
Lemma free_kept root s s' f :
  kernel_kept root s s' -> data_page s' root f -> ~ data_page s root f -> kernel_kept root s (fst (free_phys_page f s')).
Proof.
  intros [K1 K2 K3 K4 K5] Hf Hn. destruct (free_data_page s' root f K1 Hf) as (Wf & E & _ & R & K). split; [done| | | |congruence].
  - intros w. rewrite <- K2. unfold translate, leaf. by rewrite E.
  - intros g Hg. assert (g <> f) by (by intros ->). destruct (K3 g Hg) as [D S]. destruct (K g) as [D' S']; [done|done|].
    split; [done|]. intros k Hk. by rewrite S', S.
  - intros i Hi Hp. rewrite E. by apply K4.
Qed.

Section Build.

Context (root : Z) (s s1 s2 s3 : Vm) (top mid dir u1 u2 : Z) (Hwf : tables_wf s root).
Context (A1 : alloc_zeroed_page s = (s1, Some top)).

Abbreviation c1 := (copy_table root top s1).

Lemma first_copy :
  kernel_kept root s c1 /\ data_page c1 root top /\ ~ data_page s root top /\ beside root s c1 /\
  (forall j, valid_index j -> entry_at (vm_mem c1) top j = entry_at (vm_mem s) root j).
Proof using Hwf A1.
  assert (V0 : valid_path []) by (split; [simpl; lia|by constructor]).
  destruct (fresh_copy root s s1 top [] root Hwf V0 eq_refl A1) as (B & D & N & S & E).
  split_and!; [by apply beside_kept|done..].
Qed.

Context (N1 : next_table (vm_mem c1) top image_top = Some u1).
Context (A2 : alloc_zeroed_page c1 = (s2, Some mid)).

Abbreviation c2 := (copy_table u1 mid s2).

Lemma top_index_valid : valid_index image_top.
Proof using. apply index_valid. Qed.

Lemma mid_index_valid : valid_index image_mid.
Proof using. apply index_valid. Qed.

Lemma path1_valid : valid_path [image_top].
Proof using. split; [simpl; lia|]. repeat constructor; apply index_valid. Qed.

Lemma path2_valid : valid_path [image_top; image_mid].
Proof using. split; [simpl; lia|]. repeat constructor; apply index_valid. Qed.

Lemma walk_u1 : walk (vm_mem c1) root [image_top] = Some u1.
Proof using Hwf A1 N1.
  destruct first_copy as (_ & _ & _ & B & E). rewrite (bs_walk _ _ _ B) by apply path1_valid. cbn [walk].
  replace (next_table (vm_mem s) root image_top) with (Some u1); [done|]. rewrite <- N1. unfold next_table.
  by rewrite E by apply top_index_valid.
Qed.

Lemma second_copy :
  kernel_kept root s c2 /\ data_page c2 root mid /\ ~ data_page c1 root mid /\ beside root c1 c2 /\
  (forall g, data_page c1 root g -> same_page c1 c2 g) /\
  (forall j, valid_index j -> entry_at (vm_mem c2) mid j = entry_at (vm_mem c1) u1 j).
Proof using Hwf A1 N1 A2.
  destruct first_copy as (K & _ & _ & B & _).
  destruct (fresh_copy root c1 s2 mid [image_top] u1 (bs_wf _ _ _ B) path1_valid walk_u1 A2) as (B2 & D & N & S & E).
  split_and!; [|done..]. eapply kernel_kept_trans; [exact K|]. by apply beside_kept; [apply B|..].
Qed.

Context (N2 : next_table (vm_mem c2) mid image_mid = Some u2).
Context (A3 : alloc_zeroed_page c2 = (s3, Some dir)).

Abbreviation c3 := (copy_table u2 dir s3).

Lemma walk_u2 : walk (vm_mem c2) root [image_top; image_mid] = Some u2.
Proof using Hwf A1 N1 A2 N2.
  destruct second_copy as (_ & _ & _ & B & _ & E). rewrite (bs_walk _ _ _ B) by apply path2_valid.
  change [image_top; image_mid] with ([image_top] ++ [image_mid]). rewrite walk_snoc, walk_u1. rewrite <- N2.
  unfold next_table. by rewrite E by apply mid_index_valid.
Qed.

Lemma third_copy :
  kernel_kept root s c3 /\ data_page c3 root dir /\ ~ data_page c2 root dir /\ beside root c2 c3 /\
  (forall g, data_page c2 root g -> same_page c2 c3 g) /\
  (forall j, valid_index j -> entry_at (vm_mem c3) dir j = entry_at (vm_mem c2) u2 j).
Proof using Hwf A1 N1 A2 N2 A3.
  destruct second_copy as (K & _ & _ & B & _).
  destruct (fresh_copy root c2 s3 dir [image_top; image_mid] u2 (bs_wf _ _ _ B) path2_valid walk_u2 A3)
    as (B3 & D & N & S & E).
  split_and!; [|done..]. eapply kernel_kept_trans; [exact K|]. by apply beside_kept; [apply B|..].
Qed.

Lemma fresh_distinct : top <> mid /\ top <> dir /\ mid <> dir /\ ~ data_page s root mid /\ ~ data_page s root dir.
Proof using Hwf A1 N1 A2 N2 A3.
  destruct first_copy as (_ & D1 & _ & B1 & _), second_copy as (_ & D2 & F2 & B2 & _), third_copy as (_ & _ & F3 & _).
  pose proof (bs_data _ _ _ B2 top D1). split_and!; try (by intros ->).
  - by intros ?%(bs_data _ _ _ B1).
  - by intros ?%(bs_data _ _ _ B1)%(bs_data _ _ _ B2).
Qed.

Abbreviation c4 := (clear_entries dir start_pd_index end_pd_index c3).
Abbreviation c5 := (set_entry_at mid image_mid (table_entry dir) c4).
Abbreviation c6 := (set_entry_at top image_top (table_entry mid) c5).

(** The three writes that end the construction touch the private tables only. *)
Lemma last_writes :
  beside root c3 c6 /\
  (forall g, data_page c3 root g -> g <> top -> g <> mid -> g <> dir -> same_page c3 c6 g) /\
  (forall j, valid_index j -> entry_at (vm_mem c6) top j = if decide (j = image_top) then table_entry mid else entry_at (vm_mem c3) top j) /\
  (forall j, valid_index j -> entry_at (vm_mem c6) mid j = if decide (j = image_mid) then table_entry dir else entry_at (vm_mem c3) mid j) /\
  (forall j, valid_index j -> entry_at (vm_mem c6) dir j = if decide (image_dir j) then 0 else entry_at (vm_mem c3) dir j).
Proof using Hwf A1 N1 A2 N2 A3.
  destruct first_copy as (_ & D1 & _ & B1 & _), second_copy as (_ & D2 & _ & B2 & _), third_copy as (_ & D3 & _ & B3 & _).
  destruct fresh_distinct as (X1 & X2 & X3 & _ & _).
  assert (T3 : data_page c3 root top) by by apply (bs_data _ _ _ B3), (bs_data _ _ _ B2).
  assert (M3 : data_page c3 root mid) by by apply (bs_data _ _ _ B3).
  destruct (clear_write root dir start_pd_index 71 c3 (bs_wf _ _ _ B3) D3 ltac:(done) ltac:(done)) as (B4 & S4 & E4).
  change (start_pd_index + Z.of_nat 71) with end_pd_index in *.
  set (s4 := c4) in *. clearbody s4.
  destruct (entry_write root s4 mid image_mid (table_entry dir) (bs_wf _ _ _ B4) (bs_data _ _ _ B4 mid M3) mid_index_valid)
    as (B5 & S5 & E5).
  set (s5 := set_entry_at mid image_mid (table_entry dir) s4) in *. clearbody s5.
  assert (B45 : beside root c3 s5) by by eapply beside_trans.
  destruct (entry_write root s5 top image_top (table_entry mid) (bs_wf _ _ _ B5) (bs_data _ _ _ B45 top T3) top_index_valid)
    as (B6 & S6 & E6).
  set (s6 := set_entry_at top image_top (table_entry mid) s5) in *. clearbody s6.
  assert (P5 : forall g, data_page c3 root g -> g <> mid -> same_page s4 s5 g).
  { intros g Hg. apply S5. by apply (bs_data _ _ _ B4). }
  assert (P6 : forall g, data_page c3 root g -> g <> top -> same_page s5 s6 g).
  { intros g Hg. apply S6. by apply (bs_data _ _ _ B45). }
  split_and!.
  - by eapply beside_trans.
  - intros g Hg G1 G2 G3 k Hk. rewrite (P6 g Hg G1 k Hk), (P5 g Hg G2 k Hk). by apply S4.
  - intros j Hj. rewrite E6. case_decide; [done|].
    rewrite (same_page_entry _ _ _ _ (P5 top T3 X1) Hj). exact (same_page_entry _ _ _ _ (S4 top T3 X2) Hj).
  - intros j Hj. rewrite (same_page_entry _ _ _ _ (P6 mid M3 (not_eq_sym X1)) Hj), E5. case_decide; [done|].
    exact (same_page_entry _ _ _ _ (S4 mid M3 X3) Hj).
  - intros j Hj. rewrite (same_page_entry _ _ _ _ (P6 dir D3 (not_eq_sym X2)) Hj).
    rewrite (same_page_entry _ _ _ _ (P5 dir D3 (not_eq_sym X3)) Hj). apply E4.
Qed.

Lemma built : kernel_kept root s c6 /\ private_tables c6 root top mid dir.
Proof using Hwf A1 N1 A2 N2 A3.
  destruct first_copy as (_ & D1 & F1 & B1 & E1), second_copy as (_ & D2 & _ & B2 & S2 & E2),
    third_copy as (K3 & D3 & _ & B3 & S3 & E3), last_writes as (B6 & S6 & T1 & T2 & T3), fresh_distinct as (X1 & X2 & X3 & Y2 & Y3).
  set (s6 := c6) in *. clearbody s6.
  assert (B26 : beside root c2 s6) by by eapply beside_trans. assert (B16 : beside root c1 s6) by by eapply beside_trans.
  assert (B06 : beside root s s6) by by eapply beside_trans. split.
  - apply beside_kept; [done|done|]. intros f Hf k Hk. destruct (kk_keeps _ _ _ K3 f Hf) as [D S].
    rewrite (S6 f D); [by apply S|..|done]; by intros ->.
  - pose proof walk_u1 as W1. pose proof walk_u2 as W2. split.
    + by apply (bs_data _ _ _ B16).
    + by apply (bs_data _ _ _ B26).
    + by apply (bs_data _ _ _ B6).
    + done.
    + exists u1, u2. split_and!.
      * rewrite (bs_walk _ _ _ B16) by apply path1_valid. done.
      * rewrite (bs_walk _ _ _ B26) by apply path2_valid. done.
      * intros j Hj Hne. rewrite T2, decide_False by done. rewrite (same_page_entry _ _ _ _ (S3 mid D2) Hj), E2 by done.
        symmetry. by apply (bs_entry _ _ _ B16 [image_top]); [apply path1_valid|..].
      * intros j Hj Hne. rewrite T3, decide_False by done. rewrite E3 by done.
        symmetry. by apply (bs_entry _ _ _ B26 [image_top; image_mid]); [apply path2_valid|..].
    + intros j Hj Hne. rewrite T1, decide_False by done.
      rewrite (same_page_entry _ _ _ _ (S3 top (bs_data _ _ _ B2 top D1)) Hj), (same_page_entry _ _ _ _ (S2 top D1) Hj), E1 by done.
      symmetry. by apply (bs_entry _ _ _ B06 []); [split; [simpl; lia|by constructor]|..].
    + rewrite T1 by apply top_index_valid. by rewrite decide_True.
    + rewrite T2 by apply mid_index_valid. by rewrite decide_True.
    + intros j Hj. rewrite T3; [by rewrite decide_True|]. unfold image_dir in Hj.
      change start_pd_index with 1 in Hj. change end_pd_index with 72 in Hj. unfold valid_index. lia.
Qed.

End Build.

(** The top-level entries of the windows of a process. *)
Definition window_tops (p : Z) : list Z :=
  [pml4_index (heap_window p); pml4_index (mmap_window p); pml4_index (stack_window p)].

Lemma window_tops_high p i : 0 <= p < pid_limit -> i ∈ window_tops p -> valid_index i /\ i <> image_top.
Proof.
  intros Hp Hi. assert (Hv : exists v, i = pml4_index v /\ 0xFFFF800000000000 <= v < 18446744073709551616).
  { unfold window_tops, heap_window, mmap_window, stack_window in Hi.
    rewrite !u64_small in Hi by (unfold is_u64; unfold KERNEL_STACK_BASE, KERNEL_STACK_STRIDE; win_const; lia).
    rewrite !elem_of_cons in Hi.
    destruct Hi as [->|[->|[->|Hi]]]; [| | |by apply not_elem_of_nil in Hi]; eexists; (split; [done|]);
      unfold KERNEL_STACK_BASE, KERNEL_STACK_STRIDE; win_const; lia. }
  destruct Hv as (v & -> & Hr). split; [apply index_valid|]. change image_top with 0. unfold pml4_index.
  change 0x1FF with (Z.ones 9). rewrite Z.land_ones, Z.shiftr_div_pow2 by lia.
  change (2 ^ 9) with 512. change (2 ^ 39) with 549755813888. zlia.
Qed.

Lemma ensure_top root i s :
  tables_wf s root -> valid_index i ->
  let '(s', r) := ensure_next_table root i s in
  kernel_kept root s s' /\ (is_Some r -> present (entry_at (vm_mem s') root i) = true).
Proof.
  intros Hwf Hi. assert (V1 : valid_path ([] ++ [i])) by (split; [simpl; lia|by apply Forall_singleton]).
  pose proof (ensure_spec s root [] i root Hwf V1 eq_refl) as H.
  pose proof (ensure_keeps_root root i s) as R.
  destruct (ensure_next_table root i s) as [s' r]. destruct H as [T W]. split; [by apply tables_step_kept|].
  intros [n ->]. specialize (W n eq_refl). cbn [app walk] in W. unfold next_table in W.
  by destruct (present (entry_at (vm_mem s') root i)).
Qed.

(** The private tables of a new process, seen from the kernel's state [s] before. *)
Definition new_space (s s' : Vm) (root p top : Z) : Prop :=
  ~ data_page s root top /\ Forall (fun i => present (entry_at (vm_mem s') root i) = true) (window_tops p) /\
  exists mid dir, private_tables s' root top mid dir.

(** The part after the windows' top-level entries are there. *)
Definition build_space (kernel_pml4 : Z) : ST Vm (option Z) :=
  let* r := alloc_zeroed_page in
  let? new_pml4 := r else st_ret None in
  do! (fun s => (copy_table kernel_pml4 new_pml4 s, tt)) in
  let* r := table_entry_address new_pml4 image_top in
  let? shared_pdpt := r else (do! free_phys_page new_pml4 in st_ret None) in
  let* r := alloc_zeroed_page in
  let? new_pdpt := r else (do! free_phys_page new_pml4 in st_ret None) in
  do! (fun s => (copy_table shared_pdpt new_pdpt s, tt)) in
  let* r := table_entry_address new_pdpt image_mid in
  let? shared_pd := r else
    (do! free_phys_page new_pdpt in do! free_phys_page new_pml4 in st_ret None) in
  let* r := alloc_zeroed_page in
  let? new_pd := r else
    (do! free_phys_page new_pdpt in do! free_phys_page new_pml4 in st_ret None) in
  fun s =>
    let s := copy_table shared_pd new_pd s in
    let s := clear_entries new_pd start_pd_index end_pd_index s in
    let s := set_entry_at new_pdpt image_mid (table_entry new_pd) s in
    let s := set_entry_at new_pml4 image_top (table_entry new_pdpt) s in
    (s, Some new_pml4).

Lemma create_ensures p :
  create_process_address_space p =
  let* r := ensure_kernel_pml4 in
  let? kernel_pml4 := r else st_ret None in
  let* r := ensure_next_table kernel_pml4 (pml4_index (heap_window p)) in
  let? _t := r else st_ret None in
  let* r := ensure_next_table kernel_pml4 (pml4_index (mmap_window p)) in
  let? _t := r else st_ret None in
  let* r := ensure_next_table kernel_pml4 (pml4_index (stack_window p)) in
  let? _t := r else st_ret None in
  build_space kernel_pml4.
Proof. reflexivity. Qed.

Lemma alloc_none_same s root s1 : tables_wf s root -> alloc_zeroed_page s = (s1, None) -> s1 = s.
Proof. intros Hwf E. pose proof (alloc_zeroed_spec s root Hwf) as A. by rewrite E in A. Qed.

(** Two fresh pages given back. *)
Lemma free_two_kept root s s' f g :
  kernel_kept root s s' -> data_page s' root f -> ~ data_page s root f -> data_page s' root g -> ~ data_page s root g ->
  f <> g -> kernel_kept root s (fst (free_phys_page g (fst (free_phys_page f s')))).
Proof.
  intros K Df Nf Dg Ng Hne. apply free_kept; [by apply free_kept| |done].
  destruct (free_data_page s' root f (kk_wf _ _ _ K) Df) as (_ & _ & _ & _ & Kf). apply (Kf g); [congruence|done].
Qed.

Lemma build_spec s root :
  tables_wf s root ->
  let '(s', r) := build_space root s in
  kernel_kept root s s' /\
  match r with
  | Some top => ~ data_page s root top /\ exists mid dir, private_tables s' root top mid dir
  | None => True
  end.
Proof.
  intros Hwf. assert (K0 : kernel_kept root s s) by (apply beside_kept; [done|by apply beside_refl|done]).
  unfold build_space, st_bind. destruct (alloc_zeroed_page s) as [s1 [top|]] eqn:A1.
  2:{ apply (alloc_none_same s root) in A1 as ->; [|done]. by split. }
  destruct (first_copy root s s1 top Hwf A1) as (K1 & D1 & F1 & B1 & _).
  cbv beta iota. rewrite table_entry_next. destruct (next_table _ top image_top) as [u1|] eqn:N1.
  2:{ destruct (free_phys_page top _) as [s' ok] eqn:E. split; [|done]. change s' with (fst (s', ok)). rewrite <- E. by apply free_kept. }
  destruct (alloc_zeroed_page (copy_table root top s1)) as [s2 [mid|]] eqn:A2.
  2:{ apply (alloc_none_same _ root) in A2 as ->; [|apply B1].
      destruct (free_phys_page top _) as [s' ok] eqn:E. split; [|done]. change s' with (fst (s', ok)). rewrite <- E. by apply free_kept. }
  destruct (second_copy root s s1 s2 top mid u1 Hwf A1 N1 A2) as (K2 & D2 & F2 & B2 & _).
  pose proof (bs_data _ _ _ B2 top D1) as D12. assert (F2' : ~ data_page s root mid) by (by intros ?%(bs_data _ _ _ B1)).
  assert (Hne : mid <> top) by (by intros ->). cbv beta iota. rewrite table_entry_next.
  destruct (next_table _ mid image_mid) as [u2|] eqn:N2.
  2:{ pose proof (free_two_kept root s _ mid top K2 D2 F2' D12 F1 Hne) as F. destruct (free_phys_page mid _) as [s' ok].
      cbn [fst] in F. destruct (free_phys_page top s') as [s'' ok']. by split. }
  destruct (alloc_zeroed_page (copy_table u1 mid s2)) as [s3 [dir|]] eqn:A3.
  2:{ apply (alloc_none_same _ root) in A3 as ->; [|apply B2].
      pose proof (free_two_kept root s _ mid top K2 D2 F2' D12 F1 Hne) as F. destruct (free_phys_page mid _) as [s' ok].
      cbn [fst] in F. destruct (free_phys_page top s') as [s'' ok']. by split. }
  destruct (built root s s1 s2 s3 top mid dir u1 u2 Hwf A1 N1 A2 N2 A3) as [K P].
  split; [exact K|]. split; [done|]. by exists mid, dir.
Qed.

(** Well-formed private tables with nothing mapped over the image. *)
Lemma private_image_ok s root top mid dir : tables_wf s root -> private_tables s root top mid dir -> image_ok s top.
Proof.
  intros Hwf P. split; [by apply (private_wf s root top mid dir)|..].
  - intros v f Hv. by rewrite (proj1 (private_translate s root top mid dir P v) (image_address_in v Hv)).
  - intros v w f Hv. by rewrite (proj1 (private_translate s root top mid dir P v) (image_address_in v Hv)).
Qed.

(** ** Seeing the windows *)

(** The top-level table [top] of process [p] shares the windows' entries with the
    kernel, and is nobody's page. *)
Record sees_windows (k : Kernel) (p top : Z) : Prop := {
  sw_page : data_page (vm k) (root_of k) top;
  sw_own v : user_page k v -> frame_of k v <> Some top;
  sw_top i : i ∈ window_tops p -> present (entry_at (vm_mem (vm k)) (root_of k) i) = true /\
    entry_at (vm_mem (vm k)) top i = entry_at (vm_mem (vm k)) (root_of k) i
}.

(** Through such a table an address of the windows has the kernel's translation. *)
Lemma seen_translate k p top w :
  sees_windows k p top -> pml4_index w ∈ window_tops p -> translate (vm k) top w = frame_of k w.
Proof.
  intros [_ _ St] Hw. destruct (St _ Hw) as [_ E]. unfold frame_of, translate, leaf, path_of. cbn [walk].
  by rewrite (next_table_eq _ top _ (root_of k) (pml4_index w) E).
Qed.

Lemma sees_step k p top c :
  0 <= p < pid_limit -> user_memory_ok k -> 0 <= call_pages c -> sees_windows k p top -> sees_windows (fst (mem_call c k)) p top.
Proof.
  intros Hp Hk Hn [Sp So St]. pose proof (call_step k Hk c Hn) as [Ok Er _ Et Kp].
  pose proof (call_effect k Hk c Hn) as Ef. cbv zeta in Ef.
  set (k' := fst (mem_call c k)) in *. clearbody k'. destruct (Kp top So Sp) as [D S]. split.
  - by rewrite Er.
  - intros v Hv Ev. destruct (frames_before k Hk k' v top Ef (proj1 Hv) (user_in_windows k' Ok v Hv) Ev) as [[Hu E]|Hd]; [by apply (So v)|done].
  - intros i Hi. destruct (St i Hi) as [Pi Ei]. destruct (window_tops_high p i Hp Hi) as [Vi _].
    rewrite Er, (Et i Vi Pi). split; [done|]. by rewrite (same_page_entry _ _ _ _ S Vi).
Qed.

Lemma calls_keep_memory cs k :
  user_memory_ok k -> Forall (fun c => 0 <= call_pages c) cs -> user_memory_ok (mem_calls cs k).
Proof.
  intros Hk Hc. revert k Hk. induction Hc as [|c cs Hn _ IH]; intros k Hk; [done|]. apply IH. by apply (ms_ok k), call_step.
Qed.

Lemma sees_calls k p top cs :
  0 <= p < pid_limit -> user_memory_ok k -> Forall (fun c => 0 <= call_pages c) cs -> sees_windows k p top ->
  sees_windows (mem_calls cs k) p top.
Proof.
  intros Hp Hk Hc Hs. revert k Hk Hs. induction Hc as [|c cs Hn _ IH]; intros k Hk Hs; [done|].
  apply IH; [by apply (ms_ok k), call_step|by apply sees_step].
Qed.

(** ** Properties *)

Lemma created_space p s root :
  tables_wf s root -> KERNEL_PML4_PHYS s = root ->
  let '(s', r) := create_process_address_space p s in
  kernel_kept root s s' /\ match r with Some top => new_space s s' root p top | None => True end.
Proof.
  intros Hwf Hr. rewrite create_ensures. unfold st_bind.
  assert (E0 : ensure_kernel_pml4 s = (s, Some root)).
  { unfold ensure_kernel_pml4. by rewrite Hr, (root_nonzero s root Hwf). }
  rewrite E0. pose proof (index_valid (heap_window p) 39) as I1. pose proof (index_valid (mmap_window p) 39) as I2.
  pose proof (index_valid (stack_window p) 39) as I3.
  pose proof (ensure_top root (pml4_index (heap_window p)) s Hwf I1) as H1.
  destruct (ensure_next_table root _ s) as [s1 [t1|]], H1 as [K1 P1]; [|by split].
  pose proof (ensure_top root (pml4_index (mmap_window p)) s1 (kk_wf _ _ _ K1) I2) as H2.
  destruct (ensure_next_table root _ s1) as [s2 [t2|]], H2 as [K2 P2]; [|split; [by eapply kernel_kept_trans|done]].
  pose proof (ensure_top root (pml4_index (stack_window p)) s2 (kk_wf _ _ _ K2) I3) as H3.
  destruct (ensure_next_table root _ s2) as [s3 [t3|]], H3 as [K3 P3];
    [|split; [eapply kernel_kept_trans; [exact K1|by eapply kernel_kept_trans]|done]].
  assert (K13 : kernel_kept root s1 s3) by by eapply kernel_kept_trans.
  assert (K03 : kernel_kept root s s3) by by eapply kernel_kept_trans.
  pose proof (build_spec s3 root (kk_wf _ _ _ K3)) as B. destruct (build_space root s3) as [s' r], B as [K4 B].
  split; [by eapply kernel_kept_trans|]. destruct r as [top|]; [|done]. destruct B as (Nt & mid & dir & P).
  specialize (P1 (mk_is_Some _ _ eq_refl)). specialize (P2 (mk_is_Some _ _ eq_refl)). specialize (P3 (mk_is_Some _ _ eq_refl)).
  assert (K14 : kernel_kept root s1 s') by by eapply kernel_kept_trans.
  assert (K24 : kernel_kept root s2 s') by by eapply kernel_kept_trans. split_and!.
  - intros D. apply Nt. by apply (kk_keeps _ _ _ K03).
  - unfold window_tops. repeat (apply Forall_cons; split); [| | |by apply Forall_nil].
    + by rewrite (kk_top _ _ _ K14).
    + by rewrite (kk_top _ _ _ K24).
    + by rewrite (kk_top _ _ _ K4).
  - by exists mid, dir.
Qed.

(** C23: making an address space changes no translation of the kernel's and no page's
    content. The new space is well-formed; over the program image nothing is mapped in
    it, and every other address has the translation it has in the kernel's tables. *)
Theorem new_space_is_private p s root :
  tables_wf s root -> KERNEL_PML4_PHYS s = root ->
  let '(s', r) := create_process_address_space p s in
  tables_wf s' root /\ (forall w, translate s' root w = translate s root w) /\ (forall f, keeps_page root s s' f) /\
  match r with
  | Some top => image_ok s' top /\ forall w,
      (image_address w -> translate s' top w = None) /\ (~ image_address w -> translate s' top w = translate s' root w)
  | None => True
  end.
Proof.
  intros Hwf Hr. pose proof (created_space p s root Hwf Hr) as C.
  destruct (create_process_address_space p s) as [s' r], C as [[K1 K2 K3 _ _] N]. split_and!; [done..|].
  destruct r as [top|]; [|done]. destruct N as (_ & _ & mid & dir & P). split.
  - by apply (private_image_ok s' root top mid dir).
  - apply (private_translate s' root top mid dir P).
Qed.

(** The kernel's memory invariant depends on its translation and its data pages. *)
Lemma kept_memory k v :
  user_memory_ok k -> tables_wf v (root_of k) -> KERNEL_PML4_PHYS v = root_of k ->
  (forall w, translate v (root_of k) w = translate (vm k) (root_of k) w) ->
  (forall f, data_page (vm k) (root_of k) f -> data_page v (root_of k) f) -> user_memory_ok {| k with vm := v |}.
Proof.
  intros [U1 U2 U3 U4 U5 U6 U7 U8] K1 Hr K2 K3.
  assert (Ef : forall w, frame_of {| k with vm := v |} w = frame_of k w).
  { intros w. unfold frame_of, root_of. cbn [vm]. rewrite Hr. apply K2. }
  split; try done; cbn [vm].
  - unfold root_of. cbn [vm]. by rewrite Hr.
  - intros w Hw. destruct (U6 w Hw) as (f & E & D). exists f. rewrite Ef. split; [done|]. unfold root_of. cbn [vm]. rewrite Hr. by apply K3.
  - intros w x f Hw Hx. rewrite !Ef. by apply U7.
  - intros w Ha Hw. rewrite Ef. by apply U8.
Qed.

(** The new table shows the windows. *)
Lemma created_sees p k :
  user_memory_ok k -> 0 <= p < pid_limit ->
  let '(k', r) := lift_vm (create_process_address_space p) k in
  match r with Some top => user_memory_ok k' /\ sees_windows k' p top | None => True end.
Proof.
  intros Hk Hp. unfold lift_vm.
  pose proof (created_space p (vm k) (root_of k) (um_tables k Hk) eq_refl) as C.
  destruct (create_process_address_space p (vm k)) as [v [top|]]; [|done]. destruct C as [K (Nt & Pw & mid & dir & P)].
  assert (Hk' : user_memory_ok {| k with vm := v |}).
  { apply kept_memory; [done|apply K|apply K|apply K|]. intros f Hf. by apply (kk_keeps _ _ _ K f). }
  set (k' := {| k with vm := v |}) in *. assert (Er : root_of k' = root_of k) by apply (kk_root _ _ _ K).
  split; [done|]. split.
  - rewrite Er. apply (pt_top_page _ _ _ _ _ P).
  - intros w Hw E. apply Nt. destruct (um_frames k Hk w Hw) as (f & Ef & D).
    unfold frame_of in E. rewrite Er in E. cbn [vm k'] in E. rewrite (kk_translate _ _ _ K) in E. unfold frame_of in Ef. congruence.
  - intros i Hi. destruct (window_tops_high p i Hp Hi) as [Vi Ni]. rewrite Er. split.
    + rewrite Forall_forall in Pw. by apply Pw.
    + by apply (pt_top _ _ _ _ _ P).
Qed.

(** C24: the windows of a process stay visible through its own address space: whatever
    memory calls are made after the space was, an address under the top-level entries
    of the process's windows translates through the process's table exactly as through
    the kernel's. *)
Theorem windows_stay_visible p cs k :
  user_memory_ok k -> 0 <= p < pid_limit -> Forall (fun c => 0 <= call_pages c) cs ->
  let '(k', r) := lift_vm (create_process_address_space p) k in
  match r with
  | Some top => let k'' := mem_calls cs k' in
      user_memory_ok k'' /\ forall w, pml4_index w ∈ window_tops p -> translate (vm k'') top w = frame_of k'' w
  | None => True
  end.
Proof.
  intros Hk Hp Hc. pose proof (created_sees p k Hk Hp) as C.
  destruct (lift_vm (create_process_address_space p) k) as [k' [top|]]; [|done]. destruct C as [Hk' Hs].
  split; [by apply calls_keep_memory|]. intros w Hw. apply (seen_translate _ p); [by apply sees_calls|done].
Qed.

(** ** Witnesses *)

(** Tables that map page 0, so that the tables over the image window exist. *)
Definition space_vm : Vm := fst (map_page 4096 0 0x5000 rw_flags demo_vm).

Lemma space_vm_spec : tables_wf space_vm 4096 /\ forall w, in_windows w -> translate space_vm 4096 w = None.
Proof.
  unfold space_vm. pose proof (map_spec demo_vm 4096 0 0x5000 demo_vm_wf (conj eq_refl (conj eq_refl eq_refl))) as M.
  destruct (map_page 4096 0 0x5000 rw_flags demo_vm) as [s' ok]. destruct M as (Wf & _ & _ & T). split; [exact Wf|].
  intros w Hw%windows_high. cbn [fst]. rewrite T. rewrite bool_decide_false.
  - by rewrite andb_false_r.
  - rewrite (vpn_high w Hw). change (vpn 0) with 0. zlia.
Qed.

Lemma new_space_is_private_witness :
  exists top, snd (create_process_address_space 3 space_vm) = Some top /\
    image_ok (fst (create_process_address_space 3 space_vm)) top.
Proof.
  pose proof (new_space_is_private 3 space_vm 4096 (proj1 space_vm_spec) eq_refl) as H.
  assert (E : exists top, snd (create_process_address_space 3 space_vm) = Some top) by (vm_compute; eexists; reflexivity).
  destruct E as [top E]. destruct (create_process_address_space 3 space_vm) as [s' r]. cbn [fst snd] in *. subst r.
  exists top. split; [reflexivity|]. exact (proj1 (proj2 (proj2 (proj2 H)))).
Defined.

Definition space_kernel : Kernel := {| user_kernel with vm := space_vm |}.

Lemma space_kernel_memory : user_memory_ok space_kernel.
Proof.
  apply fresh_user_memory; try reflexivity.
  - apply Nat.ltb_lt. reflexivity.
  - exact user_kernel_windows.
  - apply space_vm_spec.
  - intros v Hv. apply (proj2 space_vm_spec v Hv).
Qed.

Lemma windows_stay_visible_witness :
  let k' := fst (lift_vm (create_process_address_space 3) space_kernel) in
  let k'' := mem_calls [MemMap 2 0] k' in
  exists top, snd (lift_vm (create_process_address_space 3) space_kernel) = Some top /\
    translate (vm k'') top (mmap_window 3) = frame_of k'' (mmap_window 3).
Proof.
  cbv zeta. pose proof (windows_stay_visible 3 [MemMap 2 0] space_kernel space_kernel_memory) as H.
  assert (E : exists top, snd (lift_vm (create_process_address_space 3) space_kernel) = Some top)
    by (vm_compute; eexists; reflexivity).
  destruct E as [top E]. destruct (lift_vm (create_process_address_space 3) space_kernel) as [k' r]. cbn [fst snd] in *. subst r.
  exists top. split; [reflexivity|]. apply H.
  - vm_compute. split; [discriminate|reflexivity].
  - apply Forall_cons. split; [simpl; lia|by apply Forall_nil].
  - right. left.
Defined.
