(* ===== verification/Spawn.v ===== *)
(** * Starting programs

    [prepare_process], [spawn_prepared], [abi_spawn], [abi_spawn_argv],
    [build_initial_stack_frame] and [run_program] of [src/kernel/src/main.rs].

    A panic of the kernel (a path longer than its buffer) or a page fault of the
    loader is the answer [None]. *)

From S2P Require Import Prelude Constants Text Device Console BootFs Phys Paging PagingThm.
From S2P Require Import Process Env Fd Abi Elf.

(** What a program image is to the loader: the memory behind it, its length. *)
Definition find_image (b : BootFs) (name : bytes) : option (arr * Z) :=
  match bootfs_find_entry b name with
  | None => None
  | Some e => Some (fun i => bfs_mem b (be_data_at e + i), be_data_len e)
  end.

Inductive PrepareResult : Type := Prepared | PrepareFailed (msg : option bytes) | PrepareFault.

(** Storing a word on a stack, through the tables in CR3. *)
Definition store_word (virt value : Z) : ST Vm bool := fun s =>
  match translate s (vm_cr3 s) virt with
  | None => (s, false)
  | Some frame => ({| s with vm_mem := aset (vm_mem s) (frame + virt mod PAGE_SIZE) value |}, true)
  end.

Fixpoint store_words (virt : Z) (l : list Z) : ST Vm bool :=
  match l with
  | [] => st_ret true
  | x :: rest =>
      let* ok := store_word virt x in
      if ok : bool then store_words (virt + 8) rest else st_ret false
  end.

(** Six zeroed registers and the return address. *)
Definition build_initial_stack_frame (stack_top entry_point : Z) : ST Vm (option Z) :=
  let initial_rsp := u64 (stack_top - 64) in
  let* ok := store_words initial_rsp (replicate 6 0 ++ [entry_point]) in
  st_ret (if ok : bool then Some initial_rsp else None).

Section Spawn.

(** The address of [process_trampoline]. *)
Context (process_trampoline : Z).

Definition destroy_space (pml4 : Z) (k : Kernel) : Kernel :=
  {| k with vm := destroy_process_address_space pml4 (vm k) |}.

Definition prepare_process (index : nat) (elf : arr) (len : Z) : ST Kernel PrepareResult := fun k =>
  let p := process_pid k index in
  let fail := fun msg k => (process_set_state index Failed (-1) k, PrepareFailed msg) in
  let '(k, r) := current_pml4_or_kernel k in
  match r with
  | None => fail None k
  | Some parent_pml4 =>
      let '(k, r) := lift_vm (create_process_address_space p) k in
      match r with
      | None => fail None k
      | Some child_pml4 =>
          let k := write_cr3 child_pml4 k in
          let '(k, r) := lift_vm (load_program_elf_isolated elf len child_pml4) k in
          let k := write_cr3 parent_pml4 k in
          match r with
          | LoadFault => (k, PrepareFault)
          | LoadFailed msg => fail (Some msg) (destroy_space child_pml4 k)
          | Loaded entry =>
              let '(k, r) := lift_vm (create_process_stack p) k in
              match r with
              | None => fail None (destroy_space child_pml4 k)
              | Some stack_top =>
                  let '(k, r) := lift_vm (build_initial_stack_frame stack_top process_trampoline) k in
                  match r with
                  | None => (k, PrepareFault)
                  | Some initial_rsp =>
                      let k := app_set_heap_window index p k in
                      let k := update_proc index (fun q =>
                        {| q with pml4_phys := child_pml4; entry_point := entry; rsp := initial_rsp |}) k in
                      (process_set_state index Ready 0 k, Prepared)
                  end
              end
          end
      end
  end.

Context {D : Type} `{SectorDev D}.

(** [prepare_process] with its console output. *)
Definition prepare_on (index : nat) (elf : arr) (len : Z) (c : Console)
  : ST Kernel (PrepareResult * Console) := fun k =>
  let '(k, r) := prepare_process index elf len k in
  (k, (r, match r with PrepareFailed (Some msg) => write_line msg c | _ => c end)).

(** The child starts with the parent's descriptors, directory and environment. *)
Definition inherit (parent child : nat) (k : Kernel) : Kernel :=
  let p := proc k parent in
  update_proc child (fun q => {| q with std_fds := std_fds p; cwd := cwd p; env := env p |}) k.

Definition spawn_slot (name args : bytes) (argv : option (list bytes)) : ST Kernel (option nat) := fun k =>
  match argv with
  | Some argv => process_spawn_with_argv name args argv (current_pid k) k
  | None => process_spawn name args k
  end.

Definition some_code (r : Sys D * Z) : Sys D * option Z := (fst r, Some (snd r)).

Definition spawn_prepared (name args : bytes) (argv : option (list bytes)) : ST (Sys D) (option Z) := fun s =>
  let parent := CURRENT_PROCESS_INDEX (sys_kern s) in
  if Nat.leb PROCESS_COUNT parent then some_code (set_app_error ERR_INVAL s)
  else
    match program_path name with
    | None => (s, None)
    | Some path =>
        match find_image (APP_BOOTFS s) path with
        | None => some_code (set_app_error ERR_NOENT s)
        | Some (elf, len) =>
            let '(s, slot) := on_kern (spawn_slot name args argv) s in
            match slot with
            | None => some_code (set_app_error ERR_NOSPC s)
            | Some child =>
                let s := {| s with sys_kern := inherit parent child (sys_kern s) |} in
                match APP_CONSOLE s with
                | None =>
                    let s := {| s with sys_kern := process_set_state child Failed (-1) (sys_kern s) |} in
                    some_code (set_app_error ERR_INVAL s)
                | Some c =>
                    let '(s, (r, c)) := on_kern (prepare_on child elf len c) s in
                    let s := {| s with APP_CONSOLE := Some c |} in
                    match r with
                    | PrepareFault => (s, None)
                    | PrepareFailed _ => some_code (set_app_error ERR_IO s)
                    | Prepared =>
                        let '(s, _) := clear_app_error s in
                        (s, Some (i32 (process_pid (sys_kern s) child)))
                    end
                end
            end
        end
    end.

Definition abi_spawn (name : option bytes) (args : option bytes) (args_len : Z) : ST (Sys D) (option Z) := fun s =>
  let fail := some_code (set_app_error ERR_INVAL s) in
  match checked_app_slice name with
  | None => fail
  | Some name =>
      if bytes_eq name [] || (PROCESS_NAME_MAX <? blen name) then fail
      else
        match (if args_len =? 0 then Some [] else checked_app_slice args) with
        | None => fail
        | Some args =>
            if PROCESS_ARGS_MAX <? blen args then fail else spawn_prepared name args None s
        end
  end.

(** The loop of [abi_spawn_argv]: the vector, and its words joined by blanks;
    [inl] is the error number. *)
Fixpoint gather_argv (l : list (option bytes)) (argv : list bytes) (raw : bytes)
  : Z + (list bytes * bytes) :=
  match l with
  | [] => inr (argv, raw)
  | None :: _ => inl ERR_INVAL
  | Some arg :: rest =>
      if PROCESS_ARGV_VALUE_MAX <? blen arg then inl ERR_INVAL
      else
        match checked_app_slice (Some arg) with
        | None => inl ERR_INVAL
        | Some arg =>
            let separator := if 0 <? blen raw then [ch " "] else [] in
            if PROCESS_ARGS_MAX <? blen raw + blen separator + blen arg then inl ERR_NOSPC
            else gather_argv rest (argv ++ [arg]) (raw ++ separator ++ arg)
        end
  end.

(** [argv = None] is a null vector. *)
Definition abi_spawn_argv (name : option bytes) (argv : option (list (option bytes))) (argv_len : nat)
  : ST (Sys D) (option Z) := fun s =>
  let fail := fun error => some_code (set_app_error error s) in
  match checked_app_slice name with
  | None => fail ERR_INVAL
  | Some name =>
      if bytes_eq name [] || (PROCESS_NAME_MAX <? blen name) || Nat.ltb PROCESS_ARGV_COUNT_MAX argv_len
      then fail ERR_INVAL
      else
        match argv, argv_len with
        | None, S _ => fail ERR_INVAL
        | _, _ =>
            match gather_argv (take argv_len (default [] argv)) [] [] with
            | inl error => fail error
            | inr (argv, raw) => spawn_prepared name raw (Some argv) s
            end
        end
  end.

(** ** The console command [run] *)

(** What the console shows, which is also what [APP_CONSOLE] points at once a
    program has run. *)
Definition show (c : Console) (s : Sys D) : Sys D :=
  {| s with APP_CONSOLE := match APP_CONSOLE s with Some _ => Some c | None => None end |}.

Inductive RunResult : Type := RunPanic | RunDone | RunWaits (index : nat).

(** [run_program] up to [wait_for_pid_blocking]. *)
Definition run_program_begin (bootfs : BootFs) (name args : bytes) (c : Console)
  : ST (Sys D) (Console * RunResult) := fun s =>
  let '(s, slot) := on_kern (process_spawn name args) s in
  match slot with
  | None => let c := write_line (bs "run: process table full") c in (show c s, (c, RunDone))
  | Some index =>
      match program_path name with
      | None => (s, (c, RunPanic))
      | Some path =>
          match find_image bootfs path with
          | None =>
              let c := write_line (bs "run: program not found") c in
              let s := {| s with sys_kern := process_fail_unwaited index (sys_kern s) |} in
              (show c s, (c, RunDone))
          | Some (elf, len) =>
              let c := write_bytes path (write_bytes (bs "run: ") c) in
              let c := write_bytes (bs " pid ") c in
              let c := new_line (write_bytes (write_usize (process_pid (sys_kern s) index)) c) in
              let k := update_proc index (fun q =>
                {| q with std_fds := [STDIN_FD; STDOUT_FD; STDERR_FD]; cwd := bs "/"; last_error := ERR_OK |})
                (sys_kern s) in
              let s := {| s with APP_BOOTFS := bootfs; sys_fds := app_close_all_fds (sys_fds s); sys_kern := k |} in
              let '(s, (r, c)) := on_kern (prepare_on index elf len c) s in
              match r with
              | PrepareFault => (s, (c, RunPanic))
              | PrepareFailed _ =>
                  let c := write_line (bs "run: failed to prepare process") c in
                  ({| s with APP_CONSOLE := Some c |}, (c, RunDone))
              | Prepared => ({| s with APP_CONSOLE := Some c |}, (c, RunWaits index))
              end
          end
      end
  end.

(** The rest, once the wait has answered. *)
Definition run_program_end (index : nat) (status : option RymosProcessStatus) (c : Console)
  : ST (Sys D) Console := fun s =>
  let code := match status with Some st => st_exit_code st | None => -1 end in
  let s := {| s with sys_kern := set_waited index (sys_kern s) |} in
  let c := new_line (write_bytes (write_i32 code) (write_bytes (bs "exit ") c)) in
  (show c s, c).

End Spawn.
