(* ===== verification/SpawnThm.v ===== *)
(** * What starting a program does to the process table

    The detailed [prepare_process] is the abstract end of a spawn that the
    scheduler's steps use, and a spawn either makes exactly one new ready child
    or leaves every other process alone. *)

From S2P Require Import Prelude Constants Text Device Console BootFs Phys Paging PagingThm.
From S2P Require Import Hw AtaDisk Process Sched Env Fd Abi AbiProc MemWin Elf Spawn.

(** ** The table behind memory operations *)

Record same_table (k k' : Kernel) : Prop := {
  st_table : PROCESS_TABLE k' = PROCESS_TABLE k;
  st_cur : CURRENT_PROCESS_INDEX k' = CURRENT_PROCESS_INDEX k
}.

Lemma same_refl k : same_table k k.
Proof. done. Qed.

Lemma same_trans k1 k2 k3 : same_table k1 k2 -> same_table k2 k3 -> same_table k1 k3.
Proof. intros [] []. split; congruence. Qed.

Lemma same_vm {A} (m : ST Vm A) k : same_table k (fst (lift_vm m k)).
Proof. unfold lift_vm. by destruct (m (vm k)). Qed.

Lemma same_cr3 pml4 k : same_table k (write_cr3 pml4 k).
Proof. done. Qed.

Lemma same_pml4 k : same_table k (fst (current_pml4_or_kernel k)).
Proof. unfold current_pml4_or_kernel. case_goal; [done|]. apply same_vm. Qed.

Lemma same_proc k k' i : same_table k k' -> proc k' i = proc k i.
Proof. intros [E _]. unfold proc. by rewrite E. Qed.

Lemma same_sized k k' : same_table k k' -> table_sized k -> table_sized k'.
Proof. intros [E _]. unfold table_sized. by rewrite E. Qed.

Lemma same_update i f k k' : same_table k k' -> same_table (update_proc i f k) (update_proc i f k').
Proof. intros [E1 E2]. split; simpl; [by rewrite E1|done]. Qed.

Lemma same_window i p k k' : same_table k k' -> same_table (app_set_heap_window i p k) (app_set_heap_window i p k').
Proof. intros H. unfold app_set_heap_window. case_goal; [by apply same_update|done]. Qed.

(** ** [prepare_process] is the end of an abstract spawn *)

(** The effect of [end_spawn] on the kernel. *)
Definition built_kernel (child : nat) (built : option (Z * Z * Z)) (k : Kernel) : Kernel :=
  kern (end_spawn child built (mkWorld k [])).

Lemma prepare_spec tramp index elf len k :
  let '(k', r) := prepare_process tramp index elf len k in
  match r with
  | Prepared => exists pml4 entry sp, same_table (built_kernel index (Some (pml4, entry, sp)) k) k'
  | PrepareFailed _ => same_table (built_kernel index None k) k'
  | PrepareFault => same_table k k'
  end.
Proof.
  assert (Hfail : forall k1, same_table k k1 ->
            same_table (built_kernel index None k) (process_set_state index Failed (-1) k1)).
  { intros k1 H. by apply same_update. }
  unfold prepare_process.
  pose proof (same_pml4 k) as H1. destruct (current_pml4_or_kernel k) as [k1 [parent|]]; [|by apply Hfail].
  pose proof (same_vm (create_process_address_space (process_pid k index)) k1) as H2.
  destruct (lift_vm _ k1) as [k2 [child|]]; [|apply Hfail; by eapply same_trans].
  pose proof (same_vm (load_program_elf_isolated elf len child) (write_cr3 child k2)) as H3.
  destruct (lift_vm _ (write_cr3 child k2)) as [k3 r]. simpl in H1, H2, H3.
  assert (H : same_table k (write_cr3 parent k3)) by
    (eapply same_trans; [exact H1|eapply same_trans; [exact H2|by destruct H3]]).
  assert (Hd : same_table k (destroy_space child (write_cr3 parent k3))) by (destruct H; by split).
  destruct r as [entry|msg|]; [|by apply Hfail|done].
  pose proof (same_vm (create_process_stack (process_pid k index)) (write_cr3 parent k3)) as H4.
  destruct (lift_vm _ (write_cr3 parent k3)) as [k4 [top|]]; simpl in H4;
    [|apply Hfail; destruct H, H4; by split; cbn; congruence].
  pose proof (same_vm (build_initial_stack_frame top tramp) k4) as H5.
  destruct (lift_vm _ k4) as [k5 [sp|]]; simpl in H5.
  - exists child, entry, sp. unfold built_kernel, end_spawn. cbv zeta. cbn [kern].
    apply same_update, same_update. change (kern (mkWorld k [])) with k. apply same_window.
    eapply same_trans; [exact H|]. by eapply same_trans.
  - eapply same_trans; [exact H|]. by eapply same_trans.
Qed.

(** ** The new slot *)

(** The record a spawn writes into the slot it claims. *)
Lemma spawn_record name args argv parent k :
  table_sized k ->
  let '(k', r) := process_spawn_with_argv name args argv parent k in
  CURRENT_PROCESS_INDEX k' = CURRENT_PROCESS_INDEX k /\ table_sized k' /\
  match r with
  | Some i =>
      (i < PROCESS_COUNT)%nat /\ free_slot (proc k i) /\ (forall j, j <> i -> proc k' j = proc k j) /\
      core (proc k' i) = mkCore (NEXT_PID k) parent false Loading WaitNone /\
      heap_base (proc k' i) = 0 /\ length (mappings (proc k' i)) = PROCESS_MAPPING_MAX /\
      used_mappings (proc k' i) = []
  | None => PROCESS_TABLE k' = PROCESS_TABLE k
  end.
Proof.
  intros Hs. pose proof (spawn_spec k name args argv parent Hs) as H. revert H.
  unfold process_spawn_with_argv. set (k1 := {| k with NEXT_PID := _ |}).
  destruct (match process_find_slot k1 Empty with Some _ => _ | None => _ end) as [i|]; cbv zeta.
  - intros (Hs' & _ & Hc & _ & _ & Hi & Hf & Hcore & _ & Ho). split_and!; try done.
    all: rewrite proc_update, decide_True by (done || lia); reflexivity.
  - intros (Hs' & _ & Hc & _ & _ & Ht & _). done.
Qed.

Lemma spawn_slot_record name args argv k :
  table_sized k ->
  let '(k', r) := spawn_slot name args argv k in
  CURRENT_PROCESS_INDEX k' = CURRENT_PROCESS_INDEX k /\ table_sized k' /\
  match r with
  | Some i =>
      (i < PROCESS_COUNT)%nat /\ free_slot (proc k i) /\ (forall j, j <> i -> proc k' j = proc k j) /\
      core (proc k' i) = mkCore (NEXT_PID k) (current_pid k) false Loading WaitNone /\
      heap_base (proc k' i) = 0 /\ length (mappings (proc k' i)) = PROCESS_MAPPING_MAX /\
      used_mappings (proc k' i) = []
  | None => PROCESS_TABLE k' = PROCESS_TABLE k
  end.
Proof. intros Hs. destruct argv; apply (spawn_record _ _ _ _ k Hs). Qed.

Lemma built_proc i built k j :
  table_sized k -> (i < PROCESS_COUNT)%nat ->
  proc (built_kernel i built k) j =
  if decide (j = i) then proc (built_kernel i built k) i else proc k j.
Proof.
  intros Hs Hi. case_decide as Hd; [by rewrite Hd|].
  unfold built_kernel, end_spawn, process_set_state, app_set_heap_window.
  destruct (Nat.leb_spec i PROCESS_COUNT); [|lia].
  destruct built as [[[pml4 entry] sp]|]; cbn [kern set_kont].
  - rewrite !proc_update, !decide_False by (repeat apply update_sized; done || lia). done.
  - rewrite proc_update, decide_False by (done || lia). done.
Qed.

Lemma built_ready i pml4 entry sp k :
  table_sized k -> (i < PROCESS_COUNT)%nat ->
  let p := proc k i in
  let q := proc (app_set_heap_window i (pid p) k) i in
  proc (built_kernel i (Some (pml4, entry, sp)) k) i =
  {| q with pml4_phys := pml4; entry_point := entry; rsp := sp; state := Ready; exit_code := 0 |}.
Proof.
  intros Hs Hi p q. unfold built_kernel, end_spawn, process_set_state. cbn [kern set_kont].
  assert (Hw : table_sized (app_set_heap_window i (pid p) k)).
  { unfold app_set_heap_window. case_goal; [by apply update_sized|done]. }
  rewrite !proc_update, !decide_True by (repeat apply update_sized; done || lia). done.
Qed.

Lemma built_failed i k :
  table_sized k -> (i < PROCESS_COUNT)%nat ->
  let p := proc k i in
  proc (built_kernel i None k) i = {| p with state := Failed; exit_code := -1 |}.
Proof.
  intros Hs Hi p. unfold built_kernel, end_spawn, process_set_state. cbn [kern set_kont].
  by rewrite proc_update, decide_True by (done || lia).
Qed.

Lemma built_same i built k :
  (table_sized k -> table_sized (built_kernel i built k)) /\
  CURRENT_PROCESS_INDEX (built_kernel i built k) = CURRENT_PROCESS_INDEX k.
Proof.
  unfold built_kernel, end_spawn, app_set_heap_window. destruct built as [[[pml4 entry] sp]|]; cbn [kern set_kont].
  - split; [intros Hs; apply update_sized, update_sized|]; destruct (Nat.leb i PROCESS_COUNT); try done. by apply update_sized.
  - split; [intros Hs; by apply update_sized|done].
Qed.

(** ** What a spawn does *)

Definition with_error (e : Z) (p : Process) : Process := {| p with last_error := e |}.

(** Slot [i] holds a new ready child of the process in slot [cur]. *)
Record started (k k' : Kernel) (cur i : nat) : Prop := {
  sd_slot : (i < PROCESS_COUNT)%nat /\ i <> cur /\ free_slot (proc k i);
  sd_core : core (proc k' i) = mkCore (NEXT_PID k) (pid (proc k cur)) false Ready WaitNone;
  sd_inherit : std_fds (proc k' i) = std_fds (proc k cur) /\ cwd (proc k' i) = cwd (proc k cur) /\
    env (proc k' i) = env (proc k cur);
  sd_windows : 0 <= NEXT_PID k < pid_limit -> windows_ok (proc k' i);
  sd_parent : proc k' cur = with_error ERR_OK (proc k cur);
  sd_others : forall j, j <> i -> j <> cur -> proc k' j = proc k j
}.

(** The call failed: at most one free slot holds a failed child now. *)
Definition refused (k k' : Kernel) (cur : nat) : Prop :=
  (exists e, e <> ERR_OK /\ proc k' cur = with_error e (proc k cur)) /\
  forall j, j <> cur -> proc k' j = proc k j \/
    (free_slot (proc k j) /\ state (proc k' j) = Failed /\ waited (proc k' j) = false /\
     parent_pid (proc k' j) = pid (proc k cur)).

Lemma error_kernel e k cur :
  CURRENT_PROCESS_INDEX k = cur -> table_sized k -> (cur < PROCESS_COUNT)%nat ->
  let k' := update_proc (CURRENT_PROCESS_INDEX k) (with_error e) k in
  proc k' cur = with_error e (proc k cur) /\ forall j, j <> cur -> proc k' j = proc k j.
Proof.
  intros Hc Hs Hi k'. subst k'. rewrite Hc. split.
  - by rewrite proc_update, decide_True by (done || lia).
  - intros j Hj. by rewrite proc_update, decide_False by (done || lia).
Qed.

Lemma refused_plain e k k1 cur :
  e <> ERR_OK -> CURRENT_PROCESS_INDEX k1 = cur -> table_sized k1 -> (cur < PROCESS_COUNT)%nat ->
  (forall j, proc k1 j = proc k j) ->
  refused k (update_proc (CURRENT_PROCESS_INDEX k1) (with_error e) k1) cur.
Proof.
  intros He Hc Hs Hi E. destruct (error_kernel e k1 cur Hc Hs Hi) as [H1 H2]. split.
  - exists e. by rewrite H1, E.
  - intros j Hj. left. by rewrite H2, E.
Qed.

(** A child was claimed in slot [i] and has failed. *)
Lemma refused_child e k k1 cur i :
  e <> ERR_OK -> CURRENT_PROCESS_INDEX k1 = cur -> table_sized k1 -> (cur < PROCESS_COUNT)%nat ->
  i <> cur -> free_slot (proc k i) -> (forall j, j <> i -> proc k1 j = proc k j) ->
  state (proc k1 i) = Failed -> waited (proc k1 i) = false -> parent_pid (proc k1 i) = pid (proc k cur) ->
  refused k (update_proc (CURRENT_PROCESS_INDEX k1) (with_error e) k1) cur.
Proof.
  intros He Hc Hs Hi Hne Hf E S1 S2 S3. destruct (error_kernel e k1 cur Hc Hs Hi) as [H1 H2]. split.
  - exists e. by rewrite H1, E by auto.
  - intros j Hj. rewrite H2 by done. destruct (decide (j = i)) as [->|]; [by right|left; auto].
Qed.

Lemma window_child i k :
  table_sized k -> (i < PROCESS_COUNT)%nat -> heap_base (proc k i) = 0 ->
  length (mappings (proc k i)) = PROCESS_MAPPING_MAX -> used_mappings (proc k i) = [] ->
  let q := proc (app_set_heap_window i (pid (proc k i)) k) i in
  (0 <= pid (proc k i) < pid_limit -> windows_ok q) /\
  core q = core (proc k i) /\ std_fds q = std_fds (proc k i) /\ cwd q = cwd (proc k i) /\
  env q = env (proc k i).
Proof.
  intros Hs Hi Hb Hl Hu q. split; [intros Hp; by apply set_window_ok|].
  subst q. unfold app_set_heap_window. destruct (Nat.leb_spec i PROCESS_COUNT); [|lia].
  rewrite proc_update, decide_True by (done || lia). by rewrite Hb.
Qed.

(** The claimed child, before it is prepared: [k2] is the table then. *)
Record claimed (k k2 : Kernel) (cur i : nat) : Prop := {
  cl_sized : table_sized k2;
  cl_cur : CURRENT_PROCESS_INDEX k2 = cur;
  cl_slot : (cur < PROCESS_COUNT)%nat /\ (i < PROCESS_COUNT)%nat /\ i <> cur /\ free_slot (proc k i);
  cl_core : core (proc k2 i) = mkCore (NEXT_PID k) (pid (proc k cur)) false Loading WaitNone;
  cl_fresh : heap_base (proc k2 i) = 0 /\ length (mappings (proc k2 i)) = PROCESS_MAPPING_MAX /\
    used_mappings (proc k2 i) = [];
  cl_inherit : std_fds (proc k2 i) = std_fds (proc k cur) /\ cwd (proc k2 i) = cwd (proc k cur) /\
    env (proc k2 i) = env (proc k cur);
  cl_others : forall j, j <> i -> proc k2 j = proc k j
}.

Lemma inherit_claimed name args argv k k1 cur i :
  table_sized k -> CURRENT_PROCESS_INDEX k = cur -> (cur < PROCESS_COUNT)%nat ->
  state (proc k cur) = Running -> spawn_slot name args argv k = (k1, Some i) ->
  claimed k (inherit cur i k1) cur i.
Proof.
  intros Hs Hk Hcur Hrun E. pose proof (spawn_slot_record name args argv k Hs) as H. rewrite E in H.
  destruct H as (Hc1 & Hs1 & Hi & Hfree & Hoth & Hcore & Hb & Hl & Hu).
  assert (Hne : i <> cur). { intros ->. destruct Hfree as [F|[_ [F|F]]]; congruence. }
  assert (Hcur1 : proc k1 cur = proc k cur) by (apply Hoth; congruence).
  assert (H2i : proc (inherit cur i k1) i = let p := proc k cur in let q := proc k1 i in
            {| q with std_fds := std_fds p; cwd := cwd p; env := env p |}).
  { unfold inherit. rewrite proc_update, decide_True by (done || lia). by rewrite Hcur1. }
  split.
  - by apply update_sized.
  - unfold inherit. simpl. congruence.
  - done.
  - rewrite H2i. unfold current_pid, process_pid in Hcore. rewrite Hk in Hcore. exact Hcore.
  - by rewrite H2i.
  - by rewrite H2i.
  - intros j Hj. unfold inherit. rewrite proc_update, decide_False by (done || lia). auto.
Qed.

Lemma claimed_failed e k k2 k3 cur i :
  claimed k k2 cur i -> e <> ERR_OK -> same_table (built_kernel i None k2) k3 ->
  refused k (update_proc (CURRENT_PROCESS_INDEX k3) (with_error e) k3) cur.
Proof.
  intros [Hs Hc (Hcur & Hi & Hne & Hf) Hcore _ _ Ho] He HP.
  assert (Hs3 : table_sized k3) by (eapply same_sized; [exact HP|by apply update_sized]).
  assert (Hp : forall j, proc k3 j = proc (built_kernel i None k2) j) by (intros j; by apply same_proc).
  apply (refused_child e k k3 cur i); try done.
  - by rewrite (st_cur _ _ HP).
  - intros j Hj. rewrite Hp, built_proc, decide_False by done. auto.
  - by rewrite Hp, built_failed.
  - rewrite Hp, built_failed by done. exact (f_equal c_waited Hcore).
  - rewrite Hp, built_failed by done. exact (f_equal c_parent Hcore).
Qed.

Lemma claimed_ready k k2 k3 cur i pml4 entry sp :
  claimed k k2 cur i -> same_table (built_kernel i (Some (pml4, entry, sp)) k2) k3 ->
  started k (update_proc (CURRENT_PROCESS_INDEX k3) (with_error ERR_OK) k3) cur i.
Proof.
  intros [Hs Hc (Hcur & Hi & Hne & Hf) Hcore (Hb & Hl & Hu) Hin Ho] HP.
  assert (Hp : forall j, proc k3 j = proc (built_kernel i (Some (pml4, entry, sp)) k2) j)
    by (intros j; by apply same_proc).
  assert (Hs3 : table_sized k3).
  { eapply same_sized; [exact HP|]. apply update_sized, update_sized. unfold app_set_heap_window.
    case_goal; [by apply update_sized|done]. }
  assert (Hc3 : CURRENT_PROCESS_INDEX k3 = cur).
  { rewrite (st_cur _ _ HP), <- Hc. unfold built_kernel, end_spawn, app_set_heap_window.
    by destruct (Nat.leb i PROCESS_COUNT). }
  destruct (error_kernel ERR_OK k3 cur Hc3 Hs3 Hcur) as [E1 E2].
  assert (Ei : proc (update_proc (CURRENT_PROCESS_INDEX k3) (with_error ERR_OK) k3) i =
               proc (built_kernel i (Some (pml4, entry, sp)) k2) i) by (rewrite E2 by done; apply Hp).
  destruct (window_child i k2 Hs Hi Hb Hl Hu) as (W & Wc & W1 & W2 & W3).
  rewrite built_ready in Ei by done. split.
  - done.
  - rewrite Ei. rewrite Hcore in Wc. unfold core in *. simpl. injection Wc as -> -> -> _ ->. done.
  - rewrite Ei. simpl. by rewrite W1, W2, W3.
  - intros Hn. rewrite Ei. assert (Hpid : pid (proc k2 i) = NEXT_PID k) by exact (f_equal c_pid Hcore).
    destruct W as []; [by rewrite Hpid|]. by split.
  - rewrite E1, Hp, built_proc, decide_False, Ho by (done || auto). done.
  - intros j Hj Hjc. rewrite E2, Hp, built_proc, decide_False by done. auto.
Qed.

Section SpawnSpec.

Context {D : Type} `{SectorDev D} (tramp : Z).

Lemma spawn_outcome name args argv (s : Sys D) :
  let k := sys_kern s in
  let cur := CURRENT_PROCESS_INDEX k in
  table_sized k -> (cur < PROCESS_COUNT)%nat -> state (proc k cur) = Running ->
  match spawn_prepared tramp name args argv s with
  | (s', Some r) =>
      (r = -1 /\ refused k (sys_kern s') cur) \/
      (r = i32 (NEXT_PID k) /\ exists i, started k (sys_kern s') cur i)
  | (_, None) => True
  end.
Proof.
  intros k cur Hs Hcur Hrun. unfold spawn_prepared. fold k cur.
  destruct (Nat.leb_spec PROCESS_COUNT cur); [lia|].
  destruct (program_path name) as [path|]; [|done].
  destruct (find_image (APP_BOOTFS s) path) as [[elf len]|];
    [|left; split; [done|]; apply (refused_plain ERR_NOENT k k); done].
  unfold on_kern at 1. fold k. destruct (spawn_slot name args argv k) as [k1 [i|]] eqn:E; cbv zeta.
  2:{ pose proof (spawn_slot_record name args argv k Hs) as HS. rewrite E in HS.
      destruct HS as (Hc1 & Hs1 & HS). left. split; [done|].
      apply (refused_plain ERR_NOSPC k k1); [done|done|done|done|].
      intros j. unfold proc. by rewrite HS. }
  pose proof (inherit_claimed _ _ _ k k1 cur i Hs eq_refl Hcur Hrun E) as Hcl.
  cbn [sys_kern APP_CONSOLE]. set (k2 := inherit cur i k1) in *.
  destruct (APP_CONSOLE s) as [c|].
  2:{ left. split; [done|]. apply (claimed_failed ERR_INVAL k k2 (built_kernel i None k2) cur i); done. }
  unfold on_kern, prepare_on. cbn [sys_kern].
  pose proof (prepare_spec tramp i elf len k2) as HP.
  destruct (prepare_process tramp i elf len k2) as [k3 r].
  destruct r as [|msg|]; [| |done].
  - destruct HP as (pml4 & entry & sp & HP). right. cbn [sys_kern clear_app_error update_cur].
    pose proof (claimed_ready k k2 k3 cur i pml4 entry sp Hcl HP) as Hst. split; [|by exists i].
    f_equal. exact (f_equal c_pid (sd_core _ _ _ _ Hst)).
  - left. split; [done|]. apply (claimed_failed ERR_IO k k2 k3 cur i); done.
Qed.

(** Starting a program leaves the descriptor tables and the running slot. *)
Lemma spawn_frame name args argv (s : Sys D) :
  table_sized (sys_kern s) ->
  match spawn_prepared tramp name args argv s with
  | (s', Some _) => sys_fds s' = sys_fds s /\ table_sized (sys_kern s') /\
      CURRENT_PROCESS_INDEX (sys_kern s') = CURRENT_PROCESS_INDEX (sys_kern s)
  | (_, None) => True
  end.
Proof.
  intros Hs. unfold spawn_prepared. destruct (Nat.leb _ _); [by split_and!; [|apply update_sized|]|].
  destruct (program_path name) as [path|]; [|done].
  destruct (find_image (APP_BOOTFS s) path) as [[elf len]|]; [|by split_and!; [|apply update_sized|]].
  unfold on_kern at 1. pose proof (spawn_slot_record name args argv _ Hs) as HS.
  destruct (spawn_slot name args argv (sys_kern s)) as [k1 [i|]]; destruct HS as (Hc1 & Hs1 & HS); cbv zeta.
  2:{ cbn. split_and!; [done|by apply update_sized|done]. }
  cbn [sys_kern APP_CONSOLE]. set (k2 := inherit _ i k1).
  assert (H2 : table_sized k2 /\ CURRENT_PROCESS_INDEX k2 = CURRENT_PROCESS_INDEX (sys_kern s)) by (split; [by apply update_sized|done]).
  destruct (APP_CONSOLE s) as [c|]; [|cbn; split_and!; [done|by repeat apply update_sized|apply H2]].
  unfold on_kern, prepare_on. cbn [sys_kern]. pose proof (prepare_spec tramp i elf len k2) as HP.
  destruct (prepare_process tramp i elf len k2) as [k3 r].
  assert (H3 : r <> PrepareFault -> table_sized k3 /\ CURRENT_PROCESS_INDEX k3 = CURRENT_PROCESS_INDEX (sys_kern s)).
  { intros Hr. destruct H2 as [S2 C2]. destruct r as [|msg|]; [| |done].
    - destruct HP as (pml4 & entry & sp & HP). destruct (built_same i (Some (pml4, entry, sp)) k2) as [B1 B2].
      split; [eapply same_sized; [exact HP|by apply B1]|]. by rewrite (st_cur _ _ HP), B2.
    - destruct (built_same i None k2) as [B1 B2].
      split; [eapply same_sized; [exact HP|by apply B1]|]. by rewrite (st_cur _ _ HP), B2. }
  destruct r as [|msg|]; [| |done]; (destruct H3 as [S3 C3]; [done|]; cbn; split_and!; [done|by apply update_sized|done]).
Qed.

(** C35: A program is started completely or not at all. When [spawn_prepared]
    answers a pid, it is the next pid, a slot that was free holds a ready child
    of the caller with the caller's descriptors, directory and environment and
    with memory windows of its own, and no other process changed but for the
    caller's error number. When it answers -1 the caller's error number says
    why, and every other process is as it was, except that one free slot may now
    hold a failed child. A kernel panic or a fault of the loader is outside the
    statement. *)
Theorem spawn_starts_one_child name args argv (s : Sys D) :
  let k := sys_kern s in
  let cur := CURRENT_PROCESS_INDEX k in
  table_sized k -> (cur < PROCESS_COUNT)%nat -> state (proc k cur) = Running ->
  match spawn_prepared tramp name args argv s with
  | (s', Some r) =>
      (r = -1 /\ refused k (sys_kern s') cur) \/
      (r = i32 (NEXT_PID k) /\ exists i, started k (sys_kern s') cur i)
  | (_, None) => True
  end.
Proof. intros k cur. apply spawn_outcome. Qed.

End SpawnSpec.

(** ** A system that starts a program *)

(** A boot image whose only file is the one-segment program. *)
Definition tiny_image : BootFs :=
  let a := blit zeroed 0 (BOOTFS_MAGIC ++ [1; 0; 42; 0]) in
  let a := blit a 12 ([1; 14] ++ to_le_bytes 4 64 ++ to_le_bytes 4 123 ++ bs "programs/t.elf") in
  BootFs_new 4096 187 (blit a 64 (slice tiny_elf 0 123)).

(** Process 1 runs in slot 0; the tables cover low memory as the firmware left
    them. *)
Definition tiny_system : Sys Ata :=
  let mem := blit zeroed 0 [] in
  let mem := aset (aset mem 0x1000 (table_entry 0x2000)) 0x2000 (table_entry 0x3000) in
  let v := mkVm (add_range 0x10000 0x90000 phys_empty) mem 0x1000 0x1000 in
  let k := update_proc 0 (fun p => {| p with pid := 1; state := Running; cwd := bs "pfs:" |}) (Kernel_new v) in
  let k := app_set_heap_window 0 1 k in
  let k := {| k with CURRENT_PROCESS_INDEX := 0%nat; NEXT_PID := 2 |} in
  mkSys k fds_empty tiny_image (Some without_framebuffer) [] ata_blank.

Lemma spawn_starts_one_child_witness :
  exists s' i, spawn_prepared 0x4000 (bs "t") [] None tiny_system = (s', Some 2) /\
    started (sys_kern tiny_system) (sys_kern s') 0 i.
Proof.
  assert (E : snd (spawn_prepared 0x4000 (bs "t") [] None tiny_system) = Some 2) by (vm_compute; reflexivity).
  pose proof (spawn_starts_one_child 0x4000 (bs "t") [] None tiny_system eq_refl
    (proj1 (Nat.ltb_lt 0 PROCESS_COUNT) eq_refl) eq_refl) as H.
  destruct (spawn_prepared 0x4000 (bs "t") [] None tiny_system) as [s' r]. simpl in E. subst r.
  destruct H as [[H _]|[_ [i H]]]; [discriminate H|]. exists s', i. split; [reflexivity|exact H].
Defined.

(** A bare program name of more than 19 bytes does not fit the path buffer, so
    asking for one stops the kernel. *)
Lemma long_program_name_panics {D} `{SectorDev D} tramp name args argv (s : Sys D) :
  (CURRENT_PROCESS_INDEX (sys_kern s) < PROCESS_COUNT)%nat ->
  contains name (ch "/") = false -> ends_with name (bs ".elf") = false ->
  19 < blen name -> spawn_prepared tramp name args argv s = (s, None).
Proof.
  intros Hi Hc He Hl. unfold spawn_prepared. destruct (Nat.leb_spec PROCESS_COUNT (CURRENT_PROCESS_INDEX (sys_kern s))); [lia|].
  unfold program_path. rewrite Hc, He, !blen_app.
  change (blen (bs "programs/")) with 9. change (blen (bs ".elf")) with 4.
  destruct (Z.ltb_spec 32 (9 + blen name + 4)); [done|lia].
Qed.
