(* ===== verification/UserAbi.v ===== *)
(** * The function table a program is handed

    [RymosAbi] of [src/runtime/rymos-user/src/lib.rs] as a class: the runtime is
    written against it, KernelAbi.v builds the instance that the kernel passes to
    [_start]. The instance is resolved where the code goes through [with_abi]; a
    program only runs after [_start] has stored the table.

    A slice argument (a pointer with its length) is the list of its bytes. A call
    that fills a buffer of [n] bytes takes [n] and answers with its return value
    and the bytes it stores from the buffer's start. *)

From S2P Require Import Prelude.

(** ** Computations that may not answer *)

(** No answer: the kernel has halted, or the call still waits. *)
Definition Call (S A : Type) : Type := ST S (option A).

Definition call_ret {S A} (a : A) : Call S A := st_ret (Some a).

Definition call_bind {S A B} (m : Call S A) (k : A -> Call S B) : Call S B := fun s =>
  match m s with
  | (s, Some a) => k a s
  | (s, None) => (s, None)
  end.

Notation "'let&' x := m 'in' k" := (call_bind m (fun x => k))
  (at level 10, x name, m at level 100, k at level 200) : rymos_scope.

Notation "'do&' m 'in' k" := (call_bind m (fun _ => k))
  (at level 10, m at level 100, k at level 200) : rymos_scope.

(** The answer [a] in state [s']. *)
Definition answers {S A} (m : Call S A) (s : S) (a : A) (s' : S) : Prop := m s = (s', Some a).

(** ** Constants *)

Module Consts.

Definition PAGE_SIZE : Z := 4096.
Definition MIN_HEAP_CHUNK : Z := 64 * 1024.
Definition COMMAND_ARGS_MAX : Z := 64.
Definition OPEN_READ : Z := 1.
Definition OPEN_WRITE : Z := 2.
Definition OPEN_CREATE : Z := 4.
Definition OPEN_TRUNCATE : Z := 8.
Definition OPEN_APPEND : Z := 16.
Definition OPEN_CREATE_NEW : Z := 32.
Definition MEM_MAP_GUARD : Z := 1.
Definition STDIN : Z := 0.
Definition STDOUT : Z := 1.
Definition STDERR : Z := 2.
Definition STAT_KIND_FILE : Z := 1.
Definition STAT_KIND_DIR : Z := 2.
Definition STAT_FS_BOOTFS : Z := 1.
Definition STAT_FS_PFS : Z := 2.
Definition PROCESS_EMPTY : Z := 0.
Definition PROCESS_READY : Z := 1.
Definition PROCESS_RUNNING : Z := 2.
Definition PROCESS_EXITED : Z := 3.
Definition PROCESS_FAILED : Z := 4.
Definition ERR_OK : Z := 0.
Definition ERR_NOENT : Z := 2.
Definition ERR_IO : Z := 5.
Definition ERR_EXIST : Z := 17.
Definition ERR_NOTDIR : Z := 20.
Definition ERR_ISDIR : Z := 21.
Definition ERR_INVAL : Z := 22.
Definition ERR_NOSPC : Z := 28.
Definition MODE_READ : Z := 1.
Definition MODE_WRITE : Z := 2.
Definition MODE_EXEC : Z := 4.

End Consts.

(** ** Shared records *)

Record Stat : Type := mkUserStat {
  s_kind : Z; s_fs : Z; s_size : Z; s_created_ticks : Z; s_modified_ticks : Z; s_mode : Z
}.

Record ProcessStatus : Type := mkStatus { ps_state : Z; exit_code : Z }.

Definition stat_zero : Stat := mkUserStat 0 0 0 0 0 0.

Definition stat_is_dir (st : Stat) : bool := s_kind st =? Consts.STAT_KIND_DIR.
Definition stat_is_file (st : Stat) : bool := s_kind st =? Consts.STAT_KIND_FILE.
Definition stat_len (st : Stat) : Z := s_size st.
Definition readonly (st : Stat) : bool := Z.land (s_mode st) Consts.MODE_WRITE =? 0.

(** ** The table *)

Class RymosAbi (S : Type) : Type := {
  version : Z;
  call_write : bytes -> Call S unit;
  call_pid : Call S Z;
  call_args : Z -> Call S (Z * bytes);
  call_read_line : Z -> Call S (Z * bytes);
  call_file_size : bytes -> Call S Z;
  call_file_read : bytes -> Z -> Call S (Z * bytes);
  call_open : bytes -> Z -> Call S Z;
  call_read : Z -> Z -> Call S (Z * bytes);
  call_write_fd : Z -> bytes -> Call S Z;
  call_seek : Z -> Z -> Call S Z;
  call_close : Z -> Call S Z;
  call_stat : bytes -> Call S (Z * option Stat);
  call_list : bytes -> nat -> Z -> Call S (Z * option (bytes * Stat));
  call_mkdir : bytes -> Call S Z;
  call_env_get : bytes -> Z -> Call S (Z * bytes);
  call_env_list : nat -> Z -> Z -> Call S (Z * (bytes * bytes));
  call_env_set : bytes -> bytes -> Call S Z;
  call_env_remove : bytes -> Call S Z;
  call_spawn : bytes -> bytes -> Call S Z;
  call_spawn_argv : bytes -> list bytes -> Call S Z;
  call_wait : Z -> Call S (Z * option ProcessStatus);
  call_wait_any : Call S (Z * option ProcessStatus);
  call_mem_alloc_pages : Z -> Call S Z;
  call_mem_map_pages : Z -> Z -> Call S Z;
  call_mem_unmap_pages : Z -> Z -> Call S Z;
  call_time_ticks : Call S Z;
  call_unlink : bytes -> Call S Z;
  call_rename : bytes -> bytes -> Call S Z;
  call_cwd : Z -> Call S (Z * bytes);
  call_chdir : bytes -> Call S Z;
  call_last_error : Call S Z;
  call_pipe : Call S (Z * option (Z * Z));
  call_dup2 : Z -> Z -> Call S Z;
  call_argv_count : Call S Z;
  call_argv_get : Z -> Z -> Call S (Z * bytes);
  call_time_unix_nanos : Call S Z;
  call_sleep_nanos : Z -> Call S unit;
  call_term_size : Call S (Z * option (Z * Z));
  call_std_fd : Z -> Call S Z
}.

(** ** Lemmas on calls *)

Lemma answers_bind {S A B} (m : Call S A) (k : A -> Call S B) s b s' :
  answers (call_bind m k) s b s' <-> exists a s1, answers m s a s1 /\ answers (k a) s1 b s'.
Proof.
  unfold answers, call_bind. destruct (m s) as [s1 [a|]]; split.
  - intros H. by exists a, s1.
  - intros (a' & s1' & [= -> ->] & H). done.
  - intros [=].
  - intros (a' & s1' & [=] & _).
Qed.

Lemma answers_ret {S A} (a b : A) (s s' : S) : answers (call_ret a) s b s' <-> b = a /\ s' = s.
Proof. unfold answers, call_ret, st_ret. split; [by intros [= -> ->]|by intros [-> ->]]. Qed.

Lemma answers_fun {S A} (m : Call S A) s a1 s1 a2 s2 :
  answers m s a1 s1 -> answers m s a2 s2 -> a1 = a2 /\ s1 = s2.
Proof. unfold answers. intros -> [= -> ->]. done. Qed.
