(* ===== verification/Interrupt.v ===== *)
(** * The serial line, the interrupt controller and CPU exceptions

    [serial_*], [read_input_byte], [remap_pic], [init_pit_timer], [set_idt_gate],
    [init_idt], [vector_info], [fault_print*], [report_fault] and [isr_common_entry] of
    [src/kernel/src/main.rs]. The assembly stubs are modelled by what they push before
    they call [isr_common_entry]; their addresses are the linker's. *)

From S2P Require Import Prelude Constants Text StrText Hw Console UserAbi Process.
From S2P Require Import Paging Phys.

(** ** The serial line and the keyboard *)

Definition COM1 : Z := 0x3F8.
Definition KEYBOARD_DATA : Z := 0x60.
Definition KEYBOARD_STATUS : Z := 0x64.
Definition PIC_EOI : Z := 0x20.

Section Serial.

Context {M : Type} `{Ports M} (polls : positive).

Definition serial_init : ST M unit :=
  do! outb (COM1 + 1) 0x00 in
  do! outb (COM1 + 3) 0x80 in
  do! outb COM1 0x03 in
  do! outb (COM1 + 1) 0x00 in
  do! outb (COM1 + 3) 0x03 in
  do! outb (COM1 + 2) 0xC7 in
  outb (COM1 + 4) 0x0B.

Definition serial_received : ST M bool :=
  let* s := inb (COM1 + 5) in st_ret (negb (Z.land s 1 =? 0)).

Definition serial_can_send : ST M bool :=
  let* s := inb (COM1 + 5) in st_ret (negb (Z.land s 0x20 =? 0)).

(** The wait for the transmitter, for at most [polls] polls: no answer if it is still
    busy then. *)
Definition serial_write_byte (byte : Z) : Call M unit :=
  let* ready := st_loop polls (fun _ : unit =>
    let* can := serial_can_send in st_ret (if can : bool then inr true else inl tt)) false tt in
  if ready : bool then do! outb COM1 byte in call_ret tt else st_ret None.

Definition keyboard_has_data : ST M bool :=
  let* s := inb KEYBOARD_STATUS in st_ret (negb (Z.land s 1 =? 0)).

Definition read_input_byte : ST M (option Z) :=
  let* received := serial_received in
  if received : bool then let* b := inb COM1 in st_ret (Some b)
  else
    let* has := keyboard_has_data in
    if has : bool then let* code := inb KEYBOARD_DATA in st_ret (scancode_to_ascii code)
    else st_ret None.

(** ** The interrupt controller and the timer *)

Definition io_wait : ST M unit := outb 0x80 0.

Definition remap_pic : ST M unit :=
  do! outb PIC1_COMMAND 0x11 in
  do! io_wait in
  do! outb PIC2_COMMAND 0x11 in
  do! io_wait in
  do! outb PIC1_DATA 0x20 in
  do! io_wait in
  do! outb PIC2_DATA 0x28 in
  do! io_wait in
  do! outb PIC1_DATA 0x04 in
  do! io_wait in
  do! outb PIC2_DATA 0x02 in
  do! io_wait in
  do! outb PIC1_DATA 0x01 in
  do! io_wait in
  do! outb PIC2_DATA 0x01 in
  do! io_wait in
  do! outb PIC1_DATA 0xFE in
  outb PIC2_DATA 0xFF.

Definition init_pit_timer (hz : Z) : ST M unit :=
  let divisor := u16 (PIT_INPUT_HZ / hz) in
  do! outb PIT_COMMAND 0x36 in
  do! outb PIT_CHANNEL0_DATA (u8 (Z.land divisor 0xFF)) in
  outb PIT_CHANNEL0_DATA (u8 (Z.shiftr divisor 8)).

End Serial.

(** ** The interrupt descriptor table *)

Definition IDT_LEN : nat := 48.
Definition IDT_GATE_PRESENT_INTERRUPT : Z := 0x8E.

Record IdtEntry : Type := mkIdtEntry {
  offset_low : Z; selector : Z; ist : Z; type_attr : Z; offset_mid : Z; offset_high : Z; idt_reserved : Z
}.

Definition IdtEntry_missing : IdtEntry := mkIdtEntry 0 0 0 0 0 0 0.

Definition set_idt_gate (vector : nat) (handler selector : Z) (idt : list IdtEntry) : list IdtEntry :=
  <[vector := mkIdtEntry (u16 handler) selector 0 IDT_GATE_PRESENT_INTERRUPT
                (u16 (Z.shiftr handler 16)) (u32 (Z.shiftr handler 32)) 0]> idt.

(** The stubs: [isr_stub_noerr!], [isr_stub_err!], and those of the interrupt lines. *)
Inductive Stub : Type :=
| isr_stub_noerr (vector : nat)
| isr_stub_err (vector : nat)
| irq0_stub
| irq_spurious_master_stub
| irq_spurious_slave_stub.

#[export] Instance Stub_eq_dec : EqDecision Stub.
Proof. solve_decision. Defined.

(** The gates of [init_idt], in order. *)
Definition gates : list (nat * Stub) := [
  (0, isr_stub_noerr 0); (1, isr_stub_noerr 1); (2, isr_stub_noerr 2); (3, isr_stub_noerr 3);
  (4, isr_stub_noerr 4); (5, isr_stub_noerr 5); (6, isr_stub_noerr 6); (7, isr_stub_noerr 7);
  (8, isr_stub_err 8); (10, isr_stub_err 10); (11, isr_stub_err 11); (12, isr_stub_err 12);
  (13, isr_stub_err 13); (14, isr_stub_err 14); (16, isr_stub_noerr 16); (17, isr_stub_err 17);
  (18, isr_stub_noerr 18); (19, isr_stub_noerr 19); (20, isr_stub_noerr 20); (21, isr_stub_err 21);
  (32, irq0_stub)]%nat
  ++ map (fun v => (v, irq_spurious_master_stub)) (seq 33 7)
  ++ map (fun v => (v, irq_spurious_slave_stub)) (seq 40 8).

(** [address] is where the linker put a stub, [cs] the selector in use. *)
Definition init_idt (address : Stub -> Z) (cs : Z) : list IdtEntry :=
  fold_left (fun idt g => set_idt_gate (fst g) (address (snd g)) cs idt) gates
    (repeat IdtEntry_missing IDT_LEN).

(** ** CPU exceptions *)

Record InterruptStackFrame : Type := mkFrame {
  instruction_pointer : Z; code_segment : Z; cpu_flags : Z; stack_pointer : Z; stack_segment : Z
}.

Record RawExceptionFrame : Type := mkRaw { raw_vector : Z; raw_error_code : Z; raw_frame : InterruptStackFrame }.

Definition vector_info (vector : Z) : string * bool :=
  match vector with
  | 0 => ("divide error", false)
  | 1 => ("debug", false)
  | 2 => ("non-maskable interrupt", false)
  | 3 => ("breakpoint", false)
  | 4 => ("overflow", false)
  | 5 => ("bound range exceeded", false)
  | 6 => ("invalid opcode", false)
  | 7 => ("device not available", false)
  | 8 => ("double fault", true)
  | 10 => ("invalid TSS", true)
  | 11 => ("segment not present", true)
  | 12 => ("stack fault", true)
  | 13 => ("general protection fault", true)
  | 14 => ("page fault", true)
  | 16 => ("x87 floating point", false)
  | 17 => ("alignment check", true)
  | 18 => ("machine check", false)
  | 19 => ("SIMD floating point", false)
  | 20 => ("virtualization", false)
  | 21 => ("control protection", true)
  | _ => ("unknown", false)
  end%string.

(** What a stub pushes on the CPU's frame; the interrupt lines do not report. *)
Definition stub_pushes (s : Stub) (stack : list Z) : option (list Z) :=
  match s with
  | isr_stub_noerr v => Some (Z.of_nat v :: 0 :: stack)
  | isr_stub_err v => Some (Z.of_nat v :: stack)
  | _ => None
  end.

(** The structure the stub's stack pointer points to. *)
Definition raw_at (stack : list Z) : option RawExceptionFrame :=
  match stack with
  | v :: e :: ip :: cs :: fl :: sp :: ss :: _ => Some (mkRaw v e (mkFrame ip cs fl sp ss))
  | _ => None
  end.

(** ** The report *)

Section Report.

Context {M : Type} `{Ports M} (polls : positive).

Fixpoint fault_print (text : bytes) : Call M unit :=
  match text with
  | [] => call_ret tt
  | byte :: rest => do& serial_write_byte polls byte in fault_print rest
  end.

Definition fault_say (text : string) : Call M unit := fault_print (bs text).

(** The loop of [fault_print_hex]; [n] nibbles are left, the next one is [n - 1]. *)
Fixpoint fault_hex_from (n : nat) (value : Z) (started : bool) : Call M unit :=
  match n with
  | O => call_ret tt
  | S shift =>
      let nibble := u8 (Z.land (Z.shiftr value (Z.of_nat shift * 4)) 0xF) in
      if negb (nibble =? 0) || started || Nat.eqb shift 0 then
        let digit := if nibble <? 10 then ch "0" + nibble else ch "a" + (nibble - 10) in
        do& serial_write_byte polls digit in
        fault_hex_from shift value true
      else fault_hex_from shift value started
  end.

Definition fault_print_hex (value : Z) : Call M unit :=
  do& fault_say "0x" in fault_hex_from 16 value false.

Definition newline : Call M unit := fault_print [13; 10].

(** [cr2] is the register; the answer is reaching the [hlt] loop. *)
Definition report_fault (k : Kernel) (cr2 vector : Z) (mnemonic : string) (frame : InterruptStackFrame)
    (error_code : option Z) : Call M unit :=
  do& newline in
  do& fault_say "!! CPU EXCEPTION vector=" in
  do& fault_print_hex vector in
  do& fault_say " (" in
  do& fault_say mnemonic in
  do& fault_say ")" in
  do& newline in
  do& (match error_code with
       | Some code =>
           do& fault_say "   error_code=" in do& fault_print_hex code in newline
       | None => call_ret tt
       end) in
  do& (if vector =? 14 then
         do& fault_say "   cr2 (fault address)=" in do& fault_print_hex cr2 in newline
       else call_ret tt) in
  do& fault_say "   rip=" in
  do& fault_print_hex (instruction_pointer frame) in
  do& fault_say " cs=" in
  do& fault_print_hex (code_segment frame) in
  do& fault_say " rflags=" in
  do& fault_print_hex (cpu_flags frame) in
  do& newline in
  do& fault_say "   rsp=" in
  do& fault_print_hex (stack_pointer frame) in
  do& fault_say " ss=" in
  do& fault_print_hex (stack_segment frame) in
  do& newline in
  do& (let index := CURRENT_PROCESS_INDEX k in
       if Nat.ltb index PROCESS_COUNT then
         let process := proc k index in
         do& fault_say "   pid=" in
         do& fault_print_hex (pid process) in
         do& fault_say " name=" in
         do& fault_print (default (bs "?") (from_utf8 (p_name process))) in
         newline
       else do& fault_say "   (fault outside any process context)" in newline) in
  do& fault_say "!! halting" in
  newline.

Definition isr_common_entry (k : Kernel) (cr2 : Z) (raw : RawExceptionFrame) : Call M unit :=
  let vector := u8 (raw_vector raw) in
  let '(mnemonic, has_error_code) := vector_info vector in
  let error_code := if has_error_code : bool then Some (raw_error_code raw) else None in
  report_fault k cr2 vector mnemonic (raw_frame raw) error_code.

End Report.

(** ** CPU exceptions reach their report

    The descriptor table sends every exception to a stub whose frame is the one the CPU
    pushed, and the report of it goes out on the serial line in full. *)

(** ** The CPU *)

(** What the CPU makes of a gate: the handler's address, and whether it is present. *)
Definition gate_handler (e : IdtEntry) : Z :=
  offset_low e + 65536 * offset_mid e + 4294967296 * offset_high e.
Definition gate_present (e : IdtEntry) : bool := Z.testbit (type_attr e) 7.

(** The exceptions for which the CPU pushes an error code. *)
Definition has_code (v : nat) : bool := bool_decide (v ∈ [8; 10; 11; 12; 13; 14; 17; 21]%nat).

(** The exceptions the CPU raises. *)
Definition is_exception (v : nat) : bool := Nat.leb v 21 && negb (Nat.eqb v 9) && negb (Nat.eqb v 15).

(** The stack when the gate is entered. *)
Definition cpu_pushes (v : nat) (code : Z) (f : InterruptStackFrame) (stack : list Z) : list Z :=
  (if has_code v then [code] else []) ++
  [instruction_pointer f; code_segment f; cpu_flags f; stack_pointer f; stack_segment f] ++ stack.

(** ** The table *)

(** The stub of a vector. *)
Definition stub_of (v : nat) : option Stub :=
  if is_exception v then Some (if has_code v then isr_stub_err v else isr_stub_noerr v)
  else if Nat.eqb v 32 then Some irq0_stub
  else if Nat.leb 33 v && Nat.leb v 39 then Some irq_spurious_master_stub
  else if Nat.leb 40 v && Nat.leb v 47 then Some irq_spurious_slave_stub
  else None.

Definition gate_for (handler selector : Z) : IdtEntry :=
  mkIdtEntry (u16 handler) selector 0 IDT_GATE_PRESENT_INTERRUPT
    (u16 (Z.shiftr handler 16)) (u32 (Z.shiftr handler 32)) 0.

Lemma init_idt_at address cs v :
  (v < IDT_LEN)%nat ->
  init_idt address cs !! v =
    Some (match stub_of v with Some s => gate_for (address s) cs | None => IdtEntry_missing end).
Proof. intros Hv. unfold IDT_LEN in Hv. do 48 (destruct v as [|v]; [reflexivity|]). lia. Qed.

Lemma gate_for_handler handler cs : is_u64 handler -> gate_handler (gate_for handler cs) = handler.
Proof.
  intros Hh. unfold gate_handler, gate_for, u16, u32, is_u64 in *. cbn [offset_low offset_mid offset_high].
  rewrite !Z.shiftr_div_pow2 by lia. change (2 ^ 16) with 65536. change (2 ^ 32) with 4294967296. zlia.
Qed.

(** ** Hexadecimal text *)

(** The value of lower-case digits. *)
Definition hex_value (l : bytes) : Z :=
  fold_left (fun v b => 16 * v + (if b <? ch "a" then b - ch "0" else b - ch "a" + 10)) l 0.

Definition digit_of (x : Z) : Z := if x <? 10 then ch "0" + x else ch "a" + (x - 10).

Definition nibble_of (value : Z) (k : nat) : Z := u8 (Z.land (Z.shiftr value (Z.of_nat k * 4)) 0xF).

(** The digits [fault_print_hex] sends. *)
Fixpoint hex_digits (n : nat) (value : Z) (started : bool) : bytes :=
  match n with
  | O => []
  | S k =>
      if negb (nibble_of value k =? 0) || started || Nat.eqb k 0
      then digit_of (nibble_of value k) :: hex_digits k value true
      else hex_digits k value started
  end.

Definition hex_text (value : Z) : bytes := bs "0x" ++ hex_digits 16 value false.

Lemma nibble_eq value k : nibble_of value k = value / 16 ^ Z.of_nat k mod 16.
Proof.
  unfold nibble_of. change 0xF with (Z.ones 4). rewrite Z.land_ones, Z.shiftr_div_pow2 by lia.
  change (2 ^ 4) with 16. rewrite Z.mul_comm, Z.pow_mul_r by lia. change (2 ^ 4) with 16.
  unfold u8. apply Z.mod_small. pose proof (Z.mod_pos_bound (value / 16 ^ Z.of_nat k) 16 ltac:(lia)). lia.
Qed.

Lemma nibble_range value k : 0 <= nibble_of value k < 16.
Proof. rewrite nibble_eq. generalize (value / 16 ^ Z.of_nat k). intros x. zlia. Qed.

Lemma digit_value x : 0 <= x < 16 ->
  (if digit_of x <? ch "a" then digit_of x - ch "0" else digit_of x - ch "a" + 10) = x.
Proof. unfold digit_of. change (ch "0") with 48. change (ch "a") with 97. intros Hx. repeat case_goal; lia. Qed.

Lemma hex_value_acc l v :
  fold_left (fun v b => 16 * v + (if b <? ch "a" then b - ch "0" else b - ch "a" + 10)) l v =
  v * 16 ^ Z.of_nat (length l) + hex_value l.
Proof.
  unfold hex_value. revert v. induction l as [|b l IH]; intros v; cbn [fold_left length]; [lia|].
  rewrite IH, (IH (16 * 0 + _)), Nat2Z.inj_succ, Z.pow_succ_r by lia. lia.
Qed.

Lemma hex_value_cons x l :
  0 <= x < 16 -> hex_value (digit_of x :: l) = x * 16 ^ Z.of_nat (length l) + hex_value l.
Proof. intros Hx. unfold hex_value at 1. cbn [fold_left]. rewrite hex_value_acc, digit_value by done. lia. Qed.

Lemma hex_digits_length n value : length (hex_digits n value true) = n.
Proof. induction n as [|n IH]; cbn [hex_digits]; [done|]. rewrite orb_true_r. simpl. by rewrite IH. Qed.

Lemma hex_digits_value n value started : hex_value (hex_digits n value started) = value mod 16 ^ Z.of_nat n.
Proof.
  revert started. induction n as [|n IH]; intros started; cbn [hex_digits].
  { change (16 ^ Z.of_nat 0) with 1. rewrite Z.mod_1_r. reflexivity. }
  pose proof (nibble_range value n) as Hn.
  assert (E : value mod 16 ^ Z.of_nat (S n) = nibble_of value n * 16 ^ Z.of_nat n + value mod 16 ^ Z.of_nat n).
  { rewrite Nat2Z.inj_succ, Z.pow_succ_r, (Z.mul_comm 16), Z.rem_mul_r, nibble_eq by lia. lia. }
  rewrite E. clear E. destruct (negb _ || started || Nat.eqb n 0) eqn:Ec.
  - rewrite hex_value_cons by exact Hn. rewrite hex_digits_length, IH. reflexivity.
  - rewrite IH. assert (nibble_of value n = 0) as E0 by (destruct (nibble_of value n =? 0) eqn:En; [lia|discriminate]).
    rewrite E0. reflexivity.
Qed.

(** The digits read back as the value. *)
Lemma hex_text_reads_back value : is_u64 value -> hex_value (drop 2 (hex_text value)) = value.
Proof.
  intros Hv. unfold hex_text. generalize (hex_digits_value 16 value false).
  generalize (hex_digits 16 value false). intros l E. change (drop 2 (bs "0x" ++ l)) with l.
  rewrite E. apply Z.mod_small. exact Hv.
Qed.

(** ** The serial line *)

(** A transmitter that has sent [sl_sent] and takes the next byte after [sl_wait] more
    polls of its status, which are at most [sl_patience]. *)
Class SerialLaws (M : Type) `{Ports M} : Type := {
  sl_ready : M -> Prop;
  sl_sent : M -> bytes;
  sl_wait : M -> nat;
  sl_patience : nat;
  sl_bound m : sl_ready m -> (sl_wait m <= sl_patience)%nat;
  sl_poll m : sl_ready m ->
    exists m' s, inb (COM1 + 5) m = (m', s) /\ sl_ready m' /\ sl_sent m' = sl_sent m /\
      sl_wait m' = pred (sl_wait m) /\ (Z.land s 0x20 =? 0) = negb (Nat.eqb (sl_wait m) 0);
  sl_send m b : sl_ready m -> sl_wait m = O ->
    exists m', outb COM1 b m = (m', tt) /\ sl_ready m' /\ sl_sent m' = sl_sent m ++ [b]
}.

Section Sends.

Context {M : Type} `{SerialLaws M} (polls : positive) (Hpolls : (sl_patience < Pos.to_nat polls)%nat).

(** [f] answers once it has sent [t]. *)
Definition sends (f : Call M unit) (t : bytes) : Prop := forall m, sl_ready m ->
  exists m', answers f m tt m' /\ sl_ready m' /\ sl_sent m' = sl_sent m ++ t.

Lemma sends_nothing : sends (call_ret tt) [].
Proof. intros m Hm. exists m. by rewrite app_nil_r. Qed.

Lemma sends_then f g t u : sends f t -> sends g u -> sends (do& f in g) (t ++ u).
Proof.
  intros Hf Hg m Hm. destruct (Hf m Hm) as (m1 & E1 & Hm1 & S1). destruct (Hg m1 Hm1) as (m2 & E2 & Hm2 & S2).
  exists m2. unfold answers, call_bind in *. rewrite E1. by rewrite S2, S1, app_assoc.
Qed.

(** The wait ends with the transmitter free. *)
Lemma wait_ends m : sl_ready m ->
  exists m', st_loop polls (fun _ : unit =>
      let* can := serial_can_send in st_ret (if can : bool then inr true else inl tt)) false tt m = (m', true) /\
    sl_ready m' /\ sl_wait m' = O /\ sl_sent m' = sl_sent m.
Proof.
  intros Hm. unfold st_loop.
  match goal with |- context [loop_pos polls ?f _] =>
    destruct (loop_pos_total (fun x : M * unit => sl_ready x.1 /\ sl_sent x.1 = sl_sent m)
      (fun x => Z.of_nat (sl_wait x.1))
      (fun r => r.2 = true /\ sl_ready r.1 /\ sl_wait r.1 = O /\ sl_sent r.1 = sl_sent m) f polls (m, tt))
      as (r & -> & Hr & Hrest) end.
  - intros. lia.
  - intros [m1 []] [Hm1 S1]. cbn [fst snd] in *. unfold st_bind, st_ret, serial_can_send, st_bind.
    destruct (sl_poll m1 Hm1) as (m2 & s & -> & Hm2 & S2 & W2 & ->).
    destruct (sl_wait m1) as [|w]; unfold st_ret; cbn [Nat.eqb negb fst snd pred] in *.
    + split_and!; [done..|congruence].
    + split; [split; [done|congruence]|lia].

  - done.
  - cbn [fst]. pose proof (sl_bound m Hm). lia.
  - destruct r as [m' b]. cbn [fst snd] in *. subst b. eauto.
Qed.

Lemma sends_byte b : sends (serial_write_byte polls b) [b].
Proof.
  intros m Hm. destruct (wait_ends m Hm) as (m1 & E & Hm1 & Hw & S1).
  destruct (sl_send m1 b Hm1 Hw) as (m2 & E2 & Hm2 & S2).
  exists m2. unfold answers, serial_write_byte. unfold st_bind at 1. rewrite E. unfold st_bind, call_ret, st_ret.
  rewrite E2. by rewrite S2, S1.
Qed.

Lemma sends_bytes t : sends (fault_print polls t) t.
Proof. induction t as [|b t IH]; [apply sends_nothing|]. apply (sends_then _ _ [b]), IH. apply sends_byte. Qed.

Lemma sends_text t : sends (fault_say polls t) (bs t).
Proof. apply sends_bytes. Qed.

Lemma sends_digits n value started : sends (fault_hex_from polls n value started) (hex_digits n value started).
Proof.
  revert started. induction n as [|n IH]; intros started; [apply sends_nothing|].
  cbn [fault_hex_from hex_digits]. change (u8 (Z.land (Z.shiftr value (Z.of_nat n * 4)) 15)) with (nibble_of value n).
  destruct (negb _ || started || Nat.eqb n 0); [|apply IH]. apply (sends_then _ _ [_]), IH. apply sends_byte.
Qed.

Lemma sends_hex value : sends (fault_print_hex polls value) (hex_text value).
Proof. apply sends_then; [apply sends_text|apply sends_digits]. Qed.

Lemma sends_newline : sends (newline polls) [13; 10].
Proof. apply sends_bytes. Qed.

End Sends.

(** ** The report *)

(** What the report says of the process that was running. *)
Definition process_text (k : Kernel) : bytes :=
  let index := CURRENT_PROCESS_INDEX k in
  if Nat.ltb index PROCESS_COUNT then
    bs "   pid=" ++ hex_text (pid (proc k index)) ++ bs " name=" ++
    default (bs "?") (from_utf8 (p_name (proc k index))) ++ [13; 10]
  else bs "   (fault outside any process context)" ++ [13; 10].

(** The whole report. *)
Definition report_text (k : Kernel) (cr2 vector : Z) (mnemonic : string) (f : InterruptStackFrame)
    (error_code : option Z) : bytes :=
  [13; 10] ++ bs "!! CPU EXCEPTION vector=" ++ hex_text vector ++ bs " (" ++ bs mnemonic ++ bs ")" ++ [13; 10] ++
  match error_code with Some code => bs "   error_code=" ++ hex_text code ++ [13; 10] | None => [] end ++
  (if vector =? 14 then bs "   cr2 (fault address)=" ++ hex_text cr2 ++ [13; 10] else []) ++
  bs "   rip=" ++ hex_text (instruction_pointer f) ++ bs " cs=" ++ hex_text (code_segment f) ++
  bs " rflags=" ++ hex_text (cpu_flags f) ++ [13; 10] ++
  bs "   rsp=" ++ hex_text (stack_pointer f) ++ bs " ss=" ++ hex_text (stack_segment f) ++ [13; 10] ++
  process_text k ++ bs "!! halting" ++ [13; 10].

Section Reported.

Context {M : Type} `{SerialLaws M} (polls : positive) (Hpolls : (sl_patience < Pos.to_nat polls)%nat).

(** Every part of a report is sent by its own rule. *)
Ltac send_parts := first
  [ apply sends_nothing
  | apply (sends_text polls Hpolls)
  | apply (sends_hex polls Hpolls)
  | apply (sends_newline polls Hpolls)
  | apply (sends_bytes polls Hpolls)
  | apply sends_then; send_parts ].

Lemma process_sends k :
  sends (let index := CURRENT_PROCESS_INDEX k in
         if Nat.ltb index PROCESS_COUNT then
           let process := proc k index in
           do& fault_say polls "   pid=" in
           do& fault_print_hex polls (pid process) in
           do& fault_say polls " name=" in
           do& fault_print polls (default (bs "?") (from_utf8 (p_name process))) in
           newline polls
         else do& fault_say polls "   (fault outside any process context)" in newline polls)
    (process_text k).
Proof. unfold process_text. cbv zeta. destruct (Nat.ltb _ _); send_parts. Qed.

Lemma report_fault_sends k cr2 vector mnemonic f error_code :
  sends (report_fault polls k cr2 vector mnemonic f error_code) (report_text k cr2 vector mnemonic f error_code).
Proof.
  unfold report_fault, report_text. repeat (apply sends_then; [first [apply process_sends|destruct error_code; send_parts|destruct (vector =? 14); send_parts|send_parts]|]).
  send_parts.
Qed.

End Reported.

(** The vectors that are not exceptions have no gate below the interrupt lines. *)
Lemma reserved_vectors_missing address cs v :
  (v < 32)%nat -> is_exception v = false -> init_idt address cs !! v = Some IdtEntry_missing.
Proof.
  intros Hv He. rewrite init_idt_at by (unfold IDT_LEN; lia). unfold stub_of. rewrite He.
  do 32 (destruct v as [|v]; [reflexivity|]). lia.
Qed.

(** What is known of an exception's vector. *)
Lemma exception_vector v : is_exception v = true ->
  (v < IDT_LEN)%nat /\ u8 (Z.of_nat v) = Z.of_nat v /\
  (vector_info (Z.of_nat v)).2 = has_code v /\ (vector_info (Z.of_nat v)).1 <> "unknown"%string.
Proof.
  intros Hv. assert (v <= 21)%nat by (unfold is_exception in Hv; destruct (Nat.leb_spec v 21); [done|discriminate]).
  unfold IDT_LEN. split; [lia|].
  do 22 (destruct v as [|v]; [first [discriminate Hv|split_and!; [reflexivity|reflexivity|discriminate]]|]). lia.
Qed.

(** The stub of an exception completes the frame the CPU pushed. *)
Lemma stub_completes v code f stack : is_exception v = true ->
  exists s, stub_of v = Some s /\
    (stub_pushes s (cpu_pushes v code f stack) ≫= raw_at) = Some (mkRaw (Z.of_nat v) (if has_code v then code else 0) f).
Proof.
  intros Hv. unfold stub_of, cpu_pushes. rewrite Hv. destruct f. destruct (has_code v); eauto.
Qed.

(** C10: every CPU exception is reported: the descriptor table [init_idt] builds has a
    present gate for it in the running code segment, which leads to a stub; the stub's
    pushes turn what the CPU pushed (with an error code or without) into the frame
    [isr_common_entry] reads; and from there, with a transmitter that is free again in
    fewer polls than the wait allows, the whole report goes out on the serial line: the
    vector and its name, the error code exactly when the CPU pushed one, the fault
    address for a page fault, the registers and the running process. *)
Theorem exceptions_are_reported {M : Type} `{SerialLaws M} (polls : positive) address cs k cr2 v code f stack m :
  (sl_patience < Pos.to_nat polls)%nat ->
  (forall s, is_u64 (address s)) ->
  is_exception v = true ->
  sl_ready m ->
  exists e s raw m' mnemonic,
    init_idt address cs !! v = Some e /\
    gate_present e = true /\ selector e = cs /\ gate_handler e = address s /\
    (stub_pushes s (cpu_pushes v code f stack) ≫= raw_at) = Some raw /\
    answers (isr_common_entry polls k cr2 raw) m tt m' /\
    mnemonic <> "unknown"%string /\
    sl_sent m' = sl_sent m ++ report_text k cr2 (Z.of_nat v) mnemonic f (if has_code v then Some code else None).
Proof.
  intros Hpolls Ha Hv Hm.
  destruct (exception_vector v Hv) as (Hl & Hu & Hcode & Hname).
  destruct (stub_completes v code f stack Hv) as (s & Hs & Hraw).
  pose proof (init_idt_at address cs v Hl) as He. rewrite Hs in He.
  destruct (vector_info (Z.of_nat v)) as [mnemonic has] eqn:Ei. cbn [fst snd] in Hcode, Hname. subst has.
  destruct (report_fault_sends polls Hpolls k cr2 (Z.of_nat v) mnemonic f (if has_code v then Some code else None) m Hm)
    as (m' & E & _ & Hsent).
  exists (gate_for (address s) cs), s, (mkRaw (Z.of_nat v) (if has_code v then code else 0) f), m', mnemonic.
  split_and!; try done.
  - by apply gate_for_handler.
  - unfold isr_common_entry. cbn [raw_vector raw_error_code raw_frame]. rewrite Hu, Ei.
    by destruct (has_code v).
Qed.

(** ** A transmitter *)

(** A 16550: the latch of its divisor, the polls until the byte it sends is out, and
    what it has sent. *)
Record Uart : Type := mkUart { dlab : bool; busy : nat; sent : bytes }.

#[export] Instance Uart_ports : Ports Uart := {|
  outb port b u :=
    (if port =? COM1 then if dlab u then u else mkUart false 2 (sent u ++ [b])
     else if port =? COM1 + 3 then mkUart (Z.testbit b 7) (busy u) (sent u)
     else u, tt);
  inb port u :=
    if port =? COM1 + 5 then (mkUart (dlab u) (pred (busy u)) (sent u), if Nat.eqb (busy u) 0 then 0x60 else 0)
    else (u, 0);
  outw _ _ u := (u, tt);
  inw _ u := (u, 0);
  outl _ _ u := (u, tt);
  inl_port _ u := (u, 0);
  rdtsc u := (u, 0)
|}.

#[export] Program Instance Uart_laws : SerialLaws Uart := {|
  sl_ready u := dlab u = false /\ (busy u <= 2)%nat;
  sl_sent := sent;
  sl_wait := busy;
  sl_patience := 2
|}.
Next Obligation. by intros m [_ Hb]. Qed.
Next Obligation.
  intros [d b l] [Hd Hb]. cbn in Hd, Hb. subst d. eexists _, _. split; [reflexivity|].
  cbn. split_and!; [done|lia|done|done|by destruct b].
Qed.
Next Obligation.
  intros [d w l] b [Hd _] Hw. cbn in Hd, Hw. subst. eexists. split; [reflexivity|]. cbn. split_and!; [done|lia|done].
Qed.

(** Process 7 runs in slot 0. *)
Definition faulting_kernel : Kernel :=
  let k := update_proc 0 (fun p => {| p with pid := 7; p_name := bs "rysh" |})
             (Kernel_new (mkVm phys_empty zeroed 0x1000 0x1000)) in
  {| k with CURRENT_PROCESS_INDEX := 0%nat |}.

Definition fault_frame : InterruptStackFrame := mkFrame 0x400123 0x8 0x202 0x7000000 0x10.

(** The line before [serial_init]. *)
Definition cold_uart : Uart := mkUart true 0 [].

Definition stub_table (s : Stub) : Z :=
  match s with
  | isr_stub_noerr v | isr_stub_err v => 0x200000 + 16 * Z.of_nat v
  | irq0_stub => 0x200400
  | irq_spurious_master_stub => 0x200500
  | irq_spurious_slave_stub => 0x200600
  end.

(** A page fault, reported after [serial_init]. *)
Lemma exceptions_are_reported_witness :
  let m := fst (serial_init cold_uart) in
  let text := report_text faulting_kernel 0xdead000 14 "page fault" fault_frame (Some 2) in
  (exists e s raw m' mnemonic,
    init_idt (fun s => u64 (stub_table s)) 8 !! 14%nat = Some e /\
    gate_present e = true /\ selector e = 8 /\ gate_handler e = u64 (stub_table s) /\
    (stub_pushes s (cpu_pushes 14 2 fault_frame []) ≫= raw_at) = Some raw /\
    answers (isr_common_entry 3 faulting_kernel 0xdead000 raw) m tt m' /\
    mnemonic <> "unknown"%string /\
    sl_sent m' = sl_sent m ++ report_text faulting_kernel 0xdead000 (Z.of_nat 14) mnemonic fault_frame (Some 2)) /\
  firstn 64 text = [13; 10] ++ bs "!! CPU EXCEPTION vector=0xe (page fault)" ++ [13; 10] ++ bs "   error_code=0x2" ++ [13; 10; 32].
Proof.
  split; [|vm_compute; reflexivity].
  apply (exceptions_are_reported 3 (fun s => u64 (stub_table s)) 8 faulting_kernel 0xdead000 14 2 fault_frame []).
  - cbn. lia.
  - intros s. apply u64_range.
  - reflexivity.
  - split; [reflexivity|]. apply Nat.leb_le. reflexivity.
Defined.
