(* ===== verification/UserIo.v ===== *)
(** * The runtime's safe wrappers

    The free functions of [src/runtime/rymos-user/src/lib.rs] around the function
    table, [File] and [OpenOptions]. [None] of a wrapper is its [None]; a buffer
    argument is its bytes, and the answer is the slice of it that is returned. *)

From S2P Require Import Prelude UserAbi.
Import Consts.

Section UserIo.

Context {S : Type} `{RymosAbi S}.

(** [&buffer[..min(len, buffer.len())]] once the call has stored [stored] into it. *)
Definition filled (buffer stored : bytes) (len : Z) : bytes :=
  take (Z.to_nat (Z.min len (blen buffer))) (stored ++ drop (length stored) buffer).

(** A negative answer is [None]. *)
Definition filled_opt (buffer : bytes) (r : Z * bytes) : option bytes :=
  if fst r <? 0 then None else Some (filled buffer (snd r) (fst r)).

Definition size_opt (r : Z) : option Z := if r <? 0 then None else Some r.

Definition abi_version : Z := version.

Definition pid : Call S Z := call_pid.

Definition write (data : bytes) : Call S unit :=
  let& n := call_write_fd STDOUT data in
  if n <? 0 then call_write data else call_ret tt.

Definition print (text : bytes) : Call S unit := write text.

Definition println (text : bytes) : Call S unit := do& print text in write [10].

(** The digits [print_usize] collects, lowest first; 20 suffice for a [usize]. *)
Fixpoint usize_digits_from (n : nat) (value : Z) : bytes :=
  match n with
  | O => []
  | Datatypes.S n =>
      if 0 <? value then (48 + value mod 10) :: usize_digits_from n (value / 10) else []
  end.

Fixpoint write_each (l : bytes) : Call S unit :=
  match l with
  | [] => call_ret tt
  | b :: rest => do& write [b] in write_each rest
  end.

Definition print_usize (value : Z) : Call S unit :=
  if value =? 0 then write (bs "0") else write_each (rev (usize_digits_from 20 value)).

Definition hex_digit (digit : Z) : Z := if digit <? 10 then 48 + digit else 65 + (digit - 10).

Definition print_hex_usize (value : Z) : Call S unit :=
  do& write (bs "0x") in
  write_each (map (fun k => hex_digit (Z.land (Z.shiftr value (4 * Z.of_nat k)) 15)) (rev (seq 0 16))).

Definition args (buffer : bytes) : Call S bytes :=
  let& r := call_args (blen buffer) in call_ret (filled buffer (snd r) (fst r)).

Definition argv_count : Call S Z := call_argv_count.

Definition argv (index : Z) (buffer : bytes) : Call S (option bytes) :=
  let& r := call_argv_get index (blen buffer) in call_ret (filled_opt buffer r).

Definition read_line (buffer : bytes) : Call S bytes :=
  let& r := call_read_line (blen buffer) in call_ret (filled buffer (snd r) (fst r)).

Definition file_size (path : bytes) : Call S (option Z) :=
  let& n := call_file_size path in call_ret (size_opt n).

Definition file_read (path buffer : bytes) : Call S (option bytes) :=
  let& r := call_file_read path (blen buffer) in call_ret (filled_opt buffer r).

Definition stat (path : bytes) : Call S (option Stat) :=
  let& r := call_stat path in
  call_ret (if fst r =? 0 then Some (default stat_zero (snd r)) else None).

Definition list_dir (namespace : bytes) (index : nat) (name : bytes) : Call S (option (bytes * Stat)) :=
  let& r := call_list namespace index (blen name) in
  call_ret (if fst r <? 0 then None
            else let '(stored, st) := default ([], stat_zero) (snd r) in
                 Some (filled name stored (fst r), st)).

Definition mkdir (path : bytes) : Call S bool :=
  let& r := call_mkdir path in call_ret (r =? 0).

Definition env_get (key value : bytes) : Call S (option bytes) :=
  let& r := call_env_get key (blen value) in call_ret (filled_opt value r).

(** [packed as usize] of a packed pair of lengths. *)
Definition env_list (index : nat) (key value : bytes) : Call S (option (bytes * bytes)) :=
  let& r := call_env_list index (blen key) (blen value) in
  call_ret
    (let packed := fst r in
     if packed <? 0 then None
     else
       let key_len := Z.land (Z.shiftr packed 32) 4294967295 in
       let value_len := Z.land packed 4294967295 in
       Some (filled key (fst (snd r)) key_len, filled value (snd (snd r)) value_len)).

Definition env_set (key value : bytes) : Call S bool :=
  let& r := call_env_set key value in call_ret (r =? 0).

Definition env_remove (key : bytes) : Call S bool :=
  let& r := call_env_remove key in call_ret (r =? 0).

(** [Result<u32, i32>]: [inl] is the error. *)
Definition pid_result (r : Z) : Z + Z := if r <? 0 then inl r else inr r.

Definition spawn (name args : bytes) : Call S (Z + Z) :=
  let& r := call_spawn name args in call_ret (pid_result r).

Definition spawn_argv (name : bytes) (argv : list bytes) : Call S (Z + Z) :=
  let& r := call_spawn_argv name argv in call_ret (pid_result r).

Definition status_empty : ProcessStatus := mkStatus PROCESS_EMPTY 0.

Definition wait (pid : Z) : Call S (option ProcessStatus) :=
  let& r := call_wait pid in
  call_ret (if fst r =? 0 then Some (default status_empty (snd r)) else None).

Definition wait_any : Call S (option (Z * ProcessStatus)) :=
  let& r := call_wait_any in
  call_ret (if fst r <? 0 then None else Some (fst r, default status_empty (snd r))).

Definition nonzero (address : Z) : option Z := if address =? 0 then None else Some address.

Definition mem_alloc_pages (page_count : Z) : Call S (option Z) :=
  let& address := call_mem_alloc_pages page_count in call_ret (nonzero address).

Definition mem_map_pages (page_count flags : Z) : Call S (option Z) :=
  let& address := call_mem_map_pages page_count flags in call_ret (nonzero address).

Definition mem_unmap_pages (address page_count : Z) : Call S bool :=
  let& r := call_mem_unmap_pages address page_count in call_ret (r =? 0).

Definition time_ticks : Call S Z := call_time_ticks.
Definition time_unix_nanos : Call S Z := call_time_unix_nanos.
Definition sleep_nanos (nanos : Z) : Call S unit := call_sleep_nanos nanos.

Definition term_size : Call S (option (Z * Z)) :=
  let& r := call_term_size in
  call_ret (if fst r =? 0 then Some (default (0, 0) (snd r)) else None).

Definition unlink (path : bytes) : Call S bool :=
  let& r := call_unlink path in call_ret (r =? 0).

Definition rename (old_path new_path : bytes) : Call S bool :=
  let& r := call_rename old_path new_path in call_ret (r =? 0).

Definition cwd (buffer : bytes) : Call S (option bytes) :=
  let& r := call_cwd (blen buffer) in call_ret (filled_opt buffer r).

Definition chdir (path : bytes) : Call S bool :=
  let& r := call_chdir path in call_ret (r =? 0).

Definition last_error : Call S Z := call_last_error.

Definition pipe : Call S (option (Z * Z)) :=
  let& r := call_pipe in
  call_ret (if fst r =? 0 then Some (default (-1, -1) (snd r)) else None).

Definition dup2 (old_fd new_fd : Z) : Call S bool :=
  let& r := call_dup2 old_fd new_fd in call_ret (r =? new_fd).

Definition std_fd (which : Z) : Call S Z := call_std_fd which.

Definition save_stdio : Call S (Z * Z * Z) :=
  let& i := std_fd STDIN in
  let& o := std_fd STDOUT in
  let& e := std_fd STDERR in
  call_ret (i, o, e).

Definition fd_read (fd : Z) (buffer : bytes) : Call S (option bytes) :=
  let& r := call_read fd (blen buffer) in call_ret (filled_opt buffer r).

Definition fd_write (fd : Z) (data : bytes) : Call S (option Z) :=
  let& n := call_write_fd fd data in call_ret (size_opt n).

Definition close_fd (fd : Z) : Call S bool :=
  let& r := call_close fd in call_ret (r =? 0).

(** ** Open files *)

(** [File { fd }], moved from call to call. *)
Record File : Type := mkFile { fd : Z }.

Definition open_mode (path : bytes) (flags : Z) : Call S (option File) :=
  let& r := call_open path flags in
  call_ret (if r <? 0 then None else Some (mkFile r)).

Definition file_open (path : bytes) : Call S (option File) := open_mode path OPEN_READ.

Definition file_create (path : bytes) : Call S (option File) :=
  open_mode path (Z.lor (Z.lor (Z.lor OPEN_READ OPEN_WRITE) OPEN_CREATE) OPEN_TRUNCATE).

Definition file_append (path : bytes) : Call S (option File) :=
  open_mode path (Z.lor (Z.lor OPEN_WRITE OPEN_CREATE) OPEN_APPEND).

Definition read_file (f : File) (buffer : bytes) : Call S (option bytes) := fd_read (fd f) buffer.
Definition write_file (f : File) (data : bytes) : Call S (option Z) := fd_write (fd f) data.

Definition seek_file (f : File) (offset : Z) : Call S (option Z) :=
  let& r := call_seek (fd f) offset in call_ret (size_opt r).

(** [File::close]: the descriptor is [-1] when the value is dropped. *)
Definition close_file (f : File) : Call S bool := close_fd (fd f).

Definition drop_file (f : File) : Call S unit :=
  if 0 <=? fd f then do& close_fd (fd f) in call_ret tt else call_ret tt.

(** ** Options *)

Record OpenOptions : Type := mkOpenOptions { flags : Z }.

Definition OpenOptions_new : OpenOptions := mkOpenOptions 0.

Definition set_flag (flag : Z) (enabled : bool) (o : OpenOptions) : OpenOptions :=
  mkOpenOptions (if enabled then Z.lor (flags o) flag else Z.ldiff (flags o) flag).

Definition opt_read (read : bool) (o : OpenOptions) : OpenOptions := set_flag OPEN_READ read o.
Definition opt_write (write : bool) (o : OpenOptions) : OpenOptions := set_flag OPEN_WRITE write o.

Definition opt_append (append : bool) (o : OpenOptions) : OpenOptions :=
  let o := set_flag OPEN_APPEND append o in if append then set_flag OPEN_WRITE true o else o.

Definition opt_create (create : bool) (o : OpenOptions) : OpenOptions := set_flag OPEN_CREATE create o.

Definition opt_create_new (create_new : bool) (o : OpenOptions) : OpenOptions :=
  let o := set_flag OPEN_CREATE_NEW create_new o in if create_new then set_flag OPEN_CREATE true o else o.

Definition opt_truncate (truncate : bool) (o : OpenOptions) : OpenOptions := set_flag OPEN_TRUNCATE truncate o.

Definition opt_open (o : OpenOptions) (path : bytes) : Call S (option File) := open_mode path (flags o).

End UserIo.
