(* ===== verification/UserFs.v ===== *)
(** * The runtime's file functions

    [stdish::fs] of [src/runtime/rymos-user/src/lib.rs]. A [Result] is a sum:
    [inl] is the error code. A loop that no argument bounds takes fuel; running
    out of it is a call that has not answered yet. A [File] that goes out of
    scope is dropped explicitly. *)

From S2P Require Import Prelude Text UserAbi UserIo.
Import Consts.

Section UserFs.

Context {S : Type} `{RymosAbi S}.

Definition Result (A : Type) : Type := (Z + A)%type.

(** [Error::last()] *)
Definition error_last {A} : Call S (Result A) := let& code := last_error in call_ret (inl code).

Definition from_code {A} (code : Z) : Result A := inl code.

(** [o.ok_or_else(Error::last)] *)
Definition ok_or_last {A} (o : option A) : Call S (Result A) :=
  match o with Some a => call_ret (inr a) | None => error_last end.

(** [if ok { Ok(()) } else { Err(Error::last()) }] *)
Definition unit_or_last (ok : bool) : Call S (Result unit) :=
  if ok then call_ret (inr tt) else error_last.

(** [x?] *)
Definition try {A B} (m : Call S (Result A)) (k : A -> Call S (Result B)) : Call S (Result B) :=
  let& r := m in match r with inl code => call_ret (inl code) | inr a => k a end.

Definition metadata (path : bytes) : Call S (Result Stat) := let& o := stat path in ok_or_last o.

Definition exists_ (path : bytes) : Call S bool :=
  let& o := stat path in call_ret (match o with Some _ => true | None => false end).

Definition create_dir (path : bytes) : Call S (Result unit) := let& ok := mkdir path in unit_or_last ok.

Definition remove_file (path : bytes) : Call S (Result unit) := let& ok := unlink path in unit_or_last ok.

Definition rename (from to : bytes) : Call S (Result unit) :=
  let& ok := UserIo.rename from to in unit_or_last ok.

(** ** Path components *)

(** [Components]: the words between slashes; [cur] is the component begun. *)
Fixpoint components_of (path cur : bytes) : list bytes :=
  match path with
  | [] => if bytes_eq cur [] then [] else [cur]
  | b :: rest =>
      if b =? ch "/" then (if bytes_eq cur [] then [] else [cur]) ++ components_of rest []
      else components_of rest (cur ++ [b])
  end.

Definition components (path : bytes) : list bytes := components_of path [].

Fixpoint drop_slashes (path : bytes) : bytes :=
  match path with
  | b :: rest => if b =? ch "/" then drop_slashes rest else path
  | [] => []
  end.

Definition ends_with (l suffix : bytes) : bool :=
  (blen suffix <=? blen l) && bytes_eq (drop (length l - length suffix) l) suffix.

Fixpoint create_each (comps : list bytes) (current : bytes) : Call S (Result unit) :=
  match comps with
  | [] => call_ret (inr tt)
  | component :: rest =>
      if bytes_eq component (bs ".") then create_each rest current
      else if bytes_eq component (bs "..") then call_ret (from_code ERR_INVAL)
      else
        let current :=
          if negb (bytes_eq current []) && negb (ends_with current (bs ":"))
          then current ++ bs "/" else current in
        let current := current ++ component in
        let& st := stat current in
        match st with
        | Some st => if s_kind st =? STAT_KIND_DIR then create_each rest current
                     else call_ret (from_code ERR_NOTDIR)
        | None =>
            let& ok := mkdir current in
            if negb ok then error_last else create_each rest current
        end
  end.

Definition create_dir_all (path : bytes) : Call S (Result unit) :=
  if starts_with path (bs "pfs:")
  then create_each (components (drop_slashes (drop 4 path))) (bs "pfs:")
  else create_each (components path) [].

(** ** Whole files *)

Fixpoint read_to_end_from (fuel : nat) (file : File) (data : bytes) : Call S (Result bytes) :=
  match fuel with
  | O => st_ret None
  | Datatypes.S fuel =>
      let& chunk := read_file file (replicate 256 0) in
      match chunk with
      | None => error_last
      | Some [] => call_ret (inr data)
      | Some chunk => read_to_end_from fuel file (data ++ chunk)
      end
  end.

Definition read_to_end (fuel : nat) (file : File) : Call S (Result bytes) := read_to_end_from fuel file [].

(** Every round writes at least a byte, so the length of [data] bounds the rounds. *)
Fixpoint write_all_from (fuel : nat) (file : File) (data : bytes) : Call S (Result unit) :=
  match data, fuel with
  | [], _ => call_ret (inr tt)
  | _ :: _, O => st_ret None
  | _ :: _, Datatypes.S fuel =>
      let& written := write_file file data in
      match written with
      | None => error_last
      | Some written =>
          if (written =? 0) || (blen data <? written) then call_ret (from_code ERR_IO)
          else write_all_from fuel file (drop (Z.to_nat written) data)
      end
  end.

Definition write_all (file : File) (data : bytes) : Call S (Result unit) :=
  write_all_from (length data) file data.

(** A value computed with a file in scope; the file is dropped after it. *)
Definition with_file {A} (m : Call S (option File)) (k : File -> Call S (Result A)) : Call S (Result A) :=
  let& o := m in
  match o with
  | None => error_last
  | Some file => let& r := k file in do& drop_file file in call_ret r
  end.

Definition read (fuel : nat) (path : bytes) : Call S (Result bytes) :=
  with_file (file_open path) (read_to_end fuel).

Definition write (path data : bytes) : Call S (Result unit) :=
  with_file (file_create path) (fun file => write_all file data).

Definition append (path data : bytes) : Call S (Result unit) :=
  with_file (file_append path) (fun file => write_all file data).

(** ** Directories *)

Record DirEntry : Type := mkDirEntry { de_name : bytes; de_metadata : Stat }.

Record ReadDir : Type := mkReadDir { rd_path : bytes; rd_index : nat }.

Definition read_dir (path : bytes) : ReadDir := mkReadDir path 0.

(** [ReadDir::next] *)
Definition read_dir_next (d : ReadDir) : Call S (ReadDir * option DirEntry) :=
  let& r := list_dir (rd_path d) (rd_index d) (replicate 64 0) in
  call_ret (match r with
            | None => (d, None)
            | Some (entry, st) =>
                (mkReadDir (rd_path d) (Datatypes.S (rd_index d)), Some (mkDirEntry entry st))
            end).

(** The iterator drained, as a [for] loop does. *)
Fixpoint read_dir_all (fuel : nat) (d : ReadDir) : Call S (list DirEntry) :=
  match fuel with
  | O => st_ret None
  | Datatypes.S fuel =>
      let& r := read_dir_next d in
      match snd r with
      | None => call_ret []
      | Some e => let& rest := read_dir_all fuel (fst r) in call_ret (e :: rest)
      end
  end.

End UserFs.
