(* ===== verification/UserEnv.v ===== *)
(** * The runtime's environment, standard streams, time and paths

    [stdish::env], [stdish::io], [stdish::time] and [stdish::path] of
    [src/runtime/rymos-user/src/lib.rs]. *)

From S2P Require Import Prelude Text UserAbi UserIo UserFs.
Import Consts.

Section UserEnv.

Context {S : Type} `{RymosAbi S}.

(** ** Environment *)

Definition var (key : bytes) : Call S (Result bytes) :=
  let& o := env_get key (replicate 128 0) in ok_or_last o.

Definition set_var (key value : bytes) : Call S (Result unit) :=
  let& ok := env_set key value in unit_or_last ok.

Definition remove_var (key : bytes) : Call S (Result unit) :=
  let& ok := env_remove key in unit_or_last ok.

Definition current_dir : Call S (Result bytes) :=
  let& o := cwd (replicate 96 0) in ok_or_last o.

Definition set_current_dir (path : bytes) : Call S (Result unit) :=
  let& ok := chdir path in unit_or_last ok.

Definition temp_dir : Call S bytes :=
  let& r := var (bs "TMPDIR") in
  call_ret (match r with inr dir => dir | inl _ => bs "pfs:tmp" end).

(** [Vars::next] *)
Definition vars_next (index : nat) : Call S (nat * option (bytes * bytes)) :=
  let& r := env_list index (replicate 32 0) (replicate 128 0) in
  call_ret (match r with
            | None => (index, None)
            | Some kv => (Datatypes.S index, Some kv)
            end).

(** ** Standard streams *)

Definition stdin_read (buffer : bytes) : Call S (Result bytes) :=
  let& o := fd_read STDIN buffer in ok_or_last o.

Fixpoint fd_write_all_from (fuel : nat) (fd : Z) (data : bytes) : Call S (Result unit) :=
  match data, fuel with
  | [], _ => call_ret (inr tt)
  | _ :: _, O => st_ret None
  | _ :: _, Datatypes.S fuel =>
      let& written := fd_write fd data in
      match written with
      | None => error_last
      | Some written =>
          if (written =? 0) || (blen data <? written) then call_ret (from_code ERR_IO)
          else fd_write_all_from fuel fd (drop (Z.to_nat written) data)
      end
  end.

Definition fd_write_all (fd : Z) (data : bytes) : Call S (Result unit) :=
  fd_write_all_from (length data) fd data.

Definition stdout_write_all (data : bytes) : Call S (Result unit) := fd_write_all STDOUT data.
Definition stderr_write_all (data : bytes) : Call S (Result unit) := fd_write_all STDERR data.

(** ** Processes and time *)

Definition id : Call S Z := pid.

Definition wait_any : Call S (Result (Z * ProcessStatus)) := let& o := UserIo.wait_any in ok_or_last o.

Record Instant : Type := mkInstant { ticks_ : Z }.

Definition now : Call S Instant := let& t := time_ticks in call_ret (mkInstant t).

Definition elapsed_ticks (i : Instant) : Call S Z :=
  let& t := time_ticks in call_ret (saturating_sub t (ticks_ i)).

Definition ticks : Call S Z := time_ticks.

End UserEnv.

(** ** Paths *)

Definition join (base child : bytes) : bytes :=
  if starts_with child (bs "pfs:") || starts_with child (bs "/") then child
  else
    let out := base in
    let out := if negb (bytes_eq out []) && negb (ends_with out (bs ":")) && negb (ends_with out (bs "/"))
               then out ++ bs "/" else out in
    out ++ child.

(** The scan of [file_name] from the end: the text after the last slash. *)
Fixpoint after_slash (index : nat) (path : bytes) : option bytes :=
  match index with
  | O => None
  | Datatypes.S index =>
      if nth index path 0 =? ch "/" then Some (drop (Datatypes.S index) path) else after_slash index path
  end.

Definition file_name (path : bytes) : bytes :=
  match after_slash (length path) path with
  | Some name => name
  | None => if starts_with path (bs "pfs:") then drop 4 path else path
  end.

(** [u8::is_ascii_graphic] *)
Definition is_graphic (byte : Z) : bool := (33 <=? byte) && (byte <=? 126).

Definition display_lossy (path : bytes) : bytes :=
  map (fun byte => if is_graphic byte || (byte =? 32) then byte else ch "?") path.
