(* ===== verification/UserCmd.v ===== *)
(** * Running another program

    [Command] and [run_command_output] / [run_command_status] of
    [src/runtime/rymos-user/src/lib.rs]: the caller's directory, environment and
    standard descriptors are changed for the child and put back on every path. *)

From S2P Require Import Prelude UserAbi UserIo UserFs.
Import Consts.

Record CommandEnv : Type := mkCommandEnv { ce_key : bytes; ce_value : option bytes }.

Record EnvRestore : Type := mkEnvRestore { er_key : bytes; existed : bool; er_value : bytes }.

Record Command : Type := mkCommand {
  c_name : bytes;
  c_args : bytes;
  c_argv : list bytes;
  c_stdin : bytes;
  c_cwd : option bytes;
  c_env : list CommandEnv;
  stdout_file : option bytes;
  stderr_file : option bytes;
  c_error : Z
}.

Record CommandOutput : Type := mkOutput {
  o_pid : Z; o_status : ProcessStatus; o_stdout : bytes; o_stderr : bytes
}.

Record CommandStatus : Type := mkCommandStatus { s_pid : Z; s_status : ProcessStatus }.

(** ** Building a command *)

Definition Command_new (name : bytes) : Command := mkCommand name [] [] [] None [] None None ERR_OK.

Definition with_args (args : bytes) (c : Command) : Command :=
  if COMMAND_ARGS_MAX <? blen args
  then {| c with c_args := []; c_argv := []; c_error := ERR_NOSPC |}
  else {| c with c_args := args; c_argv := [] |}.

Definition args_raw (args : bytes) (c : Command) : Command := with_args args c.

Definition with_arg (arg : bytes) (c : Command) : Command :=
  if negb (c_error c =? ERR_OK) then c
  else
    let separator := if bytes_eq (c_args c) [] then 0 else 1 in
    if COMMAND_ARGS_MAX <? blen (c_args c) + separator + blen arg
    then {| c with c_error := ERR_NOSPC |}
    else
      {| c with c_args := (if separator =? 1 then c_args c ++ bs " " else c_args c) ++ arg;
                c_argv := c_argv c ++ [arg] |}.

Definition with_stdin (stdin : bytes) (c : Command) : Command := {| c with c_stdin := stdin |}.
Definition with_dir (cwd : bytes) (c : Command) : Command := {| c with c_cwd := Some cwd |}.
Definition with_env (key value : bytes) (c : Command) : Command :=
  {| c with c_env := c_env c ++ [mkCommandEnv key (Some value)] |}.
Definition without_env (key : bytes) (c : Command) : Command :=
  {| c with c_env := c_env c ++ [mkCommandEnv key None] |}.
Definition with_stdout_file (path : bytes) (c : Command) : Command := {| c with stdout_file := Some path |}.
Definition with_stderr_file (path : bytes) (c : Command) : Command := {| c with stderr_file := Some path |}.

Section UserCmd.

Context {S : Type} `{RymosAbi S}.

(** ** The caller's context *)

Definition restore_stdio (saved : Z * Z * Z) : Call S unit :=
  let '(i, o, e) := saved in
  do& dup2 i STDIN in
  do& dup2 o STDOUT in
  do& dup2 e STDERR in
  call_ret tt.

Fixpoint close_many (fds : list Z) : Call S unit :=
  match fds with
  | [] => call_ret tt
  | fd :: rest =>
      if 0 <=? fd then do& close_fd fd in close_many rest else close_many rest
  end.

Definition restore_cwd (command_cwd : option bytes) (saved_cwd : bytes) : Call S unit :=
  match command_cwd with
  | Some _ => if bytes_eq saved_cwd [] then call_ret tt else do& chdir saved_cwd in call_ret tt
  | None => call_ret tt
  end.

Definition restore_one (r : EnvRestore) : Call S unit :=
  if existed r then do& env_set (er_key r) (er_value r) in call_ret tt
  else do& env_remove (er_key r) in call_ret tt.

Fixpoint restore_each (l : list EnvRestore) : Call S unit :=
  match l with
  | [] => call_ret tt
  | r :: rest => do& restore_one r in restore_each rest
  end.

(** [restores.iter().rev()] *)
Definition restore_env (restores : list EnvRestore) : Call S unit := restore_each (rev restores).

Definition restore_command_context (command_cwd : option bytes) (saved_cwd : bytes)
    (env : list EnvRestore) : Call S unit :=
  do& restore_env env in restore_cwd command_cwd saved_cwd.

(** What is recorded about a key before it is overridden. *)
Definition remember (key : bytes) : Call S EnvRestore :=
  let& current := env_get key (replicate 128 0) in
  call_ret (match current with
            | Some value => mkEnvRestore key true value
            | None => mkEnvRestore key false []
            end).

Definition override_one (o : CommandEnv) : Call S bool :=
  match ce_value o with
  | Some value => env_set (ce_key o) value
  | None => env_remove (ce_key o)
  end.

(** [Err] after the overrides done so far have been undone. *)
Fixpoint apply_from (overrides : list CommandEnv) (restores : list EnvRestore)
  : Call S (Result (list EnvRestore)) :=
  match overrides with
  | [] => call_ret (inr restores)
  | o :: rest =>
      let& restore := remember (ce_key o) in
      let& ok := override_one o in
      if negb ok then
        let& error := last_error in
        do& restore_env restores in
        call_ret (inl error)
      else apply_from rest (restores ++ [restore])
  end.

Definition apply_env_overrides (overrides : list CommandEnv) : Call S (Result (list EnvRestore)) :=
  apply_from overrides [].

(** The prologue both functions share: save and change the directory, then the
    environment. An error of [cwd] or of the first [chdir] returns at once. *)
Definition with_context (command_cwd : option bytes) (env_overrides : list CommandEnv) {A : Type}
    (k : bytes -> list EnvRestore -> Call S (Result A)) : Call S (Result A) :=
  let enter := fun saved_cwd =>
    (let& r := apply_env_overrides env_overrides in
     match r with
     | inl code => do& restore_cwd command_cwd saved_cwd in call_ret (inl code)
     | inr restores => k saved_cwd restores
     end) in
  match command_cwd with
  | None => enter []
  | Some next_cwd =>
      let& current := cwd (replicate 64 0) in
      match current with
      | None => error_last
      | Some saved_cwd =>
          let& ok := chdir next_cwd in
          if ok : bool then enter saved_cwd else error_last
      end
  end.

Definition spawn_command (name args : bytes) (argv : list bytes) : Call S (Result Z) :=
  match argv with
  | [] => spawn name args
  | _ => spawn_argv name argv
  end.

(** Everything a pipe holds, a full chunk at a time; [fuel] chunks at most. *)
Fixpoint read_available_from (fuel : nat) (fd : Z) (output : bytes) : Call S bytes :=
  match fuel with
  | O => st_ret None
  | Datatypes.S fuel =>
      let& data := fd_read fd (replicate 128 0) in
      match data with
      | None | Some [] => call_ret output
      | Some data =>
          if blen data <? 128 then call_ret (output ++ data)
          else read_available_from fuel fd (output ++ data)
      end
  end.

Definition read_all_available (fuel : nat) (fd : Z) : Call S bytes := read_available_from fuel fd [].

(** The first of three redirections that fails ends the chain ([||]). *)
Definition redirect3 (i o e : Z) : Call S bool :=
  let& a := dup2 i STDIN in
  if negb a then call_ret false
  else
    let& b := dup2 o STDOUT in
    if negb b then call_ret false else dup2 e STDERR.

(** [pipe()], or the cleanup and the error that was pending before it. *)
Definition pipe_or {A} (cleanup : Call S unit) (k : Z * Z -> Call S (Result A)) : Call S (Result A) :=
  let& p := pipe in
  match p with
  | Some fds => k fds
  | None => let& error := last_error in do& cleanup in call_ret (inl error)
  end.

(** Starting the child and waiting for it, with the cleanup of each failure. *)
Definition spawn_and_wait {A} (name args : bytes) (argv : list bytes) (cleanup : Call S unit)
    (k : Z -> ProcessStatus -> Call S (Result A)) : Call S (Result A) :=
  let& r := spawn_command name args argv in
  match r with
  | inl code => do& cleanup in call_ret (inl code)
  | inr pid =>
      let& status := wait pid in
      match status with
      | None => do& cleanup in call_ret (inl ERR_NOENT)
      | Some status => k pid status
      end
  end.

(** ** The two ways to run a command *)

Definition run_command_output (fuel : nat) (name args : bytes) (argv : list bytes) (stdin : bytes)
    (command_cwd : option bytes) (env_overrides : list CommandEnv) : Call S (Result CommandOutput) :=
  let& saved_stdio := save_stdio in
  with_context command_cwd env_overrides (fun saved_cwd env_restores =>
    let context := restore_command_context command_cwd saved_cwd env_restores in
    pipe_or context (fun p0 =>
    pipe_or (do& close_many [fst p0; snd p0] in context) (fun p1 =>
    pipe_or (do& close_many [fst p0; snd p0; fst p1; snd p1] in context) (fun p2 =>
      let all := [fst p0; snd p0; fst p1; snd p1; fst p2; snd p2] in
      do& fd_write (snd p0) stdin in
      let& ok := redirect3 (fst p0) (snd p1) (snd p2) in
      if negb ok then
        let& error := last_error in
        do& restore_stdio saved_stdio in
        do& close_many all in
        do& context in
        call_ret (inl error)
      else
        spawn_and_wait name args argv
          (do& restore_stdio saved_stdio in do& context in close_many all)
          (fun pid status =>
            do& restore_stdio saved_stdio in
            do& context in
            let& out := read_all_available fuel (fst p1) in
            let& err := read_all_available fuel (fst p2) in
            do& close_many all in
            call_ret (inr (mkOutput pid status out err))))))).

(** A file that a standard stream is redirected to, when one is given. The file
    is dropped, and closed, when the function returns; [scope] drops the values
    declared before it. *)
Definition redirect_file {A} (path : option bytes) (std : Z) (cleanup scope : Call S unit)
    (k : option File -> Call S (Result A)) : Call S (Result A) :=
  match path with
  | None => k None
  | Some path =>
      let& f := file_create path in
      match f with
      | None => let& error := last_error in do& cleanup in do& scope in call_ret (inl error)
      | Some file =>
          let& ok := dup2 (fd file) std in
          if negb ok then
            let& error := last_error in
            do& cleanup in
            do& drop_file file in
            do& scope in
            call_ret (inl error)
          else k (Some file)
      end
  end.

Definition drop_target (f : option File) : Call S unit :=
  match f with Some file => drop_file file | None => call_ret tt end.

(** The input pipe of [run_command_status], when there is input. *)
Definition stdin_pipe {A} (stdin : bytes) (saved_stdio : Z * Z * Z) (context : Call S unit)
    (k : list Z -> Call S (Result A)) : Call S (Result A) :=
  if bytes_eq stdin [] then k []
  else
    pipe_or context (fun p =>
      do& fd_write (snd p) stdin in
      let& ok := dup2 (fst p) STDIN in
      if negb ok then
        let& error := last_error in
        do& restore_stdio saved_stdio in
        do& close_many [fst p; snd p] in
        do& context in
        call_ret (inl error)
      else k [fst p; snd p]).

Definition run_command_status (name args : bytes) (argv : list bytes) (stdin : bytes)
    (command_cwd : option bytes) (env_overrides : list CommandEnv)
    (stdout_file stderr_file : option bytes) : Call S (Result CommandStatus) :=
  let& saved_stdio := save_stdio in
  with_context command_cwd env_overrides (fun saved_cwd env_restores =>
    let context := restore_command_context command_cwd saved_cwd env_restores in
    stdin_pipe stdin saved_stdio context (fun stdin_fds =>
      let cleanup := (do& restore_stdio saved_stdio in do& close_many stdin_fds in context) in
      redirect_file stdout_file STDOUT cleanup (call_ret tt) (fun stdout_target =>
      redirect_file stderr_file STDERR cleanup (drop_target stdout_target) (fun stderr_target =>
        let finish :=
          (do& restore_stdio saved_stdio in
           do& context in
           do& close_many stdin_fds in
           do& drop_target stdout_target in
           drop_target stderr_target) in
        spawn_and_wait name args argv finish
          (fun pid status => do& finish in call_ret (inr (mkCommandStatus pid status))))))).

Definition output (fuel : nat) (c : Command) : Call S (Result CommandOutput) :=
  if negb (c_error c =? ERR_OK) then call_ret (inl (c_error c))
  else run_command_output fuel (c_name c) (c_args c) (c_argv c) (c_stdin c) (c_cwd c) (c_env c).

Definition status (c : Command) : Call S (Result CommandStatus) :=
  if negb (c_error c =? ERR_OK) then call_ret (inl (c_error c))
  else run_command_status (c_name c) (c_args c) (c_argv c) (c_stdin c) (c_cwd c) (c_env c)
         (stdout_file c) (stderr_file c).

Definition command_output (fuel : nat) (name args stdin : bytes) : Call S (Result CommandOutput) :=
  output fuel (with_stdin stdin (with_args args (Command_new name))).

End UserCmd.
