(* ===== verification/KernelAbi.v ===== *)
(** * The table the kernel hands to programs

    The blocking waits [wait_for_pid_blocking], [wait_for_any_child_blocking],
    [abi_wait] and [abi_wait_any], and [static RYMOS_ABI], of
    [src/kernel/src/main.rs].

    What the other processes do between a block and the return of
    [run_scheduler_step] is the work of programs, which are not part of the
    kernel: [others] stands for it. *)

From S2P Require Import Prelude Constants Text Device Pfs Console BootFs Phys Paging Process Sched.
From S2P Require Import Env Fd Abi AbiFs AbiProc Elf Spawn UserAbi.

(** A handler that always answers. *)
Definition always {S A} (m : ST S A) : Call S A := fun s => let '(s, a) := m s in (s, Some a).

(** A handler that only reads. *)
Definition reads {S A} (f : S -> A) : Call S A := fun s => (s, Some (f s)).

Definition user_stat (st : RymosStat) : Stat :=
  mkUserStat (sk_kind st) (sk_fs st) (sk_size st) (sk_created st) (sk_modified st) (sk_mode st).

Definition user_status (st : RymosProcessStatus) : ProcessStatus :=
  mkStatus (st_state st) (st_exit_code st).

Section KernelAbi.

Context {D : Type} `{SectorDev D} (clk : Clock) (process_trampoline : Z).
Context (others : ST (Sys D) unit) (fuel : nat).

(** [run_scheduler_step] *)
Definition run_others : ST (Sys D) unit := others.

Definition block_on (target : WaitTarget) : ST (Sys D) unit := fun s =>
  ({| s with sys_kern := block_current_on target (sys_kern s) |}, tt).

Fixpoint wait_for_pid_blocking (n : nat) (p : Z) : Call (Sys D) (option RymosProcessStatus) :=
  match n with
  | O => st_ret None
  | S n =>
      let* r := on_kern (process_wait_by_pid p) in
      match r with
      | Some status => call_ret (Some status)
      | None =>
          let* found := get (fun s => find_process_index_by_pid p (sys_kern s)) in
          match found with
          | None => call_ret None
          | Some _ =>
              do! block_on (WaitPid p) in
              do! run_others in
              wait_for_pid_blocking n p
          end
      end
  end.

Fixpoint wait_for_any_child_blocking (n : nat) (parent : Z)
  : Call (Sys D) (option (Z * RymosProcessStatus)) :=
  match n with
  | O => st_ret None
  | S n =>
      let* r := on_kern (process_wait_any_child parent) in
      match r with
      | Some result => call_ret (Some result)
      | None =>
          let* live := get (fun s => has_live_child parent (sys_kern s)) in
          if negb live then call_ret None
          else
            do! block_on WaitAnyChild in
            do! run_others in
            wait_for_any_child_blocking n parent
      end
  end.

Definition abi_wait (p : Z) (status_ok : bool) : Call (Sys D) (Z * option RymosProcessStatus) :=
  if negb status_ok then call_ret (-1, None)
  else
    let& r := wait_for_pid_blocking fuel p in
    call_ret (match r with
              | Some status => (0, Some status)
              | None => (-1, None)
              end).

Definition abi_wait_any (status_ok : bool) : Call (Sys D) (Z * option RymosProcessStatus) :=
  if negb status_ok then call_ret (-1, None)
  else
    let& parent := reads abi_pid in
    let& r := wait_for_any_child_blocking fuel parent in
    call_ret (match r with
              | Some (p, status) => (i32 p, Some status)
              | None => (-1, None)
              end).

(** [static RYMOS_ABI] *)
#[export] Instance RYMOS_ABI : RymosAbi (Sys D) := {
  version := 23;
  call_write data := always (abi_write (Some data));
  call_pid := reads abi_pid;
  call_args n := reads (abi_args (Some n));
  call_read_line n := abi_read_line (Some n);
  call_file_size path := reads (abi_file_size (Some path));
  call_file_read path n := reads (abi_file_read (Some path) (Some n));
  call_open path flags := always (abi_open clk (Some path) flags);
  call_read fd n := abi_read fd (Some n);
  call_write_fd fd data := always (abi_write_fd clk fd (Some data));
  call_seek fd offset := always (abi_seek fd offset);
  call_close fd := always (abi_close fd);
  call_stat path :=
    let& r := always (abi_stat (Some path) true) in
    call_ret (fst r, option_map user_stat (snd r));
  call_list namespace index n :=
    let& r := always (abi_list (Some namespace) index (Some n) true) in
    call_ret (fst r, option_map (fun e => (fst e, user_stat (snd e))) (snd r));
  call_mkdir path := always (abi_mkdir clk (Some path));
  call_env_get key n := always (abi_env_get (Some key) (Some n));
  call_env_list index key_len value_len := always (abi_env_list index (Some key_len) (Some value_len));
  call_env_set key value := always (abi_env_set (Some key) (Some value));
  call_env_remove key := always (abi_env_remove (Some key));
  call_spawn name args := abi_spawn process_trampoline (Some name) (Some args) (blen args);
  call_spawn_argv name argv :=
    abi_spawn_argv process_trampoline (Some name) (Some (map Some argv)) (length argv);
  call_wait p :=
    let& r := abi_wait p true in call_ret (fst r, option_map user_status (snd r));
  call_wait_any :=
    let& r := abi_wait_any true in call_ret (fst r, option_map user_status (snd r));
  call_mem_alloc_pages n := always (abi_mem_alloc_pages n);
  call_mem_map_pages n flags := always (abi_mem_map_pages n flags);
  call_mem_unmap_pages address n := always (abi_mem_unmap_pages address n);
  call_time_ticks := always (abi_time_ticks clk);
  call_unlink path := always (abi_unlink (Some path));
  call_rename old_path new_path := always (abi_rename clk (Some old_path) (Some new_path));
  call_cwd n := always (abi_cwd (Some n));
  call_chdir path := abi_chdir (Some path);
  call_last_error := reads abi_last_error;
  call_pipe := always (abi_pipe true);
  call_dup2 old_fd new_fd := always (abi_dup2 old_fd new_fd);
  call_argv_count := reads abi_argv_count;
  call_argv_get index n := always (abi_argv_get index (Some n));
  call_time_unix_nanos := always (abi_time_unix_nanos clk);
  call_sleep_nanos nanos :=
    let& done := always (abi_sleep_nanos clk fuel nanos) in
    (if done : bool then call_ret tt else st_ret None);
  call_term_size := always (abi_term_size true);
  call_std_fd which := reads (abi_std_fd which)
}.

(** [run_program] *)
Definition run_program (bootfs : BootFs) (name args : bytes) (c : Console) : Call (Sys D) Console := fun s =>
  let '(s, (c, r)) := run_program_begin process_trampoline bootfs name args c s in
  match r with
  | RunPanic => (s, None)
  | RunDone => (s, Some c)
  | RunWaits index =>
      (let& status := wait_for_pid_blocking fuel (process_pid (sys_kern s) index) in
       let& c := reads (fun s => default c (APP_CONSOLE s)) in
       always (run_program_end index status c)) s
  end.

End KernelAbi.
