(* ===== verification/UserFiles.v ===== *)
(** * What the file functions promise, against the function table

    [FileLaws] states what a program may rely on when it creates, opens, reads,
    writes and closes a file through the table; FileStore.v proves it of the
    kernel. From the laws alone: [fs::write], [fs::append] and [fs::read] of
    [src/runtime/rymos-user/src/lib.rs] always answer, and a file that was
    written or appended to reads back as what it then holds. *)

From S2P Require Import Prelude Text UserAbi UserIo UserFs.
Import Consts.

(** What a descriptor was opened for. *)
Inductive Access : Type := ReadOnly | ReadWrite | WriteOnly | Appending.

Definition can_read (a : Access) : bool := match a with ReadOnly | ReadWrite => true | _ => false end.

(** The accesses that empty the file, with their flags. *)
Definition truncates (a : Access) : bool := match a with ReadWrite | WriteOnly => true | _ => false end.

Definition open_flags (a : Access) : Z :=
  match a with ReadOnly => 1 | ReadWrite => 15 | WriteOnly => 14 | Appending => 22 end.

(** What a [&[u8]] can be: bytes, at most [isize::MAX] of them. *)
Definition is_slice (data : bytes) : Prop := Forall is_u8 data /\ blen data < 2 ^ 63.

Class FileLaws (S : Type) `{RymosAbi S} : Type := {
  (** a file can be created under this path *)
  ready : S -> bytes -> Prop;
  (** the path names a file with this content, and can be opened *)
  named : S -> bytes -> bytes -> Prop;
  (** the descriptor is open on the file of this path, with this content and offset *)
  opened : S -> Access -> Z -> bytes -> bytes -> Z -> Prop;
  opened_range s a fd path content off :
    opened s a fd path content off ->
    0 <= fd /\ 0 <= off /\ (a = Appending -> off = blen content);
  create_law s a path :
    ready s path -> truncates a = true ->
    exists fd s', answers (call_open path (open_flags a)) s fd s' /\ (0 <= fd -> opened s' a fd path [] 0);
  open_law s path content :
    named s path content ->
    exists fd s', answers (call_open path 1) s fd s' /\ opened s' ReadOnly fd path content 0;
  append_law s path content :
    named s path content ->
    exists fd s', answers (call_open path 22) s fd s' /\
      opened s' Appending fd path content (blen content);
  write_law s a fd path content off data :
    opened s a fd path content off -> a <> ReadOnly -> is_slice data -> data <> [] ->
    exists n s', answers (call_write_fd fd data) s n s' /\
      (0 <= n -> 0 < n <= blen data /\
        opened s' a fd path (splice content off (take (Z.to_nat n) data)) (off + n));
  read_law s a fd path content off n :
    opened s a fd path content off -> can_read a = true -> 0 <= n ->
    let got := take (Z.to_nat n) (drop (Z.to_nat off) content) in
    exists s', answers (call_read fd n) s (blen got, got) s' /\
      opened s' a fd path content (off + blen got);
  seek_law s a fd path content off target :
    opened s a fd path content off -> a <> Appending -> 0 <= target < 2 ^ 63 ->
    exists s', answers (call_seek fd target) s target s' /\ opened s' a fd path content target;
  close_law s a fd path content off :
    opened s a fd path content off ->
    exists s', answers (call_close fd) s 0 s' /\ named s' path content;
  close_total s fd : exists r s', answers (call_close fd) s r s';
  error_total s : exists code s', answers call_last_error s code s'
}.

(** A chunk followed by what comes after it. *)
Lemma chunk_rest n off (x content : bytes) :
  take n (drop (Z.to_nat off) content) = x -> 0 <= off ->
  x ++ drop (Z.to_nat (off + blen x)) content = drop (Z.to_nat off) content.
Proof.
  intros Hx Ho. rewrite <- (take_drop n (drop (Z.to_nat off) content)), Hx. f_equal.
  unfold blen. rewrite Z2Nat.inj_add, Nat2Z.id, <- drop_drop by lia.
  rewrite <- Hx, length_take. destruct (decide (n <= length (drop (Z.to_nat off) content))%nat).
  - f_equal. lia.
  - rewrite !drop_ge by lia. done.
Qed.

Section UserFiles.

Context {S : Type} `{FileLaws S}.

(** ** The loops *)

Lemma read_buffer_law s a f path content off buffer :
  opened s a (fd f) path content off -> can_read a = true ->
  let got := take (length buffer) (drop (Z.to_nat off) content) in
  exists s', answers (read_file f buffer) s (Some got) s' /\
    opened s' a (fd f) path content (off + blen got).
Proof.
  intros Ho Ha got.
  destruct (read_law s a (fd f) path content off (blen buffer) Ho Ha ltac:(unfold blen; lia)) as (s' & Hr & Ho').
  assert (En : Z.to_nat (blen buffer) = length buffer) by (unfold blen; lia).
  rewrite En in Hr, Ho'. fold got in Hr, Ho'. exists s'. split; [|done].
  unfold read_file, fd_read. apply answers_bind. exists (blen got, got), s'.
  split; [exact Hr|]. apply answers_ret. split; [|done].
  unfold filled_opt, filled. cbn [fst snd].
  destruct (Z.ltb_spec (blen got) 0); [unfold blen in *; lia|]. f_equal.
  assert (length got <= length buffer)%nat by (unfold got; rewrite length_take; lia).
  unfold blen. rewrite take_app_ge by lia.
  replace (Z.to_nat _ - length got)%nat with 0%nat by lia. by rewrite app_nil_r.
Qed.

Lemma read_file_law s a f path content off n :
  opened s a (fd f) path content off -> can_read a = true ->
  let got := take n (drop (Z.to_nat off) content) in
  exists s', answers (read_file f (replicate n 0)) s (Some got) s' /\
    opened s' a (fd f) path content (off + blen got).
Proof.
  intros Ho Ha. pose proof (read_buffer_law s a f path content off (replicate n 0) Ho Ha) as Hr.
  by rewrite length_replicate in Hr.
Qed.

Lemma read_to_end_law fuel s a f path content off acc :
  opened s a (fd f) path content off -> can_read a = true ->
  0 <= off <= blen content -> (Z.to_nat (blen content - off) < fuel)%nat ->
  exists s', answers (read_to_end_from fuel f acc) s (inr (acc ++ drop (Z.to_nat off) content)) s' /\
    opened s' a (fd f) path content (blen content).
Proof.
  revert s off acc. induction fuel as [|fuel IH]; intros s off acc Ho Ha Hr Hf; [lia|]. cbn [read_to_end_from].
  destruct (read_file_law s a f path content off 256 Ho Ha) as (s1 & H1 & Ho1).
  set (got := take 256 (drop (Z.to_nat off) content)) in *.
  assert (Hg : length got = Nat.min 256 (length content - Z.to_nat off))
    by (unfold got; rewrite length_take, length_drop; done).
  destruct got as [|b rest] eqn:Eg.
  - exists s1. assert (Hoff : off = blen content) by (cbn [length] in Hg; unfold blen in *; lia).
    split.
    + apply answers_bind. exists (Some []), s1. split; [done|]. apply answers_ret. split; [|done].
      by rewrite drop_ge, app_nil_r by (unfold blen in *; lia).
    + rewrite Hoff in Ho1. by rewrite Z.add_0_r in Ho1.
  - destruct (IH s1 (off + blen (b :: rest)) (acc ++ b :: rest) Ho1 Ha) as (s2 & H2 & Ho2).
    { rewrite blen_cons. unfold blen in *. cbn [length] in Hg. lia. }
    { rewrite blen_cons. unfold blen in *. cbn [length] in Hg. lia. }
    exists s2. split; [|done]. apply answers_bind. exists (Some (b :: rest)), s1. split; [done|].
    cbn beta iota. replace (acc ++ drop (Z.to_nat off) content)
      with ((acc ++ b :: rest) ++ drop (Z.to_nat (off + blen (b :: rest))) content); [done|].
    rewrite <- app_assoc. f_equal. rewrite <- (chunk_rest 256 off (b :: rest) content) by (done || lia).
    done.
Qed.

Lemma error_last_law {A} s : exists code s', answers (error_last (A := A)) s (inl code) s'.
Proof.
  destruct (error_total s) as (code & s' & He). exists code, s'. unfold error_last, last_error.
  apply answers_bind. exists code, s'. by rewrite answers_ret.
Qed.

Lemma write_all_law fuel s a f path content off data :
  opened s a (fd f) path content off -> a <> ReadOnly -> is_slice data ->
  (length data <= fuel)%nat ->
  exists r s', answers (write_all_from fuel f data) s r s' /\
    (r = inr tt -> opened s' a (fd f) path (splice content off data) (off + blen data)).
Proof.
  revert s content off data. induction fuel as [|fuel IH]; intros s content off data Ho Ha Hd Hf.
  { destruct data; [|simpl in Hf; lia]. exists (inr tt), s. split; [done|]. intros _.
    rewrite splice_nil. unfold blen. simpl. by rewrite Z.add_0_r. }
  destruct data as [|b rest] eqn:Ed.
  { exists (inr tt), s. split; [done|]. intros _. rewrite splice_nil. unfold blen. simpl.
    by rewrite Z.add_0_r. }
  rewrite <- Ed in *. assert (Hne : data <> []) by by rewrite Ed.
  destruct (write_law s a (fd f) path content off data Ho Ha Hd Hne) as (n & s1 & Hw & Hn).
  assert (Hwf : answers (write_file f data) s (size_opt n) s1).
  { unfold write_file, fd_write. apply answers_bind. exists n, s1. by rewrite answers_ret. }
  rewrite Ed. cbn [write_all_from]. rewrite <- Ed.
  destruct (Z.ltb_spec n 0) as [Hneg|Hpos].
  - destruct (error_last_law (A := unit) s1) as (code & s2 & He). exists (inl code), s2. split; [|done].
    apply answers_bind. exists None, s1. unfold size_opt in Hwf.
    destruct (Z.ltb_spec n 0); [done|lia].
  - destruct (Hn Hpos) as [Hr Ho1]. destruct (opened_range _ _ _ _ _ _ Ho) as (_ & Hoff & _).
    destruct (IH s1 _ _ (drop (Z.to_nat n) data) Ho1 Ha) as (r & s2 & H2 & Ho2).
    { destruct Hd as [Hd Hl]. split; [by apply Forall_drop|]. unfold blen in *. rewrite length_drop. lia. }
    { rewrite length_drop. unfold blen in Hr. rewrite Ed in *. simpl in *. lia. }
    exists r, s2. split.
    + apply answers_bind. exists (Some n), s1. unfold size_opt in Hwf.
      destruct (Z.ltb_spec n 0); [lia|]. split; [done|]. cbn beta iota.
      destruct (Z.eqb_spec n 0); [lia|]. destruct (Z.ltb_spec (blen data) n); [lia|]. done.
    + intros Hok. specialize (Ho2 Hok).
      assert (Ht : blen (take (Z.to_nat n) data) = n) by (unfold blen in *; rewrite length_take; lia).
      rewrite <- Ht in Ho2 at 2. rewrite splice_splice, take_drop in Ho2 by done.
      replace (off + blen data) with (off + n + blen (drop (Z.to_nat n) data)); [done|].
      unfold blen in *. rewrite length_drop. lia.
Qed.

(** ** Whole files *)

(** A file is dropped by closing it. *)
Lemma drop_law s a f path content off :
  opened s a (fd f) path content off ->
  exists s', answers (drop_file f) s tt s' /\ named s' path content.
Proof.
  intros Ho. destruct (close_law _ _ _ _ _ _ Ho) as (s' & Hc & Hn). exists s'. split; [|done].
  destruct (opened_range _ _ _ _ _ _ Ho) as (Hfd & _). unfold drop_file.
  destruct (Z.leb_spec 0 (fd f)); [|lia]. apply answers_bind. exists true, s'.
  rewrite answers_ret. split; [|done]. unfold close_fd. apply answers_bind. exists 0, s'.
  by rewrite answers_ret.
Qed.

Lemma drop_total s f : exists s', answers (drop_file f) s tt s'.
Proof.
  unfold drop_file. case_goal; [|exists s; by apply answers_ret].
  destruct (close_total s (fd f)) as (r & s' & Hc). exists s'. apply answers_bind.
  exists (r =? 0), s'. rewrite answers_ret. split; [|done]. unfold close_fd. apply answers_bind.
  exists r, s'. by rewrite answers_ret.
Qed.

Lemma open_mode_law path flags s r s' :
  answers (call_open path flags) s r s' ->
  answers (open_mode path flags) s (if r <? 0 then None else Some (mkFile r)) s'.
Proof. intros Ho. unfold open_mode. apply answers_bind. exists r, s'. by rewrite answers_ret. Qed.

Lemma read_law_whole fuel s path content :
  named s path content -> (length content < fuel)%nat ->
  exists s', answers (read fuel path) s (inr content) s' /\ named s' path content.
Proof.
  intros Hn Hf. destruct (open_law s path content Hn) as (r & s1 & Hopen & Ho).
  apply open_mode_law in Hopen. destruct (opened_range _ _ _ _ _ _ Ho) as (Hr & _).
  destruct (Z.ltb_spec r 0); [lia|]. change r with (fd (mkFile r)) in Ho.
  destruct (read_to_end_law fuel s1 ReadOnly (mkFile r) path content 0 [] Ho) as (s2 & H2 & Ho2);
    [done|unfold blen; lia|unfold blen; lia|].
  destruct (drop_law _ _ _ _ _ _ Ho2) as (s3 & H3 & Hn3). exists s3. split; [|done].
  unfold read, with_file. apply answers_bind. exists (Some (mkFile r)), s1. split; [done|].
  apply answers_bind. exists (inr content), s2. split; [done|]. apply answers_bind. exists tt, s3.
  by rewrite answers_ret.
Qed.

(** Writing [data] through a fresh descriptor. *)
Lemma write_through flags s path data a content off r s1 :
  answers (call_open path flags) s r s1 ->
  (0 <= r -> opened s1 a r path content off) -> a <> ReadOnly -> is_slice data ->
  exists o s', answers (with_file (open_mode path flags) (fun file => write_all file data)) s o s' /\
    (o = inr tt -> named s' path (splice content off data)).
Proof.
  intros Hopen Ho Ha Hd. apply open_mode_law in Hopen.
  destruct (Z.ltb_spec r 0) as [Hneg|Hpos].
  - destruct (error_last_law (A := unit) s1) as (code & s2 & He). exists (inl code), s2. split; [|done].
    apply answers_bind. by exists None, s1.
  - specialize (Ho Hpos). change r with (fd (mkFile r)) in Ho.
    destruct (write_all_law (length data) s1 a (mkFile r) path content off data Ho Ha Hd ltac:(lia))
      as (o & s2 & H2 & Ho2).
    destruct o as [code|[]].
    + destruct (drop_total s2 (mkFile r)) as (s3 & H3). exists (inl code), s3. split; [|done].
      apply answers_bind. exists (Some (mkFile r)), s1. split; [done|]. apply answers_bind.
      exists (inl code), s2. split; [done|]. apply answers_bind. exists tt, s3. by rewrite answers_ret.
    + destruct (drop_law _ _ _ _ _ _ (Ho2 eq_refl)) as (s3 & H3 & Hn3). exists (inr tt), s3.
      split; [|done]. apply answers_bind. exists (Some (mkFile r)), s1. split; [done|].
      apply answers_bind. exists (inr tt), s2. split; [done|]. apply answers_bind. exists tt, s3.
      by rewrite answers_ret.
Qed.

Lemma write_law_whole s path data :
  ready s path -> is_slice data ->
  exists o s', answers (write path data) s o s' /\ (o = inr tt -> named s' path data).
Proof.
  intros Hr Hd. destruct (create_law s ReadWrite path Hr eq_refl) as (r & s1 & Hopen & Ho).
  destruct (write_through 15 s path data ReadWrite [] 0 r s1 Hopen Ho) as (o & s2 & H2 & Hn);
    [done|done|]. exists o, s2. split; [done|]. intros Hok. specialize (Hn Hok).
  change 0 with (blen []) in Hn. by rewrite splice_end in Hn.
Qed.

Lemma append_law_whole s path content data :
  named s path content -> is_slice data ->
  exists o s', answers (append path data) s o s' /\ (o = inr tt -> named s' path (content ++ data)).
Proof.
  intros Hr Hd. destruct (append_law s path content Hr) as (r & s1 & Hopen & Ho).
  destruct (write_through 22 s path data Appending content (blen content) r s1 Hopen)
    as (o & s2 & H2 & Hn); [done|done|done|]. exists o, s2. split; [done|]. intros Hok.
  specialize (Hn Hok). by rewrite splice_end in Hn.
Qed.

End UserFiles.
