(* ===== verification/FileStore.v ===== *)
(** * The kernel keeps the file laws

    [FileLaws] of UserFiles.v, proved of the function table of KernelAbi.v: the
    descriptors, the header and the data area together behave as the files a
    program sees. The disk must work, and the store on it must be well-formed. *)

From S2P Require Import Prelude Constants Text PfsLayout PfsPath PfsDir PfsAlloc Device Pfs PfsIO PfsData PfsFile.
From S2P Require Import AtaDisk PfsProps Console BootFs Phys Paging Process Env Fd Abi AbiFs AbiFsThm AbiProc KernelAbi UserAbi UserFiles.
From S2P Require UserFs.

Section FileStore.

Context {D : Type} `{SL : SectorLaws D} (clk : Clock) (Hclk : 0 <= BOOT_TSC clk).

(** ** The current process *)

Lemma cwd_update_cur (s : Sys D) f :
  (forall p, cwd (f p) = cwd p) -> cwd (cur_proc (update_cur f s)) = cwd (cur_proc s).
Proof.
  intros Hf. unfold cur_proc, update_cur, update_proc, proc. simpl.
  rewrite list_lookup_alter, decide_True by done.
  destruct (PROCESS_TABLE (sys_kern s) !! CURRENT_PROCESS_INDEX (sys_kern s)); simpl; [apply Hf|done].
Qed.

(** The path as the kernel resolves it. *)
Definition resolves (s : Sys D) (path name : bytes) : Prop :=
  checked_app_slice (Some path) = Some path /\ pfs_resolve_path (cwd (cur_proc s)) path = Some name.

Definition fds_sized (s : Sys D) : Prop := length (APP_FDS (sys_fds s)) = APP_FD_COUNT.

Definition is_opened (s : Sys D) (a : Access) (fd : Z) (path content : bytes) (off : Z) : Prop :=
  exists i index name,
    app_fd_index fd = Some i /\ fds_sized s /\
    fd_at (sys_fds s) i = mkFd true FdPfs (open_flags a) [] (blen content) off index /\
    resolves s path name /\ file_holds (sys_disk s) name index content /\
    0 <= off < 2 ^ 63 /\ (a = Appending -> off = blen content).

Definition is_named (s : Sys D) (path content : bytes) : Prop :=
  exists index name,
    fds_sized s /\ is_Some (free_fd (sys_fds s)) /\ resolves s path name /\
    file_holds (sys_disk s) name index content.

Definition is_ready (s : Sys D) (path : bytes) : Prop :=
  exists name, fds_sized s /\ resolves s path name /\ store_wf (sys_disk s) /\ sd_healthy (sys_disk s).

Lemma fd_at_insert (t : Fds) i f :
  length (APP_FDS t) = APP_FD_COUNT -> (i < APP_FD_COUNT)%nat -> fd_at (set_fd i f t) i = f.
Proof. intros Hl Hi. by rewrite fd_at_set, decide_True by lia. Qed.

Lemma fd_index_of i : (i < APP_FD_COUNT)%nat -> app_fd_index (Z.of_nat i + APP_FD_BASE) = Some i.
Proof.
  intros Hi. unfold app_fd_index, APP_FD_BASE. destruct (Z.ltb_spec (Z.of_nat i + 3) 3); [lia|].
  replace (Z.to_nat (Z.of_nat i + 3 - 3)) with i by lia. destruct (Nat.ltb_spec i APP_FD_COUNT); [done|lia].
Qed.

Lemma fd_index_bounds fd i : app_fd_index fd = Some i -> 3 <= fd /\ (i < APP_FD_COUNT)%nat.
Proof.
  unfold app_fd_index, APP_FD_BASE. destruct (Z.ltb_spec fd 3); [done|].
  destruct (Nat.ltb_spec (Z.to_nat (fd - 3)) APP_FD_COUNT); [|done]. intros [= <-]. lia.
Qed.

(** The handle of a claimed descriptor. *)
Lemma claim_fd_spec (s : Sys D) f :
  fds_sized s ->
  exists s' r, claim_fd f s = (s', r) /\ sys_disk s' = sys_disk s /\
    cwd (cur_proc s') = cwd (cur_proc s) /\ fds_sized s' /\
    (is_Some (free_fd (sys_fds s)) -> 0 <= r) /\
    (0 <= r -> exists i, app_fd_index r = Some i /\ fd_at (sys_fds s') i = f).
Proof.
  intros Hs. unfold claim_fd. destruct (free_fd (sys_fds s)) as [i|] eqn:E.
  - unfold put_fd, clear_app_error. simpl. eexists _, _. split; [done|]. simpl.
    apply find_first_some in E as (Hi & _ & _). split_and!.
    + done.
    + by rewrite cwd_update_cur.
    + unfold fds_sized, set_fd. simpl. by rewrite length_insert.
    + unfold APP_FD_BASE. lia.
    + intros _. exists i. split; [by apply fd_index_of|by apply fd_at_insert].
  - unfold set_app_error. eexists _, _. split; [done|]. simpl. split_and!; try done.
    by rewrite cwd_update_cur.
Qed.

(** ** Opening *)

(** The error answer of an opening. *)
Lemma app_error_spec e (s : Sys D) :
  exists s', set_app_error e s = (s', -1) /\ sys_disk s' = sys_disk s /\ sys_fds s' = sys_fds s /\
    cwd (cur_proc s') = cwd (cur_proc s).
Proof. eexists. split; [done|]. split_and!; [done|done|by rewrite cwd_update_cur]. Qed.

(** What an opening has to establish. *)
Definition open_post (s : Sys D) (a : Access) (path content : bytes) (off : Z) (s' : Sys D) (r : Z) : Prop :=
  (is_Some (free_fd (sys_fds s)) -> 0 <= r) /\ (0 <= r -> is_opened s' a r path content off).

(** The last part of [abi_open_pfs], once the header is as it should be. *)
Lemma claim_opened (s : Sys D) a path name index content off :
  fds_sized s -> resolves s path name -> file_holds (sys_disk s) name index content ->
  0 <= off < 2 ^ 63 -> (a = Appending -> off = blen content) ->
  exists s' r,
    claim_fd (mkFd true FdPfs (open_flags a) [] (blen content) off index) s = (s', r) /\
    open_post s a path content off s' r.
Proof.
  intros Hz [Hr1 Hr2] Hh Ho Ha.
  destruct (claim_fd_spec s (mkFd true FdPfs (open_flags a) [] (blen content) off index) Hz)
    as (s' & r & E & E1 & E2 & E3 & E4 & E5).
  exists s', r. split; [done|]. split; [done|]. intros Hp. destruct (E5 Hp) as (i & Ei & Ef).
  exists i, index, name. unfold resolves. rewrite E1, E2. split_and!; done || lia.
Qed.

Lemma holds_size (d : D) name index content h :
  file_holds d name index content -> header_eq h (disk_header d) -> pfs_entry_size h index = blen content.
Proof.
  intros [Hst Hsz] He. rewrite <- Hsz. assert (Hn : names_fit h) by (rewrite He; apply Hst).
  exact (f_equal v_size (header_eq_view h _ index He Hn (proj1 (ss_file _ _ _ _ Hst)))).
Qed.

(** The prologue of [abi_open] on a PFS path. *)
Lemma open_prologue (s : Sys D) path name flags :
  resolves s path name -> abi_open clk (Some path) flags s = abi_open_pfs clk name flags s.
Proof.
  intros [Hc Hr]. unfold abi_open. rewrite Hc. unfold st_bind, get. by rewrite Hr.
Qed.

(** The flags of the three openings pass the checks on flags. *)
Lemma open_flag_checks (s : Sys D) a name :
  valid_pfs_path name = true ->
  abi_open_pfs clk name (open_flags a) s =
  (let* r := on_disk read_header_silent in
   match r with
   | None => set_app_error ERR_IO
   | Some header =>
       if negb (pfs_parent_exists header name) then set_app_error ERR_NOENT
       else
         match pfs_find_entry header name with
         | Some index =>
             if pfs_entry_is_dir header index then set_app_error ERR_ISDIR
             else open_entry clk header index name (open_flags a)
         | None =>
             if flag_set (open_flags a) FD_CREATE then
               match pfs_free_entry header with
               | None => set_app_error ERR_NOSPC
               | Some index =>
                   let* created := on_disk (ns_since_boot clk) in
                   let* now := on_disk (ns_since_boot clk) in
                   let header :=
                     pfs_set_entry header index name 0 PFS_KIND_FILE [] created PFS_MODE_DEFAULT_FILE now in
                   let* ok := on_disk (write_header header) in
                   if negb ok then set_app_error ERR_IO
                   else open_entry clk header index name (open_flags a)
               end
             else set_app_error ERR_NOENT
         end
   end) s.
Proof. intros Hv. unfold abi_open_pfs. rewrite Hv. by destruct a. Qed.

(** Opening an existing file without truncating it. *)
Lemma open_existing (s : Sys D) a path name index content :
  truncates a = false -> fds_sized s -> resolves s path name -> file_holds (sys_disk s) name index content ->
  exists s' r, abi_open clk (Some path) (open_flags a) s = (s', r) /\
    open_post s a path content (match a with Appending => blen content | _ => 0 end) s' r.
Proof using SL.
  intros Ha Hz Hr Hh. pose proof Hh as [Hst _].
  destruct (read_header_done (sys_disk s) (ss_wf _ _ _ _ Hst) (ss_healthy _ _ _ _ Hst))
    as (d1 & h & E1 & Hh1 & Hs1 & He1).
  pose proof (holds_same _ _ _ _ _ Hs1 Hh1 Hh) as Hd1.
  rewrite (open_prologue s path name) by done.
  rewrite open_flag_checks by apply Hst. unfold st_bind, on_disk. rewrite E1.
  assert (Hn : names_fit h) by (rewrite He1; apply Hst).
  rewrite (header_eq_parent _ _ name He1 Hn), (ss_parent _ _ _ _ Hst). cbn [negb].
  rewrite (header_eq_find _ _ name He1 Hn), (ss_find _ _ _ _ Hst).
  pose proof (ss_file _ _ _ _ Hst) as (Hi & Hu & Hdir).
  rewrite (is_dir_agree _ _ _ (header_eq_agree _ _ index Hi He1)), Hdir.
  unfold open_entry. replace (flag_set (open_flags a) FD_TRUNCATE) with false by by destruct a.
  rewrite (holds_size _ _ _ _ _ Hh He1).
  set (s1 := {| s with sys_disk := d1 |}).
  pose proof (blen_nonneg content). pose proof (ss_max _ _ _ _ Hst) as Hm. rewrite PFS_FILE_MAX_eq in Hm.
  destruct (claim_opened s1 a path name index content
    (match a with Appending => blen content | _ => 0 end)) as (s' & r & E & Hp);
    [done|done|done|destruct a; lia|by destruct a|].
  exists s', r. split; [|exact Hp]. rewrite <- E. by destruct a.
Qed.

(** Opening with truncation, or creation. *)
Lemma open_entry_truncates (s : Sys D) a path name index content h :
  truncates a = true -> fds_sized s -> resolves s path name -> stores (sys_disk s) name index content ->
  header_eq h (disk_header (sys_disk s)) ->
  exists s' r, open_entry clk h index name (open_flags a) s = (s', r) /\
    (0 <= r -> is_opened s' a r path [] 0).
Proof using SL Hclk.
  intros Ha Hz Hr Hst He. unfold open_entry.
  replace (flag_set (open_flags a) FD_TRUNCATE) with true by by destruct a. unfold st_bind, on_disk.
  destruct (clock_done clk Hclk (sys_disk s) (ss_healthy _ _ _ _ Hst)) as (d1 & now & E1 & Hh1 & Hs1 & Hnow).
  rewrite E1. pose proof (stores_same _ _ _ _ _ Hs1 Hh1 Hst) as Hst1.
  assert (He1 : header_eq h (disk_header d1)).
  { intros k Hk. rewrite He by done. symmetry. by apply (same_disk_header _ _ Hs1). }
  pose proof (ss_file _ _ _ _ Hst1) as (Hi & Hu & Hdir).
  assert (Hb : header_bytes h) by (intros k Hk; rewrite He by done; by apply disk_header_bytes).
  destruct (emptied d1 h name index (pfs_entry_created h index) (pfs_entry_mode h index) now)
    as (d2 & E2 & Hh2 & _); [apply Hst1|done|done|done|left; apply Hst1|done|apply Hst1|apply Hst1|
      apply le64_slice_range|done|apply (header_bytes_entry h index PFS_MODE_OFFSET Hb Hi); pfs_const; lia|].
  unfold truncated. cbn [sys_disk]. rewrite E2. cbn [negb].
  set (s2 := {| s with sys_disk := d2 |}).
  destruct (claim_opened s2 a path name index [] 0) as (s' & r & E & _ & Hp);
    [done|done|done|lia|by destruct a|].
  exists s', r. split; [|exact Hp]. rewrite <- E. unfold claim_fd.
  assert (Hsz : pfs_entry_size (pfs_set_entry h index name 0 PFS_KIND_FILE [] (pfs_entry_created h index)
    (pfs_entry_mode h index) now) index = blen []).
  { apply (f_equal v_size (set_entry_view h index name 0 PFS_KIND_FILE [] (pfs_entry_created h index)
      (pfs_entry_mode h index) now ltac:(split; try done;
        [by apply valid_bytes_no_leading_parent; apply Hst|simpl; lia|apply le64_slice_range]))). }
  rewrite Hsz. by destruct a.
Qed.

(** A header read from the disk, with the state behind it. *)
Lemma header_read (s : Sys D) :
  store_wf (sys_disk s) -> sd_healthy (sys_disk s) ->
  exists d h, on_disk read_header_silent s = ({| s with sys_disk := d |}, Some h) /\
    store_wf d /\ sd_healthy d /\ header_eq h (disk_header d).
Proof using SL.
  intros Hw Hh. destruct (read_header_done (sys_disk s) Hw Hh) as (d & h & E & Hh' & Hs & He).
  exists d, h. unfold on_disk. rewrite E. split_and!; [done|by eapply store_wf_same|done|].
  intros k Hk. rewrite He by done. symmetry. by apply (same_disk_header _ _ Hs).
Qed.

(** A fresh entry, then the opening. *)
Lemma create_entry (s : Sys D) a path name h index :
  truncates a = true -> fds_sized s -> resolves s path name -> store_wf (sys_disk s) -> sd_healthy (sys_disk s) ->
  header_eq h (disk_header (sys_disk s)) -> valid_pfs_path name = true ->
  pfs_parent_exists h name = true -> pfs_find_entry h name = None -> pfs_free_entry h = Some index ->
  exists s' r,
    (let* created := on_disk (ns_since_boot clk) in
     let* now := on_disk (ns_since_boot clk) in
     let header := pfs_set_entry h index name 0 PFS_KIND_FILE [] created PFS_MODE_DEFAULT_FILE now in
     let* ok := on_disk (write_header header) in
     if negb ok then set_app_error ERR_IO
     else open_entry clk header index name (open_flags a)) s = (s', r) /\
    (0 <= r -> is_opened s' a r path [] 0).
Proof using SL Hclk.
  intros Ha Hz Hr Hw Hh He Hv Hp Hf Hfree. unfold st_bind, on_disk.
  destruct (clock_done clk Hclk (sys_disk s) Hh) as (d1 & created & E1 & Hh1 & Hs1 & Hc).
  rewrite E1. cbn [sys_disk].
  destruct (clock_done clk Hclk d1 Hh1) as (d2 & now & E2 & Hh2 & Hs2 & Hnow).
  rewrite E2. cbn [sys_disk].
  assert (Hs : same_disk (sys_disk s) d2) by by transitivity d1.
  assert (He2 : header_eq h (disk_header d2)).
  { intros k Hk. rewrite He by done. symmetry. by apply (same_disk_header _ _ Hs). }
  assert (Hn : names_fit h) by (rewrite He; apply Hw).
  apply free_entry_spec in Hfree as [Hi Hu].
  pose proof (used_agree _ _ _ (header_eq_agree _ _ index Hi He2)) as Hu2.
  destruct (emptied d2 h name index created PFS_MODE_DEFAULT_FILE now) as (d3 & E3 & Hh3 & He3);
    [by eapply store_wf_same|done|done|done|right; by rewrite <- (header_eq_find _ _ _ He2 Hn)|
     congruence|done|by rewrite <- (header_eq_parent _ _ _ He2 Hn)|done|done|done|].
  rewrite E3. cbn [negb sys_disk].
  apply (open_entry_truncates {| s with sys_disk := d3 |} a path name index []); try done. apply Hh3.
Qed.

Lemma kernel_create (s : Sys D) a path :
  is_ready s path -> truncates a = true ->
  exists s' r, abi_open clk (Some path) (open_flags a) s = (s', r) /\ (0 <= r -> is_opened s' a r path [] 0).
Proof using SL Hclk.
  intros (name & Hz & Hr & Hw & Hh) Ha.
  rewrite (open_prologue s path name) by done.
  assert (Herr : forall s e b p c o, exists s' r, set_app_error (D := D) e s = (s', r) /\
    (0 <= r -> is_opened s' b r p c o)).
  { intros s0 e b p c o. destruct (app_error_spec e s0) as (s' & E & _). exists s', (-1). split; [done|lia]. }
  destruct (valid_pfs_path name) eqn:Hv.
  2: { unfold abi_open_pfs. rewrite Hv. apply Herr. }
  rewrite open_flag_checks by done. unfold st_bind at 1.
  destruct (header_read s Hw Hh) as (d & h & E & Hw1 & Hh1 & He). rewrite E.
  set (s1 := {| s with sys_disk := d |}).
  assert (Hn : names_fit h) by (rewrite He; apply Hw1).
  destruct (pfs_parent_exists h name) eqn:Hp; cbn [negb]; [|apply Herr].
  destruct (pfs_find_entry h name) as [index|] eqn:Hf.
  - destruct (pfs_entry_is_dir h index) eqn:Hd; [apply Herr|].
    pose proof (find_entry_spec _ _ _ Hf) as (Hi & Hu & _).
    assert (Hfile : is_file (disk_header d) index) by by apply (header_eq_file h).
    apply (open_entry_truncates s1 a path name index []); try done.
    rewrite (header_eq_parent _ _ _ He Hn) in Hp. rewrite (header_eq_find _ _ _ He Hn) in Hf.
    split; [exact Hh1|exact Hw1|exact Hv|exact Hp|exact Hf|exact Hfile|by rewrite PFS_FILE_MAX_eq| |].
    + pose proof (chain_bounds _ _ (aw_chain _ (st_alloc _ Hw1) index Hfile)). unfold blen. simpl. cbn [sys_disk s1]. lia.
    + intros k Hk. simpl in Hk. lia.
  - replace (flag_set (open_flags a) FD_CREATE) with true by by destruct a.
    destruct (pfs_free_entry h) as [index|] eqn:Hfree; [|apply Herr].
    by apply (create_entry s1 a path name).
Qed.

(** ** Writing, reading, closing *)

Lemma resolve_fd_plain stds fd : 3 <= fd -> app_resolve_fd stds fd = fd.
Proof using.
  intros Hf. unfold app_resolve_fd, is_std_fd, STDIN_FD, STDERR_FD.
  destruct ((0 <=? fd) && (fd <=? 2)) eqn:E; [lia|done].
Qed.

(** The state after the handle in slot [i] has moved and the disk has changed. *)
Lemma moved_opened (s : Sys D) a fd path name index i d content off :
  app_fd_index fd = Some i -> fds_sized s -> resolves s path name ->
  file_holds d name index content -> 0 <= off < 2 ^ 63 -> (a = Appending -> off = blen content) ->
  is_opened {| {| s with sys_disk := d |} with
      sys_fds := set_fd i (mkFd true FdPfs (open_flags a) [] (blen content) off index) (sys_fds s) |}
    a fd path content off.
Proof using.
  intros Hi Hz Hr Hh Ho Ha. exists i, index, name. unfold fds_sized. cbn [sys_fds sys_disk].
  pose proof (fd_index_bounds _ _ Hi) as [_ Hb].
  split_and!; [done|unfold set_fd; simpl; by rewrite length_insert|by apply fd_at_insert|exact Hr|
    exact Hh|lia|lia|exact Ha].
Qed.

Lemma set_fd_twice i f g (t : Fds) : set_fd i g (set_fd i f t) = set_fd i g t.
Proof using. unfold set_fd. simpl. by rewrite list_insert_insert_eq. Qed.

(** The file branch of a write, from a handle whose offset is [off]. *)
Lemma write_file_spec (s : Sys D) a fd path name index i content off data :
  app_fd_index fd = Some i -> fds_sized s -> resolves s path name -> a <> ReadOnly ->
  file_holds (sys_disk s) name index content -> 0 <= off < 2 ^ 63 ->
  (a = Appending -> off = blen content) -> is_slice data -> data <> [] ->
  exists s' n,
    write_file_fd clk i (mkFd true FdPfs (open_flags a) [] (blen content) off index) data s = (s', n) /\
    (0 <= n -> n = blen data /\ is_opened s' a fd path (splice content off data) (off + blen data)).
Proof using SL Hclk.
  intros Hi Hz Hr Ha Hh Ho Happ [Hu Hl] Hne. unfold write_file_fd.
  replace (if flag_set _ FD_APPEND then _ else _)
    with (mkFd true FdPfs (open_flags a) [] (blen content) off index)
    by (destruct a; [done|done|done|by rewrite (Happ eq_refl)]).
  unfold st_bind at 1, put_fd. cbn [fd_offset fd_len pfs_index].
  assert (Hsm : u64 (off + blen data) = off + blen data).
  { pose proof (blen_nonneg data). apply u64_small. unfold is_u64. lia. }
  rewrite Hsm. destruct (Z.ltb_spec PFS_FILE_MAX (off + blen data)) as [|Hmax].
  { eexists _, (-1). split; [done|lia]. }
  pose proof Hmax as Hsum. rewrite PFS_FILE_MAX_eq in Hsum.
  destruct (write_at_done clk Hclk (sys_disk s) name index content off data Hh (proj1 Ho) Hu ltac:(lia))
    as (d1 & ok & E1 & _ & Hok).
  unfold st_bind at 1, on_disk. cbn [sys_disk]. rewrite E1.
  destruct ok; cbn [negb]; [|eexists _, (-1); split; [done|lia]].
  destruct (Hok eq_refl) as [Hst Hsz]. pose proof (blen_splice content off data (proj1 Ho) Hne) as Hbl.
  pose proof (blen_nonneg data).
  destruct (Z.ltb_spec (blen content) (off + blen data)) as [Hgrow|Hin].
  - destruct (update_size_done clk Hclk d1 name index _ Hst) as (d2 & E2 & Hd2).
    assert (Hlen : blen (splice content off data) = off + blen data) by lia. rewrite Hlen in E2.
    unfold st_bind, put_fd, on_disk. cbn [fd_len fd_offset sys_disk]. rewrite E2. cbn [negb].
    eexists _, _. split; [done|]. intros _. split; [done|]. cbn [sys_fds]. rewrite set_fd_twice.
    pose proof (moved_opened s a fd path name index i d2 (splice content off data) (off + blen data)
      Hi Hz Hr Hd2) as Hm. rewrite Hlen in Hm. apply Hm; [lia|done].
  - unfold st_bind, put_fd. eexists _, _. split; [done|]. intros _. split; [done|].
    cbn [sys_fds]. rewrite set_fd_twice.
    pose proof (moved_opened s a fd path name index i d1 (splice content off data) (off + blen data)
      Hi Hz Hr) as Hm. assert (Hlen : blen (splice content off data) = blen content) by lia.
    rewrite Hlen in Hm. apply Hm; [split; [done|lia]|lia|]. intros Ea. specialize (Happ Ea). lia.
Qed.

Lemma kernel_write (s : Sys D) a fd path content off data :
  is_opened s a fd path content off -> a <> ReadOnly -> is_slice data -> data <> [] ->
  exists s' n, abi_write_fd clk fd (Some data) s = (s', n) /\
    (0 <= n -> n = blen data /\ is_opened s' a fd path (splice content off data) (off + blen data)).
Proof using SL Hclk.
  intros (i & index & name & Hi & Hz & Hf & Hr & Hh & Ho & Happ) Ha Hd Hne.
  pose proof (fd_index_bounds _ _ Hi) as [Hb _]. unfold abi_write_fd.
  rewrite resolve_fd_plain by done. unfold STDOUT_FD, STDERR_FD.
  destruct (Z.ltb_spec fd 0); [lia|]. destruct ((fd =? 1) || (fd =? 2)) eqn:E; [lia|].
  rewrite Hi, Hf. cbn [fd_open fd_flags fd_kind pfs_index negb orb].
  replace (flag_set (open_flags a) FD_WRITE) with true by by destruct a. cbn [negb].
  rewrite bool_decide_false by done. rewrite bool_decide_true by done. cbn [negb].
  by apply (write_file_spec s a fd path name index i).
Qed.

Lemma kernel_read (s : Sys D) a fd path content off n :
  is_opened s a fd path content off -> can_read a = true -> 0 <= n ->
  let got := take (Z.to_nat n) (drop (Z.to_nat off) content) in
  exists s', abi_read fd (Some n) s = (s', Some (blen got, got)) /\
    is_opened s' a fd path content (off + blen got).
Proof using SL.
  intros (i & index & name & Hi & Hz & Hf & Hr & Hh & Ho & Happ) Ha Hn got.
  pose proof (fd_index_bounds _ _ Hi) as [Hb _]. unfold abi_read.
  rewrite resolve_fd_plain by done. unfold STDIN_FD.
  destruct (Z.ltb_spec fd 0); [lia|]. destruct (Z.eqb_spec fd 0); [lia|].
  rewrite Hi, Hf. cbn [fd_open fd_flags fd_kind pfs_index negb].
  replace (flag_set (open_flags a) FD_READ) with true by by destruct a. cbn [negb].
  rewrite bool_decide_false by done. unfold read_file_fd. cbn [fd_len fd_offset fd_kind pfs_index].
  unfold saturating_sub. set (count := Z.min n (Z.max 0 (blen content - off))).
  assert (Hg : blen got = count) by (unfold got, count, blen in *; rewrite length_take, length_drop; lia).
  destruct (Z.eqb_spec count 0) as [Hc|Hc].
  - assert (got = []) as -> by (destruct got; [done|rewrite blen_cons in Hg; pose proof (blen_nonneg got); lia]).
    exists s. split; [done|]. unfold blen at 1. simpl length. rewrite Z.add_0_r. by exists i, index, name.
  - destruct (read_at_done (sys_disk s) name index content off count (proj1 Hh))
      as (d1 & E1 & Hs1 & Hh1); [unfold count in *; lia..|].
    unfold st_bind, on_disk. rewrite E1. cbn [fst snd negb].
    assert (Htake : take (Z.to_nat count) (drop (Z.to_nat off) content) = got).
    { unfold got, count in *. destruct (decide (n <= blen content - off)); [by rewrite Z.min_l by lia|].
      rewrite !take_ge; [done|rewrite length_drop; unfold blen in *; lia..]. }
    rewrite Htake, <- Hg. eexists. split; [done|].
    apply (moved_opened s a fd path name index i d1 content); try done;
      [by eapply holds_same| |by destruct a].
    pose proof (ss_max _ _ _ _ (proj1 Hh)) as Hm. rewrite PFS_FILE_MAX_eq in Hm. unfold count in *. lia.
Qed.

Lemma kernel_seek (s : Sys D) a fd path content off target :
  is_opened s a fd path content off -> a <> Appending -> 0 <= target < 2 ^ 63 ->
  exists s', abi_seek fd target s = (s', target) /\ is_opened s' a fd path content target.
Proof using.
  intros (i & index & name & Hi & Hz & Hf & Hr & Hh & Ho & Happ) Ha Ht.
  pose proof (fd_index_bounds _ _ Hi) as [Hb _]. unfold abi_seek, with_fds, fd_seek.
  destruct (Z.ltb_spec fd 0); [lia|]. rewrite Hi, Hf. cbn [fd_open fd_kind negb].
  rewrite bool_decide_false by done. cbn [andb].
  assert (Et : i64 target = target) by (unfold i64; rewrite Z.mod_small; lia). rewrite Et.
  eexists. split; [done|]. exists i, index, name. cbn [sys_fds sys_disk].
  pose proof (fd_index_bounds _ _ Hi) as [_ Hc].
  split_and!; [done|unfold fds_sized, set_fd; simpl; by rewrite length_insert|by apply fd_at_insert|
    exact Hr|exact Hh|lia|lia|done].
Qed.

Lemma kernel_close (s : Sys D) a fd path content off :
  is_opened s a fd path content off ->
  exists s', abi_close fd s = (s', 0) /\ is_named s' path content.
Proof using.
  intros (i & index & name & Hi & Hz & Hf & Hr & Hh & _ & _).
  pose proof (fd_index_bounds _ _ Hi) as [Hb Hc]. unfold abi_close, STDIN_FD, STDOUT_FD, STDERR_FD.
  destruct (Z.ltb_spec fd 0); [lia|].
  destruct ((fd =? 0) || (fd =? 1) || (fd =? 2)) eqn:E; [lia|].
  unfold with_fds, fd_close. rewrite Hi, Hf. cbn [fd_open negb].
  replace (close_pipe_end _ _) with (sys_fds s) by done.
  eexists. split; [done|]. exists index, name. cbn [sys_disk sys_fds].
  assert (Hz' : length (APP_FDS (set_fd i AppFd_empty (sys_fds s))) = APP_FD_COUNT)
    by (unfold set_fd; simpl; by rewrite length_insert).
  split_and!; [exact Hz'| |exact Hr|exact Hh].
  destruct (free_fd _) as [j|] eqn:Ef; [eauto|]. exfalso. unfold free_fd in Ef.
  apply find_first_none with (j := i) in Ef; [|done]. by rewrite fd_at_insert in Ef.
Qed.

End FileStore.

(** ** The instance *)

Section Instance.

Context {D : Type} `{SL : SectorLaws D} (clk : Clock) (Hclk : 0 <= BOOT_TSC clk).
Context (process_trampoline : Z) (others : ST (Sys D) unit) (fuel : nat).

#[local] Existing Instance RYMOS_ABI.

Lemma answers_always {A} (m : ST (Sys D) A) s s' a : m s = (s', a) -> answers (always m) s a s'.
Proof. unfold answers, always. by intros ->. Qed.

#[local] Instance kernel_table : RymosAbi (Sys D) := RYMOS_ABI clk process_trampoline others fuel.

#[export] Program Instance kernel_files : FileLaws (Sys D) :=
  { ready := is_ready; named := is_named; opened := is_opened }.
Next Obligation.
  intros s a fd path content off (i & index & name & Hi & _ & _ & _ & _ & Ho & Ha).
  apply fd_index_bounds in Hi. split; [lia|split; [lia|done]].
Qed.
Next Obligation.
  intros s a path Hr Ha. destruct (kernel_create clk Hclk s a path Hr Ha) as (s' & r & E & Hp).
  exists r, s'. split; [by apply answers_always|done].
Qed.
Next Obligation.
  intros s path content (index & name & Hz & Hf & Hr & Hh).
  destruct (open_existing clk s ReadOnly path name index content ltac:(done) Hz Hr Hh)
    as (s' & r & E & Hp1 & Hp2).
  exists r, s'. split; [by apply answers_always|auto].
Qed.
Next Obligation.
  intros s path content (index & name & Hz & Hf & Hr & Hh).
  destruct (open_existing clk s Appending path name index content ltac:(done) Hz Hr Hh)
    as (s' & r & E & Hp1 & Hp2).
  exists r, s'. split; [by apply answers_always|auto].
Qed.
Next Obligation.
  intros s a fd path content off data Ho Ha Hd Hne.
  destruct (kernel_write clk Hclk s a fd path content off data Ho Ha Hd Hne) as (s' & n & E & Hn).
  exists n, s'. split; [by apply answers_always|]. intros Hp. destruct (Hn Hp) as [-> Hop].
  rewrite take_ge by (unfold blen; lia). split; [|done]. pose proof (blen_nonneg data).
  destruct data; [done|]. rewrite blen_cons in *. pose proof (blen_nonneg data). lia.
Qed.
Next Obligation.
  intros s a fd path content off n Ho Ha Hn.
  destruct (kernel_read s a fd path content off n Ho Ha Hn) as (s' & E & Hop).
  by exists s'.
Qed.
Next Obligation.
  intros s a fd path content off target Ho Ha Ht.
  destruct (kernel_seek s a fd path content off target Ho Ha Ht) as (s' & E & Hop).
  exists s'. split; [by apply answers_always|done].
Qed.
Next Obligation.
  intros s a fd path content off Ho. destruct (kernel_close s a fd path content off Ho) as (s' & E & Hn).
  exists s'. split; [by apply answers_always|done].
Qed.
Next Obligation.
  intros s fd. destruct (abi_close fd s) as [s' r] eqn:E. exists r, s'. by apply answers_always.
Qed.
Next Obligation. intros s. by exists (abi_last_error s), s. Qed.

(** ** Properties *)

(** C1: [fs::write] of a program that names a file on a working, well-formed
    store always answers; when it answers [Ok], [fs::read] of the same path
    answers [Ok] with exactly the bytes written, through a fresh descriptor. *)
Theorem written_file_reads_back rounds (s : Sys D) path data :
  is_ready s path -> is_slice data -> (length data < rounds)%nat ->
  exists o s1, answers (UserFs.write path data) s o s1 /\
    (o = inr tt -> exists s2, answers (UserFs.read rounds path) s1 (inr data) s2).
Proof.
  intros Hr Hd Hf. change (ready s path) in Hr. destruct (write_law_whole s path data Hr Hd) as (o & s1 & H1 & Hn).
  exists o, s1. split; [exact H1|]. intros Ho.
  destruct (read_law_whole rounds s1 path data (Hn Ho) Hf) as (s2 & H2 & _). by exists s2.
Qed.

(** C2: [fs::append] to a file always answers; when it answers [Ok], the file
    reads as its old content followed by the new bytes. *)
Theorem append_extends_file rounds (s : Sys D) path content data :
  is_named s path content -> is_slice data -> (length (content ++ data) < rounds)%nat ->
  exists o s1, answers (UserFs.append path data) s o s1 /\
    (o = inr tt -> exists s2, answers (UserFs.read rounds path) s1 (inr (content ++ data)) s2).
Proof.
  intros Hr Hd Hf. change (named s path content) in Hr.
  destruct (append_law_whole s path content data Hr Hd) as (o & s1 & H1 & Hn).
  exists o, s1. split; [exact H1|]. intros Ho.
  destruct (read_law_whole rounds s1 path _ (Hn Ho) Hf) as (s2 & H2 & _). by exists s2.
Qed.

End Instance.

(** ** The process of AbiFsThm.v in [pfs:] on the disk that holds [f] *)

Lemma file_system_resolves : resolves file_system (bs "f") (bs "f").
Proof. by vm_compute. Qed.

Lemma file_system_ready : is_ready file_system (bs "f").
Proof.
  exists (bs "f"). split; [reflexivity|]. split; [exact file_system_resolves|].
  split; [exact disk_f_store|reflexivity].
Qed.

Lemma demo_slice : is_slice [104; 105].
Proof. split; [exact demo_data_u8|reflexivity]. Qed.

Lemma written_file_reads_back_witness :
  let table := RYMOS_ABI demo_clock 0 (fun s => (s, tt)) 0 in
  exists o s1, answers (@UserFs.write _ table (bs "f") [104; 105]) file_system o s1 /\
    (o = inr tt -> exists s2, answers (@UserFs.read _ table 3 (bs "f")) s1 (inr [104; 105]) s2).
Proof.
  exact (written_file_reads_back demo_clock demo_clock_ok 0 (fun s => (s, tt)) 0 3 file_system (bs "f")
    [104; 105] file_system_ready demo_slice ltac:(simpl; lia)).
Defined.

Lemma append_extends_file_witness :
  let table := RYMOS_ABI demo_clock 0 (fun s => (s, tt)) 0 in
  exists o s1, answers (@UserFs.append _ table (bs "f") [104; 105]) file_system o s1 /\
    (o = inr tt -> exists s2, answers (@UserFs.read _ table 3 (bs "f")) s1 (inr [104; 105]) s2).
Proof.
  refine (append_extends_file demo_clock demo_clock_ok 0 (fun s => (s, tt)) 0 3 file_system (bs "f")
    [] [104; 105] _ demo_slice ltac:(simpl; lia)).
  exists 0%nat, (bs "f"). split; [reflexivity|]. split; [by exists 0%nat|].
  split; [exact file_system_resolves|exact disk_f_holds].
Defined.
