(* ===== verification/UserCtx.v ===== *)
(** * Environment overrides are undone

    [EnvLaws] states what a program may rely on about its environment; EnvStore.v
    proves it of the kernel. From the laws: [apply_env_overrides] of
    [src/runtime/rymos-user/src/lib.rs] either fails and leaves every variable as
    it was, or records what [restore_env] needs to bring every variable back. *)

From S2P Require Import Prelude UserAbi UserIo UserFs UserCmd.
Import Consts.

(** One variable changed. *)
Definition changed (key : bytes) (value : option bytes) (m : bytes -> option bytes) : bytes -> option bytes :=
  fun k => if bool_decide (k = key) then value else m k.

(** The call that stores or removes a variable. *)
Definition call_override {S} `{RymosAbi S} (key : bytes) (value : option bytes) : Call S Z :=
  match value with Some v => call_env_set key v | None => call_env_remove key end.

Class EnvLaws (S : Type) `{RymosAbi S} : Type := {
  env_good : S -> Prop;
  var_of : S -> bytes -> option bytes;
  (** the key is recorded, so that it can be set again *)
  recorded : S -> bytes -> Prop;
  (** a value that can be stored *)
  storable : bytes -> Prop;
  var_storable s key v : env_good s -> var_of s key = Some v -> storable v /\ blen v <= 128;
  get_law s key :
    env_good s ->
    exists r s', answers (call_env_get key 128) s r s' /\ env_good s' /\
      (forall k, var_of s' k = var_of s k) /\ (forall k, recorded s k -> recorded s' k) /\
      match var_of s key with
      | Some v => r = (blen v, v)
      | None => fst r < 0
      end;
  override_law s key value :
    env_good s ->
    exists r s', answers (call_override key value) s r s' /\ env_good s' /\
      (forall k, recorded s k -> recorded s' k) /\
      (r = 0 -> recorded s' key /\ forall k, var_of s' k = changed key value (var_of s) k) /\
      (r <> 0 -> forall k, var_of s' k = var_of s k) /\
      (recorded s key -> (forall v, value = Some v -> storable v) -> r = 0);
  env_error_law s :
    env_good s ->
    exists code s', answers call_last_error s code s' /\ env_good s' /\
      (forall k, var_of s' k = var_of s k) /\ (forall k, recorded s k -> recorded s' k)
}.

Section UserCtx.

Context {S : Type} `{EnvLaws S}.

(** The environment of [s'] reads as [m], and what [s] had recorded still is. *)
Record env_step (s s' : S) (m : bytes -> option bytes) : Prop := {
  es_good : env_good s';
  es_vars : forall k, var_of s' k = m k;
  es_recorded : forall k, recorded s k -> recorded s' k
}.

Lemma env_step_trans s1 s2 s3 m1 m2 : env_step s1 s2 m1 -> env_step s2 s3 m2 -> env_step s1 s3 m2.
Proof. intros [_ _ R1] [G2 V2 R2]. split; auto. Qed.

Lemma changed_ext key value m m' k : (forall k, m k = m' k) -> changed key value m k = changed key value m' k.
Proof. intros Hm. unfold changed. by rewrite Hm. Qed.

(** ** What a list of restores brings back *)

Definition er_old (r : EnvRestore) : option bytes := if existed r then Some (er_value r) else None.

Fixpoint undo (l : list EnvRestore) (m : bytes -> option bytes) : bytes -> option bytes :=
  match l with
  | [] => m
  | r :: rest => undo rest (changed (er_key r) (er_old r) m)
  end.

Lemma undo_ext l m m' k : (forall k, m k = m' k) -> undo l m k = undo l m' k.
Proof.
  revert m m'. induction l as [|r l IH]; intros m m' Hm; simpl; [done|].
  apply IH. intros k'. by apply changed_ext.
Qed.

(** Restores that cannot fail in [s]. *)
Definition restorable (s : S) (r : EnvRestore) : Prop :=
  recorded s (er_key r) /\ (existed r = true -> storable (er_value r)).

Lemma restorable_mono s s' m r : env_step s s' m -> restorable s r -> restorable s' r.
Proof. intros [_ _ Hr] [H1 H2]. split; auto. Qed.

Lemma restore_one_law s r :
  env_good s -> restorable s r ->
  exists s', answers (restore_one r) s tt s' /\ env_step s s' (changed (er_key r) (er_old r) (var_of s)).
Proof.
  intros Hg [Hr Hs].
  destruct (override_law s (er_key r) (er_old r) Hg) as (c & s' & Ha & Hg' & Hm & Hok & _ & Hz).
  assert (c = 0) as ->.
  { apply Hz; [done|]. unfold er_old. destruct (existed r); [|done]. intros v [= <-]. auto. }
  exists s'. destruct (Hok eq_refl) as [_ Hv]. split; [|by split].
  unfold restore_one, er_old in *. destruct (existed r);
    (apply answers_bind; exists true, s'; rewrite answers_ret; split; [|done];
     apply answers_bind; exists 0, s'; by rewrite answers_ret).
Qed.

Lemma restore_each_law l s :
  env_good s -> Forall (restorable s) l ->
  exists s', answers (restore_each l) s tt s' /\ env_step s s' (undo l (var_of s)).
Proof.
  revert s. induction l as [|r l IH]; intros s Hg Hl; simpl.
  { exists s. rewrite answers_ret. split; [done|by split]. }
  apply Forall_cons in Hl as [Hr Hl]. destruct (restore_one_law s r Hg Hr) as (s1 & H1 & Hs1).
  destruct (IH s1 (es_good _ _ _ Hs1)) as (s2 & H2 & Hs2).
  { eapply Forall_impl; [exact Hl|]. intros x. by apply restorable_mono with (1 := Hs1). }
  exists s2. split; [apply answers_bind; by exists tt, s1|].
  destruct Hs1 as [_ V1 R1], Hs2 as [G2 V2 R2]. split; auto. intros k. rewrite V2. by apply undo_ext.
Qed.

(** ** Applying overrides *)

Lemma remember_law s key :
  env_good s ->
  exists r s', answers (remember key) s r s' /\ env_step s s' (var_of s) /\
    er_key r = key /\ er_old r = var_of s key /\ (existed r = true -> storable (er_value r)).
Proof.
  intros Hg. destruct (get_law s key Hg) as (r & s' & Ha & Hg' & Hv & Hr & Hm).
  assert (He : answers (env_get key (replicate 128 0)) s (var_of s key) s').
  { unfold env_get. apply answers_bind. exists r, s'. unfold blen at 1. rewrite length_replicate.
    split; [exact Ha|]. apply answers_ret. split; [|done]. unfold filled_opt, filled.
    destruct (var_of s key) as [v|] eqn:E.
    - subst r. cbn [fst snd]. destruct (var_storable s key v Hg E) as [_ Hl].
      destruct (Z.ltb_spec (blen v) 0); [unfold blen in *; lia|]. f_equal.
      unfold blen in *. rewrite length_replicate, take_app_length' by lia. done.
    - destruct (Z.ltb_spec (fst r) 0); [done|lia]. }
  eexists _, s'. split; [unfold remember; apply answers_bind; exists (var_of s key), s';
    split; [exact He|by apply answers_ret]|]. split; [by split|].
  destruct (var_of s key) as [v|] eqn:E; simpl; split_and!; try done.
  intros _. by apply (var_storable s key v Hg E).
Qed.

Lemma override_one_law s o :
  env_good s ->
  exists ok s', answers (override_one o) s ok s' /\
    (ok = true -> recorded s' (ce_key o)) /\
    env_step s s' (if ok : bool then changed (ce_key o) (ce_value o) (var_of s) else var_of s).
Proof.
  intros Hg. destruct (override_law s (ce_key o) (ce_value o) Hg) as (c & s' & Ha & Hg' & Hm & Hok & Hno & _).
  exists (c =? 0), s'. split.
  - unfold override_one, call_override in *. destruct (ce_value o);
      (unfold env_set, env_remove; apply answers_bind; exists c, s'; by rewrite answers_ret).
  - destruct (Z.eqb_spec c 0) as [Hc|Hc].
    + destruct (Hok Hc) as [R V]. split; [done|by split].
    + split; [done|]. specialize (Hno Hc). by split.
Qed.

(** Undoing after an override gives back what was there before it. *)
Lemma undo_changed key value m k : changed key (m key) (changed key value m) k = m k.
Proof. unfold changed. by destruct (bool_decide_reflect (k = key)) as [->|Hk]. Qed.

Lemma apply_from_law overrides restores s0 s :
  env_good s -> Forall (restorable s) restores ->
  (forall k, undo (rev restores) (var_of s) k = var_of s0 k) ->
  exists r s', answers (apply_from overrides restores) s r s' /\ env_good s' /\
    match r with
    | inl _ => forall k, var_of s' k = var_of s0 k
    | inr l => Forall (restorable s') l /\ forall k, undo (rev l) (var_of s') k = var_of s0 k
    end.
Proof.
  revert restores s. induction overrides as [|o rest IH]; intros restores s Hg Hl Hu; simpl.
  { exists (inr restores), s. by rewrite answers_ret. }
  destruct (remember_law s (ce_key o) Hg) as (r & s1 & H1 & S1 & K1 & O1 & V1).
  destruct (override_one_law s1 o (es_good _ _ _ S1)) as (ok & s2 & H2 & R2 & S2).
  assert (Hl2 : Forall (restorable s2) restores).
  { eapply Forall_impl; [exact Hl|]. intros x Hx. eapply restorable_mono; [exact S2|].
    by eapply restorable_mono. }
  destruct ok; simpl in S2.
  - destruct (IH (restores ++ [r]) s2) as (res & s3 & H3 & G3 & P3).
    + apply S2.
    + apply Forall_app. split; [done|]. constructor; [|done]. split; [|done]. rewrite K1. auto.
    + intros k. rewrite rev_app_distr. simpl. rewrite <- Hu. apply undo_ext. intros k'.
      rewrite K1, O1. rewrite (changed_ext _ _ _ _ k' (es_vars _ _ _ S2)).
      rewrite <- (es_vars _ _ _ S1 k'). rewrite <- (undo_changed (ce_key o) (ce_value o) (var_of s1)).
      by rewrite <- (es_vars _ _ _ S1 (ce_key o)).
    + exists res, s3. split; [|done]. apply answers_bind. exists r, s1. split; [done|].
      apply answers_bind. by exists true, s2.
  - destruct (env_error_law s2 (es_good _ _ _ S2)) as (code & s3 & H3 & G3 & V3 & R3).
    destruct (restore_each_law (rev restores) s3 G3) as (s4 & H4 & S4).
    { apply Forall_rev. eapply Forall_impl; [exact Hl2|]. intros x [X1 X2]. split; auto. }
    exists (inl code), s4. split.
    + apply answers_bind. exists r, s1. split; [done|]. apply answers_bind. exists false, s2.
      split; [done|]. apply answers_bind. exists code, s3. split; [done|]. apply answers_bind.
      exists tt, s4. by rewrite answers_ret.
    + split; [apply S4|]. intros k. rewrite (es_vars _ _ _ S4), <- Hu. apply undo_ext. intros k'.
      by rewrite V3, (es_vars _ _ _ S2), (es_vars _ _ _ S1).
Qed.

(** Applying overrides and undoing them later, whatever happened in between
    that kept the variables and the recorded keys. *)
Lemma overrides_undone overrides s :
  env_good s ->
  exists r s1, answers (apply_env_overrides overrides) s r s1 /\ env_good s1 /\
    match r with
    | inl _ => forall k, var_of s1 k = var_of s k
    | inr restores =>
        forall s2, env_step s1 s2 (var_of s1) ->
        exists s3, answers (restore_env restores) s2 tt s3 /\ forall k, var_of s3 k = var_of s k
    end.
Proof.
  intros Hg. destruct (apply_from_law overrides [] s s Hg) as (r & s1 & H1 & G1 & P1); [done|done|].
  exists r, s1. split; [done|]. split; [done|]. destruct r as [code|restores]; [done|].
  intros s2 S2. destruct P1 as [Hr Hu].
  destruct (restore_each_law (rev restores) s2 (es_good _ _ _ S2)) as (s3 & H3 & S3).
  { apply Forall_rev. eapply Forall_impl; [exact Hr|]. intros x. by eapply restorable_mono. }
  exists s3. split; [done|]. intros k. rewrite (es_vars _ _ _ S3), <- Hu. apply undo_ext.
  apply (es_vars _ _ _ S2).
Qed.

End UserCtx.
