(* ===== verification/EnvStore.v ===== *)
(** * The kernel keeps the environment laws

    [EnvLaws] of UserCtx.v, proved of the function table of KernelAbi.v. *)

From S2P Require UserCmd.
From S2P Require Import Prelude Constants Text Device AtaDisk BootFs Console Phys Paging Process Env Fd Abi AbiFs AbiProc KernelAbi UserAbi UserCtx.

(** A value that [abi_env_set] accepts. *)
Definition storable_value (v : bytes) : Prop := 1 <= blen v <= APP_ENV_VALUE_MAX.

(** The overrides of a process hold valid keys and values. *)
Record overlay_ok (e : list AppEnvVar) : Prop := {
  ov_wf : env_wf e;
  ov_keys : forall i v, e !! i = Some v -> env_used v = true -> env_key_bad (env_key v) [] = false;
  ov_values : forall i v, e !! i = Some v -> env_used v = true -> env_deleted v = false ->
    storable_value (env_value v)
}.

Definition has_entry (key : bytes) (e : list AppEnvVar) : Prop := is_Some (overlay_find key e).

(** ** The lookup *)

Lemma static_lookup_in key l v : static_lookup key l = Some v -> In (key, v) l.
Proof.
  induction l as [|[k w] l IH]; simpl; [done|]. destruct (bytes_eq k key) eqn:E.
  - apply bytes_eq_spec in E as ->. intros [= ->]. by left.
  - intros Hs. right. auto.
Qed.

Lemma static_entries : Forall (fun kv => env_key_bad (fst kv) [] = false /\ storable_value (snd kv)) ENV.
Proof. repeat constructor; vm_compute; done. Qed.

Lemma lookup_ok key e v :
  overlay_ok e -> env_lookup key e = Some v -> env_key_bad key [] = false /\ storable_value v.
Proof.
  intros [Hw Hk Hv]. unfold env_lookup. destruct (overlay_find key e) as [w|] eqn:E.
  - apply overlay_find_some in E as (i & Hi & He). apply entry_is_true in He as [Hu <-].
    destruct (env_deleted w) eqn:Ed; [done|]. intros [= <-]. eauto.
  - intros Hs. apply static_lookup_in in Hs. pose proof static_entries as Ha.
    rewrite List.Forall_forall in Ha. exact (Ha _ Hs).
Qed.

Lemma bad_key_value key v : env_key_bad key [] = false -> blen v <= APP_ENV_VALUE_MAX -> env_key_bad key v = false.
Proof.
  unfold env_key_bad. rewrite !orb_false_iff. intros [[[-> ->] _] ->] Hv. split_and!; try done.
  apply Z.ltb_ge. done.
Qed.

Lemma bad_key_nil key v : env_key_bad key v = false -> env_key_bad key [] = false /\ blen v <= APP_ENV_VALUE_MAX.
Proof.
  unfold env_key_bad. rewrite !orb_false_iff. intros [[[-> ->] Hv] ->]. by apply Z.ltb_ge in Hv.
Qed.

Lemma key_slice key : env_key_bad key [] = false -> checked_app_slice (Some key) = Some key.
Proof.
  unfold env_key_bad, checked_app_slice, APP_ENV_KEY_MAX, INPUT_MAX. rewrite !orb_false_iff.
  intros [[[He Hl] _] _]. apply bytes_eq_false in He. apply Z.ltb_ge in Hl.
  destruct ((blen key =? 0) || (128 <? blen key)) eqn:E; [|done]. exfalso.
  destruct key; [done|]. rewrite blen_cons in *. pose proof (blen_nonneg key). lia.
Qed.

Lemma checked_slice_same o l : checked_app_slice o = Some l -> o = Some l /\ 1 <= blen l.
Proof.
  unfold checked_app_slice. destruct o as [x|]; [|done].
  destruct ((blen x =? 0) || _) eqn:E; [done|]. intros [= ->]. apply orb_false_iff in E as [E _].
  split; [done|]. apply Z.eqb_neq in E. pose proof (blen_nonneg l). lia.
Qed.

(** ** Changing the table *)

Lemma set_overlay_ok key value deleted e slot :
  overlay_ok e -> env_key_bad key value = false -> (deleted = false -> 1 <= blen value) ->
  env_wf (<[slot := mkEnvVar true deleted key value]> e) ->
  overlay_ok (<[slot := mkEnvVar true deleted key value]> e).
Proof.
  intros [Hw Hk Hv] Hb Hl Hw'. apply bad_key_nil in Hb as [Hb Hmax]. split; [done|..].
  - intros i v Hi Hu. apply list_lookup_insert_Some in Hi as [(_ & <- & _)|(_ & Hi)]; [done|eauto].
  - intros i v Hi Hu Hd. apply list_lookup_insert_Some in Hi as [(_ & <- & _)|(_ & Hi)]; [|eauto].
    simpl in *. split; auto.
Qed.

Lemma entry_key key e : overlay_ok e -> has_entry key e -> env_key_bad key [] = false.
Proof.
  intros Ho [v Hv]. apply overlay_find_some in Hv as (i & Hi & He).
  apply entry_is_true in He as [Hu <-]. by eapply (ov_keys _ Ho).
Qed.

(** A successful change, seen through the lookups. *)
Lemma set_lookups key value deleted e e' :
  overlay_ok e -> (deleted = false -> 1 <= blen value) ->
  env_set_overlay key value deleted e = inr e' ->
  overlay_ok e' /\ has_entry key e' /\ (forall k, has_entry k e -> has_entry k e') /\
  forall k, env_lookup k e' = changed key (if deleted then None else Some value) (fun k => env_lookup k e) k.
Proof.
  intros Ho Hl He. pose proof (env_set_spec e key value deleted (ov_wf _ Ho)) as Hs. rewrite He in Hs.
  destruct Hs as (slot & Hlt & Hb & -> & Hw & Hsame & Hother). split_and!.
  - by apply set_overlay_ok.
  - unfold has_entry. rewrite Hsame. eauto.
  - intros k Hk. unfold has_entry. destruct (decide (k = key)) as [->|Hne]; [rewrite Hsame; eauto|].
    by rewrite Hother.
  - intros k. unfold changed, env_lookup. destruct (bool_decide_reflect (k = key)) as [->|Hne].
    + rewrite Hsame. by destruct deleted.
    + by rewrite Hother.
Qed.

(** A recorded key can always be set to a value that fits. *)
Lemma set_recorded key value deleted e :
  overlay_ok e -> has_entry key e -> blen value <= APP_ENV_VALUE_MAX ->
  exists e', env_set_overlay key value deleted e = inr e'.
Proof.
  intros Ho Hh Hl. pose proof (entry_key key e Ho Hh) as Hk. pose proof (bad_key_value _ _ Hk Hl) as Hb.
  pose proof (env_set_spec e key value deleted (ov_wf _ Ho)) as Hs.
  destruct (env_set_overlay key value deleted e) as [err|e']; [|eauto].
  destruct Hs as [[_ Hs]|(_ & _ & Hs)]; [congruence|]. destruct Hh as [v Hv].
  apply overlay_find_some in Hv as (i & Hi & He). apply entry_is_true in He as [_ He].
  by destruct (Hs i v Hi).
Qed.

(** ** The calls *)

Section EnvStore.

Context {D : Type} `{SectorDev D} (clk : Clock).
Context (process_trampoline : Z) (others : ST (Sys D) unit) (fuel : nat).

#[local] Instance env_table : RymosAbi (Sys D) := RYMOS_ABI clk process_trampoline others fuel.

Record is_env_good (s : Sys D) : Prop := {
  eg_cur : (CURRENT_PROCESS_INDEX (sys_kern s) < length (PROCESS_TABLE (sys_kern s)))%nat;
  eg_overlay : overlay_ok (env (cur_proc s))
}.

Definition lookup_var (s : Sys D) (key : bytes) : option bytes := env_lookup key (env (cur_proc s)).

Lemma cur_update (s : Sys D) f :
  (CURRENT_PROCESS_INDEX (sys_kern s) < length (PROCESS_TABLE (sys_kern s)))%nat ->
  cur_proc (update_cur f s) = f (cur_proc s).
Proof.
  intros Hi. unfold cur_proc, update_cur, update_proc, proc. simpl.
  rewrite list_lookup_alter, decide_True by done. by destruct (lookup_lt_is_Some_2 _ _ Hi) as [p ->].
Qed.

Lemma update_good (s : Sys D) f :
  is_env_good s -> overlay_ok (env (f (cur_proc s))) -> is_env_good (update_cur f s).
Proof.
  intros [Hc _] Ho. split.
  - unfold update_cur, update_proc. simpl. by rewrite length_alter.
  - by rewrite cur_update.
Qed.

(** Calls that only touch the error number. *)
Lemma quiet_env (s : Sys D) f :
  is_env_good s -> (forall p, env (f p) = env p) ->
  is_env_good (update_cur f s) /\ env (cur_proc (update_cur f s)) = env (cur_proc s).
Proof.
  intros Hg Hf. split; [apply update_good; [done|]; rewrite Hf; apply Hg|].
  by rewrite cur_update, Hf by apply Hg.
Qed.

(** Names the two facts about a call that only touches the error number. *)
Ltac quiet s Hg Q1 Q2 :=
  match goal with
  | |- context [update_cur ?f s] => destruct (quiet_env s f Hg (fun p => eq_refl)) as [Q1 Q2]
  end.

Lemma kernel_get (s : Sys D) key :
  is_env_good s ->
  exists r s', abi_env_get (Some key) (Some 128) s = (s', r) /\ is_env_good s' /\
    env (cur_proc s') = env (cur_proc s) /\
    match lookup_var s key with Some v => r = (blen v, v) | None => fst r < 0 end.
Proof.
  intros Hg. unfold abi_env_get, st_bind, get, set_app_error, clear_app_error, st_ret, lookup_var.
  destruct (checked_app_slice (Some key)) as [key'|] eqn:Ec.
  - apply checked_slice_same in Ec as [[= ->] _].
    destruct (env_lookup key' (env (cur_proc s))) as [v|] eqn:El.
    + destruct (lookup_ok _ _ _ (eg_overlay _ Hg) El) as [_ Hv]. unfold storable_value, APP_ENV_VALUE_MAX in Hv.
      eexists _, _. split; [done|]. quiet s Hg Hq1 Hq2.
      split; [exact Hq1|]. split; [exact Hq2|]. rewrite Z.min_r by lia.
      by rewrite take_ge by (unfold blen; lia).
    + eexists _, _. split; [done|]. quiet s Hg Hq1 Hq2.
      split; [exact Hq1|]. by split.
  - eexists _, _. split; [done|]. quiet s Hg Hq1 Hq2.
    split; [exact Hq1|]. split; [exact Hq2|].
    destruct (env_lookup key (env (cur_proc s))) as [v|] eqn:El; [|done].
    destruct (lookup_ok _ _ _ (eg_overlay _ Hg) El) as [Hk _]. by rewrite (key_slice key Hk) in Ec.
Qed.

(** What an override does to the table of the current process. *)
Definition override_post (key : bytes) (value : option bytes) (s s' : Sys D) (r : Z) : Prop :=
  is_env_good s' /\ (forall k, has_entry k (env (cur_proc s)) -> has_entry k (env (cur_proc s'))) /\
  (r = 0 -> has_entry key (env (cur_proc s')) /\
    forall k, lookup_var s' k = changed key value (lookup_var s) k) /\
  (r <> 0 -> forall k, lookup_var s' k = lookup_var s k) /\
  (has_entry key (env (cur_proc s)) -> (forall v, value = Some v -> storable_value v) -> r = 0).

Lemma error_post key value (s : Sys D) e :
  is_env_good s -> (has_entry key (env (cur_proc s)) -> (forall v, value = Some v -> storable_value v) -> False) ->
  exists s', set_app_error e s = (s', -1) /\ override_post key value s s' (-1).
Proof.
  intros Hg Hno. eexists. split; [done|]. quiet s Hg Hq1 Hq2.
  unfold override_post, lookup_var. rewrite Hq2. split_and!; [exact Hq1|done|done|done|].
  intros Hh Hs. by destruct (Hno Hh Hs).
Qed.

Lemma overlay_post key value deleted (s : Sys D) :
  is_env_good s -> (deleted = false -> 1 <= blen value) -> (deleted = true -> value = []) ->
  exists s' r, set_overlay key value deleted s = (s', r) /\
    override_post key (if deleted then None else Some value) s s' r.
Proof.
  intros Hg Hl Hd. unfold set_overlay.
  destruct (env_set_overlay key value deleted (env (cur_proc s))) as [err|e'] eqn:E.
  - destruct (error_post key (if deleted then None else Some value) s err Hg) as (s' & Es & Hp).
    + intros Hh Hs. destruct (set_recorded key value deleted _ (eg_overlay _ Hg) Hh) as [e' E']; [|congruence].
      destruct deleted; [rewrite (Hd eq_refl); done|apply (Hs value eq_refl)].
    + exists s', (-1). by split.
  - destruct (set_lookups key value deleted _ _ (eg_overlay _ Hg) Hl E) as (L1 & L2 & L3 & L4).
    unfold ok_code, st_bind, clear_app_error, st_ret. eexists _, _. split; [done|].
    set (s1 := update_cur (fun p => {| p with env := e' |}) s).
    assert (G1 : is_env_good s1) by by apply update_good.
    assert (E1 : env (cur_proc s1) = e') by (unfold s1; by rewrite cur_update by apply Hg).
    quiet s1 G1 Q1 Q2.
    unfold override_post, lookup_var. rewrite Q2, E1. split_and!; [exact Q1|done|done|done|done].
Qed.

Lemma kernel_override (s : Sys D) key value :
  is_env_good s ->
  exists r s', answers (call_override key value) s r s' /\ override_post key value s s' r.
Proof.
  intros Hg. unfold answers.
  assert (Hbad : checked_app_slice (Some key) = None -> ~ has_entry key (env (cur_proc s))).
  { intros Hc Hh. apply (entry_key _ _ (eg_overlay _ Hg)), key_slice in Hh. congruence. }
  destruct value as [v|]; simpl; unfold always, abi_env_set, abi_env_remove.
  - destruct (checked_app_slice (Some key)) as [k|] eqn:Ek.
    2: { destruct (error_post key (Some v) s ERR_INVAL Hg) as (s' & -> & Hp); [naive_solver|]. by exists (-1), s'. }
    apply checked_slice_same in Ek as [[= <-] _].
    destruct (checked_app_slice (Some v)) as [w|] eqn:Ev.
    2: { destruct (error_post key (Some v) s ERR_INVAL Hg) as (s' & -> & Hp); [|by exists (-1), s'].
         intros _ Hs. specialize (Hs v eq_refl). unfold storable_value, APP_ENV_VALUE_MAX in Hs.
         unfold checked_app_slice, INPUT_MAX in Ev. destruct ((blen v =? 0) || (128 <? blen v)) eqn:E; [lia|done]. }
    apply checked_slice_same in Ev as [[= <-] Hl].
    destruct (overlay_post key v false s Hg) as (s' & r & -> & Hp); [done|done|]. by exists r, s'.
  - destruct (checked_app_slice (Some key)) as [k|] eqn:Ek.
    2: { destruct (error_post key None s ERR_INVAL Hg) as (s' & -> & Hp); [naive_solver|]. by exists (-1), s'. }
    apply checked_slice_same in Ek as [[= <-] _].
    destruct (overlay_post key [] true s Hg) as (s' & r & -> & Hp); [done|done|]. by exists r, s'.
Qed.

#[export] Program Instance kernel_env : EnvLaws (Sys D) :=
  { env_good := is_env_good; var_of := lookup_var;
    recorded s key := has_entry key (env (cur_proc s)); storable := storable_value }.
Next Obligation.
  intros s key v Hg Hv. destruct (lookup_ok _ _ _ (eg_overlay _ Hg) Hv) as [_ Hs]. split; [done|].
  unfold storable_value, APP_ENV_VALUE_MAX in Hs. lia.
Qed.
Next Obligation.
  intros s key Hg. destruct (kernel_get s key Hg) as (r & s' & E & G & He & Hr). exists r, s'.
  unfold answers. simpl. unfold always, lookup_var in *. rewrite E, He. by split_and!.
Qed.
Next Obligation.
  intros s key value Hg. destruct (kernel_override s key value Hg) as (r & s' & E & G & H1 & H2 & H3 & H4).
  by exists r, s'.
Qed.
Next Obligation. intros s Hg. by exists (abi_last_error s), s. Qed.

(** ** Property *)

(** C15: [apply_env_overrides] always answers. When it answers an error, every
    variable of the process reads as before; when it succeeds, [restore_env] with
    its answer, in any later state with the same environment, makes every variable
    read as before the overrides, whether they set or removed it. *)
Theorem env_overrides_undone overrides (s : Sys D) :
  is_env_good s ->
  exists r s1, answers (UserCmd.apply_env_overrides overrides) s r s1 /\ is_env_good s1 /\
    match r with
    | inl _ => forall k, lookup_var s1 k = lookup_var s k
    | inr restores =>
        forall s2, is_env_good s2 -> env (cur_proc s2) = env (cur_proc s1) ->
        exists s3, answers (UserCmd.restore_env restores) s2 tt s3 /\
          forall k, lookup_var s3 k = lookup_var s k
    end.
Proof.
  intros Hg. change (env_good s) in Hg. destruct (overrides_undone overrides s Hg) as (r & s1 & H1 & G1 & Hr).
  exists r, s1. split; [exact H1|]. split; [exact G1|]. destruct r as [code|restores]; [exact Hr|].
  intros s2 G2 E2. apply Hr. split.
  - exact G2.
  - intros k. simpl. unfold lookup_var. by rewrite E2.
  - intros k. simpl. by rewrite E2.
Qed.

End EnvStore.

(** A process whose environment has no overrides yet. *)
Definition env_system : Sys Ata :=
  let v := mkVm phys_empty zeroed 0x1000 0x1000 in
  let k := Kernel_new v in
  let k := update_proc 0 (fun p => {| p with env := replicate APP_ENV_COUNT AppEnvVar_empty |}) k in
  let k := {| k with CURRENT_PROCESS_INDEX := 0%nat |} in
  mkSys k fds_empty (BootFs_new 0 0 zeroed) None [] ata_blank.

Lemma no_overrides_ok : overlay_ok (replicate APP_ENV_COUNT AppEnvVar_empty).
Proof.
  split; [split; [by rewrite length_replicate|]|..].
  - intros i j v w Hv. apply lookup_replicate in Hv as [-> _]. done.
  - intros i v Hv. apply lookup_replicate in Hv as [-> _]. done.
  - intros i v Hv. apply lookup_replicate in Hv as [-> _]. done.
Qed.

Lemma env_overrides_undone_witness :
  let table := RYMOS_ABI (D := Ata) (mkClock 1 0 0) 0 (fun s => (s, tt)) 0 in
  let overrides := [UserCmd.mkCommandEnv (bs "HOME") None; UserCmd.mkCommandEnv (bs "X") (Some (bs "1"))] in
  exists restores s1 s3,
    answers (@UserCmd.apply_env_overrides _ table overrides) env_system (inr restores) s1 /\
    lookup_var s1 (bs "HOME") = None /\ lookup_var s1 (bs "X") = Some (bs "1") /\
    answers (@UserCmd.restore_env _ table restores) s1 tt s3 /\
    forall k, lookup_var s3 k = lookup_var env_system k.
Proof.
  cbv zeta. set (table := RYMOS_ABI (mkClock 1 0 0) 0 (fun s : Sys Ata => (s, tt)) 0).
  set (overrides := [UserCmd.mkCommandEnv (bs "HOME") None; UserCmd.mkCommandEnv (bs "X") (Some (bs "1"))]).
  assert (G : is_env_good env_system) by (split; [apply Nat.ltb_lt; reflexivity|exact no_overrides_ok]).
  destruct (env_overrides_undone (mkClock 1 0 0) 0 (fun s => (s, tt)) 0 overrides env_system G)
    as (r & s1 & H1 & G1 & Hr).
  assert (E : snd (@UserCmd.apply_env_overrides _ table overrides env_system) = Some (inr
     [UserCmd.mkEnvRestore (bs "HOME") true (bs "/"); UserCmd.mkEnvRestore (bs "X") false []])) by (vm_compute; reflexivity).
  pose proof (eq_trans (eq_sym E) (f_equal snd H1)) as E2. cbn [snd] in E2. injection E2 as <-.
  assert (F : fst (@UserCmd.apply_env_overrides _ table overrides env_system) = s1) by exact (f_equal fst H1).
  destruct (Hr s1 G1 eq_refl) as (s3 & H3 & H4). eexists _, s1, s3.
  split; [exact H1|]. rewrite <- F at 1 2. split; [vm_compute; reflexivity|]. split; [vm_compute; reflexivity|].
  by split.
Defined.
