(* ===== verification/UserHeap.v ===== *)
(** * The program's heap

    The bump allocator of [src/runtime/rymos-user/src/lib.rs] ([BumpAllocator],
    [align_up], [heap_base], [heap_size]), and what it promises when the pages it
    is granted are promised by [PageLaws]; HeapStore.v proves those of the kernel.
    [dealloc] does nothing, so a block is never handed out again. *)

From S2P Require Import Prelude UserAbi UserIo.
Import Consts.

Record BumpAllocator : Type := mkBump { base : Z; next : Z; end_ : Z; allocated : Z }.

Definition ALLOCATOR : BumpAllocator := mkBump 0 0 0 0.

(** [(value + align - 1) & !(align - 1)] *)
Definition align_up (value align : Z) : Z := Z.ldiff (u64 (value + align - 1)) (align - 1).

Definition heap_base (a : BumpAllocator) : Z := base a.
Definition heap_size (a : BumpAllocator) : Z := allocated a.

Section Alloc.

Context {S : Type} `{RymosAbi S}.

(** [alloc]; the address 0 is [null_mut()]. *)
Definition alloc (size align : Z) (a : BumpAllocator) : Call S (BumpAllocator * Z) :=
  let aligned := align_up (next a) align in
  match checked64 (aligned + size) with
  | None => call_ret (a, 0)
  | Some end' =>
      if end' <=? end_ a then call_ret ({| a with next := end' |}, aligned)
      else
        match checked64 (size + align) with
        | None => call_ret (a, 0)
        | Some chunk_size =>
            let pages := align_up (Z.max chunk_size MIN_HEAP_CHUNK) PAGE_SIZE / PAGE_SIZE in
            let& r := mem_alloc_pages pages in
            match r with
            | None => call_ret (a, 0)
            | Some b =>
                let chunk_end := u64 (b + pages * PAGE_SIZE) in
                let aligned := align_up b align in
                match checked64 (aligned + size) with
                | None => call_ret (a, 0)
                | Some end' =>
                    if chunk_end <? end' then call_ret (a, 0)
                    else
                      call_ret (mkBump (if base a =? 0 then b else base a) end' chunk_end
                                  (u64 (allocated a + pages * PAGE_SIZE)), aligned)
                end
            end
        end
  end.

(** A sequence of requests, and the addresses they were answered with. *)
Fixpoint alloc_all (layouts : list (Z * Z)) (a : BumpAllocator) : Call S (BumpAllocator * list Z) :=
  match layouts with
  | [] => call_ret (a, [])
  | (size, align) :: rest =>
      let& r := alloc size align a in
      let& rs := alloc_all rest (fst r) in
      call_ret (fst rs, snd r :: snd rs)
  end.

(** The panic handler reports and does not return. *)
Definition panic {A} : Call S A := do& println (bs "program panic") in st_ret None.

(** The requests of a growing buffer: a refused one panics. *)
Fixpoint grow_buffer (layouts : list (Z * Z)) (a : BumpAllocator) : Call S BumpAllocator :=
  match layouts with
  | [] => call_ret a
  | (size, align) :: rest =>
      let& r := alloc size align a in
      if snd r =? 0 then panic else grow_buffer rest (fst r)
  end.

End Alloc.

(** ** Address ranges *)

(** A range is its first address and its length. *)
Definition disjoint_ranges (x y : Z * Z) : Prop := fst x + snd x <= fst y \/ fst y + snd y <= fst x.

Definition inside (x y : Z * Z) : Prop := fst y <= fst x /\ fst x + snd x <= fst y + snd y.

Fixpoint all_disjoint (l : list (Z * Z)) : Prop :=
  match l with
  | [] => True
  | x :: rest => Forall (disjoint_ranges x) rest /\ all_disjoint rest
  end.

Lemma disjoint_sym x y : disjoint_ranges x y -> disjoint_ranges y x.
Proof. unfold disjoint_ranges. tauto. Qed.

Lemma all_disjoint_perm l l' : l ≡ₚ l' -> all_disjoint l -> all_disjoint l'.
Proof.
  induction 1 as [|x l l' Hp IH|x y l|l l' l'' _ IH1 _ IH2]; simpl; try tauto.
  - intros [Hx Ha]. split; [by rewrite <- Hp|by apply IH].
  - rewrite !Forall_cons. intros ([Hs Hy] & Hx & Ha). apply disjoint_sym in Hs. done.
Qed.

(** No granted memory lies above this address. *)
Definition heap_top : Z := 2 ^ 64 - 2 ^ 46.

(** A request that [GlobalAlloc::alloc] admits (a size that is not zero, and a
    power of two as alignment that rounds it up to at most [isize::MAX]), with an
    alignment that cannot carry an address past the end of the address space. *)
Definition layout_ok (size align : Z) : Prop :=
  0 < size /\ (exists k, 0 <= k <= 46 /\ align = 2 ^ k) /\ size + align <= 2 ^ 63.

Class PageLaws (S : Type) `{RymosAbi S} : Type := {
  pages_good : S -> Prop;
  (** the ranges of memory the program has been granted *)
  granted : S -> list (Z * Z);
  grant_law s n :
    pages_good s -> 0 <= n ->
    exists r s', answers (call_mem_alloc_pages n) s r s' /\ pages_good s' /\
      ((r = 0 /\ granted s' ≡ₚ granted s) \/
       (0 < r /\ 0 < n /\ r mod PAGE_SIZE = 0 /\ r + n * PAGE_SIZE <= heap_top /\
        granted s' ≡ₚ (r, n * PAGE_SIZE) :: granted s /\
        Forall (disjoint_ranges (r, n * PAGE_SIZE)) (granted s)))
}.

(** ** Arithmetic *)

Lemma align_up_spec v align :
  (exists k, 0 <= k /\ align = 2 ^ k) -> 0 <= v -> v + align <= 2 ^ 64 ->
  v <= align_up v align < v + align /\ align_up v align mod align = 0.
Proof.
  intros (k & Hk & ->) Hv Hl. unfold align_up. pose proof (Z.pow_pos_nonneg 2 k ltac:(lia) Hk).
  rewrite u64_small by (unfold is_u64; lia).
  replace (2 ^ k - 1) with (Z.ones k) by (rewrite Z.ones_equiv; lia).
  rewrite Z.ldiff_ones_r, Z.shiftl_mul_pow2, Z.shiftr_div_pow2 by done.
  set (q := (v + 2 ^ k - 1) / 2 ^ k). split; [|apply Z.mod_mul; lia].
  pose proof (Z.div_mod (v + 2 ^ k - 1) (2 ^ k) ltac:(lia)).
  pose proof (Z.mod_pos_bound (v + 2 ^ k - 1) (2 ^ k) ltac:(lia)). fold q in H0. lia.
Qed.

Lemma checked64_some x : 0 <= x < 2 ^ 64 -> checked64 x = Some x.
Proof. intros Hx. unfold checked64. by destruct (Z.ltb_spec x 18446744073709551616); [|lia]. Qed.

(** The pages of a chunk cover it. *)
Lemma chunk_pages c :
  0 < c <= 2 ^ 63 ->
  let pages := align_up (Z.max c MIN_HEAP_CHUNK) PAGE_SIZE / PAGE_SIZE in
  0 < pages /\ c <= pages * PAGE_SIZE.
Proof.
  intros Hc pages. unfold MIN_HEAP_CHUNK, PAGE_SIZE in *.
  destruct (align_up_spec (Z.max c (64 * 1024)) 4096) as [Ha Hm]; [by exists 12|lia|lia|].
  subst pages. zlia.
Qed.

(** ** The allocator's invariant *)

Section Heap.

Context {S : Type} `{PageLaws S}.

(** [blocks] are the ranges handed out so far. *)
Record heap_ok (s : S) (a : BumpAllocator) (blocks : list (Z * Z)) : Prop := {
  hk_good : pages_good s;
  hk_next : 0 <= next a <= end_ a /\ end_ a <= heap_top;
  hk_free : next a = end_ a \/ exists g, g ∈ granted s /\ inside (next a, end_ a - next a) g;
  hk_pos : next a < end_ a -> 0 < next a;
  hk_in : Forall (fun b => 0 < fst b /\ exists g, g ∈ granted s /\ inside b g) blocks;
  hk_apart : all_disjoint blocks;
  hk_unused : Forall (disjoint_ranges (next a, end_ a - next a)) blocks
}.

(** The granted ranges only grow. *)
Lemma inside_grown s s' b :
  granted s ⊆ granted s' -> (exists g, g ∈ granted s /\ inside b g) ->
  exists g, g ∈ granted s' /\ inside b g.
Proof. intros Hs (g & Hg & Hb). exists g. split; [by apply Hs|done]. Qed.

Lemma heap_ok_grown s s' a blocks :
  pages_good s' -> granted s ⊆ granted s' -> heap_ok s a blocks -> heap_ok s' a blocks.
Proof.
  intros Hg Hs [_ Hn Hf Hp Hi Ha Hu]. split; try done.
  - destruct Hf as [Hf|Hf]; [by left|right]. by eapply inside_grown.
  - eapply Forall_impl; [exact Hi|]. intros b [Hb Hg']. split; [done|]. by eapply inside_grown.
Qed.

Lemma heap_fresh s : pages_good s -> heap_ok s ALLOCATOR [].
Proof. intros Hg. split; simpl; try done; try lia. Qed.

(** Taking a block off the front of the current chunk. *)
Lemma heap_take s a blocks addr size :
  heap_ok s a blocks -> 0 < size -> next a <= addr -> addr + size <= end_ a ->
  heap_ok s {| a with next := addr + size |} ((addr, size) :: blocks) /\ 0 < addr.
Proof.
  intros [Hg Hn Hf Hp Hi Ha Hu] Hs H1 H2. split; [|lia].
  assert (Hsub : Forall (disjoint_ranges (addr, size)) blocks).
  { eapply Forall_impl; [exact Hu|]. unfold disjoint_ranges. simpl. intros b. lia. }
  destruct Hf as [Hf|(g & Hg' & Hin)]; [lia|].
  unfold inside in Hin. simpl in Hin.
  split; simpl; try done; try lia.
  - right. exists g. unfold inside. simpl. split; [done|lia].
  - constructor; [|done]. split; [simpl; lia|]. exists g. unfold inside. simpl. split; [done|lia].
  - constructor; [unfold disjoint_ranges; simpl; lia|].
    eapply Forall_impl; [exact Hu|]. unfold disjoint_ranges. simpl. intros b. lia.
Qed.

(** Starting a chunk in a fresh range. *)
Lemma heap_chunk s s' a blocks b n x alloc' :
  heap_ok s a blocks -> pages_good s' -> 0 < b -> 0 <= n -> b + n <= heap_top ->
  granted s' ≡ₚ (b, n) :: granted s -> Forall (disjoint_ranges (b, n)) (granted s) ->
  heap_ok s' (mkBump x b (b + n) alloc') blocks.
Proof.
  intros [Hg Hn Hf Hp Hi Ha Hu] Hg' Hb Hn0 Hl Hperm Hd.
  assert (Hsub : granted s ⊆ granted s') by (intros g Hx; rewrite Hperm; by right).
  split; simpl; try done; try lia.
  - right. exists (b, n). rewrite Hperm. split; [by left|]. unfold inside. simpl. lia.
  - eapply Forall_impl; [exact Hi|]. intros r [Hr Hin]. split; [done|]. by eapply inside_grown.
  - eapply Forall_impl; [exact Hi|]. intros r [Hr (g & Hgr & Hin)].
    rewrite Forall_forall in Hd. specialize (Hd g Hgr).
    unfold disjoint_ranges, inside in *. simpl in *. lia.
Qed.

Lemma mem_alloc_pages_law s n :
  pages_good s -> 0 <= n ->
  exists r s', answers (mem_alloc_pages n) s r s' /\ pages_good s' /\
   match r with
    | None => granted s' ≡ₚ granted s
    | Some b => 0 < b /\ 0 < n /\ b mod PAGE_SIZE = 0 /\ b + n * PAGE_SIZE <= heap_top /\
       granted s' ≡ₚ (b, n * PAGE_SIZE) :: granted s /\
       Forall (disjoint_ranges (b, n * PAGE_SIZE)) (granted s)
    end.
Proof.
  intros Hg Hn. destruct (grant_law s n Hg Hn) as (r & s' & Ha & Hg' & Hr).
  exists (nonzero r), s'. split.
  { unfold mem_alloc_pages. apply answers_bind. exists r, s'. by rewrite answers_ret. }
  split; [done|]. unfold nonzero. destruct Hr as [[-> Hr]|Hr]; [done|].
  destruct (Z.eqb_spec r 0); [lia|done].
Qed.

(** One request. *)
Lemma alloc_law size align s a blocks :
  layout_ok size align -> heap_ok s a blocks ->
  exists a' addr s', answers (alloc size align a) s (a', addr) s' /\ granted s ⊆ granted s' /\
   ((addr = 0 /\ heap_ok s' a' blocks) \/
     (0 < addr /\ addr mod align = 0 /\ heap_ok s' a' ((addr, size) :: blocks))).
Proof.
  intros (Hs & (k & Hk & Hka) & Hsa) Ho. pose proof (hk_next _ _ _ Ho) as [Hn He].
  assert (Hal : exists k, 0 <= k /\ align = 2 ^ k) by (exists k; split; [lia|done]).
  assert (Hpos : 0 < align <= 2 ^ 46)
    by (rewrite Hka; split; [apply Z.pow_pos_nonneg; lia|apply Z.pow_le_mono_r; lia]).
  unfold heap_top in *.
  destruct (align_up_spec (next a) align Hal) as [A1 A2]; [lia|lia|]. unfold alloc.
  destruct (checked64 (align_up (next a) align + size)) as [e|] eqn:Ee.
  2: { exists a, 0, s. split; [by apply answers_ret|]. split; [done|by left]. }
  assert (e = align_up (next a) align + size) as ->
    by (unfold checked64 in Ee; destruct (_ <? _); congruence).
  destruct (Z.leb_spec (align_up (next a) align + size) (end_ a)) as [Hfit|_].
  { destruct (heap_take s a blocks _ size Ho Hs (proj1 A1) Hfit) as [Ho' Hp].
    eexists _, _, s. split; [by apply answers_ret|]. split; [done|by right]. }
  rewrite checked64_some by lia.
  destruct (chunk_pages (size + align)) as [P1 P2]; [lia|].
  set (pages := align_up (Z.max (size + align) MIN_HEAP_CHUNK) PAGE_SIZE / PAGE_SIZE) in *.
  destruct (mem_alloc_pages_law s pages (hk_good _ _ _ Ho) ltac:(lia)) as (r & s1 & H1 & G1 & R1).
  destruct r as [b|].
  2: { eexists a, 0, s1. split; [apply answers_bind; exists None, s1; by rewrite answers_ret|].
       assert (Hsub : granted s ⊆ granted s1) by (intros g Hx; by rewrite R1).
       split; [done|]. left. split; [done|]. by eapply heap_ok_grown. }
  destruct R1 as (B1 & _ & B3 & B4 & Hperm & Hd).
  assert (Hsub : granted s ⊆ granted s1) by (intros g Hx; rewrite Hperm; by right).
  pose proof B4 as B4'. unfold heap_top in B4'.
  destruct (align_up_spec b align Hal) as [C1 C2]; [lia|lia|].
  assert (Hc : u64 (b + pages * PAGE_SIZE) = b + pages * PAGE_SIZE) by (apply u64_small; unfold is_u64; lia).
  pose proof (heap_chunk s s1 a blocks b (pages * PAGE_SIZE) (if base a =? 0 then b else base a)
    (u64 (allocated a + pages * PAGE_SIZE)) Ho G1 B1 ltac:(lia) B4 Hperm Hd) as Hch.
  destruct (heap_take s1 _ blocks (align_up b align) size Hch Hs) as [Hk' Hp]; [simpl; lia|simpl; lia|].
  eexists _, (align_up b align), s1. split; [|split; [exact Hsub|right; split; [exact Hp|split; [exact C2|exact Hk']]]].
  apply answers_bind. exists (Some b), s1. split; [exact H1|]. cbv zeta beta iota. rewrite Hc.
  rewrite checked64_some by lia.
  destruct (Z.ltb_spec (b + pages * PAGE_SIZE) (align_up b align + size)); [lia|]. by apply answers_ret.
Qed.

(** What a sequence of requests hands out. *)
Fixpoint blocks_of (layouts : list (Z * Z)) (addrs : list Z) : list (Z * Z) :=
  match layouts, addrs with
  | (size, _) :: rest, addr :: addrs =>
      if addr =? 0 then blocks_of rest addrs else (addr, size) :: blocks_of rest addrs
  | _, _ => []
  end.

Definition answered (layout : Z * Z) (addr : Z) : Prop := addr = 0 \/ (0 < addr /\ addr mod snd layout = 0).

Lemma alloc_all_law layouts s a blocks :
  Forall (fun l => layout_ok (fst l) (snd l)) layouts -> heap_ok s a blocks ->
  exists a' addrs s', answers (alloc_all layouts a) s (a', addrs) s' /\
   Forall2 answered layouts addrs /\ heap_ok s' a' (rev (blocks_of layouts addrs) ++ blocks).
Proof.
  revert s a blocks. induction layouts as [|[size align] rest IH]; intros s a blocks Hl Ho.
  { exists a, [], s. split; [by apply answers_ret|]. by split. }
  apply Forall_cons in Hl as [Hl Hrest].
  destruct (alloc_law size align s a blocks Hl Ho) as (a1 & addr & s1 & H1 & _ & Hr).
  assert (Hstep : exists blocks', heap_ok s1 a1 blocks' /\ answered (size, align) addr /\
    forall addrs, rev (blocks_of rest addrs) ++ blocks' = rev (blocks_of ((size, align) :: rest) (addr :: addrs)) ++ blocks).
  { destruct Hr as [[-> Ho1]|(Hp & Hm & Ho1)].
    - exists blocks. split_and!; [done|by left|done].
    - exists ((addr, size) :: blocks). split_and!; [done|by right|]. intros addrs. simpl.
      destruct (Z.eqb_spec addr 0); [lia|]. simpl. by rewrite <- app_assoc. }
  destruct Hstep as (blocks' & Ho1 & Hans & Heq).
  destruct (IH s1 a1 blocks' Hrest Ho1) as (a2 & addrs & s2 & H2 & F2 & Ho2).
  exists a2, (addr :: addrs), s2. split_and!.
  - apply answers_bind. exists (a1, addr), s1. split; [done|]. apply answers_bind.
    exists (a2, addrs), s2. split; [done|]. by apply answers_ret.
  - by constructor.
  - by rewrite <- Heq.
Qed.

End Heap.
