(* ===== verification/HeapStore.v ===== *)
(** * The kernel grants pages to the heap

    [PageLaws] of UserHeap.v, proved of [abi_mem_alloc_pages]: the granted ranges
    are the mappings of the current process. *)

From S2P Require Import Prelude Constants Text Device Console Phys Paging Process Env Fd Abi AbiProc MemWin.
From S2P Require Import AtaDisk BootFs KernelAbi UserAbi UserHeap.

Section HeapStore.

Context {D : Type} `{SectorDev D} (clk : Clock).
Context (process_trampoline : Z) (others : ST (Sys D) unit) (fuel : nat).

#[local] Instance page_table : RymosAbi (Sys D) := RYMOS_ABI clk process_trampoline others fuel.

Definition mapping_range (m : ProcessMapping) : Z * Z := (m_virt m, m_pages m * PAGE_SIZE).

Definition mapped_ranges (s : Sys D) : list (Z * Z) := map mapping_range (used_mappings (cur_proc s)).

Record is_pages_good (s : Sys D) : Prop := {
  pg_sized : table_sized (sys_kern s);
  pg_cur : (CURRENT_PROCESS_INDEX (sys_kern s) < PROCESS_COUNT)%nat;
  pg_windows : windows_ok (cur_proc s)
}.

Lemma separate_ranges m l :
  Forall (separate m) l -> Forall (disjoint_ranges (mapping_range m)) (map mapping_range l).
Proof. intros Hs. apply Forall_fmap. exact Hs. Qed.

(** A mapping of a process lies between page 1 and the kernel's half. *)
Lemma mapping_bounds p m :
  windows_ok p -> m ∈ used_mappings p ->
  0 < m_virt m /\ 0 < m_pages m /\ m_virt m mod PAGE_SIZE = 0 /\ m_virt m + m_pages m * PAGE_SIZE <= heap_top.
Proof.
  intros W Hm. pose proof (wo_in p W) as Hin. rewrite Forall_forall in Hin.
  destruct (Hin m Hm) as (Hp & Ha & Hpl). destruct W as [Hpid [Hb Hl] Hml [Hn _] [Hx _] _ _ _].
  rewrite mmap_window_eq in * by done. rewrite heap_window_eq in * by done.
  unfold placed, m_end in Hpl. unfold heap_top. win_const. split_and!; try done; lia.
Qed.

Lemma kernel_grant (s : Sys D) n :
  is_pages_good s -> 0 <= n ->
  exists r s', abi_mem_alloc_pages n s = (s', r) /\ is_pages_good s' /\
    ((r = 0 /\ mapped_ranges s' ≡ₚ mapped_ranges s) \/
     (0 < r /\ 0 < n /\ r mod PAGE_SIZE = 0 /\ r + n * PAGE_SIZE <= heap_top /\
      mapped_ranges s' ≡ₚ (r, n * PAGE_SIZE) :: mapped_ranges s /\
      Forall (disjoint_ranges (r, n * PAGE_SIZE)) (mapped_ranges s))).
Proof.
  intros [Hs Hc W] Hn. unfold abi_mem_alloc_pages, on_kern.
  pose proof (mem_alloc_post n (sys_kern s) Hs Hc W Hn) as Hp.
  destruct (mem_alloc_pages n (sys_kern s)) as [k r]. destruct Hp as (F & W' & Hr).
  eexists r, _. split; [done|]. unfold mapped_ranges, cur_proc in *. simpl.
  rewrite (fr_cur _ _ _ F). split.
  { split; simpl; [apply F|by rewrite (fr_cur _ _ _ F)|unfold cur_proc; simpl; by rewrite (fr_cur _ _ _ F)]. }
  destruct Hr as [[-> Hr]|[Hr Hperm]].
  - left. split; [done|]. by apply Permutation_map.
  - right. pose proof (wo_apart _ W') as Ha. apply (apart_perm _ _ Hperm) in Ha as [Hsep _].
    destruct (mapping_bounds _ (mkMapping true r n) W') as (B1 & B2 & B3 & B4); [rewrite Hperm; by left|].
    split_and!; [done..| |].
    + by apply (Permutation_map mapping_range) in Hperm.
    + by apply separate_ranges in Hsep.
Qed.

#[export] Program Instance kernel_pages : PageLaws (Sys D) :=
  { pages_good := is_pages_good; granted := mapped_ranges }.
Next Obligation.
  intros s n Hg Hn. destruct (kernel_grant s n Hg Hn) as (r & s' & E & G & Hr). exists r, s'.
  split; [|done]. unfold answers. simpl. unfold always. by rewrite E.
Qed.

(** C3: Whatever blocks a program asks its heap for, starting from the empty
    allocator, every request is answered: with null, or with a block that is
    aligned as asked and lies inside the memory the kernel has mapped for the
    process; and no two blocks overlap. *)
Theorem heap_blocks_disjoint layouts (s : Sys D) :
  is_pages_good s -> Forall (fun l => layout_ok (fst l) (snd l)) layouts ->
  exists a addrs s', answers (alloc_all layouts ALLOCATOR) s (a, addrs) s' /\
    Forall2 answered layouts addrs /\ all_disjoint (blocks_of layouts addrs) /\
    Forall (fun b => exists m, m ∈ used_mappings (cur_proc s') /\ inside b (mapping_range m))
      (blocks_of layouts addrs).
Proof.
  intros Hg Hl. change (pages_good s) in Hg.
  destruct (alloc_all_law layouts s ALLOCATOR [] Hl (heap_fresh s Hg)) as (a & addrs & s' & H1 & H2 & H3).
  exists a, addrs, s'. rewrite app_nil_r in H3. split; [done|]. split; [done|]. split.
  - apply (all_disjoint_perm (rev (blocks_of layouts addrs))); [by rewrite <- Permutation_rev|apply H3].
  - pose proof (hk_in _ _ _ H3) as Hi. apply Forall_rev in Hi. rewrite rev_involutive in Hi.
    eapply Forall_impl; [exact Hi|]. intros b (_ & g & Hgr & Hin). unfold granted, kernel_pages, mapped_ranges in Hgr.
    apply list_elem_of_fmap in Hgr as (m & -> & Hm). by exists m.
Qed.

End HeapStore.

(** Process 3 in slot 0, with memory for two chunks. *)
Definition heap_vm : Vm := mkVm (add_range 0x10000 0x100000 phys_empty) zeroed 0x1000 0x1000.

Definition heap_kernel : Kernel :=
  let k := update_proc 0 (fun p => {| p with pid := 3 |}) (Kernel_new heap_vm) in
  let k := app_set_heap_window 0 3 k in
  {| k with CURRENT_PROCESS_INDEX := 0%nat |}.

Lemma heap_kernel_ok : windows_ok (proc heap_kernel 0).
Proof.
  pose proof (set_window_ok (update_proc 0 (fun p => {| p with pid := 3 |}) (Kernel_new heap_vm)) 0) as H.
  apply H; try reflexivity; [apply Nat.ltb_lt; reflexivity|].
  vm_compute. split; [discriminate|reflexivity].
Qed.

Definition window_system : Sys Ata :=
  mkSys heap_kernel fds_empty (BootFs_new 0 0 zeroed) None [] ata_blank.

Lemma window_system_good : is_pages_good window_system.
Proof.
  split; [reflexivity|apply Nat.ltb_lt; reflexivity|exact heap_kernel_ok].
Qed.

Lemma heap_blocks_disjoint_witness :
  let addrs := [heap_window 3; heap_window 3 + 65536] in
  option_map snd (snd (@alloc_all _ (page_table (mkClock 1 0 0) 0 (fun s => (s, tt)) 0)
    [(100, 16); (70000, 64)] ALLOCATOR window_system)) = Some addrs /\
  all_disjoint (blocks_of [(100, 16); (70000, 64)] addrs).
Proof.
  cbv zeta. assert (E : option_map snd (snd (@alloc_all _ (page_table (mkClock 1 0 0) 0 (fun s => (s, tt)) 0)
    [(100, 16); (70000, 64)] ALLOCATOR window_system)) = Some [heap_window 3; heap_window 3 + 65536])
    by (vm_compute; reflexivity).
  split; [exact E|].
  destruct (heap_blocks_disjoint (mkClock 1 0 0) 0 (fun s => (s, tt)) 0 [(100, 16); (70000, 64)] window_system
    window_system_good) as (a & addrs & s' & H1 & _ & H3 & _).
  - apply Forall_cons. split; [|apply Forall_cons; split; [|by apply Forall_nil]]; unfold layout_ok; cbn [fst snd];
      (split; [lia|split; [|lia]]); [exists 4|exists 6]; (split; [lia|reflexivity]).
  - rewrite H1 in E. simpl in E. injection E as ->. exact H3.
Defined.

(** An alignment of 2^47 or more carries the address past the end of the address
    space: the request is answered with null, but the heap then hands out low
    addresses that nobody granted. *)
Lemma huge_alignment_escapes :
  let a := mkBump (heap_window 3) (heap_window 3 + 100) (heap_window 3 + 65536) 65536 in
  let run := @alloc_all _ (page_table (mkClock 1 0 0) 0 (fun s => (s, tt)) 0)
    [(8, 2 ^ 47); (8, 8)] a window_system in
  option_map snd (snd run) = Some [0; 8] /\ fst run = window_system.
Proof. vm_compute. by split. Qed.
