(* ===== verification/UserScreen.v ===== *)
(** * What a program shows on the screen

    [ScreenLaws] states what a program may rely on about its standard output while
    it works on files: a write appears after what was written before and leaves the
    files alone, and file calls leave the screen alone. ScreenStore.v proves it of
    the kernel. From the laws: what the printing functions of
    [src/runtime/rymos-user/src/lib.rs] show. *)

From S2P Require Import Prelude Text UserAbi UserIo UserFiles.
Import Consts.

(** Whatever was true of the files still is. *)
Definition files_kept {S} `{FileLaws S} (s s' : S) : Prop :=
  (forall path, ready s path -> ready s' path) /\
  (forall path content, named s path content -> named s' path content) /\
  (forall a fd path content off, opened s a fd path content off -> opened s' a fd path content off).

Class ScreenLaws (S : Type) `{FileLaws S} : Type := {
  (** what has been written so far *)
  screen : S -> bytes -> Prop;
  own_pid : S -> Z;
  screen_write_law s t data :
    screen s t ->
    exists n s', answers (call_write_fd STDOUT data) s n s' /\ 0 <= n /\
      screen s' (t ++ data) /\ own_pid s' = own_pid s /\ files_kept s s';
  screen_pid_law s : answers call_pid s (own_pid s) s;
  screen_open_law s t path flags r s' :
    screen s t -> answers (call_open path flags) s r s' -> screen s' t;
  (** an open file is not a standard stream *)
  screen_fd_law s a fd path content off : opened s a fd path content off -> STDERR < fd;
  screen_read_law s t fd n r s' :
    STDERR < fd -> screen s t -> answers (call_read fd n) s r s' -> screen s' t;
  screen_write_file_law s t fd data r s' :
    STDERR < fd -> screen s t -> answers (call_write_fd fd data) s r s' -> screen s' t;
  screen_close_law s t fd r s' :
    STDERR < fd -> screen s t -> answers (call_close fd) s r s' -> screen s' t
}.

Section UserScreen.

Context {S : Type} `{ScreenLaws S}.

#[export] Instance files_kept_preorder : PreOrder files_kept.
Proof.
  split; [by split|]. intros s1 s2 s3 (A1 & A2 & A3) (B1 & B2 & B3). split; [auto|]. split; auto.
Qed.

(** [m] answers in any state with a screen, shows [out] and leaves the rest. *)
Definition prints (p : Z) (m : Call S unit) (out : bytes) : Prop := forall s t,
  screen s t -> own_pid s = p ->
  exists s', answers m s tt s' /\ screen s' (t ++ out) /\ own_pid s' = p /\ files_kept s s'.

Lemma prints_ret p : prints p (call_ret tt) [].
Proof. intros s t Hs Hp. exists s. rewrite app_nil_r. by split. Qed.

Lemma prints_bind p m k out1 out2 :
  prints p m out1 -> prints p k out2 -> prints p (do& m in k) (out1 ++ out2).
Proof.
  intros Hm Hk s t Hs Hp. destruct (Hm s t Hs Hp) as (s1 & A1 & B1 & C1 & D1).
  destruct (Hk s1 _ B1 C1) as (s2 & A2 & B2 & C2 & D2). exists s2. rewrite app_assoc.
  split_and!; [|done|done|by transitivity s1]. apply answers_bind. by exists tt, s1.
Qed.

Lemma prints_write p data : prints p (write data) data.
Proof.
  intros s t Hs Hp. destruct (screen_write_law s t data Hs) as (n & s' & A & Hn & B & C & D).
  exists s'. split_and!; [|done|congruence|done]. unfold write. apply answers_bind. exists n, s'.
  split; [done|]. destruct (Z.ltb_spec n 0); [lia|]. by apply answers_ret.
Qed.

Lemma prints_each p l : prints p (write_each l) l.
Proof.
  induction l as [|b l IH]; simpl; [apply prints_ret|]. apply (prints_bind p _ _ [b] l); [|done].
  apply prints_write.
Qed.

(** The digits [print_usize] collects, in the order it prints them. *)
Lemma usize_digits_from_eq n v : rev (usize_digits_from n v) = usize_digits n v [].
Proof.
  revert v. induction n as [|n IH]; intros v; [done|]. simpl. destruct (0 <? v); [|done]. simpl.
  rewrite IH, (usize_digits_acc n _ [_]). unfold u8. rewrite (Z.mod_small (v mod 10) 256); [done|].
  pose proof (Z.mod_pos_bound v 10). lia.
Qed.

Lemma prints_usize p v : prints p (print_usize v) (write_usize v).
Proof.
  unfold print_usize, write_usize. destruct (v =? 0); [apply prints_write|].
  rewrite usize_digits_from_eq. apply prints_each.
Qed.

Lemma prints_pid p k out : (forall q, q = p -> prints p (k q) out) -> prints p (let& q := pid in k q) out.
Proof.
  intros Hk s t Hs Hp. destruct (Hk p eq_refl s t Hs Hp) as (s' & A & B). exists s'. split; [|done].
  apply answers_bind. exists p, s. split; [|done]. rewrite <- Hp. apply screen_pid_law.
Qed.

(** ** File calls in front of the screen *)

Lemma screen_opened s t path flags r s' :
  screen s t -> answers (open_mode path flags) s r s' -> screen s' t.
Proof.
  intros Hs (n & s1 & A & B)%answers_bind. apply answers_ret in B as [_ ->].
  by eapply screen_open_law.
Qed.

Lemma screen_read s t f n r s' :
  STDERR < fd f -> screen s t -> answers (read_file f (replicate n 0)) s r s' -> screen s' t.
Proof.
  intros Hf Hs (x & s1 & A & B)%answers_bind. apply answers_ret in B as [_ ->].
  by eapply screen_read_law.
Qed.

Lemma screen_write s t f data r s' :
  STDERR < fd f -> screen s t -> answers (write_file f data) s r s' -> screen s' t.
Proof.
  intros Hf Hs (x & s1 & A & B)%answers_bind. apply answers_ret in B as [_ ->].
  by eapply screen_write_file_law.
Qed.

Lemma screen_dropped s t f s' :
  STDERR < fd f -> screen s t -> answers (drop_file f) s tt s' -> screen s' t.
Proof.
  unfold drop_file, STDERR. intros Hf Hs. destruct (Z.leb_spec 0 (fd f)); [|lia].
  intros (x & s1 & A & B)%answers_bind. apply answers_ret in B as [_ ->].
  apply answers_bind in A as (y & s2 & A & B). apply answers_ret in B as [_ ->].
  by eapply screen_close_law.
Qed.

(** One write to a file: all of it, or the caller can tell. *)
Lemma write_file_law s a f path content off data :
  opened s a (fd f) path content off -> a <> ReadOnly -> is_slice data -> data <> [] ->
  exists r s', answers (write_file f data) s r s' /\
    match r with
    | None => True
    | Some n => 0 < n <= blen data /\
        opened s' a (fd f) path (splice content off (take (Z.to_nat n) data)) (off + n)
    end.
Proof.
  intros Ho Ha Hd Hne. destruct (write_law s a (fd f) path content off data Ho Ha Hd Hne) as (n & s' & A & B).
  exists (size_opt n), s'. split.
  - unfold write_file, fd_write. apply answers_bind. exists n, s'. by rewrite answers_ret.
  - unfold size_opt. destruct (Z.ltb_spec n 0); [done|]. by apply B.
Qed.

End UserScreen.
