(* ===== verification/Rysh.v ===== *)
(** * The script shell

    [src/programs/rysh/src/main.rs], a program of the system: it reads a script,
    splits it into lines and runs one command per line. It is written against the
    runtime ([rt] below is [rymos_user]), so the model runs on any function table.

    [trim] and [split_word] are the same code as the kernel's (Text.v). A buffer a
    function declares is [replicate n 0]; a loop that ends when a call answers
    nothing takes fuel, and running out of it is a script that still runs. *)

From S2P Require UserIo.
From S2P Require Import Prelude Text UserAbi.
Import Consts.

Module rt := UserIo.

Definition SCRIPT_SIZE : nat := 2048.
Definition MAX_VARS : nat := 8.
Definition NAME_SIZE : nat := 16.
Definition VALUE_SIZE : nat := 64.

(** ** Variables *)

(** [name] and [value] are the used prefixes of the arrays. *)
Record Var : Type := mkVar { var_used : bool; var_name : bytes; var_value : bytes }.

Definition Var_empty : Var := mkVar false [] [].

Record VarStore : Type := mkStore { vars : list Var }.

Definition VarStore_new : VarStore := mkStore (replicate MAX_VARS Var_empty).

(** [copy_bytes] into an array of [size] bytes. *)
Definition copy_bytes (source : bytes) (size : nat) : bytes := take (Nat.min (length source) size) source.

Definition same_bytes (left right : bytes) : bool := bytes_eq left right.

Definition var_at (store : VarStore) (index : nat) : Var := nth index (vars store) Var_empty.

Definition var_find (name : bytes) (store : VarStore) : option nat :=
  find_first (fun index => var_used (var_at store index) && same_bytes (var_name (var_at store index)) name)
    (length (vars store)).

Definition var_free_slot (store : VarStore) : option nat :=
  find_first (fun index => negb (var_used (var_at store index))) (length (vars store)).

Definition var_set (name value : bytes) (store : VarStore) : VarStore :=
  if bytes_eq name [] then store
  else
    let index :=
      match var_find name store with
      | Some index => index
      | None => default 0%nat (var_free_slot store)
      end in
    mkStore (<[index := mkVar true (copy_bytes name NAME_SIZE) (copy_bytes value VALUE_SIZE)]> (vars store)).

Definition var_get (name : bytes) (store : VarStore) : option bytes :=
  let? index := var_find name store else None in Some (var_value (var_at store index)).

(** ** Text *)

Definition trim_cr (line : bytes) : bytes :=
  if ends_with line [13] then take (length line - 1) line else line.

Definition first_word (line : bytes) : option bytes :=
  let line := trim line in
  if bytes_eq line [] then None else Some (fst (split_word line)).

Fixpoint parse_usize_from (value : Z) (l : bytes) : option Z :=
  match l with
  | [] => Some value
  | byte :: rest =>
      if negb (is_ascii_digit byte) then None
      else
        let? v := checked64 (value * 10) else None in
        let? v := checked64 (v + (byte - 48)) else None in
        parse_usize_from v rest
  end.

Definition parse_usize (l : bytes) : option Z :=
  let l := trim l in if bytes_eq l [] then None else parse_usize_from 0 l.

Definition parse_u32 (l : bytes) : option Z :=
  let? value := parse_usize l else None in
  if 4294967295 <? value then None else Some value.

(** [byte.is_ascii_alphanumeric() || byte == b'_' || byte == b'-'] *)
Definition is_var_byte (byte : Z) : bool :=
  is_ascii_digit byte || ((65 <=? byte) && (byte <=? 90)) || ((97 <=? byte) && (byte <=? 122))
  || (byte =? ch "_") || (byte =? ch "-").

Definition var_name_end (l : bytes) : nat := prefix_len is_var_byte l.

(** The lines of a script: [cur] is the line begun. *)
Fixpoint script_lines (script cur : bytes) : list bytes :=
  match script with
  | [] => [cur]
  | b :: rest => if b =? 10 then cur :: script_lines rest [] else script_lines rest (cur ++ [b])
  end.

Definition process_state_name (state : Z) : bytes :=
  if state =? PROCESS_READY then bs "ready"
  else if state =? PROCESS_RUNNING then bs "running"
  else if state =? PROCESS_EXITED then bs "exited"
  else if state =? PROCESS_FAILED then bs "failed"
  else bs "empty".

(** [match command { b"..." => ..., _ => ... }] *)
Fixpoint dispatch {A} (command : bytes) (arms : list (bytes * A)) (otherwise : A) : A :=
  match arms with
  | [] => otherwise
  | (name, arm) :: rest => if bytes_eq command name then arm else dispatch command rest otherwise
  end.

Section Rysh.

Context {S : Type} `{RymosAbi S} (fuel : nat).

(** ** Printing *)

(** Consecutive [rt::print] and [rt::write] calls. *)
Fixpoint says (l : list bytes) : Call S unit :=
  match l with
  | [] => call_ret tt
  | text :: rest => do& rt.write text in says rest
  end.

Definition nl : bytes := [10].

Definition print_i32 (value : Z) : Call S unit :=
  if value <? 0 then do& rt.write (bs "-") in rt.print_usize (u64 (i32 (- value)))
  else rt.print_usize (u64 value).

(** A message, [rt::last_error()] and the end of the line. *)
Definition say_errno (message : bytes) : Call S unit :=
  do& rt.print message in
  let& code := rt.last_error in
  do& print_i32 code in
  rt.write nl.

(** A message, a number and the end of the line. *)
Definition say_usize (message : bytes) (value : Z) : Call S unit :=
  do& rt.print message in do& rt.print_usize value in rt.write nl.

Definition say_i32 (message : bytes) (value : Z) : Call S unit :=
  do& rt.print message in do& print_i32 value in rt.write nl.

(** ** Directories, names, clock *)

Definition pwd : Call S unit :=
  let& cwd := rt.cwd (replicate 64 0) in
  match cwd with
  | None => rt.print (bs "rysh: pwd failed" ++ nl)
  | Some cwd => says [cwd; nl]
  end.

Definition chdir (path : bytes) : Call S unit :=
  let& ok := rt.chdir path in
  if negb ok then
    do& rt.print (bs "rysh: cd failed: ") in
    do& rt.write path in
    say_errno (bs " errno ")
  else call_ret tt.

Definition errno : Call S unit := say_errno (bs "errno ").

Definition unlink (path : bytes) : Call S unit :=
  let& ok := rt.unlink path in
  if negb ok then says [bs "rysh: rm failed: "; path; nl] else call_ret tt.

Definition rename (old_path new_path : bytes) : Call S unit :=
  let& ok := rt.rename old_path new_path in
  if negb ok then says [bs "rysh: rename failed: "; old_path; bs " "; new_path; nl] else call_ret tt.

Definition mkdir (path : bytes) : Call S unit :=
  let& ok := rt.mkdir path in
  if negb ok then says [bs "rysh: mkdir failed: "; path; nl] else call_ret tt.

Definition time_ticks : Call S unit :=
  do& rt.print (bs "ticks ") in
  let& ticks := rt.time_ticks in
  do& rt.print_usize ticks in
  rt.write nl.

(** [ms as u64 * 1_000_000] fits: [ms] is a [u32]. *)
Definition sleep_ms (text : bytes) : Call S unit :=
  match parse_u32 text with
  | None => rt.print (bs "rysh: invalid sleep duration" ++ nl)
  | Some ms => rt.sleep_nanos (u64 (ms * 1000000))
  end.

(** ** Pipes and redirections *)

Definition stdio : Call S unit :=
  do& rt.fd_write STDOUT (bs "stdout fd1 ok" ++ nl) in
  do& rt.fd_write STDERR (bs "stderr fd2 ok" ++ nl) in
  call_ret tt.

(** [let _ = rt::close_fd(fd)] for each. *)
Fixpoint close_each (fds : list Z) : Call S unit :=
  match fds with
  | [] => call_ret tt
  | fd :: rest => do& rt.close_fd fd in close_each rest
  end.

Definition or_default (value fallback : bytes) : bytes := if bytes_eq value [] then fallback else value.

(** [let Some(fds) = rt::pipe() else { .. }] *)
Definition with_pipe (message : bytes) (cleanup : Call S unit) (k : Z * Z -> Call S unit) : Call S unit :=
  let& p := rt.pipe in
  match p with
  | None => do& say_errno message in cleanup
  | Some fds => k fds
  end.

(** [if !rt::dup2(..) { .. }] *)
Definition or_dup2 (ok : Call S bool) (message : bytes) (cleanup k : Call S unit) : Call S unit :=
  let& ok := ok in
  if negb ok then do& say_errno message in cleanup else k.

(** [let Some(data) = rt::fd_read(fd, &mut buffer) else { .. }] *)
Definition with_read (fd : Z) (size : nat) (message : bytes) (cleanup : Call S unit)
    (k : bytes -> Call S unit) : Call S unit :=
  let& data := rt.fd_read fd (replicate size 0) in
  match data with
  | None => do& rt.print (message ++ nl) in cleanup
  | Some data => k data
  end.

Definition pipe_demo (message : bytes) : Call S unit :=
  let payload := or_default message (bs "pipe-ok") in
  with_pipe (bs "rysh: pipe failed errno ") (call_ret tt) (fun p =>
    let close := close_each [fst p; snd p] in
    do& rt.fd_write (snd p) payload in
    with_read (fst p) 128 (bs "rysh: pipe read failed") close (fun data =>
      do& says [bs "pipe "; data; nl] in close)).

Definition redir_demo (message : bytes) : Call S unit :=
  let payload := or_default message (bs "redirect-ok") in
  with_pipe (bs "rysh: redir pipe failed errno ") (call_ret tt) (fun p =>
    let close := close_each [fst p; snd p] in
    or_dup2 (rt.dup2 (snd p) STDOUT) (bs "rysh: dup2 failed errno ") close
      (do& rt.fd_write STDOUT payload in
       do& rt.dup2 STDOUT STDOUT in
       with_read (fst p) 128 (bs "rysh: redir read failed") close (fun data =>
         do& says [bs "redir "; data; nl] in close))).

(** [spawn], then [wait] for the child that was started. *)
Definition spawn_waited (name args : bytes) : Call S (Z + Z) :=
  let& r := rt.spawn name args in
  match r with
  | inr pid => do& rt.wait pid in call_ret r
  | inl _ => call_ret r
  end.

Definition say_spawned (r : Z + Z) (ok failed : bytes) : Call S unit :=
  match r with
  | inr pid => say_usize ok pid
  | inl code => say_i32 failed code
  end.

Definition say_captured (title data : bytes) : Call S unit :=
  do& rt.print title in
  do& rt.print_usize (blen data) in
  says [bs " B" ++ nl; data].

Definition spawn_redir (rest : bytes) : Call S unit :=
  let '(name, args) := split_word rest in
  let program := or_default name (bs "hello") in
  with_pipe (bs "rysh: spawnredir pipe failed errno ") (call_ret tt) (fun p =>
    let close := close_each [fst p; snd p] in
    or_dup2 (rt.dup2 (snd p) STDOUT) (bs "rysh: spawnredir dup2 failed errno ") close
      (let& r := spawn_waited program args in
       do& rt.dup2 STDOUT STDOUT in
       do& say_spawned r (bs "spawnredir pid ") (bs "rysh: spawnredir failed ") in
       with_read (fst p) 512 (bs "rysh: spawnredir read failed") close (fun data =>
         do& say_captured (bs "spawnredir captured ") data in close))).

Definition spawn_stdin (rest : bytes) : Call S unit :=
  let '(name, payload) := split_word rest in
  let program := or_default name (bs "echoin") in
  let input := or_default payload (bs "hello-on-stdin") in
  with_pipe (bs "rysh: spawnstdin pipe failed errno ") (call_ret tt) (fun p =>
    let close := close_each [fst p; snd p] in
    do& rt.fd_write (snd p) input in
    or_dup2 (rt.dup2 (fst p) STDIN) (bs "rysh: spawnstdin dup2 failed errno ") close
      (let& r := spawn_waited program [] in
       do& rt.dup2 STDIN STDIN in
       do& say_spawned r (bs "spawnstdin pid ") (bs "rysh: spawnstdin failed ") in
       close)).

(** The first of two conditions that fails ends the chain ([||]). *)
Definition both (a b : Call S bool) : Call S bool := let& ok := a in if negb ok then call_ret false else b.

Definition spawn_io (rest : bytes) : Call S unit :=
  let '(name, payload) := split_word rest in
  let program := or_default name (bs "echoin") in
  let input := or_default payload (bs "hello-spawnio") in
  with_pipe (bs "rysh: spawnio stdin pipe failed errno ") (call_ret tt) (fun i =>
  with_pipe (bs "rysh: spawnio stdout pipe failed errno ") (close_each [fst i; snd i]) (fun o =>
    let close := close_each [fst i; snd i; fst o; snd o] in
    let revert := (do& rt.dup2 STDIN STDIN in do& rt.dup2 STDOUT STDOUT in call_ret tt) in
    do& rt.fd_write (snd i) input in
    or_dup2 (both (rt.dup2 (fst i) STDIN) (rt.dup2 (snd o) STDOUT))
      (bs "rysh: spawnio dup2 failed errno ") (do& revert in close)
      (let& r := spawn_waited program [] in
       do& revert in
       do& say_spawned r (bs "spawnio pid ") (bs "rysh: spawnio failed ") in
       with_read (fst o) 256 (bs "rysh: spawnio read failed") close (fun data =>
         do& say_captured (bs "spawnio captured ") data in close)))).

Definition reset_stdio : Call S unit :=
  do& rt.dup2 STDIN STDIN in
  do& rt.dup2 STDOUT STDOUT in
  do& rt.dup2 STDERR STDERR in
  call_ret tt.

(** Only descriptors that are not negative are closed. *)
Definition close4 (a b c d : Z) : Call S unit := close_each (filter (fun fd => 0 <= fd) [a; b; c; d]).

Definition spawn_io_err (rest : bytes) : Call S unit :=
  let '(name, payload) := split_word rest in
  let program := or_default name (bs "echoin") in
  let input := or_default payload (bs "hello-spawnioe") in
  with_pipe (bs "rysh: spawnioe stdin pipe failed errno ") (call_ret tt) (fun i =>
  with_pipe (bs "rysh: spawnioe stdout pipe failed errno ") (close4 (fst i) (snd i) (-1) (-1)) (fun o =>
  with_pipe (bs "rysh: spawnioe stderr pipe failed errno ") (close4 (fst i) (snd i) (fst o) (snd o)) (fun e =>
    let close := (do& close4 (fst i) (snd i) (fst o) (snd o) in close4 (fst e) (snd e) (-1) (-1)) in
    do& rt.fd_write (snd i) input in
    or_dup2 (both (rt.dup2 (fst i) STDIN) (both (rt.dup2 (snd o) STDOUT) (rt.dup2 (snd e) STDERR)))
      (bs "rysh: spawnioe dup2 failed errno ") (do& reset_stdio in close)
      (let& r := spawn_waited program [] in
       do& reset_stdio in
       do& say_spawned r (bs "spawnioe pid ") (bs "rysh: spawnioe failed ") in
       let& out := rt.fd_read (fst o) (replicate 256 0) in
       let& err := rt.fd_read (fst e) (replicate 128 0) in
       do& say_captured (bs "spawnioe stdout ") (default [] out) in
       do& say_captured (bs "spawnioe stderr ") (default [] err) in
       close)))).

(** ** Children *)

(** [Err(-2)] has a message of its own. *)
Definition start (name args ok waits failed : bytes) : Call S unit :=
  let& r := rt.spawn name args in
  match r with
  | inr pid => say_usize ok pid
  | inl code => if code =? -2 then rt.print (waits ++ nl) else say_i32 failed code
  end.

Definition spawn (name args : bytes) : Call S unit :=
  start name args (bs "spawned pid ") (bs "rysh: spawn waits for isolated app loading") (bs "rysh: spawn failed ").

Definition daemon (name args : bytes) : Call S unit :=
  start name args (bs "daemon started pid ") (bs "rysh: daemon waits for isolated app loading")
    (bs "rysh: daemon failed ").

Definition print_process_status (pid : Z) (status : ProcessStatus) : Call S unit :=
  do& rt.print (bs "pid ") in
  do& rt.print_usize pid in
  do& rt.print (bs " ") in
  do& rt.print (process_state_name (ps_state status)) in
  say_i32 (bs " exit ") (exit_code status).

Definition wait_process (pid : bytes) : Call S unit :=
  if bytes_eq pid [] then
    let& r := rt.wait_any in
    match r with
    | None => rt.print (bs "rysh: wait failed: no child status" ++ nl)
    | Some (pid, status) => print_process_status pid status
    end
  else
    match parse_u32 pid with
    | None => rt.print (bs "rysh: invalid pid" ++ nl)
    | Some pid =>
        let& r := rt.wait pid in
        match r with
        | None => say_usize (bs "rysh: wait failed: ") pid
        | Some status => print_process_status pid status
        end
    end.

(** ** Environment *)

Fixpoint env_from (n : nat) (index : nat) : Call S unit :=
  match n with
  | O => st_ret None
  | Datatypes.S n =>
      let& entry := rt.env_list index (replicate 32 0) (replicate 96 0) in
      match entry with
      | None => call_ret tt
      | Some (key, value) => do& says [key; bs "="; value; nl] in env_from n (Datatypes.S index)
      end
  end.

Definition env : Call S unit := env_from fuel 0.

Definition getenv (key : bytes) : Call S unit :=
  let& value := rt.env_get key (replicate 96 0) in
  match value with
  | None => says [bs "rysh: env not found: "; key; nl]
  | Some value => says [key; bs "="; value; nl]
  end.

Definition setenv (key value : bytes) : Call S unit :=
  let& ok := rt.env_set key value in
  if ok : bool then says [key; bs "="; value; nl] else say_errno (bs "rysh: setenv failed errno ").

Definition unsetenv (key : bytes) : Call S unit :=
  let& ok := rt.env_remove key in
  if ok : bool then says [bs "unset "; key; nl] else say_errno (bs "rysh: unsetenv failed errno ").

(** ** Files *)

(** [let Some(file) = .. else { .. }]; the file is dropped where the function
    returns. *)
Definition with_file (open : Call S (option rt.File)) (message path : bytes)
    (k : rt.File -> Call S unit) : Call S unit :=
  let& f := open in
  match f with
  | None => says [message; path; nl]
  | Some file => do& k file in rt.drop_file file
  end.

(** [chunk[..count]], filled with the alphabet from where the last chunk ended. *)
Definition alphabet (written_total : Z) (count : nat) : bytes :=
  map (fun index => ch "A" + (written_total + Z.of_nat index) mod 26) (seq 0 count).

Fixpoint fill_from (n : nat) (path : bytes) (file : rt.File) (total written_total : Z) : Call S unit :=
  match n with
  | O => st_ret None
  | Datatypes.S n =>
      if written_total <? total then
        let count := Z.min 256 (total - written_total) in
        let& written := rt.write_file file (alphabet written_total (Z.to_nat count)) in
        match written with
        | None => says [bs "rysh: write failed: "; path; nl]
        | Some written =>
            if negb (written =? count) then says [bs "rysh: short write: "; path; nl]
            else fill_from n path file total (written_total + written)
        end
      else say_usize (bs "wrote ") written_total
  end.

Definition fill_file (path count : bytes) : Call S unit :=
  match parse_usize count with
  | None => rt.print (bs "rysh: invalid count" ++ nl)
  | Some total =>
      with_file (rt.file_create path) (bs "rysh: open failed: ") path (fun file =>
        fill_from fuel path file total 0)
  end.

Fixpoint count_from (n : nat) (path : bytes) (file : rt.File) (total : Z) : Call S unit :=
  match n with
  | O => st_ret None
  | Datatypes.S n =>
      let& data := rt.read_file file (replicate 512 0) in
      match data with
      | None => says [bs "rysh: read failed: "; path; nl]
      | Some [] => do& says [bs "count "; path] in say_usize (bs " ") total
      | Some data => count_from n path file (total + blen data)
      end
  end.

Definition count_file (path : bytes) : Call S unit :=
  with_file (rt.file_open path) (bs "rysh: file not found: ") path (fun file => count_from fuel path file 0).

Fixpoint cat_from (n : nat) (path : bytes) (file : rt.File) (wrote_any : bool) : Call S unit :=
  match n with
  | O => st_ret None
  | Datatypes.S n =>
      let& data := rt.read_file file (replicate 512 0) in
      match data with
      | None => says [bs "rysh: read failed: "; path; nl]
      | Some [] => if wrote_any then rt.write nl else call_ret tt
      | Some data => do& rt.write data in cat_from n path file true
      end
  end.

Definition cat (path : bytes) : Call S unit :=
  with_file (rt.file_open path) (bs "rysh: file not found: ") path (fun file => cat_from fuel path file false).

Definition write_file (path text : bytes) : Call S unit :=
  with_file (rt.file_create path) (bs "rysh: open failed: ") path (fun file =>
    let& written := rt.write_file file text in
    match written with
    | None => says [bs "rysh: write failed: "; path; nl]
    | Some written =>
        if negb (written =? blen text) then says [bs "rysh: short write: "; path; nl] else call_ret tt
    end).

Definition print_stat (stat : Stat) : Call S unit :=
  do& rt.print (if s_fs stat =? STAT_FS_PFS then bs "pfs "
                else if s_fs stat =? STAT_FS_BOOTFS then bs "bootfs " else bs "fs? ") in
  do& rt.print (if s_kind stat =? STAT_KIND_DIR then bs "dir " else bs "file ") in
  do& rt.print_usize (s_size stat) in
  rt.print (bs " B").

Definition stat_path (path : bytes) : Call S unit :=
  let& st := rt.stat path in
  match st with
  | None => says [bs "rysh: stat failed: "; path; nl]
  | Some st => do& says [path; bs " "] in do& print_stat st in rt.write nl
  end.

Fixpoint list_dir_from (n : nat) (namespace : bytes) (index : nat) : Call S unit :=
  match n with
  | O => st_ret None
  | Datatypes.S n =>
      let& entry := rt.list_dir namespace index (replicate 64 0) in
      match entry with
      | None => call_ret tt
      | Some (name, st) =>
          do& says [name; bs " "] in
          do& print_stat st in
          do& rt.write nl in
          list_dir_from n namespace (Datatypes.S index)
      end
  end.

Definition list_dir (namespace : bytes) : Call S unit := list_dir_from fuel namespace 0.

(** ** Expansion *)

(** Every round drops at least a byte. *)
Fixpoint expand_from (n : nat) (l args : bytes) (store : VarStore) : Call S unit :=
  match n, l with
  | O, _ | _, [] => call_ret tt
  | Datatypes.S n, b :: rest =>
      if b =? ch "$" then
        let name_end := var_name_end rest in
        let name := take name_end rest in
        do& (if same_bytes name (bs "pid") then let& pid := rt.pid in rt.print_usize pid
             else if same_bytes name (bs "args") then rt.write args
             else match var_get name store with Some value => rt.write value | None => call_ret tt end) in
        expand_from n (drop name_end rest) args store
      else do& rt.write [b] in expand_from n rest args store
  end.

Definition print_expanded (l args : bytes) (store : VarStore) : Call S unit :=
  expand_from (length l) l args store.

(** ** Lines *)

(** A command that leaves the variables alone. *)
Definition keeping (store : VarStore) (m : Call S unit) : Call S VarStore := do& m in call_ret store.

(** The function of the two words of [rest]. *)
Definition words {A} (f : bytes -> bytes -> A) (rest : bytes) : A := let '(a, b) := split_word rest in f a b.

Definition commands (rest args : bytes) (store : VarStore) : list (bytes * Call S VarStore) :=
  let run := keeping store in
  [(bs "print", run (do& print_expanded rest args store in rt.write nl));
   (bs "write", run (print_expanded rest args store));
   (bs "pid", run (do& rt.print (bs "pid ") in let& pid := rt.pid in do& rt.print_usize pid in rt.write nl));
   (bs "args", run (says [bs "args "; if bytes_eq args [] then bs "<none>" else args; nl]));
   (bs "set", call_ret (words (fun name value => var_set name value store) rest));
   (bs "get", run (match var_get rest store with Some value => says [value; nl] | None => call_ret tt end));
   (bs "cat", run (cat rest));
   (bs "writefile", run (words write_file rest));
   (bs "stat", run (stat_path rest));
   (bs "listdir", run (list_dir rest));
   (bs "mkdir", run (mkdir rest));
   (bs "fillfile", run (words fill_file rest));
   (bs "countfile", run (count_file rest));
   (bs "env", run env);
   (bs "getenv", run (getenv rest));
   (bs "setenv", run (words setenv rest));
   (bs "unsetenv", run (unsetenv rest));
   (bs "spawn", run (words spawn rest));
   (bs "daemon", run (words daemon rest));
   (bs "wait", run (wait_process rest));
   (bs "sleep", run (sleep_ms rest));
   (bs "time", run time_ticks);
   (bs "stdio", run stdio);
   (bs "pipe", run (pipe_demo rest));
   (bs "redir", run (redir_demo rest));
   (bs "spawnredir", run (spawn_redir rest));
   (bs "spawnstdin", run (spawn_stdin rest));
   (bs "spawnio", run (spawn_io rest));
   (bs "spawnioe", run (spawn_io_err rest));
   (bs "rm", run (unlink rest));
   (bs "rename", run (words rename rest));
   (bs "pwd", run pwd);
   (bs "cd", run (chdir rest));
   (bs "errno", run errno)].

Definition run_line (line : bytes) (line_no : Z) (args : bytes) (store : VarStore) : Call S VarStore :=
  match line with
  | [] => call_ret store
  | b :: _ =>
      if b =? ch "#" then call_ret store
      else
        let '(command, rest) := split_word line in
        dispatch command (commands rest args store)
          (keeping store
             (do& rt.print (bs "rysh: unknown command at line ") in
              do& rt.print_usize line_no in
              says [bs ": "; command; nl]))
  end.

Fixpoint run_lines (lines : list bytes) (line_no : Z) (args : bytes) (store : VarStore) : Call S VarStore :=
  match lines with
  | [] => call_ret store
  | line :: rest =>
      let& store := run_line (trim_cr (trim line)) line_no args store in
      run_lines rest (line_no + 1) args store
  end.

Definition run_script (script args : bytes) (store : VarStore) : Call S VarStore :=
  run_lines (script_lines script []) 1 args store.

Definition rymos_main : Call S Z :=
  let& args := rt.args (replicate 96 0) in
  let script_path := default (bs "build/demo.rym") (first_word args) in
  do& says [bs "rysh: "; script_path; nl] in
  let& data := rt.file_read script_path (replicate SCRIPT_SIZE 0) in
  match data with
  | None => do& says [bs "rysh: script not found: "; script_path; nl] in call_ret 1
  | Some data => do& run_script data args VarStore_new in call_ret 0
  end.

End Rysh.

(** ** The lookups

    What [VarStore::set] and [VarStore::get] do to the variables, on every branch: a
    known name, a free slot, a full table (slot 0 is overwritten), the empty name, and
    a name that does not fit. *)

(** Eight slots; the used ones have distinct names, and names and values fit. *)
Record vars_wf (st : VarStore) : Prop := {
  vs_slots : length (vars st) = MAX_VARS;
  vs_fits : forall i v, vars st !! i = Some v -> var_used v = true ->
    var_name v <> [] /\ (length (var_name v) <= NAME_SIZE)%nat /\ (length (var_value v) <= VALUE_SIZE)%nat;
  vs_distinct : forall i j v w, vars st !! i = Some v -> vars st !! j = Some w ->
    var_used v = true -> var_used w = true -> var_name v = var_name w -> i = j
}.

(** Slot [i] holds the variable [name]. *)
Definition slot_of (st : VarStore) (name : bytes) (i : nat) : Prop :=
  exists v, vars st !! i = Some v /\ var_used v = true /\ var_name v = name.

Lemma var_at_lookup st i v : vars st !! i = Some v -> var_at st i = v.
Proof. intros Hi. unfold var_at. apply nth_lookup_Some with (d := Var_empty) in Hi. done. Qed.

Lemma var_lookup st i : (i < length (vars st))%nat -> vars st !! i = Some (var_at st i).
Proof.
  intros Hi. destruct (lookup_lt_is_Some_2 _ _ Hi) as [v Hv]. by rewrite (var_at_lookup st i v).
Qed.

Lemma find_slot st name i : vars_wf st -> var_find name st = Some i <-> slot_of st name i.
Proof.
  intros Hwf. unfold var_find. split.
  - intros (Hi & Hp & _)%find_first_some. apply andb_true_iff in Hp as [Hu Hn].
    apply bytes_eq_spec in Hn. exists (var_at st i). by rewrite var_lookup.
  - intros (v & Hv & Hu & Hn). pose proof (lookup_lt_Some _ _ _ Hv) as Hi.
    destruct (find_first _ _) as [j|] eqn:E.
    + apply find_first_some in E as (Hj & Hp & _). apply andb_true_iff in Hp as [Hju Hjn].
      apply bytes_eq_spec in Hjn. f_equal. eapply (vs_distinct st Hwf); [by apply var_lookup|exact Hv|done|done|congruence].
    + apply find_first_none with (j := i) in E; [|done]. rewrite (var_at_lookup st i v Hv), Hu in E.
      unfold same_bytes in E. rewrite Hn, bytes_eq_refl in E. done.
Qed.

Lemma find_slot_none st name : vars_wf st -> var_find name st = None <-> forall i, ~ slot_of st name i.
Proof.
  intros Hwf. split.
  - intros E i Hi. apply find_slot in Hi; [congruence|done].
  - intros Hno. destruct (var_find name st) as [i|] eqn:E; [|done]. apply find_slot in E; [|done].
    by destruct (Hno i).
Qed.

Lemma get_slot st name v i : vars_wf st ->
  vars st !! i = Some v -> var_used v = true -> var_name v = name -> var_get name st = Some (var_value v).
Proof.
  intros Hwf Hi Hu Hn. unfold var_get. rewrite (proj2 (find_slot st name i Hwf)) by by exists v.
  by rewrite (var_at_lookup st i v Hi).
Qed.

Lemma get_absent st name : var_find name st = None -> var_get name st = None.
Proof. intros E. unfold var_get. by rewrite E. Qed.

(** The slot [set] writes to. *)
Definition target (st : VarStore) (name : bytes) : nat :=
  match var_find name st with
  | Some index => index
  | None => default 0%nat (var_free_slot st)
  end.

Lemma target_lt st name : vars_wf st -> (target st name < length (vars st))%nat.
Proof.
  intros Hwf. unfold target. destruct (var_find name st) as [i|] eqn:E.
  - unfold var_find in E. by apply find_first_some in E as (Hi & _).
  - destruct (var_free_slot st) as [i|] eqn:F; simpl.
    + unfold var_free_slot in F. by apply find_first_some in F as (Hi & _).
    + rewrite (vs_slots _ Hwf). unfold MAX_VARS. lia.
Qed.

(** No slot but the target holds the name. *)
Lemma target_only st name i : vars_wf st -> slot_of st name i -> i = target st name.
Proof. intros Hwf Hi. unfold target. by rewrite (proj2 (find_slot st name i Hwf) Hi). Qed.

Lemma copy_fits source size : (length source <= size)%nat -> copy_bytes source size = source.
Proof. intros Hl. unfold copy_bytes. rewrite Nat.min_l by done. by apply take_ge. Qed.

Lemma copy_length source size : (length (copy_bytes source size) <= size)%nat.
Proof. unfold copy_bytes. rewrite length_take. lia. Qed.

Lemma copy_take source size : copy_bytes source size = take size source.
Proof.
  unfold copy_bytes. destruct (decide (length source <= size)%nat).
  - rewrite Nat.min_l, !take_ge by lia. done.
  - by rewrite Nat.min_r by lia.
Qed.

Section Setting.

Context (st : VarStore) (name value : bytes).
Context (Hwf : vars_wf st) (Hne : name <> []) (Hfit : (length name <= NAME_SIZE)%nat).

Let st' : VarStore := var_set name value st.
Let v' : Var := mkVar true name (take VALUE_SIZE value).

Lemma set_vars : vars st' = <[target st name := v']> (vars st).
Proof using Hne Hfit.
  unfold st', var_set. destruct (bytes_eq name []) eqn:E; [by apply bytes_eq_spec in E|].
  simpl. unfold v', target. by rewrite (copy_fits name NAME_SIZE), copy_take by done.
Qed.

Lemma set_at_target : vars st' !! target st name = Some v'.
Proof using Hwf Hne Hfit. rewrite set_vars. apply list_lookup_insert_eq, target_lt, Hwf. Qed.

Lemma set_other_slot i : i <> target st name -> vars st' !! i = vars st !! i.
Proof using Hne Hfit. intros Hi. rewrite set_vars. by apply list_lookup_insert_ne. Qed.

Lemma set_keeps_wf : vars_wf st'.
Proof using Hwf Hne Hfit.
  pose proof set_at_target as Ht. split.
  - rewrite set_vars, length_insert. apply Hwf.
  - intros i v Hi Hu. destruct (decide (i = target st name)) as [->|Hn].
    + assert (v = v') as -> by congruence. simpl. split_and!; [done|done|rewrite length_take; lia].
    + rewrite set_other_slot in Hi by done. by apply (vs_fits st Hwf i).
  - assert (Hclash : forall i v, i <> target st name -> vars st !! i = Some v -> var_used v = true ->
      var_name v = name -> False).
    { intros i v Hn Hi Hu Hv. destruct Hn. apply target_only; [done|]. by exists v. }
    intros i j v w Hi Hj Hu Hw Hn.
    destruct (decide (i = target st name)) as [->|Hni], (decide (j = target st name)) as [->|Hnj]; [done|..].
    + assert (v = v') as -> by congruence. rewrite set_other_slot in Hj by done. by destruct (Hclash j w Hnj Hj Hw).
    + assert (w = v') as -> by congruence. rewrite set_other_slot in Hi by done. by destruct (Hclash i v Hni Hi Hu).
    + rewrite set_other_slot in Hi, Hj by done. eapply (vs_distinct st Hwf); eauto.
Qed.

Lemma set_gets : var_get name st' = Some (take VALUE_SIZE value).
Proof using Hwf Hne Hfit. by rewrite (get_slot st' name v' (target st name) set_keeps_wf set_at_target). Qed.

(** Another name keeps its slot, unless it was in the target. *)
Lemma set_other_name n :
  n <> name ->
  var_get n st' = if decide (var_find n st = Some (target st name)) then None else var_get n st.
Proof using Hwf Hne Hfit.
  intros Hn. pose proof set_keeps_wf as Hwf'. case_decide as Hd.
  - apply get_absent, find_slot_none; [done|]. intros i (v & Hi & Hu & Hv).
    apply find_slot in Hd as (w & Hw & Hwu & Hwn); [|done].
    destruct (decide (i = target st name)) as [->|Hni].
    + rewrite set_at_target in Hi. injection Hi as <-. by apply Hn.
    + rewrite set_other_slot in Hi by done. destruct Hni.
      eapply (vs_distinct st Hwf); [exact Hi|exact Hw|done|done|congruence].
  - destruct (var_find n st) as [i|] eqn:E.
    + pose proof E as Hs. apply find_slot in Hs as (v & Hi & Hu & Hv); [|done].
      assert (i <> target st name) by congruence.
      rewrite (get_slot st n v i), (get_slot st' n v i); [done|done|by rewrite set_other_slot|done..].
    + rewrite (get_absent st n E). apply get_absent, find_slot_none; [done|].
      intros i (v & Hi & Hu & Hv). destruct (decide (i = target st name)) as [->|Hni].
      * rewrite set_at_target in Hi. injection Hi as <-. by apply Hn.
      * rewrite set_other_slot in Hi by done. apply find_slot_none with (i := i) in E; [|done].
        destruct E. by exists v.
Qed.

End Setting.

(** The slot of another name is overwritten only when the table is full, and then
    it is slot 0. *)
Lemma evicted st name n :
  vars_wf st -> n <> name ->
  var_find n st = Some (target st name) <->
  (var_find name st = None /\ var_free_slot st = None /\ var_find n st = Some 0%nat).
Proof.
  intros Hwf Hn. split.
  - intros Hf. pose proof Hf as Hs. apply find_slot in Hs as (v & Hv & Hu & Hvn); [|done].
    unfold target in *. destruct (var_find name st) as [i|] eqn:E.
    + apply find_slot in E as (w & Hw & _ & Hwn); [|done]. congruence.
    + destruct (var_free_slot st) as [i|] eqn:F; simpl in *; [|done].
      unfold var_free_slot in F. apply find_first_some in F as (_ & Hfree & _).
      rewrite (var_at_lookup st i v Hv), Hu in Hfree. done.
  - intros (E & F & Hf). unfold target. by rewrite E, F.
Qed.

Lemma VarStore_new_wf : vars_wf VarStore_new.
Proof.
  split; [done|..]; unfold VarStore_new; cbn [vars].
  - intros i v Hi Hu. apply lookup_replicate in Hi as [-> _]. done.
  - intros i j v w Hi _ Hu. apply lookup_replicate in Hi as [-> _]. done.
Qed.

(** A name of more than [NAME_SIZE] bytes is stored cut and never found. *)
Lemma long_name_lost st name value :
  vars_wf st -> (NAME_SIZE < length name)%nat -> var_get name (var_set name value st) = None.
Proof.
  intros Hwf Hl. apply get_absent. unfold var_find. destruct (find_first _ _) as [i|] eqn:E; [|done].
  exfalso. apply find_first_some in E as (Hi & Hp & _). apply andb_true_iff in Hp as [Hu Hn].
  apply bytes_eq_spec in Hn. revert Hi Hu Hn. unfold var_set.
  destruct (bytes_eq name []) eqn:Ee; [apply bytes_eq_spec in Ee; subst; simpl in Hl; lia|].
  simpl. rewrite length_insert. intros Hi Hu Hn.
  set (w := mkVar true (copy_bytes name NAME_SIZE) (copy_bytes value VALUE_SIZE)) in *.
  match goal with _ : var_used (var_at (mkStore (<[?k := _]> _)) _) = true |- _ => set (t := k) in * end.
  destruct (lookup_lt_is_Some_2 (<[t := w]> (vars st)) i) as [v Hv]; [by rewrite length_insert|].
  rewrite (var_at_lookup (mkStore _) i v Hv) in Hu, Hn.
  apply list_lookup_insert_Some in Hv as [(_ & <- & _)|(_ & Hv)].
  - simpl in Hn. pose proof (copy_length name NAME_SIZE). rewrite Hn in *. lia.
  - destruct (vs_fits st Hwf i v Hv Hu) as (_ & Hlen & _). rewrite Hn in Hlen. lia.
Qed.

(** ** Property *)

(** C37: On a well-formed table, setting a variable whose name fits keeps the table
    well-formed, makes that name read as the first 64 bytes of the value, and
    changes no other name, except that a new name in a full table takes slot 0 and
    removes the name that was there. The empty name changes nothing; a name that
    does not fit reads as unset afterwards. *)
Theorem var_set_updates st name value :
  vars_wf st ->
  let st' := var_set name value st in
  (name = [] -> st' = st) /\
  (name <> [] -> (length name <= NAME_SIZE)%nat ->
     vars_wf st' /\ var_get name st' = Some (take VALUE_SIZE value) /\
     forall n, n <> name ->
       (var_find name st = None /\ var_free_slot st = None /\ var_find n st = Some 0%nat /\
        var_get n st' = None) \/
       ((is_Some (var_find name st) \/ is_Some (var_free_slot st) \/ var_find n st <> Some 0%nat) /\
        var_get n st' = var_get n st)) /\
  ((NAME_SIZE < length name)%nat -> var_get name st' = None).
Proof.
  intros Hwf st'. split_and!.
  - by intros ->.
  - intros Hne Hfit. split_and!; [by apply set_keeps_wf|by apply set_gets|]. intros n Hn.
    unfold st'. rewrite set_other_name by done. pose proof (evicted st name n Hwf Hn) as Hev.
    case_decide as Hd; [left; apply Hev in Hd; naive_solver|right]. split; [|done].
    destruct (var_find name st); [eauto|]. destruct (var_free_slot st); [eauto|]. right. right. naive_solver.
  - by apply long_name_lost.
Qed.

(** Eight variables fill the table; the ninth takes the place of the first. *)
Definition full_store : VarStore :=
  fold_left (fun st k => var_set [Z.of_nat k] [49] st) (seq 97 8) VarStore_new.

Lemma full_store_wf : vars_wf full_store.
Proof.
  unfold full_store. assert (Hk : Forall (fun k => (97 <= k)%nat) (seq 97 8)) by (repeat constructor; lia).
  revert Hk. generalize VarStore_new_wf. generalize VarStore_new. induction (seq 97 8) as [|k l IH]; intros st Hw Hk; [done|].
  simpl. inversion Hk. apply IH; [|done]. apply set_keeps_wf; [done|done|simpl; unfold NAME_SIZE; lia].
Qed.

Lemma var_set_updates_witness :
  let st' := var_set (bs "x") (bs "2") full_store in
  vars_wf st' /\ var_get (bs "x") st' = Some (bs "2") /\ var_get (bs "a") st' = None /\
  var_get (bs "b") st' = Some (bs "1").
Proof.
  destruct (var_set_updates full_store (bs "x") (bs "2") full_store_wf) as (_ & H1 & _).
  destruct H1 as (H1 & H2 & _); [discriminate|unfold NAME_SIZE; simpl; lia|].
  split_and!; [exact H1|exact H2|reflexivity|reflexivity].
Defined.
