(* ===== verification/RyshThm.v ===== *)
(** * What script commands do, against the function table

    From [FileLaws] and [ScreenLaws]: [print] shows the expansion of its line,
    [writefile] followed by [cat] shows the text, and [fillfile] followed by
    [countfile] shows the number of bytes, of [src/programs/rysh/src/main.rs]. *)

From S2P Require UserFs.
From S2P Require Import Prelude Text UserAbi UserIo UserFiles UserScreen Rysh.
Import Consts.

(** ** Expansion as a relation *)

(** What stands for [$name]. *)
Definition variable (pid : Z) (args : bytes) (store : VarStore) (name : bytes) : bytes :=
  if bytes_eq name (bs "pid") then write_usize pid
  else if bytes_eq name (bs "args") then args
  else default [] (var_get name store).

(** [$] takes the longest name after it; every other byte stands for itself. *)
Inductive expands (pid : Z) (args : bytes) (store : VarStore) : bytes -> bytes -> Prop :=
  | expands_nil : expands pid args store [] []
  | expands_byte b l out :
      b <> ch "$" -> expands pid args store l out -> expands pid args store (b :: l) (b :: out)
  | expands_var name l out :
      Forall (fun b => is_var_byte b = true) name ->
      (forall b r, l = b :: r -> is_var_byte b = false) ->
      expands pid args store l out ->
      expands pid args store (ch "$" :: name ++ l) (variable pid args store name ++ out).

(** The longest name is unique. *)
Lemma longest_name name1 name2 l1 l2 :
  name1 ++ l1 = name2 ++ l2 ->
  Forall (fun b => is_var_byte b = true) name1 -> (forall b r, l1 = b :: r -> is_var_byte b = false) ->
  Forall (fun b => is_var_byte b = true) name2 -> (forall b r, l2 = b :: r -> is_var_byte b = false) ->
  name1 = name2 /\ l1 = l2.
Proof.
  revert name2. induction name1 as [|b name1 IH]; intros [|c name2] E F1 S1 F2 S2; simpl in E.
  - done.
  - apply Forall_cons in F2 as [Hc _]. rewrite (S1 _ _ E) in Hc. done.
  - apply Forall_cons in F1 as [Hb _]. rewrite (S2 _ _ (eq_sym E)) in Hb. done.
  - injection E as -> E. apply Forall_cons in F1 as [_ F1]. apply Forall_cons in F2 as [_ F2].
    by destruct (IH name2 E F1 S1 F2 S2) as [-> ->].
Qed.

Lemma expands_fun pid args store l out1 out2 :
  expands pid args store l out1 -> expands pid args store l out2 -> out1 = out2.
Proof.
  intros H1. revert out2. induction H1 as [|b l out1 Hb H1 IH|name l out1 Hn Hl H1 IH]; intros out2 H2.
  - by inversion H2.
  - inversion H2; subst; [|done]. f_equal. auto.
  - inversion H2 as [| |name' l' out' Hn' Hl' H2' El]; subst; [done|].
    destruct (longest_name _ _ _ _ El Hn' Hl' Hn Hl) as [-> ->]. f_equal. auto.
Qed.

Section RyshThm.

Context {S : Type} `{ScreenLaws S} (fuel : nat).

Lemma prints_says p l : prints p (says l) (concat l).
Proof. induction l as [|x l IH]; simpl; [apply prints_ret|]. apply prints_bind; [apply prints_write|done]. Qed.

Lemma prints_say_usize p message v : prints p (say_usize message v) (message ++ write_usize v ++ nl).
Proof. apply prints_bind; [apply prints_write|]. apply prints_bind; [apply prints_usize|apply prints_write]. Qed.

Lemma prints_if (b : bool) p m1 m2 out1 out2 :
  prints p m1 out1 -> prints p m2 out2 -> prints p (if b then m1 else m2) (if b then out1 else out2).
Proof. by destruct b. Qed.

Lemma prints_variable p args store name :
  prints p (if same_bytes name (bs "pid") then let& pid := pid in print_usize pid
            else if same_bytes name (bs "args") then write args
            else match var_get name store with Some value => write value | None => call_ret tt end)
    (variable p args store name).
Proof.
  unfold variable, same_bytes. repeat apply prints_if.
  - apply prints_pid. intros q ->. apply prints_usize.
  - apply prints_write.
  - destruct (var_get name store); [apply prints_write|apply prints_ret].
Qed.

Lemma prints_expand p n l args store :
  (length l <= n)%nat ->
  exists out, expands p args store l out /\ prints p (expand_from n l args store) out.
Proof.
  revert l. induction n as [|n IH]; intros [|b l] Hn; simpl in Hn; try lia.
  1, 2: exists []; split; [constructor|apply prints_ret].
  cbn [expand_from]. destruct (Z.eqb_spec b (ch "$")) as [->|Hb].
  - destruct (IH (drop (var_name_end l) l)) as (out & He & Hp); [rewrite length_drop; lia|].
    exists (variable p args store (take (var_name_end l) l) ++ out). split.
    + rewrite <- (take_drop (var_name_end l) l) at 1. constructor; [|intros c r Hc|done].
      * apply prefix_len_take.
      * by eapply prefix_len_stop.
    + apply prints_bind; [apply prints_variable|done].
  - destruct (IH l) as (out & He & Hp); [lia|]. exists (b :: out). split; [by constructor|].
    apply (prints_bind p _ _ [b] out); [apply prints_write|done].
Qed.

Lemma prints_expanded p l args store :
  exists out, expands p args store l out /\ prints p (print_expanded l args store) out.
Proof. by apply prints_expand. Qed.

(** ** Reading and writing files *)

(** What [cat] shows of the rest of a file. *)
Definition shown_rest (wrote_any : bool) (rest : bytes) : bytes :=
  rest ++ (if wrote_any || negb (bytes_eq rest []) then nl else []).

(** One read: the next chunk, with the screen as it was. *)
Lemma read_chunk s t f path content off n :
  opened s ReadOnly (fd f) path content off -> 0 <= off <= blen content -> screen s t -> (0 < n)%nat ->
  let rest := drop (Z.to_nat off) content in
  let got := take n rest in
  exists s', answers (read_file f (replicate n 0)) s (Some got) s' /\
    opened s' ReadOnly (fd f) path content (off + blen got) /\ off + blen got <= blen content /\ screen s' t /\
    (got = [] -> rest = []) /\ rest = got ++ drop (Z.to_nat (off + blen got)) content /\
    (got <> [] -> length (drop (Z.to_nat (off + blen got)) content) < length rest)%nat.
Proof.
  intros Ho Hr Hs Hn rest got.
  destruct (read_file_law s ReadOnly f path content off n Ho ltac:(done)) as (s' & Ha & Ho').
  fold rest in Ha, Ho'. fold got in Ha, Ho'. exists s'.
  assert (E : rest = got ++ drop (Z.to_nat (off + blen got)) content)
    by (symmetry; apply (chunk_rest n); [done|lia]).
  split_and!; [done|done| | | |done|].
  - unfold got, rest, blen in *. rewrite length_take, length_drop. lia.
  - eapply screen_read; [by eapply screen_fd_law|done|done].
  - intros Hg. apply (f_equal length) in Hg. unfold got in Hg. rewrite length_take in Hg.
    apply nil_length_inv. cbn [length] in Hg. lia.
  - intros Hg. apply (f_equal length) in E. rewrite length_app in E. destruct got; [done|].
    cbn [length] in E. lia.
Qed.

Lemma cat_from_law n s t f path content off wrote_any :
  opened s ReadOnly (fd f) path content off -> 0 <= off <= blen content -> screen s t ->
  (length (drop (Z.to_nat off) content) < n)%nat ->
  exists s' , answers (cat_from n path f wrote_any) s tt s' /\
    screen s' (t ++ shown_rest wrote_any (drop (Z.to_nat off) content)) /\
    opened s' ReadOnly (fd f) path content (blen content).
Proof.
  revert s t off wrote_any. induction n as [|n IH]; intros s t off w Ho Hr Hs Hn; [lia|]. cbn [cat_from].
  destruct (read_chunk s t f path content off 512 Ho Hr Hs) as (s1 & A1 & O1 & Hb1 & S1 & Hnil & E & Hlt); [lia|].
  set (rest := drop (Z.to_nat off) content) in *. set (got := take 512 rest) in *.
  clearbody got. destruct got as [|b got].
  - rewrite (Hnil eq_refl) in *. assert (Hoff : off = blen content).
    { assert (Hl : length rest = 0%nat) by by rewrite (Hnil eq_refl). unfold rest in Hl.
      rewrite length_drop in Hl. unfold blen in *. lia. }
    change (blen []) with 0 in O1. rewrite Z.add_0_r, Hoff in O1. unfold shown_rest. simpl. rewrite orb_false_r.
    destruct w.
    + destruct (prints_write (own_pid s1) nl s1 t S1 eq_refl) as (s2 & A2 & S2 & _ & (_ & _ & K)).
      exists s2. split_and!; [|done|auto]. apply answers_bind. by exists (Some []), s1.
    + exists s1. rewrite app_nil_r. split_and!; [|done|done]. apply answers_bind. exists (Some []), s1.
      by rewrite answers_ret.
  - destruct (prints_write (own_pid s1) (b :: got) s1 t S1 eq_refl) as (s2 & A2 & S2 & _ & (_ & _ & K)).
    destruct (IH s2 (t ++ b :: got) (off + blen (b :: got)) true) as (s3 & A3 & S3 & O3);
      [by apply K|pose proof (blen_nonneg (b :: got)); lia|done|specialize (Hlt ltac:(done)); lia|].
    exists s3. split_and!; [| |done].
    + apply answers_bind. exists (Some (b :: got)), s1. split; [done|]. apply answers_bind. by exists tt, s2.
    + unfold shown_rest in *. rewrite E, orb_true_r. simpl in S3 |- *. by rewrite <- !app_assoc in *.
Qed.

Lemma count_from_law n s t f path content off total :
  opened s ReadOnly (fd f) path content off -> 0 <= off <= blen content -> screen s t ->
  (length (drop (Z.to_nat off) content) < n)%nat ->
  exists s' , answers (count_from n path f total) s tt s' /\
    screen s' (t ++ bs "count " ++ path ++ bs " " ++
                 write_usize (total + blen (drop (Z.to_nat off) content)) ++ nl) /\
    opened s' ReadOnly (fd f) path content (blen content).
Proof.
  revert s t off total. induction n as [|n IH]; intros s t off total Ho Hr Hs Hn; [lia|]. cbn [count_from].
  destruct (read_chunk s t f path content off 512 Ho Hr Hs) as (s1 & A1 & O1 & Hb1 & S1 & Hnil & E & Hlt); [lia|].
  set (rest := drop (Z.to_nat off) content) in *. set (got := take 512 rest) in *.
  clearbody got. destruct got as [|b got].
  - rewrite (Hnil eq_refl) in *. assert (Hoff : off = blen content).
    { assert (Hl : length rest = 0%nat) by by rewrite (Hnil eq_refl). unfold rest in Hl.
      rewrite length_drop in Hl. unfold blen in *. lia. }
    change (blen []) with 0 in *. rewrite Z.add_0_r in *. rewrite Hoff in O1.
    assert (Hp : prints (own_pid s1) (do& says [bs "count "; path] in say_usize (bs " ") total)
      (concat [bs "count "; path] ++ bs " " ++ write_usize total ++ nl)).
    { apply prints_bind; [apply prints_says|apply prints_say_usize]. }
    destruct (Hp s1 t S1 eq_refl) as (s2 & A2 & S2 & _ & (_ & _ & K)).
    exists s2. split_and!; [| |auto].
    + apply answers_bind. by exists (Some []), s1.
    + cbn [concat] in S2. rewrite app_nil_r, <- !app_assoc in S2. exact S2.
  - destruct (IH s1 t (off + blen (b :: got)) (total + blen (b :: got)) O1 ltac:(pose proof (blen_nonneg (b :: got)); lia) S1) as (s3 & A3 & S3 & O3).
    { specialize (Hlt ltac:(done)); lia. }
    exists s3. split_and!; [| |done].
    + apply answers_bind. by exists (Some (b :: got)), s1.
    + rewrite E. rewrite blen_app. by rewrite Z.add_assoc.
Qed.

(** A command on an open file: opened, used, dropped. *)
Lemma with_opened s t path content message (k : File -> Call S unit) out :
  named s path content -> screen s t ->
  (forall s1 f, opened s1 ReadOnly (fd f) path content 0 -> screen s1 t ->
     exists s2, answers (k f) s1 tt s2 /\ screen s2 (t ++ out) /\
       opened s2 ReadOnly (fd f) path content (blen content)) ->
  exists s', answers (with_file (file_open path) message path k) s tt s' /\ screen s' (t ++ out) /\
    named s' path content.
Proof.
  intros Hn Hs Hk. destruct (open_law s path content Hn) as (r & s1 & Hopen & Ho).
  apply open_mode_law in Hopen. pose proof (screen_opened _ _ _ _ _ _ Hs Hopen) as S1.
  destruct (opened_range _ _ _ _ _ _ Ho) as (Hr & _). destruct (Z.ltb_spec r 0); [lia|].
  destruct (Hk s1 (mkFile r) Ho S1) as (s2 & A2 & S2 & O2).
  destruct (drop_law _ _ _ _ _ _ O2) as (s3 & A3 & N3). exists s3. split_and!; [| |done].
  - apply answers_bind. exists (Some (mkFile r)), s1. split; [done|]. apply answers_bind. by exists tt, s2.
  - eapply screen_dropped; [by eapply screen_fd_law|done|done].
Qed.

Lemma cat_law s t path content :
  named s path content -> screen s t -> (length content < fuel)%nat ->
  exists s', answers (cat fuel path) s tt s' /\ screen s' (t ++ shown_rest false content) /\
    named s' path content.
Proof.
  intros Hn Hs Hf. apply with_opened; [done|done|]. intros s1 f Ho Hs1.
  apply (cat_from_law fuel s1 t f path content 0 false); [done|unfold blen; lia|done|]. by rewrite drop_0.
Qed.

Lemma count_file_law s t path content :
  named s path content -> screen s t -> (length content < fuel)%nat ->
  exists s', answers (count_file fuel path) s tt s' /\
    screen s' (t ++ bs "count " ++ path ++ bs " " ++ write_usize (blen content) ++ nl) /\
    named s' path content.
Proof.
  intros Hn Hs Hf. apply with_opened; [done|done|]. intros s1 f Ho Hs1.
  apply (count_from_law fuel s1 t f path content 0 0); [done|unfold blen; lia|done|]. by rewrite drop_0.
Qed.

(** A command on a fresh file. [good] is the text that says it succeeded. *)
Lemma with_created s t path message (k : File -> Call S unit) good content :
  ready s path -> screen s t -> good <> message ++ path ++ nl ->
  (forall s1 f, opened s1 ReadWrite (fd f) path [] 0 -> screen s1 t ->
     exists s2 out, answers (k f) s1 tt s2 /\ screen s2 (t ++ out) /\
       (out = good -> opened s2 ReadWrite (fd f) path content (blen content))) ->
  exists s' out, answers (with_file (file_create path) message path k) s tt s' /\ screen s' (t ++ out) /\
    (out = good -> named s' path content).
Proof.
  intros Hr Hs Hgood Hk. destruct (create_law s ReadWrite path Hr eq_refl) as (r & s1 & Hopen & Ho).
  apply open_mode_law in Hopen. pose proof (screen_opened _ _ _ _ _ _ Hs Hopen) as S1.
  destruct (Z.ltb_spec r 0).
  - destruct (prints_says (own_pid s1) [message; path; nl] s1 t S1 eq_refl) as (s2 & A2 & S2 & _).
    exists s2, (message ++ path ++ nl). split_and!; [|by cbn [concat] in S2; rewrite app_nil_r in S2|intros Hg; by destruct Hgood].
    apply answers_bind. by exists None, s1.
  - specialize (Ho ltac:(lia)). pose proof (screen_fd_law _ _ _ _ _ _ Ho) as Hfd.
    destruct (Hk s1 (mkFile r) Ho S1) as (s2 & out & A2 & S2 & O2).
    destruct (drop_total s2 (mkFile r)) as (s3 & A3). exists s3, out. split_and!.
    + apply answers_bind. exists (Some (mkFile r)), s1. split; [done|]. apply answers_bind. by exists tt, s2.
    + by apply (screen_dropped s2 _ (mkFile r)).
    + intros Hg. destruct (drop_law _ _ _ _ _ _ (O2 Hg)) as (s4 & A4 & N4).
      by destruct (answers_fun _ _ _ _ _ _ A3 A4) as [_ ->].
Qed.

(** A message shown in a state where nothing is claimed afterwards. *)
Lemma says_only s t l : screen s t -> exists s', answers (says l) s tt s' /\ screen s' (t ++ concat l).
Proof. intros Hs. destruct (prints_says (own_pid s) l s t Hs eq_refl) as (s' & A & B & _). by exists s'. Qed.

(** Why [writefile] shows a message: the system refuses to create the file, refuses the
    write, or takes less than the text. *)
Inductive write_refused (s : S) (path text : bytes) : bytes -> Prop :=
  | refused_create s1 :
      answers (file_create path) s None s1 -> write_refused s path text (bs "rysh: open failed: ")
  | refused_write s1 f s2 :
      answers (file_create path) s (Some f) s1 -> answers (UserIo.write_file f text) s1 None s2 ->
      write_refused s path text (bs "rysh: write failed: ")
  | refused_part s1 f n s2 :
      answers (file_create path) s (Some f) s1 -> answers (UserIo.write_file f text) s1 (Some n) s2 -> n < blen text ->
      write_refused s path text (bs "rysh: short write: ").

(** The outcome of the write decides what [write_file] does once the file is created. *)
Lemma write_created_spec s s1 t f path text :
  answers (file_create path) s (Some f) s1 ->
  opened s1 ReadWrite (fd f) path [] 0 -> screen s1 t -> is_slice text -> text <> [] ->
  exists s', answers (write_file path text) s tt s' /\
    ((screen s' t /\ named s' path text) \/
     exists message, write_refused s path text message /\ screen s' (t ++ message ++ path ++ nl)).
Proof.
  intros Ac Ho S1 Ht Hne. pose proof (screen_fd_law _ _ _ _ _ _ Ho) as Hfd.
  destruct (write_file_law s1 ReadWrite f path [] 0 text Ho ltac:(done) Ht Hne) as (r & s2 & A2 & O2).
  pose proof (screen_write _ _ _ _ _ _ Hfd S1 A2) as S2.
  assert (Hsay : forall message, write_refused s path text message ->
    (forall s3 s4, answers (says [message; path; nl]) s2 tt s3 -> answers (drop_file f) s3 tt s4 ->
       answers (write_file path text) s tt s4) ->
    exists s', answers (write_file path text) s tt s' /\
      ((screen s' t /\ named s' path text) \/
       exists message, write_refused s path text message /\ screen s' (t ++ message ++ path ++ nl))).
  { intros message Hm Hrun. destruct (says_only s2 t [message; path; nl] S2) as (s3 & A3 & S3).
    destruct (drop_total s3 f) as (s4 & A4). exists s4. split; [by apply (Hrun s3)|]. right. exists message.
    split; [done|]. cbn [concat] in S3. rewrite app_nil_r in S3. by apply (screen_dropped s3 _ f). }
  destruct r as [n|].
  - destruct O2 as [Hn O2]. destruct (Z.eqb_spec n (blen text)) as [->|Hshort].
    + rewrite take_ge in O2 by (unfold blen; lia). change 0 with (blen []) in O2 at 1. rewrite splice_end in O2.
      destruct (drop_law _ _ _ _ _ _ O2) as (s3 & A3 & N3). exists s3. split.
      * apply answers_bind. exists (Some f), s1. split; [done|]. apply answers_bind. exists tt, s2. split; [|done].
        apply answers_bind. exists (Some (blen text)), s2. split; [done|]. rewrite Z.eqb_refl. by apply answers_ret.
      * left. split; [by apply (screen_dropped s2 _ f)|done].
    + apply (Hsay (bs "rysh: short write: ")); [by apply (refused_part _ _ _ s1 f n s2); [..|lia]|].
      intros s3 s4 A3 A4. apply answers_bind. exists (Some f), s1. split; [done|]. apply answers_bind. exists tt, s3. split; [|done].
      apply answers_bind. exists (Some n), s2. split; [done|]. by destruct (Z.eqb_spec n (blen text)).
  - apply (Hsay (bs "rysh: write failed: ")); [by apply (refused_write _ _ _ s1 f s2)|].
    intros s3 s4 A3 A4. apply answers_bind. exists (Some f), s1. split; [done|]. apply answers_bind. exists tt, s3. split; [|done].
    apply answers_bind. by exists None, s2.
Qed.

Lemma write_command_spec s t path text :
  ready s path -> screen s t -> is_slice text -> text <> [] ->
  exists s', answers (write_file path text) s tt s' /\
    ((screen s' t /\ named s' path text) \/
     exists message, write_refused s path text message /\ screen s' (t ++ message ++ path ++ nl)).
Proof.
  intros Hr Hs Ht Hne. destruct (create_law s ReadWrite path Hr eq_refl) as (r & s1 & Hopen & Ho).
  apply open_mode_law in Hopen. pose proof (screen_opened _ _ _ _ _ _ Hs Hopen) as S1.
  destruct (Z.ltb_spec r 0) as [Hneg|Hpos].
  - destruct (says_only s1 t [bs "rysh: open failed: "; path; nl] S1) as (s2 & A2 & S2).
    cbn [concat] in S2. rewrite app_nil_r in S2. exists s2. split; [apply answers_bind; by exists None, s1|].
    right. exists (bs "rysh: open failed: "). split; [|done]. by apply refused_create with s1.
  - exact (write_created_spec s s1 t (mkFile r) path text Hopen (Ho Hpos) S1 Ht Hne).
Qed.

(** ** Filling a file *)

Lemma alphabet_length w n : length (alphabet w n) = n.
Proof. unfold alphabet. by rewrite length_map, length_seq. Qed.

Lemma map_seq_shift {A} (f : nat -> A) k m n : map f (seq (k + m) n) = map (fun i => f (k + i)%nat) (seq m n).
Proof.
  revert m. induction n as [|n IH]; intros m; simpl; [done|]. f_equal. rewrite <- IH. f_equal. f_equal. lia.
Qed.

Lemma alphabet_app a b : 0 <= a -> 0 <= b ->
  alphabet 0 (Z.to_nat (a + b)) = alphabet 0 (Z.to_nat a) ++ alphabet a (Z.to_nat b).
Proof.
  intros Ha Hb. unfold alphabet. rewrite Z2Nat.inj_add, seq_app, map_app by done. f_equal.
  rewrite Nat.add_comm, map_seq_shift. apply map_ext. intros i. do 2 f_equal. lia.
Qed.

Lemma alphabet_slice w n : blen (alphabet w n) < 2 ^ 63 -> is_slice (alphabet w n).
Proof.
  intros Hl. split; [|done]. unfold alphabet. apply List.Forall_map, Forall_forall. intros i _.
  pose proof (Z.mod_pos_bound (w + Z.of_nat i) 26). unfold is_u8. change (ch "A") with 65. lia.
Qed.

Definition filled_text (total : Z) : bytes := bs "wrote " ++ write_usize total ++ nl.

Lemma fill_from_law n s t f path total w :
  opened s ReadWrite (fd f) path (alphabet 0 (Z.to_nat w)) w -> screen s t -> 0 <= w <= total ->
  (Z.to_nat (total - w) < n)%nat ->
  exists s' out, answers (fill_from n path f total w) s tt s' /\ screen s' (t ++ out) /\
    (out = filled_text total -> opened s' ReadWrite (fd f) path (alphabet 0 (Z.to_nat total)) total).
Proof.
  revert s w. induction n as [|n IH]; intros s w Ho Hs Hw Hn; [lia|]. cbn [fill_from].
  destruct (Z.ltb_spec w total) as [Hlt|Hge].
  2: { assert (w = total) as -> by lia.
       destruct (prints_say_usize (own_pid s) (bs "wrote ") total s t Hs eq_refl) as (s' & A & B & _ & (_ & _ & K)).
       exists s', (filled_text total). split_and!; [done|done|auto]. }
  set (count := Z.min 256 (total - w)). set (chunk := alphabet w (Z.to_nat count)).
  assert (Hc : blen chunk = count) by (unfold blen, chunk; rewrite alphabet_length; lia).
  assert (Hsl : is_slice chunk) by (apply alphabet_slice; fold chunk; lia).
  assert (Hne : chunk <> []) by (intros E; rewrite E in Hc; unfold blen in Hc; simpl in Hc; lia).
  pose proof (screen_fd_law _ _ _ _ _ _ Ho) as Hfd.
  destruct (write_file_law s ReadWrite f path _ w chunk Ho ltac:(done) Hsl Hne) as (r & s2 & A2 & O2).
  pose proof (screen_write _ _ _ _ _ _ Hfd Hs A2) as S2. destruct r as [m|].
  - destruct O2 as [Hm O2]. destruct (Z.eqb_spec m count) as [->|Hne'].
    + rewrite take_ge in O2 by (unfold blen in Hc; lia).
      assert (Hbl : blen (alphabet 0 (Z.to_nat w)) = w) by (unfold blen; rewrite alphabet_length; lia).
      replace (splice (alphabet 0 (Z.to_nat w)) w chunk) with (alphabet 0 (Z.to_nat (w + count))) in O2.
      2: { rewrite <- Hbl at 3. rewrite splice_end. apply alphabet_app; lia. }
      destruct (IH s2 (w + count) O2 S2) as (s3 & out & A3 & S3 & O3); [lia|lia|].
      exists s3, out. split_and!; [|done|done]. apply answers_bind. exists (Some count), s2.
      split; [done|]. by rewrite Z.eqb_refl.
    + destruct (says_only s2 t [bs "rysh: short write: "; path; nl] S2) as (s3 & A3 & S3).
      exists s3, (concat [bs "rysh: short write: "; path; nl]). split_and!; [|done|done].
      apply answers_bind. exists (Some m), s2. split; [done|]. by destruct (Z.eqb_spec m count).
  - destruct (says_only s2 t [bs "rysh: write failed: "; path; nl] S2) as (s3 & A3 & S3).
    exists s3, (concat [bs "rysh: write failed: "; path; nl]). split_and!; [|done|done].
    apply answers_bind. by exists None, s2.
Qed.

Lemma fill_file_spec s t path count total :
  ready s path -> screen s t -> parse_usize count = Some total -> 0 <= total -> (Z.to_nat total < fuel)%nat ->
  exists s' out, answers (fill_file fuel path count) s tt s' /\ screen s' (t ++ out) /\
    (out = filled_text total -> named s' path (alphabet 0 (Z.to_nat total))).
Proof.
  intros Hr Hs Hc Ht Hf. unfold fill_file. rewrite Hc. apply with_created; [done|done|done|].
  intros s1 f Ho S1.
  destruct (fill_from_law fuel s1 t f path total 0 Ho S1 ltac:(lia)) as (s2 & out & A2 & S2 & O2); [lia|].
  exists s2, out. split_and!; [done|done|]. intros Hg. specialize (O2 Hg).
  unfold blen. by rewrite alphabet_length, Z2Nat.id.
Qed.

(** ** Lines *)

(** The line is the command [command] with the argument text [rest]. *)
Definition is_command (line command rest : bytes) : Prop :=
  exists b l, line = b :: l /\ b <> ch "#" /\ split_word line = (command, rest).

Lemma run_command_line line command rest line_no args store m :
  is_command line command rest ->
  (forall otherwise, dispatch command (commands fuel rest args store) otherwise = keeping store m) ->
  run_line fuel line line_no args store = keeping store m.
Proof.
  intros (b & l & -> & Hb & E) Hd. unfold run_line. destruct (Z.eqb_spec b (ch "#")); [done|].
  rewrite E. apply Hd.
Qed.

Lemma keeping_answers (m : Call S unit) store s s' : answers m s tt s' -> answers (keeping store m) s store s'.
Proof. intros A. apply answers_bind. exists tt, s'. by rewrite answers_ret. Qed.

(** A script of two lines. *)
Lemma two_lines line1 line2 :
  10 ∉ line1 -> 10 ∉ line2 -> script_lines (line1 ++ 10 :: line2) [] = [line1; line2].
Proof.
  intros N1 N2.
  assert (Hl : forall l cur, 10 ∉ l -> script_lines l cur = [cur ++ l]).
  { induction l as [|b l IH]; intros cur Hl; simpl; [by rewrite app_nil_r|].
    destruct (Z.eqb_spec b 10) as [->|_]; [destruct Hl; apply elem_of_cons; by left|].
    rewrite IH, <- app_assoc; [done|]. intros Hb. apply Hl, elem_of_cons. by right. }
  assert (Hp : forall l cur, 10 ∉ l -> script_lines (l ++ 10 :: line2) cur = [cur ++ l; line2]).
  { induction l as [|b l IH]; intros cur Hb; simpl; [by rewrite app_nil_r, Hl|].
    destruct (Z.eqb_spec b 10) as [->|_]; [destruct Hb; apply elem_of_cons; by left|].
    rewrite IH, <- app_assoc; [done|]. intros Hb'. apply Hb, elem_of_cons. by right. }
  by rewrite Hp.
Qed.

(** Running it line by line. *)
Lemma run_two_lines line1 line2 args store1 store2 store3 s1 s2 s3 :
  10 ∉ line1 -> 10 ∉ line2 ->
  answers (run_line fuel (trim_cr (trim line1)) 1 args store1) s1 store2 s2 ->
  answers (run_line fuel (trim_cr (trim line2)) 2 args store2) s2 store3 s3 ->
  answers (run_script fuel (line1 ++ 10 :: line2) args store1) s1 store3 s3.
Proof.
  intros N1 N2 A1 A2. unfold run_script. rewrite two_lines by done. cbn [run_lines].
  apply answers_bind. exists store2, s2. split; [done|]. apply answers_bind. exists store3, s3.
  by rewrite answers_ret.
Qed.

(** ** Scripts *)

Lemma print_line_spec s t line rest line_no args store :
  is_command line (bs "print") rest -> screen s t ->
  exists s' out, expands (own_pid s) args store rest out /\
    answers (run_line fuel line line_no args store) s store s' /\
    screen s' (t ++ out ++ nl) /\ own_pid s' = own_pid s /\ files_kept s s'.
Proof.
  intros Hc Hs. destruct (prints_expanded (own_pid s) rest args store) as (out & He & Hp).
  destruct (prints_bind _ _ _ _ _ Hp (prints_write (own_pid s) nl) s t Hs eq_refl) as (s' & A & B & C & K).
  exists s', out. split_and!; try done.
  rewrite (run_command_line line (bs "print") rest line_no args store _ Hc (fun _ => eq_refl)).
  by apply keeping_answers.
Qed.

Lemma writefile_cat_spec s t line1 line2 rest path text args store :
  10 ∉ line1 -> 10 ∉ line2 ->
  is_command (trim_cr (trim line1)) (bs "writefile") rest -> split_word rest = (path, text) ->
  is_command (trim_cr (trim line2)) (bs "cat") path ->
  ready s path -> screen s t -> is_slice text -> text <> [] -> (length text < fuel)%nat ->
  exists s1, answers (run_line fuel (trim_cr (trim line1)) 1 args store) s store s1 /\
    ((exists s2, answers (run_script fuel (line1 ++ 10 :: line2) args store) s store s2 /\
        screen s1 t /\ named s1 path text /\ screen s2 (t ++ text ++ nl) /\ named s2 path text) \/
     exists message, write_refused s path text message /\ screen s1 (t ++ message ++ path ++ nl)).
Proof.
  intros N1 N2 C1 Hsplit C2 Hr Hs Ht Hne Hf.
  destruct (write_command_spec s t path text Hr Hs Ht Hne) as (s1 & A1 & R).
  assert (R1 : answers (run_line fuel (trim_cr (trim line1)) 1 args store) s store s1).
  { rewrite (run_command_line _ (bs "writefile") rest 1 args store (write_file path text) C1).
    - by apply keeping_answers.
    - intros otherwise. transitivity (keeping store (words write_file rest)); [done|].
      unfold words. by rewrite Hsplit. }
  exists s1. split; [done|]. destruct R as [[S1 P1]|R]; [left|by right].
  destruct (cat_law s1 t path text P1 S1 Hf) as (s2 & A2 & S2 & P2). exists s2. split_and!; [|done|done| |done].
  - eapply run_two_lines; [done|done|exact R1|].
    rewrite (run_command_line _ (bs "cat") path 2 args store _ C2 (fun _ => eq_refl)). by apply keeping_answers.
  - unfold shown_rest in S2. destruct text; [done|]. exact S2.
Qed.

End RyshThm.
