(* ===== verification/ScreenStore.v ===== *)
(** * The kernel keeps the screen laws

    [ScreenLaws] of UserScreen.v, proved of the function table of KernelAbi.v: the
    screen is the console showing the paper roll of what was written, while the
    standard output of the process is not redirected. Then the script theorems of
    RyshThm.v hold of the kernel. *)

From S2P Require Import Prelude Constants Text PfsLayout PfsPath PfsDir PfsAlloc Device Pfs.
From S2P Require Import AtaDisk PfsProps PfsFile Console BootFs Phys Paging Process Env Fd Abi AbiFs AbiFsThm AbiProc KernelAbi UserAbi UserFiles FileStore UserScreen.
From S2P Require Rysh RyshThm.

Section Quiet.

Context {D : Type} `{SectorDev D} (clk : Clock).

(** A handler that touches neither the console nor the standard streams. *)
Definition quiet {A} (m : ST (Sys D) A) : Prop := forall s s' a,
  m s = (s', a) ->
  APP_CONSOLE s' = APP_CONSOLE s /\ std_fds (cur_proc s') = std_fds (cur_proc s).

Lemma quiet_ret {A} (a : A) : quiet (st_ret a).
Proof. by intros s s' b [= -> ->]. Qed.

Lemma quiet_bind {A B} (m : ST (Sys D) A) (k : A -> ST (Sys D) B) :
  quiet m -> (forall a, quiet (k a)) -> quiet (st_bind m k).
Proof.
  intros Hm Hk s s' b. unfold st_bind. destruct (m s) as [s1 a] eqn:E. intros E'.
  destruct (Hm _ _ _ E) as [<- <-]. exact (Hk a _ _ _ E').
Qed.

Lemma quiet_get {A} (f : Sys D -> A) : quiet (get f).
Proof. by intros s s' a [= <- <-]. Qed.

Lemma quiet_disk {A} (m : ST D A) : quiet (on_disk m).
Proof. intros s s' a. unfold on_disk. destruct (m (sys_disk s)). by intros [= <- _]. Qed.

Lemma quiet_with_fds {A} (f : Fds -> Fds * A) : quiet (with_fds f).
Proof. intros s s' a. unfold with_fds. destruct (f (sys_fds s)). by intros [= <- _]. Qed.

Lemma quiet_put_fd i f : quiet (put_fd i f).
Proof. by intros s s' a [= <- _]. Qed.

Lemma update_cur_std (s : Sys D) f :
  (forall p, std_fds (f p) = std_fds p) -> std_fds (cur_proc (update_cur f s)) = std_fds (cur_proc s).
Proof.
  intros Hf. unfold cur_proc, update_cur, update_proc, proc. simpl.
  rewrite list_lookup_alter, decide_True by done.
  destruct (PROCESS_TABLE (sys_kern s) !! CURRENT_PROCESS_INDEX (sys_kern s)); simpl; [apply Hf|done].
Qed.

Lemma quiet_error e : quiet (set_app_error e).
Proof. intros s s' a [= <- _]. split; [done|by apply update_cur_std]. Qed.

Lemma quiet_clear : quiet clear_app_error.
Proof. intros s s' a [= <- _]. split; [done|by apply update_cur_std]. Qed.

(** Runs through the branches of a handler. *)
Ltac hush :=
  repeat match goal with
  | |- quiet (st_bind _ _) => apply quiet_bind; [|intros ?]
  | |- quiet (st_ret _) => apply quiet_ret
  | |- quiet (get _) => apply quiet_get
  | |- quiet (on_disk _) => apply quiet_disk
  | |- quiet (with_fds _) => apply quiet_with_fds
  | |- quiet (put_fd _ _) => apply quiet_put_fd
  | |- quiet (set_app_error _) => apply quiet_error
  | |- quiet clear_app_error => apply quiet_clear
  | |- quiet (if ?b then _ else _) => destruct b
  | |- quiet (match ?x with _ => _ end) => destruct x
  end.

Lemma quiet_claim f : quiet (claim_fd f).
Proof.
  intros s s' r. unfold claim_fd. destruct (free_fd (sys_fds s)) as [i|].
  - intros [= <- _]. split; [done|]. by rewrite update_cur_std.
  - apply quiet_error.
Qed.

Lemma quiet_open path flags : quiet (abi_open clk path flags).
Proof.
  assert (Ho : forall h i n, quiet (open_entry clk h i n flags)).
  { intros h i n. unfold open_entry. hush; apply quiet_claim. }
  unfold abi_open, abi_open_pfs. hush; first [apply Ho|apply quiet_claim].
Qed.

Lemma quiet_close fd : STDERR_FD < fd -> quiet (abi_close fd).
Proof.
  unfold abi_close, STDERR_FD, STDIN_FD, STDOUT_FD. intros Hf. destruct (Z.ltb_spec fd 0); [lia|].
  destruct (_ || _ || _) eqn:E; [lia|]. apply quiet_with_fds.
Qed.

Lemma quiet_read_file i f n : quiet (read_file_fd i f n).
Proof. unfold read_file_fd. hush. Qed.

Lemma quiet_write_file i f data : quiet (write_file_fd clk i f data).
Proof. unfold write_file_fd. cbv zeta. hush. Qed.

Lemma quiet_read fd n : STDERR_FD < fd -> quiet (abi_read fd n).
Proof.
  unfold STDERR_FD. intros Hf s s' a. unfold abi_read. rewrite resolve_fd_plain by lia.
  unfold STDIN_FD. destruct n as [n|]; [|by intros [= <- _]].
  destruct (Z.ltb_spec fd 0); [lia|]. destruct (Z.eqb_spec fd 0); [lia|].
  destruct (app_fd_index fd) as [i|]; [|by intros [= <- _]].
  destruct (negb _); [by intros [= <- _]|]. destruct (negb _); [by intros [= <- _]|].
  destruct (bool_decide _).
  - destruct (pipe_read _ _) as [[p got]|]; by intros [= <- _].
  - destruct (read_file_fd _ _ _ s) as [s1 r] eqn:E. intros [= <- _]. by apply quiet_read_file in E.
Qed.

Lemma quiet_write fd data : STDERR_FD < fd -> quiet (abi_write_fd clk fd data).
Proof.
  unfold STDERR_FD. intros Hf s s' a. unfold abi_write_fd. rewrite resolve_fd_plain by lia.
  unfold STDOUT_FD, STDERR_FD. destruct data as [data|]; [|by intros [= <- _]].
  destruct (Z.ltb_spec fd 0); [lia|]. destruct ((fd =? 1) || (fd =? 2)) eqn:Es; [lia|].
  destruct (app_fd_index fd) as [i|]; [|by intros [= <- _]].
  destruct (negb _ || negb _); [by intros [= <- _]|]. destruct (bool_decide _).
  - destruct (pipe_write _ _) as [[p n]|]; by intros [= <- _].
  - destruct (negb _); [by intros [= <- _]|]. apply quiet_write_file.
Qed.

Lemma quiet_seek fd offset : quiet (abi_seek fd offset).
Proof. apply quiet_with_fds. Qed.

Lemma quiet_unlink path : quiet (abi_unlink path).
Proof. unfold abi_unlink, with_pfs_name, with_header, commit_header, cur_cwd, ok_code. hush; by intros s s' a [= <- _]. Qed.

End Quiet.

(** ** The instance *)

Section Instance.

Context {D : Type} `{SL : SectorLaws D} (clk : Clock) (Hclk : 0 <= BOOT_TSC clk).
Context (process_trampoline : Z) (others : ST (Sys D) unit) (fuel : nat).

(** What the console showed at first, and its width. *)
Context (roll : Roll) (width : Z).

#[local] Instance screen_table : RymosAbi (Sys D) := RYMOS_ABI clk process_trampoline others fuel.

#[local] Instance screen_files : FileLaws (Sys D) := kernel_files clk Hclk process_trampoline others fuel.

(** The console shows the roll of [t] written behind [roll], and standard output
    goes to the console. *)
Definition on_screen (s : Sys D) (t : bytes) : Prop :=
  exists c, APP_CONSOLE s = Some c /\ cols c = width /\ shows c (roll_bytes width t roll) /\
    app_resolve_fd (std_fds (cur_proc s)) STDOUT_FD = STDOUT_FD.

Lemma quiet_screen {A} (m : ST (Sys D) A) s s' a t :
  quiet m -> m s = (s', a) -> on_screen s t -> on_screen s' t.
Proof using. intros Hm E (c & H1 & H2 & H3 & H4). destruct (Hm _ _ _ E) as [E1 E2]. exists c. by rewrite E1, E2. Qed.

Lemma always_answer {A} (m : ST (Sys D) A) s a s' : answers (always m) s a s' -> m s = (s', a).
Proof using. unfold answers, always. destruct (m s). by intros [= -> ->]. Qed.

Lemma roll_bytes_app l1 l2 t : roll_bytes width (l1 ++ l2) t = roll_bytes width l2 (roll_bytes width l1 t).
Proof using. apply fold_left_app. Qed.

Lemma console_write (s : Sys D) t data :
  on_screen s t ->
  exists s', abi_write_fd clk STDOUT_FD (Some data) s = (s', blen data) /\ on_screen s' (t ++ data) /\
    sys_kern s' = sys_kern s /\ sys_fds s' = sys_fds s /\ sys_disk s' = sys_disk s.
Proof using.
  intros (c & H1 & H2 & H3 & H4). unfold abi_write_fd. rewrite H4. change (STDOUT_FD <? 0) with false.
  change ((STDOUT_FD =? STDOUT_FD) || (STDOUT_FD =? STDERR_FD)) with true. cbv iota.
  unfold abi_write. rewrite H1. destruct (blen data =? 0) eqn:E.
  - exists s. split; [done|]. assert (data = []) as ->.
    { destruct data; [done|]. rewrite blen_cons in E. pose proof (blen_nonneg data). lia. }
    rewrite app_nil_r. split; [by exists c|done].
  - eexists. split; [done|]. split; [|done]. exists (write_bytes data c). split; [done|].
    rewrite (write_bytes_cols _ _ _ H3), roll_bytes_app, <- H2. split; [done|]. split; [|exact H4].
    apply write_bytes_shows. by rewrite H2.
Qed.

#[export] Program Instance kernel_screen : ScreenLaws (Sys D) :=
  { screen := on_screen; own_pid := abi_pid }.
Next Obligation.
  intros s t data Hs. destruct (console_write s t data Hs) as (s' & E & Hs' & Ek & Ef & Ed).
  exists (blen data), s'. split; [by apply answers_always|]. split; [apply blen_nonneg|].
  split; [exact Hs'|]. split; [unfold abi_pid; by rewrite Ek|].
  assert (Er : forall path name, resolves s path name -> resolves s' path name).
  { intros path name. unfold resolves, cur_proc. by rewrite Ek. }
  split; [|split].
  - intros path (name & R1 & R2 & R3 & R4). exists name. unfold fds_sized in *. rewrite Ef, Ed. auto.
  - intros path content (i & name & R1 & R2 & R3 & R4). exists i, name. unfold fds_sized in *.
    rewrite Ef, Ed. auto.
  - intros a fd path content off (i & index & name & R1 & R2 & R3 & R4 & R5 & R6).
    exists i, index, name. unfold fds_sized in *. rewrite Ef, Ed. auto 10.
Qed.
Next Obligation. done. Qed.
Next Obligation.
  intros s t path flags r s' Hs E%always_answer. eapply quiet_screen; [apply quiet_open|exact E|exact Hs].
Qed.
Next Obligation.
  intros s a fd path content off (i & index & name & Hi & _). apply fd_index_bounds in Hi as [Hi _].
  unfold Consts.STDERR. lia.
Qed.
Next Obligation.
  intros s t fd n r s' Hf Hs E.
  exact (quiet_screen (abi_read fd (Some n)) s s' (Some r) t (quiet_read fd (Some n) Hf) E Hs).
Qed.
Next Obligation.
  intros s t fd data r s' Hf Hs E%always_answer. eapply quiet_screen; [by apply quiet_write|exact E|exact Hs].
Qed.
Next Obligation.
  intros s t fd r s' Hf Hs E%always_answer. eapply quiet_screen; [by apply quiet_close|exact E|exact Hs].
Qed.

(** ** Properties *)

(** C5: A script line [print text], run on the kernel while standard output is the
    console, always ends; the console then shows, after what it showed before, the
    expansion of the text (each [$name] by the longest name, [$pid] and [$args]
    first, then the variables, unknown names by nothing) and a new line. The
    expansion exists and is unique, and the files are as before. *)
Theorem print_line_shows_expansion rounds (s : Sys D) t line rest line_no args store :
  RyshThm.is_command line (bs "print") rest -> on_screen s t ->
  exists s' out,
    RyshThm.expands (abi_pid s) args store rest out /\
    (forall out', RyshThm.expands (abi_pid s) args store rest out' -> out' = out) /\
    answers (Rysh.run_line rounds line line_no args store) s store s' /\
    on_screen s' (t ++ out ++ [10]) /\ files_kept s s'.
Proof using SL Hclk.
  intros Hc Hs. change (screen s t) in Hs.
  destruct (RyshThm.print_line_spec rounds s t line rest line_no args store Hc Hs)
    as (s' & out & H1 & H2 & H3 & _ & H4).
  exists s', out. split; [exact H1|]. split; [|split; [exact H2|split; [exact H3|exact H4]]].
  intros out' Ho. by eapply RyshThm.expands_fun.
Qed.

(** C4: A script of the two lines [writefile path text] and [cat path], run on the
    kernel: the first line always ends. Either it shows nothing, and then the whole script
    ends with the console showing the text and a new line behind what it showed before and
    the file on the disk holding the text; or it shows one message with the path, which
    names what the kernel refused: creating the file, the write, or a part of the write. *)
Theorem script_shows_written_file rounds (s : Sys D) t line1 line2 rest path text args store :
  10 ∉ line1 -> 10 ∉ line2 ->
  RyshThm.is_command (Rysh.trim_cr (trim line1)) (bs "writefile") rest -> split_word rest = (path, text) ->
  RyshThm.is_command (Rysh.trim_cr (trim line2)) (bs "cat") path ->
  is_ready s path -> on_screen s t -> is_slice text -> text <> [] -> (length text < rounds)%nat ->
  exists s1, answers (Rysh.run_line rounds (Rysh.trim_cr (trim line1)) 1 args store) s store s1 /\
    ((exists s2, answers (Rysh.run_script rounds (line1 ++ 10 :: line2) args store) s store s2 /\
        on_screen s1 t /\ is_named s1 path text /\ on_screen s2 (t ++ text ++ [10]) /\ is_named s2 path text) \/
     exists message, RyshThm.write_refused s path text message /\ on_screen s1 (t ++ message ++ path ++ [10])).
Proof using SL Hclk.
  intros N1 N2 C1 Hsplit C2 Hr Hs Ht Hne Hf.
  exact (RyshThm.writefile_cat_spec rounds s t line1 line2 rest path text args store N1 N2 C1 Hsplit C2
    Hr Hs Ht Hne Hf).
Qed.

End Instance.

(** ** Witnesses *)

(** The file system of FileStore.v, with a cleared console. *)
Definition screen_system : Sys Ata :=
  {| file_system with APP_CONSOLE := Some (clear (Console_new None)) |}.

Lemma screen_system_screen : on_screen [[]] 80 screen_system [].
Proof.
  exists (clear (Console_new None)). split; [reflexivity|]. split; [reflexivity|]. split.
  - apply (console_shows_roll None []). discriminate.
  - reflexivity.
Qed.

Lemma print_line_shows_expansion_witness :
  let store := Rysh.var_set (bs "name") (bs "rymos") Rysh.VarStore_new in
  let table := RYMOS_ABI demo_clock 0 (fun s => (s, tt)) 0 in
  exists s' out,
    RyshThm.expands (abi_pid screen_system) [] store (bs "hi $name!") out /\
    answers (@Rysh.run_line _ table 0 (bs "print hi $name!") 1 [] store) screen_system store s' /\
    on_screen [[]] 80 s' ([] ++ out ++ [10]) /\ out = bs "hi rymos!".
Proof.
  cbv zeta. set (store := Rysh.var_set (bs "name") (bs "rymos") Rysh.VarStore_new).
  destruct (print_line_shows_expansion demo_clock demo_clock_ok 0 (fun s => (s, tt)) 0 [[]] 80 0
    screen_system [] (bs "print hi $name!") (bs "hi $name!") 1 [] store) as (s' & out & H1 & H2 & H3 & H4 & _).
  { exists (ch "p"), (bs "rint hi $name!"). split; [reflexivity|]. split; [discriminate|reflexivity]. }
  { exact screen_system_screen. }
  exists s', out. split; [exact H1|]. split; [exact H3|]. split; [exact H4|]. symmetry. apply H2.
  do 3 (apply RyshThm.expands_byte; [discriminate|]).
  refine (RyshThm.expands_var (abi_pid screen_system) [] store (bs "name") (bs "!") (bs "!") _ _ _).
  - repeat constructor.
  - intros b r [= <- _]. reflexivity.
  - apply RyshThm.expands_byte; [discriminate|]. constructor.
Defined.

(** The write of the witness below, alone. *)
Definition demo_table : RymosAbi (Sys Ata) := RYMOS_ABI demo_clock 0 (fun s => (s, tt)) 0.

Definition demo_write : Call (Sys Ata) (option Z) :=
  let& f := @UserIo.file_create _ demo_table (bs "f") in
  match f with None => call_ret None | Some f => @UserIo.write_file _ demo_table f (bs "hi") end.

Lemma demo_write_works : snd (demo_write screen_system) = Some (Some 2).
Proof. vm_cast_no_check (eq_refl (Some (Some 2))). Qed.

Lemma demo_write_taken message : ~ @RyshThm.write_refused _ demo_table screen_system (bs "f") (bs "hi") message.
Proof.
  intros R. pose proof demo_write_works as W. unfold demo_write, call_bind in W.
  destruct R as [s1 A|s1 f s2 A B|s1 f n s2 A B Hn]; unfold answers in A; rewrite A in W.
  - discriminate W.
  - unfold answers in B. rewrite B in W. discriminate W.
  - unfold answers in B. rewrite B in W. injection W as ->. change (blen (bs "hi")) with 2 in Hn. lia.
Qed.

Lemma script_shows_written_file_witness :
  exists s2,
    answers (@Rysh.run_script _ demo_table 3 (bs "writefile f hi" ++ 10 :: bs "cat f") [] Rysh.VarStore_new)
      screen_system Rysh.VarStore_new s2 /\
    on_screen [[]] 80 s2 ([] ++ bs "hi" ++ [10]) /\ is_named s2 (bs "f") (bs "hi").
Proof.
  destruct (script_shows_written_file demo_clock demo_clock_ok 0 (fun s => (s, tt)) 0 [[]] 80 3 screen_system []
    (bs "writefile f hi") (bs "cat f") (bs "f hi") (bs "f") (bs "hi") [] Rysh.VarStore_new)
    as (s1 & _ & [(s2 & A & _ & _ & B & C)|(message & R & _)]).
  - apply (bool_decide_unpack _). reflexivity.
  - apply (bool_decide_unpack _). reflexivity.
  - exists (ch "w"), (bs "ritefile f hi"). split; [reflexivity|]. split; [discriminate|reflexivity].
  - reflexivity.
  - exists (ch "c"), (bs "at f"). split; [reflexivity|]. split; [discriminate|reflexivity].
  - exact file_system_ready.
  - exact screen_system_screen.
  - exact demo_slice.
  - discriminate.
  - simpl. lia.
  - exists s2. split; [exact A|]. split; [exact B|exact C].
  - exfalso. exact (demo_write_taken message R).
Defined.
