(* ===== verification/FsWalk.v ===== *)
(** * The file-system test program

    [src/programs/fswalk/src/main.rs], written against the runtime ([rt] below is
    [rymos_user]). A buffer a function declares is [replicate n 0] or, where the
    source fills it, what it is filled with; a [File] that goes out of scope is
    dropped explicitly. The loop over a directory takes fuel. *)

From S2P Require UserIo.
From S2P Require Import Prelude Text UserAbi.
From S2P Require Import Constants Device AtaDisk PfsProps PfsFile Console Process Abi AbiFs AbiFsThm AbiProc.
From S2P Require Import KernelAbi UserIo UserFiles FileStore UserScreen ScreenStore.

Import Consts.

Module rt := UserIo.

Definition ROOT : bytes := bs "pfs:fswalk".
Definition SUB : bytes := bs "pfs:fswalk/sub".
Definition FILE : bytes := bs "pfs:fswalk/sub/data.txt".
Definition RENAMED : bytes := bs "pfs:fswalk/sub/renamed.txt".
Definition LONG_PATH : bytes :=
  bs "pfs:fswalk/sub/a-rather-long-nested-file-name-past-the-old-thirty-byte-limit.txt".

(** [.write(true).create(true).truncate(true)] and [.append(true).create(true)]. *)
Definition rewriting : rt.OpenOptions :=
  rt.opt_truncate true (rt.opt_create true (rt.opt_write true rt.OpenOptions_new)).
Definition appending : rt.OpenOptions := rt.opt_create true (rt.opt_append true rt.OpenOptions_new).
Definition creating : rt.OpenOptions := rt.opt_create_new true (rt.opt_write true rt.OpenOptions_new).

Definition nl : bytes := [10].

Section FsWalk.

Context {S : Type} `{RymosAbi S} (fuel : nat).

Definition print_i32 (value : Z) : Call S unit :=
  if value <? 0 then do& rt.write (bs "-") in rt.print_usize (u64 (i32 (- value)))
  else rt.print_usize (u64 value).

(** A message, a path and the end of the line. *)
Definition print_path (message path : bytes) : Call S unit :=
  do& rt.print message in do& rt.write path in rt.write nl.

(** A message, then [false]. *)
Definition failing (message : Call S unit) : Call S bool := do& message in call_ret false.

(** [let Some(mut file) = ... else { message; return false; }; k], with [file]
    dropped at the end. *)
Definition with_file (m : Call S (option rt.File)) (message : Call S unit) (k : rt.File -> Call S bool)
  : Call S bool :=
  let& f := m in
  match f with
  | None => failing message
  | Some file => let& r := k file in do& rt.drop_file file in call_ret r
  end.

Definition cleanup : Call S unit :=
  do& rt.chdir (bs "/") in
  do& rt.unlink RENAMED in
  do& rt.unlink FILE in
  do& rt.unlink SUB in
  do& rt.unlink ROOT in
  call_ret tt.

Definition ensure_dir (path : bytes) : Call S bool :=
  let& made := rt.mkdir path in
  if made : bool then call_ret true
  else
    let& stat := rt.stat path in
    match stat with
    | Some stat =>
        if s_kind stat =? STAT_KIND_DIR then call_ret true
        else failing (print_path (bs "fswalk: mkdir failed: ") path)
    | None => failing (print_path (bs "fswalk: mkdir failed: ") path)
    end.

Definition write_all (file : rt.File) (data : bytes) : Call S bool :=
  let& written := rt.write_file file data in
  match written with
  | Some written =>
      if written =? blen data then call_ret true else failing (rt.println (bs "fswalk: short write"))
  | None => failing (rt.println (bs "fswalk: short write"))
  end.

Definition write_new_file (path data : bytes) : Call S bool :=
  with_file (rt.opt_open rewriting path) (print_path (bs "fswalk: create failed: ") path)
    (fun file => write_all file data).

Definition append_file (path data : bytes) : Call S bool :=
  with_file (rt.opt_open appending path) (print_path (bs "fswalk: append open failed: ") path)
    (fun file => write_all file data).

Definition check_file (path expected : bytes) : Call S bool :=
  with_file (rt.file_open path) (print_path (bs "fswalk: open failed: ") path) (fun file =>
    let& data := rt.read_file file (replicate 64 0) in
    match data with
    | None => failing (print_path (bs "fswalk: read failed: ") path)
    | Some data =>
        if negb (bytes_eq data expected) then failing (print_path (bs "fswalk: content mismatch: ") data)
        else call_ret true
    end).

Definition print_stat (path : bytes) : Call S unit :=
  let& stat := rt.stat path in
  match stat with
  | None => print_path (bs "fswalk: stat failed: ") path
  | Some stat =>
      do& rt.print (bs "fswalk stat ") in
      do& rt.write path in
      do& rt.print (bs " kind ") in
      do& rt.print_usize (s_kind stat) in
      do& rt.print (bs " size ") in
      do& rt.print_usize (s_size stat) in
      do& rt.print (bs " mode ") in
      do& rt.print_usize (s_mode stat) in
      do& rt.print (bs " created ") in
      do& rt.print_usize (s_created_ticks stat) in
      do& rt.print (bs " modified ") in
      do& rt.print_usize (s_modified_ticks stat) in
      rt.write nl
  end.

(** [n] is the fuel of the loop. *)
Fixpoint print_list_from (n : nat) (namespace : bytes) (index : nat) : Call S unit :=
  match n with
  | O => st_ret None
  | Datatypes.S n =>
      let& r := rt.list_dir namespace index (replicate 64 0) in
      match r with
      | None => call_ret tt
      | Some (entry, stat) =>
          do& rt.print (bs "fswalk list ") in
          do& rt.write entry in
          do& rt.print (bs " kind ") in
          do& rt.print_usize (s_kind stat) in
          do& rt.print (bs " size ") in
          do& rt.print_usize (s_size stat) in
          do& rt.write nl in
          print_list_from n namespace (index + 1)
      end
  end.

Definition print_list (namespace : bytes) : Call S unit := print_list_from fuel namespace 0.

Definition check_long_path : Call S bool :=
  let& ok := write_new_file LONG_PATH (bs "long-path-ok") in
  if negb ok then call_ret false
  else
    let& ok := check_file LONG_PATH (bs "long-path-ok") in
    if negb ok then call_ret false
    else do& rt.unlink LONG_PATH in call_ret true.

(** ** The sparse file *)

Definition SPARSE_PATH : bytes := bs "pfs:fswalk/sub/sparse.bin".

(** [data.len() == 24 && ...] *)
Definition sparse_ok (data : bytes) : bool :=
  (blen data =? 24) && bytes_eq (take 4 data) (bs "head")
  && forallb (fun byte => byte =? 0) (take 16 (drop 4 data))
  && bytes_eq (take 4 (drop 20 data)) (bs "tail").

(** One step of the writing: [if step.is_none() { message; return false; }]. *)
Definition step_or {A} (step : Call S (option A)) (message : bytes) (k : Call S bool) : Call S bool :=
  let& r := step in
  match r with None => failing (rt.println message) | Some _ => k end.

Definition check_sparse_write : Call S bool :=
  let& written :=
    with_file (rt.opt_open rewriting SPARSE_PATH) (rt.println (bs "fswalk: sparse create failed")) (fun file =>
      step_or (rt.write_file file (bs "head")) (bs "fswalk: sparse head write failed")
      (step_or (rt.seek_file file 20) (bs "fswalk: sparse seek past eof failed")
      (step_or (rt.write_file file (bs "tail")) (bs "fswalk: sparse tail write failed")
      (call_ret true)))) in
  if negb written then call_ret false
  else
    with_file (rt.file_open SPARSE_PATH) (rt.println (bs "fswalk: sparse reopen failed")) (fun file =>
      let& data := rt.read_file file (replicate 32 0xFF) in
      match data with
      | None => failing (rt.println (bs "fswalk: sparse read failed"))
      | Some data =>
          if negb (sparse_ok data) then
            failing (do& rt.print (bs "fswalk: sparse content mismatch, len=") in
                     do& rt.print_usize (blen data) in rt.write nl)
          else do& rt.unlink SPARSE_PATH in call_ret true
      end).

(** ** Many descriptors *)

Definition fd_name (index : nat) : bytes :=
  bs "pfs:fswalk/sub/fd" ++
  [48 + Z.of_nat index / 10; 48 + Z.of_nat index mod 10] ++ bs ".txt".

Definition COUNT : nat := 20.

Definition failed_at (message : bytes) (i : nat) : Call S unit :=
  do& rt.print message in do& rt.print_usize (Z.of_nat i) in rt.write nl.

(** The opening loop from index [i], [n] files to go: whether all were opened, and
    the open ones. *)
Fixpoint open_from (n i : nat) (files : list rt.File) : Call S (bool * list rt.File) :=
  match n with
  | O => call_ret (true, files)
  | Datatypes.S n =>
      let& f := rt.opt_open rewriting (fd_name i) in
      match f with
      | None => do& failed_at (bs "fswalk: many-fd open failed at ") i in call_ret (false, files)
      | Some file =>
          let& written := rt.write_file file [48 + Z.of_nat i mod 10] in
          match written with
          | None =>
              do& failed_at (bs "fswalk: many-fd write failed at ") i in
              do& rt.drop_file file in
              call_ret (false, files)
          | Some _ => open_from n (i + 1) (files ++ [file])
          end
      end
  end.

Fixpoint drop_each (files : list rt.File) : Call S unit :=
  match files with
  | [] => call_ret tt
  | file :: rest => do& rt.drop_file file in drop_each rest
  end.

Fixpoint unlink_each (n i : nat) : Call S unit :=
  match n with
  | O => call_ret tt
  | Datatypes.S n => do& rt.unlink (fd_name i) in unlink_each n (i + 1)
  end.

Definition check_many_fds : Call S bool :=
  let& r := open_from COUNT 0 [] in
  do& drop_each (snd r) in
  if negb (fst r) then call_ret false
  else
    do& unlink_each COUNT 0 in
    do& rt.print (bs "fswalk: opened ") in
    do& rt.print_usize (Z.of_nat COUNT) in
    do& rt.print (bs " concurrent file descriptors ok" ++ nl) in
    call_ret true.

(** ** The program *)

(** [if !check { return 1; } k] *)
Definition and_then (check : Call S bool) (k : Call S Z) : Call S Z :=
  let& ok := check in if ok : bool then k else call_ret 1.

(** [create_new] on the file that is there must fail with [ERR_EXIST]. *)
Definition check_create_new : Call S bool :=
  let& f := rt.opt_open creating FILE in
  match f with
  | Some file =>
      do& rt.drop_file file in
      failing (rt.println (bs "fswalk: create_new unexpectedly opened existing file"))
  | None =>
      let& code := rt.last_error in
      if code =? ERR_EXIST then call_ret true
      else
        failing (do& rt.print (bs "fswalk: create_new errno ") in
                 let& code := rt.last_error in
                 do& print_i32 code in rt.write nl)
  end.

Definition says_when (step : Call S bool) (message : bytes) : Call S bool :=
  let& ok := step in if ok : bool then call_ret true else failing (rt.println message).

Definition rymos_main : Call S Z :=
  do& rt.println (bs "fswalk: filesystem smoke test") in
  do& cleanup in
  and_then (ensure_dir ROOT)
  (and_then (ensure_dir SUB)
  (and_then (write_new_file FILE (bs "alpha"))
  (and_then (append_file FILE (bs "+beta"))
  (and_then check_create_new
  (and_then (says_when (rt.rename FILE RENAMED) (bs "fswalk: rename failed"))
  (and_then (says_when (rt.chdir (bs "pfs:/fswalk/sub")) (bs "fswalk: chdir pfs:/fswalk/sub failed"))
  (and_then (check_file (bs "./renamed.txt") (bs "alpha+beta"))
  (and_then (check_file (bs "../sub/./renamed.txt") (bs "alpha+beta"))
  (do& print_stat (bs ".") in
   do& print_list (bs ".") in
   do& rt.chdir (bs "/") in
   and_then check_long_path
   (and_then check_sparse_write
   (and_then check_many_fds
   (do& rt.println (bs "fswalk: ok") in call_ret 0)))))))))))).

End FsWalk.

(** ** What the file-system test program finds

    The check of [src/programs/fswalk/src/main.rs] on a sparse file, proved from the
    file and screen laws and so of the kernel: the gap that a write past the end of
    a file leaves reads as zero. *)

Import Consts.

(** What the program relies on besides: a write to a file that succeeds is whole, and
    seeking and removing leave the screen alone. *)
Class WorkLaws (S : Type) `{ScreenLaws S} : Prop := {
  write_whole s a fd path content off data n s' :
    opened s a fd path content off -> a <> ReadOnly -> is_slice data -> data <> [] ->
    answers (call_write_fd fd data) s n s' -> 0 <= n -> n = blen data;
  unlink_works s t path : screen s t -> exists r s', answers (call_unlink path) s r s' /\ screen s' t;
  screen_seek_law s t fd target r s' : screen s t -> answers (call_seek fd target) s r s' -> screen s' t
}.

Section Checks.

Context {S : Type} `{WorkLaws S}.






(** ** A step on the open file *)




(** ** The sparse file *)








End Checks.

(** ** On the kernel *)

Section Kernel.

Context {D : Type} `{SL : SectorLaws D} (clk : Clock) (Hclk : 0 <= BOOT_TSC clk).
Context (process_trampoline : Z) (others : ST (Sys D) unit) (rounds : nat) (roll : Roll) (width : Z).

#[local] Instance walk_table : RymosAbi (Sys D) := RYMOS_ABI clk process_trampoline others rounds.

#[local] Instance walk_files : FileLaws (Sys D) := kernel_files clk Hclk process_trampoline others rounds.

#[local] Instance walk_screen : ScreenLaws (Sys D) :=
  kernel_screen clk Hclk process_trampoline others rounds roll width.

#[local] Program Instance walk_laws : WorkLaws (Sys D) := {}.
Next Obligation.
  intros s a fd path content off data n s' Ho Ha Hd Hne E%always_answer Hn.
  destruct (kernel_write clk Hclk s a fd path content off data Ho Ha Hd Hne) as (s1 & m & E1 & Hm).
  assert (m = n) as -> by congruence. by apply Hm.
Qed.
Next Obligation.
  intros s t path Hs. destruct (abi_unlink (Some path) s) as [s' r] eqn:E. exists r, s'.
  split; [by apply answers_always|]. by eapply quiet_screen; [apply quiet_unlink|exact E|exact Hs].
Qed.
Next Obligation.
  intros s t fd target r s' Hs E%always_answer. by eapply quiet_screen; [apply quiet_seek|exact E|exact Hs].
Qed.


End Kernel.

