(* ===== verification/Hello.v ===== *)
(** * The greeting program

    [src/programs/hello/src/main.rs]: its arguments, its environment, and a file of
    the boot image. *)

From S2P Require UserIo.
From S2P Require Import Prelude Text UserAbi.

Module rt := UserIo.

Definition nl : bytes := [10].

Fixpoint first_word (l : bytes) : bytes :=
  match l with
  | [] => []
  | b :: rest => if (b =? 32) || (b =? 9) then [] else b :: first_word rest
  end.

Section Hello.

Context {S : Type} `{RymosAbi S}.

(** A message, a number and the end of the line. *)
Definition print_number (message : bytes) (value : Z) : Call S unit :=
  do& rt.print message in do& rt.print_usize value in rt.write nl.

(** [n] arguments are left. *)
Fixpoint print_argv_from (n : nat) (index : Z) : Call S unit :=
  match n with
  | O => call_ret tt
  | Datatypes.S n =>
      let& arg := rt.argv index (replicate 64 0) in
      do& (match arg with
           | None => call_ret tt
           | Some arg =>
               do& rt.print (bs "argv[") in
               do& rt.print_usize index in
               do& rt.print (bs "]: ") in
               do& rt.write arg in
               rt.write nl
           end) in
      print_argv_from n (index + 1)
  end.

Definition print_argv : Call S unit :=
  let& count := rt.argv_count in
  do& print_number (bs "argv count: ") count in
  print_argv_from (Z.to_nat count) 0.

Definition print_build_mode : Call S unit :=
  let& mode := rt.env_get (bs "RYMOS_BUILD_MODE") (replicate 96 0) in
  match mode with
  | None => call_ret tt
  | Some mode => do& rt.print (bs "build mode: ") in do& rt.write mode in rt.write nl
  end.

Definition print_file (path : bytes) : Call S unit :=
  let& size := rt.file_size path in
  match size with
  | None => do& rt.print (bs "file not found: ") in do& rt.write path in rt.write nl
  | Some size =>
      do& rt.print (bs "reading ") in
      do& rt.write path in
      do& rt.print (bs " (") in
      do& rt.print_usize size in
      do& rt.println (bs " bytes)") in
      let& data := rt.file_read path (replicate 256 0) in
      match data with
      | None => call_ret tt
      | Some data => do& rt.write data in rt.write nl
      end
  end.

Definition rymos_main : Call S Z :=
  do& rt.println (bs "hello from a Rust RYMOS program") in
  do& print_number (bs "ABI version: ") rt.abi_version in
  let& pid := rt.pid in
  do& print_number (bs "pid: ") pid in
  let& args := rt.args (replicate 64 0) in
  do& rt.print (bs "args: ") in
  do& (if bytes_eq args [] then rt.println (bs "<none>") else do& rt.write args in rt.write nl) in
  do& print_argv in
  do& print_build_mode in
  do& print_file (if bytes_eq args [] then bs "readme.txt" else first_word args) in
  call_ret 0.

End Hello.
