(* ===== verification/EchoIn.v ===== *)
(** * The program that shows its standard input

    [src/programs/echoin/src/main.rs]. *)

From S2P Require UserIo.
From S2P Require Import Prelude Text UserAbi.
Import Consts.

Module rt := UserIo.

Section EchoIn.

Context {S : Type} `{RymosAbi S}.

Definition rymos_main : Call S Z :=
  do& rt.print (bs "echoin pid ") in
  let& pid := rt.pid in
  do& rt.print_usize pid in
  do& rt.write [10] in
  do& rt.fd_write STDERR (bs "echoin stderr ready" ++ [10]) in
  let& data := rt.fd_read STDIN (replicate 128 0) in
  match data with
  | None => do& rt.print (bs "echoin: stdin read failed" ++ [10]) in call_ret 1
  | Some data =>
      do& rt.print (bs "echoin stdin ") in
      do& (if bytes_eq data [] then rt.print (bs "<empty>") else rt.write data) in
      do& rt.write [10] in
      call_ret 0
  end.

End EchoIn.
