(* ===== verification/BigOutput.v ===== *)
(** * The program with more output than a pipe holds

    [src/programs/bigoutput/src/main.rs]. *)

From S2P Require UserIo.
From S2P Require Import Prelude Text UserAbi.

Module rt := UserIo.

Definition LINE : bytes := bs "bigoutput filler line 0123456789" ++ [10].
Definition LINE_COUNT : nat := 200.

Section BigOutput.

Context {S : Type} `{RymosAbi S}.

(** [n] lines are left. *)
Fixpoint write_lines (n : nat) : Call S unit :=
  match n with
  | O => call_ret tt
  | Datatypes.S n => do& rt.write LINE in write_lines n
  end.

Definition rymos_main : Call S Z :=
  do& write_lines LINE_COUNT in
  do& rt.print (bs "bigoutput: wrote ") in
  do& rt.print_usize (Z.of_nat LINE_COUNT * blen LINE) in
  do& rt.write (bs " bytes total" ++ [10]) in
  call_ret 0.

End BigOutput.
