(* ===== verification/Relay.v ===== *)
(** * The program that starts itself again

    [src/programs/relay/src/main.rs]: with depth [n] it runs itself with depth
    [n - 1], and at 0 the greeting program, and shows what the child wrote. *)

From S2P Require UserIo.
From S2P Require Import Prelude Text StrText UserAbi UserCmd.

Module rt := UserIo.

Definition nl : bytes := [10].

(** The depth in the arguments: 0 when they are no number. *)
Definition depth_of (args : bytes) : Z :=
  default 0 (from_utf8 args ≫= fun value => parse_unsigned U32_MAX (trim_str value)).

(** [format!("{}", depth - 1)] *)
Definition next_args (depth : Z) : bytes := write_usize (depth - 1).

Section Relay.

Context {S : Type} `{RymosAbi S} (fuel : nat).

Definition print_i32 (value : Z) : Call S unit :=
  if value <? 0 then do& rt.write (bs "-") in rt.print_usize (u64 (i32 (- value)))
  else rt.print_usize (u64 value).

Definition rymos_main : Call S Z :=
  let& args := rt.args (replicate 64 0) in
  let depth := depth_of args in
  do& rt.print (bs "relay depth=") in
  do& rt.print_usize depth in
  do& rt.write nl in
  let& result :=
    (if depth =? 0 then output fuel (with_arg (bs "readme.txt") (Command_new (bs "hello")))
     else output fuel (with_arg (next_args depth) (Command_new (bs "relay")))) in
  match result with
  | inr child =>
      do& rt.print (bs "relay depth=") in
      do& rt.print_usize depth in
      do& rt.print (bs " child exit=") in
      do& rt.print_usize (u64 (exit_code (o_status child))) in
      do& rt.print (bs " child_stdout=") in
      do& rt.print_usize (blen (o_stdout child)) in
      do& rt.println (bs " B") in
      do& rt.write (o_stdout child) in
      call_ret (if exit_code (o_status child) =? 0 then 0 else 1)
  | inl code =>
      do& rt.print (bs "relay depth=") in
      do& rt.print_usize depth in
      do& rt.print (bs " spawn FAILED code=") in
      do& print_i32 code in
      do& rt.write nl in
      call_ret 1
  end.

End Relay.

(** The child of depth [d] reads [d - 1] from the arguments the command is given, so a
    chain that starts with depth [d] has [d + 1] links. *)
Lemma relay_counts_down d :
  0 < d <= U32_MAX ->
  let c := with_arg (next_args d) (Command_new (bs "relay")) in
  c_error c = Consts.ERR_OK /\ c_argv c = [next_args d] /\ depth_of (c_args c) = d - 1.
Proof.
  intros Hd c. unfold U32_MAX in Hd.
  assert (Hu : is_u64 (d - 1)) by (unfold is_u64; lia).
  destruct (write_usize_digits (d - 1) Hu) as (Hdig & _ & _).
  assert (Hl : blen (next_args d) <= 20).
  { unfold next_args, write_usize. destruct (d - 1 =? 0); [unfold blen; simpl; lia|].
    pose proof (length_usize_digits 20 (d - 1)). unfold blen. lia. }
  assert (Hc : c = mkCommand (bs "relay") (next_args d) [next_args d] [] None [] None None Consts.ERR_OK).
  { unfold c, with_arg. cbn [Command_new c_error c_args c_argv]. change (Consts.ERR_OK =? Consts.ERR_OK) with true.
    cbn [negb]. change (bytes_eq [] []) with true. cbv iota zeta. change (blen []) with 0.
    destruct (Z.ltb_spec Consts.COMMAND_ARGS_MAX (0 + 0 + blen (next_args d))) as [Hx|]; [|done].
    exfalso. change Consts.COMMAND_ARGS_MAX with 64 in Hx. lia. }
  rewrite Hc. cbn [c_error c_argv c_args]. split_and!; [done|done|]. unfold depth_of, next_args.
  rewrite utf8_digits by done. simpl. rewrite parse_written; [done|done|unfold U32_MAX; lia].
Qed.
