(* ===== verification/Ticker.v ===== *)
(** * The program that prints in the background

    [src/programs/ticker/src/main.rs]. *)

From S2P Require UserIo.
From S2P Require Import Prelude Text StrText UserAbi.

Module rt := UserIo.

(** [text.split_whitespace()] of the arguments. *)
Definition parts_of (args : bytes) : list bytes := split_whitespace (trim_str (default [] (from_utf8 args))).

(** The number in a part, or what the program takes instead. *)
Definition number_or (max otherwise : Z) (part : option bytes) : Z :=
  default otherwise (part ≫= parse_unsigned max).

Section Ticker.

Context {S : Type} `{RymosAbi S}.

(** [n] lines are left, the next one is [i]. *)
Fixpoint tick_from (n : nat) (i : Z) (tag : bytes) (sleep_ms : Z) : Call S unit :=
  match n with
  | O => call_ret tt
  | Datatypes.S n =>
      do& rt.print (tag ++ bs ":" ++ write_usize i ++ [10]) in
      do& rt.sleep_nanos (u64 (sleep_ms * 1000000)) in
      tick_from n (i + 1) tag sleep_ms
  end.

Definition rymos_main : Call S Z :=
  let& args := rt.args (replicate 32 0) in
  let parts := parts_of args in
  let tag := default (bs "tick") (parts !! 0%nat) in
  let count := number_or U32_MAX 20 (parts !! 1%nat) in
  let sleep_ms := number_or U64_MAX 10 (parts !! 2%nat) in
  do& tick_from (Z.to_nat count) 0 tag sleep_ms in
  call_ret 0.

End Ticker.
