(* ===== verification/PreemptTest.v ===== *)
(** * Two programs that share the processor

    [src/programs/preemptest/src/main.rs]: without arguments it starts itself twice
    and waits for both; with a tag and a count it prints that many lines. *)

From S2P Require UserIo.
From S2P Require Import Prelude Text StrText UserAbi.

Module rt := UserIo.

Section PreemptTest.

Context {S : Type} `{RymosAbi S}.

(** [matches!(status, Some(s) if s.exit_code == 0)] *)
Definition exited_0 (status : option ProcessStatus) : bool :=
  match status with Some s => exit_code s =? 0 | None => false end.

Definition run_parent : Call S Z :=
  do& rt.println (bs "preemptest: spawning two fire-and-forget daemons") in
  let& a := rt.spawn (bs "preemptest") (bs "A 200") in
  let& b := rt.spawn (bs "preemptest") (bs "B 200") in
  match a, b with
  | inr pid_a, inr pid_b =>
      let& status_a := rt.wait pid_a in
      let& status_b := rt.wait pid_b in
      let ok := exited_0 status_a && exited_0 status_b in
      do& rt.println (if ok then bs "preemptest: both daemons exited 0"
                      else bs "preemptest: a daemon failed") in
      call_ret (if ok then 0 else 1)
  | _, _ => do& rt.println (bs "preemptest: spawn failed") in call_ret 1
  end.

(** [n] lines are left, the next one is [i]. *)
Fixpoint child_from (n : nat) (i : Z) (tag : bytes) : Call S unit :=
  match n with
  | O => call_ret tt
  | Datatypes.S n =>
      do& rt.print tag in
      do& rt.print (bs ":") in
      do& rt.print_usize i in
      do& rt.write [10] in
      do& rt.sleep_nanos 1000000 in
      child_from n (i + 1) tag
  end.

Definition run_child (text : bytes) : Call S Z :=
  let parts := split_whitespace text in
  let tag := default (bs "?") (parts !! 0%nat) in
  let count := default 0 ((parts !! 1%nat) ≫= parse_unsigned U32_MAX) in
  do& child_from (Z.to_nat count) 0 tag in
  call_ret 0.

Definition rymos_main : Call S Z :=
  let& args := rt.args (replicate 32 0) in
  let text := trim_str (default [] (from_utf8 args)) in
  if bytes_eq text [] then run_parent else run_child text.

End PreemptTest.
