(* ===== verification/CmdApi.v ===== *)
(** * The test program of the command interface

    [src/programs/cmdapi/src/main.rs]: commands with captured output, with a status
    and with output to files; children that are collected in any order; a child that
    is collected late. *)

From S2P Require UserIo.
From S2P Require Import Prelude Text UserAbi UserFs UserCmd.

Module rt := UserIo.

Definition nl : bytes := [10].

Definition MARKER : Z := 0xC0FFEE42.

(** The commands the program runs. *)
Definition echoin_command : Command := with_stdin (bs "api-stdin") (Command_new (bs "echoin")).

Definition hello_command (words mode : bytes) : Command :=
  with_dir (bs "/") (with_env (bs "RYMOS_BUILD_MODE") mode
    (with_arg words (with_arg (bs "readme.txt") (Command_new (bs "hello"))))).

Definition hello_file_command : Command :=
  with_stderr_file (bs "pfs:cmdapi-stderr.txt") (with_stdout_file (bs "pfs:cmdapi-stdout.txt")
    (hello_command (bs "file words") (bs "file-child"))).

Section CmdApi.

(** [marker] is what the program reads of [PARENT_MARKER] after its children ran. *)
Context {S : Type} `{RymosAbi S} (fuel : nat) (marker : Z).

Definition print_i32 (value : Z) : Call S unit :=
  if value <? 0 then do& rt.write (bs "-") in rt.print_usize (u64 (i32 (- value)))
  else rt.print_usize (u64 value).

(** "cmdapi", a label and what follows it. *)
Definition labelled (label text : bytes) : Call S unit :=
  do& rt.print (bs "cmdapi ") in do& rt.write label in rt.print text.

(** A message, a code and the end of the line. *)
Definition with_code (message : bytes) (code : Z) : Call S unit :=
  do& rt.print message in do& print_i32 code in rt.write nl.

Definition failing (message : Call S unit) : Call S bool := do& message in call_ret false.

Definition print_exit (label : bytes) (pid : Z) (status : ProcessStatus) : Call S unit :=
  do& labelled label (bs " pid ") in
  do& rt.print_usize pid in
  do& rt.write (bs " exit ") in
  do& rt.print_usize (u64 (exit_code status)) in
  rt.write nl.

Definition print_failed (label : bytes) (code : Z) : Call S bool :=
  failing (do& labelled label (bs " failed ") in do& print_i32 code in rt.write nl).

Definition print_status (label : bytes) (status : Result CommandStatus) : Call S bool :=
  match status with
  | inr status => do& print_exit label (s_pid status) (s_status status) in call_ret true
  | inl code => print_failed label code
  end.

(** A captured stream: its size, then its bytes. *)
Definition print_captured (label name data : bytes) : Call S unit :=
  do& labelled label name in
  do& rt.print_usize (blen data) in
  do& rt.write (bs " B" ++ nl) in
  rt.write data.

Definition print_output (label : bytes) (result : Result CommandOutput) : Call S bool :=
  match result with
  | inr out =>
      do& print_exit label (o_pid out) (o_status out) in
      do& print_captured label (bs " stdout ") (o_stdout out) in
      do& print_captured label (bs " stderr ") (o_stderr out) in
      call_ret true
  | inl code => print_failed label code
  end.

Definition print_file (label path : bytes) : Call S bool :=
  let& stat := rt.stat path in
  match stat with
  | None => failing (labelled label (bs " missing" ++ nl))
  | Some stat =>
      do& labelled label (bs " file ") in
      do& rt.print_usize (s_size stat) in
      do& rt.write (bs " B" ++ nl) in
      let& f := rt.file_open path in
      match f with
      | None => failing (labelled label (bs " open failed" ++ nl))
      | Some file =>
          let& data := rt.read_file file (replicate 768 0) in
          let& r := (match data with
                     | Some data => do& rt.write data in call_ret true
                     | None => failing (labelled label (bs " read failed" ++ nl))
                     end) in
          do& rt.drop_file file in
          call_ret r
      end
  end.

(** ** Several children at once *)

(** The children started so far; [inl] when one could not be started. *)
Fixpoint spawn_each (l : list bytes) (spawned : list Z) : Call S (option (list Z)) :=
  match l with
  | [] => call_ret (Some spawned)
  | args :: rest =>
      let& r := rt.spawn (bs "hello") args in
      match r with
      | inr pid => spawn_each rest (spawned ++ [pid])
      | inl code => do& with_code (bs "cmdapi: FAIL spawn ") code in call_ret None
      end
  end.

(** [n] children are to be collected. *)
Fixpoint reap_from (n : nat) (spawned : list Z) : Call S bool :=
  match n with
  | O => call_ret true
  | Datatypes.S n =>
      let& r := rt.wait_any in
      match r with
      | Some (pid, status) =>
          if negb (exit_code status =? 0) || negb (bool_decide (pid ∈ spawned)) then
            failing (do& rt.print (bs "cmdapi: FAIL unexpected wait_any pid ") in
                     do& rt.print_usize pid in rt.write nl)
          else reap_from n spawned
      | None => failing (rt.println (bs "cmdapi: FAIL wait_any returned none early"))
      end
  end.

Definition check_spawn_many_then_wait_any : Call S bool :=
  let& spawned := spawn_each [bs "one"; bs "two"; bs "three"] [] in
  match spawned with
  | None => call_ret false
  | Some spawned =>
      let& ok := reap_from 3 spawned in
      if negb ok then call_ret false
      else do& rt.println (bs "cmdapi: spawn-many + wait_any reaped all three ok") in call_ret true
  end.

Definition check_zombie_reaping : Call S bool :=
  let& r := rt.spawn (bs "allocdemo") [] in
  match r with
  | inl code => failing (with_code (bs "cmdapi: FAIL zombie spawn ") code)
  | inr pid =>
      let& status := rt.wait pid in
      match status with
      | Some status =>
          if exit_code status =? 0 then
            do& rt.println (bs "cmdapi: zombie reaped with correct status ok") in call_ret true
          else failing (with_code (bs "cmdapi: FAIL zombie exit code ") (exit_code status))
      | None => failing (rt.println (bs "cmdapi: FAIL zombie status lost before wait"))
      end
  end.

(** ** The program *)

Definition and_then (check : Call S bool) (k : Call S Z) : Call S Z :=
  let& ok := check in if ok : bool then k else call_ret 1.

Definition check_marker : Call S bool :=
  if marker =? MARKER then
    do& rt.println (bs "cmdapi: parent globals survive spawn ok") in call_ret true
  else
    failing (do& rt.print (bs "cmdapi: FAIL parent global corrupted by spawn, marker=0x") in
             do& rt.print_hex_usize marker in rt.write nl).

Definition rymos_main : Call S Z :=
  do& rt.println (bs "cmdapi: Command output smoke test") in
  let& echoin := output fuel echoin_command in
  let& hello := output fuel (hello_command (bs "two words") (bs "cmdapi-child")) in
  let& hello_status := status (hello_command (bs "status words") (bs "status-child")) in
  let& hello_file_status := status hello_file_command in
  and_then (print_output (bs "echoin") echoin)
  (and_then (print_output (bs "hello") hello)
  (and_then (print_status (bs "hello-status") hello_status)
  (and_then (print_status (bs "hello-file-status") hello_file_status)
  (and_then (print_file (bs "stdout-file") (bs "pfs:cmdapi-stdout.txt"))
  (and_then (print_file (bs "stderr-file") (bs "pfs:cmdapi-stderr.txt"))
  (and_then check_marker
  (and_then check_spawn_many_then_wait_any
  (and_then check_zombie_reaping (call_ret 0))))))))).

End CmdApi.
