(* ===== verification/StdShim.v ===== *)
(** * The test program of the [std]-like interface

    [src/programs/stdshim/src/main.rs]. [fuel] bounds the reads of a file, of a
    command's output and of a directory. *)

From S2P Require UserIo UserFs.
From S2P Require Import Prelude Text UserAbi UserEnv UserCmd.
Import Consts.

Module rt := UserIo.
Module fs := UserFs.

Definition nl : bytes := [10].

Definition SLEEP_NANOS : Z := 10000000.

Section StdShim.

Context {S : Type} `{RymosAbi S} (fuel : nat).

Definition print_i32 (value : Z) : Call S unit :=
  if value <? 0 then do& rt.write (bs "-") in rt.print_usize (u64 (i32 (- value)))
  else rt.print_usize (u64 value).

Definition fail (label : bytes) : Call S Z :=
  do& rt.print (bs "stdshim failed: ") in
  do& rt.write label in
  do& rt.print (bs " errno ") in
  let& code := rt.last_error in
  do& print_i32 code in
  do& rt.write nl in
  call_ret 1.

(** [let Ok(a) = m else { return fail(label); }; k(a)] *)
Definition ok_or_fail {A} (m : Call S (fs.Result A)) (label : bytes) (k : A -> Call S Z) : Call S Z :=
  let& r := m in match r with inr a => k a | inl _ => fail label end.

(** A message, a number and the end of the line. *)
Definition print_number (message : bytes) (value : Z) (rest : bytes) : Call S unit :=
  do& rt.print message in do& rt.print_usize value in rt.write (rest ++ nl).

(** The entries of a directory; how many there were. [n] is the fuel. *)
Fixpoint print_entries (n : nat) (d : fs.ReadDir) (entries : Z) : Call S Z :=
  match n with
  | O => st_ret None
  | Datatypes.S n =>
      let& r := fs.read_dir_next d in
      match snd r with
      | None => call_ret entries
      | Some entry =>
          do& rt.print (bs "stdshim dir ") in
          do& rt.write (fs.de_name entry) in
          do& print_number (bs " size ") (s_size (fs.de_metadata entry)) [] in
          print_entries n (fst r) (entries + 1)
      end
  end.

(** The files of the test below its directory; [k] goes on from the file's data. *)
Definition check_files (k : Call S Z) : Call S Z :=
  let& temp := temp_dir in
  ok_or_fail (fs.create_dir_all temp) (bs "temp mkdir") (fun _ =>
  let root := join temp (bs "stdshim") in
  ok_or_fail (fs.create_dir_all root) (bs "root mkdir") (fun _ =>
  let file := join root (bs "out.txt") in
  ok_or_fail (fs.write file (bs "alpha")) (bs "fs write") (fun _ =>
  ok_or_fail (fs.append file (bs "+beta")) (bs "fs append") (fun _ =>
  ok_or_fail (fs.read fuel file) (bs "fs read") (fun data =>
  if negb (bytes_eq data (bs "alpha+beta")) then fail (bs "fs data")
  else
    ok_or_fail (fs.metadata file) (bs "metadata") (fun metadata =>
    do& print_number (bs "stdshim file size ") (s_size metadata) [] in
    ok_or_fail current_dir (bs "cwd get") (fun cwd_before =>
    ok_or_fail (set_current_dir root) (bs "cwd set") (fun _ =>
    ok_or_fail (fs.read fuel (bs "./out.txt")) (bs "relative read") (fun relative =>
    if negb (bytes_eq relative data) then fail (bs "relative data")
    else
      do& set_current_dir cwd_before in
      let& entries := print_entries fuel (fs.read_dir root) 0 in
      if entries =? 0 then fail (bs "read_dir empty") else k))))))))).

Definition hello_command : Command :=
  with_env (bs "RYMOS_BUILD_MODE") (bs "stdshim-child")
    (with_arg (bs "readme.txt") (Command_new (bs "hello"))).

Definition check_command (k : Call S Z) : Call S Z :=
  ok_or_fail (output fuel hello_command) (bs "command output") (fun child =>
    do& rt.print (bs "stdshim child ") in
    do& rt.print_usize (o_pid child) in
    do& rt.print (bs " stdout ") in
    do& rt.print_usize (blen (o_stdout child)) in
    do& rt.write (bs " B" ++ nl) in
    k).

(** [missing.is_ok() || rt::last_error() != rt::ERR_NOENT] *)
Definition check_errno (k : Call S Z) : Call S Z :=
  let& missing := fs.metadata (bs "pfs:stdshim/missing.txt") in
  match missing with
  | inr _ => fail (bs "errno")
  | inl _ =>
      let& code := rt.last_error in
      if negb (code =? ERR_NOENT) then fail (bs "errno") else k
  end.

Definition check_sleep (k : Call S Z) : Call S Z :=
  let& before := rt.time_ticks in
  do& rt.sleep_nanos SLEEP_NANOS in
  let& after := rt.time_ticks in
  let slept := saturating_sub after before in
  if slept <? SLEEP_NANOS then fail (bs "sleep_nanos returned early")
  else
    do& rt.print (bs "stdshim slept ") in
    do& rt.print_usize slept in
    do& print_number (bs " ns (requested ") SLEEP_NANOS (bs ")") in
    k.

Definition check_term_size (k : Call S Z) : Call S Z :=
  let& size := rt.term_size in
  match size with
  | Some (rows, cols) =>
      if (0 <? rows) && (0 <? cols) then
        do& rt.print (bs "stdshim term size ") in
        do& rt.print_usize rows in
        do& print_number (bs "x") cols [] in
        k
      else fail (bs "term_size")
  | None => fail (bs "term_size")
  end.

Definition rymos_main : Call S Z :=
  do& rt.println (bs "stdshim: std compatibility smoke test") in
  let& start := now in
  ok_or_fail (stdout_write_all (bs "stdshim io stdout ok" ++ nl)) (bs "io stdout") (fun _ =>
  ok_or_fail (set_var (bs "STDISH_MODE") (bs "smoke")) (bs "env set") (fun _ =>
  ok_or_fail (var (bs "STDISH_MODE")) (bs "env get") (fun mode =>
  if negb (bytes_eq mode (bs "smoke")) then fail (bs "env value")
  else
    check_files (check_command (check_errno
      (do& remove_var (bs "STDISH_MODE") in
       let& elapsed := elapsed_ticks start in
       do& print_number (bs "stdshim elapsed ticks ") elapsed [] in
       check_sleep (check_term_size
         (let& unix_nanos := rt.time_unix_nanos in
          do& print_number (bs "stdshim wall clock unix_nanos ") unix_nanos [] in
          do& rt.println (bs "stdshim: ok") in
          call_ret 0)))))))).

End StdShim.
