(* ===== verification/Machine.v ===== *)
(** * A program and its memory

    The loads, stores and deliberate faults of a program's own code are the machine's:
    a class of operations, where no answer means that the processor raised an
    exception and control went to the kernel's report (Interrupt.v). [MemoryLaws]
    states what a program may rely on about the memory the kernel maps for it;
    MachineStore.v proves it of the kernel. *)

From S2P Require Import Prelude Text UserAbi UserIo UserHeap.

Class Machine (S : Type) : Type := {
  (** [*(address as *const u64)] and [*(address as *mut u64) = value], volatile *)
  read_volatile : Z -> Call S Z;
  write_volatile : Z -> Z -> Call S unit;
  (** an instruction that raises exception [vector] *)
  trap : Z -> Call S unit
}.

Definition MEM_PAGE : Z := 4096.

(** [a] is the address of a word in the [n] pages at [r]. *)
Definition word_in (r n a : Z) : Prop := r <= a < r + n * MEM_PAGE /\ a mod 8 = 0.

Class MemoryLaws (S : Type) `{RymosAbi S} `{Machine S} : Type := {
  memory_good : S -> Prop;
  (** what has been written to the standard output *)
  shown : S -> bytes -> Prop;
  (** the word at an address the program may use *)
  word : S -> Z -> option Z;
  (** an address without memory behind it *)
  absent : S -> Z -> Prop;
  (** a mapping the program has been given and not given back *)
  mapped : S -> Z -> Z -> Prop;
  own_pid : S -> Z;
  read_law s a x : memory_good s -> word s a = Some x -> answers (read_volatile a) s x s;
  write_law s t a x y :
    memory_good s -> shown s t -> word s a = Some x ->
    exists s', answers (write_volatile a y) s tt s' /\ memory_good s' /\ shown s' t /\ own_pid s' = own_pid s /\
      (forall b, word s' b = if b =? a then Some y else word s b) /\ (forall r n, mapped s r n -> mapped s' r n);
  absent_law s a y : memory_good s -> absent s a -> write_volatile a y s = (s, None);
  output_law s t data :
    memory_good s -> shown s t ->
    exists n s', answers (call_write_fd Consts.STDOUT data) s n s' /\ 0 <= n /\ memory_good s' /\ shown s' (t ++ data) /\
      own_pid s' = own_pid s /\ (forall b, word s' b = word s b) /\ (forall b, absent s b -> absent s' b) /\
      (forall r n, mapped s r n -> mapped s' r n);
  own_pid_law s : memory_good s -> answers call_pid s (own_pid s) s;
  args_law s n : exists r, answers (call_args n) s r s;
  map_law s t n flags :
    memory_good s -> shown s t -> 0 <= n ->
    exists r s', answers (call_mem_map_pages n flags) s r s' /\ memory_good s' /\ shown s' t /\ own_pid s' = own_pid s /\
      (r = 0 \/
       (0 < r /\ r mod MEM_PAGE = 0 /\ r + n * MEM_PAGE < 2 ^ 64 /\ mapped s' r n /\ (forall a, word_in r n a -> word s' a = Some 0) /\
        (forall a x, word s a = Some x -> word s' a = Some x) /\
        (Z.land flags Consts.MEM_MAP_GUARD <> 0 -> forall a, word_in (r - MEM_PAGE) 1 a \/ word_in (r + n * MEM_PAGE) 1 a -> absent s' a)));
  unmap_law s t r n :
    memory_good s -> shown s t -> mapped s r n ->
    exists s', answers (call_mem_unmap_pages r n) s 0 s' /\ memory_good s' /\ shown s' t /\ own_pid s' = own_pid s;
  alloc_pages_law s t n :
    memory_good s -> shown s t -> 0 <= n ->
    exists r s', answers (call_mem_alloc_pages n) s r s' /\ memory_good s' /\ shown s' t /\ own_pid s' = own_pid s
}.

Section Machine.

Context {S : Type} `{MemoryLaws S}.

(** A running program: its memory works, [t] is on its output, [p] is its pid. *)
Record running (p : Z) (t : bytes) (s : S) : Prop := {
  ru_good : memory_good s;
  ru_shown : shown s t;
  ru_pid : own_pid s = p
}.

(** Nothing that a program can tell about its memory changed. *)
Record memory_same (s s' : S) : Prop := {
  me_word b : word s' b = word s b;
  me_absent b : absent s b -> absent s' b;
  me_mapped r n : mapped s r n -> mapped s' r n
}.

#[export] Instance memory_same_preorder : PreOrder memory_same.
Proof.
  split; [by split|]. intros s1 s2 s3 [A2 A3 A4] [B2 B3 B4].
  split; [intros b; by rewrite B2, A2|auto|auto].
Qed.

(** [m] answers, shows [out] and leaves the memory. *)
Definition tells (p : Z) (m : Call S unit) (out : bytes) : Prop := forall s t,
  running p t s -> exists s', answers m s tt s' /\ running p (t ++ out) s' /\ memory_same s s'.

Lemma tells_ret p : tells p (call_ret tt) [].
Proof. intros s t Hr. exists s. by rewrite app_nil_r. Qed.

Lemma tells_bind p m k out1 out2 : tells p m out1 -> tells p k out2 -> tells p (do& m in k) (out1 ++ out2).
Proof.
  intros Hm Hk s t Hr. destruct (Hm s t Hr) as (s1 & A1 & R1 & M1). destruct (Hk s1 _ R1) as (s2 & A2 & R2 & M2).
  exists s2. rewrite app_assoc. split_and!; [|done|by transitivity s1]. apply answers_bind. by exists tt, s1.
Qed.

Lemma tells_write p data : tells p (write data) data.
Proof.
  intros s t [Hg Ht Hp]. destruct (output_law s t data Hg Ht) as (n & s' & A & Hn & G & T & M1 & M2 & M3 & M4).
  exists s'. split_and!; [|split; [done|done|congruence]|by split]. unfold write. apply answers_bind. exists n, s'.
  split; [done|]. destruct (Z.ltb_spec n 0); [lia|]. by apply answers_ret.
Qed.

Lemma tells_println p text : tells p (println text) (text ++ [10]).
Proof. apply tells_bind; apply tells_write. Qed.

Lemma tells_each p l : tells p (write_each l) l.
Proof.
  induction l as [|b l IH]; simpl; [apply tells_ret|]. apply (tells_bind p _ _ [b] l); [|done]. apply tells_write.
Qed.

(** Where [m] ends: with an answer, or without one because the processor raised an
    exception or the program does not return; either way in a state with [Q]. *)
Definition ends {A} (m : Call S A) (s : S) (Q : option A -> S -> Prop) : Prop := exists r s', m s = (s', r) /\ Q r s'.

Lemma ends_ret {A} (a : A) s (Q : option A -> S -> Prop) : Q (Some a) s -> ends (call_ret a) s Q.
Proof. intros HQ. by exists (Some a), s. Qed.

Lemma ends_none {A} (m : Call S A) s s' (Q : option A -> S -> Prop) : m s = (s', None) -> Q None s' -> ends m s Q.
Proof. intros Hm HQ. by exists None, s'. Qed.

Lemma ends_bind {A B} (m : Call S A) (k : A -> Call S B) s a s1 (Q : option B -> S -> Prop) :
  answers m s a s1 -> ends (k a) s1 Q -> ends (let& x := m in k x) s Q.
Proof. intros Hm (r & s2 & Hk & HQ). exists r, s2. split; [|done]. unfold call_bind. unfold answers in Hm. by rewrite Hm. Qed.

(** What follows [m] sees one of the ends of [m]. *)
Lemma ends_then {A B} (m : Call S A) (k : A -> Call S B) s (Q : option A -> S -> Prop) (Q' : option B -> S -> Prop) :
  ends m s Q -> (forall a s', Q (Some a) s' -> ends (k a) s' Q') -> (forall s', Q None s' -> Q' None s') ->
  ends (let& x := m in k x) s Q'.
Proof.
  intros ([a|] & s1 & Hm & HQ) Hk Hn; [by apply (ends_bind m k s a s1 Q' Hm), Hk|].
  exists None, s1. split; [unfold call_bind; by rewrite Hm|by apply Hn].
Qed.

Lemma ends_mono {A} (m : Call S A) s (Q Q' : option A -> S -> Prop) :
  ends m s Q -> (forall r s', Q r s' -> Q' r s') -> ends m s Q'.
Proof. intros (r & s' & E & HQ) Hx. exists r, s'. split; [done|auto]. Qed.

Lemma ends_say {B} p t m out (k : Call S B) s (Q : option B -> S -> Prop) :
  tells p m out -> running p t s ->
  (forall s', running p (t ++ out) s' -> memory_same s s' -> ends k s' Q) -> ends (do& m in k) s Q.
Proof. intros Hm Hr Hk. destruct (Hm s t Hr) as (s1 & A1 & R1 & M1). by eapply ends_bind; [|by apply Hk]. Qed.

Lemma ends_pid {B} p t (k : Z -> Call S B) s (Q : option B -> S -> Prop) :
  running p t s -> ends (k p) s Q -> ends (let& q := pid in k q) s Q.
Proof. intros Hr Hk. eapply ends_bind; [apply own_pid_law, Hr|]. by rewrite (ru_pid _ _ _ Hr). Qed.

(** The last thing a program says. *)
Lemma ends_last {A} p t text (a : A) s (Q : option A -> S -> Prop) :
  running p t s -> (forall s', running p (t ++ text ++ [10]) s' -> Q (Some a) s') -> ends (do& println text in call_ret a) s Q.
Proof.
  intros Hr HQ. apply (ends_say p t _ _ _ _ _ (tells_println p text) Hr). intros s' R' _. by apply ends_ret, HQ.
Qed.

(** One request to the allocator, whatever it asks for. *)
Lemma align_up_nonneg v align : 0 <= align_up v align.
Proof. unfold align_up. apply Z.ldiff_nonneg. left. unfold u64. apply Z.mod_pos_bound. lia. Qed.

Lemma alloc_ends p t size align a s :
  running p t s -> exists r s', answers (alloc size align a) s r s' /\ running p t s'.
Proof.
  intros [G T P]. unfold alloc.
  assert (Hret : forall x, exists r s', answers (call_ret x : Call S (BumpAllocator * Z)) s r s' /\ running p t s').
  { intros x. exists x, s. split; [by apply answers_ret|by split]. }
  destruct (checked64 _); [|apply Hret]. destruct (_ <=? _); [apply Hret|]. destruct (checked64 _); [|apply Hret].
  set (n := align_up _ _ / _). assert (Hn : 0 <= n) by (apply Z.div_pos; [apply align_up_nonneg|done]).
  destruct (alloc_pages_law s t n G T Hn) as (r & s1 & A1 & G1 & T1 & P1).
  assert (R1 : running p t s1) by (split; [done|done|congruence]).
  set (k := fun r : option Z => _). enough (Hk : exists x, answers (k (nonzero r)) s1 x s1).
  { destruct Hk as [x Hk]. exists x, s1. split; [|done]. apply answers_bind. exists (nonzero r), s1. split; [|done].
    unfold mem_alloc_pages. apply answers_bind. exists r, s1. by rewrite answers_ret. }
  unfold k. cbv zeta. repeat case_match; eexists; by apply answers_ret.
Qed.

(** What a program that panics says last. *)
Definition panicked : bytes := bs "program panic" ++ [10].

Lemma grow_buffer_ends p t layouts a s :
  running p t s ->
  ends (grow_buffer layouts a) s (fun r s' =>
    match r with Some _ => running p t s' | None => running p (t ++ panicked) s' end).
Proof.
  revert a s. induction layouts as [|[size align] rest IH]; intros a s R; cbn [grow_buffer]; [by apply ends_ret|].
  destruct (alloc_ends p t size align a s R) as (r & s1 & A1 & R1). eapply ends_bind; [exact A1|].
  destruct (snd r =? 0); [|by apply IH]. unfold panic.
  eapply ends_say; [apply tells_println|exact R1|]. intros s2 R2 _. by apply (ends_none _ s2 s2).
Qed.

(** What the number printers print. *)
Definition usize_text (v : Z) : bytes := if v =? 0 then bs "0" else rev (usize_digits_from 20 v).

Definition hex_text (v : Z) : bytes :=
  bs "0x" ++ map (fun k => hex_digit (Z.land (Z.shiftr v (4 * Z.of_nat k)) 15)) (rev (seq 0 16)).

Lemma tells_usize p v : tells p (print_usize v) (usize_text v).
Proof. unfold print_usize, usize_text. destruct (v =? 0); [apply tells_write|apply tells_each]. Qed.

Lemma tells_hex p v : tells p (print_hex_usize v) (hex_text v).
Proof. apply tells_bind; [apply tells_write|apply tells_each]. Qed.

End Machine.

#[export] Hint Resolve tells_ret tells_bind tells_write tells_println tells_each tells_usize tells_hex : rymos.

(** One thing said, the next to say; the state before is forgotten or remembered. *)
Ltac say_next R := eapply ends_say; [eauto with rymos|exact R|]; clear R; intros ? R _.

Ltac say_keep R K :=
  let M := fresh "M" in
  eapply ends_say; [eauto with rymos|exact R|]; clear R; intros ? R M;
  pose proof (transitivity K M); clear K M;
  match goal with H : memory_same _ _ |- _ => rename H into K end.
