(* ===== verification/Heapstress.v ===== *)
(** * A program that fills its memory

    [src/programs/heapstress/src/main.rs]: it maps eight megabytes, marks every page,
    reads two marks back, gives the pages back and fills a [Vec]. Which blocks the
    standard library asks for while the [Vec] grows is a parameter; the requests go to
    the allocator of UserHeap.v. *)

From S2P Require UserIo UserHeap.
From S2P Require Import Prelude Text UserAbi Machine.

Module rt := UserIo.

Definition nl : bytes := [10].
Definition PAGE_SIZE : Z := 4096.
Definition MARK : Z := 0xA110C00000000000.

Definition DATA_LEN : Z := 2 * 1024 * 1024.

(** [data.push((index & 0xFF) as u8)] for [index] below [count]. *)
Definition pushed (count : Z) : bytes :=
  map (fun index => u8 (Z.land (Z.of_nat index) 0xFF)) (seq 0 (Z.to_nat count)).

(** [data[0] + data[data.len() - 1] + data.len()] *)
Definition checksum (data : bytes) : Z :=
  u64 (u64 (nth 0 data 0 + nth (length data - 1) data 0) + blen data).

Section Heapstress.

Context {S : Type} `{RymosAbi S} `{Machine S} (requests : list (Z * Z)).

(** [for page in ..pages]; [n] pages are left. *)
Fixpoint mark_from (n : nat) (page address : Z) : Call S unit :=
  match n with
  | O => call_ret tt
  | Datatypes.S n =>
      do& write_volatile (u64 (address + page * PAGE_SIZE)) (Z.lor MARK page) in
      mark_from n (page + 1) address
  end.

Definition fill_vec : Call S Z :=
  let& _heap := UserHeap.grow_buffer requests UserHeap.ALLOCATOR in
  let data := pushed DATA_LEN in
  do& rt.print (bs "heapstress vec ") in
  do& rt.print_usize (blen data) in
  do& rt.print (bs " checksum ") in
  do& rt.print_usize (checksum data) in
  do& rt.write nl in
  do& rt.println (bs "heapstress: ok") in
  call_ret 0.

Definition stress_pages (pages address : Z) : Call S Z :=
  do& rt.print (bs "heapstress mapped ") in
  do& rt.print_usize (pages * PAGE_SIZE / 1024 / 1024) in
  do& rt.print (bs " MiB at ") in
  do& rt.print_hex_usize address in
  do& rt.write nl in
  do& mark_from (Z.to_nat pages) 0 address in
  let& first := read_volatile address in
  let& last := read_volatile (u64 (address + (pages - 1) * PAGE_SIZE)) in
  if negb (first =? MARK) || negb (last =? Z.lor MARK (pages - 1)) then
    do& rt.println (bs "heapstress: mmap readback failed") in call_ret 1
  else
    let& ok := rt.mem_unmap_pages address pages in
    if negb ok then do& rt.println (bs "heapstress: mem_unmap_pages failed") in call_ret 1
    else
      do& rt.println (bs "heapstress unmapped guarded region") in
      fill_vec.

Definition rymos_main : Call S Z :=
  do& rt.println (bs "heapstress: memory smoke test") in
  do& rt.print (bs "pid: ") in
  let& p := rt.pid in
  do& rt.print_usize p in
  do& rt.write nl in
  let pages := 2048 in
  let& address := rt.mem_map_pages pages Consts.MEM_MAP_GUARD in
  match address with
  | None => do& rt.println (bs "heapstress: mem_map_pages failed") in call_ret 1
  | Some address => stress_pages pages address
  end.

End Heapstress.

(** ** What it does *)

(** Every byte value in turn: the first is 0, the last 255. *)
Lemma pushed_spec n : blen (pushed n) = Z.max 0 n /\ forall i, 0 <= i < n -> nth (Z.to_nat i) (pushed n) 0 = i mod 256.
Proof.
  unfold blen, pushed. rewrite length_map, length_seq. split; [lia|]. intros i Hi.
  rewrite (nth_indep _ 0 (u8 (Z.land (Z.of_nat 0) 0xFF))) by (rewrite length_map, length_seq; lia).
  rewrite (map_nth (fun index => u8 (Z.land (Z.of_nat index) 0xFF))), seq_nth by lia.
  change 0xFF with (Z.ones 8). rewrite Z.land_ones by lia. unfold u8. change (2 ^ 8) with 256.
  replace (Z.of_nat (0 + Z.to_nat i)) with i by lia. rewrite Z.mod_mod; lia.
Qed.

Lemma checksum_of data a b n :
  0 < n -> blen data = n -> nth 0 data 0 = a -> nth (Z.to_nat (n - 1)) data 0 = b -> checksum data = u64 (u64 (a + b) + n).
Proof.
  intros Hn Hl Ha Hb. unfold checksum. unfold blen in *. replace (length data - 1)%nat with (Z.to_nat (n - 1)) by lia. congruence.
Qed.

Lemma pushed_checksum n : 0 < n -> checksum (pushed n) = u64 (u64 ((n - 1) mod 256) + n).
Proof.
  intros Hn. destruct (pushed_spec n) as [Hl Hx].
  apply (checksum_of _ 0); [done|lia|exact (Hx 0 ltac:(lia))|apply Hx; lia].
Qed.

Section Runs.

Context {S : Type} `{MemoryLaws S} (requests : list (Z * Z)).

Definition mark (i : Z) : Z := Z.lor MARK i.

(** The pages before [page] are marked. *)
Definition marked (address pages page : Z) (s : S) : Prop :=
  forall i, 0 <= i < pages -> word s (address + i * PAGE_SIZE) = Some (if i <? page then mark i else 0).

Lemma mark_from_marks n page pages address p t s :
  running p t s -> 0 <= page -> page + Z.of_nat n = pages -> 0 <= address ->
  address + pages * PAGE_SIZE < 2 ^ 64 -> marked address pages page s ->
  exists s', answers (mark_from n page address) s tt s' /\ running p t s' /\
    (forall r m, mapped s r m -> mapped s' r m) /\ marked address pages pages s'.
Proof.
  revert page s. induction n as [|n IH]; intros page s Hr Hp Hn Ha Hl Hm.
  { exists s. replace pages with page in * by lia. by split_and!. }
  assert (E : u64 (address + page * PAGE_SIZE) = address + page * PAGE_SIZE).
  { apply u64_small. unfold is_u64, PAGE_SIZE in *. lia. }
  pose proof (Hm page ltac:(lia)) as Hw. cbn [mark_from]. rewrite E. destruct Hr as [Hg Ht Hpid].
  destruct (write_law s t _ _ (Z.lor MARK page) Hg Ht Hw) as (s1 & A1 & G1 & T1 & P1 & W1 & M1).
  assert (R1 : running p t s1) by (split; [done|done|congruence]).
  destruct (IH (page + 1) s1 R1) as (s2 & A2 & R2 & M2 & K2); try lia.
  { intros i Hi. rewrite W1, Hm by done. destruct (Z.eqb_spec (address + i * PAGE_SIZE) (address + page * PAGE_SIZE)) as [Hx|Hx].
    - unfold PAGE_SIZE in Hx. assert (i = page) as -> by lia. by destruct (Z.ltb_spec page (page + 1)); [|lia].
    - assert (i <> page) by (intros ->; done). by destruct (Z.ltb_spec i (page + 1)), (Z.ltb_spec i page); try lia. }
  exists s2. split_and!; [|done|auto|done]. apply answers_bind. by exists tt, s1.
Qed.

(** What it prints before it asks for memory, and what when it has got it. *)
Definition opening (p : Z) : bytes :=
  (bs "heapstress: memory smoke test" ++ nl) ++ bs "pid: " ++ usize_text p ++ nl.

Definition mapped_line (a : Z) : bytes := bs "heapstress mapped " ++ bs "8" ++ bs " MiB at " ++ hex_text a ++ nl.

Definition vec_lines : bytes :=
  bs "heapstress vec " ++ bs "2097152" ++ bs " checksum " ++ bs "2097407" ++ nl ++ bs "heapstress: ok" ++ nl.

(** Filling the [Vec] ends: with the two lines, or in the panic handler. *)
Definition vec_filled (p : Z) (t : bytes) (r : option Z) (s : S) : Prop :=
  match r with
  | Some code => code = 0 /\ running p (t ++ vec_lines) s
  | None => running p (t ++ panicked) s
  end.

Lemma fill_vec_ends p t s : running p t s -> ends (fill_vec requests) s (vec_filled p t).
Proof.
  intros R. unfold fill_vec. eapply ends_then; [by apply grow_buffer_ends| |done]. clear R. intros ? s0 R; cbn in R.
  cbv zeta. rewrite (pushed_checksum DATA_LEN) by (unfold DATA_LEN; lia). rewrite (proj1 (pushed_spec DATA_LEN)).
  change (Z.max 0 DATA_LEN) with 2097152. change (u64 (u64 ((DATA_LEN - 1) mod 256) + DATA_LEN)) with 2097407.
  do 5 say_next R. eapply ends_last; [exact R|]. clear R. intros s9 R. split; [done|].
  change (usize_text 2097152) with (bs "2097152") in R. change (usize_text 2097407) with (bs "2097407") in R.
  rewrite <- !app_assoc in R. exact R.
Qed.

Lemma marks_zero a pages : 0 <= a -> a mod PAGE_SIZE = 0 -> forall s,
  (forall b, word_in a pages b -> word s b = Some 0) -> marked a pages 0 s.
Proof.
  intros Ha Hal s Hz i Hi. rewrite Hz; [by destruct (Z.ltb_spec i 0); [lia|]|].
  unfold word_in, MEM_PAGE, PAGE_SIZE in *. split; [lia|zlia].
Qed.

Lemma stress_pages_ends p t a s :
  running p t s -> 0 < a -> a mod PAGE_SIZE = 0 -> a + 2048 * PAGE_SIZE < 2 ^ 64 -> mapped s a 2048 ->
  (forall b, word_in a 2048 b -> word s b = Some 0) ->
  ends (stress_pages requests 2048 a) s
    (vec_filled p (t ++ mapped_line a ++ bs "heapstress unmapped guarded region" ++ nl)).
Proof.
  intros R Ha Hal Hl Hmap Hz. unfold stress_pages. change (2048 * PAGE_SIZE / 1024 / 1024) with 8.
  assert (K : memory_same s s) by reflexivity. do 5 say_keep R K.
  match type of R with running _ _ ?x => set (s5 := x) in * end.
  assert (Hz5 : forall b, word_in a 2048 b -> word s5 b = Some 0) by (intros b Hb; rewrite (me_word _ _ K); by apply Hz).
  destruct (mark_from_marks (Z.to_nat 2048) 0 2048 a p _ s5 R) as (s6 & A6 & R6 & M6 & K6); [lia..|by apply marks_zero; [lia|..]|].
  eapply ends_bind; [exact A6|]. pose proof (K6 0 ltac:(lia)) as W0. pose proof (K6 2047 ltac:(lia)) as W1.
  rewrite Z.mul_0_l, Z.add_0_r in W0. unfold PAGE_SIZE in Hl.
  eapply ends_bind; [apply (read_law s6 a _ (ru_good _ _ _ R6) W0)|].
  replace (u64 (a + (2048 - 1) * PAGE_SIZE)) with (a + 2047 * PAGE_SIZE)
    by (symmetry; apply u64_small; unfold is_u64, PAGE_SIZE; lia).
  eapply ends_bind; [apply (read_law s6 _ _ (ru_good _ _ _ R6) W1)|].
  change (negb _ || negb _) with false. cbv iota.
  destruct R6 as [G6 T6 P6]. destruct (unmap_law s6 _ a 2048 G6 T6) as (s7 & A7 & G7 & T7 & P7); [apply M6, (me_mapped _ _ K), Hmap|].
  eapply ends_bind; [unfold rt.mem_unmap_pages; apply answers_bind; exists 0, s7; split; [exact A7|by apply answers_ret]|].
  change (negb (0 =? 0)) with false. cbv iota.
  assert (R7 : running p _ s7) by (split; [exact G7|exact T7|congruence]).
  eapply ends_say; [apply tells_println|exact R7|]. intros s8 R8 _.
  change (usize_text 8) with (bs "8") in R8. unfold mapped_line. rewrite <- !app_assoc in *. by apply fill_vec_ends.
Qed.

(** The ways the program ends. The pages are refused: it says so and answers 1.
    Otherwise every mark it reads back is the one it stored, the pages are given back,
    and it answers 0 unless the allocator has no memory for the [Vec]. *)
Definition stress_end (p : Z) (t : bytes) (r : option Z) (s : S) : Prop :=
  (r = Some 1 /\ running p (t ++ opening p ++ bs "heapstress: mem_map_pages failed" ++ nl) s) \/
  (exists a, vec_filled p (t ++ opening p ++ mapped_line a ++ bs "heapstress unmapped guarded region" ++ nl) r s).

Lemma heapstress_ends p t s : running p t s -> ends (rymos_main requests) s (stress_end p t).
Proof.
  intros R. unfold rymos_main. do 2 say_next R. apply (ends_pid p _ _ _ _ R). do 2 say_next R. cbv zeta.
  match type of R with running _ ?x ?y => set (t4 := x) in *; set (s4 := y) in * end.
  destruct R as [G4 T4 P4]. destruct (map_law s4 t4 2048 Consts.MEM_MAP_GUARD G4 T4 ltac:(lia)) as (r & s5 & A5 & G5 & T5 & P5 & Hr).
  eapply ends_bind; [unfold rt.mem_map_pages; apply answers_bind; exists r, s5; split; [exact A5|by apply answers_ret]|].
  assert (R5 : running p t4 s5) by (split; [done|done|congruence]). unfold rt.nonzero, stress_end.
  destruct Hr as [->|(Hr & Hal & Hl & Hm & Hz & _)].
  - change (0 =? 0) with true. cbv iota. eapply ends_last; [exact R5|]. intros s6 R6. left. split; [done|].
    unfold t4, opening in *. rewrite <- !app_assoc in *. exact R6.
  - destruct (Z.eqb_spec r 0); [lia|].
    eapply ends_mono; [exact (stress_pages_ends p t4 r s5 R5 Hr Hal Hl Hm Hz)|]. intros x s6 H6. right. exists r.
    unfold t4, opening in *. rewrite <- !app_assoc in *. exact H6.
Qed.

End Runs.
