(* ===== verification/Faultcheck.v ===== *)
(** * A program that faults on purpose

    [src/programs/faultcheck/src/main.rs]: it touches a guard page, writes through a
    null pointer, divides by zero or executes an invalid instruction, and reports if it
    is still running afterwards. *)

From S2P Require UserIo.
From S2P Require Import Prelude Text UserAbi Machine.

Module rt := UserIo.

Definition nl : bytes := [10].
Definition PAGE_SIZE : Z := 4096.

(** The vectors of the two instructions. *)
Definition DIVIDE_ERROR : Z := 0.
Definition INVALID_OPCODE : Z := 6.

Section Faultcheck.

Context {S : Type} `{RymosAbi S} `{Machine S}.

Definition touch_guard (after : bool) : Call S unit :=
  let pages := 4 in
  let& address := rt.mem_map_pages pages Consts.MEM_MAP_GUARD in
  match address with
  | None => rt.println (bs "faultcheck: mem_map_pages failed")
  | Some address =>
      let guard_addr := if after then u64 (address + pages * PAGE_SIZE) else u64 (address - PAGE_SIZE) in
      do& rt.print (bs "faultcheck: touching guard page at ") in
      do& rt.print_hex_usize guard_addr in
      do& rt.write nl in
      write_volatile guard_addr 0xDEADBEEF
  end.

Definition rymos_main : Call S Z :=
  let& mode := rt.args (replicate 32 0) in
  do& rt.println (bs "faultcheck: about to deliberately fault -- this should print a diagnostic and halt, not silently reboot") in
  do& (if bytes_eq mode (bs "null") then
         do& rt.println (bs "faultcheck: mode=null (writing through a null pointer -- known non-fault, see doc comment)") in
         write_volatile 0 0
       else if bytes_eq mode (bs "divide") then
         do& rt.println (bs "faultcheck: mode=divide (raw hardware divide-by-zero, bypassing Rust's own check)") in
         trap DIVIDE_ERROR
       else if bytes_eq mode (bs "ud") then
         do& rt.println (bs "faultcheck: mode=ud (raw invalid opcode)") in
         trap INVALID_OPCODE
       else if bytes_eq mode (bs "guard-after") then
         do& rt.println (bs "faultcheck: mode=guard-after (touching the trailing guard page)") in
         touch_guard true
       else
         do& rt.println (bs "faultcheck: mode=guard-before (touching the leading guard page)") in
         touch_guard false) in
  do& rt.println (bs "faultcheck: FAIL -- execution continued past the deliberate fault") in
  call_ret 1.

End Faultcheck.

(** ** The guard pages *)

Section Runs.

Context {S : Type} `{MemoryLaws S}.

Definition guard_of (after : bool) (a : Z) : Z := if after then a + 4 * PAGE_SIZE else a - PAGE_SIZE.

Definition touching (g : Z) : bytes := bs "faultcheck: touching guard page at " ++ hex_text g ++ nl.

Lemma guard_word (after : bool) a : 0 < a -> a mod MEM_PAGE = 0 -> a + 4 * MEM_PAGE < 2 ^ 64 ->
  (if after then u64 (a + 4 * PAGE_SIZE) else u64 (a - PAGE_SIZE)) = guard_of after a /\
  (word_in (a - MEM_PAGE) 1 (guard_of after a) \/ word_in (a + 4 * MEM_PAGE) 1 (guard_of after a)).
Proof.
  intros Ha Hal Hl. unfold word_in, guard_of, MEM_PAGE, PAGE_SIZE in *.
  assert (a = 4096 * (a / 4096)) by zlia. assert (4096 <= a) by lia. split.
  - destruct after; apply u64_small; unfold is_u64; lia.
  - destruct after; [right|left]; (split; [lia|zlia]).
Qed.

(** Touching a guard page does not return: after the announcement the machine faults,
    unless the kernel had no pages to map. *)
Definition guard_touched (p : Z) (t : bytes) (after : bool) (r : option unit) (s : S) : Prop :=
  match r with
  | Some _ => running p (t ++ bs "faultcheck: mem_map_pages failed" ++ nl) s
  | None => exists a, absent s (guard_of after a) /\ running p (t ++ touching (guard_of after a)) s
  end.

Lemma touch_guard_faults (after : bool) p t s : running p t s -> ends (touch_guard after) s (guard_touched p t after).
Proof.
  intros [G T P]. destruct (map_law s t 4 Consts.MEM_MAP_GUARD G T ltac:(lia)) as (r & s1 & A1 & G1 & T1 & P1 & Hr).
  assert (R1 : running p t s1) by (split; [done|done|congruence]).
  unfold touch_guard. cbv zeta.
  eapply ends_bind; [unfold rt.mem_map_pages; apply answers_bind; exists r, s1; split; [exact A1|by apply answers_ret]|].
  unfold rt.nonzero. destruct Hr as [->|(Hr & Hal & Hl & Hm & _ & _ & Hg)].
  - change (0 =? 0) with true. cbv iota.
    destruct (tells_println p (bs "faultcheck: mem_map_pages failed") s1 t R1) as (s2 & A2 & R2 & _).
    by exists (Some tt), s2.
  - destruct (Z.eqb_spec r 0); [lia|]. destruct (guard_word after r Hr Hal Hl) as [-> Hw].
    assert (Hn : Z.land Consts.MEM_MAP_GUARD Consts.MEM_MAP_GUARD <> 0) by (vm_compute; discriminate).
    pose proof (Hg Hn (guard_of after r) Hw) as Habs. clear Hg.
    assert (K : memory_same s1 s1) by reflexivity. do 3 say_keep R1 K.
    match type of R1 with running _ _ ?x => set (s4 := x) in * end.
    pose proof (me_absent _ _ K _ Habs) as Ha. apply (ends_none _ s4 s4); [by apply absent_law; [apply R1|]|].
    exists r. split; [done|]. unfold touching. rewrite <- !app_assoc in R1. exact R1.
Qed.

(** The modes that touch a guard page. *)
Definition guard_mode (mode : bytes) : Prop :=
  bytes_eq mode (bs "null") = false /\ bytes_eq mode (bs "divide") = false /\ bytes_eq mode (bs "ud") = false.

Definition announcement : bytes :=
  bs "faultcheck: about to deliberately fault -- this should print a diagnostic and halt, not silently reboot" ++ nl.

Definition mode_line (after : bool) : bytes :=
  (if after then bs "faultcheck: mode=guard-after (touching the trailing guard page)"
   else bs "faultcheck: mode=guard-before (touching the leading guard page)") ++ nl.

(** In these modes the program announces the fault and then faults at a guard page;
    the last line, that it is still running, is reached only when nothing was mapped. *)
Definition fault_end (p : Z) (t : bytes) (after : bool) (r : option Z) (s : S) : Prop :=
  match r with
  | Some code => code = 1 /\
      running p (t ++ (bs "faultcheck: mem_map_pages failed" ++ nl) ++
        bs "faultcheck: FAIL -- execution continued past the deliberate fault" ++ nl) s
  | None => exists a, absent s (guard_of after a) /\ running p (t ++ touching (guard_of after a)) s
  end.

Lemma faultcheck_faults p t s mode :
  running p t s -> answers (rt.args (replicate 32 0)) s mode s -> guard_mode mode ->
  let after := bytes_eq mode (bs "guard-after") in
  ends rymos_main s (fault_end p (t ++ announcement ++ mode_line after) after).
Proof.
  intros R Ea (M1 & M2 & M3) after. unfold rymos_main. eapply ends_bind; [exact Ea|]. say_next R.
  rewrite M1, M2, M3.
  eapply (ends_then _ _ _ (guard_touched p (t ++ announcement ++ mode_line after) after)).
  - unfold after, mode_line. destruct (bytes_eq mode (bs "guard-after"));
      (say_next R; rewrite <- app_assoc in R; by apply touch_guard_faults).
  - intros ? s2 R2; cbn in R2. eapply ends_last; [exact R2|]. intros s3 R3. split; [done|]. rewrite <- !app_assoc in *. exact R3.
  - done.
Qed.

End Runs.
