(* ===== verification/Allocdemo.v ===== *)
(** * The program that uses the heap

    [src/programs/allocdemo/src/main.rs]. Which blocks the standard library asks for
    while a [Vec] and a [String] grow is its own affair: the requests are a parameter,
    and they go to the allocator of UserHeap.v, which the program reports on; a request
    that is refused ends in the panic handler. *)

From S2P Require UserIo UserHeap.
From S2P Require Import Prelude Text UserAbi.

Module rt := UserIo.

Definition nl : bytes := [10].

(** The sum of a slice, in [usize]. *)
Definition sum (numbers : list Z) : Z := fold_left (fun total number => u64 (total + number)) numbers 0.

(** [for value in 0..128 { numbers.push(value) }] *)
Definition numbers : list Z := map Z.of_nat (seq 0 128).

(** The first loop collects digits, lowest first, the second pushes them. *)
Definition push_usize (text : bytes) (value : Z) : bytes :=
  if value =? 0 then text ++ bs "0" else text ++ rev (rt.usize_digits_from 20 value).

Definition message : bytes := push_usize (push_usize (bs "vec-len=") (blen numbers) ++ bs " sum=") (sum numbers).

Section Allocdemo.

Context {S : Type} `{RymosAbi S} (requests : list (Z * Z)).

Definition report : Call S unit :=
  let& _d := rt.mkdir (bs "pfs:alloc") in
  let& file := rt.file_create (bs "pfs:alloc/report.txt") in
  match file with
  | Some file =>
      let& _a := rt.write_file file message in
      let& _b := rt.write_file file nl in
      do& rt.println (bs "allocdemo: wrote pfs:alloc/report.txt") in
      rt.drop_file file
  | None => rt.println (bs "allocdemo: pfs write skipped")
  end.

Definition rymos_main : Call S Z :=
  do& rt.println (bs "allocdemo: liballoc smoke test") in
  do& rt.print (bs "pid: ") in
  let& p := rt.pid in
  do& rt.print_usize p in
  do& rt.write nl in
  let& heap := UserHeap.grow_buffer requests UserHeap.ALLOCATOR in
  do& rt.println message in
  do& rt.print (bs "mapped heap bytes: ") in
  do& rt.print_usize (UserHeap.heap_size heap) in
  do& rt.write nl in
  do& rt.print (bs "heap base: ") in
  do& rt.print_hex_usize (UserHeap.heap_base heap) in
  do& rt.write nl in
  do& report in
  call_ret 0.

End Allocdemo.

(** The line it reports. *)
Lemma allocdemo_message : message = bs "vec-len=128 sum=8128".
Proof. reflexivity. Qed.

