(* ===== verification/System.v ===== *)
(** * The system commands of the kernel shell

    [memory_summary], [pagealloc_command], [paging_summary], [vmclone_command],
    [ptalloc_command], [maptest_command], [show_drivers], [show_devices] and
    [pci_scan] of [src/kernel/src/main.rs]. Each takes the console and returns it
    with what it printed. *)

From S2P Require Import Prelude Constants Text Hw Console Phys Paging PagingThm Elf Spawn PfsCmd.

(** [console.write_usize], [console.write_hex_u64]. *)
Definition put_usize (value : Z) (c : Console) : Console := write_bytes (write_usize value) c.
Definition put_hex (value : Z) (c : Console) : Console := write_bytes (write_hex_u64 value) c.

(** ** Memory *)

(** Pages of type 7 and the highest end of such a range. *)
Definition count_conventional (map : list EfiMemoryDescriptor) : Z * Z :=
  fold_left (fun '(pages, highest) d =>
    let end_ := u64 (physical_start d + u64 (number_of_pages d * 4096)) in
    if efi_typ d =? 7 then
      (u64 (pages + number_of_pages d), if highest <? end_ then end_ else highest)
    else (pages, highest)) map (0, 0).

Definition memory_summary (memory_map : option (list EfiMemoryDescriptor)) (ticks : Z)
    (allocator : PhysPageAllocator) (c : Console) : Console :=
  let c := say_line "memory:" c in
  let c := say_line "  kernel linked at 0x100000" c in
  let c := say_line "  VGA text buffer at 0xb8000" c in
  match memory_map with
  | None => say_line "  UEFI memory map: unavailable" c
  | Some map =>
      let '(conventional_pages, highest) := count_conventional map in
      let c := put_usize (Z.of_nat (length map)) (say "  UEFI memory map: " c) in
      let c := say_line " descriptors" c in
      let c := put_usize (u64 (conventional_pages * 4096) / 1024 / 1024)
                 (say "  conventional free RAM: " c) in
      let c := say_line " MiB" c in
      let c := new_line (put_hex highest (say "  highest free RAM end: 0x" c)) in
      let c := new_line (put_usize (Z.of_nat (range_count allocator)) (say "  page allocator ranges: " c)) in
      let c := put_usize (free_pages allocator) (say "  page allocator free: " c) in
      let c := put_usize (u64 (free_pages allocator * PAGE_SIZE) / 1024 / 1024) (say " pages / " c) in
      let c := say_line " MiB" c in
      let c := put_usize (allocated_pages allocator) (say "  page allocator used: " c) in
      let c := say_line " pages" c in
      let c := put_usize (Z.of_nat (free_count allocator)) (say "  reusable free stack: " c) in
      let c := say_line " pages" c in
      new_line (put_usize ticks (say "  timer ticks (IRQ0, ~100 Hz): " c))
  end.

Definition pagealloc_command (c : Console) : ST Vm Console := fun s =>
  match alloc_page (PHYS_ALLOCATOR s) with
  | (a, None) => ({| s with PHYS_ALLOCATOR := a |}, say_line "pagealloc: out of pages" c)
  | (a, Some page) =>
      ({| s with PHYS_ALLOCATOR := a |}, new_line (put_hex page (say "pagealloc: 0x" c)))
  end.

(** ** Page tables *)

(** Present entries, the first and the last of them, huge entries. *)
Definition count_entries (mem : arr) (pml4 : Z) : Z * Z * Z * Z :=
  fold_left (fun '(present_, first, last, huge_) k =>
    let index := Z.of_nat k in
    let entry := entry_at mem pml4 index in
    if present entry then
      (present_ + 1, if first =? Z.of_nat PAGE_TABLE_ENTRIES then index else first, index,
       if huge entry then huge_ + 1 else huge_)
    else (present_, first, last, huge_))
    (seq 0 PAGE_TABLE_ENTRIES) (0, Z.of_nat PAGE_TABLE_ENTRIES, 0, 0).

Definition paging_summary (s : Vm) (c : Console) : Console :=
  let cr3 := vm_cr3 s in
  let pml4_phys := Z.land cr3 PAGE_ADDR_MASK in
  let c := say_line "paging:" c in
  let c := new_line (put_hex cr3 (say "  cr3: 0x" c)) in
  let c := new_line (put_hex pml4_phys (say "  pml4: 0x" c)) in
  let kernel_pml4 := KERNEL_PML4_PHYS s in
  let c := if negb (kernel_pml4 =? 0)
           then new_line (put_hex kernel_pml4 (say "  kernel-owned pml4: 0x" c)) else c in
  let '(present_, first, last, huge_) := count_entries (vm_mem s) pml4_phys in
  let c := put_usize present_ (say "  pml4 present entries: " c) in
  let c := if 0 <? present_
           then say ")" (put_usize last (say ".." (put_usize first (say " (" c)))) else c in
  let c := new_line c in
  let c := new_line (put_usize huge_ (say "  pml4 huge entries: " c)) in
  if (kernel_pml4 =? pml4_phys) && negb (kernel_pml4 =? 0)
  then say_line "  mapper: kernel-owned PML4 active, lower-level mapping edits next" c
  else say_line "  mapper: firmware PML4 active, run vmclone to take ownership" c.

Definition vmclone_command (c : Console) : ST Vm Console := fun s =>
  let old_pml4 := Z.land (vm_cr3 s) PAGE_ADDR_MASK in
  match ensure_kernel_pml4 s with
  | (s, None) => (s, say_line "vmclone: out of pages" c)
  | (s, Some new_pml4) =>
      (s, new_line (put_hex new_pml4 (say " -> 0x" (put_hex old_pml4 (say "vmclone: 0x" c)))))
  end.

Definition ptalloc_command (c : Console) : ST Vm Console := fun s =>
  match alloc_zeroed_page s with
  | (s, None) => (s, say_line "ptalloc: out of pages" c)
  | (s, Some page) =>
      let zero := page_is_zeroed page s in
      let c := say " zeroed=" (put_hex page (say "ptalloc: 0x" c)) in
      (s, say_line (if zero : bool then "yes" else "no") c)
  end.

(** A load through the tables in CR3; [None] is a page fault. *)
Definition load_word (virt : Z) (s : Vm) : option Z :=
  match translate s (vm_cr3 s) virt with
  | None => None
  | Some frame => Some (vm_mem s (frame + virt mod PAGE_SIZE))
  end.

Definition MAPTEST_MARKER : Z := 0x52594D4F535F4D41.

(** [NEXT_SCRATCH_VIRT] is threaded; no answer is a page fault. *)
Definition maptest_command (next_scratch : Z) (c : Console) : ST Vm (Z * option Console) := fun s =>
  if KERNEL_PML4_PHYS s =? 0 then (s, (next_scratch, Some (say_line "maptest: run vmclone first" c)))
  else
    match alloc_zeroed_page s with
    | (s, None) => (s, (next_scratch, Some (say_line "maptest: out of pages" c)))
    | (s, Some phys) =>
        let virt := next_scratch in
        let next_scratch := u64 (next_scratch + PAGE_SIZE) in
        match map_page (KERNEL_PML4_PHYS s) virt phys (Z.lor PAGE_PRESENT PAGE_WRITABLE) s with
        | (s, false) => (s, (next_scratch, Some (say_line "maptest: map failed" c)))
        | (s, true) =>
            match store_word virt MAPTEST_MARKER s with
            | (s, false) => (s, (next_scratch, None))
            | (s, true) =>
                match load_word virt s with
                | None => (s, (next_scratch, None))
                | Some read_back =>
                    let c := put_hex virt (say "maptest: virt 0x" c) in
                    let c := put_hex phys (say " -> phys 0x" c) in
                    let c := say " readback=" c in
                    (s, (next_scratch,
                      Some (if read_back =? MAPTEST_MARKER then say_line "ok" c
                            else new_line (put_hex read_back (say "bad 0x" c)))))
                end
            end
        end
    end.

(** ** Devices *)

(** One [write_line] per line. *)
Definition say_lines (l : list string) (c : Console) : Console := fold_left (fun c t => say_line t c) l c.

Definition show_drivers : Console -> Console := say_lines [
  "driver                 state";
  "serial 16550           active";
  "ps2 keyboard           polling";
  "vga text               active";
  "uefi gop framebuffer   active";
  "ramfs                  active";
  "pci config             polling";
  "ata/net/sound          planned from MOROS study"]%string.

Definition show_devices : Console -> Console := say_lines [
  "/dev/console      serial + keyboard console";
  "/dev/null         planned sink device";
  "/dev/random       planned rng device";
  "/dev/vga          text + framebuffer display";
  "/dev/kbd          ps2 keyboard poller";
  "/dev/pci          config-space scanner";
  "/dev/ramfs        in-kernel volatile filesystem"]%string.

Section Pci.

Context {M : Type} `{Ports M}.

Definition pci_line (bus device function vendor device_id class subclass : Z) (c : Console) : Console :=
  let c := say "  " (write_bytes (write_hex_u8 bus) c) in
  let c := say "  " (write_bytes (write_hex_u8 device) c) in
  let c := say "  " (write_bytes (write_hex_u8 function) c) in
  let c := say "   " (write_bytes (write_hex_u16 vendor) c) in
  let c := say "   " (write_bytes (write_hex_u16 device_id) c) in
  let c := say "    " (write_bytes (write_hex_u8 class) c) in
  let c := say "       " (write_bytes (write_hex_u8 subclass) c) in
  write_line (pci_class_name class subclass) c.

(** [n] functions are left. *)
Fixpoint pci_functions (n : nat) (bus device function found : Z) (c : Console) : ST M (Console * Z) :=
  match n with
  | O => st_ret (c, found)
  | S n =>
      let* vendor := pci_read_u16 bus device function 0x00 in
      if vendor =? 0xFFFF then pci_functions n bus device (function + 1) found c
      else
        let* device_id := pci_read_u16 bus device function 0x02 in
        let* class := pci_read_u8 bus device function 0x0B in
        let* subclass := pci_read_u8 bus device function 0x0A in
        pci_functions n bus device (function + 1) (found + 1)
          (pci_line bus device function vendor device_id class subclass c)
  end.

(** [n] devices are left. *)
Fixpoint pci_devices (n : nat) (bus device found : Z) (c : Console) : ST M (Console * Z) :=
  match n with
  | O => st_ret (c, found)
  | S n =>
      let* vendor := pci_read_u16 bus device 0 0x00 in
      if vendor =? 0xFFFF then pci_devices n bus (device + 1) found c
      else
        let* header_type := pci_read_u8 bus device 0 0x0E in
        let functions := if negb (Z.land header_type 0x80 =? 0) then 8%nat else 1%nat in
        let* r := pci_functions functions bus device 0 found c in
        pci_devices n bus (device + 1) (snd r) (fst r)
  end.

(** Bus 0 only ([0u8..=0]). *)
Definition pci_scan (c : Console) : ST M Console :=
  let c := say_line "bus dev fn vendor device class subclass" c in
  let* r := pci_devices 32 0 0 0 c in
  st_ret (if snd r =? 0 then say_line "no pci devices found" (fst r) else fst r).

End Pci.

(** ** What the memory test command does

    [maptest] of the kernel shell over the page-table laws of PagingThm.v: it maps
    a fresh page, never faults and always reads back what it stored. *)

(** ** A word stored in a data page *)

Lemma store_word_page s root f k x :
  tables_wf s root -> data_page s root f -> 0 <= k < PAGE_SIZE ->
  let s' := {| s with vm_mem := aset (vm_mem s) (f + k) x |} in
  tables_wf s' root /\ (forall w, translate s' root w = translate s root w) /\
  (forall g, data_page s root g -> data_page s' root g /\ (g <> f -> same_page s s' g)).
Proof.
  intros Hwf [[Hfa Hfr] Hu Ht] Hk s'.
  assert (Hent : forall q u j, valid_path q -> valid_index j -> walk (vm_mem s) root q = Some u ->
    entry_at (vm_mem s') u j = entry_at (vm_mem s) u j).
  { intros q u j Hq Hj Hwk. destruct (tw_page _ _ Hwf q u Hq Hwk) as [[Hua _] _].
    refine (aset_other (vm_mem s) _ _ _ _). assert (f <> u) by (intros ->; by apply (Ht q)).
    unfold page_aligned, PAGE_SIZE, valid_index in *. zlia. }
  assert (Hwalk : forall q, valid_path q -> walk (vm_mem s') root q = walk (vm_mem s) root q).
  { induction q as [|j q IH] using rev_ind; [done|]. intros Hv.
    destruct (valid_snoc _ _ Hv) as [Hvq Hj]. rewrite !walk_snoc, IH by done.
    destruct (walk (vm_mem s) root q) as [u|] eqn:Eq; [|done]. apply next_table_same.
    by apply (Hent q). }
  split_and!.
  - split; [apply (tw_alloc _ _ Hwf)| |].
    + intros q t Hq. rewrite Hwalk by done. by apply (tw_page _ _ Hwf q).
    + intros q1 q2 t H1 H2. rewrite !Hwalk by done. by apply (tw_inj _ _ Hwf).
  - intros w. destruct (path_of_valid w) as [Hv Hi]. unfold translate, leaf. rewrite Hwalk by done.
    destruct (walk (vm_mem s) root (path_of w)) as [u|] eqn:Eq; [|done]. by rewrite (Hent (path_of w)).
  - intros g [[Hga Hgr] Hgu Hgt]. split.
    + split; [done|done|]. intros q Hq. rewrite Hwalk by done. by apply Hgt.
    + intros Hne j Hj. refine (aset_other (vm_mem s) _ _ _ _).
      unfold page_aligned, PAGE_SIZE in *. zlia.
Qed.

(** ** The command *)

(** What every run of the command keeps. *)
Record kept_by_test (root : Z) (s s' : Vm) : Prop := {
  kt_wf : tables_wf s' root;
  kt_cr3 : vm_cr3 s' = vm_cr3 s;
  kt_data : forall f, data_page s root f -> data_page s' root f /\ same_page s s' f
}.

(** The tables change to exactly one more page, [virt] to [phys]. *)
Definition one_more_page (root virt phys : Z) (s s' : Vm) : Prop :=
  forall w, translate s' root w =
    if bool_decide (vpn w = vpn virt) then Some phys else translate s root w.

(** The report of a successful test. *)
Definition maptest_report (virt phys : Z) (c : Console) : Console :=
  say_line "ok" (say " readback=" (put_hex phys (say " -> phys 0x" (put_hex virt (say "maptest: virt 0x" c))))).

(** A fresh page mapped and written. *)
Lemma mapped_word s s1 s2 root virt n :
  tables_wf s root -> vm_cr3 s = root -> page_aligned virt ->
  alloc_zeroed_page s = (s1, Some n) -> map_page root virt n rw_flags s1 = (s2, true) ->
  exists s3, store_word virt MAPTEST_MARKER s2 = (s3, true) /\ load_word virt s3 = Some MAPTEST_MARKER /\
    kept_by_test root s s3 /\ one_more_page root virt n s s3.
Proof.
  intros Hwf Hc Hv Ea Em. pose proof (alloc_zeroed_spec s root Hwf) as A. rewrite Ea in A.
  destruct A as (Hwf1 & Hn & Hnew & Hc1 & _ & Ht1 & Hk1).
  pose proof (map_spec s1 root virt n Hwf1 (dp_frame _ _ _ Hn)) as M.
  pose proof (map_keeps_data s1 root virt n Hwf1 (dp_frame _ _ _ Hn)) as [Hc2 Hk2].
  rewrite Em in M, Hc2, Hk2. cbn [fst] in Hc2, Hk2. destruct M as (Hwf2 & _ & _ & Ht2).
  destruct (Hk2 n Hn) as [Hn2 _]. assert (Hoff : virt mod PAGE_SIZE = 0) by done.
  assert (Hhere : translate s2 root virt = Some n) by (rewrite Ht2; cbn [andb]; by rewrite bool_decide_true).
  assert (Hr2 : vm_cr3 s2 = root) by congruence.
  destruct (store_word_page s2 root n (virt mod PAGE_SIZE) MAPTEST_MARKER Hwf2 Hn2) as (Hwf3 & Ht3 & Hk3);
    [rewrite Hoff; unfold PAGE_SIZE; lia|].
  set (s3 := {| s2 with vm_mem := _ |}) in *. exists s3. split_and!.
  - unfold store_word. by replace (translate s2 (vm_cr3 s2) virt) with (Some n) by by rewrite Hr2.
  - unfold load_word. change (vm_cr3 s3) with (vm_cr3 s2). rewrite Hr2, Ht3, Hhere. f_equal. apply aset_same.
  - split; [done|change (vm_cr3 s3) with (vm_cr3 s2); congruence|]. intros f Hf.
    destruct (Hk1 f Hf) as [Hf1 S1]. destruct (Hk2 f Hf1) as [Hf2 S2]. destruct (Hk3 f Hf2) as [Hf3 S3].
    assert (Hne : f <> n) by (intros ->; by apply Hnew). split; [done|]. intros k Hk.
    rewrite (S3 Hne k Hk). by rewrite S2, S1.
  - intros w. by rewrite Ht3, Ht2, Ht1.
Qed.

(** C12: on well-formed tables that CR3 points to, with a scratch address that is
    page-aligned, the test never faults. Either it reports that pages ran out and
    leaves every translation as it was, or it maps a fresh page at the scratch
    address, changes no other translation, and reports "ok": the word it reads back
    is the word it stored. The tables stay well-formed and no other page's content
    changes. *)
Theorem maptest_reads_back s root scratch c :
  tables_wf s root -> KERNEL_PML4_PHYS s = root -> vm_cr3 s = root -> page_aligned scratch ->
  let '(s', (next, r)) := maptest_command scratch c s in
  kept_by_test root s s' /\
  ((next = scratch /\ r = Some (say_line "maptest: out of pages" c) /\ s' = s) \/
   (next = u64 (scratch + PAGE_SIZE) /\ r = Some (say_line "maptest: map failed" c) /\
    forall w, translate s' root w = translate s root w) \/
   (exists phys, next = u64 (scratch + PAGE_SIZE) /\ r = Some (maptest_report scratch phys c) /\
    ~ data_page s root phys /\ one_more_page root scratch phys s s' /\
    load_word scratch s' = Some MAPTEST_MARKER)).
Proof.
  intros Hwf Hk Hc Hv. unfold maptest_command. rewrite Hk, (root_nonzero s root Hwf).
  pose proof (alloc_zeroed_spec s root Hwf) as A.
  destruct (alloc_zeroed_page s) as [s1 [n|]] eqn:Ea.
  2: { subst s1. split; [split; [done|done|intros f Hf; by split]|]. by left. }
  destruct A as (Hwf1 & Hn & Hnew & Hc1 & _ & Ht1 & Hk1).
  assert (Hk1' : KERNEL_PML4_PHYS s1 = root).
  { revert Ea. unfold alloc_zeroed_page. destruct (alloc_page _) as [a [p|]]; [|done]. by intros [= <- _]. }
  rewrite Hk1'. change (Z.lor PAGE_PRESENT PAGE_WRITABLE) with rw_flags.
  pose proof (map_spec s1 root scratch n Hwf1 (dp_frame _ _ _ Hn)) as M.
  pose proof (map_keeps_data s1 root scratch n Hwf1 (dp_frame _ _ _ Hn)) as [Hc2 Hk2].
  destruct (map_page root scratch n rw_flags s1) as [s2 [|]] eqn:Em.
  - destruct (mapped_word s s1 s2 root scratch n Hwf Hc Hv Ea Em) as (s3 & Es & El & K & O).
    rewrite Es, El, Z.eqb_refl. split; [done|]. right. right. exists n. by split_and!.
  - destruct M as (Hwf2 & _ & _ & Ht2). cbn [fst] in Hc2, Hk2. split.
    + split; [done|congruence|]. intros f Hf. destruct (Hk1 f Hf) as [Hf1 S1]. destruct (Hk2 f Hf1) as [Hf2 S2].
      split; [done|]. intros k Hkk. by rewrite S2, S1.
    + right. left. split_and!; [done|done|]. intros w. by rewrite Ht2, Ht1.
Qed.

(** The machine after [vmclone], with free pages. *)
Definition cloned_vm : Vm := mkVm (init_physical_allocator (Some demo_map)) zeroed 4096 4096.

Lemma maptest_reads_back_witness :
  exists phys s',
    maptest_command KERNEL_SCRATCH_BASE (Console_new None) cloned_vm =
      (s', (KERNEL_SCRATCH_BASE + PAGE_SIZE, Some (maptest_report KERNEL_SCRATCH_BASE phys (Console_new None)))) /\
    translate s' 4096 KERNEL_SCRATCH_BASE = Some phys.
Proof.
  pose proof (maptest_reads_back cloned_vm 4096 KERNEL_SCRATCH_BASE (Console_new None) demo_vm_wf
    eq_refl eq_refl eq_refl) as H.
  destruct (maptest_command KERNEL_SCRATCH_BASE (Console_new None) cloned_vm) as [s' [next r]] eqn:E.
  assert (En : next = KERNEL_SCRATCH_BASE + PAGE_SIZE).
  { change next with (fst (snd (s', (next, r)))). rewrite <- E. vm_compute. reflexivity. }
  destruct H as [_ [(H1 & _)|[(_ & H2 & Ht)|(phys & _ & H2 & _ & H4 & _)]]].
  - rewrite H1 in En. vm_compute in En. discriminate.
  - exfalso. assert (Em : translate s' 4096 KERNEL_SCRATCH_BASE = Some 0x9000000).
    { change s' with (fst (s', (next, r))). rewrite <- E. vm_compute. reflexivity. }
    rewrite Ht in Em. vm_compute in Em. discriminate.
  - exists phys, s'. rewrite <- En, <- H2. split; [reflexivity|]. rewrite H4. reflexivity.
Defined.
