(* ===== verification/MachineStore.v ===== *)
(** * The kernel keeps the memory laws

    [MemoryLaws] of Machine.v, proved of the function table of KernelAbi.v and of loads
    and stores through the tables in CR3, for a process that runs in an address space of
    its own (AddrSpace.v) with its output on the console. Then the programs of
    Heapstress.v and Faultcheck.v do on the kernel what those files show. *)

From S2P Require Import Prelude Constants Text Device Console Phys Paging PagingThm Process Env Fd Abi AbiFs AbiProc.
From S2P Require Import MemWin MapRun UserMem Elf Spawn AddrSpace AtaDisk BootFs KernelAbi UserAbi System ScreenStore Machine.
From S2P Require Heapstress Faultcheck.

Section MachineStore.

Context {D : Type} `{SectorDev D} (clk : Clock).
Context (process_trampoline : Z) (others : ST (Sys D) unit) (fuel : nat) (roll : Roll) (width : Z).

#[local] Instance machine_table : RymosAbi (Sys D) := RYMOS_ABI clk process_trampoline others fuel.

Definition put_vm (v : Vm) (s : Sys D) : Sys D :=
  let k := sys_kern s in {| s with sys_kern := {| k with vm := v |} |}.

(** A trap leaves the program; what the kernel then does is Interrupt.v. *)
#[local] Instance kernel_machine : Machine (Sys D) := {
  read_volatile a s := (s, load_word a (vm (sys_kern s)));
  write_volatile a y s :=
    match store_word a y (vm (sys_kern s)) with (v, true) => (put_vm v s, Some tt) | (_, false) => (s, None) end;
  trap _ s := (s, None)
}.

Definition my_pid (s : Sys D) : Z := pid (cur_proc s).

(** The mapping window of the process that runs. *)
Definition in_my_window (s : Sys D) (a : Z) : Prop := mmap_window (my_pid s) <= a < mmap_window (my_pid s) + USER_MMAP_STRIDE.

#[local] Instance in_my_window_dec s a : Decision (in_my_window s a).
Proof. unfold in_my_window. apply _. Defined.

Definition window_word (s : Sys D) (a : Z) : option Z :=
  if decide (in_my_window s a /\ a mod 8 = 0) then
    option_map (fun f => vm_mem (vm (sys_kern s)) (f + a mod PAGE_SIZE)) (frame_of (sys_kern s) a)
  else None.

Definition window_absent (s : Sys D) (a : Z) : Prop := in_my_window s a /\ frame_of (sys_kern s) a = None.

Definition my_mapping (s : Sys D) (r n : Z) : Prop :=
  mkMapping true r n ∈ used_mappings (cur_proc s) /\ n <= USER_MMAP_MAX_PAGES_PER_CALL.

Record own_space (s : Sys D) : Prop := {
  os_memory : user_memory_ok (sys_kern s);
  os_sees : sees_windows (sys_kern s) (my_pid s) (vm_cr3 (vm (sys_kern s)))
}.

(** ** Addresses *)

Lemma my_windows s : own_space s -> windows_ok (cur_proc s) /\ 0 <= my_pid s < pid_limit.
Proof. intros [Hk _]. pose proof (cur_windows _ Hk) as W. split; [exact W|apply (wo_pid _ W)]. Qed.

Lemma my_window_eq s : own_space s -> mmap_window (my_pid s) = USER_MMAP_BASE + my_pid s * USER_MMAP_STRIDE.
Proof. intros Ho. destruct (my_windows s Ho) as [_ Hp]. by apply mmap_window_eq. Qed.

Lemma my_window_top s a : own_space s -> in_my_window s a -> pml4_index a ∈ window_tops (my_pid s).
Proof.
  intros Ho Ha. destruct (my_windows s Ho) as [_ Hp].
  assert (E : pml4_index a = pml4_index (mmap_window (my_pid s))).
  { unfold in_my_window in Ha. rewrite (my_window_eq s Ho) in *.
    unfold pml4_index. f_equal. rewrite !Z.shiftr_div_pow2 by lia. change (2 ^ 39) with 549755813888. win_const. zlia. }
  rewrite E. right. left.
Qed.

Lemma my_window_in s a : own_space s -> in_my_window s a -> in_windows a.
Proof.
  intros Ho Ha. destruct (my_windows s Ho) as [_ Hp]. unfold in_my_window in Ha. rewrite (my_window_eq s Ho) in Ha.
  right. win_const. lia.
Qed.

(** Through CR3 the window has the kernel's translation. *)
Lemma my_translate s a : own_space s -> in_my_window s a ->
  translate (vm (sys_kern s)) (vm_cr3 (vm (sys_kern s))) a = frame_of (sys_kern s) a.
Proof. intros Ho Ha. apply (seen_translate _ (my_pid s)); [apply Ho|by apply my_window_top]. Qed.

(** The page of an address. *)
Definition page_base (a : Z) : Z := a - a mod PAGE_SIZE.

Lemma page_base_spec s a : own_space s -> in_my_window s a ->
  page_aligned (page_base a) /\ in_my_window s (page_base a) /\ vpn (page_base a) = vpn a.
Proof.
  intros Ho Ha. pose proof (windows_high a (my_window_in s a Ho Ha)) as Hh. destruct (my_windows s Ho) as [_ Hp].
  assert (Hal : page_aligned (page_base a)) by (unfold page_aligned, page_base, PAGE_SIZE; zlia).
  assert (Hb : in_my_window s (page_base a)).
  { unfold in_my_window in *. rewrite (my_window_eq s Ho) in *. unfold page_base. win_const. zlia. }
  split_and!; [done|done|]. rewrite !vpn_high; [|done|apply windows_high, (my_window_in s _ Ho Hb)].
  unfold page_base, PAGE_SIZE. zlia.
Qed.

(** The frame behind a mapped address is a page of its own. *)
Lemma my_frame s a f : own_space s -> in_my_window s a -> frame_of (sys_kern s) a = Some f ->
  user_page (sys_kern s) (page_base a) /\ frame_of (sys_kern s) (page_base a) = Some f /\
  data_page (vm (sys_kern s)) (root_of (sys_kern s)) f.
Proof.
  intros Ho Ha E. destruct (page_base_spec s a Ho Ha) as (Hal & Hb & Ev).
  assert (Eb : frame_of (sys_kern s) (page_base a) = Some f) by (rewrite <- E; by apply translate_vpn).
  pose proof (os_memory _ Ho) as Hk.
  assert (Hu : user_page (sys_kern s) (page_base a)).
  { apply (mapped_user_page _ Hk _ f); [done|by apply (my_window_in s)|done]. }
  split_and!; [done|done|]. destruct (um_frames _ Hk _ Hu) as (g & Eg & D0). rewrite Eb in Eg. by injection Eg as <-.
Qed.

(** Two words of the window lie in the same place only if they are the same word. *)
Lemma my_word_inj s a b f g : own_space s -> in_my_window s a -> in_my_window s b ->
  frame_of (sys_kern s) a = Some f -> frame_of (sys_kern s) b = Some g ->
  f + a mod PAGE_SIZE = g + b mod PAGE_SIZE -> a = b.
Proof.
  intros Ho Ha Hb Ea Eb E. destruct (my_frame s a f Ho Ha Ea) as (Ua & Fa & [[Af _] _ _]).
  destruct (my_frame s b g Ho Hb Eb) as (Ub & Fb & [[Ag _] _ _]).
  assert (f = g) as -> by (unfold page_aligned, PAGE_SIZE in *; zlia).
  pose proof (um_distinct _ (os_memory _ Ho) _ _ g Ua Ub Fa Fb). unfold page_base in *. lia.
Qed.

(** ** The laws *)

Lemma window_word_some s a x : window_word s a = Some x ->
  in_my_window s a /\ a mod 8 = 0 /\ exists f, frame_of (sys_kern s) a = Some f /\ x = vm_mem (vm (sys_kern s)) (f + a mod PAGE_SIZE).
Proof.
  unfold window_word. case_decide as Hd; [|done]. destruct Hd as [Ha H8]. intros E. split_and!; [done|done|].
  destruct (frame_of (sys_kern s) a) as [f|]; [|done]. exists f. split; [done|]. by injection E as <-.
Qed.

Lemma window_word_at s a f : in_my_window s a -> a mod 8 = 0 -> frame_of (sys_kern s) a = Some f ->
  window_word s a = Some (vm_mem (vm (sys_kern s)) (f + a mod PAGE_SIZE)).
Proof. intros Ha H8 E. unfold window_word. rewrite decide_True by done. by rewrite E. Qed.

Lemma window_read s a x : own_space s -> window_word s a = Some x -> answers (read_volatile a) s x s.
Proof.
  intros Ho (Ha & _ & f & E & ->)%window_word_some. unfold answers, read_volatile, kernel_machine, load_word.
  by rewrite (my_translate s a Ho Ha), E.
Qed.

Lemma kernel_absent s a y : own_space s -> window_absent s a -> write_volatile a y s = (s, None).
Proof.
  intros Ho [Ha E]. unfold write_volatile, kernel_machine, store_word. by rewrite (my_translate s a Ho Ha), E.
Qed.

(** A store into the window. *)
Lemma stored_space s a f y :
  own_space s -> in_my_window s a -> frame_of (sys_kern s) a = Some f ->
  let v := vm (sys_kern s) in
  let s' := put_vm {| v with vm_mem := aset (vm_mem v) (f + a mod PAGE_SIZE) y |} s in
  own_space s' /\ forall w, frame_of (sys_kern s') w = frame_of (sys_kern s) w.
Proof.
  intros Ho Ha E v s'. destruct (my_frame s a f Ho Ha E) as (Hu & Eb & Df). pose proof Ho as [Hk Hs].
  destruct (page_write (root_of (sys_kern s)) v f (aset (vm_mem v) (f + a mod PAGE_SIZE) y) (um_tables _ Hk) Df) as [B S].
  { intros b Hb. apply aset_other. unfold PAGE_SIZE in *. pose proof (Z.mod_pos_bound a 4096 ltac:(lia)). lia. }
  assert (Ef : forall w, frame_of (sys_kern s') w = frame_of (sys_kern s) w) by (intros w; by apply beside_translate).
  split; [|done]. split.
  - apply kept_memory; [done|apply B|done| |apply B]. intros w. by apply beside_translate.
  - destruct Hs as [Sp So St]. split.
    + by apply (bs_data _ _ _ B).
    + intros w Hw. rewrite Ef. by apply So.
    + intros i Hi. destruct (St i Hi) as [Pi Ei]. destruct (window_tops_high _ i (proj2 (my_windows s Ho)) Hi) as [Vi _].
      assert (Er : entry_at (vm_mem (vm (sys_kern s'))) (root_of (sys_kern s)) i = entry_at (vm_mem v) (root_of (sys_kern s)) i).
      { apply (bs_entry _ _ _ B []); [split; [simpl; lia|by constructor]|done|done]. }
      assert (Hne : vm_cr3 v <> f) by (intros Ec; apply (So _ Hu); rewrite Eb; by rewrite <- Ec).
      change (root_of (sys_kern s')) with (root_of (sys_kern s)). rewrite Er. split; [done|].
      etransitivity; [exact (same_page_entry _ _ _ _ (S _ Sp Hne) Vi)|exact Ei].
Qed.

Lemma window_write s t a x y :
  own_space s -> on_screen roll width s t -> window_word s a = Some x ->
  exists s', answers (write_volatile a y) s tt s' /\ own_space s' /\ on_screen roll width s' t /\ my_pid s' = my_pid s /\
    (forall b, window_word s' b = if b =? a then Some y else window_word s b) /\
    (forall r n, my_mapping s r n -> my_mapping s' r n).
Proof.
  intros Ho Ht (Ha & H8 & f & E & _)%window_word_some. destruct (stored_space s a f y Ho Ha E) as [Ho' Ef].
  set (v := vm (sys_kern s)) in *. set (s' := put_vm _ s) in *. exists s'. split_and!; try done.
  - unfold answers, write_volatile, kernel_machine, store_word. by rewrite (my_translate s a Ho Ha), E.
  - intros b. unfold window_word. change (in_my_window s' b) with (in_my_window s b). rewrite Ef.
    destruct (Z.eqb_spec b a) as [->|Hne].
    + rewrite decide_True by done. rewrite E. cbn [option_map]. f_equal. apply aset_same.
    + destruct (decide (in_my_window s b /\ b mod 8 = 0)) as [[Hb _]|]; [|done]. destruct (frame_of (sys_kern s) b) as [g|] eqn:Eb; [|done].
      cbn [option_map]. f_equal. apply (aset_other (vm_mem v)). intros Ex. apply Hne. by apply (my_word_inj s b a g f).
Qed.

Lemma own_space_kern s s' : sys_kern s' = sys_kern s -> own_space s -> own_space s'.
Proof. intros E [H1 H2]. unfold my_pid, cur_proc in H2. split; unfold my_pid, cur_proc; rewrite E; done. Qed.

Lemma window_word_kern s s' b : sys_kern s' = sys_kern s -> window_word s' b = window_word s b.
Proof. intros E. destruct s, s'. cbn in E. by subst. Qed.

Lemma kernel_output s t data :
  own_space s -> on_screen roll width s t ->
  exists n s', answers (call_write_fd Consts.STDOUT data) s n s' /\ 0 <= n /\ own_space s' /\ on_screen roll width s' (t ++ data) /\
    my_pid s' = my_pid s /\ (forall b, window_word s' b = window_word s b) /\
    (forall b, window_absent s b -> window_absent s' b) /\ (forall r n, my_mapping s r n -> my_mapping s' r n).
Proof.
  intros Ho Ht. destruct (console_write clk roll width s t data Ht) as (s' & E & Ht' & Ek & _).
  exists (blen data), s'. split_and!.
  - unfold answers. cbn [call_write_fd machine_table RYMOS_ABI]. unfold always. change Consts.STDOUT with STDOUT_FD. by rewrite E.
  - apply blen_nonneg.
  - by apply (own_space_kern s).
  - done.
  - unfold my_pid, cur_proc. by rewrite Ek.
  - intros b. by apply window_word_kern.
  - intros b. unfold window_absent, in_my_window, my_pid, cur_proc. by rewrite Ek.
  - intros r n. unfold my_mapping, cur_proc. by rewrite Ek.
Qed.

(** A page of a run and the place in it. *)
Lemma run_address r n a : page_aligned r -> word_in r n a ->
  0 <= (a - r) / PAGE_SIZE < n /\ page_base a = page_of r ((a - r) / PAGE_SIZE).
Proof.
  unfold page_aligned, word_in, page_base, page_of, MEM_PAGE, PAGE_SIZE. intros Hr [Ha _]. split; [split|]; zlia.
Qed.

(** ** Calls *)

Section Mapping.

Context (s : Sys D) (Ho : own_space s) (c : MemCall) (Hc : 0 <= call_pages c).

Abbreviation k := (sys_kern s).
Abbreviation k' := (fst (mem_call c k)).
Abbreviation s' := {| s with sys_kern := k' |}.

Lemma after_proc : cur_proc s' = proc k' (CURRENT_PROCESS_INDEX k).
Proof using Ho Hc. unfold cur_proc. cbn [sys_kern]. by destruct (call_kept k (os_memory s Ho) c Hc) as (-> & _). Qed.

Lemma after_pid : my_pid s' = my_pid s.
Proof using Ho Hc. unfold my_pid. rewrite after_proc. by destruct (call_kept k (os_memory s Ho) c Hc) as (_ & -> & _). Qed.

Lemma after_space : own_space s'.
Proof using Ho Hc.
  pose proof (call_step k (os_memory s Ho) c Hc) as St. split; [apply St|]. rewrite after_pid. cbn [sys_kern].
  rewrite (ms_cr3 _ _ St). apply sees_step; [apply (my_windows s Ho)|apply Ho|done|apply Ho].
Qed.

Lemma after_screen t : on_screen roll width s t -> on_screen roll width s' t.
Proof using Ho Hc.
  intros (con & H1 & H2 & H3 & H4). exists con. split_and!; [done..|]. rewrite after_proc.
  by rewrite (call_std k (os_memory s Ho) c).
Qed.

(** A word whose page keeps frame and content stays. *)
Lemma after_word a x : (forall v, user_page k v -> keeps_user_page k k' v) -> window_word s a = Some x -> window_word s' a = Some x.
Proof using Ho Hc.
  intros Hkeep (Ha & H8 & f & E & ->)%window_word_some. destruct (my_frame s a f Ho Ha E) as (Hu & Eb & _).
  destruct (Hkeep _ Hu f Eb) as [Eb' S]. destruct (page_base_spec s a Ho Ha) as (_ & _ & Ev).
  assert (Ea : frame_of (sys_kern s') a = Some f) by (rewrite <- Eb'; by apply translate_vpn).
  rewrite (window_word_at s' a f); [|unfold in_my_window; by rewrite after_pid|done|done]. f_equal.
  cbn [sys_kern]. apply S. unfold PAGE_SIZE. apply Z.mod_pos_bound. lia.
Qed.

(** An address of the window has the frame of its page. *)
Lemma frame_of_base a : in_my_window s a -> frame_of k' a = frame_of k' (page_base a).
Proof using Ho. intros Ha. destruct (page_base_spec s a Ho Ha) as (_ & _ & Ev). by apply translate_vpn. Qed.

End Mapping.

Lemma map_pages_limit n flags k : snd (mem_map_pages n flags k) <> 0 -> n <= USER_MMAP_MAX_PAGES_PER_CALL.
Proof.
  unfold mem_map_pages. destruct (Z.ltb_spec USER_MMAP_MAX_PAGES_PER_CALL n); [|done]. by rewrite orb_true_r.
Qed.

(** What a successful mapping gives the program. *)
Lemma mapped_space s n flags t :
  own_space s -> on_screen roll width s t -> 0 <= n ->
  let '(k', r) := mem_map_pages n flags (sys_kern s) in
  let s' := {| s with sys_kern := k' |} in
  r = 0 \/
  (0 < r /\ r mod MEM_PAGE = 0 /\ r + n * MEM_PAGE < 2 ^ 64 /\ my_mapping s' r n /\
   (forall a, word_in r n a -> window_word s' a = Some 0) /\
   (forall a x, window_word s a = Some x -> window_word s' a = Some x) /\
   (Z.land flags Consts.MEM_MAP_GUARD <> 0 ->
    forall a, word_in (r - MEM_PAGE) 1 a \/ word_in (r + n * MEM_PAGE) 1 a -> window_absent s' a)).
Proof.
  intros Ho Ht Hn. pose proof (os_memory s Ho) as Hk.
  pose proof (map_effect _ Hk n flags Hn) as E. cbv zeta in E.
  pose proof (mem_map_post n flags _ (um_sized _ Hk) (um_cur _ Hk) (cur_windows _ Hk) Hn) as P.
  pose proof (guarded_fences _ Hk n flags Hn) as G. pose proof (map_pages_limit n flags (sys_kern s)) as Lim.
  pose proof (after_proc s Ho (MemMap n flags) Hn) as Ep. pose proof (after_pid s Ho (MemMap n flags) Hn) as Epid.
  pose proof (after_space s Ho (MemMap n flags) Hn) as Ho'.
  pose proof (after_word s Ho (MemMap n flags) Hn) as Ew. pose proof (frame_of_base s Ho (MemMap n flags)) as Eb.
  cbn [mem_call] in *. destruct (mem_map_pages n flags (sys_kern s)) as [k' r]. cbn [fst snd] in *.
  set (s' := {| s with sys_kern := k' |}) in *. destruct E as (_ & [[-> _]|[Er Hg]] & _ & Em); [by left|right].
  destruct Hg as (Hrun & Hb & _ & Hkeep). pose proof Hrun as (Hal & _ & Hlo & Hhi). specialize (Em ltac:(lia)).
  destruct P as (_ & _ & [[? _]|[_ Hu]]); [lia|].
  pose proof (my_windows s' Ho') as [W' Hp']. pose proof (my_windows s Ho) as [W Hp].
  assert (Hin : mmap_window (my_pid s) <= r - guard_pages flags * PAGE_SIZE /\
    r + n * PAGE_SIZE + guard_pages flags * PAGE_SIZE <= mmap_window (my_pid s) + USER_MMAP_SIZE).
  { split.
    - destruct W as [_ _ _ _ [Hx _] _ _ _]. unfold my_pid, cur_proc in *. lia.
    - rewrite <- Em. rewrite Ep in W'. destruct W' as [_ _ Hml _ [Hx _] _ _ _]. unfold my_pid in Epid. rewrite Ep in Epid.
      rewrite Epid in *. unfold my_pid. lia. }
  assert (Hg0 : 0 <= guard_pages flags) by (unfold guard_pages; by destruct (_ =? 0)).
  assert (Hmine : forall a, r - guard_pages flags * PAGE_SIZE <= a < r + n * PAGE_SIZE + guard_pages flags * PAGE_SIZE ->
    in_my_window s a).
  { intros a Ha. unfold in_my_window. win_const. lia. }
  split_and!.
  - lia.
  - exact Hal.
  - exact Hhi.
  - split; [rewrite Ep; rewrite Hu; by left|apply Lim; lia].
  - intros a Ha. destruct (run_address r n a Hal Ha) as [Hi Ea]. destruct (Hb _ Hi) as (_ & f & Ef & _ & Hz).
    assert (Hw : in_my_window s a) by (apply Hmine; destruct Ha; unfold MEM_PAGE, PAGE_SIZE in *; lia).
    assert (Efa : frame_of (sys_kern s') a = Some f) by (change (sys_kern s') with k'; rewrite (Eb a Hw), Ea; exact Ef).
    rewrite (window_word_at s' a f); [|unfold in_my_window; by rewrite Epid|by destruct Ha|done]. f_equal. apply Hz.
    unfold PAGE_SIZE. apply Z.mod_pos_bound. lia.
  - intros a x. by apply Ew.
  - intros Hfl a Ha. destruct (G Hfl ltac:(lia)) as (_ & (_ & _ & F1) & (_ & _ & F2)).
    assert (Hgp : guard_pages flags = 1) by (unfold guard_pages; by destruct (Z.eqb_spec (Z.land flags MEM_MAP_GUARD) 0)).
    rewrite Hgp in Hmine.
    assert (Hw : in_my_window s a).
    { apply Hmine. destruct Ha as [[Ha _]|[Ha _]]; unfold MEM_PAGE, PAGE_SIZE in *; lia. }
    split; [unfold in_my_window; by rewrite Epid|]. change (sys_kern s') with k'. rewrite (Eb a Hw).
    destruct Ha as [Ha|Ha]; (eapply run_address in Ha as [Hi ->]; [replace ((a - _) / PAGE_SIZE) with 0 by lia|]).
    + unfold page_of. rewrite Z.mul_0_l, Z.add_0_r. exact F1.
    + unfold page_aligned, MEM_PAGE, PAGE_SIZE in *. zlia.
    + unfold page_of. rewrite Z.mul_0_l, Z.add_0_r. exact F2.
    + unfold page_aligned, MEM_PAGE, PAGE_SIZE in *. zlia.
Qed.

Lemma kernel_map s t n flags :
  own_space s -> on_screen roll width s t -> 0 <= n ->
  exists r s', answers (call_mem_map_pages n flags) s r s' /\ own_space s' /\ on_screen roll width s' t /\ my_pid s' = my_pid s /\
    (r = 0 \/
     (0 < r /\ r mod MEM_PAGE = 0 /\ r + n * MEM_PAGE < 2 ^ 64 /\ my_mapping s' r n /\
      (forall a, word_in r n a -> window_word s' a = Some 0) /\
      (forall a x, window_word s a = Some x -> window_word s' a = Some x) /\
      (Z.land flags Consts.MEM_MAP_GUARD <> 0 ->
       forall a, word_in (r - MEM_PAGE) 1 a \/ word_in (r + n * MEM_PAGE) 1 a -> window_absent s' a))).
Proof.
  intros Ho Ht Hn. pose proof (mapped_space s n flags t Ho Ht Hn) as M.
  pose proof (after_pid s Ho (MemMap n flags) Hn) as Epid. pose proof (after_space s Ho (MemMap n flags) Hn) as Ho'.
  pose proof (after_screen s Ho (MemMap n flags) Hn t Ht) as Ht'.
  cbn [mem_call] in *. destruct (mem_map_pages n flags (sys_kern s)) as [k' r] eqn:E. cbn [fst] in *.
  exists r, {| s with sys_kern := k' |}. split_and!; try done.
  unfold answers. cbn [call_mem_map_pages machine_table RYMOS_ABI]. unfold always, abi_mem_map_pages, on_kern. by rewrite E.
Qed.

Lemma kernel_unmap s t r n :
  own_space s -> on_screen roll width s t -> my_mapping s r n ->
  exists s', answers (call_mem_unmap_pages r n) s 0 s' /\ own_space s' /\ on_screen roll width s' t /\ my_pid s' = my_pid s.
Proof.
  intros Ho Ht [Hm Hl]. pose proof (os_memory s Ho) as Hk. pose proof (unmap_succeeds _ Hk r n Hm Hl) as U.
  destruct (owner_window _ Hk _ _ (um_cur _ Hk) Hm) as [_ (Hn & _)]. cbn [m_pages] in Hn.
  assert (Hc : 0 <= call_pages (MemUnmap r n)) by (cbn [call_pages]; lia).
  pose proof (after_pid s Ho (MemUnmap r n) Hc) as Epid. pose proof (after_space s Ho (MemUnmap r n) Hc) as Ho'.
  pose proof (after_screen s Ho (MemUnmap r n) Hc t Ht) as Ht'.
  cbn [mem_call] in *. destruct (mem_unmap_pages r n (sys_kern s)) as [k' c] eqn:E. cbn [fst] in *. subst c.
  exists {| s with sys_kern := k' |}. split_and!; try done.
  unfold answers. cbn [call_mem_unmap_pages machine_table RYMOS_ABI]. unfold always, abi_mem_unmap_pages, on_kern. by rewrite E.
Qed.

Lemma kernel_alloc s t n :
  own_space s -> on_screen roll width s t -> 0 <= n ->
  exists r s', answers (call_mem_alloc_pages n) s r s' /\ own_space s' /\ on_screen roll width s' t /\ my_pid s' = my_pid s.
Proof.
  intros Ho Ht Hn. pose proof (after_pid s Ho (MemAlloc n) Hn) as Epid. pose proof (after_space s Ho (MemAlloc n) Hn) as Ho'.
  pose proof (after_screen s Ho (MemAlloc n) Hn t Ht) as Ht'.
  cbn [mem_call] in *. destruct (mem_alloc_pages n (sys_kern s)) as [k' r] eqn:E. cbn [fst] in *.
  exists r, {| s with sys_kern := k' |}. split_and!; try done.
  unfold answers. cbn [call_mem_alloc_pages machine_table RYMOS_ABI]. unfold always, abi_mem_alloc_pages, on_kern. by rewrite E.
Qed.

#[local] Program Instance kernel_memory : MemoryLaws (Sys D) :=
  { memory_good := own_space; shown := on_screen roll width; word := window_word; absent := window_absent;
    mapped := my_mapping; own_pid := my_pid }.
Next Obligation. intros. by apply window_read. Qed.
Next Obligation. intros s t a x y Ho Ht Hw. by apply (window_write s t a x y). Qed.
Next Obligation. intros. by apply kernel_absent. Qed.
Next Obligation. intros. by apply kernel_output. Qed.
Next Obligation.
  intros s Ho. unfold answers. cbn [call_pid machine_table RYMOS_ABI]. unfold reads, abi_pid, current_pid, process_pid.
  destruct (Nat.ltb_spec (CURRENT_PROCESS_INDEX (sys_kern s)) PROCESS_COUNT) as [|Hx]; [done|].
  pose proof (um_cur _ (os_memory s Ho)). lia.
Qed.
Next Obligation. intros s n. eexists. reflexivity. Qed.
Next Obligation. intros. by apply kernel_map. Qed.
Next Obligation. intros. by apply kernel_unmap. Qed.
Next Obligation. intros. by apply kernel_alloc. Qed.

(** ** Properties *)


(** C22: in its guard modes the fault program, run on the kernel, announces the guard
    page and touches it, and the touch does not return: there is no memory behind the
    address. It reaches its last line only when the kernel had no pages to map. *)
Theorem guard_touch_faults (s : Sys D) t mode :
  own_space s -> on_screen roll width s t ->
  answers (UserIo.args (replicate 32 0)) s mode s -> Faultcheck.guard_mode mode ->
  let after := bytes_eq mode (bs "guard-after") in
  let said := t ++ Faultcheck.announcement ++ Faultcheck.mode_line after in
  (exists s', answers Faultcheck.rymos_main s 1 s' /\
     on_screen roll width s' (said ++ (bs "faultcheck: mem_map_pages failed" ++ Faultcheck.nl) ++
       bs "faultcheck: FAIL -- execution continued past the deliberate fault" ++ Faultcheck.nl)) \/
  (exists a s', Faultcheck.rymos_main s = (s', None) /\ window_absent s' (Faultcheck.guard_of after a) /\
     on_screen roll width s' (said ++ Faultcheck.touching (Faultcheck.guard_of after a))).
Proof.
  intros Ho Ht Hm Hg. assert (R : running (my_pid s) t s) by by split.
  destruct (Faultcheck.faultcheck_faults (my_pid s) t s mode R Hm Hg) as ([code|] & s' & E & Q).
  - left. destruct Q as [-> R']. exists s'. split; [done|apply R'].
  - right. destruct Q as (a & Ha & R'). exists a, s'. split_and!; [done|done|apply R'].
Qed.

End MachineStore.

(** ** Witnesses *)

(** Entering a new address space. *)
Lemma entered_space (k : Kernel) top (s : Sys Ata) :
  user_memory_ok k -> sees_windows k (pid (proc k (CURRENT_PROCESS_INDEX k))) top ->
  own_space {| s with sys_kern := write_cr3 top k |}.
Proof.
  intros Hk Hs. assert (Ho : user_memory_ok (write_cr3 top k)).
  { apply kept_memory; [done|destruct (um_tables k Hk); by split|done|done|]. intros f [F1 F2 F3]. by split. }
  split; [exact Ho|]. destruct Hs as [[F1 F2 F3] S2 S3]. split; [by split|exact S2|exact S3].
Qed.

(** Process 3 in an address space of its own, with a cleared console. *)
Definition space_system : Sys Ata :=
  let r := lift_vm (create_process_address_space 3) space_kernel in
  let s := mkSys user_kernel fds_empty (BootFs_new 0 0 zeroed) (Some (clear (Console_new None))) [] ata_blank in
  {| s with sys_kern := write_cr3 (default 0 (snd r)) (fst r) |}.

Lemma space_system_own : own_space space_system.
Proof.
  unfold space_system. assert (Hp : 0 <= 3 < pid_limit) by (vm_compute; split; [discriminate|reflexivity]).
  pose proof (created_sees 3 space_kernel space_kernel_memory Hp) as C.
  assert (E : exists top, snd (lift_vm (create_process_address_space 3) space_kernel) = Some top) by (vm_compute; eexists; reflexivity).
  assert (Ep : pid (proc (fst (lift_vm (create_process_address_space 3) space_kernel))
    (CURRENT_PROCESS_INDEX (fst (lift_vm (create_process_address_space 3) space_kernel)))) = 3).
  { unfold lift_vm. destruct (create_process_address_space 3 (vm space_kernel)). reflexivity. }
  destruct E as [top E]. destruct (lift_vm (create_process_address_space 3) space_kernel) as [k' r]. cbn [fst snd] in *. subst r.
  destruct C as [Hk Hs]. apply entered_space; [exact Hk|]. by rewrite Ep.
Qed.

Lemma space_system_screen : on_screen [[]] 80 space_system [].
Proof.
  exists (clear (Console_new None)). split; [reflexivity|]. split; [reflexivity|]. split.
  - apply (console_shows_roll None []). discriminate.
  - unfold space_system, lift_vm. destruct (create_process_address_space 3 (vm space_kernel)). reflexivity.
Qed.


(** Without arguments the program touches the page before its mapping. *)
Lemma guard_touch_faults_witness :
  exists a s', @Faultcheck.rymos_main _ (RYMOS_ABI (mkClock 1 0 0) 0 (fun s => (s, tt)) 0) kernel_machine
      space_system = (s', None) /\
    window_absent s' (Faultcheck.guard_of false a).
Proof.
  assert (E : snd (@Faultcheck.rymos_main _ (RYMOS_ABI (mkClock 1 0 0) 0 (fun s => (s, tt)) 0) kernel_machine
    space_system) = None) by (vm_compute; reflexivity).
  destruct (guard_touch_faults (mkClock 1 0 0) 0 (fun s => (s, tt)) 0 [[]] 80 space_system [] [] space_system_own
    space_system_screen) as [(s' & A & _)|(a & s' & A & Ha & _)].
  - unfold answers, UserIo.args, call_bind, call_args. cbn [RYMOS_ABI call_args]. unfold reads, abi_args, space_system, lift_vm.
    destruct (create_process_address_space 3 (vm space_kernel)). reflexivity.
  - split; [reflexivity|split; reflexivity].
  - pose proof (eq_trans (eq_sym E) (f_equal snd A)) as X. discriminate X.
  - exists a, s'. split; [exact A|exact Ha].
Defined.
