(* ===== verification/CommandStore.v ===== *)
(** * What running a command leaves behind

    [run_command_output] of [src/runtime/rymos-user/src/lib.rs] over the function
    table of KernelAbi.v. The pipes it opens are closed again, the standard
    descriptors, the directory and the environment of the caller are as before, and
    the output it returns is what the child wrote to its standard descriptors. *)

From stdpp Require Import sets.
From S2P Require UserIo UserCmd Machine.
From S2P Require Import Prelude Constants Text Device AtaDisk BootFs Console Phys Paging PagingThm Process Sched Env Fd Abi AbiFs AbiProc.
From S2P Require Import Elf Spawn SpawnThm KernelAbi UserAbi UserCtx EnvStore.

(** ** Descriptor tables that a program cannot tell apart *)

Definition like_fd (a b : AppFd) : Prop := a = b \/ (fd_open a = false /\ fd_open b = false).
Definition like_pipe (a b : AppPipe) : Prop := a = b \/ (pipe_used a = false /\ pipe_used b = false).

(** Closed descriptors and unused pipes do not count. *)
Record like_fds (t t' : Fds) : Prop := {
  lk_fd i : like_fd (fd_at t i) (fd_at t' i);
  lk_pipe q : like_pipe (pipe_at t q) (pipe_at t' q)
}.

Lemma like_fd_open a b : like_fd a b -> fd_open a = fd_open b.
Proof. intros [->|[-> ->]]; done. Qed.

Lemma like_pipe_used a b : like_pipe a b -> pipe_used a = pipe_used b.
Proof. intros [->|[-> ->]]; done. Qed.

#[export] Instance like_fds_equiv : Equivalence like_fds.
Proof.
  split.
  - intros t. split; by left.
  - intros t t' [F P]. split; intros i; [destruct (F i) as [->|[]]|destruct (P i) as [->|[]]]; unfold like_fd, like_pipe; auto.
  - intros t1 t2 t3 [F P] [F' P']. split; intros i.
    + destruct (F i) as [->|[H1 H2]]; [done|]. right. split; [done|]. by rewrite <- (like_fd_open _ _ (F' i)).
    + destruct (P i) as [->|[H1 H2]]; [done|]. right. split; [done|]. by rewrite <- (like_pipe_used _ _ (P' i)).
Qed.

(** ** A stack of pipes *)

(** A pipe the command opened: its two descriptor slots and its number. *)
Record OpenPipe : Type := mkOpenPipe { op_r : nat; op_w : nat; op_q : nat }.

Definition slots (l : list OpenPipe) : list nat := concat (map (fun o => [op_r o; op_w o]) l).
Definition pipes (l : list OpenPipe) : list nat := map op_q l.

(** The numbers the program holds. *)
Definition fd_of (i : nat) : Z := Z.of_nat i + APP_FD_BASE.
Definition fds_of (l : list OpenPipe) : list Z := map fd_of (slots l).

Definition read_handle (q : nat) : AppFd := mkFd true FdPipeRead FD_READ [] 0 0 q.
Definition write_handle (q : nat) : AppFd := mkFd true FdPipeWrite FD_WRITE [] 0 0 q.

Record pipe_up (t : Fds) (o : OpenPipe) : Prop := {
  pu_slots : (op_r o < APP_FD_COUNT)%nat /\ (op_w o < APP_FD_COUNT)%nat /\ op_r o <> op_w o;
  pu_pipe : (op_q o < APP_PIPE_COUNT)%nat;
  pu_read : fd_at t (op_r o) = read_handle (op_q o);
  pu_write : fd_at t (op_w o) = write_handle (op_q o);
  pu_used : pipe_used (pipe_at t (op_q o)) = true /\ read_open (pipe_at t (op_q o)) = true /\
    write_open (pipe_at t (op_q o)) = true;
  pu_wf : pipe_wf (pipe_at t (op_q o))
}.

(** [t] is [t0] with the pipes of [l] open besides. *)
Record stacked (t0 t : Fds) (l : list OpenPipe) : Prop := {
  sk_wf : fds_wf t;
  sk_up : Forall (pipe_up t) l;
  sk_fd i : i ∉ slots l -> like_fd (fd_at t0 i) (fd_at t i);
  sk_closed i : i ∈ slots l -> fd_open (fd_at t0 i) = false;
  sk_pipe q : q ∉ pipes l -> like_pipe (pipe_at t0 q) (pipe_at t q);
  sk_unused q : q ∈ pipes l -> pipe_used (pipe_at t0 q) = false;
  sk_slots : NoDup (slots l);
  sk_pipes : NoDup (pipes l)
}.

Lemma stacked_none t : fds_wf t -> stacked t t [].
Proof. intros Hwf. split; try done; try (intros; by left); try (intros ? H; by apply elem_of_nil in H); constructor. Qed.

Lemma stacked_like t0 t : stacked t0 t [] -> like_fds t0 t.
Proof. intros H. split; intros i; [apply (sk_fd _ _ _ H)|apply (sk_pipe _ _ _ H)]; apply not_elem_of_nil. Qed.

(** What is open below stays open. *)
Lemma stacked_open t0 t l fd : stacked t0 t l -> app_fd_open t0 fd = true -> app_fd_open t fd = true.
Proof.
  intros H. unfold app_fd_open. destruct (is_std_fd fd); [done|]. destruct (app_fd_index fd) as [i|]; [|done].
  intros Ho. destruct (decide (i ∈ slots l)) as [Hi|Hi]; [by rewrite (sk_closed _ _ _ H i Hi) in Ho|].
  by rewrite <- (like_fd_open _ _ (sk_fd _ _ _ H i Hi)).
Qed.

Lemma slots_app l l' : slots (l ++ l') = slots l ++ slots l'.
Proof. unfold slots. by rewrite map_app, concat_app. Qed.

Lemma in_slots_of o l : o ∈ l -> op_r o ∈ slots l /\ op_w o ∈ slots l.
Proof.
  induction 1 as [o l|o x l _ IH]; unfold slots in *; simpl; rewrite !elem_of_cons; [auto|].
  destruct IH as [H1 H2]. auto.
Qed.

Lemma slot_open t0 t l i : stacked t0 t l -> i ∈ slots l -> fd_open (fd_at t i) = true.
Proof.
  intros H Hi. unfold slots in Hi. apply list_elem_of_In, in_concat in Hi as (x & Hx & Hi).
  apply in_map_iff in Hx as (o & <- & Ho). apply list_elem_of_In in Ho, Hi.
  pose proof (proj1 (Forall_forall _ _) (sk_up _ _ _ H) o Ho) as U. rewrite !elem_of_cons, elem_of_nil in Hi.
  destruct Hi as [->|[->|[]]]; [rewrite (pu_read _ _ U)|rewrite (pu_write _ _ U)]; done.
Qed.

Lemma pipe_taken t0 t l q : stacked t0 t l -> q ∈ pipes l -> pipe_used (pipe_at t q) = true.
Proof.
  intros H Hq. unfold pipes in Hq. apply list_elem_of_In, in_map_iff in Hq as (o & <- & Ho). apply list_elem_of_In in Ho.
  apply (pu_used _ _ (proj1 (Forall_forall _ _) (sk_up _ _ _ H) o Ho)).
Qed.

(** One more pipe on the stack. *)
Lemma stacked_pipe t0 t l :
  stacked t0 t l ->
  match pipe_open t with
  | (t', inl e) => t' = t /\ e = ERR_NOSPC
  | (t', inr fds) => exists o, fds = (fd_of (op_r o), fd_of (op_w o)) /\ stacked t0 t' (l ++ [o]) /\
      queue (pipe_at t' (op_q o)) = [] /\ forall p, p ∈ l -> pipe_at t' (op_q p) = pipe_at t (op_q p)
  end.
Proof.
  intros H. destruct (pipe_open_cases t) as [->|(q & i & j & -> & Hq & Hu & Hi & Hj & Hij & Fi & Fj)]; [done|].
  pose proof (sk_wf _ _ _ H) as Hwf. exists (mkOpenPipe i j q). split; [done|].
  assert (Hfd : forall k, fd_at (piped t q i j) k = if decide (k = j) then write_handle q else if decide (k = i)
    then read_handle q else fd_at t k) by (intros k; by apply piped_fd).
  assert (Hpp : forall k, pipe_at (piped t q i j) k = if decide (k = q) then fresh_pipe else pipe_at t k)
    by (intros k; by apply piped_pipe).
  assert (Hup : Forall (pipe_up t) l) by apply H. rewrite Forall_forall in Hup.
  assert (Ni : i ∉ slots l /\ j ∉ slots l) by (split; intros Hk; apply (slot_open _ _ _ _ H) in Hk; congruence).
  assert (Nq : q ∉ pipes l) by (intros Hk; apply (pipe_taken _ _ _ _ H) in Hk; congruence).
  assert (Hold : forall p, p ∈ l -> pipe_at (piped t q i j) (op_q p) = pipe_at t (op_q p)).
  { intros p Hp. rewrite Hpp, decide_False; [done|]. intros <-. apply Nq. by apply list_elem_of_fmap_2. }
  split; [|split; [cbn [op_q]; by rewrite Hpp, decide_True|exact Hold]]. split.
  - by apply piped_wf.
  - apply Forall_app. split; [|constructor; [|constructor]].
    + apply Forall_forall. intros o Ho. pose proof (Hup o Ho) as [U1 U2 U3 U4 U5 U6].
      destruct (in_slots_of o l Ho) as [S1 S2]. pose proof (Hold o Ho) as Eo.
      split; rewrite ?Eo; try done; rewrite Hfd, !decide_False; try done; intros Ex;
        (rewrite Ex in S1 || rewrite Ex in S2); tauto.
    + split; cbn [op_r op_w op_q]; rewrite ?Hfd, ?Hpp; try done.
      * split_and!; [done|done|lia].
      * rewrite decide_False, decide_True by lia. done.
      * by rewrite decide_True.
      * by rewrite decide_True.
      * rewrite decide_True by done. apply fresh_pipe_wf.
  - intros k. rewrite slots_app. cbn. intros Hk. rewrite Hfd, !decide_False.
    + apply (sk_fd _ _ _ H). set_solver.
    + set_solver.
    + set_solver.
  - intros k. rewrite slots_app, elem_of_app. cbn. intros [Hk|Hk]; [by apply (sk_closed _ _ _ H)|].
    rewrite !elem_of_cons, elem_of_nil in Hk. destruct Ni as [N1 N2].
    destruct Hk as [->|[->|[]]]; [rewrite (like_fd_open _ _ (sk_fd _ _ _ H _ N1))|rewrite (like_fd_open _ _ (sk_fd _ _ _ H _ N2))]; done.
  - intros k. unfold pipes. rewrite map_app. cbn. intros Hk. rewrite Hpp, decide_False; [apply (sk_pipe _ _ _ H)|]; set_solver.
  - intros k. unfold pipes. rewrite map_app, elem_of_app. cbn. intros [Hk|Hk]; [by apply (sk_unused _ _ _ H)|].
    apply list_elem_of_singleton in Hk as ->. by rewrite (like_pipe_used _ _ (sk_pipe _ _ _ H _ Nq)).
  - rewrite slots_app. apply NoDup_app. split_and!; [apply H|cbn; set_solver|].
    cbn. repeat constructor; rewrite ?elem_of_cons, ?elem_of_nil; naive_solver lia.
  - unfold pipes. rewrite map_app. apply NoDup_app. split_and!; [apply H|cbn; set_solver|cbn; apply NoDup_singleton].
Qed.

Lemma fd_of_index i : (i < APP_FD_COUNT)%nat -> app_fd_index (fd_of i) = Some i.
Proof.
  intros Hi. unfold app_fd_index, fd_of, APP_FD_BASE. destruct (Z.ltb_spec (Z.of_nat i + 3) 3); [lia|].
  replace (Z.to_nat (Z.of_nat i + 3 - 3)) with i by lia. destruct (Nat.ltb_spec i APP_FD_COUNT); [done|lia].
Qed.

Lemma fd_of_not_std i : is_std_fd (fd_of i) = false.
Proof. apply andb_false_iff. right. apply Z.leb_gt. unfold fd_of, STDERR_FD, APP_FD_BASE. lia. Qed.

Lemma not_in_pipes q l : q ∉ pipes l -> forall o, o ∈ l -> op_q o <> q.
Proof. intros Hn o Ho <-. apply Hn. by apply (list_elem_of_fmap_2 op_q). Qed.

(** Both descriptors of the first pipe closed. *)
Lemma stacked_close t0 t o l :
  stacked t0 t (o :: l) ->
  exists t1 t2, fd_close (fd_of (op_r o)) t = (t1, 0) /\ fd_close (fd_of (op_w o)) t1 = (t2, 0) /\
    stacked t0 t2 l /\ forall p, p ∈ l -> pipe_at t2 (op_q p) = pipe_at t (op_q p).
Proof.
  intros [Hwf Hup Hfd Hcl Hpi Hun Hns Hnp]. apply Forall_cons in Hup as [[(Hr & Hw & Hne) Hq Er Ew (U1 & U2 & U3) Upw] Hup].
  set (i := op_r o) in *. set (j := op_w o) in *. set (q := op_q o) in *.
  set (p1 := let p := pipe_at t q in {| p with read_open := false |}).
  set (t1 := set_fd i AppFd_empty (set_pipe q p1 t)).
  assert (E1 : fd_close (fd_of i) t = (t1, 0)).
  { unfold fd_close. rewrite fd_of_index by done. cbv zeta. rewrite Er. cbn [negb fd_open read_handle].
    unfold close_pipe_end. cbn [read_handle fd_kind pfs_index]. unfold t1, p1. by rewrite !U3. }
  destruct (fd_close_wf _ _ _ _ Hwf E1) as [W1 _].
  assert (F1 : forall k, fd_at t1 k = if decide (k = i) then AppFd_empty else fd_at t k).
  { intros k. exact (fd_at_set (set_pipe q p1 t) i AppFd_empty k (fw_fds _ Hwf) Hr). }
  assert (P1 : forall k, pipe_at t1 k = if decide (k = q) then p1 else pipe_at t k).
  { intros k. apply (pipe_at_set t q p1 k); [exact (fw_pipes _ Hwf)|done]. }
  set (t2 := set_fd j AppFd_empty (set_pipe q AppPipe_empty t1)).
  assert (E2 : fd_close (fd_of j) t1 = (t2, 0)).
  { unfold fd_close. rewrite fd_of_index by done. cbv zeta. rewrite F1, decide_False, Ew by done. cbn [negb fd_open write_handle].
    unfold close_pipe_end. cbn [write_handle fd_kind pfs_index]. by rewrite P1, decide_True. }
  destruct (fd_close_wf _ _ _ _ W1 E2) as [W2 _].
  assert (F2 : forall k, fd_at t2 k = if decide (k = j) then AppFd_empty else if decide (k = i) then AppFd_empty else fd_at t k).
  { intros k. rewrite <- F1. exact (fd_at_set (set_pipe q AppPipe_empty t1) j AppFd_empty k (fw_fds _ W1) Hw). }
  assert (P2 : forall k, pipe_at t2 k = if decide (k = q) then AppPipe_empty else pipe_at t k).
  { intros k. etrans; [apply (pipe_at_set t1 q AppPipe_empty k); [exact (fw_pipes _ W1)|done]|]. case_decide; [done|]. by rewrite P1, decide_False. }
  change (slots (o :: l)) with (i :: j :: slots l) in *. change (pipes (o :: l)) with (q :: pipes l) in *.
  apply NoDup_cons in Hns as [Ni Hns]. apply NoDup_cons in Hns as [Nj Hns]. apply NoDup_cons in Hnp as [Nq Hnp].
  rewrite elem_of_cons in Ni.
  assert (Hold : forall p, p ∈ l -> pipe_at t2 (op_q p) = pipe_at t (op_q p)).
  { intros p Hp. rewrite P2, decide_False; [done|]. by apply (not_in_pipes q l). }
  exists t1, t2. split_and!; [done|done| |done]. split.
  - done.
  - rewrite Forall_forall in Hup |- *. intros p Hp. destruct (Hup p Hp) as [V1 V2 V3 V4 V5 V6].
    destruct (in_slots_of p l Hp) as [S1 S2]. pose proof (Hold p Hp) as Eo.
    split; rewrite ?Eo; try done; rewrite F2, !decide_False; try done; intros Ex; rewrite Ex in *; tauto.
  - intros k Hk. rewrite F2. repeat case_decide; [right|right|apply Hfd; set_solver];
      subst k; (split; [apply Hcl; set_solver|done]).
  - intros k Hk. apply Hcl. set_solver.
  - intros k Hk. rewrite P2. case_decide; [right; subst k; split; [apply Hun; set_solver|done]|apply Hpi; set_solver].
  - intros k Hk. apply Hun. set_solver.
  - done.
  - done.
Qed.

(** The queue of one pipe of the stack changed. *)
Lemma stacked_queue t0 t l o p :
  stacked t0 t l -> o ∈ l -> pipe_wf p -> pipe_used p = true -> read_open p = true -> write_open p = true ->
  let t' := set_pipe (op_q o) p t in
  stacked t0 t' l /\ pipe_at t' (op_q o) = p /\ forall o', o' ∈ l -> op_q o' <> op_q o -> pipe_at t' (op_q o') = pipe_at t (op_q o').
Proof.
  intros [Hwf Hup Hfd Hcl Hpi Hun Hns Hnp] Ho Hp H1 H2 H3 t'.
  pose proof (proj1 (Forall_forall _ _) Hup o Ho) as [_ Hq _ _ (U1 & U2 & U3) _].
  assert (P : forall k, pipe_at t' k = if decide (k = op_q o) then p else pipe_at t k).
  { intros k. apply pipe_at_set; [exact (fw_pipes _ Hwf)|done]. }
  split; [|split; [by rewrite P, decide_True|intros o' _ Hne; by rewrite P, decide_False]]. split; try done.
  - apply set_queue_wf; try done; congruence.
  - eapply Forall_impl; [exact Hup|]. intros x [V1 V2 V3 V4 V5 V6]. split; try done; rewrite P; by case_decide.
  - intros k Hk. rewrite P, decide_False; [by apply Hpi|]. intros ->. apply Hk. by apply (list_elem_of_fmap_2 op_q).
Qed.

(** ** Finding a process by its pid *)

(** Process [c] is the only one with pid [p]. *)
Definition only_pid (k : Kernel) (p : Z) (c : nat) : Prop :=
  (c < PROCESS_COUNT)%nat /\ pid (proc k c) = p /\ forall j, pid (proc k j) = p -> j = c.

Lemma only_found k p c : only_pid k p c -> state (proc k c) <> Empty -> find_process_index_by_pid p k = Some c.
Proof.
  intros (Hc & Hp & Hu) Hs. unfold find_process_index_by_pid. destruct (find_first _ PROCESS_COUNT) as [j|] eqn:E.
  - apply find_first_slot in E as [_ [Hj%Z.eqb_eq _]%andb_true_iff]. f_equal. by apply Hu.
  - pose proof (find_first_none_slot _ c E Hc) as Hn. cbv beta in Hn. rewrite Hp, Z.eqb_refl in Hn.
    apply negb_false_iff, is_state_true in Hn. done.
Qed.

Lemma only_live k p c : table_sized k -> only_pid k p c -> is_zombie (proc k c) = false -> process_wait_by_pid p k = (k, None).
Proof.
  intros Hk (_ & _ & Hu) Hz. pose proof (wait_by_pid_spec k p Hk) as W. destruct (process_wait_by_pid p k) as [k' [st|]].
  - destruct W as (j & (_ & Hj & _ & Hs) & _). apply Hu in Hj as ->. apply is_zombie_true in Hs. congruence.
  - by destruct W as [-> _].
Qed.

Lemma only_zombie k p c :
  table_sized k -> only_pid k p c -> waited (proc k c) = false -> is_zombie (proc k c) = true ->
  process_wait_by_pid p k = (set_waited c k, Some (status_of (proc k c))).
Proof.
  intros Hk (Hc & Hp & Hu) Hw Hz%is_zombie_true. pose proof (wait_by_pid_spec k p Hk) as W.
  destruct (process_wait_by_pid p k) as [k' [st|]].
  - destruct W as (j & (_ & Hj & _) & -> & ->). by apply Hu in Hj as ->.
  - destruct W as [_ W]. by destruct (W c).
Qed.

(** ** The caller while the command runs *)

Section CommandStore.

Context {D : Type} `{SectorDev D} (clk : Clock).
Context (process_trampoline : Z) (others : ST (Sys D) unit) (fuel : nat).

#[local] Instance command_table : RymosAbi (Sys D) := RYMOS_ABI clk process_trampoline others fuel.

(** The caller of [s0] goes on with standard descriptors [std] and environment [e],
    over the tables [t]. *)
Record now (s0 : Sys D) (std : list Z) (e : list AppEnvVar) (t : Fds) (s : Sys D) : Prop := {
  nw_cur : CURRENT_PROCESS_INDEX (sys_kern s) = CURRENT_PROCESS_INDEX (sys_kern s0);
  nw_slot : (CURRENT_PROCESS_INDEX (sys_kern s0) < PROCESS_COUNT)%nat;
  nw_sized : table_sized (sys_kern s);
  nw_proc : exists error, cur_proc s = let p := cur_proc s0 in {| p with std_fds := std; env := e; last_error := error |};
  nw_fds : sys_fds s = t
}.

(** Of the whole system only the caller's own record and the descriptor and pipe tables
    have changed. *)
Definition untouched (s0 s : Sys D) : Prop := exists t p,
  s = {| s0 with sys_fds := t; sys_kern := update_proc (CURRENT_PROCESS_INDEX (sys_kern s0)) (fun _ => p) (sys_kern s0) |}.

Lemma update_proc_same k i : update_proc i (fun _ => proc k i) k = k.
Proof.
  destruct k as [l]. unfold update_proc, proc. cbn [PROCESS_TABLE]. f_equal. apply list_eq. intros j.
  destruct (decide (j = i)) as [->|Hj]; [|by rewrite list_lookup_alter_ne].
  rewrite list_lookup_alter, decide_True by done. by destruct (l !! i).
Qed.

Lemma untouched_refl s : untouched s s.
Proof.
  exists (sys_fds s), (cur_proc s). unfold cur_proc. rewrite update_proc_same. by destruct s.
Qed.

Lemma untouched_cur s0 s f : untouched s0 s -> untouched s0 (update_cur f s).
Proof.
  intros (t & p & ->). exists t, (f p). unfold update_cur, update_proc. cbn. by rewrite list_alter_alter_eq.
Qed.

Lemma untouched_next s0 s : untouched s0 s -> NEXT_PID (sys_kern s) = NEXT_PID (sys_kern s0).
Proof. by intros (t & p & ->). Qed.

Lemma untouched_others s0 s j :
  untouched s0 s -> j <> CURRENT_PROCESS_INDEX (sys_kern s0) -> proc (sys_kern s) j = proc (sys_kern s0) j.
Proof. intros (t & p & ->) Hj. unfold proc, update_proc. cbn. by rewrite list_lookup_alter_ne. Qed.

Lemma now_std s0 std e t s : now s0 std e t s -> std_fds (cur_proc s) = std.
Proof. intros H'. destruct (nw_proc _ _ _ _ _ H') as [x E]. by rewrite E. Qed.

Lemma now_env s0 std e t s : now s0 std e t s -> env (cur_proc s) = e.
Proof. intros H'. destruct (nw_proc _ _ _ _ _ H') as [x E]. by rewrite E. Qed.

Lemma now_good s0 std e t s : now s0 std e t s -> overlay_ok e -> is_env_good s.
Proof.
  intros H' He. split; [|by rewrite (now_env _ _ _ _ _ H')].
  rewrite (nw_cur _ _ _ _ _ H'). pose proof (nw_slot _ _ _ _ _ H'). pose proof (nw_sized _ _ _ _ _ H') as Hs.
  unfold table_sized in Hs. lia.
Qed.

Lemma now_self s : table_sized (sys_kern s) -> (CURRENT_PROCESS_INDEX (sys_kern s) < PROCESS_COUNT)%nat ->
  now s (std_fds (cur_proc s)) (env (cur_proc s)) (sys_fds s) s.
Proof. intros Hs Hc. split; try done. exists (last_error (cur_proc s)). by destruct (cur_proc s). Qed.

(** A change of the caller's own record. *)
Lemma now_update s0 std e t s f std' e' :
  now s0 std e t s ->
  (forall p, exists error, f {| p with std_fds := std; env := e |} = {| p with std_fds := std'; env := e'; last_error := error |}) ->
  now s0 std' e' t (update_cur f s) /\ (untouched s0 s -> untouched s0 (update_cur f s)).
Proof.
  intros [H1 H2 H3 [x H4] H5] Hf.
  assert (Hp : forall j, proc (sys_kern (update_cur f s)) j =
    if decide (j = CURRENT_PROCESS_INDEX (sys_kern s0)) then f (cur_proc s) else proc (sys_kern s) j).
  { intros j. unfold update_cur, cur_proc. cbn [sys_kern]. rewrite H1. apply proc_update; [done|lia]. }
  split.
  - split; [exact H1|exact H2|by apply update_sized| |exact H5].
    destruct (Hf (let p := cur_proc s0 in {| p with last_error := x |})) as [y Hy]. exists y.
    unfold cur_proc at 1. rewrite Hp. unfold update_cur. cbn [sys_kern update_proc CURRENT_PROCESS_INDEX].
    rewrite decide_True by done. rewrite H4. etrans; [|exact Hy]. done.
  - by apply untouched_cur.
Qed.

Lemma now_error s0 std e t s x :
  now s0 std e t s ->
  now s0 std e t (update_cur (fun p => {| p with last_error := x |}) s) /\
  (untouched s0 s -> untouched s0 (update_cur (fun p => {| p with last_error := x |}) s)).
Proof. intros H'. apply (now_update s0 std e t s _ std e H'). intros p. by exists x. Qed.

Lemma now_last_error s0 std e t s x :
  now s0 std e t s -> abi_last_error (update_cur (fun p => {| p with last_error := x |}) s) = x.
Proof.
  intros [H1 H2 H3 _ _]. unfold abi_last_error, cur_proc, update_cur. cbn [sys_kern].
  change (CURRENT_PROCESS_INDEX (update_proc _ _ _)) with (CURRENT_PROCESS_INDEX (sys_kern s)).
  rewrite proc_update by (done || lia). by rewrite decide_True.
Qed.

Lemma now_set_std s0 std e t s which v :
  now s0 std e t s ->
  now s0 (<[Z.to_nat which := v]> std) e t (fst (set_std_fd which v s)) /\ (untouched s0 s -> untouched s0 (fst (set_std_fd which v s))).
Proof. intros H'. apply (now_update s0 std e t s _ _ e H'). intros p. by eexists. Qed.

Lemma now_tables s0 std e t s t' :
  now s0 std e t s ->
  now s0 std e t' {| s with sys_fds := t' |} /\ (untouched s0 s -> untouched s0 {| s with sys_fds := t' |}).
Proof. intros [H1 H2 H3 H4 H5]. split; [by split|]. intros (u & p & ->). by exists t', p. Qed.

(** ** Calls on the environment *)

(** [m] changes at most the caller's environment and error number. *)
Definition env_call {A} (m : Call (Sys D) A) : Prop := forall s0 std e t s a s',
  now s0 std e t s -> answers m s a s' ->
  exists e', now s0 std e' t s' /\ (untouched s0 s -> untouched s0 s').

Lemma env_call_ret {A} (a : A) : env_call (call_ret a).
Proof. intros s0 std e t s b s' H' [= <- _]. by exists e. Qed.

Lemma env_call_bind {A B} (m : Call (Sys D) A) (k : A -> Call (Sys D) B) :
  env_call m -> (forall a, env_call (k a)) -> env_call (call_bind m k).
Proof.
  intros Hm Hk s0 std e t s b s2 H' (a & s1 & A1 & A2)%answers_bind.
  destruct (Hm _ _ _ _ _ _ _ H' A1) as (e1 & N1 & U1). destruct (Hk a _ _ _ _ _ _ _ N1 A2) as (e2 & N2 & U2).
  exists e2. auto.
Qed.

Lemma env_call_reads {A} (f : Sys D -> A) : env_call (reads f).
Proof. intros s0 std e t s a s' H' [= <- _]. by exists e. Qed.

(** A handler that is a sequence of changes to the environment and the error number. *)
Definition env_handler {A} (m : ST (Sys D) A) : Prop := forall s0 std e t s,
  now s0 std e t s -> exists e', now s0 std e' t (fst (m s)) /\ (untouched s0 s -> untouched s0 (fst (m s))).

Lemma env_call_always {A} (m : ST (Sys D) A) : env_handler m -> env_call (always m).
Proof.
  intros Hm s0 std e t s a s' H' Ha. destruct (Hm s0 std e t s H') as (e' & N & U). unfold answers, always in Ha.
  destruct (m s) as [s1 b]. injection Ha as -> ->. by exists e'.
Qed.

Lemma env_handler_bind {A B} (m : ST (Sys D) A) (k : A -> ST (Sys D) B) :
  env_handler m -> (forall a, env_handler (k a)) -> env_handler (st_bind m k).
Proof.
  intros Hm Hk s0 std e t s H'. destruct (Hm s0 std e t s H') as (e1 & N1 & U1). unfold st_bind.
  destruct (m s) as [s1 a]. cbn [fst] in *. destruct (Hk a s0 std e1 t s1 N1) as (e2 & N2 & U2). exists e2. auto.
Qed.

Lemma env_handler_ret {A} (a : A) : env_handler (st_ret a).
Proof. intros s0 std e t s H'. by exists e. Qed.

Lemma env_handler_get {A} (f : Sys D -> A) : env_handler (get f).
Proof. intros s0 std e t s H'. by exists e. Qed.

Lemma env_handler_error x : env_handler (set_app_error x).
Proof. intros s0 std e t s H'. exists e. by apply now_error. Qed.

Lemma env_handler_clear : env_handler clear_app_error.
Proof. intros s0 std e t s H'. exists e. by apply now_error. Qed.

Lemma env_handler_overlay key value deleted : env_handler (set_overlay key value deleted).
Proof.
  intros s0 std e t s H'. unfold set_overlay. destruct (env_set_overlay key value deleted (env (cur_proc s))) as [x|e'].
  - exists e. by apply now_error.
  - exists e'. unfold ok_code, st_bind, clear_app_error, st_ret. cbn [fst].
    destruct (now_update s0 std e t s (fun p => {| p with env := e' |}) std e' H') as [N1 U1].
    { intros p. by exists (last_error p). }
    destruct (now_error s0 std e' t _ ERR_OK N1) as [N2 U2]. split; [exact N2|]. intros U. by apply U2, U1.
Qed.

Ltac env_step :=
  repeat first
    [ apply env_call_ret | apply env_call_reads | apply env_call_always | apply env_handler_ret | apply env_handler_get
    | apply env_handler_error | apply env_handler_clear | apply env_handler_overlay
    | apply env_call_bind; [|intros ?] | apply env_handler_bind; [|intros ?] | case_match ].

Lemma env_call_get key n : env_call (call_env_get key n).
Proof. simpl. unfold abi_env_get. env_step. Qed.

Lemma env_call_set key value : env_call (call_env_set key value).
Proof. simpl. unfold abi_env_set. env_step. Qed.

Lemma env_call_remove key : env_call (call_env_remove key).
Proof. simpl. unfold abi_env_remove. env_step. Qed.

Create HintDb command_env.
#[local] Hint Resolve env_call_ret env_call_bind env_call_get env_call_set env_call_remove : command_env.

Lemma env_call_restore_one r : env_call (UserCmd.restore_one r).
Proof. unfold UserCmd.restore_one, UserIo.env_set, UserIo.env_remove. destruct (UserCmd.existed r); auto 8 with command_env. Qed.

Lemma env_call_restore l : env_call (UserCmd.restore_env l).
Proof.
  unfold UserCmd.restore_env. induction (rev l) as [|r rest IH]; simpl; [apply env_call_ret|].
  apply env_call_bind; [apply env_call_restore_one|done].
Qed.

Lemma env_call_remember key : env_call (UserCmd.remember key).
Proof. unfold UserCmd.remember, UserIo.env_get. auto 8 with command_env. Qed.

Lemma env_call_override o : env_call (UserCmd.override_one o).
Proof. unfold UserCmd.override_one, UserIo.env_set, UserIo.env_remove. destruct (UserCmd.ce_value o); auto 8 with command_env. Qed.

Lemma env_call_overrides l : env_call (UserCmd.apply_env_overrides l).
Proof.
  unfold UserCmd.apply_env_overrides. generalize (@nil UserCmd.EnvRestore).
  induction l as [|o l IH]; intros restores; simpl; [apply env_call_ret|].
  apply env_call_bind; [apply env_call_remember|intros r]. apply env_call_bind; [apply env_call_override|intros ok].
  destruct ok; simpl; [apply IH|]. apply env_call_bind; [apply env_call_reads|intros code].
  apply env_call_bind; [apply env_call_restore|intros _; apply env_call_ret].
Qed.

(** ** The standard descriptors *)

Lemma save_stdio_now s0 i o x e t s :
  now s0 [i; o; x] e t s -> answers UserIo.save_stdio s (i, o, x) s.
Proof.
  intros H'. unfold UserIo.save_stdio, UserIo.std_fd, answers, call_bind. cbn [call_std_fd command_table RYMOS_ABI].
  unfold reads, abi_std_fd. rewrite (now_std _ _ _ _ _ H'). done.
Qed.

Lemma dup2_now s0 std e t s old new :
  now s0 std e t s -> is_std_fd new = true -> app_fd_open t old = true ->
  exists s', answers (UserIo.dup2 old new) s true s' /\ now s0 (<[Z.to_nat new := old]> std) e t s' /\
    (untouched s0 s -> untouched s0 s').
Proof.
  intros H' Hn Ho.
  assert (E : abi_dup2 old new s = (fst (ok_code new (fst (set_std_fd new old s))), new)).
  { unfold abi_dup2. rewrite Hn. cbn [negb]. destruct (Z.eqb_spec old new) as [->|_]; [done|].
    unfold st_bind, get. by rewrite (nw_fds _ _ _ _ _ H'), Ho. }
  destruct (now_set_std s0 std e t s new old H') as [N1 U1].
  destruct (now_error _ _ _ _ _ ERR_OK N1) as [N2 U2].
  exists (fst (ok_code new (fst (set_std_fd new old s)))). split; [|split; [exact N2|auto]].
  unfold UserIo.dup2. apply answers_bind. exists new, (fst (ok_code new (fst (set_std_fd new old s)))). split.
  - unfold answers. cbn [call_dup2 command_table RYMOS_ABI]. unfold always. by rewrite E.
  - apply answers_ret. by rewrite Z.eqb_refl.
Qed.

(** Three redirections in a row. *)
Lemma dup2_each s0 a b c e t s i o x :
  now s0 [a; b; c] e t s -> app_fd_open t i = true -> app_fd_open t o = true -> app_fd_open t x = true ->
  exists s1 s2 s3, answers (UserIo.dup2 i 0) s true s1 /\ answers (UserIo.dup2 o 1) s1 true s2 /\
    answers (UserIo.dup2 x 2) s2 true s3 /\ now s0 [i; o; x] e t s3 /\ (untouched s0 s -> untouched s0 s3).
Proof.
  intros H' Hi Ho Hx. destruct (dup2_now s0 _ e t s i 0 H' eq_refl Hi) as (s1 & A1 & N1 & U1).
  destruct (dup2_now s0 _ e t s1 o 1 N1 eq_refl Ho) as (s2 & A2 & N2 & U2).
  destruct (dup2_now s0 _ e t s2 x 2 N2 eq_refl Hx) as (s3 & A3 & N3 & U3).
  exists s1, s2, s3. split_and!; auto.
Qed.

Lemma restore_stdio_now s0 a b c e t s i o x :
  now s0 [a; b; c] e t s -> app_fd_open t i = true -> app_fd_open t o = true -> app_fd_open t x = true ->
  exists s', answers (UserCmd.restore_stdio (i, o, x)) s tt s' /\ now s0 [i; o; x] e t s' /\ (untouched s0 s -> untouched s0 s').
Proof.
  intros H' Hi Ho Hx. destruct (dup2_each _ _ _ _ _ _ _ i o x H' Hi Ho Hx) as (s1 & s2 & s3 & A1 & A2 & A3 & N & U).
  exists s3. split; [|done]. unfold UserCmd.restore_stdio. apply answers_bind. exists true, s1. split; [exact A1|].
  apply answers_bind. exists true, s2. split; [exact A2|]. apply answers_bind. exists true, s3. split; [exact A3|done].
Qed.

Lemma redirect3_now s0 a b c e t s i o x :
  now s0 [a; b; c] e t s -> app_fd_open t i = true -> app_fd_open t o = true -> app_fd_open t x = true ->
  exists s', answers (UserCmd.redirect3 i o x) s true s' /\ now s0 [i; o; x] e t s' /\ (untouched s0 s -> untouched s0 s').
Proof.
  intros H' Hi Ho Hx. destruct (dup2_each _ _ _ _ _ _ _ i o x H' Hi Ho Hx) as (s1 & s2 & s3 & A1 & A2 & A3 & N & U).
  exists s3. split; [|done]. unfold UserCmd.redirect3. apply answers_bind. exists true, s1. split; [exact A1|]. cbn [negb].
  apply answers_bind. exists true, s2. split; [exact A2|exact A3].
Qed.

(** ** Pipes *)

Lemma pipe_up_open t o : pipe_up t o -> app_fd_open t (fd_of (op_r o)) = true /\ app_fd_open t (fd_of (op_w o)) = true.
Proof.
  intros [(Hr & Hw & _) _ Er Ew _ _]. unfold app_fd_open. rewrite !fd_of_not_std, !fd_of_index, Er, Ew by done. done.
Qed.

(** The tables with [n] more pipes, if there is room for them. *)
Fixpoint open_pipes (n : nat) (t : Fds) : option Fds :=
  match n with
  | O => Some t
  | Datatypes.S n => match pipe_open t with (t, inr _) => open_pipes n t | (_, inl _) => None end
  end.

Lemma open_pipes_add n m t t' : open_pipes n t = Some t' -> open_pipes (n + m) t = open_pipes m t'.
Proof.
  revert t. induction n as [|n IH]; intros t; cbn [open_pipes Nat.add]; [by intros [= ->]|].
  destruct (pipe_open t) as [t1 [x|fds]]; [done|apply IH].
Qed.

Lemma open_pipes_none n m t : open_pipes n t = None -> open_pipes (n + m) t = None.
Proof.
  revert t. induction n as [|n IH]; intros t; cbn [open_pipes Nat.add]; [done|].
  destruct (pipe_open t) as [t1 [x|fds]]; [done|apply IH].
Qed.

Lemma pipe_now s0 t0 std e t l s :
  now s0 std e t s -> stacked t0 t l ->
  (exists o t' s', answers UserIo.pipe s (Some (fd_of (op_r o), fd_of (op_w o))) s' /\ now s0 std e t' s' /\
     stacked t0 t' (l ++ [o]) /\ queue (pipe_at t' (op_q o)) = [] /\
     (forall p, p ∈ l -> pipe_at t' (op_q p) = pipe_at t (op_q p)) /\ (untouched s0 s -> untouched s0 s') /\
     open_pipes 1 t = Some t') \/
  (exists s', answers UserIo.pipe s None s' /\ now s0 std e t s' /\ (untouched s0 s -> untouched s0 s') /\
     abi_last_error s' = ERR_NOSPC /\ open_pipes 1 t = None).
Proof.
  intros H' Hst. pose proof (stacked_pipe t0 t l Hst) as P. unfold UserIo.pipe. cbn [open_pipes].
  assert (E : abi_pipe true s =
    match pipe_open t with
    | (t', inl error) => (fst (set_app_error error {| s with sys_fds := t' |}), (-1, None))
    | (t', inr fds) => (fst (clear_app_error {| s with sys_fds := t' |}), (0, Some fds))
    end).
  { unfold abi_pipe, st_bind, with_fds. cbn [negb]. rewrite (nw_fds _ _ _ _ _ H'). destruct (pipe_open t) as [t' [x|fds]]; done. }
  destruct (pipe_open t) as [t' [x|fds]].
  - destruct P as [-> ->]. right. destruct (now_tables _ _ _ _ _ t H') as [N1 U1].
    destruct (now_error s0 std e t _ ERR_NOSPC N1) as [N U]. eexists. split; [|split; [exact N|split; [auto|split; [|done]]]].
    2: { by eapply now_last_error. }
    apply answers_bind. eexists (-1, None), _. split; [|by apply answers_ret].
    unfold answers. cbn [call_pipe command_table RYMOS_ABI]. unfold always. rewrite E. done.
  - destruct P as (o & -> & Hs & Hq & Hold). left.
    destruct (now_tables _ _ _ _ _ t' H') as [N1 U1]. destruct (now_error s0 std e t' _ ERR_OK N1) as [N U].
    exists o, t'. eexists. split; [|split; [exact N|split_and!; [exact Hs|exact Hq|exact Hold|auto|done]]].
    apply answers_bind. eexists (0, Some _), _. split; [|by apply answers_ret].
    unfold answers. cbn [call_pipe command_table RYMOS_ABI]. unfold always. rewrite E. done.
Qed.

(** Closing the pipes again. *)
Lemma close_now s0 std e t s i t' :
  now s0 std e t s -> fd_close (fd_of i) t = (t', 0) ->
  exists s', answers (UserIo.close_fd (fd_of i)) s true s' /\ now s0 std e t' s' /\ (untouched s0 s -> untouched s0 s').
Proof.
  intros H' E. destruct (now_tables _ _ _ _ _ t' H') as [N U]. exists {| s with sys_fds := t' |}. split; [|done].
  unfold UserIo.close_fd. apply answers_bind. exists 0, {| s with sys_fds := t' |}. split; [|by apply answers_ret].
  unfold answers. cbn [call_close command_table RYMOS_ABI]. unfold always, abi_close, with_fds.
  assert (Hr : 3 <= fd_of i) by (unfold fd_of, APP_FD_BASE; lia).
  destruct (Z.ltb_spec (fd_of i) 0); [lia|]. unfold STDIN_FD, STDOUT_FD, STDERR_FD.
  destruct (Z.eqb_spec (fd_of i) 0), (Z.eqb_spec (fd_of i) 1), (Z.eqb_spec (fd_of i) 2); try lia. cbn [orb].
  by rewrite (nw_fds _ _ _ _ _ H'), E.
Qed.

Lemma close_many_now s0 t0 std e t l s :
  now s0 std e t s -> stacked t0 t l ->
  exists t' s', answers (UserCmd.close_many (fds_of l)) s tt s' /\ now s0 std e t' s' /\ stacked t0 t' [] /\
    (untouched s0 s -> untouched s0 s').
Proof.
  revert t s. induction l as [|o l IH]; intros t s H' Hs; [by exists t, s|].
  destruct (stacked_close t0 t o l Hs) as (t1 & t2 & C1 & C2 & Hs2 & _).
  destruct (close_now _ _ _ _ _ _ _ H' C1) as (s1 & A1 & N1 & U1). destruct (close_now _ _ _ _ _ _ _ N1 C2) as (s2 & A2 & N2 & U2).
  destruct (IH t2 s2 N2 Hs2) as (t3 & s3 & A3 & N3 & Hs3 & U3). exists t3, s3. split_and!; [|done|done|auto].
  assert (Hr : forall i, (0 <=? fd_of i) = true) by (intros i; apply Z.leb_le; unfold fd_of, APP_FD_BASE; lia).
  change (fds_of (o :: l)) with (fd_of (op_r o) :: fd_of (op_w o) :: fds_of l). cbn [UserCmd.close_many]. rewrite !Hr.
  apply answers_bind. exists true, s1. split; [exact A1|]. apply answers_bind. exists true, s2. split; [exact A2|exact A3].
Qed.

(** ** The data in the pipes *)

Lemma resolve_fd_of std i : app_resolve_fd std (fd_of i) = fd_of i.
Proof. unfold app_resolve_fd. by rewrite fd_of_not_std. Qed.

Lemma fd_of_big i : 3 <= fd_of i.
Proof. unfold fd_of, APP_FD_BASE. lia. Qed.

Lemma queue_empty p : pipe_wf p -> queue p = [] -> pipe_len p = 0.
Proof.
  intros [[Hr Hl] Hz] Hq. apply Hz. apply (f_equal length) in Hq. unfold queue in Hq. rewrite length_slice in Hq. cbn in Hq. lia.
Qed.

Lemma queue_max p : pipe_wf p -> blen (queue p) <= APP_PIPE_BUFFER_SIZE.
Proof. intros [[Hr Hl] Hz]. unfold queue, blen. rewrite length_slice. lia. Qed.

(** What a pipe takes. *)
Definition pipe_part (data : bytes) : bytes := take (Z.to_nat APP_PIPE_BUFFER_SIZE) data.

(** Writing into an empty pipe, as whoever holds its write end. *)
Lemma pipe_written p data :
  pipe_wf p -> pipe_used p = true -> write_open p = true -> read_open p = true -> queue p = [] ->
  exists p' n, pipe_write data p = Some (p', n) /\ pipe_wf p' /\ queue p' = pipe_part data /\
    pipe_used p' = true /\ read_open p' = true /\ write_open p' = true.
Proof.
  intros Hp Hu Hw Hr Hq. pose proof (write_spec data p Hp) as W. pose proof (queue_empty p Hp Hq) as Hl.
  unfold pipe_room in W. rewrite Hl in W. destruct (pipe_write data p) as [[p' n]|].
  - destruct W as (W1 & -> & W3 & W4 & W5 & W6). exists p'. eexists. rewrite W4, W5, W6. split_and!; try done.
    rewrite W3, Hq. cbn [app]. unfold pipe_part, blen, APP_PIPE_BUFFER_SIZE.
    destruct (Z.le_ge_cases (Z.of_nat (length data)) (8192 - 0)).
    + rewrite Z.min_l, !take_ge by lia. done.
    + rewrite Z.min_r by lia. done.
  - unfold APP_PIPE_BUFFER_SIZE in W. destruct W as [W|[W|[W|[W _]]]]; [congruence..|lia].
Qed.

Lemma write_fd_pipe std s t i q data p' n :
  std_fds (cur_proc s) = std -> sys_fds s = t -> (i < APP_FD_COUNT)%nat -> fd_at t i = write_handle q ->
  pipe_write data (pipe_at t q) = Some (p', n) -> forall fd, app_resolve_fd std fd = fd_of i ->
  abi_write_fd clk fd (Some data) s = ({| s with sys_fds := set_pipe q p' t |}, n).
Proof.
  intros Hs Ht Hi Ef Ew fd Er. unfold abi_write_fd. rewrite Hs, Er, Ht. cbv zeta.
  pose proof (fd_of_big i). destruct (Z.ltb_spec (fd_of i) 0); [lia|]. unfold STDOUT_FD, STDERR_FD.
  destruct (Z.eqb_spec (fd_of i) 1), (Z.eqb_spec (fd_of i) 2); try lia. cbn [orb].
  rewrite fd_of_index, Ef by done. cbn [write_handle fd_open fd_flags fd_kind pfs_index].
  change (negb true || negb (flag_set FD_WRITE FD_WRITE)) with false. cbv iota.
  rewrite bool_decide_true by done. by rewrite Ew.
Qed.

Lemma read_fd_pipe std s t i q n p' got :
  std_fds (cur_proc s) = std -> sys_fds s = t -> (i < APP_FD_COUNT)%nat -> fd_at t i = read_handle q ->
  pipe_read n (pipe_at t q) = Some (p', got) -> forall fd, app_resolve_fd std fd = fd_of i ->
  abi_read fd (Some n) s = ({| s with sys_fds := set_pipe q p' t |}, Some (blen got, got)).
Proof.
  intros Hs Ht Hi Ef Ep fd Er. unfold abi_read. rewrite Hs, Er, Ht. cbv zeta. pose proof (fd_of_big i).
  destruct (Z.ltb_spec (fd_of i) 0); [lia|]. unfold STDIN_FD. destruct (Z.eqb_spec (fd_of i) 0); [lia|].
  rewrite fd_of_index, Ef by done. cbn [read_handle fd_open fd_flags fd_kind pfs_index].
  change (negb true) with false. change (negb (flag_set FD_READ FD_READ)) with false. cbv iota.
  rewrite bool_decide_true by done. by rewrite Ep.
Qed.

Lemma write_now s0 t0 std e t l s o data :
  now s0 std e t s -> stacked t0 t l -> o ∈ l -> queue (pipe_at t (op_q o)) = [] ->
  exists r t' s', answers (UserIo.fd_write (fd_of (op_w o)) data) s r s' /\ now s0 std e t' s' /\ stacked t0 t' l /\
    queue (pipe_at t' (op_q o)) = pipe_part data /\
    (forall p, p ∈ l -> op_q p <> op_q o -> pipe_at t' (op_q p) = pipe_at t (op_q p)) /\ (untouched s0 s -> untouched s0 s').
Proof.
  intros H' Hs Ho Hq. pose proof (proj1 (Forall_forall _ _) (sk_up _ _ _ Hs) o Ho) as [(U1 & U2 & _) Uq Ur Uw (V1 & V2 & V3) Up].
  destruct (pipe_written _ data Up V1 V3 V2 Hq) as (p' & n & E & P1 & P2 & P3 & P4 & P5).
  destruct (stacked_queue t0 t l o p' Hs Ho P1 P3 P4 P5) as (S1 & S2 & S3).
  destruct (now_tables _ _ _ _ _ (set_pipe (op_q o) p' t) H') as [N U].
  exists (UserIo.size_opt n), (set_pipe (op_q o) p' t), {| s with sys_fds := set_pipe (op_q o) p' t |}.
  split; [|split_and!; [done|done|by rewrite S2|exact S3|done]].
  unfold UserIo.fd_write. apply answers_bind. eexists n, _. split; [|by apply answers_ret].
  unfold answers. cbn [call_write_fd command_table RYMOS_ABI]. unfold always.
  by rewrite (write_fd_pipe std s t (op_w o) (op_q o) data p' n (now_std _ _ _ _ _ H') (nw_fds _ _ _ _ _ H') U2 Uw E _ (resolve_fd_of _ _)).
Qed.

(** One chunk out of a pipe. *)
Lemma chunk_now s0 t0 std e t l s o :
  now s0 std e t s -> stacked t0 t l -> o ∈ l ->
  let q := queue (pipe_at t (op_q o)) in
  exists t' s', answers (UserIo.fd_read (fd_of (op_r o)) (replicate 128 0)) s (Some (take 128 q)) s' /\ now s0 std e t' s' /\
    stacked t0 t' l /\ queue (pipe_at t' (op_q o)) = drop 128 q /\
    (forall p, p ∈ l -> op_q p <> op_q o -> pipe_at t' (op_q p) = pipe_at t (op_q p)).
Proof.
  intros H' Hs Ho q. pose proof (proj1 (Forall_forall _ _) (sk_up _ _ _ Hs) o Ho) as [(U1 & U2 & _) Uq Ur Uw (V1 & V2 & V3) Up].
  pose proof (read_spec 128 _ Up ltac:(lia)) as R. destruct (pipe_read 128 (pipe_at t (op_q o))) as [[p' got]|] eqn:E; [|naive_solver congruence].
  destruct R as (R1 & R2 & R3 & R4 & R5 & R6). change (Z.to_nat 128) with 128%nat in *. fold q in R2, R3.
  rewrite V1 in R4. rewrite V2 in R5. rewrite V3 in R6.
  destruct (stacked_queue t0 t l o p' Hs Ho R1 R4 R5 R6) as (S1 & S2 & S3).
  destruct (now_tables _ _ _ _ _ (set_pipe (op_q o) p' t) H') as [N U].
  exists (set_pipe (op_q o) p' t), {| s with sys_fds := set_pipe (op_q o) p' t |}.
  split; [|split_and!; [done|done|by rewrite S2|exact S3]].
  unfold UserIo.fd_read. apply answers_bind. exists (blen got, got), {| s with sys_fds := set_pipe (op_q o) p' t |}. split.
  - unfold answers. cbn [call_read command_table RYMOS_ABI]. change (blen (replicate 128 0)) with 128.
    exact (read_fd_pipe std s t (op_r o) (op_q o) 128 p' got (now_std _ _ _ _ _ H') (nw_fds _ _ _ _ _ H') U1 Ur E _ (resolve_fd_of _ _)).
  - apply answers_ret. split; [|done]. rewrite <- R2. unfold UserIo.filled_opt, UserIo.filled. cbn [fst snd].
    assert (Hl : (length got <= 128)%nat) by (rewrite R2, length_take; lia).
    destruct (Z.ltb_spec (blen got) 0); [unfold blen in *; lia|]. f_equal.
    change (blen (replicate 128 0)) with 128. unfold blen. rewrite Z.min_l by lia. rewrite Nat2Z.id. by rewrite take_app_length.
Qed.

Lemma read_available_now n s0 t0 std e t l s o acc :
  now s0 std e t s -> stacked t0 t l -> o ∈ l -> (length (queue (pipe_at t (op_q o))) < 128 * n)%nat ->
  exists t' s', answers (UserCmd.read_available_from n (fd_of (op_r o)) acc) s (acc ++ queue (pipe_at t (op_q o))) s' /\
    now s0 std e t' s' /\ stacked t0 t' l /\
    (forall p, p ∈ l -> op_q p <> op_q o -> pipe_at t' (op_q p) = pipe_at t (op_q p)).
Proof.
  revert t s acc. induction n as [|n IH]; intros t s acc H' Hs Ho Hn; [lia|]. cbn [UserCmd.read_available_from].
  destruct (chunk_now s0 t0 std e t l s o H' Hs Ho) as (t1 & s1 & A1 & N1 & S1 & Q1 & K1).
  set (q := queue (pipe_at t (op_q o))) in *. destruct (take 128 q) as [|b rest] eqn:Eq.
  - assert (Hq : q = []) by (destruct q; [done|discriminate Eq]). exists t1, s1. split; [|by split].
    apply answers_bind. exists (Some []), s1. split; [exact A1|]. rewrite Hq, app_nil_r. by apply answers_ret.
  - assert (Hl : length (b :: rest) = Nat.min 128 (length q)) by (rewrite <- Eq; apply length_take).
    destruct (Z.ltb_spec (blen (b :: rest)) 128) as [Hlt|Hge].
    + exists t1, s1. split; [|by split]. apply answers_bind. exists (Some (b :: rest)), s1. split; [exact A1|].
      destruct (Z.ltb_spec (blen (b :: rest)) 128); [|lia]. apply answers_ret. split; [|done]. f_equal.
      rewrite <- Eq. symmetry. apply take_ge. unfold blen in *. lia.
    + destruct (IH t1 s1 (acc ++ b :: rest) N1 S1 Ho) as (t2 & s2 & A2 & N2 & S2 & K2).
      { rewrite Q1, length_drop. unfold blen in *. lia. }
      exists t2, s2. split; [|split_and!; [done|done|intros p Hp Hpo; rewrite K2 by done; by apply K1]].
      apply answers_bind. exists (Some (b :: rest)), s1. split; [exact A1|].
      destruct (Z.ltb_spec (blen (b :: rest)) 128); [lia|].
      assert (Ej : (b :: rest) ++ drop 128 q = q) by (rewrite <- Eq; apply take_drop).
      rewrite Q1, <- app_assoc, Ej in A2. exact A2.
Qed.

(** ** Starting the child and waiting for it *)

(** The caller can run a command: it runs, its standard descriptors are open, and the
    next pid is not in use. *)
Record caller_ok (s : Sys D) : Prop := {
  co_sized : table_sized (sys_kern s);
  co_slot : (CURRENT_PROCESS_INDEX (sys_kern s) < PROCESS_COUNT)%nat;
  co_state : state (cur_proc s) = Running /\ waiting_for (cur_proc s) = WaitNone;
  co_env : overlay_ok (env (cur_proc s));
  co_fds : fds_wf (sys_fds s);
  co_std : exists i o x, std_fds (cur_proc s) = [i; o; x] /\ app_fd_open (sys_fds s) i = true /\
    app_fd_open (sys_fds s) o = true /\ app_fd_open (sys_fds s) x = true;
  co_pid : 0 < NEXT_PID (sys_kern s) < 2 ^ 31 /\ forall j, pid (proc (sys_kern s) j) <> NEXT_PID (sys_kern s)
}.

(** What the other processes do while the caller waits for the child: the child reads
    what is in the first pipe, fills the other two, and exits; the caller is resumed.
    Descriptors and pipes other than these three stay as they are. *)
Definition child_runs (code : bytes -> Z) (out err : bytes -> bytes) : Prop := forall s t0 p child i o x,
  let k := sys_kern s in
  let cur := CURRENT_PROCESS_INDEX k in
  let given := queue (pipe_at (sys_fds s) (op_q i)) in
  table_sized k -> (cur < PROCESS_COUNT)%nat ->
  state (proc k cur) = Blocked -> waiting_for (proc k cur) = WaitPid p ->
  child <> cur -> only_pid k p child ->
  core (proc k child) = mkCore p (pid (proc k cur)) false Ready WaitNone ->
  std_fds (proc k child) = [fd_of (op_r i); fd_of (op_w o); fd_of (op_w x)] ->
  stacked t0 (sys_fds s) [i; o; x] ->
  queue (pipe_at (sys_fds s) (op_q o)) = [] -> queue (pipe_at (sys_fds s) (op_q x)) = [] ->
  let s' := fst (others s) in
  let k' := sys_kern s' in
  table_sized k' /\ CURRENT_PROCESS_INDEX k' = cur /\
  proc k' cur = (let p := proc k cur in {| p with state := Running; waiting_for := WaitNone |}) /\
  (exists j, j <> cur /\ process_wait_by_pid p k' = (set_waited j k', Some (Process.mkStatus (state_as_u32 Exited) (code given)))) /\
  stacked t0 (sys_fds s') [i; o; x] /\
  queue (pipe_at (sys_fds s') (op_q o)) = out given /\ queue (pipe_at (sys_fds s') (op_q x)) = err given.

Context (s0 : Sys D) (Hs0 : caller_ok s0).

Abbreviation cur0 := (CURRENT_PROCESS_INDEX (sys_kern s0)).

Lemma now_pids std e t s :
  now s0 std e t s -> untouched s0 s ->
  NEXT_PID (sys_kern s) = NEXT_PID (sys_kern s0) /\ (forall j, pid (proc (sys_kern s) j) = pid (proc (sys_kern s0) j)) /\
  state (proc (sys_kern s) cur0) = Running.
Proof using Hs0.
  intros [N1 N2 N3 [y N4] N5] U. unfold cur_proc in N4. rewrite N1 in N4. split; [by apply untouched_next|]. split.
  - intros j. destruct (decide (j = cur0)) as [->|Hj]; [by rewrite N4|by rewrite (untouched_others s0 s)].
  - rewrite N4. apply (co_state _ Hs0).
Qed.

(** Only the error number of the caller has changed. *)
Lemma now_with_error std e t s s' y :
  now s0 std e t s -> CURRENT_PROCESS_INDEX (sys_kern s') = cur0 -> table_sized (sys_kern s') -> sys_fds s' = sys_fds s ->
  proc (sys_kern s') cur0 = with_error y (proc (sys_kern s) cur0) -> now s0 std e t s'.
Proof.
  intros [N1 N2 N3 [z N4] N5] C1 C2 C3 C4. split; try done; [|congruence]. exists y. unfold cur_proc in *.
  rewrite N1 in N4. by rewrite C1, C4, N4.
Qed.

(** What starting the child comes to. *)
Definition spawned (std : list Z) (e : list AppEnvVar) (t : Fds) (s s' : Sys D) (r : Z + Z) : Prop :=
  now s0 std e t s' /\
  match r with
  | inl _ => True
  | inr p => p = NEXT_PID (sys_kern s0) /\ exists i, started (sys_kern s) (sys_kern s') cur0 i
  end.

Lemma prepared_now name args argv std e t s :
  now s0 std e t s -> untouched s0 s ->
  match spawn_prepared process_trampoline name args argv s with
  | (s', Some r) => spawned std e t s s' (UserIo.pid_result r)
  | (_, None) => True
  end.
Proof using Hs0.
  intros H' U. destruct (now_pids _ _ _ _ H' U) as (P1 & P2 & P3). pose proof (nw_cur _ _ _ _ _ H') as Ec.
  pose proof (spawn_outcome process_trampoline name args argv s (nw_sized _ _ _ _ _ H')) as O. cbv zeta in O. rewrite Ec in O.
  specialize (O (nw_slot _ _ _ _ _ H') P3).
  pose proof (spawn_frame process_trampoline name args argv s (nw_sized _ _ _ _ _ H')) as F.
  destruct (spawn_prepared process_trampoline name args argv s) as [s' [r|]]; [|done]. destruct F as (F1 & F2 & F3).
  rewrite Ec in F3. destruct O as [[-> [(y & _ & Ey) _]]|[-> [i St]]].
  - split; [|done]. by apply (now_with_error std e t s s' y).
  - pose proof (co_pid _ Hs0) as [Hp _]. rewrite P1. assert (E : i32 (NEXT_PID (sys_kern s0)) = NEXT_PID (sys_kern s0)).
    { unfold i32. rewrite Z.mod_small; lia. }
    rewrite E. unfold UserIo.pid_result. destruct (Z.ltb_spec (NEXT_PID (sys_kern s0)) 0); [lia|].
    split; [apply (now_with_error std e t s s' ERR_OK); try done; apply (sd_parent _ _ _ _ St)|]. split; [done|]. by exists i.
Qed.

(** An answer of the handlers that start a program. *)
Definition starting (std : list Z) (e : list AppEnvVar) (t : Fds) (s : Sys D) (r : Sys D * option Z) : Prop :=
  match r with
  | (s', Some v) => spawned std e t s s' (UserIo.pid_result v)
  | (_, None) => True
  end.

Lemma starting_error std e t s y : now s0 std e t s -> starting std e t s (some_code (set_app_error y s)).
Proof. intros H'. split; [|done]. by apply (now_error s0 std e t s y). Qed.

Lemma starting_prepared name args argv std e t s :
  now s0 std e t s -> untouched s0 s -> starting std e t s (spawn_prepared process_trampoline name args argv s).
Proof using Hs0.
  intros H' U. pose proof (prepared_now name args argv std e t s H' U) as P. unfold starting.
  by destruct (spawn_prepared process_trampoline name args argv s) as [s' [r|]].
Qed.

Lemma spawn_command_now name args argv std e t s :
  now s0 std e t s -> untouched s0 s ->
  match UserCmd.spawn_command name args argv s with
  | (s', Some r) => spawned std e t s s' r
  | (_, None) => True
  end.
Proof using Hs0.
  intros H' U.
  assert (Hfin : forall m, starting std e t s (m s) ->
    match call_bind m (fun r => call_ret (UserIo.pid_result r)) s with (s', Some r) => spawned std e t s s' r | (_, None) => True end).
  { intros m Hm. unfold call_bind. by destruct (m s) as [s' [v|]]. }
  unfold UserCmd.spawn_command, UserIo.spawn, UserIo.spawn_argv.
  destruct argv as [|a argv]; apply Hfin; cbn [call_spawn call_spawn_argv command_table RYMOS_ABI].
  - unfold abi_spawn. destruct (checked_app_slice _) as [nm|]; [|by apply starting_error].
    destruct (_ || _); [by apply starting_error|]. destruct (if blen args =? 0 then _ else _) as [raw|]; [|by apply starting_error].
    destruct (_ <? _); [by apply starting_error|by apply starting_prepared].
  - unfold abi_spawn_argv. destruct (checked_app_slice _) as [nm|]; [|by apply starting_error].
    destruct (_ || _ || _); [by apply starting_error|]. cbn [length].
    destruct (gather_argv _ _ _) as [y|[av raw]]; [by apply starting_error|by apply starting_prepared].
Qed.

(** ** Waiting *)

Context (code : bytes -> Z) (out err : bytes -> bytes) (Hchild : child_runs code out err).

(** The child that was just started is the only process with its pid. *)
Lemma started_only std e t s (s1 : Sys D) c :
  now s0 std e t s -> untouched s0 s -> started (sys_kern s) (sys_kern s1) cur0 c ->
  only_pid (sys_kern s1) (NEXT_PID (sys_kern s0)) c /\ state (proc (sys_kern s1) c) = Ready.
Proof using Hs0.
  intros N U [(C1 & C2 & _) C3 _ _ C6 C7]. destruct (now_pids _ _ _ _ N U) as (P1 & P2 & _). rewrite P1 in C3.
  pose proof (co_pid _ Hs0) as [_ Hfresh]. split; [|exact (f_equal c_state C3)]. split; [done|]. split; [exact (f_equal c_pid C3)|].
  intros j Hj. destruct (decide (j = c)) as [|Hjc]; [done|]. destruct (decide (j = cur0)) as [->|Hj0].
  - rewrite C6 in Hj. unfold with_error in Hj. cbn in Hj. rewrite P2 in Hj. by apply Hfresh in Hj.
  - rewrite C7, P2 in Hj by done. by apply Hfresh in Hj.
Qed.

(** The caller blocked. *)
Lemma blocked_proc k p :
  table_sized k -> (CURRENT_PROCESS_INDEX k < PROCESS_COUNT)%nat ->
  let k' := block_current_on (WaitPid p) k in
  let cur := CURRENT_PROCESS_INDEX k in
  table_sized k' /\ CURRENT_PROCESS_INDEX k' = cur /\
  proc k' cur = (let q := proc k cur in {| q with waiting_for := WaitPid p; state := Blocked |}) /\
  forall j, j <> cur -> proc k' j = proc k j.
Proof.
  intros Hk Hc k' cur. unfold k', block_current_on. fold cur. destruct (Nat.ltb_spec cur PROCESS_COUNT); [|lia].
  split_and!; [by apply update_sized|done| |intros j Hj]; rewrite proc_update by (done || lia).
  - by rewrite decide_True.
  - by rewrite decide_False.
Qed.

(** The two rounds of the wait. *)
Lemma wait_rounds p (s1 : Sys D) c k3 st :
  (2 <= fuel)%nat -> table_sized (sys_kern s1) -> only_pid (sys_kern s1) p c -> state (proc (sys_kern s1) c) = Ready ->
  let s3 := fst (others {| s1 with sys_kern := block_current_on (WaitPid p) (sys_kern s1) |}) in
  process_wait_by_pid p (sys_kern s3) = (k3, Some st) ->
  answers (UserIo.wait p) s1 (Some (user_status st)) {| s3 with sys_kern := k3 |}.
Proof.
  intros Hf Hz Ho Hr s3 W.
  assert (Hl : is_zombie (proc (sys_kern s1) c) = false) by (unfold is_zombie, is_state; by rewrite Hr).
  assert (A : answers (wait_for_pid_blocking others fuel p) s1 (Some st) {| s3 with sys_kern := k3 |}).
  { destruct fuel as [|[|n]]; [lia..|]. cbn [wait_for_pid_blocking]. unfold answers, st_bind at 1, on_kern at 1.
    rewrite (only_live _ _ _ Hz Ho Hl). unfold st_bind at 1, get. cbn [sys_kern]. rewrite (only_found _ _ _ Ho) by congruence.
    unfold st_bind at 1, block_on. cbn [sys_kern]. unfold st_bind at 1, run_others.
    replace {| s1 with sys_kern := sys_kern s1 |} with s1 by (by destruct s1). subst s3.
    destruct (others _) as [s3' []]. cbn [fst] in W |- *. unfold st_bind at 1, on_kern at 1. by rewrite W. }
  unfold UserIo.wait. apply answers_bind. exists (0, Some (user_status st)), {| s3 with sys_kern := k3 |}. split; [|by apply answers_ret].
  cbn [call_wait command_table RYMOS_ABI]. unfold abi_wait. cbn [negb].
  apply answers_bind. exists (0, Some st), {| s3 with sys_kern := k3 |}. split; [|by apply answers_ret].
  apply answers_bind. exists (Some st), {| s3 with sys_kern := k3 |}. split; [exact A|by apply answers_ret].
Qed.

Lemma set_waited_other j k i : j <> i -> proc (set_waited j k) i = proc k i.
Proof. intros Hj. unfold set_waited, proc, update_proc. cbn. by rewrite list_lookup_alter_ne by auto. Qed.

(** The wait for a child that was just started. *)
Lemma wait_now std e t s s1 i o x :
  now s0 std e t s -> untouched s0 s -> std = [fd_of (op_r i); fd_of (op_w o); fd_of (op_w x)] ->
  now s0 std e t s1 -> (exists c, started (sys_kern s) (sys_kern s1) cur0 c) -> (2 <= fuel)%nat ->
  stacked (sys_fds s0) t [i; o; x] -> queue (pipe_at t (op_q o)) = [] -> queue (pipe_at t (op_q x)) = [] ->
  let given := queue (pipe_at t (op_q i)) in
  exists s2 t2, answers (UserIo.wait (NEXT_PID (sys_kern s0))) s1 (Some (mkStatus Consts.PROCESS_EXITED (code given))) s2 /\
    now s0 std e t2 s2 /\ stacked (sys_fds s0) t2 [i; o; x] /\
    queue (pipe_at t2 (op_q o)) = out given /\ queue (pipe_at t2 (op_q x)) = err given.
Proof using Hs0 Hchild.
  intros N U Hstd N1 [c St] Hfuel Hst Qo Qx given. set (p := NEXT_PID (sys_kern s0)).
  destruct (started_only _ _ _ _ _ _ N U St) as [Ho Hr]. fold p in Ho.
  pose proof (nw_cur _ _ _ _ _ N1) as E1. pose proof (nw_sized _ _ _ _ _ N1) as Z1. pose proof (nw_slot _ _ _ _ _ N1) as L1.
  destruct (blocked_proc (sys_kern s1) p Z1) as (B3 & B4 & B1 & B2); [by rewrite E1|]. rewrite E1 in B1, B2, B4.
  set (s2 := {| s1 with sys_kern := block_current_on (WaitPid p) (sys_kern s1) |}).
  destruct St as [(_ & C2 & _) C3 (C4 & _ & _) _ C6 _].
  pose proof (Hchild s2 (sys_fds s0) p c i o x) as R. cbv zeta in R. change (sys_kern s2) with (block_current_on (WaitPid p) (sys_kern s1)) in R.
  rewrite B4, B1, B2 in R by done. change (sys_fds s2) with (sys_fds s1) in R. rewrite (nw_fds _ _ _ _ _ N1) in R.
  destruct R as (R1 & R2 & R3 & (j & Hj & R4) & R5 & R6 & R7); try done.
  { destruct Ho as (O1 & O2 & O3). split; [done|]. split; [by rewrite B2|]. intros j Hj. apply O3.
    destruct (decide (j = cur0)) as [->|Hj0]; [rewrite B1 in Hj; exact Hj|by rewrite B2 in Hj]. }
  { rewrite C3, C6. destruct (now_pids _ _ _ _ N U) as (-> & _). done. }
  { rewrite C4, <- Hstd, <- (now_std _ _ _ _ _ N). unfold cur_proc. by rewrite (nw_cur _ _ _ _ _ N). }
  pose proof (wait_rounds p s1 c _ _ Hfuel Z1 Ho Hr R4) as A. fold s2 in A. set (s3 := fst (others s2)) in *.
  exists {| s3 with sys_kern := set_waited j (sys_kern s3) |}, (sys_fds s3). split; [exact A|]. split; [|by split_and!].
  split; [exact R2|exact L1|by apply update_sized| |done].
  destruct (nw_proc _ _ _ _ _ N1) as [y Ey]. exists y. unfold cur_proc at 1. cbn [sys_kern].
  change (CURRENT_PROCESS_INDEX (set_waited j (sys_kern s3))) with (CURRENT_PROCESS_INDEX (sys_kern s3)).
  rewrite R2, set_waited_other, R3 by done. unfold cur_proc in Ey. rewrite E1 in Ey. rewrite Ey.
  pose proof (co_state _ Hs0) as [S1 S2]. unfold cur_proc in S1, S2. cbv zeta. unfold cur_proc. by rewrite <- S1, <- S2.
Qed.

(** ** The context of the command *)

Definition same_env (e : list AppEnvVar) : Prop := forall k, env_lookup k e = lookup_var s0 k.

(** With the overrides of [restores] in force the environment is [e]; undoing them
    brings the caller's environment back. *)
Definition undoes (restores : list UserCmd.EnvRestore) (e : list AppEnvVar) : Prop := forall std t s,
  now s0 std e t s ->
  exists s' e', answers (UserCmd.restore_command_context None [] restores) s tt s' /\ now s0 std e' t s' /\ same_env e'.

Lemma overrides_now overrides :
  let std := std_fds (cur_proc s0) in
  exists r s e, answers (UserCmd.apply_env_overrides overrides) s0 r s /\ now s0 std e (sys_fds s0) s /\ untouched s0 s /\
    match r with inl _ => same_env e | inr restores => undoes restores e end.
Proof using Hs0.
  cbv zeta. pose proof (now_self s0 (co_sized _ Hs0) (co_slot _ Hs0)) as N0.
  pose proof (now_good _ _ _ _ _ N0 (co_env _ Hs0)) as G0.
  destruct (@overrides_undone _ command_table (kernel_env clk process_trampoline others fuel) overrides s0 G0) as (r & s1 & A & G1 & R).
  destruct (env_call_overrides overrides _ _ _ _ _ _ _ N0 A) as (e1 & N1 & U1).
  exists r, s1, e1. split; [exact A|]. split; [exact N1|]. split; [by apply U1, untouched_refl|].
  destruct r as [y|restores].
  { intros k. rewrite <- (now_env _ _ _ _ _ N1). apply R. }
  intros std t s N. pose proof (eg_overlay _ G1) as He. rewrite (now_env _ _ _ _ _ N1) in He.
  assert (Es : env (cur_proc s) = env (cur_proc s1)) by (by rewrite (now_env _ _ _ _ _ N), (now_env _ _ _ _ _ N1)).
  destruct (R s) as (s3 & A3 & V3).
  { split; [exact (now_good _ _ _ _ _ N He)| |]; intros k; simpl; unfold lookup_var; by rewrite Es. }
  destruct (env_call_restore restores _ _ _ _ _ _ _ N A3) as (e3 & N3 & _). exists s3, e3. split; [|split; [exact N3|]].
  - unfold UserCmd.restore_command_context. apply answers_bind. exists tt, s3. split; [exact A3|done].
  - intros k. rewrite <- (now_env _ _ _ _ _ N3). apply V3.
Qed.

(** The caller is as it was before the command. *)
Definition back (s : Sys D) : Prop := exists e t,
  now s0 (std_fds (cur_proc s0)) e t s /\ stacked (sys_fds s0) t [] /\ same_env e.

(** The state in which the child is started: the three pipes are open and are the
    standard descriptors, the overrides are in force, and nothing else has changed. *)
Definition ready_to_start (overrides : list UserCmd.CommandEnv) (s1 : Sys D) : Prop :=
  untouched s0 s1 /\
  exists p0 p1 p2 t restores s,
    answers (UserCmd.apply_env_overrides overrides) s0 (inr restores) s /\
    now s0 [fd_of (op_r p0); fd_of (op_w p1); fd_of (op_w p2)] (env (cur_proc s)) t s1 /\
    stacked (sys_fds s0) t [p0; p1; p2].

(** Why a command fails: an override is refused, there is no room for three pipes, or
    the kernel refuses to start the child. *)
Inductive command_refused (name args : bytes) (argv : list bytes) (overrides : list UserCmd.CommandEnv) (error : Z) : Prop :=
  | refused_override s :
      answers (UserCmd.apply_env_overrides overrides) s0 (inl error) s ->
      command_refused name args argv overrides error
  | refused_pipes :
      error = ERR_NOSPC -> open_pipes 3 (sys_fds s0) = None -> command_refused name args argv overrides error
  | refused_start s1 s2 :
      ready_to_start overrides s1 -> answers (UserCmd.spawn_command name args argv) s1 (inl error) s2 ->
      command_refused name args argv overrides error.

(** The ways the command ends; without an answer only when the kernel panics while it
    starts the child. *)
Definition command_end (name args : bytes) (argv : list bytes) (stdin : bytes) (overrides : list UserCmd.CommandEnv)
    (r : option (Z + UserCmd.CommandOutput)) (s : Sys D) : Prop :=
  match r with
  | Some (inr o) => back s /\ o = UserCmd.mkOutput (NEXT_PID (sys_kern s0))
      (mkStatus Consts.PROCESS_EXITED (code (pipe_part stdin))) (out (pipe_part stdin)) (err (pipe_part stdin))
  | Some (inl error) => back s /\ command_refused name args argv overrides error
  | None => exists s1, ready_to_start overrides s1 /\ UserCmd.spawn_command name args argv s1 = (s, None)
  end.

Section Command.

Context (restores : list UserCmd.EnvRestore) (e : list AppEnvVar) (Hundo : undoes restores e).
Context (name args : bytes) (argv : list bytes) (stdin : bytes) (overrides : list UserCmd.CommandEnv) (s_env : Sys D).
Context (Henv : answers (UserCmd.apply_env_overrides overrides) s0 (inr restores) s_env) (He : env (cur_proc s_env) = e).
Context (Hfuel : (2 <= fuel)%nat) (n : nat) (Hn : (65 <= n)%nat).

Abbreviation Q := (command_end name args argv stdin overrides).
Abbreviation std0 := (std_fds (cur_proc s0)).
Abbreviation context := (UserCmd.restore_command_context None [] restores).

Lemma context_back t s : now s0 std0 e t s -> stacked (sys_fds s0) t [] -> exists s', answers context s tt s' /\ back s'.
Proof using Hundo. intros N S. destruct (Hundo _ _ _ N) as (s' & e' & A & N' & V). exists s'. split; [exact A|]. by exists e', t. Qed.

(** The clean-up of a command that did not get all its pipes. *)
Lemma close_context t l s c :
  command_refused name args argv overrides c -> now s0 std0 e t s -> stacked (sys_fds s0) t l ->
  Machine.ends (do& (do& UserCmd.close_many (fds_of l) in context) in call_ret (inl c)) s Q.
Proof using Hundo.
  intros Why N S. destruct (close_many_now _ _ _ _ _ _ _ N S) as (t1 & s1 & A1 & N1 & S1 & _).
  destruct (context_back t1 s1 N1 S1) as (s2 & A2 & B). apply (Machine.ends_bind _ _ s tt s2).
  - apply answers_bind. by exists tt, s1.
  - by apply Machine.ends_ret.
Qed.

Lemma pipe_or_ends {A} t l s cleanup (k : Z * Z -> Call (Sys D) (UserFs.Result A)) (P : option (UserFs.Result A) -> Sys D -> Prop) :
  now s0 std0 e t s -> stacked (sys_fds s0) t l -> untouched s0 s ->
  (open_pipes 1 t = None -> forall s', now s0 std0 e t s' -> Machine.ends (do& cleanup in call_ret (inl ERR_NOSPC)) s' P) ->
  (forall o t' s', open_pipes 1 t = Some t' -> now s0 std0 e t' s' -> stacked (sys_fds s0) t' (l ++ [o]) -> untouched s0 s' ->
     queue (pipe_at t' (op_q o)) = [] -> (forall p, p ∈ l -> pipe_at t' (op_q p) = pipe_at t (op_q p)) ->
     Machine.ends (k (fd_of (op_r o), fd_of (op_w o))) s' P) ->
  Machine.ends (UserCmd.pipe_or cleanup k) s P.
Proof using Type.
  intros N S U Hf Hk. unfold UserCmd.pipe_or.
  destruct (pipe_now _ _ _ _ _ _ _ N S) as [(o & t' & s' & Ap & N' & S' & Q' & K' & U' & O')|(s' & Ap & N' & U' & Le & O')].
  - eapply Machine.ends_bind; [exact Ap|]. cbv beta iota. by apply (Hk o t' s'); auto.
  - eapply Machine.ends_bind; [exact Ap|]. cbv beta iota. apply (Machine.ends_bind _ _ s' (abi_last_error s') s'); [done|]. rewrite Le. by apply Hf.
Qed.

(** The clean-up after the child: the standard descriptors, the environment, and then
    the pipes, with [m] in between. *)
Lemma restore_now std t s :
  now s0 std e t s -> length std = 3%nat -> (exists l, stacked (sys_fds s0) t l) ->
  exists i o x s1, std0 = [i; o; x] /\ answers (UserCmd.restore_stdio (i, o, x)) s tt s1 /\ now s0 std0 e t s1.
Proof using Hs0.
  intros N L [l S]. destruct (co_std _ Hs0) as (i & o & x & E & Hi & Ho & Hx). exists i, o, x.
  destruct std as [|a [|b [|c [|]]]]; try done.
  destruct (restore_stdio_now _ _ _ _ _ _ _ i o x N) as (s1 & A1 & N1 & _); [by eapply stacked_open; [exact S|]..|].
  exists s1. split; [done|]. split; [exact A1|]. by rewrite E.
Qed.

(** The child could not be started. *)
Lemma refused_context t l s std i o x c :
  command_refused name args argv overrides c -> now s0 std e t s -> length std = 3%nat -> stacked (sys_fds s0) t l -> std0 = [i; o; x] ->
  Machine.ends (do& (do& UserCmd.restore_stdio (i, o, x) in do& context in UserCmd.close_many (fds_of l)) in call_ret (inl c)) s Q.
Proof using Hs0 Hundo.
  intros Why N L S E. destruct (restore_now std t s N L) as (i' & o' & x' & s1 & E' & A1 & N1); [by exists l|].
  rewrite E in E'. injection E' as <- <- <-. destruct (Hundo _ _ _ N1) as (s2 & e2 & A2 & N2 & V2).
  destruct (close_many_now _ _ _ _ _ _ _ N2 S) as (t3 & s3 & A3 & N3 & S3 & _).
  apply (Machine.ends_bind _ _ s tt s3).
  - apply answers_bind. exists tt, s1. split; [exact A1|]. apply answers_bind. exists tt, s2. split; [exact A2|exact A3].
  - apply Machine.ends_ret. split; [by exists e2, t3|done].
Qed.

(** The child has been waited for. *)
Lemma collected_context t s std i o x p0 p1 p2 st :
  now s0 std e t s -> length std = 3%nat -> stacked (sys_fds s0) t [p0; p1; p2] -> std0 = [i; o; x] ->
  st = mkStatus Consts.PROCESS_EXITED (code (pipe_part stdin)) ->
  queue (pipe_at t (op_q p1)) = out (pipe_part stdin) -> queue (pipe_at t (op_q p2)) = err (pipe_part stdin) ->
  Machine.ends (do& UserCmd.restore_stdio (i, o, x) in do& context in
    let& a := UserCmd.read_all_available n (fd_of (op_r p1)) in
    let& b := UserCmd.read_all_available n (fd_of (op_r p2)) in
    do& UserCmd.close_many (fds_of [p0; p1; p2]) in
    call_ret (inr (UserCmd.mkOutput (NEXT_PID (sys_kern s0)) st a b))) s Q.
Proof using Hs0 Hundo Hn Hfuel Hchild.
  clear Henv He. intros N L S E -> Q1 Q2. destruct (restore_now std t s N L) as (i' & o' & x' & s1 & E' & A1 & N1); [by eexists|].
  rewrite E in E'. injection E' as <- <- <-. destruct (Hundo _ _ _ N1) as (s2 & e2 & A2 & N2 & V2).
  assert (Hin : p1 ∈ [p0; p1; p2] /\ p2 ∈ [p0; p1; p2]) by set_solver.
  assert (Hne : op_q p2 <> op_q p1).
  { pose proof (sk_pipes _ _ _ S) as Hd. cbn in Hd. rewrite !NoDup_cons, !elem_of_cons in Hd. intros Hx. rewrite Hx in Hd. tauto. }
  assert (Hlen : forall t' p, stacked (sys_fds s0) t' [p0; p1; p2] -> p ∈ [p0; p1; p2] ->
    (length (queue (pipe_at t' (op_q p))) < 128 * n)%nat).
  { intros t' p S' Hp. pose proof (queue_max _ (pu_wf _ _ (proj1 (Forall_forall _ _) (sk_up _ _ _ S') p Hp))) as Hm.
    unfold blen, APP_PIPE_BUFFER_SIZE in Hm. lia. }
  destruct (read_available_now n _ _ _ _ _ _ _ p1 [] N2 S (proj1 Hin) (Hlen _ _ S (proj1 Hin))) as (t3 & s3 & A3 & N3 & S3 & K3).
  destruct (read_available_now n _ _ _ _ _ _ _ p2 [] N3 S3 (proj2 Hin) (Hlen _ _ S3 (proj2 Hin))) as (t4 & s4 & A4 & N4 & S4 & _).
  destruct (close_many_now _ _ _ _ _ _ _ N4 S4) as (t5 & s5 & A5 & N5 & S5 & _).
  rewrite (K3 p2 (proj2 Hin) Hne) in A4. cbn [app] in A3, A4. rewrite Q1 in A3. rewrite Q2 in A4.
  eapply Machine.ends_bind; [exact A1|]. eapply Machine.ends_bind; [exact A2|]. eapply Machine.ends_bind; [exact A3|].
  eapply Machine.ends_bind; [exact A4|]. eapply Machine.ends_bind; [exact A5|]. apply Machine.ends_ret.
  split; [|done]. by exists e2, t5.
Qed.

(** All three pipes are open: the child is started, waited for, and its output read. *)
Lemma piped_ends t s p0 p1 p2 i o x :
  now s0 std0 e t s -> untouched s0 s -> stacked (sys_fds s0) t [p0; p1; p2] -> std0 = [i; o; x] ->
  (forall p, p ∈ [p0; p1; p2] -> queue (pipe_at t (op_q p)) = []) ->
  Machine.ends (do& UserIo.fd_write (fd_of (op_w p0)) stdin in
    let& ok := UserCmd.redirect3 (fd_of (op_r p0)) (fd_of (op_w p1)) (fd_of (op_w p2)) in
    if negb ok then
      let& error := UserIo.last_error in
      do& UserCmd.restore_stdio (i, o, x) in
      do& UserCmd.close_many (fds_of [p0; p1; p2]) in
      do& context in
      call_ret (inl error)
    else
      UserCmd.spawn_and_wait name args argv
        (do& UserCmd.restore_stdio (i, o, x) in do& context in UserCmd.close_many (fds_of [p0; p1; p2]))
        (fun pid status =>
          do& UserCmd.restore_stdio (i, o, x) in
          do& context in
          let& a := UserCmd.read_all_available n (fd_of (op_r p1)) in
          let& b := UserCmd.read_all_available n (fd_of (op_r p2)) in
          do& UserCmd.close_many (fds_of [p0; p1; p2]) in
          call_ret (inr (UserCmd.mkOutput pid status a b)))) s Q.
Proof using Hs0 Hchild Hundo Hfuel Hn Henv He.
  intros N U S E Hq. assert (Hin : forall p, p ∈ [p0; p1; p2] <-> p = p0 \/ p = p1 \/ p = p2) by set_solver.
  assert (Hne : op_q p1 <> op_q p0 /\ op_q p2 <> op_q p0).
  { pose proof (sk_pipes _ _ _ S) as Hd. cbn in Hd. rewrite !NoDup_cons, !elem_of_cons in Hd.
    split; intros Hx; rewrite Hx in Hd; tauto. }
  destruct (write_now _ _ _ _ _ _ _ p0 stdin N S) as (r & t1 & s1 & A1 & N1 & S1 & Q1 & K1 & U1); [by apply Hin; left|apply Hq, Hin; by left|].
  eapply Machine.ends_bind; [exact A1|].
  assert (Hup : forall p, p ∈ [p0; p1; p2] -> pipe_up t1 p) by (apply Forall_forall, S1).
  pose proof N1 as N1'. rewrite E in N1'.
  destruct (redirect3_now _ _ _ _ _ _ _ (fd_of (op_r p0)) (fd_of (op_w p1)) (fd_of (op_w p2)) N1') as (s2 & A2 & N2 & U2);
    [apply pipe_up_open, Hup, Hin; auto..|].
  eapply Machine.ends_bind; [exact A2|]. cbn [negb]. unfold UserCmd.spawn_and_wait.
  assert (U02 : untouched s0 s2) by auto. clear U U1 U2.
  assert (Rdy : ready_to_start overrides s2).
  { split; [done|]. exists p0, p1, p2, t1, restores, s_env. by rewrite He. }
  pose proof (spawn_command_now name args argv _ _ _ _ N2 U02) as Sp.
  destruct (UserCmd.spawn_command name args argv s2) as [s3 [[c|p]|]] eqn:Es.
  - apply (Machine.ends_bind _ _ s2 (inl c) s3 Q Es). cbv beta iota. destruct Sp as [N3 _].
    eapply refused_context; [|exact N3|done..]. by apply (refused_start _ _ _ _ _ s2 s3).
  - apply (Machine.ends_bind _ _ s2 (inr p) s3 Q Es). cbv beta iota. destruct Sp as [N3 [-> St]].
    destruct (wait_now _ _ _ _ _ p0 p1 p2 N2 U02 eq_refl N3 St Hfuel S1) as (s4 & t4 & A4 & N4 & S4 & Q4 & Q5).
    { rewrite K1; [apply Hq, Hin; auto|apply Hin; auto|apply Hne]. }
    { rewrite K1; [apply Hq, Hin; auto|apply Hin; auto|apply Hne]. }
    rewrite Q1 in A4, Q4, Q5. eapply Machine.ends_bind; [exact A4|]. cbv beta iota.
    by eapply collected_context; [exact N4|..].
  - apply (Machine.ends_none _ s2 s3 Q); [unfold call_bind; by rewrite Es|]. by exists s2.
Qed.

End Command.

Lemma command_ends name args argv stdin overrides n :
  (2 <= fuel)%nat -> (65 <= n)%nat ->
  Machine.ends (UserCmd.run_command_output n name args argv stdin None overrides) s0 (command_end name args argv stdin overrides).
Proof using Hs0 Hchild.
  intros Hfuel Hn. unfold UserCmd.run_command_output.
  destruct (co_std _ Hs0) as (i & o & x & E & _). pose proof (now_self s0 (co_sized _ Hs0) (co_slot _ Hs0)) as N0.
  assert (As : answers UserIo.save_stdio s0 (i, o, x) s0) by (rewrite E in N0; exact (save_stdio_now _ _ _ _ _ _ _ N0)).
  eapply Machine.ends_bind; [exact As|]. unfold UserCmd.with_context. cbv zeta.
  destruct (overrides_now overrides) as (r & s1 & e & A1 & N1 & U1 & R1). eapply Machine.ends_bind; [exact A1|].
  pose proof (stacked_none (sys_fds s0) (co_fds _ Hs0)) as S1. pose proof (now_env _ _ _ _ _ N1) as He.
  destruct r as [c|restores].
  { apply (Machine.ends_bind _ _ s1 tt s1); [done|]. apply Machine.ends_ret. split; [by exists e, (sys_fds s0)|].
    by apply (refused_override _ _ _ _ _ s1). }
  assert (Hno : open_pipes 3 (sys_fds s0) = None -> command_refused name args argv overrides ERR_NOSPC) by by apply refused_pipes.
  eapply (pipe_or_ends e _ []); [exact N1|exact S1|exact U1|intros O1 s' N'|].
  { destruct (context_back restores e R1 _ s' N' S1) as (s2 & A2 & B). eapply Machine.ends_bind; [exact A2|]. apply Machine.ends_ret.
    split; [exact B|]. exact (Hno (open_pipes_none 1 2 _ O1)). }
  intros p0 t2 s2 O2 N2 S2 U2 Q2 _. eapply (pipe_or_ends e); [exact N2|exact S2|exact U2|intros O' s' N'|].
  { refine (close_context restores e R1 name args argv stdin overrides t2 [p0] s' _ (Hno _) N' S2).
    etrans; [exact (open_pipes_add 1 2 _ _ O2)|exact (open_pipes_none 1 1 _ O')]. }
  intros p1 t3 s3 O3 N3 S3 U3 Q3 K3. eapply (pipe_or_ends e); [exact N3|exact S3|exact U3|intros O' s' N'|].
  { refine (close_context restores e R1 name args argv stdin overrides t3 [p0; p1] s' _ (Hno _) N' S3).
    etrans; [exact (open_pipes_add 1 2 _ _ O2)|]. by etrans; [exact (open_pipes_add 1 1 _ _ O3)|]. }
  intros p2 t4 s4 _ N4 S4 U4 Q4 K4.
  apply (piped_ends restores e R1 name args argv stdin overrides s1 A1 He Hfuel n Hn t4 s4 p0 p1 p2 i o x N4 U4 S4 E).
  intros p Hp. rewrite !elem_of_cons, elem_of_nil in Hp.
  assert (H0 : p0 ∈ [p0; p1] /\ p1 ∈ [p0; p1]) by set_solver.
  destruct Hp as [->|[->|[->|[]]]]; [|rewrite K4; [done|apply H0]|done].
  rewrite K4 by apply H0. rewrite K3; [done|set_solver].
Qed.

(** Nothing the caller can tell has changed: it still runs, with its standard
    descriptors, directory and variables, and the same descriptors and pipes open. *)
Record undisturbed (s s' : Sys D) : Prop := {
  ud_cur : CURRENT_PROCESS_INDEX (sys_kern s') = CURRENT_PROCESS_INDEX (sys_kern s);
  ud_state : state (cur_proc s') = state (cur_proc s);
  ud_std : std_fds (cur_proc s') = std_fds (cur_proc s);
  ud_cwd : cwd (cur_proc s') = cwd (cur_proc s);
  ud_vars k : lookup_var s' k = lookup_var s k;
  ud_fds : like_fds (sys_fds s) (sys_fds s')
}.

Lemma back_undisturbed s : back s -> undisturbed s0 s.
Proof.
  intros (e & t & N & S & V). destruct (nw_proc _ _ _ _ _ N) as [y E]. split; rewrite ?E; try done.
  - exact (nw_cur _ _ _ _ _ N).
  - intros k. rewrite <- V. unfold lookup_var. by rewrite E.
  - rewrite (nw_fds _ _ _ _ _ N). by apply stacked_like.
Qed.

(** C14: running a command that sets no directory and taking its output leaves the
    caller as it was, however it ends: its standard descriptors, directory and variables
    are the same, and every descriptor and pipe it opened for the command is closed
    again. When it succeeds, the answer has the child's pid and exit code and exactly the
    bytes that the child left in its two output pipes when given what its input pipe took
    of the input. It fails only with the error of a command that could not be built, of
    an override that is refused, of a table with no room for three pipes, or of the kernel
    refusing to start the child; and the only way not to answer is that the kernel panics
    in starting the child, in the state which differs from the caller's by the three
    pipes and the overrides alone. *)
Theorem command_output_captures (c : UserCmd.Command) n :
  (2 <= fuel)%nat -> (65 <= n)%nat -> UserCmd.c_cwd c = None ->
  match UserCmd.output n c s0 with
  | (s', Some r) => undisturbed s0 s' /\
      match r with
      | inr o => let given := pipe_part (UserCmd.c_stdin c) in
          o = UserCmd.mkOutput (NEXT_PID (sys_kern s0)) (mkStatus Consts.PROCESS_EXITED (code given)) (out given) (err given)
      | inl error =>
          (UserCmd.c_error c <> Consts.ERR_OK /\ error = UserCmd.c_error c) \/
          command_refused (UserCmd.c_name c) (UserCmd.c_args c) (UserCmd.c_argv c) (UserCmd.c_env c) error
      end
  | (s', None) => exists s1, ready_to_start (UserCmd.c_env c) s1 /\
      UserCmd.spawn_command (UserCmd.c_name c) (UserCmd.c_args c) (UserCmd.c_argv c) s1 = (s', None)
  end.
Proof using Hs0 Hchild.
  intros Hfuel Hn Hc. unfold UserCmd.output. destruct (Z.eqb_spec (UserCmd.c_error c) Consts.ERR_OK) as [_|Hno]; cbn [negb].
  2: { cbn. split; [by split|]. by left. }
  rewrite Hc. destruct (command_ends (UserCmd.c_name c) (UserCmd.c_args c) (UserCmd.c_argv c) (UserCmd.c_stdin c)
    (UserCmd.c_env c) n Hfuel Hn) as (r & s' & -> & R).
  destruct r as [[y|o]|]; [destruct R as [B W]; split; [by apply back_undisturbed|by right]|destruct R as [B ->]|exact R].
  split; [by apply back_undisturbed|done].
Qed.

End CommandStore.

(** ** Witness *)

(** A child that copies its input to its output and exits with 7, as the only other
    process that runs. *)
Definition echo_child (s : Sys Ata) : Sys Ata * unit :=
  let k := sys_kern s in
  let cur := CURRENT_PROCESS_INDEX k in
  match waiting_for (proc k cur) with
  | WaitPid p =>
      match find_process_index_by_pid p k with
      | None => (s, tt)
      | Some child =>
          let s := {| s with sys_kern := {| k with CURRENT_PROCESS_INDEX := child |} |} in
          let '(s, r) := abi_read 0 (Some 8192) s in
          let '(s, _) := abi_write_fd (mkClock 1 0 0) 1 (Some (default [] (option_map snd r))) s in
          let k := process_set_state child Exited 7 (sys_kern s) in
          let k := update_proc cur (fun q => {| q with state := Running; waiting_for := WaitNone |}) k in
          ({| s with sys_kern := {| k with CURRENT_PROCESS_INDEX := cur |} |}, tt)
      end
  | _ => (s, tt)
  end.

(** The child reads everything in the first pipe and copies it into the second. *)
Lemma echo_copies (s : Sys Ata) t0 i o x :
  let given := queue (pipe_at (sys_fds s) (op_q i)) in
  std_fds (cur_proc s) = [fd_of (op_r i); fd_of (op_w o); fd_of (op_w x)] ->
  stacked t0 (sys_fds s) [i; o; x] ->
  queue (pipe_at (sys_fds s) (op_q o)) = [] -> queue (pipe_at (sys_fds s) (op_q x)) = [] ->
  exists t1 t2 n, abi_read 0 (Some 8192) s = ({| s with sys_fds := t1 |}, Some (blen given, given)) /\
    abi_write_fd (mkClock 1 0 0) 1 (Some given) {| s with sys_fds := t1 |} = ({| s with sys_fds := t2 |}, n) /\
    stacked t0 t2 [i; o; x] /\ queue (pipe_at t2 (op_q o)) = given /\ queue (pipe_at t2 (op_q x)) = [].
Proof.
  intros given Hstd Hs Qo Qx. assert (Hin : i ∈ [i; o; x] /\ o ∈ [i; o; x] /\ x ∈ [i; o; x]) by set_solver.
  assert (Hd : op_q o <> op_q i /\ op_q x <> op_q i /\ op_q x <> op_q o).
  { pose proof (sk_pipes _ _ _ Hs) as Hd. cbn in Hd. rewrite !NoDup_cons, !elem_of_cons in Hd.
    split_and!; intros Hx; rewrite Hx in Hd; tauto. }
  pose proof (proj1 (Forall_forall _ _) (sk_up _ _ _ Hs) i (proj1 Hin)) as [(I1 & _) _ I2 _ (I3 & I4 & I5) I6].
  pose proof (read_spec 8192 _ I6 ltac:(lia)) as R.
  destruct (pipe_read 8192 (pipe_at (sys_fds s) (op_q i))) as [[pi got]|] eqn:Er; [|naive_solver congruence].
  destruct R as (R1 & R2 & R3 & R4 & R5 & R6). rewrite I3 in R4. rewrite I4 in R5. rewrite I5 in R6.
  pose proof (queue_max _ I6) as Hmax. fold given in R2, Hmax. unfold APP_PIPE_BUFFER_SIZE, blen in Hmax.
  rewrite take_ge in R2 by lia. subst got.
  destruct (stacked_queue _ _ _ i pi Hs (proj1 Hin) R1 R4 R5 R6) as (S1 & _ & K1).
  set (t1 := set_pipe (op_q i) pi (sys_fds s)) in *.
  pose proof (proj1 (Forall_forall _ _) (sk_up _ _ _ S1) o (proj1 (proj2 Hin))) as [(_ & O1 & _) _ _ O2 (O3 & O4 & O5) O6].
  assert (Qo1 : queue (pipe_at t1 (op_q o)) = []) by (rewrite K1; [done|apply Hin|apply Hd]).
  destruct (pipe_written _ given O6 O3 O5 O4 Qo1) as (po & n & Ew & P1 & P2 & P3 & P4 & P5).
  destruct (stacked_queue _ _ _ o po S1 (proj1 (proj2 Hin)) P1 P3 P4 P5) as (S2 & E2 & K2).
  exists t1, (set_pipe (op_q o) po t1), n. split_and!.
  - exact (read_fd_pipe _ s _ _ _ 8192 pi given Hstd eq_refl I1 I2 Er 0 eq_refl).
  - exact (write_fd_pipe (mkClock 1 0 0) _ {| s with sys_fds := t1 |} t1 _ _ given po n Hstd eq_refl O1 O2 Ew 1 eq_refl).
  - exact S2.
  - rewrite E2, P2. unfold pipe_part. rewrite take_ge; [done|]. unfold APP_PIPE_BUFFER_SIZE. lia.
  - rewrite K2; [rewrite K1; [done|apply Hin|apply Hd]|apply Hin|apply Hd].
Qed.

Lemma echo_child_runs : child_runs echo_child (fun _ => 7) (fun given => given) (fun _ => []).
Proof.
  intros s t0 p child i o x k cur given Hsz Hcur Hst Hw Hne Ho Hcore Hstd Hs Qo Qx s'.
  pose proof Ho as (Hch & Cp & Hpid). pose proof (f_equal c_state Hcore) as Cs. pose proof (f_equal c_waited Hcore) as Cw. cbn in Cs, Cw.
  destruct (echo_copies {| s with sys_kern := {| k with CURRENT_PROCESS_INDEX := child |} |} t0 i o x Hstd Hs Qo Qx)
    as (t1 & t2 & n & Ard & Awr & S2 & Q2 & Q3). cbn [sys_fds] in *. fold given in Ard, Awr, Q2.
  set (k' := update_proc cur (fun q => {| q with state := Running; waiting_for := WaitNone |})
    (process_set_state child Exited 7 {| k with CURRENT_PROCESS_INDEX := child |})).
  assert (Es : s' = {| s with sys_fds := t2; sys_kern := {| k' with CURRENT_PROCESS_INDEX := cur |} |}).
  { unfold s', echo_child. fold k cur. rewrite Hw, (only_found _ _ _ Ho) by congruence. cbv zeta. rewrite Ard. cbn [option_map snd].
    change (default [] (Some given)) with given. by rewrite Awr. }
  assert (Hp : forall j, proc {| k' with CURRENT_PROCESS_INDEX := cur |} j =
    if decide (j = cur) then (let q := proc k cur in {| q with state := Running; waiting_for := WaitNone |})
    else if decide (j = child) then (let q := proc k child in {| q with state := Exited; Process.exit_code := 7 |}) else proc k j).
  { intros j. change (proc {| k' with CURRENT_PROCESS_INDEX := cur |} j) with (proc k' j). unfold k', process_set_state.
    rewrite !proc_update by (repeat apply update_sized; done || lia).
    destruct (decide (j = cur)) as [->|]; [by rewrite decide_False by auto|]. by destruct (decide (j = child)) as [->|]. }
  assert (Hz : table_sized {| k' with CURRENT_PROCESS_INDEX := cur |}) by by repeat apply update_sized.
  rewrite Es. cbn [sys_kern sys_fds]. split_and!; [exact Hz|done|by rewrite Hp, decide_True| |exact S2|exact Q2|exact Q3].
  exists child. split; [done|]. rewrite (only_zombie _ p child Hz); rewrite ?Hp, ?(decide_False _ _ Hne), ?decide_True by done; try done.
  split; [done|]. rewrite Hp, decide_False, decide_True by done. split; [done|]. intros j Hj. apply Hpid. rewrite Hp in Hj.
  destruct (decide (j = cur)) as [->|]; [exact Hj|]. by destruct (decide (j = child)) as [->|].
Qed.

(** Process 1 as the kernel starts a program, and a boot image with one program. *)
Definition command_system : Sys Ata :=
  let k := update_proc 0 (fun p =>
    {| p with std_fds := [0; 1; 2]; env := replicate APP_ENV_COUNT AppEnvVar_empty; waiting_for := WaitNone |})
    (sys_kern tiny_system) in
  {| tiny_system with sys_kern := k |}.

Lemma pids_in_table k n : n <> 0 -> n ∉ map pid (PROCESS_TABLE k) -> forall j, pid (proc k j) <> n.
Proof.
  intros Hn Hk j E. unfold proc in E. destruct (PROCESS_TABLE k !! j) as [q|] eqn:Ej; [|by cbn in E].
  apply Hk. cbn in E. subst n. apply (list_elem_of_fmap_2 pid). by eapply list_elem_of_lookup_2.
Qed.

Lemma command_system_ok : caller_ok command_system.
Proof.
  split.
  - reflexivity.
  - apply Nat.ltb_lt. reflexivity.
  - split; reflexivity.
  - exact no_overrides_ok.
  - exact fds_empty_wf.
  - exists 0, 1, 2. split_and!; reflexivity.
  - split; [split; reflexivity|]. apply pids_in_table; [discriminate|].
    assert (E : map pid (PROCESS_TABLE (sys_kern command_system)) = 1 :: replicate PROCESS_COUNT 0) by (vm_compute; reflexivity).
    rewrite E, elem_of_cons, elem_of_replicate. intros [Hx|[Hx _]]; discriminate Hx.
Qed.

Lemma command_output_captures_witness :
  let clk := mkClock 1 0 0 in
  exists s', @UserCmd.output _ (RYMOS_ABI clk 0x4000 echo_child 2) 65
      (UserCmd.with_env (bs "HOME") (bs "/x") (UserCmd.with_stdin (bs "hello") (UserCmd.Command_new (bs "t")))) command_system =
    (s', Some (inr (UserCmd.mkOutput 2 (mkStatus 3 7) (bs "hello") []))) /\ undisturbed command_system s'.
Proof.
  cbv zeta. set (c := UserCmd.with_env (bs "HOME") (bs "/x") (UserCmd.with_stdin (bs "hello") (UserCmd.Command_new (bs "t")))).
  assert (E : snd (@UserCmd.output _ (RYMOS_ABI (mkClock 1 0 0) 0x4000 echo_child 2) 65 c command_system) =
    Some (inr (UserCmd.mkOutput 2 (mkStatus 3 7) (bs "hello") []))) by (vm_compute; reflexivity).
  pose proof (command_output_captures (mkClock 1 0 0) 0x4000 echo_child 2 command_system command_system_ok
    (fun _ => 7) (fun given => given) (fun _ => []) echo_child_runs c 65 (le_n 2) (le_n 65) eq_refl) as H.
  unfold command_table in H.
  destruct (@UserCmd.output _ (RYMOS_ABI (mkClock 1 0 0) 0x4000 echo_child 2) 65 c command_system) as [s' r].
  cbn [snd] in E. subst r. exists s'. split; [reflexivity|exact (proj1 H)].
Defined.
