(* ===== verification/StdApi.v ===== *)
(** * The standard library a program is built against

    [stdreal] and [cargolike] use [std], through a port of it to this system that is
    not in the repository. The class [Std] has what they call, each with the type the
    standard library documents: no answer is a panic, an error has its two texts. How
    the library renders a value ([{:?}]) is part of the class where it depends on the
    port, and so is the order of paths. *)

From S2P Require Import Prelude UserAbi UserIo Machine.

(** [std::io::Error], as the texts of [Display] and [Debug]. *)
Record IoError : Type := mkIoError { e_display : bytes; e_debug : bytes }.

Definition Result (A : Type) : Type := IoError + A.

(** [std::env::VarError] *)
Inductive VarError : Type := NotPresent | NotUnicode (value : bytes).

(** [DirEntry]: its name, and [path()], the directory joined with the name. *)
Record DirEntry : Type := mkDirEntry { de_name : bytes; de_path : bytes }.

(** [ExitStatus]: [code()], [success()] and its [Debug] text. *)
Record ExitStatus : Type := mkExitStatus { es_code : option Z; es_success : bool; es_debug : bytes }.

(** [process::Output], the streams used. *)
Record Output : Type := mkStdOutput { out_status : ExitStatus; out_stdout : bytes }.

(** [process::Command]: the program, its arguments and the variables set for it. *)
Record StdCommand : Type := mkStdCommand { sc_program : bytes; sc_args : list bytes; sc_envs : list (bytes * bytes) }.

Definition StdCommand_new (program : bytes) : StdCommand := mkStdCommand program [] [].
Definition std_arg (a : bytes) (c : StdCommand) : StdCommand := {| c with sc_args := sc_args c ++ [a] |}.
Definition std_env (key value : bytes) (c : StdCommand) : StdCommand := {| c with sc_envs := sc_envs c ++ [(key, value)] |}.

Class Std (S : Type) : Type := {
  (** [print!] of a whole text *)
  std_print : bytes -> Call S unit;
  (** the message of a panic; what follows does not run *)
  std_panic : bytes -> IoError -> Call S unit;
  process_id : Call S Z;
  env_args : Call S (list bytes);
  set_var : bytes -> bytes -> Call S unit;
  remove_var : bytes -> Call S unit;
  env_var : bytes -> Call S (VarError + bytes);
  env_vars : Call S (list (bytes * bytes));
  current_dir : Call S (Result bytes);
  temp_dir : Call S bytes;
  fs_write : bytes -> bytes -> Call S (Result unit);
  read_to_string : bytes -> Call S (Result bytes);
  fs_exists : bytes -> Call S (Result bool);
  create_dir : bytes -> Call S (Result unit);
  create_dir_all : bytes -> Call S (Result unit);
  remove_file : bytes -> Call S (Result unit);
  remove_dir : bytes -> Call S (Result unit);
  remove_dir_all : bytes -> Call S (Result unit);
  (** [fs::metadata(path).and_then(|m| m.modified())], in nanoseconds from the epoch *)
  modified : bytes -> Call S (Result Z);
  (** [fs::ReadDir] and its iteration *)
  ReadDir : Type;
  read_dir : bytes -> Call S (Result ReadDir);
  next_entry : ReadDir -> Call S (ReadDir * option (Result DirEntry));
  (** [entry.file_type()], whether it is a directory *)
  file_type : DirEntry -> Call S (Result bool);
  (** nanoseconds on the monotonic clock and from the epoch *)
  instant_now : Call S Z;
  system_now : Call S Z;
  thread_sleep : Z -> Call S unit;
  command_output : StdCommand -> Call S (Result Output);
  command_status : StdCommand -> Call S (Result ExitStatus);
  (** pure functions of the library *)
  str_debug : bytes -> bytes;
  duration_debug : Z -> bytes;
  from_utf8_lossy : bytes -> bytes;
  path_le : bytes -> bytes -> bool
}.

Definition nl : bytes := [10].

Section Std.

Context {S : Type} `{Std S}.

(** [println!] *)
Definition std_println (text : bytes) : Call S unit := std_print (text ++ nl).

(** [Result::expect] *)
Definition expect {A} (message : bytes) (r : Result A) : Call S A :=
  match r with
  | inr a => call_ret a
  | inl e => do& std_panic message e in st_ret None
  end.

(** [println!("..{err}")] *)
Definition say_error (prefix : bytes) (e : IoError) : Call S unit := std_println (prefix ++ e_display e).

Definition Var_display (e : VarError) : bytes :=
  match e with
  | NotPresent => bs "environment variable not found"
  | NotUnicode v => bs "environment variable was not valid unicode: " ++ str_debug v
  end.

(** The [Debug] texts of the results the programs print. *)
Definition debug_var (r : VarError + bytes) : bytes :=
  match r with
  | inr v => bs "Ok(" ++ str_debug v ++ bs ")"
  | inl NotPresent => bs "Err(NotPresent)"
  | inl (NotUnicode v) => bs "Err(NotUnicode(" ++ str_debug v ++ bs "))"
  end.

Definition debug_path (r : Result bytes) : bytes :=
  match r with
  | inr p => bs "Ok(" ++ str_debug p ++ bs ")"
  | inl e => bs "Err(" ++ e_debug e ++ bs ")"
  end.

(** [Option<i32>] in [Debug] *)
Definition i32_text (v : Z) : bytes := if v <? 0 then bs "-" ++ usize_text (- v) else usize_text v.

Definition debug_code (c : option Z) : bytes :=
  match c with Some v => bs "Some(" ++ i32_text v ++ bs ")" | None => bs "None" end.

Definition bool_text (b : bool) : bytes := if b then bs "true" else bs "false".

End Std.
