(* ===== verification/StdReal.v ===== *)
(** * The test program of the standard library

    [src/programs/stdreal/src/main.rs], over the class [Std]. [fuel] bounds the
    entries of a directory. *)

From stdpp Require Import gmap.
From S2P Require Import Prelude UserAbi Machine StdApi.

Definition path : bytes := bs "pfs:stdreal-test.txt".
Definition dir : bytes := bs "pfs:stdreal-dir".
Definition nested : bytes := dir ++ bs "/nested.txt".

Section StdReal.

Context {S : Type} `{Std S} (fuel : nat).

Fixpoint print_args (index : Z) (args : list bytes) : Call S unit :=
  match args with
  | [] => call_ret tt
  | arg :: rest =>
      do& std_println (bs "stdreal argv[" ++ usize_text index ++ bs "]: " ++ arg) in
      print_args (index + 1) rest
  end.

(** The loop over [vars()]; whether the variable was seen. *)
Fixpoint iterate_vars (l : list (bytes * bytes)) (saw_it : bool) : Call S bool :=
  match l with
  | [] => call_ret saw_it
  | (key, value) :: rest =>
      if bytes_eq key (bs "STDREAL_VAR") then
        do& std_println (bs "stdreal env iterate found: " ++ key ++ bs "=" ++ value) in
        iterate_vars rest true
      else iterate_vars rest saw_it
  end.

Definition check_env : Call S unit :=
  do& set_var (bs "STDREAL_VAR") (bs "hello-from-std-env") in
  let& r := env_var (bs "STDREAL_VAR") in
  do& (match r with
       | inr value => std_println (bs "stdreal env get: " ++ value)
       | inl e => std_println (bs "stdreal env get FAILED: " ++ Var_display e)
       end) in
  let& all := env_vars in
  let& saw_it := iterate_vars all false in
  do& (if negb saw_it then std_println (bs "stdreal env iterate FAILED: did not find STDREAL_VAR") else call_ret tt) in
  do& remove_var (bs "STDREAL_VAR") in
  let& r := env_var (bs "STDREAL_VAR") in
  std_println (bs "stdreal env after remove: " ++ debug_var r).

Definition check_file : Call S unit :=
  let& r := fs_write path (bs "hello from real std::fs" ++ nl) in
  do& (match r with inr _ => std_println (bs "stdreal fs::write ok") | inl e => say_error (bs "stdreal fs::write FAILED: ") e end) in
  let& r := read_to_string path in
  do& (match r with
       | inr contents => std_print (bs "stdreal fs::read_to_string: " ++ contents)
       | inl e => say_error (bs "stdreal fs::read_to_string FAILED: ") e
       end) in
  let& r := fs_exists path in
  match r with
  | inr true => std_println (bs "stdreal fs::exists ok")
  | inr false => std_println (bs "stdreal fs::exists FAILED: reported missing")
  | inl e => say_error (bs "stdreal fs::exists FAILED: ") e
  end.

Fixpoint print_entries (n : nat) (entries : ReadDir) : Call S unit :=
  match n with
  | O => st_ret None
  | Datatypes.S n =>
      let& r := next_entry entries in
      match snd r with
      | None => call_ret tt
      | Some (inr entry) =>
          do& std_println (bs "stdreal read_dir entry: " ++ str_debug (de_name entry)) in print_entries n (fst r)
      | Some (inl e) => do& say_error (bs "stdreal read_dir entry FAILED: ") e in print_entries n (fst r)
      end
  end.

Definition check_dir : Call S unit :=
  let& _c := create_dir dir in
  let& _w := fs_write nested (bs "nested" ++ nl) in
  let& r := read_dir dir in
  do& (match r with inr entries => print_entries fuel entries | inl e => say_error (bs "stdreal read_dir FAILED: ") e end) in
  let& _a := remove_file nested in
  let& _b := remove_dir dir in
  let& _c := remove_file path in
  call_ret tt.

Definition check_time : Call S unit :=
  let& start := instant_now in
  do& thread_sleep 15000000 in
  let& later := instant_now in
  do& std_println (bs "stdreal Instant ordering (later >= start): " ++ bool_text (start <=? later)) in
  do& (if start <=? later
       then std_println (bs "stdreal Instant elapsed: " ++ duration_debug (later - start) ++ bs " (slept 15ms)")
       else std_println (bs "stdreal Instant elapsed FAILED: checked_duration_since returned None")) in
  let& now := system_now in
  if 0 <=? now then
    let secs := now / 1000000000 in
    std_println (bs "stdreal SystemTime since epoch: " ++ usize_text secs ++ bs " s (" ++ usize_text (secs / 86400) ++ bs " days)")
  else std_println (bs "stdreal SystemTime FAILED: second time provided was later than self").

(** [map.values().sum::<i32>()] *)
Definition sample_map : gmap bytes Z := <[bs "b" := 2]> (<[bs "a" := 1]> ∅).
Definition values_sum (m : gmap bytes Z) : Z := map_fold (fun _ v total => i32 (total + v)) 0 m.

Definition hello : StdCommand := std_arg (bs "readme.txt") (StdCommand_new (bs "hello")).

Definition check_commands : Call S unit :=
  let& r := command_output hello in
  do& (match r with
       | inr out => std_println (bs "stdreal Command::output status=" ++ debug_code (es_code (out_status out)) ++
                      bs " stdout_len=" ++ usize_text (blen (out_stdout out)))
       | inl e => say_error (bs "stdreal Command::output FAILED: ") e
       end) in
  let& r := command_status (std_env (bs "STDREAL_CHILD_VAR") (bs "child-env-value") hello) in
  do& (match r with
       | inr status => std_println (bs "stdreal Command::status success=" ++ bool_text (es_success status))
       | inl e => say_error (bs "stdreal Command::status FAILED: ") e
       end) in
  let& r := env_var (bs "STDREAL_CHILD_VAR") in
  match r with
  | inr value => std_println (bs "stdreal Command env leaked FAILED: " ++ value)
  | inl _ => std_println (bs "stdreal Command env override correctly did not leak")
  end.

Definition main : Call S unit :=
  do& std_println (bs "stdreal: real std::fs/env/time/process smoke test") in
  let& p := process_id in
  do& std_println (bs "stdreal pid: " ++ usize_text p) in
  let& args := env_args in
  do& std_println (bs "stdreal argv count: " ++ usize_text (Z.of_nat (length args))) in
  do& print_args 0 args in
  do& check_env in
  let& cwd := current_dir in
  do& std_println (bs "stdreal cwd: " ++ debug_path cwd) in
  let& temp := temp_dir in
  do& std_println (bs "stdreal temp_dir: " ++ str_debug temp) in
  do& check_file in
  do& check_dir in
  do& check_time in
  do& std_println (bs "stdreal HashMap sum: " ++ i32_text (values_sum sample_map)) in
  do& check_commands in
  std_println (bs "stdreal: ok").

End StdReal.

Lemma sample_sum : values_sum sample_map = 3.
Proof. reflexivity. Qed.
