(* ===== verification/CargoLike.v ===== *)
(** * The cargo-shaped test program

    [src/programs/cargolike/src/main.rs], over the class [Std]: many variables, a
    recursive walk over directories, and children whose output is captured. [fuel]
    bounds the depth of the walk and the entries of a directory; [walk_visits] says
    how much is enough, and what the walk collects, from what the library promises of
    directories ([DirLaws]). *)

From stdpp Require Import sorting.
From S2P Require Import Prelude Text UserAbi Machine StdApi.

(** [str::matches(pattern).count()]: occurrences that do not overlap; [skip] bytes of
    the last one are left. *)
Fixpoint matches_from (pattern text : bytes) (skip : nat) : Z :=
  match text with
  | [] => 0
  | _ :: rest =>
      match skip with
      | S skip => matches_from pattern rest skip
      | O => if starts_with text pattern then 1 + matches_from pattern rest (length pattern - 1)
             else matches_from pattern rest 0
      end
  end.

Definition matches_count (pattern text : bytes) : Z := matches_from pattern text 0.

(** [str::contains] *)
Fixpoint contains_text (pattern text : bytes) : bool :=
  starts_with text pattern || match text with [] => false | _ :: rest => contains_text pattern rest end.

Definition root : bytes := bs "pfs:cargolike-tree".
Definition ROUNDS : nat := 8.
Definition big_expected : Z := 200 * 33.

Section CargoLike.

Context {S : Type} `{Std S} (fuel : nat).

(** The rounds of the loop from [index]. *)
Fixpoint set_vars (rounds : nat) (index : Z) : Call S unit :=
  match rounds with
  | O => call_ret tt
  | Datatypes.S rounds =>
      let key := bs "CARGOLIKE_VAR_" ++ usize_text index in
      do& std_println (bs "cargolike: envtest setting " ++ key) in
      do& set_var key (bs "value") in
      set_vars rounds (index + 1)
  end.

Definition env_stress_test : Call S unit :=
  do& std_println (bs "cargolike: envtest -- setting env vars until it panics/aborts") in
  do& set_vars 128 0 in
  std_println (bs "cargolike: envtest FAILED -- expected a panic/abort before reaching here").

(** The loop of [walk] over the entries; [visit] walks a directory below. *)
Fixpoint walk_entries (visit : bytes -> list bytes -> Call S (list bytes)) (n : nat) (entries : ReadDir)
  (out : list bytes) : Call S (list bytes) :=
  match n with
  | O => st_ret None
  | Datatypes.S n =>
      let& r := next_entry entries in
      match snd r with
      | None => call_ret out
      | Some (inl _) => walk_entries visit n (fst r) out
      | Some (inr entry) =>
          let& kind := file_type entry in
          let& out := (match kind with
                       | inr true => visit (de_path entry) out
                       | _ => call_ret (out ++ [de_path entry])
                       end) in
          walk_entries visit n (fst r) out
      end
  end.

Fixpoint walk (n : nat) (dir : bytes) (out : list bytes) : Call S (list bytes) :=
  match n with
  | O => st_ret None
  | Datatypes.S below =>
      let& r := read_dir dir in
      match r with
      | inl _ => do& std_println (bs "cargolike: read_dir FAILED for " ++ from_utf8_lossy dir) in call_ret out
      | inr entries => walk_entries (walk below) n entries out
      end
  end.

(** [visited.sort()] *)
Definition path_before (p q : bytes) : Prop := Is_true (path_le p q).

#[local] Instance path_before_dec : RelDecision path_before.
Proof. intros p q. unfold path_before. apply _. Defined.

Fixpoint print_visited (paths : list bytes) : Call S unit :=
  match paths with
  | [] => call_ret tt
  | path :: rest => do& std_println (bs "cargolike: entry " ++ from_utf8_lossy path) in print_visited rest
  end.

Definition report_mtime : Call S unit :=
  let& r := modified (root ++ bs "/src/main.rs") in
  match r with
  | inr m =>
      if 0 <=? m
      then std_println (bs "cargolike: main.rs modified " ++ usize_text (m / 1000000000) ++ bs " s since epoch")
      else std_println (bs "cargolike: main.rs modified duration_since FAILED: second time provided was later than self")
  | inl e => say_error (bs "cargolike: main.rs metadata().modified() FAILED: ") e
  end.

Definition recursive_dir_and_mtime_test : Call S unit :=
  let& _removed := remove_dir_all root in
  let& r := create_dir_all (root ++ bs "/src/nested") in
  do& expect (bs "create_dir_all") r in
  let& r := fs_write (root ++ bs "/src/main.rs") (bs "fn main() {}" ++ nl) in
  do& expect (bs "write main.rs") r in
  let& r := fs_write (root ++ bs "/src/nested/lib.rs") (bs "pub fn f() {}" ++ nl) in
  do& expect (bs "write lib.rs") r in
  let& r := fs_write (root ++ bs "/Cargo.toml") (bs "[package]" ++ nl) in
  do& expect (bs "write Cargo.toml") r in
  let& found := walk fuel root [] in
  let visited := merge_sort path_before found in
  do& std_println (bs "cargolike: walked " ++ usize_text (Z.of_nat (length visited)) ++ bs " entries under " ++ root) in
  do& print_visited visited in
  do& report_mtime in
  let& _removed := remove_dir_all root in
  call_ret tt.

(** The rounds from [round]; how many succeeded. *)
Fixpoint spawn_rounds (rounds : nat) (round ok : Z) : Call S Z :=
  match rounds with
  | O => call_ret ok
  | Datatypes.S rounds =>
      let said := bs "cargolike: repeated_spawn round " ++ usize_text round in
      let& r := command_output (std_arg (bs "readme.txt") (StdCommand_new (bs "hello"))) in
      match r with
      | inr output =>
          if es_success (out_status output) then spawn_rounds rounds (round + 1) (ok + 1)
          else
            do& std_println (said ++ bs " bad status " ++ es_debug (out_status output)) in
            spawn_rounds rounds (round + 1) ok
      | inl e =>
          do& say_error (said ++ bs " FAILED: ") e in
          spawn_rounds rounds (round + 1) ok
      end
  end.

Definition repeated_spawn_test : Call S unit :=
  let& ok := spawn_rounds ROUNDS 0 0 in
  std_println (bs "cargolike: repeated_spawn " ++ usize_text ok ++ bs "/" ++ usize_text (Z.of_nat ROUNDS) ++
               bs " rounds succeeded").

Definition nested_spawn_test : Call S unit :=
  let& r := command_output (std_arg (bs "1") (StdCommand_new (bs "relay"))) in
  match r with
  | inr output =>
      let text := from_utf8_lossy (out_stdout output) in
      let relay_lines := matches_count (bs "relay depth=") text in
      let hello_seen := contains_text (bs "reading readme.txt") text in
      do& std_println (bs "cargolike: nested_spawn depth=1 exit=" ++ es_debug (out_status output) ++
                       bs " relay_lines=" ++ usize_text relay_lines ++ bs "/4 hello_seen=" ++ bool_text hello_seen) in
      if negb (es_success (out_status output)) || negb (relay_lines =? 4) || negb hello_seen
      then std_println (bs "cargolike: nested_spawn FAILED -- chain didn't complete/propagate correctly")
      else call_ret tt
  | inl e => say_error (bs "cargolike: nested_spawn Command FAILED: ") e
  end.

Definition big_output_capture_test : Call S unit :=
  let& r := command_output (StdCommand_new (bs "bigoutput")) in
  match r with
  | inr output =>
      let len := blen (out_stdout output) in
      do& std_println (bs "cargolike: bigoutput captured " ++ usize_text len ++ bs " bytes (expected " ++
                       usize_text big_expected ++ bs ")") in
      if len <? big_expected
      then std_println (bs "cargolike: bigoutput TRUNCATED -- pipe buffer is too small for this")
      else call_ret tt
  | inl e => say_error (bs "cargolike: bigoutput Command FAILED: ") e
  end.

Definition main : Call S unit :=
  do& std_println (bs "cargolike: cargo-shaped smoke test") in
  let& args := env_args in
  if match args !! 1%nat with Some a => bytes_eq a (bs "envtest") | None => false end then env_stress_test
  else
    do& recursive_dir_and_mtime_test in
    do& repeated_spawn_test in
    do& nested_spawn_test in
    do& big_output_capture_test in
    std_println (bs "cargolike: ok (run `cargolike envtest` separately for the env-count check)").

End CargoLike.

(** ** What the walk collects *)

(** A directory tree: a file, or the names of a directory in the order it lists them. *)
Inductive tree : Type := file | node (children : list (bytes * tree)).

(** The paths of the files of a tree at [path], in the order of the walk. *)
Fixpoint files_at (join : bytes -> bytes -> bytes) (path : bytes) (t : tree) : list bytes :=
  match t with
  | file => [path]
  | node children => concat (map (fun c => files_at join (join path (fst c)) (snd c)) children)
  end.

(** Rounds the walk of a tree needs: more than its depth and than any of its directories has names. *)
Fixpoint rounds_of (t : tree) : nat :=
  match t with
  | file => 0
  | node children => S (Nat.max (length children) (fold_right Nat.max 0%nat (map (fun c => rounds_of (snd c)) children)))
  end.

Definition is_node (t : tree) : bool := match t with node _ => true | file => false end.

(** Nothing of the file system is touched: every tree stays, and so does what a
    directory being read has left. *)
Definition keeps_dirs {S R} (shows : S -> bytes -> tree -> Prop)
  (lists : S -> R -> bytes -> list (bytes * tree) -> Prop) (s s' : S) : Prop :=
  (forall path t, shows s path t -> shows s' path t) /\ (forall r dir l, lists s r dir l -> lists s' r dir l).

(** What the library promises of directories nobody changes: [shows s path t], the tree
    at [path]; [lists s r dir l], the names [r] has not yet given. *)
Class DirLaws {S : Type} `{Std S} (join : bytes -> bytes -> bytes) (shows : S -> bytes -> tree -> Prop)
  (lists : S -> ReadDir -> bytes -> list (bytes * tree) -> Prop) : Prop := {
  dl_child : forall s dir children name t,
    shows s dir (node children) -> (name, t) ∈ children -> shows s (join dir name) t;
  dl_read_dir : forall s dir children, shows s dir (node children) ->
    exists r s', answers (read_dir dir) s (inr r) s' /\ keeps_dirs shows lists s s' /\ lists s' r dir children;
  dl_next : forall s r dir name t rest, lists s r dir ((name, t) :: rest) ->
    exists r' s', answers (next_entry r) s (r', Some (inr (mkDirEntry name (join dir name)))) s' /\
      keeps_dirs shows lists s s' /\ lists s' r' dir rest;
  dl_end : forall s r dir, lists s r dir [] ->
    exists r' s', answers (next_entry r) s (r', None) s' /\ keeps_dirs shows lists s s';
  dl_file_type : forall s name path t, shows s path t ->
    exists s', answers (file_type (mkDirEntry name path)) s (inr (is_node t)) s' /\ keeps_dirs shows lists s s'
}.

Lemma le_max_of l (x : nat) : x ∈ l -> (x <= fold_right Nat.max 0 l)%nat.
Proof. induction 1; simpl; lia. Qed.

Lemma rounds_of_child children name t : (name, t) ∈ children -> (rounds_of t < rounds_of (node children))%nat.
Proof.
  intros Hin%list_elem_of_In%(in_map (fun c => rounds_of (snd c)))%list_elem_of_In%le_max_of. simpl in *. lia.
Qed.

Section Walk.

Context {S : Type} `{Std S} {join : bytes -> bytes -> bytes} {shows : S -> bytes -> tree -> Prop}
  {lists : S -> ReadDir -> bytes -> list (bytes * tree) -> Prop} `{!DirLaws join shows lists}.

Local Notation keeps := (keeps_dirs shows lists).

Lemma keeps_dirs_trans s1 s2 s3 : keeps s1 s2 -> keeps s2 s3 -> keeps s1 s3.
Proof. intros [Ha Hb] [Hc Hd]. split; eauto. Qed.

(** The loop, once a walk of each directory below has been shown to collect its files. *)
Lemma walk_entries_visits visit dir children : forall n s r out,
  (forall name below s out, (name, node below) ∈ children -> shows s (join dir name) (node below) ->
    exists s', answers (visit (join dir name) out) s (out ++ files_at join (join dir name) (node below)) s' /\ keeps s s') ->
  (length children < n)%nat -> lists s r dir children ->
  (forall name t, (name, t) ∈ children -> shows s (join dir name) t) ->
  exists s', answers (walk_entries visit n r out) s (out ++ files_at join dir (node children)) s' /\ keeps s s'.
Proof.
  induction children as [|[name t] rest IH]; intros n s r out Hvisit Hn Hl Hc; (destruct n as [|n]; [simpl in Hn; lia|]).
  - destruct (dl_end _ _ _ Hl) as (r' & s' & Ha & Hk). exists s'. split; [|done].
    simpl. rewrite app_nil_r. by apply answers_bind; exists (r', None), s'.
  - destruct (dl_next _ _ _ _ _ _ Hl) as (r' & s1 & Ha & Hk1 & Hl1).
    pose proof (proj1 Hk1 _ _ (Hc name t ltac:(left))) as Ht1.
    destruct (dl_file_type s1 name _ t Ht1) as (s2 & Hty & Hk2).
    assert (exists s3, answers (match is_node t with true => visit (join dir name) out | false => call_ret (out ++ [join dir name]) end)
      s2 (out ++ files_at join (join dir name) t) s3 /\ keeps s2 s3) as (s3 & Hv & Hk3).
    { destruct t as [|below]; simpl.
      - exists s2. by split; [apply answers_ret|].
      - apply Hvisit; [left|]. by apply Hk2. }
    destruct (IH n s3 r' (out ++ files_at join (join dir name) t)) as (s4 & Hw & Hk4).
    { intros. apply Hvisit; [by right|done]. } { simpl in Hn; lia. } { by apply Hk3, Hk2. }
    { intros name' t' Hin. apply Hk3, Hk2, Hk1, Hc. by right. }
    exists s4. split; [|by repeat (eapply keeps_dirs_trans; [eassumption|])].
    simpl. apply answers_bind. exists (r', Some (inr (mkDirEntry name (join dir name)))), s1. split; [done|]. simpl.
    apply answers_bind. exists (inr (is_node t)), s2. split; [done|].
    apply answers_bind. exists (out ++ files_at join (join dir name) t), s3. split; [by destruct (is_node t)|].
    by rewrite app_assoc.
Qed.

(** The walk of a directory adds the files below it, each once and in order, and touches
    nothing; with as many rounds as the tree needs it ends. *)
Lemma walk_visits n : forall s dir children out,
  (rounds_of (node children) <= n)%nat -> shows s dir (node children) ->
  exists s', answers (walk n dir out) s (out ++ files_at join dir (node children)) s' /\ keeps s s'.
Proof.
  induction n as [|n IH]; intros s dir children out Hn Hs; [simpl in Hn; lia|].
  destruct (dl_read_dir _ _ _ Hs) as (r & s1 & Ha & Hk & Hl).
  destruct (walk_entries_visits (walk n) dir children (Datatypes.S n) s1 r out) as (s2 & Hw & Hk2).
  - intros name below s' out' Hin Hb. apply IH; [|done]. pose proof (rounds_of_child _ _ _ Hin). lia.
  - simpl in Hn. lia.
  - done.
  - intros name t Hin. apply Hk. by eapply dl_child.
  - exists s2. split; [|by eapply keeps_dirs_trans].
    simpl. apply answers_bind. by exists (inr r), s1.
Qed.

End Walk.

(** ** A library with one tree *)

Module OneTree.

Definition join (dir name : bytes) : bytes := dir ++ bs "/" ++ name.

(** The tree of the test once its files are written. *)
Definition nested : tree := node [(bs "lib.rs", file)].
Definition src : tree := node [(bs "nested", nested); (bs "main.rs", file)].
Definition whole : tree := node [(bs "src", src); (bs "Cargo.toml", file)].

(** Every directory and file with its path. *)
Definition paths : list (bytes * tree) :=
  [(root, whole); (join root (bs "src"), src); (join root (bs "Cargo.toml"), file);
   (join (join root (bs "src")) (bs "nested"), nested); (join (join root (bs "src")) (bs "main.rs"), file);
   (join (join (join root (bs "src")) (bs "nested")) (bs "lib.rs"), file)].


Fixpoint tree_in (l : list (bytes * tree)) (path : bytes) : option tree :=
  match l with
  | [] => None
  | (p, t) :: l => if bytes_eq p path then Some t else tree_in l path
  end.

Definition not_found : IoError := mkIoError (bs "entity not found") (bs "Kind(NotFound)").

Definition fails {A} : Call unit (Result A) := call_ret (inl not_found).

(** Only directories can be read; the rest of the library has nothing. *)
#[local] Instance library : Std unit := {|
  std_print _ := call_ret tt; std_panic _ _ := call_ret tt; process_id := call_ret 1; env_args := call_ret [];
  set_var _ _ := call_ret tt; remove_var _ := call_ret tt; env_var _ := call_ret (inl NotPresent);
  env_vars := call_ret []; current_dir := fails; temp_dir := call_ret []; fs_write _ _ := fails;
  read_to_string _ := fails; fs_exists _ := fails; create_dir _ := fails; create_dir_all _ := fails;
  remove_file _ := fails; remove_dir _ := fails; remove_dir_all _ := fails; modified _ := fails;
  ReadDir := bytes * list (bytes * tree);
  read_dir dir := match tree_in paths dir with Some (node children) => call_ret (inr (dir, children)) | _ => fails end;
  next_entry r :=
    match snd r with
    | [] => call_ret (r, None)
    | (name, _) :: rest => call_ret ((fst r, rest), Some (inr (mkDirEntry name (join (fst r) name))))
    end;
  file_type e := match tree_in paths (de_path e) with Some t => call_ret (inr (is_node t)) | None => fails end;
  instant_now := call_ret 0; system_now := call_ret 0; thread_sleep _ := call_ret tt;
  command_output _ := fails; command_status _ := fails;
  str_debug l := l; duration_debug _ := []; from_utf8_lossy l := l; path_le _ _ := true
|}.

Definition shows (_ : unit) (path : bytes) (t : tree) : Prop := tree_in paths path = Some t.
Definition lists (_ : unit) (r : ReadDir) (dir : bytes) (l : list (bytes * tree)) : Prop := r = (dir, l).

Lemma tree_in_elem l path t : tree_in l path = Some t -> (path, t) ∈ l.
Proof.
  induction l as [|[p u] l IH]; simpl; [done|]. destruct (bytes_eq p path) eqn:E; [|by right; apply IH].
  apply bytes_eq_spec in E. intros [= ->]. subst. left.
Qed.

(** The names of a directory are there. *)
Lemma children_there : Forall (fun c => match snd c with
  | file => True
  | node children => Forall (fun d => tree_in paths (join (fst c) (fst d)) = Some (snd d)) children
  end) paths.
Proof. repeat first [apply Forall_cons_2|apply Forall_nil_2|exact I|reflexivity]. Qed.

Lemma kept (s s' : unit) : keeps_dirs shows lists s s'.
Proof. by destruct s, s'. Qed.

Lemma one_tree_laws : DirLaws join shows lists.
Proof.
  split.
  - intros s dir children name t Hd Hin. apply tree_in_elem in Hd.
    pose proof (proj1 (Forall_forall _ _) children_there _ Hd) as Hc. simpl in Hc.
    exact (proj1 (Forall_forall _ _) Hc _ Hin).
  - intros s dir children Hd. exists (dir, children), s. unfold answers, shows in *. cbn -[tree_in paths].
    rewrite Hd. split_and!; [done|apply kept|done].
  - intros s r dir name t rest ->. exists (dir, rest), s. split_and!; [done|apply kept|done].
  - intros s r dir ->. exists (dir, []), s. split_and!; [done|apply kept].
  - intros s name path t Hd. exists s. unfold answers, shows in *. cbn -[tree_in paths]. rewrite Hd. split; [done|apply kept].
Qed.

(** Three rounds are one too few; four find the three files. *)
Example walks_the_tree :
  walk 3 root [] tt = (tt, None) /\
  walk 4 root [] tt = (tt, Some [root ++ bs "/src/nested/lib.rs"; root ++ bs "/src/main.rs"; root ++ bs "/Cargo.toml"]).
Proof. split; vm_compute; reflexivity. Qed.

Lemma walk_visits_witness : exists s', answers (walk 4 root []) tt ([] ++ files_at join root whole) s' /\
  keeps_dirs shows lists tt s'.
Proof. apply (walk_visits (DirLaws0 := one_tree_laws) 4 tt root _ []); [vm_compute; lia|reflexivity]. Defined.

End OneTree.
