(* ===== verification/Shell.v ===== *)
(** * The kernel shell

    [run_command], [shell_loop], [run_script], [process_config_sys] and [_start] of
    [src/kernel/src/main.rs]: the command interpreter over the console, the RAM file
    system, the boot image, the disk and the kernel's tables. No answer ([None]) is
    a machine that has halted or faulted. What programs left running in the
    background do meanwhile is part of [others] only while the shell waits for a
    program. *)

From S2P Require Import Prelude Constants Text Device Hw Console BootFs RamFs Phys Paging Process Env Fd.
From S2P Require Import Abi AbiFs AbiProc Elf Spawn UserAbi KernelAbi PfsCmd Interrupt System.


(** What the shell works on: [console] and [fs] of [_start], and the rest. *)
Record Shell (D : Type) : Type := mkShell {
  sh_console : Console;
  sh_fs : RamFs;
  NEXT_SCRATCH_VIRT : Z;
  sh_sys : Sys D
}.

Arguments mkShell {D}.
Arguments sh_console {D}.
Arguments sh_fs {D}.
Arguments NEXT_SCRATCH_VIRT {D}.
Arguments sh_sys {D}.

(** The first arm that lists the command; a chain of [else if eq(cmd, ..)]. *)
Fixpoint choose {A} (cmd : bytes) (arms : list (list string * A)) (otherwise : A) : A :=
  match arms with
  | [] => otherwise
  | (names, arm) :: rest =>
      if existsb (fun name => bytes_eq cmd (bs name)) names then arm else choose cmd rest otherwise
  end.

Section Shell.

Context {D : Type} `{SectorDev D} `{Ports D} (clk : Clock) (process_trampoline : Z).
Context (others : ST (Sys D) unit) (fuel : nat).
Context (memory_map : option (list EfiMemoryDescriptor)) (TIMER_TICKS : Z) (bootfs : BootFs).

(** ** Lifting *)

Definition on_console (f : Console -> Console) : Call (Shell D) unit := fun s =>
  ({| s with sh_console := f (sh_console s) |}, Some tt).

Definition on_fs (f : RamFs * Console -> RamFs * Console) : Call (Shell D) unit := fun s =>
  let '(fs, c) := f (sh_fs s, sh_console s) in
  ({| s with sh_fs := fs; sh_console := c |}, Some tt).

Definition on_sys (f : Console -> ST (Sys D) Console) : Call (Shell D) unit := fun s =>
  let '(y, c) := f (sh_console s) (sh_sys s) in
  ({| s with sh_sys := y; sh_console := c |}, Some tt).

Definition on_pfs (f : Console -> ST D Console) : Call (Shell D) unit := on_sys (fun c => on_disk (f c)).

Definition on_vm (f : Console -> ST Vm Console) : Call (Shell D) unit :=
  on_sys (fun c => on_kern (fun k => let '(v, c) := f c (vm k) in ({| k with vm := v |}, c))).

(** ** Commands *)

Definition help_lines : list string := [
  "commands:";
  "  help                 show commands";
  "  clear                clear screen";
  "  about                kernel summary";
  "  mem                  memory summary";
  "  pagealloc            allocate one physical page";
  "  paging               inspect active page tables";
  "  vmclone              clone active PML4 and switch CR3";
  "  ptalloc              allocate zeroed page-table page";
  "  maptest              map and verify a scratch page";
  "  video                show active video mode";
  "  df                   filesystem usage";
  "  fsformat             format persistent RYMFS disk";
  "  pls                  list persistent files";
  "  pread <file>         read persistent file";
  "  pwrite <file> <txt>  write persistent file";
  "  pdelete <file>       delete persistent file";
  "  pmkdir <dir>         create persistent directory";
  "  bootls               list boot filesystem";
  "  bootcat <file>       read boot filesystem file";
  "  run <program>        run bootfs Rust program";
  "  ps                   list processes";
  "  wait <pid>           show process exit status";
  "  drivers              list kernel drivers";
  "  dev                  list pseudo devices";
  "  pci                  scan PCI config space";
  "  pwd                  print working directory";
  "  ls|list              list ramfs entries";
  "  cat|read <file>      print file";
  "  touch <file>         create empty file";
  "  write <file> <text>  replace file";
  "  append <file> <txt>  append to file";
  "  echo|print <text>    print text";
  "  cp|copy <src> <dst>  copy file";
  "  mv|move <src> <dst>  move file";
  "  rm|delete <file>     remove file";
  "  mkdir <name>         create ramfs directory entry";
  "  rmdir <name>         remove empty directory entry";
  "  cd|goto [/]          show/change current dir";
  "  reboot               reset via keyboard controller";
  "  halt                 stop the CPU"]%string.

Definition about_lines : list string := [
  "RYMOS: Rust toy OS kernel";
  "boot: UEFI loader from FAT32";
  "kernel: freestanding x86_64 ELF";
  "shell: in-kernel RAMFS shell"]%string.

(** A command that takes a name. *)
Definition named_command (rest : bytes) (usage : string) (k : bytes -> Call (Shell D) unit)
  : Call (Shell D) unit :=
  let name := fst (split_word rest) in
  if bytes_eq name [] then on_console (say_line usage) else k name.

(** A command that takes a name and a text. *)
Definition text_command (rest : bytes) (usage : string) (k : bytes -> bytes -> Call (Shell D) unit)
  : Call (Shell D) unit :=
  let '(name, text) := split_word rest in
  if bytes_eq name [] || bytes_eq text [] then on_console (say_line usage) else k name text.

(** A command that takes two names. *)
Definition pair_command (rest : bytes) (usage : string) (k : bytes -> bytes -> Call (Shell D) unit)
  : Call (Shell D) unit :=
  let '(src, rest) := split_word rest in
  let dst := fst (split_word rest) in
  if bytes_eq src [] || bytes_eq dst [] then on_console (say_line usage) else k src dst.

Definition maptest : Call (Shell D) unit := fun s =>
  let y := sh_sys s in
  let k := sys_kern y in
  let '(v, (next, r)) := maptest_command (NEXT_SCRATCH_VIRT s) (sh_console s) (vm k) in
  let k := {| k with vm := v |} in
  let y := {| y with sys_kern := k |} in
  let s := {| s with NEXT_SCRATCH_VIRT := next; sh_sys := y |} in
  match r with
  | None => (s, None)
  | Some c => ({| s with sh_console := c |}, Some tt)
  end.

Definition run (name args : bytes) : Call (Shell D) unit := fun s =>
  match run_program process_trampoline others fuel bootfs name args (sh_console s) (sh_sys s) with
  | (y, None) => ({| s with sh_sys := y |}, None)
  | (y, Some c) => ({| s with sh_sys := y; sh_console := c |}, Some tt)
  end.

Definition reboot : Call (Shell D) unit :=
  do& on_console (say_line "rebooting...") in
  on_pfs (fun c => do! outb KEYBOARD_STATUS 0xFE in st_ret c).

Definition halt : Call (Shell D) unit := do& on_console (say_line "halted") in st_ret None.

Definition commands (rest : bytes) : list (list string * Call (Shell D) unit) := [
  (["help"%string], on_console (say_lines help_lines));
  (["clear"%string], on_console clear);
  (["about"%string], on_console (say_lines about_lines));
  (["mem"%string], on_sys (fun c y =>
     (y, memory_summary memory_map TIMER_TICKS (PHYS_ALLOCATOR (vm (sys_kern y))) c)));
  (["pagealloc"%string], on_vm pagealloc_command);
  (["paging"%string], on_sys (fun c y => (y, paging_summary (vm (sys_kern y)) c)));
  (["vmclone"%string], on_vm vmclone_command);
  (["ptalloc"%string], on_vm ptalloc_command);
  (["maptest"%string], maptest);
  (["video"%string], on_console video_info);
  (["df"%string],
     do& on_fs (fun '(fs, c) => (fs, ram_df fs bootfs c)) in
     on_pfs pfs_df);
  (["fsformat"%string], on_pfs pfs_format);
  (["pls"%string], on_pfs pfs_ls);
  (["pread"%string], named_command rest "usage: pread <file>" (fun name => on_pfs (pfs_read name)));
  (["pwrite"%string], text_command rest "usage: pwrite <file> <text>" (fun name text =>
     on_pfs (pfs_write clk name text)));
  (["pdelete"%string], named_command rest "usage: pdelete <file>" (fun name => on_pfs (pfs_delete name)));
  (["pmkdir"%string], named_command rest "usage: pmkdir <dir>" (fun name => on_pfs (pfs_mkdir clk name)));
  (["bootls"%string], on_console (bootfs_ls bootfs));
  (["bootcat"%string], named_command rest "usage: bootcat <file>" (fun name =>
     on_console (bootfs_cat bootfs name)));
  (["run"%string],
     let '(name, args) := split_word rest in
     if bytes_eq name [] then on_console (say_line "usage: run <program>") else run name args);
  (["ps"%string], on_sys (fun c y => (y, process_list (sys_kern y) c)));
  (["wait"%string], named_command rest "usage: wait <pid>" (fun pid =>
     on_sys (fun c => on_kern (process_wait pid c))));
  (["drivers"%string], on_console show_drivers);
  (["dev"%string], on_console show_devices);
  (["pci"%string], on_pfs pci_scan);
  (["pwd"%string], on_console (say_line "/"));
  (["ls"%string; "list"%string], on_fs (fun '(fs, c) => (fs, ram_ls fs c)));
  (["cat"%string; "read"%string], named_command rest "usage: read <file>" (fun name =>
     on_fs (fun '(fs, c) => (fs, ram_cat fs name c))));
  (["touch"%string], named_command rest "usage: touch <file>" (fun name => on_fs (ram_touch name false)));
  (["write"%string], text_command rest "usage: write <file> <text>" (fun name text =>
     on_fs (ram_write name text)));
  (["append"%string], text_command rest "usage: append <file> <text>" (fun name text =>
     on_fs (ram_append name text)));
  (["echo"%string; "print"%string], on_console (fun c => new_line (write_bytes rest c)));
  (["cp"%string; "copy"%string], pair_command rest "usage: copy <src> <dst>" (fun src dst =>
     on_fs (ram_copy src dst)));
  (["mv"%string; "move"%string], pair_command rest "usage: move <src> <dst>" (fun src dst =>
     on_fs (move_entry src dst)));
  (["rm"%string; "delete"%string], named_command rest "usage: delete <file>" (fun name =>
     on_fs (ram_remove name false)));
  (["mkdir"%string], named_command rest "usage: mkdir <name>" (fun name => on_fs (ram_touch name true)));
  (["rmdir"%string], named_command rest "usage: rmdir <name>" (fun name => on_fs (ram_remove name true)));
  (["cd"%string; "goto"%string],
     if bytes_eq rest [] || bytes_eq rest (bs "/") then on_console (say_line "/")
     else on_console (say_line "only / exists in ramfs shell"));
  (["reboot"%string], reboot);
  (["halt"%string], halt)].

Definition run_command (input : bytes) : Call (Shell D) unit :=
  let input := trim input in
  if bytes_eq input [] then call_ret tt
  else
    let '(cmd, rest) := split_word input in
    choose cmd (commands rest)
      (on_console (fun c => new_line (write_bytes cmd (say "unknown command: " c)))).

(** ** The prompt *)

Definition prompt : Call (Shell D) unit := on_console (say "rymos:/ $ ").

(** [byte.is_ascii_graphic() || byte == b' '] *)
Definition is_typed (byte : Z) : bool := ((33 <=? byte) && (byte <=? 126)) || (byte =? ch " ").

(** One byte of input; [line] is [input[..len]]. *)
Definition shell_key (byte : Z) (line : bytes) : Call (Shell D) bytes :=
  if (byte =? 13) || (byte =? 10) then
    do& on_console new_line in
    do& run_command line in
    do& prompt in
    call_ret []
  else if (byte =? 8) || (byte =? 127) then
    if 0 <? blen line then do& on_console backspace in call_ret (removelast line) else call_ret line
  else if is_typed byte then
    if blen line + 1 <? INPUT_MAX then do& on_console (write_byte byte) in call_ret (line ++ [byte])
    else call_ret line
  else call_ret line.

(** The loop over the bytes that have arrived; the answer is the line begun. *)
Fixpoint shell_keys (keys line : bytes) : Call (Shell D) bytes :=
  match keys with
  | [] => call_ret line
  | byte :: rest => let& line := shell_key byte line in shell_keys rest line
  end.

Definition shell_loop (keys : bytes) : Call (Shell D) bytes := do& prompt in shell_keys keys [].

(** ** Start-up *)

Definition process_config_sys : Call (Shell D) unit :=
  on_console (match find_data bootfs (bs "config.sys") with
              | Some _ => say_line "config.sys loaded"
              | None => say_line "config.sys missing"
              end).

(** A line without the [\r] at its end. *)
Definition strip_cr (line : bytes) : bytes :=
  if ends_with line [13] then take (length line - 1) line else line.

(** [line] is the line begun. *)
Fixpoint script_from (data line : bytes) : Call (Shell D) unit :=
  let run_line :=
    (let line := trim (strip_cr line) in
     if negb (bytes_eq line []) && negb (starts_with line (bs "rem")) then run_command line
     else call_ret tt) in
  match data with
  | [] => run_line
  | b :: rest =>
      if b =? 10 then do& run_line in script_from rest [] else script_from rest (line ++ [b])
  end.

Definition run_script (name : bytes) : Call (Shell D) unit :=
  match find_data bootfs name with
  | None => call_ret tt
  | Some data =>
      do& on_console (fun c => new_line (write_bytes name (say "running " c))) in
      script_from data []
  end.

Definition boot_lines : list string := [
  "RYMOS minimal Rust kernel";
  "_start reached";
  "kernel shell online";
  ""]%string.

(** [_start] after the hardware has been set up. *)
Definition start_shell (keys : bytes) : Call (Shell D) bytes :=
  do& on_console clear in
  do& on_console (say_lines boot_lines) in
  do& on_fs (fun '(fs, c) => (ram_seed fs, c)) in
  do& process_config_sys in
  do& run_script (bs "autoexec.bat") in
  shell_loop keys.

End Shell.

(** ** The machine at [_start] *)

Section Start.

Context {D : Type} `{SectorDev D} `{Ports D} (process_trampoline : Z).

(** The clock: [TSC_HZ], then the real-time clock, then [BOOT_TSC]. The
    calibration polls the timer; [polls] bounds each wait. *)
Definition boot_clock (polls : positive) : Call D Clock :=
  let& hz := calibrate_tsc polls in
  let* unix_seconds := read_rtc_unix_seconds in
  let* tsc := rdtsc in
  call_ret (mkClock hz tsc (Z.min (unix_seconds * 1000000000) 18446744073709551615)).

(** Memory, tables and console before the first instruction of the shell. *)
Definition boot_state (info : option FbInfo) (memory_map : option (list EfiMemoryDescriptor))
    (mem : arr) (cr3 : Z) (d : D) : Shell D :=
  let v := mkVm (init_physical_allocator memory_map) mem 0 cr3 in
  mkShell (Console_new info) RamFs_new KERNEL_SCRATCH_BASE
    (mkSys (Kernel_new v) fds_empty bootfs_empty None [] d).

Definition start (others : ST (Sys D) unit) (fuel : nat) (polls : positive) (ticks : Z)
    (info : option FbInfo) (memory_map : option (list EfiMemoryDescriptor)) (bootfs : BootFs)
    (mem : arr) (cr3 : Z) (keys : bytes) : Call D (Shell D * bytes) := fun d =>
  match boot_clock polls d with
  | (d, None) => (d, None)
  | (d, Some clk) =>
      let s := boot_state info memory_map mem cr3 d in
      match start_shell clk process_trampoline others fuel memory_map ticks bootfs keys s with
      | (s, None) => (sys_disk (sh_sys s), None)
      | (s, Some line) => (sys_disk (sh_sys s), Some (s, line))
      end
  end.

End Start.
