(* ===== verification/Boot.v ===== *)
(** * The boot loader

    [src/bootloader/src/main.rs]: reading the kernel and the boot image from the
    FAT volume, loading the kernel's segments at their physical addresses, choosing
    a graphics mode, taking the memory map and leaving the firmware. The firmware
    is not part of the repository: [Firmware] is its interface, with what the loader
    reads of the firmware's structures; what the UEFI specification says of it is
    [FirmwareLaws] of BootThm.v. The structs [Elf64Header] and [Elf64ProgramHeader]
    have the layout of the kernel's, see Elf.v. *)

From S2P Require Import Prelude Constants Text Hw Console BootFs Phys Elf.

Definition EFI_SUCCESS : Z := 0.
Definition EFI_LOAD_ERROR : Z := 1.
Definition EFI_NOT_FOUND : Z := 14.
Definition EFI_FILE_MODE_READ : Z := 0x1.
Definition EFI_ALLOCATE_ADDRESS : Z := 0.
Definition EFI_LOADER_DATA : Z := 2.
Definition EFI_RUNTIME_SERVICES_DATA : Z := 6.
Definition KERNEL_READ_LIMIT : Z := 1024 * 1024.
Definition INITRD_READ_LIMIT : Z := 32 * 1024 * 1024.

(** UTF-16 text of ASCII characters, with the final zero. *)
Definition KERNEL_PATH : list Z := ch "\" :: bs "KERNEL.ELF" ++ [0].
Definition INITRD_PATH : list Z := ch "\" :: bs "INITRD.RFS" ++ [0].

(** The array of [n] units; the rest of it is zero. *)
Definition ascii_to_uefi (n : nat) (input : bytes) : list Z := input ++ repeat 0 (n - length input).

Definition crlf : bytes := [13; 10].
Definition SERIAL_BOOT_MESSAGE : bytes := bs "RYMOS bootloader: loading KERNEL.ELF from FAT32..." ++ crlf.
Definition SERIAL_JUMP_MESSAGE : bytes := bs "RYMOS bootloader: jumping to kernel" ++ crlf.
Definition SERIAL_ERROR_MESSAGE : bytes := bs "RYMOS bootloader: load failed" ++ crlf.
Definition BOOT_MESSAGE : list Z := ascii_to_uefi 59 SERIAL_BOOT_MESSAGE.
Definition JUMP_MESSAGE : list Z := ascii_to_uefi 39 SERIAL_JUMP_MESSAGE.
Definition ERROR_MESSAGE : list Z := ascii_to_uefi 34 SERIAL_ERROR_MESSAGE.

Record EfiGuid : Type := mkGuid { data1 : Z; data2 : Z; data3 : Z; data4 : bytes }.

#[export] Instance EfiGuid_eq_dec : EqDecision EfiGuid.
Proof. solve_decision. Defined.

Definition LOADED_IMAGE_PROTOCOL_GUID : EfiGuid :=
  mkGuid 0x5B1B31A1 0x9562 0x11D2 [0x8E; 0x3F; 0x00; 0xA0; 0xC9; 0x69; 0x72; 0x3B].
Definition SIMPLE_FILE_SYSTEM_PROTOCOL_GUID : EfiGuid :=
  mkGuid 0x0964E5B22 0x6459 0x11D2 [0x8E; 0x39; 0x00; 0xA0; 0xC9; 0x69; 0x72; 0x3B].
Definition GRAPHICS_OUTPUT_PROTOCOL_GUID : EfiGuid :=
  mkGuid 0x9042A9DE 0x23DC 0x4A38 [0x96; 0xFB; 0x7A; 0xDE; 0xD0; 0x80; 0x51; 0x6A].

(** ** Structures *)

(** The pointers of the system table the loader follows; 0 is null. *)
Record EfiSystemTable : Type := mkSystemTable { con_out : Z; boot_services : Z }.

Record EfiGraphicsOutputProtocolMode : Type := mkGopMode {
  max_mode : Z; gop_info : Z; gop_framebuffer_base : Z; gop_framebuffer_size : Z
}.

Record EfiGraphicsOutputModeInformation : Type := mkModeInfo {
  mi_horizontal_resolution : Z; mi_vertical_resolution : Z; mi_pixel_format : Z;
  mi_pixels_per_scan_line : Z
}.

Record BootInfo : Type := mkBootInfo {
  framebuffer_base : Z;
  framebuffer_size : Z;
  horizontal_resolution : Z;
  vertical_resolution : Z;
  pixels_per_scan_line : Z;
  pixel_format : Z;
  initrd_base : Z;
  initrd_size : Z;
  memory_map_base : Z;
  memory_map_size : Z;
  memory_descriptor_size : Z
}.

Definition empty_boot_info : BootInfo := mkBootInfo 0 0 0 0 0 0 0 0 0 0 0.

(** What [get_memory_map] stores through its pointers. *)
Record MapAnswer : Type := mkMapAnswer { ma_size : Z; ma_key : Z; ma_descriptor_size : Z }.

(** ** The firmware *)

(** The services on a machine [M]; a service that stores through a pointer answers
    the stored value with its status. *)
Class Firmware (M : Type) : Type := {
  output_string : Z -> list Z -> ST M Z;
  handle_protocol : Z -> EfiGuid -> ST M (Z * Z);
  open_volume : Z -> ST M (Z * Z);
  file_open : Z -> list Z -> Z -> ST M (Z * Z);
  file_read : Z -> Z -> Z -> ST M (Z * Z);
  file_close : Z -> ST M unit;
  allocate_pool : Z -> Z -> ST M (Z * Z);
  allocate_pages : Z -> Z -> Z -> Z -> ST M Z;
  get_memory_map : Z -> Z -> ST M (Z * MapAnswer);
  exit_services : Z -> Z -> ST M Z;
  locate_protocol : EfiGuid -> ST M (Z * Z);
  query_mode : Z -> Z -> ST M (Z * Z);
  set_mode : Z -> Z -> ST M Z;
  (** structures of the firmware *)
  device_handle : M -> Z -> Z;
  gop_mode : M -> Z -> Z;
  mode_at : M -> Z -> EfiGraphicsOutputProtocolMode;
  mode_info_at : M -> Z -> EfiGraphicsOutputModeInformation;
  (** physical memory, one byte per address *)
  fw_mem : M -> arr;
  fw_store : Z -> Z -> ST M unit;
  (** what the services are about: memory given to the loader; the volume that the
      loader with the image handle was loaded from, as the handle of its root directory,
      its files and its directories by path; what an open file has left to read; and the
      current memory map *)
  fw_owned : M -> Z -> Prop;
  fw_root : M -> Z -> Z -> Prop;
  fw_file : M -> Z -> list Z -> option bytes;
  fw_dir : M -> Z -> list Z -> Prop;
  fw_opened : M -> Z -> bytes -> Prop;
  fw_key : M -> Z;
  fw_map : M -> bytes;
  fw_descriptor_size : M -> Z
}.

Section Boot.

Context {M : Type} `{Firmware M} `{Ports M}.

(** ** The serial line and the text console *)

Definition COM1 : Z := 0x3F8.

Definition serial_init : ST M unit :=
  do! outb (COM1 + 1) 0x00 in
  do! outb (COM1 + 3) 0x80 in
  do! outb COM1 0x03 in
  do! outb (COM1 + 1) 0x00 in
  do! outb (COM1 + 3) 0x03 in
  do! outb (COM1 + 2) 0xC7 in
  outb (COM1 + 4) 0x0B.

Fixpoint serial_write (text : bytes) : ST M unit :=
  match text with
  | [] => st_ret tt
  | byte :: rest => do! outb COM1 byte in serial_write rest
  end.

(** [None] is the null pointer. *)
Definition write_uefi (system_table : option EfiSystemTable) (message : list Z) : ST M unit :=
  match system_table with
  | None => st_ret tt
  | Some t =>
      if con_out t =? 0 then st_ret tt else do! output_string (con_out t) message in st_ret tt
  end.

(** ** Files *)

Record FileBuffer : Type := mkFileBuffer { fb_status : Z; fb_ptr : Z; fb_len : Z }.

Definition no_file (status : Z) : FileBuffer := mkFileBuffer status 0 0.

Definition look {A} (f : M -> A) : ST M A := fun m => (m, f m).

Definition read_file (image : Z) (path : list Z) (read_limit : Z) : ST M FileBuffer :=
  let* r := handle_protocol image LOADED_IMAGE_PROTOCOL_GUID in
  if negb (fst r =? EFI_SUCCESS) then st_ret (no_file (fst r))
  else
    let loaded_image := snd r in
    let* device := look (fun m => device_handle m loaded_image) in
    let* r := handle_protocol device SIMPLE_FILE_SYSTEM_PROTOCOL_GUID in
    if negb (fst r =? EFI_SUCCESS) then st_ret (no_file (fst r))
    else
      let* r := open_volume (snd r) in
      if negb (fst r =? EFI_SUCCESS) then st_ret (no_file (fst r))
      else
        let root := snd r in
        let* r := file_open root path EFI_FILE_MODE_READ in
        if negb (fst r =? EFI_SUCCESS) then st_ret (no_file (fst r))
        else
          let file := snd r in
          let* r := allocate_pool EFI_LOADER_DATA read_limit in
          if negb (fst r =? EFI_SUCCESS) then st_ret (no_file (fst r))
          else
            let buffer := snd r in
            let* r := file_read file read_limit buffer in
            let '(status, size) := r in
            do! file_close file in
            do! file_close root in
            st_ret (mkFileBuffer (if size =? 0 then EFI_NOT_FOUND else status) buffer size).

(** ** The kernel image *)

Fixpoint zero_bytes (n : nat) (destination : Z) : ST M unit :=
  match n with
  | O => st_ret tt
  | S n => do! fw_store destination 0 in zero_bytes n (destination + 1)
  end.

(** [copy_nonoverlapping(source, destination, n)] *)
Fixpoint copy_nonoverlapping (n : nat) (source destination : Z) : ST M unit :=
  match n with
  | O => st_ret tt
  | S n =>
      let* b := look (fun m => fw_mem m source) in
      do! fw_store destination b in
      copy_nonoverlapping n (source + 1) (destination + 1)
  end.

(** The memory behind a pointer. *)
Definition memory_at (ptr : Z) : ST M arr := look (fun m i => fw_mem m (ptr + i)).

Definition div_ceil (a b : Z) : Z := (a + b - 1) / b.

(** The body of the loop over the program headers; [false] is [return 0]. *)
Definition load_segment (elf size : Z) (ph : Elf64ProgramHeader) : ST M bool :=
  if segment_skipped ph then st_ret true
  else if (size <? u64 (ph_offset ph + ph_filesz ph)) || (ph_memsz ph <? ph_filesz ph) then st_ret false
  else
    let start := ph_paddr ph in
    let pages := div_ceil (ph_memsz ph) 4096 in
    let* status := allocate_pages EFI_ALLOCATE_ADDRESS EFI_LOADER_DATA pages start in
    if negb (status =? EFI_SUCCESS) then st_ret false
    else
      do! zero_bytes (Z.to_nat (ph_memsz ph)) start in
      do! copy_nonoverlapping (Z.to_nat (ph_filesz ph)) (elf + ph_offset ph) start in
      st_ret true.

(** [n] headers are left. *)
Fixpoint load_segments (n : nat) (index elf size : Z) (h : Elf64Header) : ST M bool :=
  match n with
  | O => st_ret true
  | S n =>
      let* image := memory_at elf in
      let* ok := load_segment elf size (program_header image (header_at h index)) in
      if ok : bool then load_segments n (index + 1) elf size h else st_ret false
  end.

(** The entry point; 0 is a refusal. *)
Definition load_elf (elf size : Z) : ST M Z :=
  if size <? ELF_HEADER_SIZE then st_ret 0
  else
    let* image := memory_at elf in
    let h := elf_header image in
    if negb (bytes_eq (take 4 (ident h)) ELF_MAGIC) || negb (nth 4 (ident h) 0 =? 2)
       || negb (machine h =? 0x3E) then st_ret 0
    else if (size <? u64 (phoff h + phentsize h * phnum h)) || (phentsize h <? PROGRAM_HEADER_SIZE) then
      st_ret 0
    else
      let* ok := load_segments (Z.to_nat (phnum h)) 0 elf size h in
      if negb ok then st_ret 0
      else let* image := memory_at elf in st_ret (e_entry (elf_header image)).

(** ** Graphics *)

Definition locate_gop : ST M (option Z) :=
  let* r := locate_protocol GRAPHICS_OUTPUT_PROTOCOL_GUID in
  st_ret (if (fst r =? EFI_SUCCESS) && negb (snd r =? 0) then Some (snd r) else None).

(** [n] modes are left. *)
Fixpoint set_mode_from (n : nat) (gop mode_number width height : Z) : ST M unit :=
  match n with
  | O => st_ret tt
  | S n =>
      let* r := query_mode gop mode_number in
      if negb (fst r =? EFI_SUCCESS) || (snd r =? 0) then set_mode_from n gop (mode_number + 1) width height
      else
        let* info := look (fun m => mode_info_at m (snd r)) in
        if (mi_horizontal_resolution info =? width) && (mi_vertical_resolution info =? height) then
          do! set_mode gop mode_number in st_ret tt
        else set_mode_from n gop (mode_number + 1) width height
  end.

Definition set_graphics_mode (width height : Z) : ST M unit :=
  let* gop := locate_gop in
  match gop with
  | None => st_ret tt
  | Some gop =>
      let* mode := look (fun m => gop_mode m gop) in
      if mode =? 0 then st_ret tt
      else
        let* modes := look (fun m => max_mode (mode_at m mode)) in
        set_mode_from (Z.to_nat modes) gop 0 width height
  end.

Definition framebuffer_info : ST M BootInfo :=
  let* gop := locate_gop in
  match gop with
  | None => st_ret empty_boot_info
  | Some gop =>
      let* mode := look (fun m => gop_mode m gop) in
      if mode =? 0 then st_ret empty_boot_info
      else
        let* mode := look (fun m => mode_at m mode) in
        if gop_info mode =? 0 then st_ret empty_boot_info
        else
          let* info := look (fun m => mode_info_at m (gop_info mode)) in
          st_ret (mkBootInfo (gop_framebuffer_base mode) (gop_framebuffer_size mode)
            (mi_horizontal_resolution info) (mi_vertical_resolution info)
            (mi_pixels_per_scan_line info) (mi_pixel_format info) 0 0 0 0 0)
  end.

(** ** Leaving the firmware *)

(** The status and [BOOT_INFO]. *)
Definition exit_boot_services (image : Z) (info : BootInfo) : ST M (Z * BootInfo) :=
  let* r := get_memory_map 0 0 in
  let memory_map_size := u64 (ma_size (snd r) + u64 (ma_descriptor_size (snd r) * 8)) in
  let* r := allocate_pool EFI_RUNTIME_SERVICES_DATA memory_map_size in
  if negb (fst r =? EFI_SUCCESS) then st_ret (fst r, info)
  else
    let memory_map := snd r in
    let* r := get_memory_map memory_map_size memory_map in
    if negb (fst r =? EFI_SUCCESS) then st_ret (fst r, info)
    else
      let answer := snd r in
      let info := {| info with memory_map_base := memory_map; memory_map_size := ma_size answer;
                               memory_descriptor_size := ma_descriptor_size answer |} in
      let* status := exit_services image (ma_key answer) in
      st_ret (status, info).

(** A status, or the jump to the kernel's entry point. *)
Inductive BootOutcome : Type := BootFailed (status : Z) | Jump (entry : Z) (info : BootInfo).

Definition boot_kernel (image : Z) (system_table : option EfiSystemTable) : ST M BootOutcome :=
  match system_table with
  | None => st_ret (BootFailed EFI_LOAD_ERROR)
  | Some t =>
      do! write_uefi system_table BOOT_MESSAGE in
      if boot_services t =? 0 then st_ret (BootFailed EFI_LOAD_ERROR)
      else
        let* kernel := read_file image KERNEL_PATH KERNEL_READ_LIMIT in
        if negb (fb_status kernel =? EFI_SUCCESS) then st_ret (BootFailed (fb_status kernel))
        else
          let* entry := load_elf (fb_ptr kernel) (fb_len kernel) in
          if entry =? 0 then st_ret (BootFailed EFI_LOAD_ERROR)
          else
            do! set_graphics_mode 1024 768 in
            let* info := framebuffer_info in
            let* initrd := read_file image INITRD_PATH INITRD_READ_LIMIT in
            let info := if fb_status initrd =? EFI_SUCCESS
                        then {| info with initrd_base := fb_ptr initrd; initrd_size := fb_len initrd |}
                        else info in
            do! write_uefi system_table JUMP_MESSAGE in
            do! serial_write SERIAL_JUMP_MESSAGE in
            let* r := exit_boot_services image info in
            st_ret (if negb (fst r =? EFI_SUCCESS) then BootFailed (fst r) else Jump entry (snd r))
  end.

(** No answer: the loader spins. *)
Definition efi_main (image : Z) (system_table : option EfiSystemTable) : ST M (option (Z * BootInfo)) :=
  do! serial_init in
  do! serial_write SERIAL_BOOT_MESSAGE in
  let* r := boot_kernel image system_table in
  match r with
  | Jump entry info => st_ret (Some (entry, info))
  | BootFailed _ =>
      do! serial_write SERIAL_ERROR_MESSAGE in
      do! write_uefi system_table ERROR_MESSAGE in
      st_ret None
  end.

End Boot.

(** ** What the kernel makes of [BootInfo] *)

(** The fields of the descriptor at an address. *)
Definition read_descriptor (mem : arr) (at_ : Z) : EfiMemoryDescriptor :=
  mkEfi (read_u32 mem at_) (read_u64 mem (at_ + 8)) (read_u64 mem (at_ + 24)).

Definition descriptors_at (mem : arr) (base size descriptor_size : Z) : list EfiMemoryDescriptor :=
  map (fun index => read_descriptor mem (base + Z.of_nat index * descriptor_size))
    (seq 0 (Z.to_nat (size / descriptor_size))).

(** The map [init_physical_allocator] and [memory_summary] walk. *)
Definition kernel_memory_map (info : BootInfo) (mem : arr) : option (list EfiMemoryDescriptor) :=
  if (memory_map_base info =? 0) || (memory_map_size info =? 0) || (memory_descriptor_size info =? 0)
  then None
  else Some (descriptors_at mem (memory_map_base info) (memory_map_size info) (memory_descriptor_size info)).

(** [BootFs::new] on the memory the loader leaves. *)
Definition kernel_bootfs (info : BootInfo) (mem : arr) : BootFs :=
  BootFs_new (initrd_base info) (initrd_size info) (fun i => mem (initrd_base info + i)).

Definition kernel_framebuffer (info : BootInfo) : option FbInfo :=
  Some (mkFbInfo (framebuffer_base info) (framebuffer_size info) (horizontal_resolution info)
    (vertical_resolution info) (pixels_per_scan_line info) (pixel_format info)).
