(* ===== verification/BootThm.v ===== *)
(** * What the boot loader hands to the kernel

    [FirmwareLaws] is what the UEFI specification says of the services the loader
    uses. Over it: reading a file, loading the kernel's segments and leaving the
    firmware each keep all memory handed out before, so what the kernel finds at its
    entry is the image of its segments, the boot image and the memory map. *)

From S2P Require Import Prelude Constants Text Hw Console BootFs Phys Elf Boot.

Section Laws.

Context {M : Type} `{Firmware M}.

(** The loader's memory outside [[lo, lo + size)] and the files of the volumes are as
    they were. *)
Record keeps_but (lo size : Z) (m m' : M) : Prop := {
  kb_owned : forall a, fw_owned m a -> fw_owned m' a;
  kb_mem : forall a, fw_owned m a -> a < lo \/ lo + size <= a -> fw_mem m' a = fw_mem m a;
  kb_file image p : fw_file m' image p = fw_file m image p;
  kb_dir image p : fw_dir m' image p <-> fw_dir m image p
}.

Definition keeps : M -> M -> Prop := keeps_but 0 0.

(** The range is new: not the loader's before, its own now. *)
Definition fresh_range (lo size : Z) (m m' : M) : Prop :=
  forall a, lo <= a < lo + size -> ~ fw_owned m a /\ fw_owned m' a.

(** The bytes in memory that is the loader's. *)
Definition in_memory (m : M) (base : Z) (l : bytes) : Prop :=
  forall k, (k < length l)%nat -> fw_owned m (base + Z.of_nat k) /\
    fw_mem m (base + Z.of_nat k) = nth k l 0.

(** The range is the loader's. *)
Definition owned_range (lo size : Z) (m : M) : Prop := forall a, lo <= a < lo + size -> fw_owned m a.

End Laws.

(** The UEFI specification, for the services the loader calls and the arguments it gives
    them. Memory that was given out is given out to nobody else and not written by the
    firmware, except a buffer that is passed to it. A file opened for reading is at its
    start; a read stores what is left of the file, up to the size of the buffer, and moves
    the position behind it; nothing is said of a handle after its close. An exit with a key
    succeeds only when the key is current; the map describes as free (type 7) no memory
    that was given out. A store by the loader to its own memory changes that byte, and its
    bytes to the serial port change none. *)
Class FirmwareLaws (M : Type) `{Firmware M} `{Ports M} : Prop := {
  fl_output : forall c t m, keeps m (fst (output_string c t m));
  fl_protocol : forall h g m, keeps m (fst (handle_protocol h g m));
  fl_volume : forall fs m, keeps m (fst (open_volume fs m));
  (** the file system of the device the image was loaded from *)
  fl_root : forall image m m1 loaded m2 fs m3 root,
    handle_protocol image LOADED_IMAGE_PROTOCOL_GUID m = (m1, (EFI_SUCCESS, loaded)) ->
    handle_protocol (device_handle m1 loaded) SIMPLE_FILE_SYSTEM_PROTOCOL_GUID m1 = (m2, (EFI_SUCCESS, fs)) ->
    open_volume fs m2 = (m3, (EFI_SUCCESS, root)) -> fw_root m3 image root;
  fl_kind : forall m image p content, fw_file m image p = Some content -> ~ fw_dir m image p;
  fl_open : forall image root p m m' s f, fw_root m image root ->
    file_open root p EFI_FILE_MODE_READ m = (m', (s, f)) ->
    keeps m m' /\
    (s = EFI_SUCCESS -> fw_dir m image p \/ exists content, fw_file m image p = Some content /\ fw_opened m' f content);
  fl_read : forall f size buf m m' s n, owned_range buf size m -> file_read f size buf m = (m', (s, n)) ->
    keeps_but buf size m m' /\
    (s = EFI_SUCCESS -> forall rest, fw_opened m f rest ->
      n = Z.min size (blen rest) /\ in_memory m' buf (take (Z.to_nat n) rest) /\
      fw_opened m' f (drop (Z.to_nat n) rest));
  fl_close : forall f m, keeps m (fst (file_close f m));
  fl_pool : forall t size m m' s p, allocate_pool t size m = (m', (s, p)) ->
    keeps m m' /\ (forall f rest, fw_opened m f rest -> fw_opened m' f rest) /\
    (s = EFI_SUCCESS -> fresh_range p size m m');
  fl_pages : forall pages start m m' s,
    allocate_pages EFI_ALLOCATE_ADDRESS EFI_LOADER_DATA pages start m = (m', s) ->
    keeps m m' /\ (s = EFI_SUCCESS -> fresh_range start (pages * 4096) m m');
  fl_map : forall size buf m m' s r, owned_range buf size m -> get_memory_map size buf m = (m', (s, r)) ->
    keeps_but buf size m m' /\
    (s = EFI_SUCCESS ->
      ma_size r = blen (fw_map m') /\ ma_key r = fw_key m' /\
      ma_descriptor_size r = fw_descriptor_size m' /\ in_memory m' buf (fw_map m'));
  fl_exit : forall i key m m', exit_services i key m = (m', EFI_SUCCESS) ->
    keeps m m' /\ key = fw_key m /\ fw_map m' = fw_map m /\ fw_descriptor_size m' = fw_descriptor_size m;
  fl_locate : forall g m, keeps m (fst (locate_protocol g m));
  fl_query : forall g n m, keeps m (fst (query_mode g n m));
  fl_set_mode : forall g n m, keeps m (fst (set_mode g n m));
  fl_serial : forall b m, keeps m (fst (outb COM1 b m));
  fl_store : forall a b m, fw_owned m a ->
    keeps_but a 1 m (fst (fw_store a b m)) /\ fw_mem (fst (fw_store a b m)) a = b;
  fl_descriptor_size : forall m, 40 <= fw_descriptor_size m;
  fl_map_bytes : forall m, Forall is_u8 (fw_map m);
  fl_free : forall m d a,
    d ∈ descriptors_at (fun i => nth (Z.to_nat i) (fw_map m) 0) 0 (blen (fw_map m)) (fw_descriptor_size m) ->
    efi_typ d = 7 -> physical_start d <= a < physical_start d + number_of_pages d * 4096 -> ~ fw_owned m a
}.

Section Keeps.

Context {M : Type} `{FL : FirmwareLaws M}.

#[export] Instance keeps_preorder : PreOrder keeps.
Proof.
  split; [by split|]. intros m1 m2 m3 [A1 A2 A3 A4] [B1 B2 B3 B4].
  split; [auto| |intros; by rewrite B3, A3|intros; by rewrite B4, A4].
  intros a Ha Hr. rewrite B2 by (auto || lia). by apply A2.
Qed.

Lemma keeps_but_sub lo size lo' size' (m m' : M) :
  keeps_but lo size m m' -> lo' <= lo -> lo + size <= lo' + size' -> keeps_but lo' size' m m'.
Proof. intros [A1 A2 A3 A4] H1 H2. split; [done| |done|done]. intros a Ha Hr. apply A2; [done|lia]. Qed.

Lemma keeps_but_trans lo size (m1 m2 m3 : M) :
  keeps_but lo size m1 m2 -> keeps_but lo size m2 m3 -> keeps_but lo size m1 m3.
Proof.
  intros [A1 A2 A3 A4] [B1 B2 B3 B4]. split; [auto| |intros; by rewrite B3, A3|intros; by rewrite B4, A4].
  intros a Ha Hr. rewrite B2 by auto. by apply A2.
Qed.

(** Writing to memory that is new keeps all that is old. *)
Lemma fresh_keeps lo size (m m1 m2 : M) :
  keeps m m1 -> fresh_range lo size m m1 -> keeps_but lo size m1 m2 -> keeps m m2.
Proof.
  intros [A1 A2 A3 A4] Hf [B1 B2 B3 B4]. split; [auto| |intros; by rewrite B3, A3|intros; by rewrite B4, A4].
  intros a Ha Hr. rewrite B2; [by apply A2|auto|].
  destruct (decide (a < lo \/ lo + size <= a)) as [|Hn]; [done|]. destruct (Hf a ltac:(lia)). done.
Qed.

Lemma in_memory_keeps (m m' : M) base l : keeps m m' -> in_memory m base l -> in_memory m' base l.
Proof.
  intros [A1 A2 _ _] Hm k Hk. destruct (Hm k Hk) as [Ho Hb].
  split; [auto|]. rewrite A2 by (done || lia). done.
Qed.

(** ** Computations that only keep *)

Definition silent {A} (f : ST M A) : Prop := forall m, keeps m (fst (f m)).

Lemma silent_ret {A} (a : A) : silent (st_ret a).
Proof using. intros m. by split. Qed.

Lemma silent_look {A} (f : M -> A) : silent (look f).
Proof using. intros m. by split. Qed.

Lemma silent_bind {A B} (f : ST M A) (k : A -> ST M B) : silent f -> (forall a, silent (k a)) -> silent (st_bind f k).
Proof using H H0.
  intros Hf Hk m. unfold st_bind. specialize (Hf m). destruct (f m) as [m1 a]. simpl in Hf.
  etransitivity; [exact Hf|apply Hk].
Qed.

Lemma silent_elim {A} (f : ST M A) m m' a : silent f -> f m = (m', a) -> keeps m m'.
Proof using. intros Hf E. specialize (Hf m). by rewrite E in Hf. Qed.

End Keeps.

Create HintDb silent.
#[export] Hint Resolve silent_ret silent_look silent_bind : silent.

(** Splits a computation into the services it calls. *)
Ltac silent_step :=
  repeat first [apply silent_bind; [|intros ?]|apply silent_ret|apply silent_look|progress case_match|solve [auto with silent]].

Section Quiet.

Context {M : Type} `{FL : FirmwareLaws M}.

Lemma silent_output c t : silent (output_string c t). Proof using FL. intros m. apply fl_output. Qed.
Lemma silent_protocol h g : silent (handle_protocol h g). Proof using FL. intros m. apply fl_protocol. Qed.
Lemma silent_volume fs : silent (open_volume fs). Proof using FL. intros m. apply fl_volume. Qed.
Lemma silent_close f : silent (file_close f). Proof using FL. intros m. apply fl_close. Qed.
Lemma silent_locate g : silent (locate_protocol g). Proof using FL. intros m. apply fl_locate. Qed.
Lemma silent_query g n : silent (query_mode g n). Proof using FL. intros m. apply fl_query. Qed.
Lemma silent_set_mode g n : silent (set_mode g n). Proof using FL. intros m. apply fl_set_mode. Qed.
Lemma silent_serial b : silent (outb COM1 b). Proof using FL. intros m. apply fl_serial. Qed.

#[local] Hint Resolve silent_output silent_protocol silent_volume silent_close silent_locate silent_query
  silent_set_mode silent_serial : silent.

Lemma silent_write_uefi t message : silent (write_uefi t message).
Proof using FL. unfold write_uefi. silent_step. Qed.

Lemma silent_serial_write text : silent (serial_write text).
Proof using FL. induction text; cbn [serial_write]; silent_step. Qed.

Lemma silent_locate_gop : silent locate_gop.
Proof using FL. unfold locate_gop. silent_step. Qed.

Lemma silent_set_mode_from n gop : forall k w h, silent (set_mode_from n gop k w h).
Proof using FL. induction n as [|n IH]; intros k w h; cbn [set_mode_from]; silent_step; apply IH. Qed.

#[local] Hint Resolve silent_locate_gop silent_set_mode_from : silent.

Lemma silent_set_graphics_mode w h : silent (set_graphics_mode w h).
Proof using FL. unfold set_graphics_mode. silent_step. Qed.

Lemma silent_framebuffer_info : silent framebuffer_info.
Proof using FL. unfold framebuffer_info. silent_step. Qed.

End Quiet.

#[export] Hint Resolve silent_output silent_protocol silent_volume silent_close silent_locate silent_query
  silent_set_mode silent_serial silent_write_uefi silent_serial_write silent_locate_gop silent_set_graphics_mode
  silent_framebuffer_info : silent.

(** ** Reading a file *)

Section Files.

Context {M : Type} `{FL : FirmwareLaws M}.

(** The first part of a computation and the rest. *)
Lemma bind_inv {S A B} (f : ST S A) (k : A -> ST S B) s s' b :
  st_bind f k s = (s', b) -> exists s1 a, f s = (s1, a) /\ k a s1 = (s', b).
Proof using. unfold st_bind. destruct (f s) as [s1 a]. by exists s1, a. Qed.

(** What a successful read answers. *)
Definition file_read_at (m m' : M) (image : Z) (path : list Z) (limit : Z) (fb : FileBuffer) : Prop :=
  fw_dir m image path \/ exists content, fw_file m image path = Some content /\
    fb_len fb = blen (take (Z.to_nat limit) content) /\
    in_memory m' (fb_ptr fb) (take (Z.to_nat limit) content).

Lemma fresh_owned lo size (m m' : M) : fresh_range lo size m m' -> owned_range lo size m'.
Proof using. intros Hf a Ha. by apply Hf. Qed.

(** The last part of [read_file]: the buffer, the read and the two closes. *)
Lemma read_opened (m m' : M) image path limit root file fb :
  0 <= limit -> fw_dir m image path \/ (exists content, fw_file m image path = Some content /\ fw_opened m file content) ->
  (let* r := allocate_pool EFI_LOADER_DATA limit in
   if negb (fst r =? EFI_SUCCESS) then st_ret (no_file (fst r))
   else
     let buffer := snd r in
     let* r := file_read file limit buffer in
     let '(status, size) := r in
     do! file_close file in
     do! file_close root in
     st_ret (mkFileBuffer (if size =? 0 then EFI_NOT_FOUND else status) buffer size)) m = (m', fb) ->
  keeps m m' /\ (fb_status fb = EFI_SUCCESS -> file_read_at m m' image path limit fb).
Proof using FL.
  intros Hl Hop E. apply bind_inv in E as (m1 & [s p] & E1 & E). cbn [fst snd] in E.
  apply fl_pool in E1 as (K1 & Ho1 & Hp). destruct (Z.eqb_spec s EFI_SUCCESS) as [->|Hs]; cbn [negb] in E.
  2: { injection E as <- <-. split; [done|]. by intros. }
  specialize (Hp eq_refl). apply bind_inv in E as (m2 & [st n] & E2 & E).
  apply fl_read in E2 as [K2 Hr]; [|by apply (fresh_owned _ _ m)].
  pose proof (fresh_keeps _ _ _ _ _ K1 Hp K2) as K02.
  apply bind_inv in E as (m3 & ? & E3 & E). apply (silent_elim _ _ _ _ (silent_close _)) in E3.
  apply bind_inv in E as (m4 & ? & E4 & E). apply (silent_elim _ _ _ _ (silent_close _)) in E4.
  injection E as <- <-. assert (K24 : keeps m2 m4) by by transitivity m3.
  split; [by transitivity m2|]. unfold file_read_at. cbn [fb_status fb_ptr fb_len]. intros Hst.
  destruct Hop as [|(content & Hfile & Hop)]; [by left|right]. destruct (Z.eqb_spec n 0) as [|Hn]; [done|].
  destruct (Hr Hst content) as (-> & Hm & _); [by apply Ho1|].
  exists content. assert (Ht : take (Z.to_nat (Z.min limit (blen content))) content = take (Z.to_nat limit) content).
  { unfold blen. destruct (Z.le_gt_cases limit (Z.of_nat (length content))); [by rewrite Z.min_l|].
    rewrite Z.min_r, Nat2Z.id by lia. by rewrite !take_ge by lia. }
  rewrite Ht in Hm. split_and!; [done| |by apply (in_memory_keeps m2)].
  unfold blen. rewrite length_take. lia.
Qed.

(** A file that was read before a change of the files of no volume. *)
Lemma file_read_from (m0 m m' : M) image path limit fb :
  keeps m0 m -> file_read_at m m' image path limit fb -> file_read_at m0 m' image path limit fb.
Proof using.
  intros K [Hd|(c & Hc & R)]; [left; by apply (kb_dir _ _ _ _ K)|right]. exists c. by rewrite <- (kb_file _ _ _ _ K).
Qed.

Lemma read_file_spec (m m' : M) image path limit fb :
  0 <= limit -> read_file image path limit m = (m', fb) ->
  keeps m m' /\ (fb_status fb = EFI_SUCCESS -> file_read_at m m' image path limit fb).
Proof using FL.
  intros Hl E. unfold read_file in E.
  assert (Hno : forall (m1 m' : M) s fb, keeps m m1 -> s <> EFI_SUCCESS -> st_ret (no_file s) m1 = (m', fb) ->
    keeps m m' /\ (fb_status fb = EFI_SUCCESS -> file_read_at m m' image path limit fb)).
  { intros m1 m1' s fb' K Hs [= <- <-]. by split. }
  apply bind_inv in E as (m1 & [s1 v1] & E1 & E). pose proof (silent_elim _ _ _ _ (silent_protocol _ _) E1) as K1.
  cbn [fst snd] in E. destruct (Z.eqb_spec s1 EFI_SUCCESS) as [->|Hs]; cbn [negb] in E; [|by eapply Hno].
  apply bind_inv in E as (m1' & dev & [= <- <-] & E).
  apply bind_inv in E as (m2 & [s2 v2] & E2 & E). pose proof (silent_elim _ _ _ _ (silent_protocol _ _) E2) as K12.
  assert (K2 : keeps m m2) by by transitivity m1. cbn [fst snd] in E.
  destruct (Z.eqb_spec s2 EFI_SUCCESS) as [->|Hs]; cbn [negb] in E; [|by eapply Hno].
  apply bind_inv in E as (m3 & [s3 v3] & E3 & E). pose proof (silent_elim _ _ _ _ (silent_volume _) E3) as K23.
  assert (K3 : keeps m m3) by by transitivity m2. cbn [fst snd] in E.
  destruct (Z.eqb_spec s3 EFI_SUCCESS) as [->|Hs]; cbn [negb] in E; [|by eapply Hno].
  pose proof (fl_root _ _ _ _ _ _ _ _ E1 E2 E3) as Hroot.
  apply bind_inv in E as (m4 & [s4 v4] & E4 & E). apply (fl_open image) in E4 as [E4 Hop]; [|done].
  assert (K4 : keeps m m4) by by transitivity m3. cbn [fst snd] in E.
  destruct (Z.eqb_spec s4 EFI_SUCCESS) as [Hs|Hs]; cbn [negb] in E; [|by eapply Hno].
  destruct (read_opened m4 m' image path limit v3 v4 fb Hl) as [K5 R]; [|exact E|].
  { destruct (Hop Hs) as [Hd|(content & Hf & Ho)]; [left; by apply (kb_dir _ _ _ _ E4)|right].
    exists content. by rewrite (kb_file _ _ _ _ E4). }
  split; [by transitivity m4|]. intros Hst. by apply (file_read_from m m4), R.
Qed.

End Files.

(** ** Loading the kernel *)

(** A file as memory. *)
Definition image_of (l : bytes) : arr := fun i => nth (Z.to_nat i) l 0.

Section Segments.

Context {M : Type} `{FL : FirmwareLaws M}.

Definition owns (m : M) (base : Z) (n : nat) : Prop := forall k, (k < n)%nat -> fw_owned m (base + Z.of_nat k).

Lemma zero_bytes_spec n : forall dst (m m' : M) r, owns m dst n -> zero_bytes n dst m = (m', r) ->
  keeps_but dst (Z.of_nat n) m m' /\ forall k, (k < n)%nat -> fw_mem m' (dst + Z.of_nat k) = 0.
Proof using FL.
  induction n as [|n IH]; intros dst m m' r Ho E; cbn [zero_bytes] in E.
  { injection E as <- <-. split; [by split|lia]. }
  assert (Hd0 : fw_owned m dst) by (specialize (Ho 0%nat ltac:(lia)); by rewrite Z.add_0_r in Ho).
  apply bind_inv in E as (m1 & u & E1 & E). pose proof (fl_store dst 0 m Hd0) as [K1 V1]. rewrite E1 in K1, V1.
  cbn [fst] in K1, V1. apply IH in E as [K2 V2].
  2: { intros k Hk. apply K1. replace (dst + 1 + Z.of_nat k) with (dst + Z.of_nat (S k)) by lia. apply Ho. lia. }
  split; [apply keeps_but_trans with m1; eapply keeps_but_sub; eauto; lia|].
  intros [|k] Hk.
  - rewrite Z.add_0_r. rewrite (kb_mem _ _ _ _ K2); [exact V1|by apply K1|lia].
  - replace (dst + Z.of_nat (S k)) with (dst + 1 + Z.of_nat k) by lia. apply V2. lia.
Qed.

Lemma copy_spec n : forall src dst (m m' : M) r,
  owns m src n -> owns m dst n -> src + Z.of_nat n <= dst \/ dst + Z.of_nat n <= src ->
  copy_nonoverlapping n src dst m = (m', r) ->
  keeps_but dst (Z.of_nat n) m m' /\
  forall k, (k < n)%nat -> fw_mem m' (dst + Z.of_nat k) = fw_mem m (src + Z.of_nat k).
Proof using FL.
  induction n as [|n IH]; intros src dst m m' r Hs Ho Hd E; cbn [copy_nonoverlapping] in E.
  { injection E as <- <-. split; [by split|lia]. }
  apply bind_inv in E as (m0 & b & [= <- <-] & E). apply bind_inv in E as (m1 & u & E1 & E).
  assert (Hd0 : fw_owned m dst) by (specialize (Ho 0%nat ltac:(lia)); by rewrite Z.add_0_r in Ho).
  pose proof (fl_store dst (fw_mem m src) m Hd0) as [K1 V1]. rewrite E1 in K1, V1. cbn [fst] in K1, V1.
  assert (Hn : forall base, owns m base (S n) -> owns m1 (base + 1) n).
  { intros base Hb k Hk. apply K1. replace (base + 1 + Z.of_nat k) with (base + Z.of_nat (S k)) by lia.
    apply Hb. lia. }
  apply IH in E as [K2 V2]; [|by apply Hn|by apply Hn|lia].
  split; [apply keeps_but_trans with m1; eapply keeps_but_sub; eauto; lia|].
  intros [|k] Hk.
  - rewrite !Z.add_0_r. rewrite (kb_mem _ _ _ _ K2); [by apply V1|by apply K1|lia].
  - replace (dst + Z.of_nat (S k)) with (dst + 1 + Z.of_nat k) by lia. rewrite V2 by lia.
    replace (src + 1 + Z.of_nat k) with (src + Z.of_nat (S k)) by lia.
    apply (kb_mem _ _ _ _ K1); [by apply Hs|lia].
Qed.

(** The segment is in memory that is new since [m]: its file bytes, then zeros. *)
Definition segment_placed (elf : arr) (m m' : M) (ph : Elf64ProgramHeader) : Prop :=
  segment_skipped ph = false -> forall k, 0 <= k < ph_memsz ph ->
    ~ fw_owned m (ph_paddr ph + k) /\ fw_owned m' (ph_paddr ph + k) /\
    fw_mem m' (ph_paddr ph + k) = if k <? ph_filesz ph then elf (ph_offset ph + k) else 0.

Lemma placed_keeps elf (m0 m1 m2 m3 : M) ph :
  keeps m0 m1 -> keeps m2 m3 -> segment_placed elf m1 m2 ph -> segment_placed elf m0 m3 ph.
Proof using.
  intros K1 K2 Hp Hs k Hk. destruct (Hp Hs k Hk) as (P1 & P2 & P3). split_and!.
  - intros Ho. apply P1. by apply K1.
  - by apply K2.
  - rewrite (kb_mem _ _ _ _ K2); [done|done|lia].
Qed.

(** A part of the file in memory. *)
Lemma content_part (m : M) elf content off n :
  in_memory m elf content -> 0 <= off -> off + Z.of_nat n <= blen content ->
  forall k, (k < n)%nat -> fw_owned m (elf + off + Z.of_nat k) /\
    fw_mem m (elf + off + Z.of_nat k) = image_of content (off + Z.of_nat k).
Proof using.
  intros Hm Ho Hl k Hk. destruct (Hm (Z.to_nat (off + Z.of_nat k))) as [O1 O2]; [unfold blen in *; lia|].
  by replace (elf + off + Z.of_nat k) with (elf + Z.of_nat (Z.to_nat (off + Z.of_nat k))) by lia.
Qed.

(** New memory does not meet the file. *)
Lemma fresh_apart (m m1 : M) elf content off n lo size :
  in_memory m elf content -> fresh_range lo size m m1 -> 0 <= off -> off + n <= blen content -> n <= size ->
  elf + off + n <= lo \/ lo + n <= elf + off.
Proof using.
  intros Hm Hf Ho Hl Hn. destruct (decide (elf + off + n <= lo)) as [|H1]; [by left|].
  destruct (decide (lo + n <= elf + off)) as [|H2]; [by right|]. exfalso.
  set (a := Z.max (elf + off) lo). destruct (Hm (Z.to_nat (a - elf))) as [O1 _]; [unfold blen in *; lia|].
  apply (Hf a); [lia|]. by replace a with (elf + Z.of_nat (Z.to_nat (a - elf))) by lia.
Qed.

(** The stores into the segment's pages. *)
Lemma fill_segment (m m1 m' : M) elf content ph r :
  in_memory m elf content -> keeps m m1 -> fresh_range (ph_paddr ph) (ph_memsz ph) m m1 ->
  0 <= ph_offset ph -> 0 <= ph_filesz ph <= ph_memsz ph -> ph_offset ph + ph_filesz ph <= blen content ->
  (do! zero_bytes (Z.to_nat (ph_memsz ph)) (ph_paddr ph) in
   do! copy_nonoverlapping (Z.to_nat (ph_filesz ph)) (elf + ph_offset ph) (ph_paddr ph) in
   st_ret true) m1 = (m', r) ->
  keeps m m' /\ segment_placed (image_of content) m m' ph.
Proof using FL.
  intros Hm K1 Hf Ho Hfs Hl E. set (n := Z.to_nat (ph_memsz ph)) in *. set (c := Z.to_nat (ph_filesz ph)) in *.
  assert (Ho1 : owns m1 (ph_paddr ph) n) by (intros k Hk; apply Hf; lia).
  apply bind_inv in E as (m2 & u & E2 & E). apply zero_bytes_spec in E2 as [K2 V2]; [|done].
  assert (K02 : keeps m m2).
  { apply (fresh_keeps _ _ _ _ _ K1 Hf). eapply keeps_but_sub; eauto; lia. }
  pose proof (content_part m2 elf content (ph_offset ph) c (in_memory_keeps _ _ _ _ K02 Hm) Ho ltac:(lia)) as Hsrc.
  apply bind_inv in E as (m3 & u' & E3 & E). injection E as <- <-.
  apply copy_spec in E3 as [K3 V3];
    [|intros k Hk; by apply Hsrc|intros k Hk; apply K2, Ho1; lia|
      by apply (fresh_apart m m1 elf content (ph_offset ph) _ _ _ Hm Hf); lia].
  split.
  - apply (fresh_keeps (ph_paddr ph) (ph_memsz ph) m m1 m3 K1 Hf).
    apply keeps_but_trans with m2; eapply keeps_but_sub; eauto; lia.
  - intros _ k Hk. split_and!; [apply Hf; lia|apply K3, K2, Hf; lia|].
    replace (ph_paddr ph + k) with (ph_paddr ph + Z.of_nat (Z.to_nat k)) by lia. case_match eqn:Ek.
    + rewrite V3 by lia. destruct (Hsrc (Z.to_nat k)) as [_ ->]; [lia|]. f_equal. lia.
    + rewrite (kb_mem _ _ _ _ K3); [apply V2; lia|apply K2, Ho1; lia|lia].
Qed.

Lemma boot_segment_spec elf content (m m' : M) ph ok :
  in_memory m elf content -> no_overflow ph ->
  load_segment elf (blen content) ph m = (m', ok) ->
  keeps m m' /\ (ok = true -> segment_placed (image_of content) m m' ph).
Proof using FL.
  intros Hm (N1 & N2 & N3 & N4 & N5 & N6) E. unfold is_u64 in *. unfold load_segment in E.
  destruct (segment_skipped ph) eqn:Esk.
  { injection E as <- <-. split; [done|]. intros _ Hs. congruence. }
  rewrite (u64_small (ph_offset ph + ph_filesz ph)) in E by (unfold is_u64; lia).
  destruct (Z.ltb_spec (blen content) (ph_offset ph + ph_filesz ph)) as [Hlt|Hin].
  { injection E as <- <-. by split. }
  destruct (Z.ltb_spec (ph_memsz ph) (ph_filesz ph)) as [Hlt|Hfit]; [injection E as <- <-; by split|].
  cbn [orb] in E. apply bind_inv in E as (m1 & s & E1 & E). apply fl_pages in E1 as [K1 Hf].
  destruct (Z.eqb_spec s EFI_SUCCESS) as [Hs|Hs]; cbn [negb] in E; [|injection E as <- <-; by split].
  assert (Hfr : fresh_range (ph_paddr ph) (ph_memsz ph) m m1).
  { intros a Ha. apply (Hf Hs). unfold div_ceil. zlia. }
  destruct (fill_segment m m1 m' elf content ph ok Hm K1 Hfr ltac:(lia) ltac:(lia) ltac:(lia) E). by split.
Qed.

End Segments.

(** ** The program headers *)

Lemma elf_header_ext a b : (forall i, 0 <= i < 64 -> a i = b i) -> elf_header a = elf_header b.
Proof.
  intros He. unfold elf_header, read_u16, read_u64. rewrite !He by lia.
  by rewrite !(slice_ext a b) by (intros; apply He; lia).
Qed.

Lemma program_header_ext a b at_ :
  (forall i, at_ <= i < at_ + 56 -> a i = b i) -> program_header a at_ = program_header b at_.
Proof.
  intros He. unfold program_header, read_u32, read_u64.
  by rewrite !(slice_ext a b) by (intros; apply He; lia).
Qed.

(** A file whose header fields do not overflow the sums the loader checks. *)
Record elf_sane (content : bytes) : Prop := {
  es_bytes : Forall is_u8 content;
  es_table : let h := elf_header (image_of content) in
    phoff h + phentsize h * phnum h < 18446744073709551616;
  es_segments : Forall no_overflow (program_headers (image_of content))
}.

Lemma image_bytes content i : Forall is_u8 content -> is_u8 (image_of content i).
Proof.
  intros Hb. unfold image_of. destruct (decide (Z.to_nat i < length content)%nat) as [Hi|Hi].
  - by apply Forall_nth.
  - rewrite nth_overflow by lia. by unfold is_u8.
Qed.

Lemma header_fields content :
  Forall is_u8 content -> let h := elf_header (image_of content) in
  0 <= phoff h /\ 0 <= phentsize h /\ 0 <= phnum h.
Proof.
  intros Hb. pose proof (fun i => image_bytes content i Hb) as Hi. cbv zeta. unfold elf_header, read_u16, read_u64.
  cbn [phoff phentsize phnum].
  pose proof (le64_slice_range (slice (image_of content) 32 8)) as H1. unfold is_u64 in H1.
  pose proof (Hi 54). pose proof (Hi 55). pose proof (Hi 56). pose proof (Hi 57). unfold is_u8 in *.
  change (54 + 1) with 55. change (56 + 1) with 57. lia.
Qed.

Section Loader.

Context {M : Type} `{FL : FirmwareLaws M}.
Context (elf : Z) (content : bytes) (Hsane : elf_sane content).

Abbreviation h := (elf_header (image_of content)).

(** The memory behind the buffer is the file. *)
Lemma memory_at_file (m : M) i :
  in_memory m elf content -> 0 <= i < blen content -> fw_mem m (elf + i) = image_of content i.
Proof using.
  intros Hm Hi. destruct (Hm (Z.to_nat i)) as [_ E]; [unfold blen in *; lia|].
  by rewrite Z2Nat.id in E by lia.
Qed.

Lemma header_at_plain index :
  0 <= index < phnum h -> PROGRAM_HEADER_SIZE <= phentsize h -> phoff h + phentsize h * phnum h <= blen content ->
  0 <= header_at h index /\ header_at h index + 56 <= blen content.
Proof using Hsane.
  intros Hi He Hl. pose proof (header_fields content (es_bytes _ Hsane)) as (H1 & H2 & H3).
  pose proof (es_table _ Hsane) as Ht. cbv zeta in Ht. unfold header_at, PROGRAM_HEADER_SIZE in *.
  assert (index * phentsize h + phentsize h <= phentsize h * phnum h) by nia.
  rewrite u64_small by (unfold is_u64; nia). nia.
Qed.

Lemma load_segments_placed n : forall index (m m' : M) ok,
  in_memory m elf content -> PROGRAM_HEADER_SIZE <= phentsize h ->
  phoff h + phentsize h * phnum h <= blen content ->
  0 <= index -> index + Z.of_nat n <= phnum h ->
  load_segments n index elf (blen content) h m = (m', ok) ->
  keeps m m' /\ (ok = true -> forall k, (k < n)%nat ->
    segment_placed (image_of content) m m' (program_header (image_of content) (header_at h (index + Z.of_nat k)))).
Proof using FL Hsane.
  induction n as [|n IH]; intros index m m' ok Hm He Hl Hi Hn E; cbn [load_segments] in E.
  { injection E as <- <-. split; [done|lia]. }
  apply bind_inv in E as (m0 & image & [= <- <-] & E).
  destruct (header_at_plain index ltac:(lia) He Hl) as [Hp1 Hp2].
  rewrite (program_header_ext _ (image_of content)) in E
    by (intros i Hr; apply memory_at_file; [done|lia]).
  assert (Hno : no_overflow (program_header (image_of content) (header_at h index))).
  { apply (proj1 (Forall_forall _ _) (es_segments _ Hsane)). apply list_elem_of_In, in_map_iff.
    exists (Z.to_nat index). rewrite Z2Nat.id by lia. split; [done|]. apply in_seq. lia. }
  apply bind_inv in E as (m1 & ok1 & E1 & E). apply boot_segment_spec in E1 as [K1 P1]; [|done|done].
  destruct ok1; [|injection E as <- <-; by split].
  apply IH in E as [K2 P2]; [|by apply (in_memory_keeps m)|done|done|lia|lia].
  split; [by transitivity m1|]. intros Hok [|k] Hk.
  - rewrite Z.add_0_r. apply (placed_keeps _ m m m1 m'); auto. reflexivity.
  - replace (index + Z.of_nat (S k)) with (index + 1 + Z.of_nat k) by lia.
    apply (placed_keeps _ m m1 m' m'); [done|reflexivity|]. apply P2; [done|lia].
Qed.

(** The kernel's segments, all of them, in new memory. *)
Definition image_placed (m m' : M) : Prop :=
  Forall (segment_placed (image_of content) m m') (program_headers (image_of content)).

Lemma load_elf_spec (m m' : M) entry :
  in_memory m elf content -> load_elf elf (blen content) m = (m', entry) ->
  keeps m m' /\ (entry <> 0 -> entry = e_entry h /\ image_placed m m').
Proof using FL Hsane.
  intros Hm E. unfold load_elf in E.
  destruct (Z.ltb_spec (blen content) ELF_HEADER_SIZE) as [|Hsz]; [injection E as <- <-; by split|].
  unfold ELF_HEADER_SIZE in Hsz.
  apply bind_inv in E as (m0 & image & [= <- <-] & E). cbv zeta in E.
  rewrite (elf_header_ext _ (image_of content)) in E by (intros i Hr; apply memory_at_file; [done|lia]).
  destruct (_ || _ || _) in E; [injection E as <- <-; by split|].
  pose proof (header_fields content (es_bytes _ Hsane)) as (H1 & H2 & H3). pose proof (es_table _ Hsane) as Ht.
  cbv zeta in H1, H2, H3, Ht. rewrite u64_small in E by (unfold is_u64; nia).
  destruct (Z.ltb_spec (blen content) (phoff h + phentsize h * phnum h)) as [|Hl]; [injection E as <- <-; by split|].
  destruct (Z.ltb_spec (phentsize h) PROGRAM_HEADER_SIZE) as [|He]; [injection E as <- <-; by split|].
  cbn [orb] in E. apply bind_inv in E as (m1 & ok & E1 & E).
  apply load_segments_placed in E1 as [K1 P1]; [|done|done|done|lia|lia].
  destruct ok; cbn [negb] in E; [|injection E as <- <-; by split].
  apply bind_inv in E as (m2 & image & [= <- <-] & E). injection E as <- <-.
  split; [done|]. intros _. split.
  - change (e_entry (elf_header (fun i => fw_mem m1 (elf + i))) = e_entry h).
    rewrite (elf_header_ext _ (image_of content)); [done|]. intros i Hr. apply memory_at_file; [by apply (in_memory_keeps m)|lia].
  - apply Forall_forall. intros ph Hph. apply list_elem_of_In, in_map_iff in Hph as (k & <- & Hk).
    apply in_seq in Hk. apply (P1 eq_refl k). lia.
Qed.

End Loader.

(** ** Leaving the firmware *)

Section HandOver.

Context {M : Type} `{FL : FirmwareLaws M}.

(** The map in [BootInfo] is the firmware's current one. *)
Record map_handed (m : M) (info : BootInfo) : Prop := {
  mh_bytes : in_memory m (memory_map_base info) (fw_map m);
  mh_size : memory_map_size info = blen (fw_map m);
  mh_descriptor : memory_descriptor_size info = fw_descriptor_size m
}.

Lemma exit_boot_services_spec (m m' : M) image info info' :
  exit_boot_services image info m = (m', (EFI_SUCCESS, info')) ->
  keeps m m' /\ map_handed m' info' /\
  initrd_base info' = initrd_base info /\ initrd_size info' = initrd_size info.
Proof using FL.
  intros E. unfold exit_boot_services in E. apply bind_inv in E as (m1 & [s1 r1] & E1 & E).
  apply fl_map in E1 as [K1 _]; [|intros a Ha; lia]. cbn [fst snd] in E.
  apply bind_inv in E as (m2 & [s2 p] & E2 & E). apply fl_pool in E2 as (K2 & _ & Hp). cbn [fst snd] in E.
  destruct (Z.eqb_spec s2 EFI_SUCCESS) as [->|Hs]; cbn [negb] in E; [|injection E; congruence].
  specialize (Hp eq_refl). apply bind_inv in E as (m3 & [s3 r3] & E3 & E). apply fl_map in E3 as [K3 Hm]; [|by apply (fresh_owned _ _ m1)].
  cbn [fst snd] in E. destruct (Z.eqb_spec s3 EFI_SUCCESS) as [->|Hs]; cbn [negb] in E; [|injection E; congruence].
  destruct (Hm eq_refl) as (M1 & M2 & M3 & M4).
  pose proof (fresh_keeps _ _ _ _ _ K2 Hp K3) as K13.
  apply bind_inv in E as (m4 & st & E4 & E). injection E as -> -> <-.
  apply fl_exit in E4 as (K4 & _ & F1 & F2). split_and!; [| |done|done].
  - transitivity m1; [exact K1|by transitivity m3].
  - split; cbn [memory_map_base memory_map_size memory_descriptor_size]; [|congruence|congruence].
    rewrite F1. by apply (in_memory_keeps m3).
Qed.

Lemma framebuffer_info_no_initrd (m m' : M) info :
  framebuffer_info m = (m', info) -> initrd_base info = 0 /\ initrd_size info = 0.
Proof using.
  unfold framebuffer_info, st_bind, look, st_ret. destruct (locate_gop m) as [m1 [gop|]]; [|by intros [= _ <-]].
  repeat case_match; by intros [= _ <-].
Qed.

(** The boot image the kernel opens: none, or the file's first bytes; the path may also
    be a directory's, which the loader reads all the same. *)
Definition boot_image_handed (m m' : M) (image : Z) (info : BootInfo) : Prop :=
  (initrd_base info = 0 /\ initrd_size info = 0) \/ fw_dir m image INITRD_PATH \/
  exists file, fw_file m image INITRD_PATH = Some file /\
    initrd_size info = blen (take (Z.to_nat INITRD_READ_LIMIT) file) /\
    in_memory m' (initrd_base info) (take (Z.to_nat INITRD_READ_LIMIT) file).

(** The end of [boot_kernel], once the kernel is loaded. *)
Lemma boot_rest (m m' : M) image t entry e info :
  (do! set_graphics_mode 1024 768 in
   let* info := framebuffer_info in
   let* initrd := read_file image INITRD_PATH INITRD_READ_LIMIT in
   let info := if fb_status initrd =? EFI_SUCCESS
               then {| info with initrd_base := fb_ptr initrd; initrd_size := fb_len initrd |}
               else info in
   do! write_uefi t JUMP_MESSAGE in
   do! serial_write SERIAL_JUMP_MESSAGE in
   let* r := exit_boot_services image info in
   st_ret (if negb (fst r =? EFI_SUCCESS) then BootFailed (fst r) else Jump e (snd r))) m = (m', Jump entry info) ->
  entry = e /\ keeps m m' /\ map_handed m' info /\ boot_image_handed m m' image info.
Proof using FL.
  intros E. apply bind_inv in E as (m1 & u1 & E1 & E). apply (silent_elim _ _ _ _ (silent_set_graphics_mode _ _)) in E1.
  apply bind_inv in E as (m2 & i0 & E2 & E). destruct (framebuffer_info_no_initrd _ _ _ E2) as [B0 S0].
  apply (silent_elim _ _ _ _ silent_framebuffer_info) in E2. assert (K2 : keeps m m2) by by transitivity m1.
  apply bind_inv in E as (m3 & fb & E3 & E). apply read_file_spec in E3 as [K3 Hfb]; [|done].
  cbv zeta in E. set (i1 := if _ =? _ then _ else _) in E.
  apply bind_inv in E as (m4 & u4 & E4 & E). apply (silent_elim _ _ _ _ (silent_write_uefi _ _)) in E4.
  apply bind_inv in E as (m5 & u5 & E5 & E). apply (silent_elim _ _ _ _ (silent_serial_write _)) in E5.
  apply bind_inv in E as (m6 & [st i2] & E6 & E). cbn [fst snd] in E.
  destruct (Z.eqb_spec st EFI_SUCCESS) as [->|Hs]; cbn [negb] in E; [|discriminate]. injection E as <- <- <-.
  apply exit_boot_services_spec in E6 as (K6 & Hmap & Hb & Hsz).
  assert (K36 : keeps m3 m6) by (transitivity m4; [done|by transitivity m5]).
  split_and!; [done|transitivity m2; [done|by transitivity m3]|done|].
  unfold boot_image_handed. rewrite Hb, Hsz. unfold i1.
  destruct (Z.eqb_spec (fb_status fb) EFI_SUCCESS) as [Hst|Hst]; [right|by left].
  destruct (file_read_from m _ _ _ _ _ _ K2 (Hfb Hst)) as [Hd|(file & F1 & F2 & F3)]; [by left|right]. exists file.
  split_and!; [done|done|]. by apply (in_memory_keeps m3).
Qed.

(** The state at the jump. *)
Lemma boot_handed (m m' : M) image t kernel entry info :
  fw_file m image KERNEL_PATH = Some kernel ->
  elf_sane (take (Z.to_nat KERNEL_READ_LIMIT) kernel) ->
  boot_kernel image t m = (m', Jump entry info) ->
  let file := take (Z.to_nat KERNEL_READ_LIMIT) kernel in
  entry = e_entry (elf_header (image_of file)) /\ image_placed file m m' /\
  boot_image_handed m m' image info /\ map_handed m' info /\ keeps m m'.
Proof using FL.
  intros Hfile Hsane E. cbv zeta. set (K := take _ kernel) in *. unfold boot_kernel in E.
  destruct t as [t|]; [|discriminate]. apply bind_inv in E as (m1 & u1 & E1 & E).
  apply (silent_elim _ _ _ _ (silent_write_uefi _ _)) in E1. destruct (boot_services t =? 0); [discriminate|].
  apply bind_inv in E as (m2 & fb & E2 & E). apply read_file_spec in E2 as [K2 Hfb]; [|done].
  destruct (Z.eqb_spec (fb_status fb) EFI_SUCCESS) as [Hst|Hst]; cbn [negb] in E; [|discriminate].
  destruct (file_read_from m _ _ _ _ _ _ E1 (Hfb Hst)) as [Hd|(c & F1 & F2 & F3)]; [by destruct (fl_kind _ _ _ _ Hfile)|].
  rewrite Hfile in F1. injection F1 as <-.
  fold K in F2, F3. rewrite F2 in E. apply bind_inv in E as (m3 & e & E3 & E).
  apply (load_elf_spec _ _ Hsane) in E3 as [K3 Hl]; [|done].
  destruct (Z.eqb_spec e 0) as [|He]; [discriminate|]. destruct (Hl He) as [He' Hplaced].
  apply boot_rest in E as (-> & K4 & Hmap & Himg).
  assert (K02 : keeps m m2) by by transitivity m1. assert (K03 : keeps m m3) by by transitivity m2.
  split_and!; [done| | |done|by transitivity m3].
  - eapply Forall_impl; [exact Hplaced|]. intros ph Hp. by apply (placed_keeps _ m m2 m3 m').
  - destruct Himg as [?|[Hd|(file & G1 & G2 & G3)]]; [by left|right; left; by apply (kb_dir _ _ _ _ K03)|right; right].
    exists file. by rewrite <- (kb_file _ _ _ _ K03).
Qed.


End HandOver.

(** ** The kernel's view *)

Section KernelView.

Context {M : Type} `{FL : FirmwareLaws M}.

Lemma read_descriptor_ext a b at1 at2 :
  (forall i, 0 <= i < 32 -> a (at1 + i) = b (at2 + i)) -> read_descriptor a at1 = read_descriptor b at2.
Proof using.
  intros He. assert (Hs : forall off len, 0 <= off -> off + len <= 32 ->
    slice a (at1 + off) len = slice b (at2 + off) len).
  { intros off len H1 H2. unfold slice. apply map_ext_in. intros k Hk. apply in_seq in Hk.
    rewrite <- !Z.add_assoc. apply He. lia. }
  unfold read_descriptor, read_u32, read_u64.
  pose proof (Hs 0 4 ltac:(lia) ltac:(lia)) as H1. rewrite !Z.add_0_r in H1.
  by rewrite H1, !Hs by lia.
Qed.

(** The kernel reads the firmware's map. *)
Lemma kernel_map_read (m : M) info l :
  map_handed m info -> kernel_memory_map info (fw_mem m) = Some l ->
  l = descriptors_at (image_of (fw_map m)) 0 (blen (fw_map m)) (fw_descriptor_size m).
Proof using FL.
  intros [Hb Hs Hd] E. unfold kernel_memory_map in E. destruct (_ || _ || _); [discriminate|]. injection E as <-.
  rewrite Hs, Hd. pose proof (fl_descriptor_size m) as H40. unfold descriptors_at. apply map_ext_in.
  intros index Hi. apply in_seq in Hi. set (ds := fw_descriptor_size m) in *.
  assert (Hin : (Z.of_nat index + 1) * ds <= blen (fw_map m)).
  { transitivity (blen (fw_map m) / ds * ds); [nia|]. rewrite Z.mul_comm. apply Z.mul_div_le. lia. }
  apply read_descriptor_ext. intros i Hr. set (k := Z.of_nat index * ds + i).
  destruct (Hb (Z.to_nat k)) as [_ E]; [unfold blen in *; unfold k; nia|].
  rewrite Z2Nat.id in E by (unfold k; nia). unfold image_of.
  replace (memory_map_base info + Z.of_nat index * ds + i) with (memory_map_base info + k) by (unfold k; lia).
  by replace (0 + Z.of_nat index * ds + i) with k by (unfold k; lia).
Qed.

(** C7: After a boot whose memory map is sane, no page the kernel's page allocator can
    hand out meets memory that was given out before the jump: not the kernel's segments,
    not the boot image, not the memory map. *)
Theorem kernel_pages_are_free (m m' : M) image t kernel entry info l p k :
  fw_file m image KERNEL_PATH = Some kernel ->
  elf_sane (take (Z.to_nat KERNEL_READ_LIMIT) kernel) ->
  boot_kernel image t m = (m', Jump entry info) ->
  kernel_memory_map info (fw_mem m') = Some l -> map_wf l ->
  available (init_physical_allocator (Some l)) p -> 0 <= k < PAGE_SIZE ->
  ~ fw_owned m' (p + k).
Proof using FL.
  intros Hfile Hsane E El Hl Hp Hk. destruct (boot_handed m m' image t kernel entry info Hfile Hsane E)
    as (_ & _ & _ & Hmap & _). pose proof (kernel_map_read m' info l Hmap El) as ->.
  destruct (init_pages _ p Hl Hp) as (d & Hd & Ht & _ & H1 & H2).
  apply (fl_free m' d (p + k)); [exact Hd|done|]. unfold PAGE_SIZE in *. lia.
Qed.

End KernelView.
