(* ===== verification/BootDemo.v ===== *)
(** * A firmware that keeps the laws

    A small UEFI: memory handed out as ranges that never overlap, a volume of files behind
    handles that have a position and are closed, a memory map with one region that is free
    while nothing of it was given out. It discharges [FirmwareLaws], and the theorems of
    BootThm.v apply to a boot on it. *)

From S2P Require Import Prelude Constants Text Hw Console BootFs Phys Elf Boot BootThm.

(** What a handle of the file protocol stands for: the root directory, a file with what
    is left to read, or nothing any more. *)
Inductive FileHandle : Type := RootDir | OpenFile (rest : bytes) | ClosedHandle.

Record Uefi : Type := mkUefi {
  u_mem : arr;
  u_ranges : list (Z * Z);
  u_next : Z;
  u_files : list (list Z * bytes);
  u_handles : list FileHandle;
  u_key : Z;
  u_serial : bytes
}.

Definition in_given (a : Z) (r : Z * Z) : Prop := fst r <= a < fst r + snd r.

Definition given (m : Uefi) (a : Z) : Prop := Exists (in_given a) (u_ranges m).

Definition apart (lo size : Z) (r : Z * Z) : bool :=
  (lo + size <=? fst r) || (fst r + snd r <=? lo) || (size <=? 0).

Definition range_free (m : Uefi) (lo size : Z) : bool := forallb (apart lo size) (u_ranges m).

Definition give (lo size : Z) (m : Uefi) : Uefi :=
  {| m with u_ranges := (lo, size) :: u_ranges m; u_key := u_key m + 1 |}.

Definition give_range (lo size : Z) : ST Uefi Z := fun m =>
  if range_free m lo size then (give lo size m, 0) else (m, 9).

Fixpoint file_of (p : list Z) (l : list (list Z * bytes)) : option bytes :=
  match l with
  | [] => None
  | (q, content) :: rest => if bytes_eq q p then Some content else file_of p rest
  end.

(** The free region: 16 pages at 0x10000000. *)
Definition FREE_BASE : Z := 0x10000000.
Definition FREE_PAGES : Z := 16.

Definition descriptor_bytes (typ : Z) : bytes :=
  to_le_bytes 4 typ ++ [0; 0; 0; 0] ++ to_le_bytes 8 FREE_BASE ++ to_le_bytes 8 0 ++
  to_le_bytes 8 FREE_PAGES ++ to_le_bytes 8 0.

Definition map_bytes (m : Uefi) : bytes :=
  descriptor_bytes (if range_free m FREE_BASE (FREE_PAGES * 4096) then 7 else 2).

Definition next_handle (m : Uefi) : Z := Z.of_nat (length (u_handles m)).
Definition new_handle (h : FileHandle) (m : Uefi) : Uefi := {| m with u_handles := u_handles m ++ [h] |}.

Definition same_state {A} (a : A) : ST Uefi A := st_ret a.

#[export] Instance uefi_ports : Ports Uefi := {
  outb := fun port value m => ({| m with u_serial := u_serial m ++ [value] |}, tt);
  inb := fun _ => same_state 0xFF;
  outw := fun _ _ => same_state tt;
  inw := fun _ => same_state 0xFFFF;
  outl := fun _ _ => same_state tt;
  inl_port := fun _ => same_state 0xFFFFFFFF;
  rdtsc := same_state 0
}.

#[export] Instance uefi_firmware : Firmware Uefi := {
  output_string := fun _ _ => same_state 0;
  handle_protocol := fun h _ => same_state (0, h);
  open_volume := fun _ m => (new_handle RootDir m, (0, next_handle m));
  file_open := fun root p _ m =>
    match u_handles m !! Z.to_nat root, file_of p (u_files m) with
    | Some RootDir, Some content => (new_handle (OpenFile content) m, (0, next_handle m))
    | _, _ => (m, (EFI_NOT_FOUND, 0))
    end;
  file_read := fun f size buf m =>
    match u_handles m !! Z.to_nat f with
    | Some (OpenFile rest) =>
        let n := Z.min size (blen rest) in
        ({| m with u_mem := blit (u_mem m) buf (take (Z.to_nat n) rest);
                   u_handles := <[Z.to_nat f := OpenFile (drop (Z.to_nat n) rest)]> (u_handles m) |}, (0, n))
    | _ => (m, (7, 0))
    end;
  file_close := fun f m => ({| m with u_handles := <[Z.to_nat f := ClosedHandle]> (u_handles m) |}, tt);
  allocate_pool := fun _ size m =>
    let lo := u_next m in
    let '(m, s) := give_range lo size m in
    ({| m with u_next := lo + Z.max 0 size |}, (s, lo));
  allocate_pages := fun _ _ pages start => give_range start (pages * 4096);
  get_memory_map := fun size buf m =>
    let answer := mkMapAnswer 40 (u_key m) 40 in
    if size <? 40 then (m, (5, answer))
    else ({| m with u_mem := blit (u_mem m) buf (map_bytes m) |}, (0, answer));
  exit_services := fun _ key m => if key =? u_key m then (m, 0) else (m, 2);
  locate_protocol := fun _ => same_state (0, 1);
  query_mode := fun _ _ => same_state (0, 1);
  set_mode := fun _ _ => same_state 0;
  device_handle := fun _ h => h;
  gop_mode := fun _ _ => 1;
  mode_at := fun _ _ => mkGopMode 1 1 0x80000000 3145728;
  mode_info_at := fun _ _ => mkModeInfo 1024 768 1 1024;
  fw_mem := u_mem;
  fw_store := fun a b m => ({| m with u_mem := aset (u_mem m) a b |}, tt);
  fw_owned := given;
  fw_root := fun m _ root => u_handles m !! Z.to_nat root = Some RootDir;
  fw_file := fun m _ p => file_of p (u_files m);
  fw_dir := fun _ _ _ => False;
  fw_opened := fun m f rest => u_handles m !! Z.to_nat f = Some (OpenFile rest);
  fw_key := u_key;
  fw_map := map_bytes;
  fw_descriptor_size := fun _ => 40
}.

(** ** The laws *)

Lemma range_free_spec m lo size :
  range_free m lo size = true -> forall a, lo <= a < lo + size -> ~ given m a.
Proof.
  intros Hf a Ha Hg. apply Exists_exists in Hg as (r & Hr & Hin). unfold in_given in Hin.
  unfold range_free in Hf. rewrite forallb_forall in Hf. apply list_elem_of_In in Hr.
  specialize (Hf r Hr). unfold apart in Hf. lia.
Qed.

Lemma give_range_spec lo size m m' s :
  give_range lo size m = (m', s) ->
  keeps m m' /\ (s = EFI_SUCCESS -> fresh_range lo size m m') /\ u_next m' = u_next m.
Proof.
  unfold give_range. destruct (range_free m lo size) eqn:Ef; intros [= <- <-].
  - split_and!; [split; try done; intros a Ha; by right| |done]. intros _ a Ha. split.
    + by apply (range_free_spec m lo size).
    + by left.
  - by split_and!.
Qed.

(** Memory is given out whatever the handles are. *)
Lemma give_range_handles lo size m m' s : give_range lo size m = (m', s) -> u_handles m' = u_handles m.
Proof. unfold give_range. by destruct (range_free m lo size); intros [= <- _]. Qed.

Lemma next_handle_new h m : u_handles (new_handle h m) !! Z.to_nat (next_handle m) = Some h.
Proof. unfold next_handle. cbn. rewrite Nat2Z.id. by apply list_lookup_middle. Qed.

(** A change of memory inside a range. *)
Lemma blit_keeps (m : Uefi) handles buf l size :
  blen l <= Z.max 0 size -> keeps_but buf size m {| m with u_mem := blit (u_mem m) buf l; u_handles := handles |}.
Proof.
  intros Hl. split; try done. intros a _ Ha. cbn. unfold blit. case_goal; [lia|done].
Qed.

Lemma blit_in_memory (m : Uefi) handles buf l :
  (forall k, (k < length l)%nat -> given m (buf + Z.of_nat k)) ->
  in_memory {| m with u_mem := blit (u_mem m) buf l; u_handles := handles |} buf l.
Proof.
  intros Hg k Hk. split; [exact (Hg k Hk)|]. cbn. unfold blit, blen.
  case_goal; [|lia]. f_equal. lia.
Qed.

Lemma map_bytes_length m : blen (map_bytes m) = 40.
Proof. unfold map_bytes. by destruct (range_free _ _ _). Qed.

Lemma map_descriptors m :
  descriptors_at (image_of (map_bytes m)) 0 (blen (map_bytes m)) 40 =
  [mkEfi (if range_free m FREE_BASE (FREE_PAGES * 4096) then 7 else 2) FREE_BASE FREE_PAGES].
Proof. unfold map_bytes. by destruct (range_free _ _ _); vm_compute. Qed.

#[export] Instance uefi_laws : FirmwareLaws Uefi.
Proof.
  split; try (intros; by split).
  - intros image m m1 li m2 fs m3 root _ _ [= <- <-]. apply next_handle_new.
  - intros m image p content _ [].
  - intros image root p m m' s f Hr. cbn in Hr |- *. rewrite Hr. destruct (file_of p (u_files m)) as [c|] eqn:Ef; intros [= <- <- <-].
    + split; [by split|]. intros _. right. exists c. split; [done|]. apply next_handle_new.
    + split; [by split|]. discriminate.
  - intros f size buf m m' s n Ho. cbn. destruct (u_handles m !! Z.to_nat f) as [[|c|]|] eqn:Ef; intros [= <- <- <-];
      try (split; [by split|discriminate]).
    pose proof (blen_nonneg c). split.
    { apply blit_keeps. unfold blen in *. rewrite length_take. lia. }
    intros _ rest Hc. assert (rest = c) as -> by congruence. split; [done|]. split.
    + apply blit_in_memory. intros k Hk. apply Ho. rewrite length_take in Hk. unfold blen in *. lia.
    + cbn. apply list_lookup_insert_eq. by eapply lookup_lt_Some.
  - intros t size m m' s p. cbn. destruct (give_range (u_next m) size m) as [m1 s1] eqn:E.
    pose proof (give_range_handles _ _ _ _ _ E) as Eh. apply give_range_spec in E as ([K1 K2 K3 K4] & Hf & _).
    intros [= <- <- <-]. split; [by split|]. split; [intros f rest; cbn; by rewrite Eh|].
    intros Hs a Ha. destruct (Hf Hs a Ha). by split.
  - intros pages start m m' s. cbn. intros E. apply give_range_spec in E as (K & Hf & _). by split.
  - intros size buf m m' s r Ho. cbn. destruct (Z.ltb_spec size 40); intros [= <- <- <-]; [by split|].
    split; [apply (blit_keeps _ m.(u_handles)); rewrite map_bytes_length; lia|]. intros _.
    split_and!; [by rewrite map_bytes_length|done|done|]. apply blit_in_memory. intros k Hk. apply Ho.
    assert (Hk' : (k < length (map_bytes m))%nat) by exact Hk. pose proof (map_bytes_length m). unfold blen in *. lia.
  - intros i key m m'. cbn. destruct (Z.eqb_spec key (u_key m)) as [->|]; intros [= <-]. by split_and!.
  - intros a b m _. cbn. split; [|apply aset_same]. split; try done.
    intros x _ Hx. cbn. apply aset_other. lia.
  - done.
  - intros m. change (Forall is_u8 (map_bytes m)). unfold map_bytes.
    destruct (range_free m _ _); vm_compute; repeat constructor; discriminate.
  - intros m d a Hd Ht Ha. change (fun i => nth (Z.to_nat i) (fw_map m) 0) with (image_of (map_bytes m)) in Hd.
    change (fw_map m) with (map_bytes m) in Hd. change (fw_descriptor_size m) with 40 in Hd.
    rewrite map_descriptors in Hd. apply list_elem_of_singleton in Hd as ->. cbn in Ht, Ha.
    destruct (range_free m FREE_BASE (FREE_PAGES * 4096)) eqn:Ef; [|discriminate].
    by apply (range_free_spec m FREE_BASE (FREE_PAGES * 4096)).
Qed.

(** ** A boot *)

(** A volume with the kernel of one segment of Elf.v and an empty boot image. *)
Definition tiny_kernel : bytes := slice tiny_elf 0 123.
Definition tiny_initrd : bytes := BOOTFS_MAGIC ++ [0; 0; 42; 0].

Definition demo_uefi : Uefi :=
  mkUefi zeroed [] 0x1000000 [(KERNEL_PATH, tiny_kernel); (INITRD_PATH, tiny_initrd)] [] 0 [].

Definition demo_table : option EfiSystemTable := Some (mkSystemTable 1 1).

(** What the loader tells the kernel. *)
Definition demo_info : BootInfo :=
  mkBootInfo 0x80000000 3145728 1024 768 1024 1 0x1100000 12 0x3100000 40 40.

Lemma demo_boots : exists m', boot_kernel 1 demo_table demo_uefi = (m', Jump 0x200001 demo_info).
Proof.
  destruct (boot_kernel 1 demo_table demo_uefi) as [m' r] eqn:E. exists m'. f_equal.
  change r with (snd (m', r)). rewrite <- E. vm_compute. reflexivity.
Qed.

Lemma tiny_kernel_whole : take (Z.to_nat KERNEL_READ_LIMIT) tiny_kernel = tiny_kernel.
Proof. apply take_ge. unfold tiny_kernel. rewrite length_slice. unfold KERNEL_READ_LIMIT. lia. Qed.

Lemma tiny_headers : program_headers (image_of tiny_kernel) = [mkPh PT_LOAD 120 0x200000 3 5].
Proof. vm_compute. reflexivity. Qed.

Lemma tiny_kernel_sane : elf_sane tiny_kernel.
Proof.
  split.
  - apply Forall_forall. intros x Hx. apply list_elem_of_In, in_map_iff in Hx as (k & <- & _). apply tiny_bytes.
  - vm_compute. reflexivity.
  - rewrite tiny_headers. constructor; [|constructor]. unfold no_overflow, is_u64. simpl. lia.
Qed.

Lemma demo_file : fw_file demo_uefi 1 KERNEL_PATH = Some tiny_kernel.
Proof. vm_compute. reflexivity. Qed.


(** The free region, as the kernel reads it. *)
Lemma demo_map_read m' :
  boot_kernel 1 demo_table demo_uefi = (m', Jump 0x200001 demo_info) ->
  kernel_memory_map demo_info (fw_mem m') = Some [mkEfi 7 FREE_BASE FREE_PAGES].
Proof.
  intros E. change m' with (fst (m', Jump 0x200001 demo_info)). rewrite <- E. vm_compute. reflexivity.
Qed.

Lemma demo_free_map : map_wf [mkEfi 7 FREE_BASE FREE_PAGES].
Proof.
  split; [by repeat constructor|]. intros i j d1 d2 p Hi Hj _ _.
  destruct i, j; try done; simpl in *; rewrite lookup_nil in *; done.
Qed.

Lemma kernel_pages_are_free_witness :
  exists m', boot_kernel 1 demo_table demo_uefi = (m', Jump 0x200001 demo_info) /\
    available (init_physical_allocator (Some [mkEfi 7 FREE_BASE FREE_PAGES])) FREE_BASE /\
    ~ fw_owned m' (FREE_BASE + 5).
Proof.
  destruct demo_boots as [m' E]. exists m'.
  assert (Ha : available (init_physical_allocator (Some [mkEfi 7 FREE_BASE FREE_PAGES])) FREE_BASE).
  { right. constructor. vm_compute. repeat split; discriminate. }
  split; [exact E|]. split; [exact Ha|].
  exact (kernel_pages_are_free demo_uefi m' 1 demo_table tiny_kernel 0x200001 demo_info _ FREE_BASE 5 demo_file
    ltac:(rewrite tiny_kernel_whole; exact tiny_kernel_sane) E (demo_map_read m' E) demo_free_map Ha
    ltac:(unfold PAGE_SIZE; lia)).
Defined.
